(* ===== verification/_CoqProject ===== *)
-Q . S2P
Prelude.v
GoStrings.v
GoStringsFacts.v
GoFloat.v
GoCrypto.v
GoJson.v
ApiTypes.v
ThinkingEnvelope.v
ResponsesToAnthropic.v
ResponsesToAnthropicProofs.v
ResponsesToChat.v
ResponsesToChatProofs.v
AnthropicToResponses.v
AnthropicToResponsesProofs.v
Idempotency.v
IdempotencyProofs.v
ChatBridge.v
ChatBridgeSim.v
ChatBridgeProofs.v
Programs.v
PaymentOrders.v
PaymentOrdersProofs.v
PaymentRefunds.v
PaymentRefundsProofs.v
StreamCircuit.v
StreamCircuitProofs.v
Redis.v
ConcurrencyScripts.v
ConcurrencyCache.v
ConcurrencyScriptsProofs.v
ConcurrencySafety.v
ConcurrencyCacheProofs.v
ConcurrencyService.v
ConcurrencyServiceProofs.v
GoTime.v
Subscriptions.v
SubscriptionsMachine.v
SubscriptionsProofs.v
SubscriptionsSequential.v
Transactions.v
BillingTables.v
UsageBilling.v
BatchImages.v
BillingSpec.v
UsageBillingProofs.v
BatchImagesProofs.v
BillingMachine.v
BillingSafety.v
BillingSequential.v
BillingRuns.v
