(* ===== verification/Prelude.v ===== *)
(** * Verification of the nuro-s2 gateway

    nuro-s2 is an API gateway in Go that resells access to language models: a
    client speaks Anthropic Messages, OpenAI Responses or OpenAI Chat
    Completions, the gateway picks an upstream account, translates the request
    and its (usually streamed) answer between those protocols, bills the tokens
    and protects write requests with idempotency keys.  This development models
    the parts that carry its own logic and have a contract: the protocol
    translators, the idempotency coordinator with its table, payment orders from
    the notification of a provider to the credited balance and their refunds, the circuit
    breaker that takes failing proxies out of scheduling, the slots in Redis that
    bound how many requests a user, an API key and an account serve at once,
    subscriptions with their terms and quota windows, and the billing of usage with
    the holds that batches of images put on a balance.

    ** Parts, files and sources (paths under [src/backend/internal])

    - [Prelude.v] (this file): record update, 64-bit integers, the running of a
      stateful converter over a stream ([run]), handlers in sequence ([;;]),
      automata that accept output streams ([accepts]).
    - [GoStrings.v], [GoJson.v], [GoCrypto.v], [GoFloat.v]: what the sources use
      of Go's [strings], [strconv], [unicode/utf8], [encoding/json] (validity,
      object members, string quoting), [crypto/sha256], [crypto/hmac],
      [encoding/base64], [float64] and [math].  A string is a Rocq [string] of
      bytes, a [float64] a binary64 number of the Standard Library's executable
      specification.  [GoStringsFacts.v] has lemmas on trimming and digits.
    - [ApiTypes.v]: the structs of [pkg/apicompat/types.go] that responses and
      stream events are made of, and the vendor aliases resolved by
      [ResponsesUsage.UnmarshalJSON].
    - [ThinkingEnvelope.v]: [pkg/claude/model_capabilities_v028.go] and the
      encoder of [pkg/apicompat/anthropic_thinking_envelope.go].
    - [ResponsesToAnthropic.v] / [ResponsesToAnthropicProofs.v]:
      [pkg/apicompat/responses_to_anthropic.go].  A Responses stream becomes an
      Anthropic stream; [convertStream] folds [ResponsesEventToAnthropicEvents]
      over the events and runs the finalizer, as the gateway's stream loop does.
    - [ResponsesToChat.v] / [ResponsesToChatProofs.v]:
      [pkg/apicompat/responses_to_chatcompletions.go], the same towards Chat
      Completions, and [BufferedResponseAccumulator], which rebuilds a response
      for clients that do not stream.  A [strings.Builder] carries the address it
      was first written at, a slice its array and capacity, so that Go's panic on
      a copied builder is visible.
    - [AnthropicToResponses.v] / [AnthropicToResponsesProofs.v]:
      [pkg/apicompat/anthropic_to_responses_response.go], the other direction.
    - [Idempotency.v] / [IdempotencyProofs.v]: [service/idempotency.go] and
      [repository/idempotency_repo.go].  [Execute] is a program over repository
      calls; each repository call is one SQL statement on a table with a unique
      index, so concurrent requests interleave between calls.
    - [ChatBridge.v] / [ChatBridgeSim.v], [ChatBridgeProofs.v]: the response side
      of [pkg/apicompat/chatcompletions_responses_bridge.go] and
      [pkg/apicompat/chat_tool_compat.go]: Chat Completions answers become
      Responses answers, streamed and buffered, with items that are open at the
      same time.  [ChatBridgeSim.v] has the simulation by the protocol.
    - [PaymentOrders.v] / [PaymentOrdersProofs.v]: [service/payment_fulfillment.go],
      [service/payment_order_lifecycle.go],
      [service/payment_order_provider_snapshot.go], [payment/currency.go], the end
      of order creation in [service/payment_order.go], and redeeming a code in
      [service/redeem_service.go] and [repository/redeem_code_repo.go].  A handler
      is a program ([prog] of [Programs.v]) whose calls (one statement,
      transaction, clock reading or request to another service each) are explicit;
      [exec] is what a call does to the tables, [pay_step] interleaves any number
      of handlers, call by call, with calls that are lost before or after their
      effect.
    - [PaymentRefunds.v] / [PaymentRefundsProofs.v]: [service/payment_refund.go],
      in the same way, with the refunds of the payment providers as a table of
      their own; [refund_step] also lets fulfilment write rows that are not being
      refunded and providers settle pending refunds.
    - [StreamCircuit.v] / [StreamCircuitProofs.v]:
      [service/openai_proxy_stream_circuit.go].
    - [Redis.v]: what the gateway relies on of the Redis server, which is not its
      code: the class [RedisServer] states the documented effect of each command
      the Lua scripts and Go methods issue; scripts are programs over commands that
      run without interleaving; [keyspace_server] is an instance.
    - [ConcurrencyScripts.v], [ConcurrencyCache.v] / [ConcurrencyScriptsProofs.v],
      [ConcurrencySafety.v], [ConcurrencyCacheProofs.v]: the Lua scripts and the
      methods of [repository/concurrency_cache.go].  A method is a program over
      requests to Redis, each of which can fail before or after its effect
      ([weather]); [ConcurrencySafety.v] has the machine that interleaves requests of
      any number of gateway processes, crashes and the passing of time.
    - [ConcurrencyService.v] / [ConcurrencyServiceProofs.v]:
      [service/concurrency_service.go] on top of the cache: request identifiers,
      slots with their release functions, wait queues, load batches.
    - [GoTime.v]: Go's [time] as far as subscriptions use it: zones with their
      transitions, [time.Date], [AddDate], midnight, [Sub].
    - [Subscriptions.v] / [SubscriptionsMachine.v], [SubscriptionsProofs.v],
      [SubscriptionsSequential.v]: [service/user_subscription.go],
      [service/subscription_service.go], [repository/user_subscription_repo.go], the
      sweep of [service/subscription_expiry_service.go] and the admission of requests
      in [server/middleware/api_key_auth.go].  A repository method is a SQL statement
      on the table ([run_stmt]); PostgreSQL's timestamps and decimals are the class
      [Postgres].  [SubscriptionsMachine.v] has threads with transactions and row locks
      ([sub_step]), the invariant of the tables and what a thread relies on ([rely]).
    - [Transactions.v]: threads that issue statements inside and outside
      PostgreSQL transactions at READ COMMITTED, generic in the tables: entries
      written by one transaction are closed to others until it ends; rollback, lost
      replies and crashes; the logic
      [wp] for programs with a rely condition; [play], which runs a schedule and
      yields a reachable state.
    - [BillingTables.v]: the rows and statements of the billing tables
      (users, keys, accounts, claims and their archive, batch jobs); the class
      [PgEnv] states what is relied on of the server.  Amounts are exact decimals
      in units of 10^-324, in which every finite [float64] and [numeric] product of
      the code is an integer.
    - [UsageBilling.v] / [UsageBillingProofs.v]: [service/usage_billing.go],
      [repository/usage_billing_repo.go] ([Apply], [ReserveBatchImageBalance],
      [CaptureBatchImageBalance], [ReleaseBatchImageBalance]) and the retention of
      claims, [CleanupUsageBillingDedup] of
      [repository/dashboard_aggregation_repo.go].
    - [BatchImages.v] / [BatchImagesProofs.v]: jobs with their states, holds,
      settlement, recovery and the parts of processing, submission and
      cancellation that touch the balance: [service/batch_image.go],
      [service/batch_image_billing_hold.go], [service/batch_image_settlement.go],
      [service/batch_image_billing_recovery.go],
      [service/batch_image_processor.go], [service/batch_image_public.go],
      [repository/batch_image_repo.go].
    - [BillingSpec.v], [BillingMachine.v], [BillingSafety.v], [BillingSequential.v],
      [BillingRuns.v]: what
      a committed transaction may change ([lawful]) stated without the code; the
      machine that runs any number of these handlers at once; the theorems over its
      reachable states; a charge that runs alone ([attend]); concrete schedules.

    The definitions of a component are in its model file under the names of the
    Go functions; the handlers of a stream converter have type [handler], from a
    state to the new state and the emitted events.  What a function takes from
    outside (clock, random identifiers, generated uuids, the order a Go map is
    ranged over, how [append] grows) is an argument.

    ** What the theorems show

    - Translators: each streaming converter refines the target protocol, given as
      an automaton written from the protocol and not from the code: for every
      input stream (or every well-formed one, where the source relies on it) the
      output is empty or one complete, properly nested message with exactly one
      terminal event.  Text is neither lost nor repeated, arguments are completed
      by their done events, token accounting does not wrap and survives the round
      trip, a response survives the round trip between protocols, and the
      buffered path gives the message a streaming client assembles.
    - Idempotency: over every interleaving of requests, lost repository requests,
      lost replies and cleanup runs, the operation of a key succeeds at most once
      and never runs twice at the same time, as long as locks and records live
      ([wstep] carries that window); replay, conflict, backoff and retry of single
      requests; bounds of keys; truncation of stored responses.
    - Payments: in every reachable state an order is credited at most once, and
      every credit belongs to an order whose price a provider has reported as
      paid; an accepted notification processed without faults completes its
      order; a rejected one changes nothing.  The invariant [pay_inv] is kept by
      every call whose demands ([call_pre]) are met, and every handler meets them
      whatever happens between its calls ([safe]).
    - Refunds: at most one refund of an order is ever pending or made, by a
      rely-guarantee argument ([rely], [meets]) in which the thread that locked an
      order owns it; a refund without faults returns what it deducted or ends in
      a refund status.
    - Circuit breaker: boundedness and consistency of the table with its lock-free
      snapshot for every history, tripping exactly at the threshold, no early end
      of a quarantine, and pruning that no later call can observe.
    - Concurrency: in every interleaving no user, key or account holds more live
      slots than the limit its requests were admitted with; the batch acquisitions
      select the first candidate with room and take both slots or none; cleaning up
      after dead processes keeps the slots of live ones; wait counters stay between
      zero and their bound; an account in cooldown is not selected; request
      identifiers of a process are distinct, and a release function gives back
      exactly what was acquired.
    - Subscriptions: renewals and adjustments that run at the same time are
      serialized by the row lock (each is computed from the row it replaces, [lawful]);
      maintenance never clears a window that another run has moved on, so that recorded
      usage is not lost while a window lasts; the check of limits in memory agrees with
      the maintained table; windows roll over to their latest boundary; assigning is
      idempotent; revoking and restoring is a round trip.
    - Usage billing: every committed transaction of every interleaving is one of the
      changes the specification allows ([billing_runs_are_lawful]); a request of an
      API key is charged at most once, also after its claim has moved to the archive;
      the balance and the frozen balance of a user are what the committed charges,
      holds, captures and releases add up to, within the rounding of the columns; the
      hold of a batch is reserved, captured and released at most once each, always
      for the same user, key and amount.  A new request attempted without faults is
      charged, and no later attempt changes anything ([a_new_request_is_charged]).
    - Eleven theorems describe defects of the code as it is:
      [interleaved_arguments_panic], [truncated_stream_drops_text],
      [untranslated_block_corrupts_message], [oversized_response_never_replays],
      [chat_bridge_unprotected], [payment_unprotected],
      [refund_gets_stuck], [late_renewal_exceeds_limit],
      [usage_before_maintenance_is_dropped], [a_captured_hold_can_be_released],
      [holds_can_be_stranded].

    ** Bounds and fuel

    Recursion over the bytes of a string uses the string's length as fuel, as
    every step consumes at least one byte; the JSON scanner uses twice the length
    plus two, one unit for a byte and one for a level of nesting, and keeps Go's
    depth limit.  [run_alone] takes the number of calls of the longest path of a
    single request, and its theorems state that a result is returned.  Payment
    and Redis programs are inductive trees of calls and need no fuel; the loop over
    the pages of a Redis [SCAN] is bounded by the number of pages the server
    returns, the loop over batches by the length of the list, and base 36 formatting
    by the 13 digits of a 64-bit number.  The retention of claims repeats its
    statement until it moves no more rows; its fuel bounds those rounds, and the
    theorems hold for any number of them.  Lua's [tostring] prints integers exactly
    up to 10^14, which bounds the generations of the wait counters.  Token
    counts are 64-bit integers with wrap-around.  Times are integers in
    nanoseconds on one clock; they do not wrap.

    ** Not modelled

    Metrics and traces; formatting of server-sent events; the request-side
    translators and tool lowering; decoding of thinking envelopes; pricing
    and cost calculation; of image batches the contents of items, events and the
    outbox, the provider, the queue and the reader of results (their replies are
    arbitrary), validation, account selection and pricing of a submission, downloads
    and the cleanup of outputs; amounts that are infinite or not a number;
    validation and limits of new orders, mails, the confirmation of
    notifications with the provider before they are handled, codes made by
    administrators, the adapters of payment providers; account selection and
    rate limiting; of the concurrency service its background workers, tickers and
    shutdown, and the cache that is sharded over cells; of subscriptions the worker
    pool of maintenance, paged lists and reminder mails; HTTP handlers, dependency injection and generated database
    code; the frontend and the Rust edge.  Order of further work: request
    translators, envelope decoding, schedulers. *)

From stdpp Require Export prelude strings gmap.
From Stdlib Require Export ZArith Lia.

#[global] Set Warnings "-postfix-notation-not-level-1".

#[global] Arguments String.append : simpl nomatch.

(** ** Functional record update

    Go code mutates struct fields in place ([state.MessageStopSent = true]).
    A state record registers its eta expansion once and every field can then
    be updated with [s <| field := v |>]. *)

Class Eta (R : Type) := eta : R -> R.

Class FieldSetter {R T : Type} (proj : R -> T) :=
  field_update : (T -> T) -> R -> R.

#[global] Arguments field_update {R T} proj {_} _ _.

Ltac build_setter proj :=
  match type of proj with
  | ?R -> ?T =>
    let e := constr:(_ : Eta R) in
    let e := eval hnf in e in
    match eval pattern proj in e with
    | ?body _ =>
      let s := constr:(fun f : T -> T => body (fun r => f (proj r))) in
      let s := eval cbv beta in s in
      exact s
    end
  end.

#[global] Hint Extern 1 (@FieldSetter _ _ ?proj) =>
  build_setter proj : typeclass_instances.

Declare Scope record_scope.
Delimit Scope record_scope with record.
Notation "x <| f := v |>" := (field_update f (fun _ => v) x)
  (at level 12, f constr at next level, left associativity,
   format "x  <| f  :=  v |>") : record_scope.
#[global] Open Scope record_scope.

(** ** Machine integers

    Go's [int] and [int64] are 64-bit two's complement here; arithmetic on
    values that come from outside the process wraps. *)

Definition min_int64 : Z := (- 2 ^ 63)%Z.
Definition max_int64 : Z := (2 ^ 63 - 1)%Z.

Definition wrap64 (z : Z) : Z := ((z + 2 ^ 63) mod 2 ^ 64 - 2 ^ 63)%Z.

Definition in_int64 (z : Z) : Prop := (min_int64 <= z <= max_int64)%Z.

Declare Scope int64_scope.
Delimit Scope int64_scope with i64.
Notation "a + b" := (wrap64 (Z.add a b)) : int64_scope.
Notation "a - b" := (wrap64 (Z.sub a b)) : int64_scope.

Lemma wrap64_range (z : Z) : in_int64 (wrap64 z).
Proof.
  unfold in_int64, wrap64, min_int64, max_int64.
  pose proof (Z.mod_pos_bound (z + 2 ^ 63) (2 ^ 64) ltac:(lia)); lia.
Qed.

Lemma wrap64_id (z : Z) : in_int64 z -> wrap64 z = z.
Proof.
  unfold in_int64, wrap64, min_int64, max_int64; intros ?.
  rewrite Z.mod_small by lia; lia.
Qed.

(** ** Automation *)

Create HintDb gateway.

(** Destruct the boolean test of the first [if] and keep its equation. *)
Ltac case_test :=
  match goal with
  | |- context [if ?b then _ else _] => let E := fresh "E" in destruct b eqn:E
  | H : context [if ?b then _ else _] |- _ =>
    let E := fresh "E" in destruct b eqn:E
  end.

(** Turn boolean facts about strings, integers and connectives into
    propositions. *)
Ltac reflect_bool :=
  repeat match goal with
  | H : context [negb _ = true] |- _ => rewrite negb_true_iff in H
  | H : context [negb _ = false] |- _ => rewrite negb_false_iff in H
  | H : (_ && _)%bool = true |- _ => apply andb_true_iff in H as [? ?]
  | H : (_ || _)%bool = false |- _ => apply orb_false_iff in H as [? ?]
  | H : String.eqb _ _ = true |- _ => apply String.eqb_eq in H
  | H : String.eqb _ _ = false |- _ => apply String.eqb_neq in H
  | H : Z.eqb _ _ = true |- _ => apply Z.eqb_eq in H
  | H : Z.eqb _ _ = false |- _ => apply Z.eqb_neq in H
  | H : Z.ltb _ _ = true |- _ => apply Z.ltb_lt in H
  | H : Z.ltb _ _ = false |- _ => apply Z.ltb_ge in H
  | H : Z.leb _ _ = true |- _ => apply Z.leb_le in H
  | H : Z.leb _ _ = false |- _ => apply Z.leb_gt in H
  | H : bool_decide _ = true |- _ => apply bool_decide_eq_true in H
  | H : bool_decide _ = false |- _ => apply bool_decide_eq_false in H
  end.

(** ** Running a stateful converter over a list of inputs

    The stream converters have the shape [state -> input -> state * outputs];
    [run] feeds them a whole stream and concatenates what they emit. *)

Section Run.
Context {S I O : Type} (step : S -> I -> S * list O).

Fixpoint run (s : S) (l : list I) : S * list O :=
  match l with
  | [] => (s, [])
  | i :: l' =>
    let '(s1, o1) := step s i in
    let '(s2, o2) := run s1 l' in
    (s2, o1 ++ o2)
  end.

Lemma run_app (s : S) (l1 l2 : list I) :
  run s (l1 ++ l2) =
    (let '(s1, o1) := run s l1 in
     let '(s2, o2) := run s1 l2 in (s2, o1 ++ o2)).
Proof.
  revert s; induction l1 as [|i l1 IH]; intros s; simpl.
  - by destruct (run s l2).
  - destruct (step s i) as [s1 o1]. rewrite IH.
    destruct (run s1 l1) as [s2 o2]. destruct (run s2 l2) as [s3 o3].
    by rewrite (assoc_L (++)).
Qed.

(** Invariant induction: a step-preserved property that relates the state to
    everything emitted so far holds after any stream. *)
Lemma run_invariant (P : S -> list O -> Prop) (good : I -> Prop) :
  (forall s acc i, P s acc -> good i -> P (step s i).1 (acc ++ (step s i).2)) ->
  forall l s acc, P s acc -> Forall good l ->
    P (run s l).1 (acc ++ (run s l).2).
Proof.
  intros Hstep l; induction l as [|i l IH]; intros s acc HP Hl; simpl.
  - by rewrite app_nil_r.
  - apply Forall_cons in Hl as [Hi Hl].
    pose proof (Hstep s acc i HP Hi) as H1.
    destruct (step s i) as [s1 o1]; simpl in H1.
    pose proof (IH s1 _ H1 Hl) as H2.
    destruct (run s1 l) as [s2 o2]; simpl in *.
    by rewrite (assoc_L (++)).
Qed.
End Run.

(** ** Event handlers

    A handler mutates its state and appends to the events it returns; sequencing
    threads the one and concatenates the other. *)

Definition handler (S O : Type) : Type := S -> S * list O.

Section Handlers.
Context {S O : Type}.

Definition skip : handler S O := fun s => (s, []).

Definition modify (f : S -> S) : handler S O := fun s => (f s, []).

Definition andThen (h1 h2 : handler S O) : handler S O := fun s =>
  let '(s1, o1) := h1 s in
  let '(s2, o2) := h2 s1 in
  (s2, o1 ++ o2).

(** Read the state first. *)
Definition reading (h : S -> handler S O) : handler S O := fun s => h s s.

(** [for _, x := range xs { events = append(events, h(x)...) }]. *)
Definition forEach {A : Type} (h : A -> handler S O) (xs : list A) : handler S O :=
  foldr (fun x k => andThen (h x) k) skip xs.

Lemma andThen_assoc (h1 h2 h3 : handler S O) (s : S) :
  andThen (andThen h1 h2) h3 s = andThen h1 (andThen h2 h3) s.
Proof.
  unfold andThen. destruct (h1 s) as [s1 o1]. destruct (h2 s1) as [s2 o2].
  destruct (h3 s2) as [s3 o3]. by rewrite (assoc_L (++)).
Qed.
End Handlers.

Declare Scope handler_scope.
Delimit Scope handler_scope with handler.
Notation "h1 ;; h2" := (andThen h1 h2)
  (at level 100, h2 at level 200, right associativity, format "h1  ;; '/' h2") : handler_scope.

(** ** Numbered events

    Converters that number what they emit keep the next number in their state.
    [numbers h]: the handler gives its events consecutive numbers from there on. *)

Class Numbered (S O : Type) := {
  next_number : S -> Z;
  number_of : O -> Z
}.

Section Numbers.
Context {S O : Type} `{!Numbered S O}.

Definition numbers (h : handler S O) : Prop := forall s,
  next_number (h s).1 = (next_number s + Z.of_nat (length (h s).2))%Z /\
  map number_of (h s).2 = seqZ (next_number s) (Z.of_nat (length (h s).2)).

Lemma numbers_skip : numbers skip.
Proof. intros s; cbn. split; [lia|done]. Qed.

Lemma numbers_modify f : (forall s, next_number (f s) = next_number s) -> numbers (modify f).
Proof. intros Hf s; cbn. rewrite Hf. split; [lia|done]. Qed.

Lemma numbers_then h1 h2 : numbers h1 -> numbers h2 -> numbers (andThen h1 h2).
Proof.
  intros H1 H2 s. unfold andThen. destruct (H1 s) as [A1 B1]. destruct (h1 s) as [s1 o1].
  destruct (H2 s1) as [A2 B2]. destruct (h2 s1) as [s2 o2]. cbn [fst snd] in *.
  rewrite length_app, Nat2Z.inj_add, map_app, B1, B2, A2, A1. split; [lia|].
  by rewrite seqZ_app by lia.
Qed.

Lemma numbers_reading h : (forall s, numbers (h s)) -> numbers (reading h).
Proof. intros H s. apply H. Qed.

Lemma numbers_forEach {A : Type} (h : A -> handler S O) xs :
  (forall x, numbers (h x)) -> numbers (forEach h xs).
Proof.
  intros H. induction xs as [|x xs IH]; [apply numbers_skip|]. by apply numbers_then.
Qed.

Lemma numbers_run {I : Type} (h : I -> handler S O) l :
  (forall i, numbers (h i)) -> numbers (fun s => run (fun s i => h i s) s l).
Proof.
  intros H. induction l as [|i l IH]; [apply numbers_skip|]. exact (numbers_then (h i) _ (H i) IH).
Qed.
End Numbers.

Create HintDb numbering.

(** Walk through a handler's definition; leaves come from the database. *)
Ltac walk_numbers :=
  repeat match goal with
  | |- numbers skip => apply numbers_skip
  | |- numbers (andThen _ _) => apply numbers_then
  | |- numbers (reading _) => apply numbers_reading; intros ?
  | |- numbers (forEach _ _) => apply numbers_forEach; intros ?
  | |- numbers (modify _) => apply numbers_modify; intros ?
  | |- numbers (if ?b then _ else _) => destruct b
  | |- numbers (match ?b with _ => _ end) => destruct b
  | |- numbers (let _ := _ in _) => cbn zeta
  | |- numbers _ => solve [auto with numbering]
  end.

(** Automata over emitted events: [accepts] folds a partial transition
    function over a trace. *)
Section Automaton.
Context {Q O : Type} (delta : Q -> O -> option Q).

Fixpoint accepts (q : Q) (l : list O) : option Q :=
  match l with
  | [] => Some q
  | o :: l' => match delta q o with Some q' => accepts q' l' | None => None end
  end.

Lemma accepts_app (q : Q) (l1 l2 : list O) :
  accepts q (l1 ++ l2) =
    match accepts q l1 with Some q' => accepts q' l2 | None => None end.
Proof.
  revert q; induction l1 as [|o l1 IH]; intros q; simpl; [done|].
  by destruct (delta q o).
Qed.

Lemma accepts_app_Some (q q1 q2 : Q) (l1 l2 : list O) :
  accepts q l1 = Some q1 -> accepts q1 l2 = Some q2 ->
  accepts q (l1 ++ l2) = Some q2.
Proof. intros H1 H2. by rewrite accepts_app, H1. Qed.
End Automaton.

#[export] Hint Resolve accepts_app_Some : gateway.

(** ** Boolean quantifiers over lists *)

Lemma existsb_In {A : Type} (f : A -> bool) (l : list A) x : x ∈ l -> f x = true -> existsb f l = true.
Proof. intros H1 H2. apply existsb_exists. exists x. split; [by apply list_elem_of_In|done]. Qed.

Lemma existsb_map_eq {A B : Type} (f : B -> bool) (g : A -> B) (h : A -> bool) l :
  (forall x, f (g x) = h x) -> existsb f (map g l) = existsb h l.
Proof. intros H. induction l as [|x l IH]; cbn; [done|]. by rewrite H, IH. Qed.

Lemma forallb_map_eq {A B : Type} (f : B -> bool) (g : A -> B) (h : A -> bool) l :
  (forall x, f (g x) = h x) -> forallb f (map g l) = forallb h l.
Proof. intros H. induction l as [|x l IH]; cbn; [done|]. by rewrite H, IH. Qed.

Lemma forallb_eq {A : Type} (f h : A -> bool) l : (forall x, f x = h x) -> forallb f l = forallb h l.
Proof. intros H. induction l as [|x l IH]; cbn; [done|]. by rewrite H, IH. Qed.

Lemma existsb_eq {A : Type} (f h : A -> bool) l : (forall x, f x = h x) -> existsb f l = existsb h l.
Proof. intros H. induction l as [|x l IH]; cbn; [done|]. by rewrite H, IH. Qed.

(** ** Option and pointer helpers *)

(** A Go pointer is an option; [deref d p] reads it with a default. *)
Definition deref {A : Type} (d : A) (p : option A) : A := default d p.
