(* ===== verification/GoStrings.v ===== *)
(** * Go strings

    A Go string is a sequence of bytes; here it is [String.string], whose
    characters are 8-bit [ascii] values.  The functions of Go's [strings] and
    [unicode/utf8] packages that the gateway calls are written out on bytes,
    including the behaviour on invalid UTF-8. *)

From Stdlib Require Import Ascii.
From S2P Require Import Prelude.

Definition byte_of (c : ascii) : Z := Z.of_N (N_of_ascii c).
Definition mk_byte (z : Z) : ascii := ascii_of_N (Z.to_N z).

(** Equality tests written the way the code writes them. *)
Notation "s =s t" := (String.eqb s t) (at level 70) : stdpp_scope.

Definition is_empty (s : string) : bool := s =s "".
Definition strlen (s : string) : Z := Z.of_nat (String.length s).

Lemma strlen_app s t : strlen (s +:+ t) = (strlen s + strlen t)%Z.
Proof. unfold strlen. induction s as [|c s IH]; [done|]. cbn in IH |- *. lia. Qed.

(** [s[n:]]: Go panics when [n > len(s)]; every use below has [n <= len(s)]. *)
Fixpoint str_drop (n : nat) (s : string) : string :=
  match n, s with
  | O, _ => s
  | S n', String _ s' => str_drop n' s'
  | S _, EmptyString => ""
  end.

(** [s[:n]]. *)
Fixpoint str_take (n : nat) (s : string) : string :=
  match n, s with
  | O, _ => ""
  | S n', String c s' => String c (str_take n' s')
  | S _, EmptyString => ""
  end.

Definition HasPrefix (s p : string) : bool := String.prefix p s.

(** [strings.CutPrefix]: the remainder and whether the prefix was there. *)
Definition CutPrefix (s p : string) : option string :=
  if HasPrefix s p then Some (str_drop (String.length p) s) else None.

Fixpoint str_rev_append (s acc : string) : string :=
  match s with
  | EmptyString => acc
  | String c s' => str_rev_append s' (String c acc)
  end.
Definition str_rev (s : string) : string := str_rev_append s "".

Fixpoint str_forall (f : ascii -> bool) (s : string) : bool :=
  match s with
  | EmptyString => true
  | String c s' => f c && str_forall f s'
  end.

(** ** [strings.TrimSpace]

    Unicode White_Space: the ASCII blanks, U+0085, U+00A0, U+1680,
    U+2000..U+200A, U+2028, U+2029, U+202F, U+205F and U+3000, by their UTF-8
    encodings. *)

Definition is_space1 (a : ascii) : bool :=
  let z := byte_of a in ((9 <=? z) && (z <=? 13) || (z =? 32))%Z.

Definition is_space2 (a b : ascii) : bool :=
  ((byte_of a =? 0xC2) && ((byte_of b =? 0x85) || (byte_of b =? 0xA0)))%Z.

Definition is_space3 (a b c : ascii) : bool :=
  let x := byte_of a in let y := byte_of b in let z := byte_of c in
  ((x =? 0xE1) && (y =? 0x9A) && (z =? 0x80)
   || (x =? 0xE2) && (y =? 0x80)
      && ((0x80 <=? z) && (z <=? 0x8A) || (z =? 0xA8) || (z =? 0xA9) || (z =? 0xAF))
   || (x =? 0xE2) && (y =? 0x81) && (z =? 0x9F)
   || (x =? 0xE3) && (y =? 0x80) && (z =? 0x80))%Z.

Fixpoint trim_left (s : string) : string :=
  match s with
  | EmptyString => ""
  | String a r =>
    if is_space1 a then trim_left r else
    match r with
    | EmptyString => s
    | String b r2 =>
      if is_space2 a b then trim_left r2 else
      match r2 with
      | EmptyString => s
      | String c r3 => if is_space3 a b c then trim_left r3 else s
      end
    end
  end.

(** The same on the reversed string: the last byte comes first. *)
Fixpoint trim_left_rev (s : string) : string :=
  match s with
  | EmptyString => ""
  | String c r =>
    if is_space1 c then trim_left_rev r else
    match r with
    | EmptyString => s
    | String b r2 =>
      if is_space2 b c then trim_left_rev r2 else
      match r2 with
      | EmptyString => s
      | String a r3 => if is_space3 a b c then trim_left_rev r3 else s
      end
    end
  end.

Definition trim_right (s : string) : string := str_rev (trim_left_rev (str_rev s)).

Definition TrimSpace (s : string) : string := trim_right (trim_left s).

(** ** [strings.ToUpper]

    ASCII strings take Go's fast path; the mapping of other runes is a table
    of the [unicode] package, passed in. *)

Definition is_ascii_string (s : string) : bool :=
  str_forall (fun c => (byte_of c <? 128)%Z) s.

Definition ascii_upper (c : ascii) : ascii :=
  let z := byte_of c in
  if ((97 <=? z) && (z <=? 122))%Z then mk_byte (z - 32) else c.

Fixpoint str_map (f : ascii -> ascii) (s : string) : string :=
  match s with
  | EmptyString => ""
  | String c s' => String (f c) (str_map f s')
  end.

Definition ToUpper (unicode_upper : string -> string) (s : string) : string :=
  if is_ascii_string s then str_map ascii_upper s else unicode_upper s.

Definition ascii_lower (c : ascii) : ascii :=
  let z := byte_of c in
  if ((65 <=? z) && (z <=? 90))%Z then mk_byte (z + 32) else c.

(** [strings.ToLower], with the table for other runes passed in. *)
Definition ToLower (unicode_lower : string -> string) (s : string) : string :=
  if is_ascii_string s then str_map ascii_lower s else unicode_lower s.

(** [strconv.ParseInt(s, 10, 64)]; [None] is a syntax or range error. *)
Fixpoint parse_digits (acc : Z) (s : string) : option Z :=
  match s with
  | EmptyString => Some acc
  | String c s' =>
    let d := byte_of c in
    if ((48 <=? d) && (d <=? 57))%Z then parse_digits (10 * acc + (d - 48))%Z s' else None
  end.

Definition ParseInt (s : string) : option Z :=
  let '(sign, digits) :=
    match s with
    | String c s' =>
      if (byte_of c =? 45)%Z then ((-1)%Z, s') else if (byte_of c =? 43)%Z then (1%Z, s') else (1%Z, s)
    | EmptyString => (1%Z, "")
    end in
  if is_empty digits then None else
  match parse_digits 0 digits with
  | Some n =>
    let v := (sign * n)%Z in
    if ((min_int64 <=? v) && (v <=? max_int64))%Z then Some v else None
  | None => None
  end.

Definition HasSuffix (s p : string) : bool :=
  bool_decide (String.length p <= String.length s)
  && (str_drop (String.length s - String.length p) s =s p).

Definition TrimPrefix (s p : string) : string :=
  if HasPrefix s p then str_drop (String.length p) s else s.

Definition TrimSuffix (s p : string) : string :=
  if HasSuffix s p then str_take (String.length s - String.length p) s else s.

(** ** [unicode/utf8]

    [decode_rune s] is the first rune and the number of bytes it takes;
    an invalid encoding gives U+FFFD and width 1. *)

Definition rune_error : Z := 0xFFFD.

Definition is_cont (c : ascii) : bool :=
  let z := byte_of c in ((0x80 <=? z) && (z <=? 0xBF))%Z.

Definition decode_rune (s : string) : Z * nat * bool :=
  match s with
  | EmptyString => (rune_error, O, false)
  | String a r =>
    let x := byte_of a in
    if (x <? 0x80)%Z then (x, 1%nat, true) else
    match r with
    | EmptyString => (rune_error, 1%nat, false)
    | String b r2 =>
      let y := byte_of b in
      if ((0xC2 <=? x) && (x <=? 0xDF) && is_cont b)%Z then
        ((x - 0xC0) * 64 + (y - 0x80), 2%nat, true)%Z else
      match r2 with
      | EmptyString => (rune_error, 1%nat, false)
      | String c r3 =>
        let z := byte_of c in
        let lo := if (x =? 0xE0)%Z then 0xA0%Z else 0x80%Z in
        let hi := if (x =? 0xED)%Z then 0x9F%Z else 0xBF%Z in
        if ((0xE0 <=? x) && (x <=? 0xEF) && (lo <=? y) && (y <=? hi) && is_cont c)%Z then
          ((x - 0xE0) * 4096 + (y - 0x80) * 64 + (z - 0x80), 3%nat, true)%Z else
        match r3 with
        | EmptyString => (rune_error, 1%nat, false)
        | String d _ =>
          let w := byte_of d in
          let lo4 := if (x =? 0xF0)%Z then 0x90%Z else 0x80%Z in
          let hi4 := if (x =? 0xF4)%Z then 0x8F%Z else 0xBF%Z in
          if ((0xF0 <=? x) && (x <=? 0xF4) && (lo4 <=? y) && (y <=? hi4)
              && is_cont c && is_cont d)%Z then
            ((x - 0xF0) * 262144 + (y - 0x80) * 4096 + (z - 0x80) * 64 + (w - 0x80),
             4%nat, true)%Z
          else (rune_error, 1%nat, false)
        end
      end
    end
  end.

(** The runes of [for _, r := range s]: every width is at least one, so the
    length of the string is enough fuel. *)
Fixpoint runes_fuel (fuel : nat) (s : string) : list Z :=
  match fuel with
  | O => []
  | S fuel' =>
    match s with
    | EmptyString => []
    | String _ _ =>
      let '(r, w, _) := decode_rune s in
      r :: runes_fuel fuel' (str_drop w s)
    end
  end.
Definition runes (s : string) : list Z := runes_fuel (String.length s) s.

(** [utf8.ValidString]. *)
Fixpoint valid_string_fuel (fuel : nat) (s : string) : bool :=
  match fuel, s with
  | _, EmptyString => true
  | O, _ => false
  | S fuel', String _ _ =>
    let '(_, w, ok) := decode_rune s in
    ok && valid_string_fuel fuel' (str_drop w s)
  end.
Definition ValidString (s : string) : bool := valid_string_fuel (String.length s) s.

(** ** Lemmas *)

Lemma str_drop_0 (s : string) : str_drop 0 s = s.
Proof. by destruct s. Qed.

Lemma str_app_nil_r (s : string) : s +:+ "" = s.
Proof. induction s; simpl; congruence. Qed.

Lemma str_app_assoc (a b c : string) : (a +:+ b) +:+ c = a +:+ b +:+ c.
Proof. induction a; simpl; congruence. Qed.

Lemma str_length_app (a b : string) :
  String.length (a +:+ b) = (String.length a + String.length b)%nat.
Proof. induction a; simpl; congruence. Qed.

Lemma HasPrefix_app (p r : string) : HasPrefix (p +:+ r) p = true.
Proof.
  unfold HasPrefix; induction p; simpl; [by destruct r|].
  destruct (ascii_dec a a); congruence.
Qed.

Lemma HasPrefix_drop (s p : string) :
  HasPrefix s p = true -> s = p +:+ str_drop (String.length p) s.
Proof.
  unfold HasPrefix; revert s; induction p as [|c p IH]; intros s; simpl.
  - done.
  - destruct s as [|c' s]; [discriminate|].
    simpl; destruct (ascii_dec c c') as [->|]; intros H; [|discriminate H].
    by f_equal; apply IH.
Qed.

Lemma HasPrefix_true_iff (s p : string) :
  HasPrefix s p = true <-> exists r, s = p +:+ r.
Proof.
  split; [intros ?%HasPrefix_drop; eauto | intros [r ->]; apply HasPrefix_app].
Qed.

Lemma str_drop_app (p r : string) : str_drop (String.length p) (p +:+ r) = r.
Proof. induction p; simpl; [apply str_drop_0 | done]. Qed.

Lemma str_app_inv_head (p a b : string) : p +:+ a = p +:+ b -> a = b.
Proof. induction p; simpl; [done | intros [=]; auto]. Qed.

Lemma is_empty_true (s : string) : is_empty s = true <-> s = "".
Proof. apply String.eqb_eq. Qed.

Lemma is_empty_false (s : string) : is_empty s = false <-> s <> "".
Proof. apply String.eqb_neq. Qed.

Lemma str_take_drop (n : nat) (s : string) : str_take n s +:+ str_drop n s = s.
Proof.
  revert s; induction n; intros [|c s]; simpl; try done. by rewrite IHn.
Qed.

Lemma str_length_take (n : nat) (s : string) :
  (n <= String.length s)%nat -> String.length (str_take n s) = n.
Proof.
  revert s; induction n; intros [|c s]; simpl; intros; [done..|lia|].
  rewrite IHn; lia.
Qed.

Create Rewrite HintDb gostring.
#[export] Hint Rewrite str_app_nil_r str_app_assoc : gostring.
