(* ===== verification/GoStringsFacts.v ===== *)
(** * Facts about strings

    Printable text is not trimmed; decimal numbers are digits, and end where the
    next character is none. *)

From Stdlib Require Import Ascii.
From stdpp Require Import pretty.
From S2P Require Import Prelude GoStrings.

Definition printable (c : ascii) : bool := ((33 <=? byte_of c) && (byte_of c <=? 126))%Z.

Lemma byte_of_range c : (0 <= byte_of c < 256)%Z.
Proof. unfold byte_of. pose proof (N_ascii_bounded c). lia. Qed.

Lemma printable_not_space a :
  printable a = true -> is_space1 a = false /\ (forall b, is_space2 a b = false) /\
  (forall b c, is_space3 a b c = false).
Proof.
  unfold printable, is_space1, is_space2, is_space3. intros H. reflect_bool.
  destruct (Z.leb_spec 9 (byte_of a)), (Z.leb_spec (byte_of a) 13), (Z.eqb_spec (byte_of a) 32),
    (Z.eqb_spec (byte_of a) 0xC2), (Z.eqb_spec (byte_of a) 0xE1), (Z.eqb_spec (byte_of a) 0xE2),
    (Z.eqb_spec (byte_of a) 0xE3); try lia; done.
Qed.

Lemma trim_left_printable s : str_forall printable s = true -> trim_left s = s.
Proof.
  destruct s as [|a s]; [done|]. cbn [str_forall]. intros [Ha _]%andb_true_iff.
  destruct (printable_not_space a Ha) as (E1 & E2 & E3). cbn [trim_left]. rewrite E1.
  destruct s as [|b s]; [done|]. rewrite E2. destruct s as [|c s]; [done|]. by rewrite E3.
Qed.

Lemma trim_left_rev_printable s : str_forall printable s = true -> trim_left_rev s = s.
Proof.
  destruct s as [|a s]; [done|]. cbn [str_forall]. intros [Ha Hs]%andb_true_iff.
  destruct (printable_not_space a Ha) as (E1 & _). cbn [trim_left_rev]. rewrite E1.
  destruct s as [|b s]; [done|]. cbn [str_forall] in Hs. apply andb_true_iff in Hs as [Hb Hs].
  destruct (printable_not_space b Hb) as (_ & E2 & _). rewrite E2.
  destruct s as [|c s]; [done|]. cbn [str_forall] in Hs. apply andb_true_iff in Hs as [Hc _].
  destruct (printable_not_space c Hc) as (_ & _ & E3). by rewrite E3.
Qed.

Lemma str_forall_rev_append f s acc :
  str_forall f (str_rev_append s acc) = str_forall f s && str_forall f acc.
Proof.
  revert acc; induction s as [|c s IH]; intros acc; [done|]. cbn. rewrite IH. cbn.
  by destruct (f c), (str_forall f s).
Qed.

Lemma str_rev_append_twice s acc t :
  str_rev_append (str_rev_append s acc) t = str_rev_append acc (s +:+ t).
Proof. revert acc; induction s as [|c s IH]; intros acc; [done|]. cbn. by rewrite IH. Qed.

Lemma TrimSpace_printable s : str_forall printable s = true -> TrimSpace s = s.
Proof.
  intros Hs. unfold TrimSpace, trim_right, str_rev. rewrite trim_left_printable by done.
  rewrite trim_left_rev_printable by (by rewrite str_forall_rev_append, Hs).
  rewrite str_rev_append_twice. cbn. by rewrite str_app_nil_r.
Qed.

(** ** Decimal numbers *)

Definition is_digit (c : ascii) : bool := ((48 <=? byte_of c) && (byte_of c <=? 57))%Z.

Lemma str_forall_app f s t : str_forall f (s +:+ t) = str_forall f s && str_forall f t.
Proof. induction s as [|c s IH]; [done|]. cbn. rewrite IH. by destruct (f c). Qed.

Lemma str_forall_impl (f g : ascii -> bool) s :
  (forall c, f c = true -> g c = true) -> str_forall f s = true -> str_forall g s = true.
Proof.
  intros H. induction s as [|c s IH]; [done|]. cbn. intros [H1 H2]%andb_true_iff. by rewrite H, IH.
Qed.

Lemma pretty_N_char_digit x : is_digit (pretty_N_char x) = true.
Proof. unfold pretty_N_char. by repeat case_match. Qed.

Lemma pretty_N_go_digits x s : str_forall is_digit s = true -> str_forall is_digit (pretty_N_go x s) = true.
Proof.
  revert s. induction (N.lt_wf_0 x) as [x _ IH]; intros s Hs.
  destruct (decide (x = 0)%N) as [->|Hx]; [by rewrite pretty_N_go_0|].
  rewrite pretty_N_go_step by lia. apply IH; [apply N.div_lt; lia|].
  cbn. by rewrite pretty_N_char_digit.
Qed.

Lemma pretty_digits z : (0 <= z)%Z -> str_forall is_digit (pretty z) = true.
Proof.
  assert (H : forall n : N, str_forall is_digit (pretty n) = true).
  { intros n. unfold pretty, pretty_N. destruct (decide (n = 0%N)); [done|]. by apply pretty_N_go_digits. }
  destruct z as [|p|p]; intros Hz; [done|apply (H (Npos p))|lia].
Qed.

(** A text of digits before a character that is none is determined. *)
Lemma digits_split s1 s2 c t1 t2 :
  is_digit c = false -> str_forall is_digit s1 = true -> str_forall is_digit s2 = true ->
  s1 +:+ String c t1 = s2 +:+ String c t2 -> s1 = s2 /\ t1 = t2.
Proof.
  intros Hc. revert s2. induction s1 as [|a s1 IH]; intros [|b s2] H1 H2 He; cbn in *.
  - by injection He as ->.
  - injection He as -> _. by rewrite Hc in H2.
  - injection He as -> _. by rewrite Hc in H1.
  - injection He as -> He. apply andb_true_iff in H1 as [_ H1], H2 as [_ H2].
    destruct (IH s2 H1 H2 He) as [-> ->]. done.
Qed.

(** What is printed in decimal is read back. *)
Lemma pretty_N_char_value x : (x < 10)%N -> byte_of (pretty_N_char x) = (48 + Z.of_N x)%Z.
Proof.
  intros Hx. assert (x = 0 \/ x = 1 \/ x = 2 \/ x = 3 \/ x = 4 \/ x = 5 \/ x = 6 \/ x = 7 \/ x = 8 \/ x = 9)%N by lia.
  by naive_solver.
Qed.

Lemma parse_pretty_go x s : parse_digits 0 (pretty_N_go x s) = parse_digits (Z.of_N x) s.
Proof.
  revert s. induction (N.lt_wf_0 x) as [x _ IH]; intros s.
  destruct (decide (x = 0)%N) as [->|Hx]; [by rewrite pretty_N_go_0|].
  rewrite pretty_N_go_step by lia. rewrite IH by (apply N.div_lt; lia). cbn [parse_digits].
  pose proof (N.mod_lt x 10 ltac:(lia)) as Hm. rewrite pretty_N_char_value by done.
  pose proof (N.div_mod' x 10) as Hd.
  clear IH. revert Hm Hd. generalize (x / 10)%N (x mod 10)%N. intros q m Hm Hd.
  rewrite (proj2 (Z.leb_le 48 (48 + Z.of_N m))), (proj2 (Z.leb_le (48 + Z.of_N m) 57)) by lia.
  cbn [andb]. f_equal. lia.
Qed.

Lemma ParseInt_pretty z : (0 <= z <= max_int64)%Z -> ParseInt (pretty z) = Some z.
Proof.
  intros Hz. pose proof (pretty_digits z ltac:(lia)) as Hd.
  assert (Hp : parse_digits 0 (pretty z) = Some z).
  { destruct z as [|p|p]; [done| |lia]. change (parse_digits 0 (pretty (Npos p)) = Some (Zpos p)).
    unfold pretty, pretty_N. rewrite decide_False by done. by rewrite parse_pretty_go. }
  unfold ParseInt. destruct (pretty z) as [|a s] eqn:E.
  { destruct z as [|p|p]; [done| |lia]. exfalso. revert E. change (pretty (Npos p) <> "").
    unfold pretty, pretty_N. rewrite decide_False by done. intros E.
    pose proof (parse_pretty_go (Npos p) "") as E2. rewrite E in E2. cbn in E2. by injection E2. }
  cbn in Hd. apply andb_true_iff in Hd as [Hd _]. unfold is_digit in Hd. apply andb_true_iff in Hd as [H1 H2].
  apply Z.leb_le in H1, H2. rewrite (proj2 (Z.eqb_neq _ _)), (proj2 (Z.eqb_neq _ _)) by lia.
  change (is_empty (String a s)) with false. cbv iota. rewrite Hp, Z.mul_1_l.
  unfold min_int64. match goal with |- context [if ?b then _ else _] => by replace b with true by lia end.
Qed.
