(* ===== verification/GoFloat.v ===== *)
(** * Go's float64

    IEEE 754 binary64 numbers as the executable specification of the Standard
    Library computes with them, and the operations of Go and its [math] package
    that the payment code uses. *)

From Stdlib Require Import SpecFloat.
From S2P Require Import Prelude.

Definition float64 : Type := spec_float.

#[export] Instance float64_eq_dec : EqDecision spec_float.
Proof. solve_decision. Defined.

Definition float_of_Z (z : Z) : float64 := binary_normalize 53 1024 z 0 false.

Definition fadd (x y : float64) : float64 := SFadd 53 1024 x y.
Definition fsub (x y : float64) : float64 := SFsub 53 1024 x y.
Definition fdiv (x y : float64) : float64 := SFdiv 53 1024 x y.
Definition fmul (x y : float64) : float64 := SFmul 53 1024 x y.
Definition fabs (x : float64) : float64 := SFabs x.
Definition fneg (x : float64) : float64 := SFopp x.

Definition flt (x y : float64) : bool := SFltb x y.
Definition fle (x y : float64) : bool := SFleb x y.

Definition feq (x y : float64) : bool := SFeqb x y.

Definition IsNaN (x : float64) : bool := match x with S754_nan => true | _ => false end.
Definition IsInf (x : float64) : bool := match x with S754_infinity _ => true | _ => false end.

Definition fzero : float64 := S754_zero false.

(** [math.Max]. *)
Definition fmax (x y : float64) : float64 :=
  match x, y with
  | S754_infinity false, _ | _, S754_infinity false => S754_infinity false
  | S754_nan, _ | _, S754_nan => S754_nan
  | S754_zero sx, S754_zero _ => if sx then y else x
  | _, _ => if flt y x then x else y
  end.

(** [10^-n], the quotient of exact integers, correctly rounded. *)
Definition pow10_neg (n : Z) : float64 := fdiv (float_of_Z 1) (float_of_Z (10 ^ n)).

(** The constant [0.01]. *)
Example one_cent : pow10_neg 2 = S754_finite false 5764607523034235 (-59).
Proof. reflexivity. Qed.

(** [int(x)]: truncation; what the conversion of a value outside the range gives is
    up to the platform, here that of amd64. *)
Definition float_to_int (x : float64) : Z :=
  match x with
  | S754_zero _ => 0%Z
  | S754_finite s m e =>
    let magnitude := if (0 <=? e)%Z then (Zpos m * 2 ^ e)%Z else (Zpos m / 2 ^ (- e))%Z in
    let v := if s then (- magnitude)%Z else magnitude in
    if ((min_int64 <=? v) && (v <=? max_int64))%Z then v else min_int64
  | _ => min_int64
  end.
