(* ===== verification/GoCrypto.v ===== *)
(** * Hashes and encodings of the Go standard library

    [crypto/sha256], [crypto/hmac], [encoding/hex] and the unpadded standard
    alphabet of [encoding/base64], on bytes.  Words are 32-bit unsigned values
    in [Z] with the reduction modulo 2^32 written out. *)

From S2P Require Import Prelude GoStrings.

(** ** Bytes and words *)

Fixpoint bytes_of (s : string) : list Z :=
  match s with
  | EmptyString => []
  | String c s' => byte_of c :: bytes_of s'
  end.

Fixpoint string_of_bytes (l : list Z) : string :=
  match l with
  | [] => ""
  | b :: l' => String (mk_byte b) (string_of_bytes l')
  end.

Definition w32 (z : Z) : Z := Z.land z 0xFFFFFFFF.
Definition add32 (a b : Z) : Z := w32 (a + b).
Definition rotr (n x : Z) : Z := Z.lor (Z.shiftr x n) (w32 (Z.shiftl x (32 - n))).
Definition not32 (x : Z) : Z := Z.lxor x 0xFFFFFFFF.

(** ** SHA-256 *)

Definition sha_K : list Z :=
  [0x428A2F98; 0x71374491; 0xB5C0FBCF; 0xE9B5DBA5; 0x3956C25B; 0x59F111F1;
   0x923F82A4; 0xAB1C5ED5; 0xD807AA98; 0x12835B01; 0x243185BE; 0x550C7DC3;
   0x72BE5D74; 0x80DEB1FE; 0x9BDC06A7; 0xC19BF174; 0xE49B69C1; 0xEFBE4786;
   0x0FC19DC6; 0x240CA1CC; 0x2DE92C6F; 0x4A7484AA; 0x5CB0A9DC; 0x76F988DA;
   0x983E5152; 0xA831C66D; 0xB00327C8; 0xBF597FC7; 0xC6E00BF3; 0xD5A79147;
   0x06CA6351; 0x14292967; 0x27B70A85; 0x2E1B2138; 0x4D2C6DFC; 0x53380D13;
   0x650A7354; 0x766A0ABB; 0x81C2C92E; 0x92722C85; 0xA2BFE8A1; 0xA81A664B;
   0xC24B8B70; 0xC76C51A3; 0xD192E819; 0xD6990624; 0xF40E3585; 0x106AA070;
   0x19A4C116; 0x1E376C08; 0x2748774C; 0x34B0BCB5; 0x391C0CB3; 0x4ED8AA4A;
   0x5B9CCA4F; 0x682E6FF3; 0x748F82EE; 0x78A5636F; 0x84C87814; 0x8CC70208;
   0x90BEFFFA; 0xA4506CEB; 0xBEF9A3F7; 0xC67178F2]%Z.

Definition sha_H0 : list Z :=
  [0x6A09E667; 0xBB67AE85; 0x3C6EF372; 0xA54FF53A; 0x510E527F; 0x9B05688C; 0x1F83D9AB; 0x5BE0CD19]%Z.

Definition big_sigma0 (x : Z) : Z := Z.lxor (Z.lxor (rotr 2 x) (rotr 13 x)) (rotr 22 x).
Definition big_sigma1 (x : Z) : Z := Z.lxor (Z.lxor (rotr 6 x) (rotr 11 x)) (rotr 25 x).
Definition small_sigma0 (x : Z) : Z := Z.lxor (Z.lxor (rotr 7 x) (rotr 18 x)) (Z.shiftr x 3).
Definition small_sigma1 (x : Z) : Z := Z.lxor (Z.lxor (rotr 17 x) (rotr 19 x)) (Z.shiftr x 10).
Definition sha_ch (x y z : Z) : Z := Z.lxor (Z.land x y) (Z.land (not32 x) z).
Definition sha_maj (x y z : Z) : Z :=
  Z.lxor (Z.lxor (Z.land x y) (Z.land x z)) (Z.land y z).

(** The message schedule, newest word first: each step reads the words 2, 7,
    15 and 16 positions back. *)
Definition sha_next_word (w : list Z) : Z :=
  add32 (add32 (small_sigma1 (nth 1 w 0%Z)) (nth 6 w 0%Z))
        (add32 (small_sigma0 (nth 14 w 0%Z)) (nth 15 w 0%Z)).

Fixpoint sha_schedule (n : nat) (w : list Z) : list Z :=
  match n with
  | O => w
  | S n' => sha_schedule n' (sha_next_word w :: w)
  end.

Definition sha_round (st : list Z) (kw : Z * Z) : list Z :=
  match st with
  | [a; b; c; d; e; f; g; h] =>
    let t1 := add32 (add32 (add32 h (big_sigma1 e)) (sha_ch e f g)) (add32 kw.1 kw.2) in
    let t2 := add32 (big_sigma0 a) (sha_maj a b c) in
    [add32 t1 t2; a; b; c; add32 d t1; e; f; g]
  | _ => st
  end.

Definition sha_block (st : list Z) (words : list Z) : list Z :=
  let w := rev (sha_schedule 48 (rev words)) in
  zip_with add32 st (foldl sha_round st (zip sha_K w)).

Fixpoint words_be (n : nat) (bs : list Z) : list Z :=
  match n, bs with
  | S n', a :: b :: c :: d :: r =>
    Z.lor (Z.lor (Z.shiftl a 24) (Z.shiftl b 16)) (Z.lor (Z.shiftl c 8) d) :: words_be n' r
  | _, _ => []
  end.

Fixpoint sha_blocks (n : nat) (st : list Z) (bs : list Z) : list Z :=
  match n with
  | O => st
  | S n' => sha_blocks n' (sha_block st (words_be 16 (take 64 bs))) (drop 64 bs)
  end.

Fixpoint be_bytes (n : nat) (z : Z) : list Z :=
  match n with
  | O => []
  | S n' => be_bytes n' (Z.shiftr z 8) ++ [Z.land z 0xFF]
  end.

Definition sha_pad (bs : list Z) : list Z :=
  let len := length bs in
  let zeros := (64 - (len + 9) mod 64) mod 64 in
  bs ++ [0x80%Z] ++ repeat 0%Z zeros ++ be_bytes 8 (8 * Z.of_nat len).

Definition sha256 (bs : list Z) : list Z :=
  let p := sha_pad bs in
  mjoin (map (be_bytes 4) (sha_blocks (length p / 64) sha_H0 p)).

(** ** HMAC *)

Definition hmac_key (key : list Z) : list Z :=
  let k := if bool_decide (64 < length key) then sha256 key else key in
  k ++ repeat 0%Z (64 - length k).

Definition hmac_sha256 (key msg : list Z) : list Z :=
  let k := hmac_key key in
  sha256 (map (Z.lxor 0x5C) k ++ sha256 (map (Z.lxor 0x36) k ++ msg)).

(** ** Hexadecimal *)

Definition hex_nibble (z : Z) : Z := if (z <? 10)%Z then (48 + z)%Z else (87 + z)%Z.

Definition hex_encode (bs : list Z) : string :=
  string_of_bytes (mjoin (map (fun b => [hex_nibble (Z.shiftr b 4); hex_nibble (Z.land b 15)]) bs)).

Lemma strlen_hex_encode bs : strlen (hex_encode bs) = (2 * Z.of_nat (length bs))%Z.
Proof.
  unfold strlen, hex_encode. enough (forall l, String.length (string_of_bytes l) = length l) as ->.
  - induction bs as [|b bs IH]; [done|]. simpl in *. lia.
  - intros l. induction l as [|z l IH]; [done|]. cbn. by rewrite IH.
Qed.

(** [hex.EncodeToString(sha256.Sum256([]byte(s))[:])]. *)
Definition sha256_hex (s : string) : string := hex_encode (sha256 (bytes_of s)).

Example sha256_abc :
  sha256_hex "abc" = "ba7816bf8f01cfea414140de5dae2223b00361a396177a9cb410ff61f20015ad".
Proof. vm_compute. reflexivity. Qed.

Example hmac_sha256_vector :
  hex_encode (hmac_sha256 (bytes_of "Jefe") (bytes_of "what do ya want for nothing?"))
  = "5bdcc146bf60754e6a042426089575c75a003f089d2739839dec58b964ec3843".
Proof. vm_compute. reflexivity. Qed.

(** ** Base64, standard alphabet, no padding *)

Definition b64_char (z : Z) : Z :=
  (if z <? 26 then 65 + z else if z <? 52 then 71 + z else if z <? 62 then z - 4
   else if z =? 62 then 43 else 47)%Z.

Fixpoint b64_encode (bs : list Z) : list Z :=
  match bs with
  | a :: b :: c :: r =>
    b64_char (Z.shiftr a 2) :: b64_char (Z.lor (Z.shiftl (Z.land a 3) 4) (Z.shiftr b 4))
      :: b64_char (Z.lor (Z.shiftl (Z.land b 15) 2) (Z.shiftr c 6)) :: b64_char (Z.land c 63)
      :: b64_encode r
  | [a; b] =>
    [b64_char (Z.shiftr a 2); b64_char (Z.lor (Z.shiftl (Z.land a 3) 4) (Z.shiftr b 4));
     b64_char (Z.shiftl (Z.land b 15) 2)]
  | [a] => [b64_char (Z.shiftr a 2); b64_char (Z.shiftl (Z.land a 3) 4)]
  | [] => []
  end.

Definition RawStdEncodeToString (s : string) : string := string_of_bytes (b64_encode (bytes_of s)).

Example base64_vector : RawStdEncodeToString "Many hands make light work." = "TWFueSBoYW5kcyBtYWtlIGxpZ2h0IHdvcmsu".
Proof. vm_compute. reflexivity. Qed.
