(* ===== verification/GoJson.v ===== *)
(** * Go's [encoding/json], as far as the gateway uses it

    The scanner ([json.Valid]), string quoting and unquoting, decoding of an
    object into [map[string]json.RawMessage], compaction of raw messages and
    encoding of such a map.  Everything works on bytes and is executable. *)

From Stdlib Require Import Ascii.
From S2P Require Import Prelude GoStrings.

Definition chr (z : Z) : string := String (mk_byte z) "".
Definition quote_char : string := chr 34.
Definition backslash : string := chr 92.

(** ** Scanner *)

Definition is_json_space (c : ascii) : bool :=
  let z := byte_of c in ((z =? 32) || (z =? 9) || (z =? 13) || (z =? 10))%Z.

Fixpoint skip_ws (s : string) : string :=
  match s with
  | String c r => if is_json_space c then skip_ws r else s
  | EmptyString => ""
  end.

Definition is_digit (c : ascii) : bool :=
  let z := byte_of c in ((48 <=? z) && (z <=? 57))%Z.

Definition hex_value (c : ascii) : option Z :=
  let z := byte_of c in
  if is_digit c then Some (z - 48)%Z
  else if ((97 <=? z) && (z <=? 102))%Z then Some (z - 87)%Z
  else if ((65 <=? z) && (z <=? 70))%Z then Some (z - 55)%Z
  else None.

Definition is_hex (c : ascii) : bool :=
  match hex_value c with Some _ => true | None => false end.

(** The characters allowed after a backslash, [u] apart. *)
Definition is_simple_escape (c : ascii) : bool :=
  let z := byte_of c in
  ((z =? 98) || (z =? 102) || (z =? 110) || (z =? 114) || (z =? 116)
   || (z =? 92) || (z =? 47) || (z =? 34))%Z.

(** What follows an opening quote, up to and past the closing one. *)
Fixpoint skip_string_body (s : string) : option string :=
  match s with
  | EmptyString => None
  | String c r =>
    if (byte_of c =? 34)%Z then Some r
    else if (byte_of c =? 92)%Z then
      match r with
      | EmptyString => None
      | String e r1 =>
        if is_simple_escape e then skip_string_body r1
        else if (byte_of e =? 117)%Z then
          match r1 with
          | String a (String b (String c' (String d r2))) =>
            if is_hex a && is_hex b && is_hex c' && is_hex d
            then skip_string_body r2 else None
          | _ => None
          end
        else None
      end
    else if (byte_of c <? 32)%Z then None
    else skip_string_body r
  end.

Fixpoint skip_digits (s : string) : string :=
  match s with
  | String c r => if is_digit c then skip_digits r else s
  | EmptyString => ""
  end.

Definition skip_digits1 (s : string) : option string :=
  match s with
  | String c r => if is_digit c then Some (skip_digits r) else None
  | EmptyString => None
  end.

Definition skip_exponent (s : string) : option string :=
  match s with
  | String c r =>
    if ((byte_of c =? 101) || (byte_of c =? 69))%Z then
      match r with
      | String sg r' =>
        if ((byte_of sg =? 43) || (byte_of sg =? 45))%Z
        then skip_digits1 r' else skip_digits1 r
      | EmptyString => None
      end
    else Some s
  | EmptyString => Some s
  end.

Definition skip_fraction (s : string) : option string :=
  match s with
  | String c r =>
    if (byte_of c =? 46)%Z then
      match skip_digits1 r with Some r' => skip_exponent r' | None => None end
    else skip_exponent s
  | EmptyString => Some s
  end.

Definition skip_unsigned (s : string) : option string :=
  match s with
  | String c r =>
    if (byte_of c =? 48)%Z then skip_fraction r
    else if is_digit c then skip_fraction (skip_digits r)
    else None
  | EmptyString => None
  end.

Definition skip_number (s : string) : option string :=
  match s with
  | String c r => if (byte_of c =? 45)%Z then skip_unsigned r else skip_unsigned s
  | EmptyString => None
  end.

Definition skip_literal (s : string) : option string :=
  match CutPrefix s "true" with
  | Some r => Some r
  | None =>
    match CutPrefix s "false" with
    | Some r => Some r
    | None => CutPrefix s "null"
    end
  end.

(** [maxNestingDepth] of the scanner. *)
Definition max_nesting_depth : Z := 10000.

(** [skip_value] consumes one value that starts at the first byte;
    [skip_members] and [skip_elems] the members of an object and the elements
    of an array up to and past the closing bracket. *)
Fixpoint skip_value (fuel : nat) (depth : Z) (s : string) {struct fuel} : option string :=
  match fuel with
  | O => None
  | S f =>
    match s with
    | EmptyString => None
    | String c r =>
      if (byte_of c =? 123)%Z then
        if (max_nesting_depth <? depth + 1)%Z then None else
        match skip_ws r with
        | String c' r' =>
          if (byte_of c' =? 125)%Z then Some r'
          else skip_members f (depth + 1)%Z (String c' r')
        | EmptyString => None
        end
      else if (byte_of c =? 91)%Z then
        if (max_nesting_depth <? depth + 1)%Z then None else
        match skip_ws r with
        | String c' r' =>
          if (byte_of c' =? 93)%Z then Some r'
          else skip_elems f (depth + 1)%Z (String c' r')
        | EmptyString => None
        end
      else if (byte_of c =? 34)%Z then skip_string_body r
      else if ((byte_of c =? 45)%Z || is_digit c) then skip_number s
      else skip_literal s
    end
  end
with skip_members (fuel : nat) (depth : Z) (s : string) {struct fuel} : option string :=
  match fuel with
  | O => None
  | S f =>
    match s with
    | EmptyString => None
    | String c r =>
      if negb (byte_of c =? 34)%Z then None else
      match skip_string_body r with
      | None => None
      | Some r1 =>
        match skip_ws r1 with
        | EmptyString => None
        | String c2 r2 =>
          if negb (byte_of c2 =? 58)%Z then None else
          match skip_value f depth (skip_ws r2) with
          | None => None
          | Some r3 =>
            match skip_ws r3 with
            | EmptyString => None
            | String c4 r4 =>
              if (byte_of c4 =? 125)%Z then Some r4
              else if (byte_of c4 =? 44)%Z then skip_members f depth (skip_ws r4)
              else None
            end
          end
        end
      end
    end
  end
with skip_elems (fuel : nat) (depth : Z) (s : string) {struct fuel} : option string :=
  match fuel with
  | O => None
  | S f =>
    match skip_value f depth s with
    | None => None
    | Some r1 =>
      match skip_ws r1 with
      | EmptyString => None
      | String c2 r2 =>
        if (byte_of c2 =? 93)%Z then Some r2
        else if (byte_of c2 =? 44)%Z then skip_elems f depth (skip_ws r2)
        else None
      end
    end
  end.

(** Every call below the first consumes at least one byte, except that
    [skip_elems] calls [skip_value] on the same input: twice the length plus
    two is enough fuel. *)
Definition scan_fuel (s : string) : nat := (2 * String.length s + 2)%nat.

(** [json.Valid]. *)
Definition Valid (s : string) : bool :=
  match skip_value (scan_fuel s) 0 (skip_ws s) with
  | Some rest => is_empty (skip_ws rest)
  | None => false
  end.

(** ** Strings *)

Definition encode_rune (z : Z) : string :=
  (if z <? 0x80 then chr z
   else if z <? 0x800 then chr (0xC0 + z / 64) +:+ chr (0x80 + z mod 64)
   else if z <? 0x10000 then
     chr (0xE0 + z / 4096) +:+ chr (0x80 + (z / 64) mod 64) +:+ chr (0x80 + z mod 64)
   else
     chr (0xF0 + z / 262144) +:+ chr (0x80 + (z / 4096) mod 64)
       +:+ chr (0x80 + (z / 64) mod 64) +:+ chr (0x80 + z mod 64))%Z.

(** [getu4]: the code unit of a [\uXXXX] at the start of [s]. *)
Definition getu4 (s : string) : option (Z * string) :=
  match s with
  | String a (String b (String c (String d (String e (String f r))))) =>
    if (byte_of a =? 92)%Z && (byte_of b =? 117)%Z then
      match hex_value c, hex_value d, hex_value e, hex_value f with
      | Some x, Some y, Some z, Some w => Some (((x * 16 + y) * 16 + z) * 16 + w, r)%Z
      | _, _, _, _ => None
      end
    else None
  | _ => None
  end.

Definition is_surrogate (z : Z) : bool := ((0xD800 <=? z) && (z <? 0xE000))%Z.

Definition decode_surrogates (hi lo : Z) : option Z :=
  if ((0xD800 <=? hi) && (hi <? 0xDC00) && (0xDC00 <=? lo) && (lo <? 0xE000))%Z
  then Some ((hi - 0xD800) * 1024 + (lo - 0xDC00) + 0x10000)%Z
  else None.

Definition simple_escape_value (c : ascii) : ascii :=
  let z := byte_of c in
  if (z =? 98)%Z then mk_byte 8
  else if (z =? 102)%Z then mk_byte 12
  else if (z =? 110)%Z then mk_byte 10
  else if (z =? 114)%Z then mk_byte 13
  else if (z =? 116)%Z then mk_byte 9
  else c.

(** [unquote] of the bytes between the quotes of a scanned string. *)
Fixpoint unquote_fuel (fuel : nat) (s : string) : string :=
  match fuel with
  | O => ""
  | S f =>
    match s with
    | EmptyString => ""
    | String c r =>
      if (byte_of c =? 92)%Z then
        match getu4 s with
        | Some (u, r1) =>
          if is_surrogate u then
            match getu4 r1 with
            | Some (u2, r2) =>
              match decode_surrogates u u2 with
              | Some z => encode_rune z +:+ unquote_fuel f r2
              | None => encode_rune rune_error +:+ unquote_fuel f r1
              end
            | None => encode_rune rune_error +:+ unquote_fuel f r1
            end
          else encode_rune u +:+ unquote_fuel f r1
        | None =>
          match r with
          | String e r1 => String (simple_escape_value e) (unquote_fuel f r1)
          | EmptyString => ""
          end
        end
      else if (byte_of c <? 128)%Z then String c (unquote_fuel f r)
      else
        let '(z, w, _) := decode_rune s in
        encode_rune z +:+ unquote_fuel f (str_drop w s)
    end
  end.
Definition unquote (s : string) : string := unquote_fuel (String.length s) s.

Definition hex_digit (z : Z) : ascii :=
  if (z <? 10)%Z then mk_byte (48 + z) else mk_byte (87 + z).

Definition unicode_escape (z : Z) : string :=
  backslash +:+ "u"
    +:+ String (hex_digit (z / 4096)) (String (hex_digit ((z / 256) mod 16))
         (String (hex_digit ((z / 16) mod 16)) (String (hex_digit (z mod 16)) ""))).

(** One byte below 0x80 inside an encoded string, HTML escaping on. *)
Definition quote_ascii (c : ascii) : string :=
  let z := byte_of c in
  (if (z =? 34) || (z =? 92) then backslash +:+ String c ""
   else if z =? 8 then backslash +:+ "b"
   else if z =? 12 then backslash +:+ "f"
   else if z =? 10 then backslash +:+ "n"
   else if z =? 13 then backslash +:+ "r"
   else if z =? 9 then backslash +:+ "t"
   else if (z <? 32) || (z =? 60) || (z =? 62) || (z =? 38) then unicode_escape z
   else String c "")%Z.

Fixpoint quote_fuel (fuel : nat) (s : string) : string :=
  match fuel with
  | O => ""
  | S f =>
    match s with
    | EmptyString => ""
    | String c r =>
      if (byte_of c <? 128)%Z then quote_ascii c +:+ quote_fuel f r
      else
        let '(z, w, ok) := decode_rune s in
        (if negb ok then unicode_escape rune_error
         else if ((z =? 0x2028) || (z =? 0x2029))%Z then unicode_escape z
         else str_take w s) +:+ quote_fuel f (str_drop w s)
    end
  end.

(** [json.Marshal] of a string. *)
Definition marshal_string (s : string) : string :=
  quote_char +:+ quote_fuel (String.length s) s +:+ quote_char.

(** ** Objects with raw members *)

(** A decoded [map[string]json.RawMessage], kept sorted by key because the
    encoder writes the keys in byte order. *)
Fixpoint raw_insert (k v : string) (l : list (string * string)) : list (string * string) :=
  match l with
  | [] => [(k, v)]
  | (k', v') :: l' =>
    if k =s k' then (k, v) :: l'
    else if String.ltb k k' then (k, v) :: l
    else (k', v') :: raw_insert k v l'
  end.

Fixpoint raw_lookup (k : string) (l : list (string * string)) : option string :=
  match l with
  | [] => None
  | (k', v') :: l' => if k =s k' then Some v' else raw_lookup k l'
  end.

Definition raw_delete (k : string) (l : list (string * string)) : list (string * string) :=
  List.filter (fun kv => negb (k =s fst kv)) l.

(** The bytes consumed between two positions of the same input. *)
Definition consumed (s rest : string) : string :=
  str_take (String.length s - String.length rest) s.

(** The members of an object whose syntax has been checked, starting at the
    first key. *)
Fixpoint object_members (fuel : nat) (s : string) (acc : list (string * string))
    : option (list (string * string)) :=
  match fuel with
  | O => None
  | S f =>
    match s with
    | EmptyString => None
    | String _ r =>
      match skip_string_body r with
      | None => None
      | Some r1 =>
        let body := consumed r r1 in
        let key := unquote (str_take (String.length body - 1) body) in
        match skip_ws r1 with
        | EmptyString => None
        | String _ r2 =>
          let v := skip_ws r2 in
          match skip_value (scan_fuel v) 1 v with
          | None => None
          | Some r3 =>
            let acc' := raw_insert key (consumed v r3) acc in
            match skip_ws r3 with
            | EmptyString => None
            | String c4 r4 =>
              if (byte_of c4 =? 125)%Z then Some acc'
              else object_members f (skip_ws r4) acc'
            end
          end
        end
      end
    end
  end.

(** [json.Unmarshal(data, &m)] with [m : map[string]json.RawMessage]: [None]
    is an error; [null] leaves the map nil. *)
Definition unmarshal_raw_map (data : string) : option (list (string * string)) :=
  if negb (Valid data) then None else
  match skip_ws data with
  | String c r =>
    if (byte_of c =? 123)%Z then
      match skip_ws r with
      | String c' r' =>
        if (byte_of c' =? 125)%Z then Some []
        else object_members (String.length data) (String c' r') []
      | EmptyString => None
      end
    else if (byte_of c =? 110)%Z then Some []
    else None
  | EmptyString => None
  end.

(** [appendCompact] with HTML escaping, as [Marshal] applies it to a
    [RawMessage]: white space outside strings goes, [<], [>], [&] and
    U+2028/U+2029 are escaped everywhere. *)
Fixpoint compact_from (in_str esc : bool) (s : string) : string :=
  match s with
  | EmptyString => ""
  | String c r =>
    let z := byte_of c in
    if negb in_str && is_json_space c then compact_from in_str esc r
    else
      let in_str' :=
        if in_str then negb ((z =? 34)%Z && negb esc) else (z =? 34)%Z in
      let esc' := in_str && (z =? 92)%Z && negb esc in
      if ((z =? 60) || (z =? 62) || (z =? 38))%Z then
        unicode_escape z +:+ compact_from in_str' esc' r
      else
        match r with
        | String c1 (String c2 r2) =>
          if ((z =? 0xE2) && (byte_of c1 =? 0x80)
              && ((byte_of c2 =? 0xA8) || (byte_of c2 =? 0xA9)))%Z
          then unicode_escape (0x2028 + (byte_of c2 - 0xA8)) +:+ compact_from in_str' esc' r2
          else String c (compact_from in_str' esc' r)
        | _ => String c (compact_from in_str' esc' r)
        end
  end.
Definition compact (s : string) : string := compact_from false false s.

Definition marshal_member (kv : string * string) : string :=
  marshal_string (fst kv) +:+ ":" +:+ compact (snd kv).

(** [json.Marshal] of a [map[string]json.RawMessage] with valid members. *)
Definition marshal_raw_map (l : list (string * string)) : string :=
  "{" +:+ String.concat "," (map marshal_member l) +:+ "}".

(** [json.Marshal(map[string]string{k: v})]. *)
Definition marshal_string_map1 (k v : string) : string :=
  "{" +:+ marshal_string k +:+ ":" +:+ marshal_string v +:+ "}".

Example marshal_q : marshal_string_map1 "query" "a<b" =
  "{" +:+ marshal_string "query" +:+ ":" +:+ quote_char +:+ "a" +:+ unicode_escape 60 +:+ "b" +:+ quote_char +:+ "}".
Proof. reflexivity. Qed.

Example valid_1 : Valid " {} " = true.
Proof. vm_compute. reflexivity. Qed.
Example valid_2 : Valid "[1, -2.5e+3, true, null, {}]" = true.
Proof. vm_compute. reflexivity. Qed.
Example valid_3 : Valid "[1, 02]" = false.
Proof. vm_compute. reflexivity. Qed.
