(* ===== verification/ApiTypes.v ===== *)
(** * Wire types of the protocol converters

    The structs of [pkg/apicompat/types.go] that the response and stream
    converters exchange: Anthropic Messages responses and stream events, OpenAI
    Responses objects and stream events, Chat Completions responses and chunks.
    A Go pointer is an [option], a slice a [list], a [json.RawMessage] its bytes
    (a nil message is the empty string), an [int] a [Z].  Each record comes with
    its zero value, so that composite literals read as in Go. *)

From S2P Require Import Prelude GoStrings.

(** ** Anthropic Messages *)

Record AnthropicCacheControl := MkAnthropicCacheControl {
  acc_Type_ : string;
  acc_TTL : string
}.

#[export] Instance eta_AnthropicCacheControl : Eta AnthropicCacheControl := fun r =>
  MkAnthropicCacheControl (acc_Type_ r) (acc_TTL r).

Definition zero_AnthropicCacheControl : AnthropicCacheControl :=
  MkAnthropicCacheControl "" "".

Record AnthropicImageSource := MkAnthropicImageSource {
  ais_Type_ : string;
  ais_MediaType : string;
  ais_Data : string
}.

#[export] Instance eta_AnthropicImageSource : Eta AnthropicImageSource := fun r =>
  MkAnthropicImageSource (ais_Type_ r) (ais_MediaType r) (ais_Data r).

Definition zero_AnthropicImageSource : AnthropicImageSource :=
  MkAnthropicImageSource "" "" "".

(** [AnthropicContentBlock]: one block of a message's content array. *)
Record AnthropicContentBlock := MkAnthropicContentBlock {
  acb_Type_ : string;
  acb_CacheControl : option AnthropicCacheControl;
  acb_Text : string;
  acb_Thinking : string;
  acb_Signature : string;
  acb_Data : string;
  acb_Source : option AnthropicImageSource;
  acb_ID : string;
  acb_Name : string;
  acb_Input : string;
  acb_ToolUseID : string;
  acb_Content : string;
  acb_IsError : bool
}.

#[export] Instance eta_AnthropicContentBlock : Eta AnthropicContentBlock := fun r =>
  MkAnthropicContentBlock (acb_Type_ r) (acb_CacheControl r) (acb_Text r) (acb_Thinking r) (acb_Signature r) (acb_Data r) (acb_Source r) (acb_ID r) (acb_Name r) (acb_Input r) (acb_ToolUseID r) (acb_Content r) (acb_IsError r).

Definition zero_AnthropicContentBlock : AnthropicContentBlock :=
  MkAnthropicContentBlock "" None "" "" "" "" None "" "" "" "" "" false.

Record AnthropicUsage := MkAnthropicUsage {
  au_InputTokens : Z;
  au_OutputTokens : Z;
  au_CacheCreationInputTokens : Z;
  au_CacheReadInputTokens : Z
}.

#[export] Instance eta_AnthropicUsage : Eta AnthropicUsage := fun r =>
  MkAnthropicUsage (au_InputTokens r) (au_OutputTokens r) (au_CacheCreationInputTokens r) (au_CacheReadInputTokens r).

Definition zero_AnthropicUsage : AnthropicUsage :=
  MkAnthropicUsage 0%Z 0%Z 0%Z 0%Z.

Record AnthropicResponse := MkAnthropicResponse {
  ar_ID : string;
  ar_Type_ : string;
  ar_Role : string;
  ar_Content : list AnthropicContentBlock;
  ar_Model : string;
  ar_StopReason : option string;
  ar_StopSequence : option string;
  ar_Usage : AnthropicUsage
}.

#[export] Instance eta_AnthropicResponse : Eta AnthropicResponse := fun r =>
  MkAnthropicResponse (ar_ID r) (ar_Type_ r) (ar_Role r) (ar_Content r) (ar_Model r) (ar_StopReason r) (ar_StopSequence r) (ar_Usage r).

Definition zero_AnthropicResponse : AnthropicResponse :=
  MkAnthropicResponse "" "" "" [] "" None None zero_AnthropicUsage.

(** [AnthropicStopReasonString]. *)
Definition AnthropicStopReasonString (p : option string) : string :=
  match p with None => "" | Some v => v end.

(** [AnthropicStopReasonPtr]. *)
Definition AnthropicStopReasonPtr (value : string) : option string := Some value.

Record AnthropicDelta := MkAnthropicDelta {
  ad_Type_ : string;
  ad_Text : string;
  ad_PartialJSON : string;
  ad_Thinking : string;
  ad_Signature : string;
  ad_StopReason : string;
  ad_StopSequence : option string
}.

#[export] Instance eta_AnthropicDelta : Eta AnthropicDelta := fun r =>
  MkAnthropicDelta (ad_Type_ r) (ad_Text r) (ad_PartialJSON r) (ad_Thinking r) (ad_Signature r) (ad_StopReason r) (ad_StopSequence r).

Definition zero_AnthropicDelta : AnthropicDelta :=
  MkAnthropicDelta "" "" "" "" "" "" None.

(** [AnthropicStreamEvent]: one SSE event of the Anthropic protocol. *)
Record AnthropicStreamEvent := MkAnthropicStreamEvent {
  ase_Type_ : string;
  ase_Message : option AnthropicResponse;
  ase_Index : option Z;
  ase_ContentBlock : option AnthropicContentBlock;
  ase_Delta : option AnthropicDelta;
  ase_Usage : option AnthropicUsage
}.

#[export] Instance eta_AnthropicStreamEvent : Eta AnthropicStreamEvent := fun r =>
  MkAnthropicStreamEvent (ase_Type_ r) (ase_Message r) (ase_Index r) (ase_ContentBlock r) (ase_Delta r) (ase_Usage r).

Definition zero_AnthropicStreamEvent : AnthropicStreamEvent :=
  MkAnthropicStreamEvent "" None None None None None.

(** ** OpenAI Responses *)

Record ResponsesContentPart := MkResponsesContentPart {
  rcp_Refusal : string;
  rcp_Type_ : string;
  rcp_Text : string;
  rcp_ImageURL : string;
  rcp_Filename : string;
  rcp_FileData : string;
  rcp_FileID : string
}.

#[export] Instance eta_ResponsesContentPart : Eta ResponsesContentPart := fun r =>
  MkResponsesContentPart (rcp_Refusal r) (rcp_Type_ r) (rcp_Text r) (rcp_ImageURL r) (rcp_Filename r) (rcp_FileData r) (rcp_FileID r).

Definition zero_ResponsesContentPart : ResponsesContentPart :=
  MkResponsesContentPart "" "" "" "" "" "" "".

Record ResponsesError := MkResponsesError {
  re_Code : string;
  re_Message : string
}.

#[export] Instance eta_ResponsesError : Eta ResponsesError := fun r =>
  MkResponsesError (re_Code r) (re_Message r).

Definition zero_ResponsesError : ResponsesError :=
  MkResponsesError "" "".

Record ResponsesIncompleteDetails := MkResponsesIncompleteDetails {
  rid_Reason : string
}.

#[export] Instance eta_ResponsesIncompleteDetails : Eta ResponsesIncompleteDetails := fun r =>
  MkResponsesIncompleteDetails (rid_Reason r).

Definition zero_ResponsesIncompleteDetails : ResponsesIncompleteDetails :=
  MkResponsesIncompleteDetails "".

Record WebSearchAction := MkWebSearchAction {
  wsa_Type_ : string;
  wsa_Query : string
}.

#[export] Instance eta_WebSearchAction : Eta WebSearchAction := fun r =>
  MkWebSearchAction (wsa_Type_ r) (wsa_Query r).

Definition zero_WebSearchAction : WebSearchAction :=
  MkWebSearchAction "" "".

Record ResponsesSummary := MkResponsesSummary {
  rs_Type_ : string;
  rs_Text : string
}.

#[export] Instance eta_ResponsesSummary : Eta ResponsesSummary := fun r =>
  MkResponsesSummary (rs_Type_ r) (rs_Text r).

Definition zero_ResponsesSummary : ResponsesSummary :=
  MkResponsesSummary "" "".

(** [ResponsesOutput]: one output item. *)
Record ResponsesOutput := MkResponsesOutput {
  ro_Type_ : string;
  ro_ID : string;
  ro_Role : string;
  ro_Content : list ResponsesContentPart;
  ro_Status : string;
  ro_EncryptedContent : string;
  ro_Summary : list ResponsesSummary;
  ro_CallID : string;
  ro_Name : string;
  ro_Arguments : string;
  ro_Namespace : string;
  ro_Input : string;
  ro_Action : option WebSearchAction
}.

#[export] Instance eta_ResponsesOutput : Eta ResponsesOutput := fun r =>
  MkResponsesOutput (ro_Type_ r) (ro_ID r) (ro_Role r) (ro_Content r) (ro_Status r) (ro_EncryptedContent r) (ro_Summary r) (ro_CallID r) (ro_Name r) (ro_Arguments r) (ro_Namespace r) (ro_Input r) (ro_Action r).

Definition zero_ResponsesOutput : ResponsesOutput :=
  MkResponsesOutput "" "" "" [] "" "" [] "" "" "" "" "" None.

Record ResponsesInputTokensDetails := MkResponsesInputTokensDetails {
  ritd_CachedTokens : Z;
  ritd_AudioTokens : Z;
  ritd_CacheCreationInputTokens : Z;
  ritd_CacheCreationTokens : Z;
  ritd_CacheWriteInputTokens : Z;
  ritd_CacheWriteTokens : Z
}.

#[export] Instance eta_ResponsesInputTokensDetails : Eta ResponsesInputTokensDetails := fun r =>
  MkResponsesInputTokensDetails (ritd_CachedTokens r) (ritd_AudioTokens r) (ritd_CacheCreationInputTokens r) (ritd_CacheCreationTokens r) (ritd_CacheWriteInputTokens r) (ritd_CacheWriteTokens r).

Definition zero_ResponsesInputTokensDetails : ResponsesInputTokensDetails :=
  MkResponsesInputTokensDetails 0%Z 0%Z 0%Z 0%Z 0%Z 0%Z.

Record ResponsesOutputTokensDetails := MkResponsesOutputTokensDetails {
  rotd_ReasoningTokens : Z;
  rotd_AudioTokens : Z;
  rotd_AcceptedPredictionTokens : Z;
  rotd_RejectedPredictionTokens : Z
}.

#[export] Instance eta_ResponsesOutputTokensDetails : Eta ResponsesOutputTokensDetails := fun r =>
  MkResponsesOutputTokensDetails (rotd_ReasoningTokens r) (rotd_AudioTokens r) (rotd_AcceptedPredictionTokens r) (rotd_RejectedPredictionTokens r).

Definition zero_ResponsesOutputTokensDetails : ResponsesOutputTokensDetails :=
  MkResponsesOutputTokensDetails 0%Z 0%Z 0%Z 0%Z.

Record ResponsesUsage := MkResponsesUsage {
  ru_InputTokens : Z;
  ru_OutputTokens : Z;
  ru_TotalTokens : Z;
  ru_CacheCreationInputTokens : Z;
  ru_InputTokensDetails : option ResponsesInputTokensDetails;
  ru_OutputTokensDetails : option ResponsesOutputTokensDetails
}.

#[export] Instance eta_ResponsesUsage : Eta ResponsesUsage := fun r =>
  MkResponsesUsage (ru_InputTokens r) (ru_OutputTokens r) (ru_TotalTokens r) (ru_CacheCreationInputTokens r) (ru_InputTokensDetails r) (ru_OutputTokensDetails r).

Definition zero_ResponsesUsage : ResponsesUsage :=
  MkResponsesUsage 0%Z 0%Z 0%Z 0%Z None None.

Record ResponsesResponse := MkResponsesResponse {
  rr_UpstreamServiceTier : string;
  rr_CreatedAt : Z;
  rr_ID : string;
  rr_Object : string;
  rr_Model : string;
  rr_Status : string;
  rr_Output : list ResponsesOutput;
  rr_Usage : option ResponsesUsage;
  rr_IncompleteDetails : option ResponsesIncompleteDetails;
  rr_Error : option ResponsesError
}.

#[export] Instance eta_ResponsesResponse : Eta ResponsesResponse := fun r =>
  MkResponsesResponse (rr_UpstreamServiceTier r) (rr_CreatedAt r) (rr_ID r) (rr_Object r) (rr_Model r) (rr_Status r) (rr_Output r) (rr_Usage r) (rr_IncompleteDetails r) (rr_Error r).

Definition zero_ResponsesResponse : ResponsesResponse :=
  MkResponsesResponse "" 0%Z "" "" "" "" [] None None None.

(** [ResponsesStreamEvent]: one SSE event of the Responses protocol. *)
Record ResponsesStreamEvent := MkResponsesStreamEvent {
  rse_Type_ : string;
  rse_Response : option ResponsesResponse;
  rse_Usage : option ResponsesUsage;
  rse_Item : option ResponsesOutput;
  rse_OutputIndex : Z;
  rse_ContentIndex : Z;
  rse_Delta : string;
  rse_Text : string;
  rse_ItemID : string;
  rse_CallID : string;
  rse_Name : string;
  rse_Arguments : string;
  rse_Input : string;
  rse_SummaryIndex : Z;
  rse_Part : option ResponsesContentPart;
  rse_Code : string;
  rse_Param : string;
  rse_SequenceNumber : Z
}.

#[export] Instance eta_ResponsesStreamEvent : Eta ResponsesStreamEvent := fun r =>
  MkResponsesStreamEvent (rse_Type_ r) (rse_Response r) (rse_Usage r) (rse_Item r) (rse_OutputIndex r) (rse_ContentIndex r) (rse_Delta r) (rse_Text r) (rse_ItemID r) (rse_CallID r) (rse_Name r) (rse_Arguments r) (rse_Input r) (rse_SummaryIndex r) (rse_Part r) (rse_Code r) (rse_Param r) (rse_SequenceNumber r).

Definition zero_ResponsesStreamEvent : ResponsesStreamEvent :=
  MkResponsesStreamEvent "" None None None 0%Z 0%Z "" "" "" "" "" "" "" 0%Z None "" "" 0%Z.

(** ** Chat Completions *)

Record ChatFunctionCall := MkChatFunctionCall {
  cfc_Name : string;
  cfc_Arguments : string
}.

#[export] Instance eta_ChatFunctionCall : Eta ChatFunctionCall := fun r =>
  MkChatFunctionCall (cfc_Name r) (cfc_Arguments r).

Definition zero_ChatFunctionCall : ChatFunctionCall :=
  MkChatFunctionCall "" "".

Record ChatToolCall := MkChatToolCall {
  ctc_Index : option Z;
  ctc_ID : string;
  ctc_Type_ : string;
  ctc_Function : ChatFunctionCall
}.

#[export] Instance eta_ChatToolCall : Eta ChatToolCall := fun r =>
  MkChatToolCall (ctc_Index r) (ctc_ID r) (ctc_Type_ r) (ctc_Function r).

Definition zero_ChatToolCall : ChatToolCall :=
  MkChatToolCall None "" "" zero_ChatFunctionCall.

Record ChatMessage := MkChatMessage {
  cm_Refusal : string;
  cm_Reasoning : string;
  cm_Role : string;
  cm_Content : string;
  cm_ReasoningContent : string;
  cm_Name : string;
  cm_ToolCalls : list ChatToolCall;
  cm_ToolCallID : string;
  cm_FunctionCall : option ChatFunctionCall
}.

#[export] Instance eta_ChatMessage : Eta ChatMessage := fun r =>
  MkChatMessage (cm_Refusal r) (cm_Reasoning r) (cm_Role r) (cm_Content r) (cm_ReasoningContent r) (cm_Name r) (cm_ToolCalls r) (cm_ToolCallID r) (cm_FunctionCall r).

Definition zero_ChatMessage : ChatMessage :=
  MkChatMessage "" "" "" "" "" "" [] "" None.

Record ChatChoice := MkChatChoice {
  cc_Index : Z;
  cc_Message : ChatMessage;
  cc_FinishReason : string
}.

#[export] Instance eta_ChatChoice : Eta ChatChoice := fun r =>
  MkChatChoice (cc_Index r) (cc_Message r) (cc_FinishReason r).

Definition zero_ChatChoice : ChatChoice :=
  MkChatChoice 0%Z zero_ChatMessage "".

Record ChatTokenDetails := MkChatTokenDetails {
  ctd_CachedTokens : Z;
  ctd_AudioTokens : Z;
  ctd_CacheCreationTokens : Z;
  ctd_CacheWriteTokens : Z;
  ctd_ReasoningTokens : Z;
  ctd_AcceptedPredictionTokens : Z;
  ctd_RejectedPredictionTokens : Z
}.

#[export] Instance eta_ChatTokenDetails : Eta ChatTokenDetails := fun r =>
  MkChatTokenDetails (ctd_CachedTokens r) (ctd_AudioTokens r) (ctd_CacheCreationTokens r) (ctd_CacheWriteTokens r) (ctd_ReasoningTokens r) (ctd_AcceptedPredictionTokens r) (ctd_RejectedPredictionTokens r).

Definition zero_ChatTokenDetails : ChatTokenDetails :=
  MkChatTokenDetails 0%Z 0%Z 0%Z 0%Z 0%Z 0%Z 0%Z.

Record ChatUsage := MkChatUsage {
  cu_PromptTokens : Z;
  cu_CompletionTokens : Z;
  cu_TotalTokens : Z;
  cu_PromptTokensDetails : option ChatTokenDetails;
  cu_CompletionTokensDetails : option ChatTokenDetails
}.

#[export] Instance eta_ChatUsage : Eta ChatUsage := fun r =>
  MkChatUsage (cu_PromptTokens r) (cu_CompletionTokens r) (cu_TotalTokens r) (cu_PromptTokensDetails r) (cu_CompletionTokensDetails r).

Definition zero_ChatUsage : ChatUsage :=
  MkChatUsage 0%Z 0%Z 0%Z None None.

Record ChatCompletionsResponse := MkChatCompletionsResponse {
  ccr_ID : string;
  ccr_Object : string;
  ccr_Created : Z;
  ccr_Model : string;
  ccr_Choices : list ChatChoice;
  ccr_Usage : option ChatUsage;
  ccr_SystemFingerprint : string;
  ccr_ServiceTier : string
}.

#[export] Instance eta_ChatCompletionsResponse : Eta ChatCompletionsResponse := fun r =>
  MkChatCompletionsResponse (ccr_ID r) (ccr_Object r) (ccr_Created r) (ccr_Model r) (ccr_Choices r) (ccr_Usage r) (ccr_SystemFingerprint r) (ccr_ServiceTier r).

Definition zero_ChatCompletionsResponse : ChatCompletionsResponse :=
  MkChatCompletionsResponse "" "" 0%Z "" [] None "" "".

Record ChatDelta := MkChatDelta {
  cd_Refusal : option string;
  cd_Reasoning : option string;
  cd_Role : string;
  cd_Content : option string;
  cd_ReasoningContent : option string;
  cd_ToolCalls : list ChatToolCall
}.

#[export] Instance eta_ChatDelta : Eta ChatDelta := fun r =>
  MkChatDelta (cd_Refusal r) (cd_Reasoning r) (cd_Role r) (cd_Content r) (cd_ReasoningContent r) (cd_ToolCalls r).

Definition zero_ChatDelta : ChatDelta :=
  MkChatDelta None None "" None None [].

Record ChatChunkChoice := MkChatChunkChoice {
  ccc_Index : Z;
  ccc_Delta : ChatDelta;
  ccc_FinishReason : option string
}.

#[export] Instance eta_ChatChunkChoice : Eta ChatChunkChoice := fun r =>
  MkChatChunkChoice (ccc_Index r) (ccc_Delta r) (ccc_FinishReason r).

Definition zero_ChatChunkChoice : ChatChunkChoice :=
  MkChatChunkChoice 0%Z zero_ChatDelta None.

Record ChatCompletionsChunk := MkChatCompletionsChunk {
  chunk_ID : string;
  chunk_Object : string;
  chunk_Created : Z;
  chunk_Model : string;
  chunk_Choices : list ChatChunkChoice;
  chunk_Usage : option ChatUsage;
  chunk_SystemFingerprint : string;
  chunk_ServiceTier : string
}.

#[export] Instance eta_ChatCompletionsChunk : Eta ChatCompletionsChunk := fun r =>
  MkChatCompletionsChunk (chunk_ID r) (chunk_Object r) (chunk_Created r) (chunk_Model r) (chunk_Choices r) (chunk_Usage r) (chunk_SystemFingerprint r) (chunk_ServiceTier r).

Definition zero_ChatCompletionsChunk : ChatCompletionsChunk :=
  MkChatCompletionsChunk "" "" 0%Z "" [] None "" "".


(** ** Decoding of usage objects

    [ResponsesUsage.UnmarshalJSON] accepts the field names of several vendors.
    [ResponsesUsageWire] is the auxiliary struct after [json.Unmarshal] has
    filled it, [CacheTokenPresence] the second pass that tells absent counters
    from zero ones. *)

Record CacheTokenPresence := MkCacheTokenPresence {
  ctp_CacheCreationInputTokens : option Z;
  ctp_CacheCreationTokens : option Z;
  ctp_CacheWriteInputTokens : option Z;
  ctp_CacheWriteTokens : option Z
}.

Record ResponsesUsageWire := MkResponsesUsageWire {
  ruw_alias : ResponsesUsage;
  ruw_PromptTokens : Z;
  ruw_CompletionTokens : Z;
  ruw_CacheReadInputTokens : Z;
  ruw_CacheReadTokens : Z;
  ruw_CachedTokens : Z;
  ruw_CacheCreationTokens : Z;
  ruw_CacheWriteInputTokens : Z;
  ruw_CacheWriteTokens : Z;
  ruw_PromptTokensDetails : option ResponsesInputTokensDetails;
  ruw_CompletionTokensDetails : option ResponsesOutputTokensDetails;
  ruw_InputPresence : option CacheTokenPresence;
  ruw_PromptPresence : option CacheTokenPresence
}.

Definition responsesUsageCachedTokens (details : option ResponsesInputTokensDetails) : Z :=
  match details with None => 0%Z | Some d => ritd_CachedTokens d end.

Definition responsesUsagePresenceInt {T : Type} (value : option T) (field : T -> option Z) : Z :=
  match value with
  | None => 0%Z
  | Some v => match field v with None => 0%Z | Some r => r end
  end.

Fixpoint firstPositiveResponsesUsageInt (values : list Z) : Z :=
  match values with
  | [] => 0%Z
  | v :: vs => if (0 <? v)%Z then v else firstPositiveResponsesUsageInt vs
  end.

(** The body of [ResponsesUsage.UnmarshalJSON] after both decoding passes. *)
Definition unmarshalResponsesUsage (aux : ResponsesUsageWire) : ResponsesUsage :=
  let u := ruw_alias aux in
  let u := if ((ru_InputTokens u =? 0) && negb (ruw_PromptTokens aux =? 0))%Z
           then u <| ru_InputTokens := ruw_PromptTokens aux |> else u in
  let u := if ((ru_OutputTokens u =? 0) && negb (ruw_CompletionTokens aux =? 0))%Z
           then u <| ru_OutputTokens := ruw_CompletionTokens aux |> else u in
  let u := match ru_InputTokensDetails u, ruw_PromptTokensDetails aux with
           | None, Some d => u <| ru_InputTokensDetails := Some d |>
           | _, _ => u end in
  let u := match ru_OutputTokensDetails u, ruw_CompletionTokensDetails aux with
           | None, Some d => u <| ru_OutputTokensDetails := Some d |>
           | _, _ => u end in
  let cacheReadTokens := firstPositiveResponsesUsageInt
    [ responsesUsageCachedTokens (ru_InputTokensDetails (ruw_alias aux));
      responsesUsageCachedTokens (ruw_PromptTokensDetails aux);
      ruw_CacheReadInputTokens aux;
      ruw_CacheReadTokens aux;
      ruw_CachedTokens aux ] in
  let u := if (0 <? cacheReadTokens)%Z then
             let d := match ru_InputTokensDetails u with
                      | None => zero_ResponsesInputTokensDetails
                      | Some d => d end in
             u <| ru_InputTokensDetails := Some (d <| ritd_CachedTokens := cacheReadTokens |>) |>
           else u in
  let np1 := ruw_InputPresence aux in
  let np2 := ruw_PromptPresence aux in
  let u := u <| ru_CacheCreationInputTokens := firstPositiveResponsesUsageInt
    [ responsesUsagePresenceInt np1 ctp_CacheCreationInputTokens;
      responsesUsagePresenceInt np2 ctp_CacheCreationInputTokens;
      responsesUsagePresenceInt np1 ctp_CacheWriteInputTokens;
      responsesUsagePresenceInt np2 ctp_CacheWriteInputTokens;
      responsesUsagePresenceInt np1 ctp_CacheWriteTokens;
      responsesUsagePresenceInt np2 ctp_CacheWriteTokens;
      responsesUsagePresenceInt np1 ctp_CacheCreationTokens;
      responsesUsagePresenceInt np2 ctp_CacheCreationTokens;
      ru_CacheCreationInputTokens u;
      ruw_CacheWriteInputTokens aux;
      ruw_CacheCreationTokens aux;
      ruw_CacheWriteTokens aux ] |> in
  if ((ru_TotalTokens u =? 0)
      && (negb (ru_InputTokens u =? 0) || negb (ru_OutputTokens u =? 0)))%Z
  then u <| ru_TotalTokens := (ru_InputTokens u + ru_OutputTokens u)%i64 |>
  else u.

(** ** Tool call identifiers

    [toResponsesCallID] and [fromResponsesCallID] of
    [anthropic_to_responses.go]. *)

Definition toResponsesCallID (id : string) : string := id.

Definition fromResponsesCallID (id : string) : string :=
  match CutPrefix id "fc_" with
  | Some after =>
    if HasPrefix after "toolu_" || HasPrefix after "call_" then after else id
  | None => id
  end.

(** Iteration of [for i, x := range xs]. *)
Definition range {A : Type} (l : list A) : list (Z * A) :=
  imap (fun i x => (Z.of_nat i, x)) l.
