(* ===== verification/ThinkingEnvelope.v ===== *)
(** * Claude model names and the thinking envelope

    [pkg/claude/model_capabilities_v028.go]: which model spellings follow the
    adaptive-thinking rules.  [pkg/apicompat/anthropic_thinking_envelope.go]:
    the authenticated envelope that carries a signed thinking block through the
    Responses protocol. *)

From Stdlib Require Import Ascii.
From S2P Require Import Prelude GoStrings GoJson GoCrypto ApiTypes.

Section ClaudeModels.
(** The [unicode] package's lower-case table for names that are not ASCII. *)
Variable unicode_lower : string -> string.

Definition is_ascii_digit (c : ascii) : bool :=
  ((48 <=? byte_of c) && (byte_of c <=? 57))%Z.

(** The nine trailing bytes are a dash and eight digits. *)
Definition is_date_suffix (suffix : string) : bool :=
  match suffix with
  | EmptyString => false
  | String c r => (byte_of c =? 45)%Z && str_forall is_ascii_digit r
  end.

Definition normalize55Model (model : string) : string :=
  let id := ToLower unicode_lower (TrimSpace model) in
  let id := TrimPrefix id "models/" in
  let id := TrimPrefix id "anthropic/" in
  let id := foldl TrimPrefix id ["us."; "eu."; "apac."; "global."] in
  let id := TrimPrefix id "anthropic." in
  let id := TrimSuffix id "-v1:0" in
  let id := str_map (fun c => if (byte_of c =? 64)%Z then mk_byte 45 else c) id in
  let id := TrimSuffix id "-thinking" in
  let n := String.length id in
  if bool_decide (9 <= n) && is_date_suffix (str_drop (n - 9) id)
  then str_take (n - 9) id else id.

Definition IsOpus55 (model : string) : bool := normalize55Model model =s "claude-opus-5-5".
Definition IsSonnet55 (model : string) : bool := normalize55Model model =s "claude-sonnet-5-5".
Definition IsHaiku55 (model : string) : bool := normalize55Model model =s "claude-haiku-5-5".

Definition IsAdaptiveThinkingModel (model : string) : bool :=
  IsOpus55 model || IsSonnet55 model || IsHaiku55 model.
End ClaudeModels.

(** ** The envelope *)

Definition anthropicThinkingEnvelopePrefix : string := "anthropic-thinking-v1:".
Definition maxAnthropicThinkingEnvelope : Z := Z.shiftl 2 20.

Record anthropicThinkingEnvelope := MkanthropicThinkingEnvelope {
  env_Scope : string;
  env_ItemID : string;
  env_Type_ : string;
  env_Thinking : string;
  env_Signature : string;
  env_Data : string
}.

#[export] Instance eta_anthropicThinkingEnvelope : Eta anthropicThinkingEnvelope := fun r =>
  MkanthropicThinkingEnvelope (env_Scope r) (env_ItemID r) (env_Type_ r) (env_Thinking r)
    (env_Signature r) (env_Data r).

(** [json.Marshal] of the envelope; the last two fields are [omitempty]. *)
Definition marshal_envelope (e : anthropicThinkingEnvelope) : string :=
  let field (k v : string) := marshal_string k +:+ ":" +:+ marshal_string v in
  "{" +:+ field "scope" (env_Scope e)
    +:+ "," +:+ field "item_id" (env_ItemID e)
    +:+ "," +:+ field "type" (env_Type_ e)
    +:+ "," +:+ field "thinking" (env_Thinking e)
    +:+ (if is_empty (env_Signature e) then "" else "," +:+ field "signature" (env_Signature e))
    +:+ (if is_empty (env_Data e) then "" else "," +:+ field "data" (env_Data e))
    +:+ "}".

Definition thinkingEnvelopeMAC (envelope : anthropicThinkingEnvelope) (scope : string) : string :=
  let envelope := envelope <| env_Scope := "" |> in
  let raw := marshal_envelope envelope in
  hex_encode (hmac_sha256 (bytes_of scope) (bytes_of raw)).

Definition encodeAnthropicThinking (block : AnthropicContentBlock) (scope id : string) : string :=
  if is_empty scope then "" else
  let envelope := MkanthropicThinkingEnvelope "" id (acb_Type_ block) (acb_Thinking block)
                    (acb_Signature block) (acb_Data block) in
  let envelope := envelope <| env_Scope := thinkingEnvelopeMAC envelope scope |> in
  let raw := marshal_envelope envelope in
  if (maxAnthropicThinkingEnvelope <? strlen raw)%Z then ""
  else anthropicThinkingEnvelopePrefix +:+ RawStdEncodeToString raw.

(** The documented spellings are accepted. *)
Example adaptive_spellings :
  forallb (IsAdaptiveThinkingModel (fun s => s))
    ["claude-opus-5-5"; "us.anthropic.claude-opus-5-5-20260101-v1:0";
     "models/claude-sonnet-5-5@20260101"; " anthropic/claude-haiku-5-5-20260101-thinking "] = true
  /\ IsAdaptiveThinkingModel (fun s => s) "claude-opus-5-50" = false.
Proof. vm_compute. split; reflexivity. Qed.
