(* ===== verification/ResponsesToAnthropic.v ===== *)
(** * Responses to Anthropic

    [pkg/apicompat/responses_to_anthropic.go]: the non-streaming conversion of
    a Responses API response into an Anthropic Messages response, and the
    stateful converter that turns Responses stream events into Anthropic stream
    events.  Handlers are functions from the state to the new state and the
    emitted events, composed as in the Go code. *)

From S2P Require Import Prelude GoStrings GoJson ApiTypes.

(** ** Non-streaming conversion *)

Definition anthropicUsageFromResponsesUsage (usage : option ResponsesUsage) : AnthropicUsage :=
  match usage with
  | None => zero_AnthropicUsage
  | Some usage =>
    let cachedTokens :=
      match ru_InputTokensDetails usage with
      | Some d => ritd_CachedTokens d
      | None => 0%Z
      end in
    let inputTokens :=
      ((ru_InputTokens usage - cachedTokens)%i64 - ru_CacheCreationInputTokens usage)%i64 in
    let inputTokens := if (inputTokens <? 0)%Z then 0%Z else inputTokens in
    zero_AnthropicUsage
      <| au_InputTokens := inputTokens |>
      <| au_OutputTokens := ru_OutputTokens usage |>
      <| au_CacheReadInputTokens := cachedTokens |>
      <| au_CacheCreationInputTokens := ru_CacheCreationInputTokens usage |>
  end.

Fixpoint containsAnthropicToolUseBlock (blocks : list AnthropicContentBlock) : bool :=
  match blocks with
  | [] => false
  | block :: rest =>
    if acb_Type_ block =s "tool_use" then true else containsAnthropicToolUseBlock rest
  end.

Definition responsesStatusToAnthropicStopReason (status : string)
    (details : option ResponsesIncompleteDetails)
    (blocks : list AnthropicContentBlock) : string :=
  if status =s "incomplete" then
    match details with
    | Some d => if rid_Reason d =s "max_output_tokens" then "max_tokens" else "end_turn"
    | None => "end_turn"
    end
  else if status =s "completed" then
    if containsAnthropicToolUseBlock blocks then "tool_use" else "end_turn"
  else "end_turn".

(** The literal [""] of JSON, which Claude Code's Read tool rejects. *)
Definition json_empty_string : string := quote_char +:+ quote_char.

Definition sanitizeAnthropicToolUseInput (name raw : string) : string :=
  if negb (name =s "Read") || is_empty raw then raw else
  match unmarshal_raw_map raw with
  | None => raw
  | Some input =>
    match raw_lookup "pages" input with
    | None => raw
    | Some pages =>
      if negb (pages =s json_empty_string) then raw
      else marshal_raw_map (raw_delete "pages" input)
    end
  end.

(** The summary text of a reasoning item. *)
Definition reasoningSummaryText (summary : list ResponsesSummary) : string :=
  foldl (fun acc s =>
    if (rs_Type_ s =s "summary_text") && negb (is_empty (rs_Text s))
    then acc +:+ rs_Text s else acc) "" summary.

(** The blocks one output item contributes. *)
Definition responsesItemToAnthropicBlocks (item : ResponsesOutput) : list AnthropicContentBlock :=
  let ty := ro_Type_ item in
  if ty =s "reasoning" then
    let summaryText := reasoningSummaryText (ro_Summary item) in
    if negb (is_empty summaryText) || negb (is_empty (TrimSpace (ro_EncryptedContent item))) then
      [ zero_AnthropicContentBlock
          <| acb_Type_ := "thinking" |>
          <| acb_Thinking := summaryText |>
          <| acb_Signature := ro_EncryptedContent item |> ]
    else []
  else if ty =s "message" then
    flat_map (fun part =>
      if (rcp_Type_ part =s "output_text") && negb (is_empty (rcp_Text part)) then
        [ zero_AnthropicContentBlock
            <| acb_Type_ := "text" |> <| acb_Text := rcp_Text part |> ]
      else []) (ro_Content item)
  else if ty =s "function_call" then
    [ zero_AnthropicContentBlock
        <| acb_Type_ := "tool_use" |>
        <| acb_ID := fromResponsesCallID (ro_CallID item) |>
        <| acb_Name := ro_Name item |>
        <| acb_Input := sanitizeAnthropicToolUseInput (ro_Name item) (ro_Arguments item) |> ]
  else if ty =s "web_search_call" then
    let toolUseID := "srvtoolu_" +:+ ro_ID item in
    let query := match ro_Action item with Some a => wsa_Query a | None => "" end in
    [ zero_AnthropicContentBlock
        <| acb_Type_ := "server_tool_use" |>
        <| acb_ID := toolUseID |>
        <| acb_Name := "web_search" |>
        <| acb_Input := marshal_string_map1 "query" query |>;
      zero_AnthropicContentBlock
        <| acb_Type_ := "web_search_tool_result" |>
        <| acb_ToolUseID := toolUseID |>
        <| acb_Content := "[]" |> ]
  else [].

Definition ResponsesToAnthropic (resp : ResponsesResponse) (model : string) : AnthropicResponse :=
  let blocks := flat_map responsesItemToAnthropicBlocks (rr_Output resp) in
  let blocks :=
    match blocks with
    | [] => [ zero_AnthropicContentBlock <| acb_Type_ := "text" |> <| acb_Text := "" |> ]
    | _ => blocks
    end in
  let out :=
    zero_AnthropicResponse
      <| ar_ID := rr_ID resp |>
      <| ar_Type_ := "message" |>
      <| ar_Role := "assistant" |>
      <| ar_Model := model |>
      <| ar_Content := blocks |>
      <| ar_StopReason := AnthropicStopReasonPtr
           (responsesStatusToAnthropicStopReason (rr_Status resp) (rr_IncompleteDetails resp) blocks) |> in
  match rr_Usage resp with
  | Some u => out <| ar_Usage := anthropicUsageFromResponsesUsage (Some u) |>
  | None => out
  end.

(** ** Streaming conversion: state *)

(** [ResponsesEventToAnthropicState]; [textByPart] holds the text builders by their content. *)
Record ResponsesEventToAnthropicState := MkResponsesEventToAnthropicState {
  ras_MessageStartSent : bool;
  ras_MessageStopSent : bool;
  ras_ContentBlockIndex : Z;
  ras_ContentBlockOpen : bool;
  ras_CurrentBlockType : string;
  ras_CurrentToolName : string;
  ras_CurrentToolArgs : string;
  ras_CurrentToolHadDelta : bool;
  ras_PendingThinkingSignature : string;
  ras_HasToolCall : bool;
  ras_OutputIndexToBlockIdx : gmap Z Z;
  ras_textByPart : gmap (Z * Z) string;
  ras_InputTokens : Z;
  ras_OutputTokens : Z;
  ras_CacheReadInputTokens : Z;
  ras_CacheCreationInputTokens : Z;
  ras_ResponseID : string;
  ras_Model : string;
  ras_Created : Z
}.

#[export] Instance eta_ResponsesEventToAnthropicState : Eta ResponsesEventToAnthropicState := fun r =>
  MkResponsesEventToAnthropicState (ras_MessageStartSent r) (ras_MessageStopSent r) (ras_ContentBlockIndex r) (ras_ContentBlockOpen r) (ras_CurrentBlockType r) (ras_CurrentToolName r) (ras_CurrentToolArgs r) (ras_CurrentToolHadDelta r) (ras_PendingThinkingSignature r) (ras_HasToolCall r) (ras_OutputIndexToBlockIdx r) (ras_textByPart r) (ras_InputTokens r) (ras_OutputTokens r) (ras_CacheReadInputTokens r) (ras_CacheCreationInputTokens r) (ras_ResponseID r) (ras_Model r) (ras_Created r).

Definition zero_ResponsesEventToAnthropicState : ResponsesEventToAnthropicState :=
  MkResponsesEventToAnthropicState false false 0%Z false "" "" "" false "" false ∅ ∅ 0%Z 0%Z 0%Z 0%Z "" "" 0%Z.

Definition NewResponsesEventToAnthropicState (now : Z) : ResponsesEventToAnthropicState :=
  zero_ResponsesEventToAnthropicState <| ras_Created := now |>.

(** A handler's result: the state it leaves and the events it emits. *)
Definition anth_result : Type :=
  (ResponsesEventToAnthropicState * list AnthropicStreamEvent)%type.

(** ** Event constructors shared by the handlers *)

Definition ev_block_start (idx : Z) (block : AnthropicContentBlock) : AnthropicStreamEvent :=
  zero_AnthropicStreamEvent
    <| ase_Type_ := "content_block_start" |>
    <| ase_Index := Some idx |>
    <| ase_ContentBlock := Some block |>.

Definition ev_block_delta (idx : Z) (delta : AnthropicDelta) : AnthropicStreamEvent :=
  zero_AnthropicStreamEvent
    <| ase_Type_ := "content_block_delta" |>
    <| ase_Index := Some idx |>
    <| ase_Delta := Some delta |>.

Definition ev_block_stop (idx : Z) : AnthropicStreamEvent :=
  zero_AnthropicStreamEvent
    <| ase_Type_ := "content_block_stop" |>
    <| ase_Index := Some idx |>.

Definition ev_message_delta (stopReason : string) (usage : AnthropicUsage) : AnthropicStreamEvent :=
  zero_AnthropicStreamEvent
    <| ase_Type_ := "message_delta" |>
    <| ase_Delta := Some (zero_AnthropicDelta <| ad_StopReason := stopReason |>) |>
    <| ase_Usage := Some usage |>.

Definition ev_message_stop : AnthropicStreamEvent :=
  zero_AnthropicStreamEvent <| ase_Type_ := "message_stop" |>.

(** The usage of the terminal events, read from the state. *)
Definition stateUsage (state : ResponsesEventToAnthropicState) : AnthropicUsage :=
  zero_AnthropicUsage
    <| au_InputTokens := ras_InputTokens state |>
    <| au_OutputTokens := ras_OutputTokens state |>
    <| au_CacheReadInputTokens := ras_CacheReadInputTokens state |>
    <| au_CacheCreationInputTokens := ras_CacheCreationInputTokens state |>.

(** ** Handlers *)

Definition closeCurrentBlock (state : ResponsesEventToAnthropicState) : anth_result :=
  if negb (ras_ContentBlockOpen state) then (state, []) else
  let idx := ras_ContentBlockIndex state in
  let thinking := ras_CurrentBlockType state =s "thinking" in
  let sig := TrimSpace (ras_PendingThinkingSignature state) in
  let events :=
    if thinking && negb (is_empty sig) then
      [ ev_block_delta idx
          (zero_AnthropicDelta <| ad_Type_ := "signature_delta" |> <| ad_Signature := sig |>) ]
    else [] in
  let state := if thinking then state <| ras_PendingThinkingSignature := "" |> else state in
  let state := state
    <| ras_ContentBlockOpen := false |>
    <| ras_ContentBlockIndex := (ras_ContentBlockIndex state + 1)%Z |>
    <| ras_CurrentToolName := "" |>
    <| ras_CurrentToolArgs := "" |>
    <| ras_CurrentToolHadDelta := false |> in
  (state, events ++ [ev_block_stop idx]).

Section WithUUID.
(** The identifier drawn from the third-party [uuid] package; a converter
    draws at most one. *)
Variable uuid_NewString : string.

Definition resToAnthHandleCreated (evt : ResponsesStreamEvent)
    (state : ResponsesEventToAnthropicState) : anth_result :=
  if ras_MessageStartSent state then (state, []) else
  let state :=
    match rse_Response evt with
    | Some r =>
      let state := state <| ras_ResponseID := rr_ID r |> in
      if is_empty (ras_Model state) then state <| ras_Model := rr_Model r |> else state
    | None => state
    end in
  let state :=
    if is_empty (ras_ResponseID state)
    then state <| ras_ResponseID := "msg_" +:+ uuid_NewString |> else state in
  let state := state <| ras_MessageStartSent := true |> in
  (state,
   [ zero_AnthropicStreamEvent
       <| ase_Type_ := "message_start" |>
       <| ase_Message := Some
            (zero_AnthropicResponse
               <| ar_ID := ras_ResponseID state |>
               <| ar_Type_ := "message" |>
               <| ar_Role := "assistant" |>
               <| ar_Content := [] |>
               <| ar_Model := ras_Model state |>
               <| ar_StopReason := None |>
               <| ar_Usage := zero_AnthropicUsage |>) |> ]).

Definition resToAnthHandleOutputItemAdded (evt : ResponsesStreamEvent)
    (state : ResponsesEventToAnthropicState) : anth_result :=
  match rse_Item evt with
  | None => (state, [])
  | Some item =>
    if (ro_Type_ item =s "function_call") || (ro_Type_ item =s "custom_tool_call") then
      let '(state, events) := closeCurrentBlock state in
      let idx := ras_ContentBlockIndex state in
      let state := state
        <| ras_OutputIndexToBlockIdx :=
             <[ rse_OutputIndex evt := idx ]> (ras_OutputIndexToBlockIdx state) |>
        <| ras_ContentBlockOpen := true |>
        <| ras_CurrentBlockType := "tool_use" |>
        <| ras_CurrentToolName := ro_Name item |>
        <| ras_CurrentToolArgs := "" |>
        <| ras_CurrentToolHadDelta := false |>
        <| ras_HasToolCall := true |> in
      (state, events ++
        [ ev_block_start idx
            (zero_AnthropicContentBlock
               <| acb_Type_ := "tool_use" |>
               <| acb_ID := fromResponsesCallID (ro_CallID item) |>
               <| acb_Name := ro_Name item |>
               <| acb_Input := "{}" |>) ])
    else if ro_Type_ item =s "reasoning" then
      let '(state, events) := closeCurrentBlock state in
      let idx := ras_ContentBlockIndex state in
      let state := state
        <| ras_OutputIndexToBlockIdx :=
             <[ rse_OutputIndex evt := idx ]> (ras_OutputIndexToBlockIdx state) |>
        <| ras_ContentBlockOpen := true |>
        <| ras_CurrentBlockType := "thinking" |>
        <| ras_PendingThinkingSignature := TrimSpace (ro_EncryptedContent item) |> in
      (state, events ++
        [ ev_block_start idx
            (zero_AnthropicContentBlock <| acb_Type_ := "thinking" |> <| acb_Thinking := "" |>) ])
    else (state, [])
  end.

Definition resToAnthHandleTextDelta (evt : ResponsesStreamEvent)
    (state : ResponsesEventToAnthropicState) : anth_result :=
  if is_empty (rse_Delta evt) then (state, []) else
  let '(state, events) :=
    if negb (ras_ContentBlockOpen state) || negb (ras_CurrentBlockType state =s "text") then
      let '(state, events) := closeCurrentBlock state in
      let idx := ras_ContentBlockIndex state in
      let state := state
        <| ras_ContentBlockOpen := true |>
        <| ras_CurrentBlockType := "text" |> in
      (state, events ++
        [ ev_block_start idx
            (zero_AnthropicContentBlock <| acb_Type_ := "text" |> <| acb_Text := "" |>) ])
    else (state, []) in
  let idx := ras_ContentBlockIndex state in
  let part := (rse_OutputIndex evt, rse_ContentIndex evt) in
  let delivered := default "" (ras_textByPart state !! part) in
  let state := state
    <| ras_textByPart := <[ part := delivered +:+ rse_Delta evt ]> (ras_textByPart state) |> in
  (state, events ++
    [ ev_block_delta idx
        (zero_AnthropicDelta <| ad_Type_ := "text_delta" |> <| ad_Text := rse_Delta evt |>) ]).

Definition resToAnthRecoverText (evt : ResponsesStreamEvent)
    (state : ResponsesEventToAnthropicState) : anth_result :=
  let part := (rse_OutputIndex evt, rse_ContentIndex evt) in
  let delivered := default "" (ras_textByPart state !! part) in
  if is_empty (rse_Text evt) || (rse_Text evt =s delivered)
     || negb (HasPrefix (rse_Text evt) delivered)
  then (state, [])
  else
    resToAnthHandleTextDelta
      (evt <| rse_Delta := str_drop (String.length delivered) (rse_Text evt) |>) state.

Definition resToAnthHandleFuncArgsDelta (evt : ResponsesStreamEvent)
    (state : ResponsesEventToAnthropicState) : anth_result :=
  if is_empty (rse_Delta evt) then (state, []) else
  if (ras_CurrentBlockType state =s "tool_use") && (ras_CurrentToolName state =s "Read") then
    let state := state <| ras_CurrentToolArgs := ras_CurrentToolArgs state +:+ rse_Delta evt |> in
    if ras_CurrentToolHadDelta state || negb (Valid (ras_CurrentToolArgs state)) then (state, [])
    else
      match ras_OutputIndexToBlockIdx state !! rse_OutputIndex evt with
      | None => (state, [])
      | Some blockIdx =>
        let state := state <| ras_CurrentToolHadDelta := true |> in
        let sanitized :=
          sanitizeAnthropicToolUseInput (ras_CurrentToolName state) (ras_CurrentToolArgs state) in
        (state,
         [ ev_block_delta blockIdx
             (zero_AnthropicDelta
                <| ad_Type_ := "input_json_delta" |> <| ad_PartialJSON := sanitized |>) ])
      end
  else
    let state :=
      if ras_CurrentBlockType state =s "tool_use"
      then state <| ras_CurrentToolHadDelta := true |> else state in
    match ras_OutputIndexToBlockIdx state !! rse_OutputIndex evt with
    | None => (state, [])
    | Some blockIdx =>
      (state,
       [ ev_block_delta blockIdx
           (zero_AnthropicDelta
              <| ad_Type_ := "input_json_delta" |> <| ad_PartialJSON := rse_Delta evt |>) ])
    end.

Definition resToAnthHandleBlockDone (state : ResponsesEventToAnthropicState) : anth_result :=
  if negb (ras_ContentBlockOpen state) then (state, []) else closeCurrentBlock state.

Definition resToAnthHandleFuncArgsDone (evt : ResponsesStreamEvent)
    (state : ResponsesEventToAnthropicState) : anth_result :=
  if negb (ras_ContentBlockOpen state) then (state, []) else
  if negb (ras_CurrentBlockType state =s "tool_use") then resToAnthHandleBlockDone state else
  let raw :=
    if is_empty (rse_Arguments evt) then ras_CurrentToolArgs state else rse_Arguments evt in
  if is_empty raw || ras_CurrentToolHadDelta state then closeCurrentBlock state else
  let sanitized := sanitizeAnthropicToolUseInput (ras_CurrentToolName state) raw in
  let read := ras_CurrentToolName state =s "Read" in
  if read && is_empty sanitized then closeCurrentBlock state else
  let raw := if read then sanitized else raw in
  let idx := ras_ContentBlockIndex state in
  let '(state, closing) := closeCurrentBlock state in
  (state,
   ev_block_delta idx
     (zero_AnthropicDelta
        <| ad_Type_ := "input_json_delta" |> <| ad_PartialJSON := raw |>) :: closing).

Definition resToAnthHandleReasoningDelta (evt : ResponsesStreamEvent)
    (state : ResponsesEventToAnthropicState) : anth_result :=
  if is_empty (rse_Delta evt) then (state, []) else
  match ras_OutputIndexToBlockIdx state !! rse_OutputIndex evt with
  | None => (state, [])
  | Some blockIdx =>
    (state,
     [ ev_block_delta blockIdx
         (zero_AnthropicDelta
            <| ad_Type_ := "thinking_delta" |> <| ad_Thinking := rse_Delta evt |>) ])
  end.

Definition resToAnthHandleWebSearchDone (item : ResponsesOutput)
    (state : ResponsesEventToAnthropicState) : anth_result :=
  let '(state, events) := closeCurrentBlock state in
  let toolUseID := "srvtoolu_" +:+ ro_ID item in
  let query := match ro_Action item with Some a => wsa_Query a | None => "" end in
  let inputJSON := marshal_string_map1 "query" query in
  let idx1 := ras_ContentBlockIndex state in
  let state := state <| ras_ContentBlockIndex := (ras_ContentBlockIndex state + 1)%Z |> in
  let emptyResults := "[]" in
  let idx2 := ras_ContentBlockIndex state in
  let state := state <| ras_ContentBlockIndex := (ras_ContentBlockIndex state + 1)%Z |> in
  (state, events ++
    [ ev_block_start idx1
        (zero_AnthropicContentBlock
           <| acb_Type_ := "server_tool_use" |>
           <| acb_ID := toolUseID |>
           <| acb_Name := "web_search" |>
           <| acb_Input := inputJSON |>);
      ev_block_stop idx1;
      ev_block_start idx2
        (zero_AnthropicContentBlock
           <| acb_Type_ := "web_search_tool_result" |>
           <| acb_ToolUseID := toolUseID |>
           <| acb_Content := emptyResults |>);
      ev_block_stop idx2 ]).

(** The loop body shared by the two places that recover text from the parts
    of a finished item. *)
Definition recoverPart (outputIndex : Z) (skipEmpty : bool)
    (state : ResponsesEventToAnthropicState) (ip : Z * ResponsesContentPart) : anth_result :=
  let '(i, part) := ip in
  if (rcp_Type_ part =s "output_text") && negb (skipEmpty && is_empty (rcp_Text part)) then
    resToAnthRecoverText
      (zero_ResponsesStreamEvent
         <| rse_Text := rcp_Text part |>
         <| rse_OutputIndex := outputIndex |>
         <| rse_ContentIndex := i |>) state
  else (state, []).

Definition resToAnthHandleOutputItemDone (evt : ResponsesStreamEvent)
    (state : ResponsesEventToAnthropicState) : anth_result :=
  match rse_Item evt with
  | None => (state, [])
  | Some item =>
    if (ro_Type_ item =s "message") && negb (ro_Status item =s "failed") then
      let '(state, events) :=
        run (recoverPart (rse_OutputIndex evt) false) state (range (ro_Content item)) in
      let '(state, closing) := closeCurrentBlock state in
      (state, events ++ closing)
    else if (ro_Type_ item =s "web_search_call") && (ro_Status item =s "completed") then
      resToAnthHandleWebSearchDone item state
    else
      let sig := TrimSpace (ro_EncryptedContent item) in
      let state :=
        if (ro_Type_ item =s "reasoning") && negb (is_empty sig)
        then state <| ras_PendingThinkingSignature := sig |> else state in
      if ras_ContentBlockOpen state then closeCurrentBlock state else (state, [])
  end.

(** [state.InputTokens = usage.InputTokens], and so on. *)
Definition storeUsage (usage : AnthropicUsage) (state : ResponsesEventToAnthropicState)
    : ResponsesEventToAnthropicState :=
  state
    <| ras_InputTokens := au_InputTokens usage |>
    <| ras_OutputTokens := au_OutputTokens usage |>
    <| ras_CacheReadInputTokens := au_CacheReadInputTokens usage |>
    <| ras_CacheCreationInputTokens := au_CacheCreationInputTokens usage |>.

(** Recovery of the text of every item of a terminal response. *)
Definition recoverOutputs (state : ResponsesEventToAnthropicState)
    (items : list ResponsesOutput) : anth_result :=
  run (fun state oi => run (recoverPart (fst oi) true) state (range (ro_Content (snd oi))))
      state (range items).

(** The text of a response that did not fail is completed from its output. *)
Definition completedRecovery (evt : ResponsesStreamEvent)
    (state : ResponsesEventToAnthropicState) : anth_result :=
  match rse_Response evt with
  | Some r =>
    if negb (rse_Type_ evt =s "response.failed") && negb (rr_Status r =s "failed") then
      let '(state, recovered) := recoverOutputs state (rr_Output r) in
      let '(state, closing) := closeCurrentBlock state in
      (state, recovered ++ closing)
    else (state, [])
  | None => (state, [])
  end.

(** The usage of a terminal event: the top level first, then the response. *)
Definition completedUsage (evt : ResponsesStreamEvent)
    (state : ResponsesEventToAnthropicState) : ResponsesEventToAnthropicState :=
  let state :=
    match rse_Usage evt with
    | Some u => storeUsage (anthropicUsageFromResponsesUsage (Some u)) state
    | None => state
    end in
  match rse_Response evt with
  | Some r =>
    match rr_Usage r with
    | Some u => storeUsage (anthropicUsageFromResponsesUsage (Some u)) state
    | None => state
    end
  | None => state
  end.

(** The stop reason of a terminal event. *)
Definition completedStopReason (evt : ResponsesStreamEvent) (hasToolCall : bool) : string :=
  match rse_Response evt with
  | None => "end_turn"
  | Some r =>
    if rr_Status r =s "incomplete" then
      match rr_IncompleteDetails r with
      | Some d => if rid_Reason d =s "max_output_tokens" then "max_tokens" else "end_turn"
      | None => "end_turn"
      end
    else if rr_Status r =s "completed" then
      if hasToolCall then "tool_use" else "end_turn"
    else "end_turn"
  end.

Definition resToAnthHandleCompleted (evt : ResponsesStreamEvent)
    (state : ResponsesEventToAnthropicState) : anth_result :=
  if ras_MessageStopSent state then (state, []) else
  let '(state, events1) := closeCurrentBlock state in
  let '(state, events2) := completedRecovery evt state in
  let state := completedUsage evt state in
  let stopReason := completedStopReason evt (ras_HasToolCall state) in
  (state <| ras_MessageStopSent := true |>,
   events1 ++ events2 ++ [ ev_message_delta stopReason (stateUsage state); ev_message_stop ]).

(** The [switch evt.Type] of [ResponsesEventToAnthropicEvents]. *)
Definition resToAnthDispatch (evt : ResponsesStreamEvent)
    (state : ResponsesEventToAnthropicState) : anth_result :=
  let ty := rse_Type_ evt in
  if ty =s "response.created" then resToAnthHandleCreated evt state
  else if ty =s "response.output_item.added" then resToAnthHandleOutputItemAdded evt state
  else if ty =s "response.output_text.delta" then resToAnthHandleTextDelta evt state
  else if ty =s "response.output_text.done" then
    let '(state, recovered) := resToAnthRecoverText evt state in
    let '(state, closing) := resToAnthHandleBlockDone state in
    (state, recovered ++ closing)
  else if (ty =s "response.function_call_arguments.delta")
       || (ty =s "response.custom_tool_call_input.delta")
  then resToAnthHandleFuncArgsDelta evt state
  else if ty =s "response.function_call_arguments.done" then resToAnthHandleFuncArgsDone evt state
  else if ty =s "response.output_item.done" then resToAnthHandleOutputItemDone evt state
  else if (ty =s "response.reasoning_summary_text.delta")
       || (ty =s "response.reasoning_text.delta")
  then resToAnthHandleReasoningDelta evt state
  else if ty =s "response.reasoning_summary_text.done" then (state, [])
  else if (ty =s "response.completed") || (ty =s "response.done")
       || (ty =s "response.incomplete") || (ty =s "response.failed")
  then resToAnthHandleCompleted evt state
  else (state, []).

Definition is_failed_event (evt : ResponsesStreamEvent) : bool :=
  (rse_Type_ evt =s "response.failed")
  || match rse_Response evt with Some r => rr_Status r =s "failed" | None => false end.

(** [ResponsesEventToAnthropicEvents]: a nil event is [None]; the deferred
    function prepends [message_start] when the dispatch produced output. *)
Definition ResponsesEventToAnthropicEvents (evt : option ResponsesStreamEvent)
    (state : ResponsesEventToAnthropicState) : anth_result :=
  match evt with
  | None => (state, [])
  | Some evt =>
    if ras_MessageStopSent state then (state, []) else
    let '(state, events) := resToAnthDispatch evt state in
    match events with
    | [] => (state, events)
    | _ =>
      if ras_MessageStartSent state || is_failed_event evt then (state, events)
      else
        let '(state, start) := resToAnthHandleCreated evt state in
        (state, start ++ events)
    end
  end.

Definition FinalizeResponsesAnthropicStream (state : ResponsesEventToAnthropicState)
    : anth_result :=
  if negb (ras_MessageStartSent state) || ras_MessageStopSent state then (state, []) else
  let '(state, closing) := closeCurrentBlock state in
  let stopReason := if ras_HasToolCall state then "tool_use" else "end_turn" in
  (state <| ras_MessageStopSent := true |>,
   closing ++ [ ev_message_delta stopReason (stateUsage state); ev_message_stop ]).

(** A whole stream: every event in turn, then the finalizer. *)
Definition convertStream (state : ResponsesEventToAnthropicState)
    (evts : list (option ResponsesStreamEvent)) : anth_result :=
  let '(state, events) := run (fun s e => ResponsesEventToAnthropicEvents e s) state evts in
  let '(state, final) := FinalizeResponsesAnthropicStream state in
  (state, events ++ final).
End WithUUID.
