(* ===== verification/ResponsesToAnthropicProofs.v ===== *)
(** * The Anthropic stream protocol, and that the converter follows it

    An abstract automaton of the Anthropic Messages event protocol and the
    proof that every stream the converter emits is accepted by it, the
    conservation of text between the two streams, and the token accounting. *)

From S2P Require Import Prelude GoStrings GoJson ApiTypes ResponsesToAnthropic.

(** ** The abstract protocol

    [Between n] is a started message with [n] closed blocks, [InBlock n] the
    same with block [n] open.  A delta may name any block that has been
    started. *)

Inductive anth_phase :=
  | PreStart
  | Between (n : Z)
  | InBlock (n : Z)
  | Closing
  | Stopped.

(** [bare] allows a terminal pair without [message_start], which the converter
    emits only for failed responses. *)
Definition anth_step (bare : bool) (q : anth_phase) (e : AnthropicStreamEvent)
    : option anth_phase :=
  let ty := ase_Type_ e in
  match q with
  | PreStart =>
    if (ty =s "message_start") && bool_decide (is_Some (ase_Message e)) then Some (Between 0)
    else if bare && (ty =s "message_delta") && bool_decide (is_Some (ase_Usage e)) then Some Closing
    else None
  | Between n =>
    match ase_Index e with
    | Some i =>
      if (ty =s "content_block_start") && (i =? n)%Z
         && bool_decide (is_Some (ase_ContentBlock e)) then Some (InBlock n)
      else if (ty =s "content_block_delta") && (0 <=? i)%Z && (i <? n)%Z
              && bool_decide (is_Some (ase_Delta e)) then Some (Between n)
      else None
    | None =>
      if (ty =s "message_delta") && bool_decide (is_Some (ase_Usage e)) then Some Closing else None
    end
  | InBlock n =>
    match ase_Index e with
    | Some i =>
      if (ty =s "content_block_delta") && (0 <=? i)%Z && (i <=? n)%Z
         && bool_decide (is_Some (ase_Delta e)) then Some (InBlock n)
      else if (ty =s "content_block_stop") && (i =? n)%Z then Some (Between (n + 1))
      else None
    | None => None
    end
  | Closing => if ty =s "message_stop" then Some Stopped else None
  | Stopped => None
  end.

(** ** Invariant of the converter state *)

Definition block_phase (s : ResponsesEventToAnthropicState) : anth_phase :=
  if ras_ContentBlockOpen s then InBlock (ras_ContentBlockIndex s)
  else Between (ras_ContentBlockIndex s).

(** Every block index handed out belongs to a block that has been started. *)
Definition blocks_ok (s : ResponsesEventToAnthropicState) : Prop :=
  (0 <= ras_ContentBlockIndex s)%Z /\
  forall k i, ras_OutputIndexToBlockIdx s !! k = Some i ->
    (0 <= i < ras_ContentBlockIndex s
     \/ i = ras_ContentBlockIndex s /\ ras_ContentBlockOpen s = true)%Z.

(** What a handler that does not end the message guarantees. *)
Definition block_spec (bare : bool) (s : ResponsesEventToAnthropicState) (r : anth_result) : Prop :=
  blocks_ok r.1 /\
  ras_MessageStartSent r.1 = ras_MessageStartSent s /\
  ras_MessageStopSent r.1 = ras_MessageStopSent s /\
  accepts (anth_step bare) (block_phase s) r.2 = Some (block_phase r.1).

Lemma block_spec_refl bare s : blocks_ok s -> block_spec bare s (s, []).
Proof. intros; split_and!; done. Qed.

Lemma block_spec_trans bare s s1 e1 s2 e2 :
  block_spec bare s (s1, e1) -> block_spec bare s1 (s2, e2) ->
  block_spec bare s (s2, e1 ++ e2).
Proof.
  intros (? & E1 & E2 & A1) (? & E3 & E4 & A2); simpl in *.
  split_and!; simpl; [done | congruence | congruence | eauto with gateway].
Qed.

(** A state change that touches neither blocks nor message flags. *)
Lemma block_spec_frame bare s s' :
  blocks_ok s -> ras_ContentBlockIndex s' = ras_ContentBlockIndex s ->
  ras_ContentBlockOpen s' = ras_ContentBlockOpen s ->
  ras_OutputIndexToBlockIdx s' = ras_OutputIndexToBlockIdx s ->
  ras_MessageStartSent s' = ras_MessageStartSent s ->
  ras_MessageStopSent s' = ras_MessageStopSent s ->
  block_spec bare s (s', []).
Proof.
  intros Hok E1 E2 E3 E4 E5. split_and!; simpl; try done.
  - unfold blocks_ok in *. by rewrite E1, E2, E3.
  - unfold block_phase. by rewrite E1, E2.
Qed.

#[export] Hint Resolve block_spec_refl : gateway.

(** Single transitions of the protocol. *)
Lemma anth_step_start bare n b :
  anth_step bare (Between n) (ev_block_start n b) = Some (InBlock n).
Proof. cbn. by rewrite Z.eqb_refl. Qed.

Lemma anth_step_stop bare n :
  anth_step bare (InBlock n) (ev_block_stop n) = Some (Between (n + 1)).
Proof. cbn. by rewrite Z.eqb_refl. Qed.

Lemma anth_step_delta_in bare n i d :
  (0 <= i <= n)%Z -> anth_step bare (InBlock n) (ev_block_delta i d) = Some (InBlock n).
Proof.
  intros [H1 H2]. cbn. by rewrite (proj2 (Z.leb_le _ _) H1), (proj2 (Z.leb_le _ _) H2).
Qed.

Lemma anth_step_delta_between bare n i d :
  (0 <= i < n)%Z -> anth_step bare (Between n) (ev_block_delta i d) = Some (Between n).
Proof.
  intros [H1 H2]. cbn. by rewrite (proj2 (Z.leb_le _ _) H1), (proj2 (Z.ltb_lt _ _) H2).
Qed.

#[global] Opaque ev_block_start ev_block_stop ev_block_delta.

Lemma closeCurrentBlock_spec bare s :
  blocks_ok s -> block_spec bare s (closeCurrentBlock s).
Proof.
  intros Hok. pose proof Hok as [Hn Hmap]. unfold closeCurrentBlock.
  destruct (ras_ContentBlockOpen s) eqn:Eopen; simpl; [|by apply block_spec_refl].
  split_and!; simpl.
  - split; [destruct (_ =s _); simpl; lia|]. intros k i Hk. left.
    destruct (_ =s "thinking"); simpl in *; destruct (Hmap k i Hk); lia.
  - by destruct (_ =s _).
  - by destruct (_ =s _).
  - unfold block_phase at 1. rewrite Eopen.
    destruct (_ =s "thinking"); [destruct (is_empty _)|]; cbn [accepts app andb negb].
    all: rewrite ?anth_step_delta_in by lia; cbn [accepts]; by rewrite anth_step_stop.
Qed.

Lemma closeCurrentBlock_closed s : ras_ContentBlockOpen (closeCurrentBlock s).1 = false.
Proof.
  unfold closeCurrentBlock. by destruct (ras_ContentBlockOpen s) eqn:E.
Qed.

(** Opening a block after the previous one was closed. *)
Lemma open_block_spec bare s s' idx b :
  blocks_ok s -> ras_ContentBlockOpen s = false -> idx = ras_ContentBlockIndex s ->
  ras_ContentBlockIndex s' = idx -> ras_ContentBlockOpen s' = true ->
  (forall k i, ras_OutputIndexToBlockIdx s' !! k = Some i ->
     i = idx \/ ras_OutputIndexToBlockIdx s !! k = Some i) ->
  ras_MessageStartSent s' = ras_MessageStartSent s ->
  ras_MessageStopSent s' = ras_MessageStopSent s ->
  block_spec bare s (s', [ev_block_start idx b]).
Proof.
  intros [Hn Hmap] Ec -> Ei Eo Hm E4 E5. split_and!; simpl; try done.
  - split; [lia|]. intros k i [->|Hk]%Hm; [by right|].
    destruct (Hmap k i Hk) as [?|[? ?]]; [left; lia | congruence].
  - unfold block_phase. rewrite Ec, Eo, Ei. by rewrite anth_step_start.
Qed.

(** A delta for a block index the state has handed out. *)
Lemma known_delta_spec bare s s' k i d :
  blocks_ok s -> ras_OutputIndexToBlockIdx s !! k = Some i ->
  block_spec bare s (s', []) -> block_spec bare s (s', [ev_block_delta i d]).
Proof.
  intros [Hn Hmap] Hk (Hok & E1 & E2 & E3). split_and!; try done.
  simpl in *. revert E3. unfold block_phase.
  destruct (ras_ContentBlockOpen s) eqn:Eo; destruct (Hmap k i Hk) as [?|[? ?]]; try done.
  all: intros [= <-].
  all: rewrite ?anth_step_delta_in, ?anth_step_delta_between by lia; done.
Qed.

(** A delta for the open block. *)
Lemma open_delta_spec bare s s' d :
  blocks_ok s -> ras_ContentBlockOpen s = true ->
  block_spec bare s (s', []) ->
  block_spec bare s (s', [ev_block_delta (ras_ContentBlockIndex s) d]).
Proof.
  intros [Hn Hmap] Ho (Hok & E1 & E2 & E3). split_and!; try done.
  simpl in *. revert E3. unfold block_phase. rewrite Ho. intros [= <-].
  by rewrite anth_step_delta_in by lia.
Qed.

(** ** Every handler follows the protocol *)

(** Destructing a handler call together with its specification. *)
Ltac step_spec H s1 e1 :=
  match type of H with
  | block_spec _ _ ?r => destruct r as [s1 e1] eqn:?; simpl in H
  end.

Lemma block_spec_ok bare s r : block_spec bare s r -> blocks_ok r.1.
Proof. by intros [? _]. Qed.

#[export] Hint Resolve block_spec_ok closeCurrentBlock_spec : gateway.

Lemma resToAnthHandleOutputItemAdded_spec bare evt s :
  blocks_ok s -> block_spec bare s (resToAnthHandleOutputItemAdded evt s).
Proof.
  intros Hok. unfold resToAnthHandleOutputItemAdded.
  destruct (rse_Item evt) as [item|]; [|by apply block_spec_refl].
  pose proof (closeCurrentBlock_spec bare s Hok) as Hc.
  pose proof (closeCurrentBlock_closed s) as Ho.
  destruct (closeCurrentBlock s) as [s1 e1]; simpl in Ho.
  case_test; [|case_test]; [| |by apply block_spec_refl].
  all: eapply block_spec_trans; [exact Hc|].
  all: apply open_block_spec; simpl; try done; [by apply (block_spec_ok _ _ _ Hc)|].
  all: intros k i; rewrite lookup_insert; case_decide; naive_solver.
Qed.

Lemma resToAnthHandleTextDelta_spec bare evt s :
  blocks_ok s -> block_spec bare s (resToAnthHandleTextDelta evt s).
Proof.
  intros Hok. unfold resToAnthHandleTextDelta.
  destruct (is_empty _); [by apply block_spec_refl|].
  case_test.
  - pose proof (closeCurrentBlock_spec bare s Hok) as Hc.
    pose proof (closeCurrentBlock_closed s) as Ho.
    destruct (closeCurrentBlock s) as [s1 e1]; simpl in Ho.
    pose proof (block_spec_ok _ _ _ Hc) as Hok1; simpl in Hok1.
    eapply block_spec_trans.
    + eapply block_spec_trans; [exact Hc|].
      apply (open_block_spec bare s1
        (s1 <| ras_ContentBlockOpen := true |> <| ras_CurrentBlockType := "text" |>));
        simpl; try done. by right.
    + apply (open_delta_spec bare
        (s1 <| ras_ContentBlockOpen := true |> <| ras_CurrentBlockType := "text" |>));
        simpl; try done.
      1: destruct Hok1 as [? Hm]; split; [done|]; simpl; intros k i Hk; destruct (Hm k i Hk) as [?|[??]]; auto.
      apply block_spec_frame; try done.
      destruct Hok1 as [? Hm]; split; [done|]; simpl; intros k i Hk; destruct (Hm k i Hk) as [?|[??]]; auto.
  - reflect_bool. apply open_delta_spec; [done..|]. by apply block_spec_frame.
Qed.

Lemma resToAnthRecoverText_spec bare evt s :
  blocks_ok s -> block_spec bare s (resToAnthRecoverText evt s).
Proof.
  intros Hok. unfold resToAnthRecoverText.
  case_test; [by apply block_spec_refl | by apply resToAnthHandleTextDelta_spec].
Qed.

Lemma resToAnthHandleFuncArgsDelta_spec bare evt s :
  blocks_ok s -> block_spec bare s (resToAnthHandleFuncArgsDelta evt s).
Proof.
  intros Hok. unfold resToAnthHandleFuncArgsDelta.
  destruct (is_empty _); [by apply block_spec_refl|]. case_test; simpl.
  - case_test; [by apply block_spec_frame|].
    destruct (_ !! _) as [i|] eqn:Ei; [|by apply block_spec_frame].
    eapply known_delta_spec; [done..|]. by apply block_spec_frame.
  - destruct (_ =s "tool_use"); simpl;
      (destruct (_ !! _) as [i|] eqn:Ei; [|by apply block_spec_frame]);
      (eapply known_delta_spec; [done..|]; by apply block_spec_frame).
Qed.

Lemma resToAnthHandleBlockDone_spec bare s :
  blocks_ok s -> block_spec bare s (resToAnthHandleBlockDone s).
Proof.
  intros Hok. unfold resToAnthHandleBlockDone.
  case_test; auto with gateway.
Qed.

Lemma resToAnthHandleFuncArgsDone_spec bare evt s :
  blocks_ok s -> block_spec bare s (resToAnthHandleFuncArgsDone evt s).
Proof.
  intros Hok. unfold resToAnthHandleFuncArgsDone.
  destruct (ras_ContentBlockOpen s) eqn:Eo; simpl; [|by apply block_spec_refl].
  repeat (case_test; [by auto using resToAnthHandleBlockDone_spec with gateway|]).
  pose proof (closeCurrentBlock_spec bare s Hok) as Hc.
  destruct (closeCurrentBlock s) as [s1 e1].
  apply (block_spec_trans bare s s [_] s1 e1); [|done].
  by apply open_delta_spec; [..|apply block_spec_refl].
Qed.

Lemma resToAnthHandleReasoningDelta_spec bare evt s :
  blocks_ok s -> block_spec bare s (resToAnthHandleReasoningDelta evt s).
Proof.
  intros Hok. unfold resToAnthHandleReasoningDelta.
  destruct (is_empty _); [by apply block_spec_refl|].
  destruct (_ !! _) as [i|] eqn:Ei; [|by apply block_spec_refl].
  eapply known_delta_spec; [done..|]. by apply block_spec_refl.
Qed.

Lemma resToAnthHandleWebSearchDone_spec bare item s :
  blocks_ok s -> block_spec bare s (resToAnthHandleWebSearchDone item s).
Proof.
  intros Hok. unfold resToAnthHandleWebSearchDone.
  pose proof (closeCurrentBlock_spec bare s Hok) as Hc.
  pose proof (closeCurrentBlock_closed s) as Ho.
  destruct (closeCurrentBlock s) as [s1 e1]; simpl in Ho.
  eapply block_spec_trans; [exact Hc|]. destruct Hc as ([Hn Hm] & _); simpl in *.
  split_and!; simpl; try done.
  - split; simpl; [lia|]. intros k i Hk. destruct (Hm k i Hk) as [?|[??]]; [left; lia|congruence].
  - unfold block_phase. simpl. rewrite Ho.
    by rewrite anth_step_start, anth_step_stop, anth_step_start, anth_step_stop.
Qed.

Lemma recoverPart_spec bare oi sk s ip :
  blocks_ok s -> block_spec bare s (recoverPart oi sk s ip).
Proof.
  intros Hok. destruct ip as [i part]. unfold recoverPart.
  case_test; auto using resToAnthRecoverText_spec with gateway.
Qed.

Lemma run_spec {I} bare (f : ResponsesEventToAnthropicState -> I -> anth_result) l s :
  (forall s i, blocks_ok s -> block_spec bare s (f s i)) ->
  blocks_ok s -> block_spec bare s (run f s l).
Proof.
  intros Hf. revert s; induction l as [|i l IH]; intros s Hok; simpl; [by apply block_spec_refl|].
  pose proof (Hf s i Hok) as H1. destruct (f s i) as [s1 e1].
  pose proof (IH s1 (block_spec_ok _ _ _ H1)) as H2. destruct (run f s1 l) as [s2 e2].
  by eapply block_spec_trans.
Qed.

Lemma recoverOutputs_spec bare s items :
  blocks_ok s -> block_spec bare s (recoverOutputs s items).
Proof.
  intros Hok. unfold recoverOutputs. apply run_spec; [|done].
  intros; apply run_spec; [|done]. auto using recoverPart_spec.
Qed.

Lemma resToAnthHandleOutputItemDone_spec bare evt s :
  blocks_ok s -> block_spec bare s (resToAnthHandleOutputItemDone evt s).
Proof.
  intros Hok. unfold resToAnthHandleOutputItemDone.
  destruct (rse_Item evt) as [item|]; [|by apply block_spec_refl].
  case_test; [|case_test; [by apply resToAnthHandleWebSearchDone_spec|]].
  - pose proof (run_spec bare (recoverPart (rse_OutputIndex evt) false)
      (range (ro_Content item)) s ltac:(auto using recoverPart_spec) Hok) as H1.
    destruct (run _ s _) as [s1 e1].
    pose proof (closeCurrentBlock_spec bare s1 (block_spec_ok _ _ _ H1)) as H2.
    destruct (closeCurrentBlock s1) as [s2 e2]. by eapply block_spec_trans.
  - match goal with |- context [if ras_ContentBlockOpen ?x then _ else _] => set (s0 := x) end.
    assert (H0 : block_spec bare s (s0, [])).
    { subst s0; case_test; by apply block_spec_frame. }
    case_test; [|done].
    pose proof (closeCurrentBlock_spec bare s0 (block_spec_ok _ _ _ H0)) as H1.
    destruct (closeCurrentBlock s0) as [s1 e1]. by apply (block_spec_trans bare s s0 []).
Qed.

(** ** Terminal events *)

Lemma completedUsage_frame evt s :
  ras_MessageStartSent (completedUsage evt s) = ras_MessageStartSent s /\
  ras_MessageStopSent (completedUsage evt s) = ras_MessageStopSent s /\
  block_phase (completedUsage evt s) = block_phase s /\
  (blocks_ok s -> blocks_ok (completedUsage evt s)).
Proof.
  unfold completedUsage.
  destruct (rse_Response evt) as [r|]; [destruct (rr_Usage r)|];
    by destruct (rse_Usage evt).
Qed.

Lemma anth_terminal_accepted bare n sr u :
  accepts (anth_step bare) (Between n) [ev_message_delta sr u; ev_message_stop] = Some Stopped.
Proof. done. Qed.

Lemma block_phase_closed s :
  ras_ContentBlockOpen s = false -> block_phase s = Between (ras_ContentBlockIndex s).
Proof. intros E. unfold block_phase. by rewrite E. Qed.

(** What a handler that ends the message guarantees. *)
Definition stop_spec (bare : bool) (s : ResponsesEventToAnthropicState) (r : anth_result) : Prop :=
  blocks_ok r.1 /\
  ras_MessageStartSent r.1 = ras_MessageStartSent s /\
  ras_MessageStopSent r.1 = true /\
  accepts (anth_step bare) (block_phase s) r.2 = Some Stopped.

(** Closing the last block and emitting the terminal pair. *)
Lemma close_and_stop_spec bare s s1 e1 s' sr u :
  block_spec bare s (s1, e1) -> ras_ContentBlockOpen s1 = false ->
  (blocks_ok s1 -> blocks_ok s') -> ras_MessageStartSent s' = ras_MessageStartSent s1 ->
  ras_MessageStopSent s' = true ->
  stop_spec bare s (s', e1 ++ [ev_message_delta sr u; ev_message_stop]).
Proof.
  intros (Hok & E1 & E2 & A) Eo Hs' E3 E4; simpl in *.
  split_and!; simpl; [auto | congruence | done |].
  rewrite accepts_app, A, block_phase_closed by done. apply anth_terminal_accepted.
Qed.

Lemma completedRecovery_spec bare evt s :
  blocks_ok s -> ras_ContentBlockOpen s = false ->
  block_spec bare s (completedRecovery evt s) /\
  ras_ContentBlockOpen (completedRecovery evt s).1 = false.
Proof.
  intros Hok Ho. unfold completedRecovery.
  destruct (rse_Response evt) as [r|]; [|by auto with gateway].
  case_test; [|by auto with gateway].
  pose proof (recoverOutputs_spec bare s (rr_Output r) Hok) as H1.
  destruct (recoverOutputs s (rr_Output r)) as [s1 e1].
  pose proof (closeCurrentBlock_spec bare s1 (block_spec_ok _ _ _ H1)) as H2.
  pose proof (closeCurrentBlock_closed s1) as H3.
  destruct (closeCurrentBlock s1) as [s2 e2]. split; [by eapply block_spec_trans | done].
Qed.

Lemma resToAnthHandleCompleted_spec bare evt s :
  blocks_ok s -> ras_MessageStopSent s = false ->
  stop_spec bare s (resToAnthHandleCompleted evt s).
Proof.
  intros Hok Hns. unfold resToAnthHandleCompleted. rewrite Hns.
  pose proof (closeCurrentBlock_spec bare s Hok) as H1.
  pose proof (closeCurrentBlock_closed s) as C1.
  destruct (closeCurrentBlock s) as [s1 e1]; simpl in C1.
  pose proof (completedRecovery_spec bare evt s1 (block_spec_ok _ _ _ H1) C1) as [H2 C2].
  destruct (completedRecovery evt s1) as [s2 e2]; simpl in C2. rewrite (assoc_L (++)).
  eapply close_and_stop_spec; [exact (block_spec_trans _ _ _ _ _ _ H1 H2) | done | ..].
  all: destruct (completedUsage_frame evt s2) as (E1 & E2 & E3 & E4); simpl; auto.
Qed.

(** Before [message_start], a failed response ends the stream with the bare
    terminal pair. *)
Lemma completed_failed_bare evt s :
  ras_MessageStopSent s = false -> ras_ContentBlockOpen s = false ->
  is_failed_event evt = true ->
  accepts (anth_step true) PreStart (resToAnthHandleCompleted evt s).2 = Some Stopped.
Proof.
  intros Hns Ho Hf. unfold resToAnthHandleCompleted, completedRecovery, closeCurrentBlock.
  rewrite Hns, Ho; simpl.
  assert (Hr : forall r, rse_Response evt = Some r ->
    negb (rse_Type_ evt =s "response.failed") && negb (rr_Status r =s "failed") = false).
  { intros r Er. unfold is_failed_event in Hf. rewrite Er in Hf.
    by destruct (_ =s "response.failed"), (_ =s "failed"). }
  destruct (rse_Response evt) as [r|]; [rewrite (Hr r eq_refl)|]; done.
Qed.

(** ** The whole stream *)

Definition stream_phase (s : ResponsesEventToAnthropicState) : anth_phase :=
  if ras_MessageStopSent s then Stopped
  else if ras_MessageStartSent s then block_phase s
  else PreStart.

Definition stream_inv (s : ResponsesEventToAnthropicState) : Prop :=
  blocks_ok s /\
  (ras_MessageStartSent s = false -> ras_MessageStopSent s = false ->
   ras_ContentBlockOpen s = false /\ ras_ContentBlockIndex s = 0%Z).

Definition is_terminal_type (ty : string) : bool :=
  (ty =s "response.completed") || (ty =s "response.done")
  || (ty =s "response.incomplete") || (ty =s "response.failed").

(** Inputs for which conformance is claimed: in strict mode no event reports a
    failure; otherwise failures come in terminal events. *)
Definition event_ok (bare : bool) (evt : ResponsesStreamEvent) : Prop :=
  is_failed_event evt = true -> bare = true /\ is_terminal_type (rse_Type_ evt) = true.

Section StreamProofs.
Context (uuid : string) (bare : bool).

Lemma resToAnthHandleCreated_frame evt s :
  ras_MessageStartSent s = false ->
  let r := resToAnthHandleCreated uuid evt s in
  ras_MessageStartSent r.1 = true /\
  ras_MessageStopSent r.1 = ras_MessageStopSent s /\
  block_phase r.1 = block_phase s /\
  (blocks_ok s -> blocks_ok r.1) /\
  accepts (anth_step bare) PreStart r.2 = Some (Between 0).
Proof.
  intros Hs. unfold resToAnthHandleCreated. rewrite Hs.
  destruct (rse_Response evt) as [r|]; simpl;
    repeat (case_test; simpl); split_and!; done.
Qed.

(** The dispatch either keeps the message going, ends it, or starts it. *)
Inductive dispatch_spec (evt : ResponsesStreamEvent) (s : ResponsesEventToAnthropicState)
    : anth_result -> Prop :=
  | DispatchBlock r :
      is_terminal_type (rse_Type_ evt) = false -> block_spec bare s r -> dispatch_spec evt s r
  | DispatchStop : dispatch_spec evt s (resToAnthHandleCompleted evt s)
  | DispatchCreated : dispatch_spec evt s (resToAnthHandleCreated uuid evt s).

Lemma resToAnthDispatch_spec evt s :
  blocks_ok s -> dispatch_spec evt s (resToAnthDispatch uuid evt s).
Proof.
  intros Hok. destruct (is_terminal_type (rse_Type_ evt)) eqn:Et.
  - replace (resToAnthDispatch _ _ _) with (resToAnthHandleCompleted evt s); [apply DispatchStop|].
    unfold resToAnthDispatch. fold (is_terminal_type (rse_Type_ evt)). rewrite Et.
    repeat (apply orb_true_iff in Et as [Et|Et]); apply String.eqb_eq in Et; by rewrite Et.
  - unfold resToAnthDispatch. repeat match goal with
    | |- dispatch_spec _ _ (if ?b then _ else _) => destruct b eqn:?
    end; try (by apply DispatchCreated); try (by apply DispatchStop); apply DispatchBlock; try done;
      auto using resToAnthHandleOutputItemAdded_spec, resToAnthHandleTextDelta_spec,
        resToAnthHandleFuncArgsDelta_spec, resToAnthHandleFuncArgsDone_spec,
        resToAnthHandleOutputItemDone_spec, resToAnthHandleReasoningDelta_spec with gateway.
    pose proof (resToAnthRecoverText_spec bare evt s Hok) as H1.
    destruct (resToAnthRecoverText evt s) as [s1 e1].
    pose proof (resToAnthHandleBlockDone_spec bare s1 (block_spec_ok _ _ _ H1)) as H2.
    destruct (resToAnthHandleBlockDone s1) as [s2 e2]. by eapply block_spec_trans.
Qed.

Lemma stream_phase_started s :
  ras_MessageStartSent s = true -> ras_MessageStopSent s = false ->
  stream_phase s = block_phase s.
Proof. intros E1 E2. unfold stream_phase. by rewrite E1, E2. Qed.

Lemma stream_phase_prestart s :
  stream_inv s -> ras_MessageStartSent s = false -> ras_MessageStopSent s = false ->
  stream_phase s = PreStart /\ block_phase s = Between 0.
Proof.
  intros [_ Hi] E1 E2. destruct (Hi E1 E2) as [E3 E4].
  unfold stream_phase, block_phase. by rewrite E1, E2, E3, E4.
Qed.

Lemma stream_phase_stopped s : ras_MessageStopSent s = true -> stream_phase s = Stopped.
Proof. intros E. unfold stream_phase. by rewrite E. Qed.

(** One event handled: what the deferred prepend makes of the dispatch. *)
Definition step_spec_of (s : ResponsesEventToAnthropicState) (r : anth_result) : Prop :=
  stream_inv r.1 /\ accepts (anth_step bare) (stream_phase s) r.2 = Some (stream_phase r.1).

Lemma block_dispatch_step evt s s1 e1 :
  stream_inv s -> ras_MessageStopSent s = false -> is_failed_event evt = false ->
  block_spec bare s (s1, e1) ->
  step_spec_of s
    (match e1 with
     | [] => (s1, e1)
     | _ => if ras_MessageStartSent s1 || is_failed_event evt then (s1, e1)
            else let '(s2, start) := resToAnthHandleCreated uuid evt s1 in (s2, start ++ e1)
     end).
Proof.
  intros Hinv Hns Hf (Hok & E1 & E2 & A); simpl in *. rewrite Hf, orb_false_r.
  destruct (ras_MessageStartSent s) eqn:Est.
  - rewrite E1. assert (step_spec_of s (s1, e1)) as Hs; [|by destruct e1].
    split; simpl; [split; [done|congruence]|].
    by rewrite (stream_phase_started s), (stream_phase_started s1) by congruence.
  - rewrite E1. destruct (stream_phase_prestart s Hinv Est Hns) as [P1 P2].
    destruct e1 as [|ev e1].
    + simpl in A. injection A as A. split; simpl.
      * split; [done|]. intros _ _. rewrite P2 in A. unfold block_phase in A.
        by destruct (ras_ContentBlockOpen s1); simplify_eq.
      * rewrite P1. unfold stream_phase. by rewrite E1, E2, Hns.
    + destruct (resToAnthHandleCreated_frame evt s1 E1) as (F1 & F2 & F3 & F4 & F5).
      destruct (resToAnthHandleCreated uuid evt s1) as [s2 start]; simpl in *.
      split; simpl; [split; [auto|congruence]|].
      rewrite P1, (stream_phase_started s2) by congruence.
      rewrite accepts_app, F5, <- P2, F3. exact A.
Qed.

Lemma stop_dispatch_step evt s :
  stream_inv s -> ras_MessageStopSent s = false ->
  (is_failed_event evt = true -> bare = true) ->
  let '(s1, e1) := resToAnthHandleCompleted evt s in
  step_spec_of s
    (match e1 with
     | [] => (s1, e1)
     | _ => if ras_MessageStartSent s1 || is_failed_event evt then (s1, e1)
            else let '(s2, start) := resToAnthHandleCreated uuid evt s1 in (s2, start ++ e1)
     end).
Proof.
  intros Hinv Hns Hf.
  pose proof (resToAnthHandleCompleted_spec bare evt s (proj1 Hinv) Hns) as Hstop.
  pose proof (completed_failed_bare evt s Hns) as Hbare.
  destruct (resToAnthHandleCompleted evt s) as [s1 e1].
  destruct Hstop as (Hok & E1 & E2 & A); simpl in *.
  destruct e1 as [|ev e1]; [simpl in A; unfold block_phase in A; by destruct (ras_ContentBlockOpen s)|].
  destruct (ras_MessageStartSent s) eqn:Est; rewrite E1; simpl.
  - split; simpl; [split; [done|congruence]|].
    by rewrite (stream_phase_started s), (stream_phase_stopped s1).
  - destruct (stream_phase_prestart s Hinv Est Hns) as [P1 P2].
    destruct (is_failed_event evt) eqn:Ef.
    + split; simpl; [split; [done|simpl; congruence]|].
      rewrite P1, (stream_phase_stopped s1), (Hf eq_refl) by done.
      apply Hbare; [|done]. by destruct (proj2 Hinv Est Hns).
    + destruct (resToAnthHandleCreated_frame evt s1 E1) as (F1 & F2 & F3 & F4 & F5).
      destruct (resToAnthHandleCreated uuid evt s1) as [s2 start]; simpl in *.
      split; simpl; [split; [auto|congruence]|].
      rewrite P1, (stream_phase_stopped s2) by congruence.
      rewrite accepts_app, F5, <- P2. exact A.
Qed.

Lemma created_dispatch_step evt s :
  stream_inv s -> ras_MessageStopSent s = false ->
  let '(s1, e1) := resToAnthHandleCreated uuid evt s in
  step_spec_of s
    (match e1 with
     | [] => (s1, e1)
     | _ => if ras_MessageStartSent s1 || is_failed_event evt then (s1, e1)
            else let '(s2, start) := resToAnthHandleCreated uuid evt s1 in (s2, start ++ e1)
     end).
Proof.
  intros Hinv Hns. destruct (ras_MessageStartSent s) eqn:Est.
  - unfold resToAnthHandleCreated at 1. rewrite Est. by split.
  - destruct (resToAnthHandleCreated_frame evt s Est) as (F1 & F2 & F3 & F4 & F5).
    destruct (resToAnthHandleCreated uuid evt s) as [s1 e1]; simpl in *. rewrite F1; simpl.
    destruct (stream_phase_prestart s Hinv Est Hns) as [P1 P2].
    assert (step_spec_of s (s1, e1)) as Hs; [|by destruct e1].
    split; simpl; [split; [apply F4, Hinv|congruence]|].
    by rewrite P1, (stream_phase_started s1), F3, P2 by congruence.
Qed.

Lemma ResponsesEventToAnthropicEvents_step evt s :
  stream_inv s -> from_option (event_ok bare) True evt ->
  step_spec_of s (ResponsesEventToAnthropicEvents uuid evt s).
Proof.
  intros Hinv Hev. unfold ResponsesEventToAnthropicEvents.
  destruct evt as [evt|]; [|by split]. simpl in Hev.
  destruct (ras_MessageStopSent s) eqn:Hns; [by split|].
  destruct (resToAnthDispatch_spec evt s (proj1 Hinv)) as [[s1 e1] Ht Hb| |].
  - apply block_dispatch_step; try done.
    destruct (is_failed_event evt) eqn:Ef; [|done].
    destruct (Hev Ef); congruence.
  - pose proof (stop_dispatch_step evt s Hinv Hns) as H.
    destruct (resToAnthHandleCompleted evt s). apply H. intros Ef; by apply Hev.
  - pose proof (created_dispatch_step evt s Hinv Hns) as H.
    by destruct (resToAnthHandleCreated uuid evt s).
Qed.

Lemma finalize_step s :
  stream_inv s ->
  let r := FinalizeResponsesAnthropicStream s in
  accepts (anth_step bare) (stream_phase s) r.2 =
    Some (if ras_MessageStartSent s || ras_MessageStopSent s then Stopped else PreStart).
Proof.
  intros [Hok Hi]. unfold FinalizeResponsesAnthropicStream.
  destruct (ras_MessageStopSent s) eqn:Hst.
  { rewrite !orb_true_r; simpl. by rewrite (stream_phase_stopped s). }
  destruct (ras_MessageStartSent s) eqn:Hs; simpl; [|unfold stream_phase; by rewrite Hst, Hs].
  pose proof (closeCurrentBlock_spec bare s Hok) as Hc.
  pose proof (closeCurrentBlock_closed s) as Ho.
  destruct (closeCurrentBlock s) as [s1 e1]; simpl in *.
  rewrite stream_phase_started by done.
  eapply (close_and_stop_spec bare s s1 e1 (s1 <| ras_MessageStopSent := true |>)); done.
Qed.

Lemma convertStream_accepted now evts :
  Forall (from_option (event_ok bare) True) evts ->
  let r := run (fun s e => ResponsesEventToAnthropicEvents uuid e s)
             (NewResponsesEventToAnthropicState now) evts in
  stream_inv r.1 /\ accepts (anth_step bare) PreStart r.2 = Some (stream_phase r.1).
Proof.
  intros Hev.
  apply (run_invariant (fun s e => ResponsesEventToAnthropicEvents uuid e s)
    (fun s acc => stream_inv s /\ accepts (anth_step bare) PreStart acc = Some (stream_phase s))
    (from_option (event_ok bare) True)) with (acc := []); [|done..|done].
  intros s acc evt [Hinv Hacc] Hok.
  destruct (ResponsesEventToAnthropicEvents_step evt s Hinv Hok) as [H1 H2].
  split; [done|]. eauto with gateway.
Qed.
End StreamProofs.

(** ** Text: nothing lost, nothing invented *)

(** The text of a content part that has been delivered so far. *)
Definition delivered (s : ResponsesEventToAnthropicState) (p : Z * Z) : string :=
  default "" (ras_textByPart s !! p).

(** The text an Anthropic client assembles from a list of events. *)
Definition event_text (e : AnthropicStreamEvent) : string :=
  match ase_Delta e with
  | Some d => if ad_Type_ d =s "text_delta" then ad_Text d else ""
  | None => ""
  end.

Definition text_of (l : list AnthropicStreamEvent) : string :=
  foldr (fun e acc => event_text e +:+ acc) "" l.

(** A log of deltas, each with the part it belongs to. *)
Definition log_text (log : list ((Z * Z) * string)) : string :=
  foldr (fun e acc => e.2 +:+ acc) "" log.

Definition part_text (p : Z * Z) (log : list ((Z * Z) * string)) : string :=
  foldr (fun e acc => if bool_decide (e.1 = p) then e.2 +:+ acc else acc) "" log.

Lemma text_of_app l1 l2 : text_of (l1 ++ l2) = text_of l1 +:+ text_of l2.
Proof. induction l1; simpl; [done|]. by rewrite IHl1, str_app_assoc. Qed.

Lemma log_text_app l1 l2 : log_text (l1 ++ l2) = log_text l1 +:+ log_text l2.
Proof. induction l1; simpl; [done|]. by rewrite IHl1, str_app_assoc. Qed.

Lemma part_text_app p l1 l2 : part_text p (l1 ++ l2) = part_text p l1 +:+ part_text p l2.
Proof.
  induction l1; simpl; [done|]. case_bool_decide; [|done]. by rewrite IHl1, str_app_assoc.
Qed.

(** What an event handler does to the text: the emitted text is an
    interleaving of what it appended to the parts. *)
Definition text_spec (s : ResponsesEventToAnthropicState) (r : anth_result) : Prop :=
  exists log, text_of r.2 = log_text log /\
    forall p, delivered r.1 p = delivered s p +:+ part_text p log.

Lemma text_spec_refl s s' evs :
  ras_textByPart s' = ras_textByPart s -> text_of evs = "" -> text_spec s (s', evs).
Proof.
  intros E1 E2. exists []. split; [done|]. intros p. unfold delivered; simpl.
  by rewrite E1, str_app_nil_r.
Qed.

Lemma text_spec_trans s s1 e1 s2 e2 :
  text_spec s (s1, e1) -> text_spec s1 (s2, e2) -> text_spec s (s2, e1 ++ e2).
Proof.
  intros (l1 & T1 & D1) (l2 & T2 & D2). exists (l1 ++ l2). simpl in *.
  rewrite text_of_app, log_text_app. split; [congruence|].
  intros p. by rewrite D2, D1, part_text_app, str_app_assoc.
Qed.

Lemma run_text_spec {I} (f : ResponsesEventToAnthropicState -> I -> anth_result) l s :
  (forall s i, text_spec s (f s i)) -> text_spec s (run f s l).
Proof.
  intros Hf. revert s; induction l as [|i l IH]; intros s; simpl; [by apply text_spec_refl|].
  pose proof (Hf s i) as H1. destruct (f s i) as [s1 e1].
  pose proof (IH s1) as H2. destruct (run f s1 l) as [s2 e2].
  by eapply text_spec_trans.
Qed.

#[local] Transparent ev_block_start ev_block_stop ev_block_delta.

Lemma closeCurrentBlock_text s :
  ras_textByPart (closeCurrentBlock s).1 = ras_textByPart s /\
  text_of (closeCurrentBlock s).2 = "".
Proof.
  unfold closeCurrentBlock. destruct (ras_ContentBlockOpen s); simpl; [|done].
  destruct (_ =s "thinking"); simpl; [destruct (is_empty _)|]; done.
Qed.

Lemma closeCurrentBlock_text_spec s : text_spec s (closeCurrentBlock s).
Proof.
  pose proof (closeCurrentBlock_text s) as [E1 E2].
  destruct (closeCurrentBlock s). by apply text_spec_refl.
Qed.

Lemma resToAnthHandleTextDelta_text_spec evt s :
  text_spec s (resToAnthHandleTextDelta evt s).
Proof.
  unfold resToAnthHandleTextDelta.
  destruct (is_empty _); [by apply text_spec_refl|].
  match goal with |- context [let '(_, _) := ?r in _] => set (r0 := r) end.
  assert (H0 : ras_textByPart r0.1 = ras_textByPart s /\ text_of r0.2 = "").
  { subst r0. case_test; [|done]. pose proof (closeCurrentBlock_text s) as [E1 E2].
    destruct (closeCurrentBlock s); simpl in *. by rewrite text_of_app, E1, E2. }
  destruct r0 as [s0 e0]; simpl in *. destruct H0 as [E1 E2].
  exists [((rse_OutputIndex evt, rse_ContentIndex evt), rse_Delta evt)].
  simpl. rewrite text_of_app, E2. split; [done|].
  intros p. unfold delivered; simpl. rewrite E1, lookup_insert.
  case_decide as Hp; [subst p|]; case_bool_decide; try done; simpl.
  - by rewrite str_app_nil_r.
  - by rewrite str_app_nil_r.
Qed.

Lemma resToAnthRecoverText_text_spec evt s : text_spec s (resToAnthRecoverText evt s).
Proof.
  unfold resToAnthRecoverText. case_test; [by apply text_spec_refl|].
  apply resToAnthHandleTextDelta_text_spec.
Qed.

Lemma recoverPart_text_spec oi sk s ip : text_spec s (recoverPart oi sk s ip).
Proof.
  destruct ip. unfold recoverPart.
  case_test; [apply resToAnthRecoverText_text_spec | by apply text_spec_refl].
Qed.

(** Handlers that emit no text: close the current block, then only structure. *)
Lemma close_then_text_spec s s' evs :
  ras_textByPart s' = ras_textByPart (closeCurrentBlock s).1 -> text_of evs = "" ->
  text_spec s (s', (closeCurrentBlock s).2 ++ evs).
Proof.
  intros E1 E2. pose proof (closeCurrentBlock_text s) as [E3 E4].
  apply text_spec_refl; [congruence|]. by rewrite text_of_app, E4, E2.
Qed.

Ltac text_free :=
  repeat match goal with
  | |- text_spec _ (if ?b then _ else _) => destruct b eqn:?
  | |- text_spec _ (match ?o with Some _ => _ | None => _ end) => destruct o eqn:?
  | |- text_spec _ (closeCurrentBlock _) => apply closeCurrentBlock_text_spec
  | |- text_spec _ (_, _) => apply text_spec_refl; done
  end.

Lemma resToAnthHandleOutputItemAdded_text_spec evt s :
  text_spec s (resToAnthHandleOutputItemAdded evt s).
Proof.
  unfold resToAnthHandleOutputItemAdded. text_free.
  all: pose proof (close_then_text_spec s) as H; destruct (closeCurrentBlock s) as [s1 e1];
    by apply H.
Qed.

Lemma resToAnthHandleFuncArgsDelta_text_spec evt s :
  text_spec s (resToAnthHandleFuncArgsDelta evt s).
Proof.
  unfold resToAnthHandleFuncArgsDelta; cbn zeta. text_free.
  all: apply text_spec_refl; [by case_test | done].
Qed.

Lemma resToAnthHandleBlockDone_text_spec s : text_spec s (resToAnthHandleBlockDone s).
Proof. unfold resToAnthHandleBlockDone. text_free. Qed.

Lemma resToAnthHandleFuncArgsDone_text_spec evt s :
  text_spec s (resToAnthHandleFuncArgsDone evt s).
Proof.
  unfold resToAnthHandleFuncArgsDone, resToAnthHandleBlockDone; cbn zeta. text_free.
  pose proof (closeCurrentBlock_text s) as [E3 E4].
  destruct (closeCurrentBlock s) as [s1 e1]. by apply text_spec_refl.
Qed.

Lemma resToAnthHandleReasoningDelta_text_spec evt s :
  text_spec s (resToAnthHandleReasoningDelta evt s).
Proof. unfold resToAnthHandleReasoningDelta. text_free. Qed.

Lemma resToAnthHandleWebSearchDone_text_spec item s :
  text_spec s (resToAnthHandleWebSearchDone item s).
Proof.
  unfold resToAnthHandleWebSearchDone.
  pose proof (close_then_text_spec s) as H; destruct (closeCurrentBlock s) as [s1 e1].
  by apply H.
Qed.

(** Text recovery followed by closing the block. *)
Lemma recover_then_close s r :
  text_spec s r ->
  text_spec s (let '(s1, e1) := r in
               let '(s2, e2) := closeCurrentBlock s1 in (s2, e1 ++ e2)).
Proof.
  destruct r as [s1 e1]; intros H1.
  pose proof (closeCurrentBlock_text_spec s1) as H2.
  destruct (closeCurrentBlock s1) as [s2 e2]. by eapply text_spec_trans.
Qed.

Lemma resToAnthHandleOutputItemDone_text_spec evt s :
  text_spec s (resToAnthHandleOutputItemDone evt s).
Proof.
  unfold resToAnthHandleOutputItemDone; cbn zeta. text_free.
  - apply recover_then_close, run_text_spec. intros; apply recoverPart_text_spec.
  - apply resToAnthHandleWebSearchDone_text_spec.
  - match goal with |- text_spec _ (closeCurrentBlock ?x) => set (s0 := x) end.
    assert (H0 : text_spec s (s0, [])) by (subst s0; apply text_spec_refl; [by case_test|done]).
    pose proof (closeCurrentBlock_text_spec s0) as H1.
    destruct (closeCurrentBlock s0) as [s1 e1]. by apply (text_spec_trans s s0 []).
  - apply text_spec_refl; [by case_test | done].
Qed.

Lemma recoverOutputs_text_spec s items : text_spec s (recoverOutputs s items).
Proof.
  apply run_text_spec; intros; apply run_text_spec; intros; apply recoverPart_text_spec.
Qed.

Lemma completedRecovery_text_spec evt s : text_spec s (completedRecovery evt s).
Proof.
  unfold completedRecovery. text_free. apply recover_then_close, recoverOutputs_text_spec.
Qed.

Lemma completedUsage_text evt s : ras_textByPart (completedUsage evt s) = ras_textByPart s.
Proof.
  unfold completedUsage.
  destruct (rse_Response evt) as [r|]; [destruct (rr_Usage r)|]; by destruct (rse_Usage evt).
Qed.

Lemma resToAnthHandleCompleted_text_spec evt s :
  text_spec s (resToAnthHandleCompleted evt s).
Proof.
  unfold resToAnthHandleCompleted. destruct (ras_MessageStopSent s); [by apply text_spec_refl|].
  pose proof (closeCurrentBlock_text_spec s) as H1. destruct (closeCurrentBlock s) as [s1 e1].
  pose proof (completedRecovery_text_spec evt s1) as H2.
  destruct (completedRecovery evt s1) as [s2 e2].
  eapply text_spec_trans; [exact H1|]. eapply text_spec_trans; [exact H2|].
  apply text_spec_refl; [apply completedUsage_text | done].
Qed.

Lemma resToAnthHandleCreated_text uuid evt s :
  ras_textByPart (resToAnthHandleCreated uuid evt s).1 = ras_textByPart s /\
  text_of (resToAnthHandleCreated uuid evt s).2 = "".
Proof.
  unfold resToAnthHandleCreated. destruct (ras_MessageStartSent s); [done|].
  split; [|done]. destruct (rse_Response evt); simpl; repeat (case_test; simpl); done.
Qed.

Lemma resToAnthHandleCreated_text_spec uuid evt s :
  text_spec s (resToAnthHandleCreated uuid evt s).
Proof.
  pose proof (resToAnthHandleCreated_text uuid evt s) as [E1 E2].
  destruct (resToAnthHandleCreated uuid evt s). by apply text_spec_refl.
Qed.

Lemma resToAnthDispatch_text_spec uuid evt s : text_spec s (resToAnthDispatch uuid evt s).
Proof.
  unfold resToAnthDispatch; cbn zeta.
  repeat match goal with |- text_spec _ (if ?b then _ else _) => destruct b end;
    auto using resToAnthHandleOutputItemAdded_text_spec, resToAnthHandleTextDelta_text_spec,
      resToAnthHandleFuncArgsDelta_text_spec, resToAnthHandleFuncArgsDone_text_spec,
      resToAnthHandleOutputItemDone_text_spec, resToAnthHandleReasoningDelta_text_spec,
      resToAnthHandleCompleted_text_spec, resToAnthHandleCreated_text_spec, text_spec_refl.
  pose proof (resToAnthRecoverText_text_spec evt s) as H1.
  destruct (resToAnthRecoverText evt s) as [s1 e1].
  pose proof (resToAnthHandleBlockDone_text_spec s1) as H2.
  destruct (resToAnthHandleBlockDone s1) as [s2 e2]. by eapply text_spec_trans.
Qed.

Lemma ResponsesEventToAnthropicEvents_text_spec uuid evt s :
  text_spec s (ResponsesEventToAnthropicEvents uuid evt s).
Proof.
  unfold ResponsesEventToAnthropicEvents.
  destruct evt as [evt|]; [|by apply text_spec_refl].
  destruct (ras_MessageStopSent s); [by apply text_spec_refl|].
  pose proof (resToAnthDispatch_text_spec uuid evt s) as (l1 & T1 & D1).
  destruct (resToAnthDispatch uuid evt s) as [s1 e1].
  destruct e1 as [|ev e1]; [by exists l1|]. case_test; [by exists l1|].
  pose proof (resToAnthHandleCreated_text uuid evt s1) as [E2 T2].
  destruct (resToAnthHandleCreated uuid evt s1) as [s2 e2]. exists l1. cbn [fst snd] in *.
  rewrite text_of_app, T2. split; [done|]. intros p. rewrite <- D1.
  unfold delivered. by rewrite E2.
Qed.

Lemma FinalizeResponsesAnthropicStream_text_spec s :
  text_spec s (FinalizeResponsesAnthropicStream s).
Proof.
  unfold FinalizeResponsesAnthropicStream. case_test; [by apply text_spec_refl|].
  pose proof (close_then_text_spec s) as H; destruct (closeCurrentBlock s) as [s1 e1].
  by apply H.
Qed.

(** ** Recovery of text from terminal payloads *)

(** What a part's delivered text becomes when its final text is announced. *)
Definition recovered (final got : string) : string :=
  if negb (is_empty final) && HasPrefix final got then final else got.

Lemma resToAnthHandleTextDelta_delivered evt s p :
  delivered (resToAnthHandleTextDelta evt s).1 p =
    if bool_decide (p = (rse_OutputIndex evt, rse_ContentIndex evt))
    then delivered s p +:+ rse_Delta evt else delivered s p.
Proof.
  unfold resToAnthHandleTextDelta.
  destruct (is_empty (rse_Delta evt)) eqn:E.
  - apply is_empty_true in E. rewrite E, str_app_nil_r. by case_bool_decide.
  - match goal with |- context [let '(_, _) := ?r in _] => set (r0 := r) end.
    assert (H0 : ras_textByPart r0.1 = ras_textByPart s).
    { subst r0. case_test; [|done]. pose proof (closeCurrentBlock_text s) as [E1 E2].
      by destruct (closeCurrentBlock s). }
    destruct r0 as [s0 e0]; simpl in *. unfold delivered; simpl. rewrite H0, lookup_insert.
    case_decide; case_bool_decide; naive_solver.
Qed.

Lemma resToAnthRecoverText_delivered evt s p :
  delivered (resToAnthRecoverText evt s).1 p =
    if bool_decide (p = (rse_OutputIndex evt, rse_ContentIndex evt))
    then recovered (rse_Text evt) (delivered s p) else delivered s p.
Proof.
  unfold resToAnthRecoverText, recovered.
  change (default "" (ras_textByPart s !! (rse_OutputIndex evt, rse_ContentIndex evt)))
    with (delivered s (rse_OutputIndex evt, rse_ContentIndex evt)).
  case_bool_decide as Hp; [rewrite <- Hp|].
  - destruct (is_empty (rse_Text evt)) eqn:E1; [done|].
    destruct (rse_Text evt =s delivered s p) eqn:E2; simpl.
    { apply String.eqb_eq in E2. rewrite E2. by destruct (HasPrefix _ _). }
    destruct (HasPrefix (rse_Text evt) (delivered s p)) eqn:E3; simpl; [|done].
    rewrite resToAnthHandleTextDelta_delivered. rewrite bool_decide_true by done.
    simpl. symmetry. by apply HasPrefix_drop.
  - case_test; [done|]. rewrite resToAnthHandleTextDelta_delivered.
    by rewrite bool_decide_false.
Qed.

Definition recovered_part (part : ResponsesContentPart) (got : string) : string :=
  if rcp_Type_ part =s "output_text" then recovered (rcp_Text part) got else got.

Lemma recoverPart_delivered oi sk s i part p :
  delivered (recoverPart oi sk s (i, part)).1 p =
    if bool_decide (p = (oi, i)) then recovered_part part (delivered s p) else delivered s p.
Proof.
  unfold recoverPart, recovered_part.
  destruct (rcp_Type_ part =s "output_text"); simpl; [|by case_bool_decide].
  destruct (is_empty (rcp_Text part)) eqn:E; destruct sk; simpl.
  1: { unfold recovered. rewrite E; simpl. by case_bool_decide. }
  all: by rewrite resToAnthRecoverText_delivered.
Qed.

(** [l[z]] when the index is in range. *)
Definition part_at {A} (l : list A) (z : Z) : option A :=
  if (z <? 0)%Z then None else l !! Z.to_nat z.

Lemma part_at_cons {A} (x : A) l z :
  part_at (x :: l) z = if (z =? 0)%Z then Some x else part_at l (z - 1).
Proof.
  unfold part_at. destruct (Z.ltb_spec z 0), (Z.eqb_spec z 0), (Z.ltb_spec (z - 1) 0); try lia; try done.
  - by subst.
  - replace (Z.to_nat z) with (S (Z.to_nat (z - 1))) by lia. done.
Qed.

Lemma run_recoverPart_delivered oi sk content k s (p : Z * Z) :
  delivered (run (recoverPart oi sk) s (imap (fun i x => (Z.of_nat (k + i), x)) content)).1 p =
    if bool_decide (p.1 = oi) then
      match part_at content (p.2 - Z.of_nat k) with
      | Some part => recovered_part part (delivered s p)
      | None => delivered s p
      end
    else delivered s p.
Proof.
  revert k s; induction content as [|x l IH]; intros k s.
  { simpl. unfold part_at. case_bool_decide; [|done].
    case_test; [done|]. by rewrite lookup_nil. }
  rewrite imap_cons. cbn [run].
  pose proof (recoverPart_delivered oi sk s (Z.of_nat (k + 0)) x p) as H1.
  destruct (recoverPart oi sk s (Z.of_nat (k + 0), x)) as [s1 e1]; simpl in H1.
  specialize (IH (S k) s1).
  rewrite (imap_ext _ (fun i x => (Z.of_nat (S k + i), x))) by (intros; simpl; f_equal; lia).
  destruct (run _ s1 _) as [s2 e2]; simpl in IH |- *. rewrite IH, H1, part_at_cons.
  destruct p as [p1 p2]; simpl. destruct (decide (p1 = oi)) as [->|Hne].
  - rewrite (bool_decide_true (oi = oi)) by done. destruct (Z.eqb_spec (p2 - Z.of_nat k) 0).
    + rewrite bool_decide_true by (f_equal; lia).
      assert (p2 - Z.of_nat (S k) < 0)%Z by lia.
      unfold part_at. by rewrite (proj2 (Z.ltb_lt _ _)).
    + rewrite bool_decide_false by (intros [=]; lia).
      by replace (p2 - Z.of_nat (S k))%Z with (p2 - Z.of_nat k - 1)%Z by lia.
  - rewrite !bool_decide_false by (intros [=]; congruence). done.
Qed.

Lemma recoverParts_delivered oi sk content s p :
  delivered (run (recoverPart oi sk) s (range content)).1 p =
    if bool_decide (p.1 = oi) then
      match part_at content p.2 with
      | Some part => recovered_part part (delivered s p)
      | None => delivered s p
      end
    else delivered s p.
Proof.
  rewrite (run_recoverPart_delivered oi sk content 0). by rewrite Z.sub_0_r.
Qed.

Lemma run_recoverOutputs_delivered items k s (p : Z * Z) :
  delivered (run (fun s oi => run (recoverPart (fst oi) true) s (range (ro_Content (snd oi)))) s
    (imap (fun i x => (Z.of_nat (k + i), x)) items)).1 p =
    match part_at items (p.1 - Z.of_nat k) with
    | Some item =>
      match part_at (ro_Content item) p.2 with
      | Some part => recovered_part part (delivered s p)
      | None => delivered s p
      end
    | None => delivered s p
    end.
Proof.
  revert k s; induction items as [|x l IH]; intros k s.
  { simpl. unfold part_at. case_test; [done|]. by rewrite lookup_nil. }
  rewrite imap_cons. cbn [run fst snd].
  pose proof (recoverParts_delivered (Z.of_nat (k + 0)) true (ro_Content x) s p) as H1.
  destruct (run (recoverPart _ true) s _) as [s1 e1]; simpl in H1.
  specialize (IH (S k) s1).
  rewrite (imap_ext _ (fun i x => (Z.of_nat (S k + i), x))) by (intros; simpl; f_equal; lia).
  destruct (run _ s1 _) as [s2 e2]; simpl in IH |- *. rewrite IH, H1, part_at_cons.
  destruct p as [p1 p2]; simpl. destruct (Z.eqb_spec (p1 - Z.of_nat k) 0).
  - rewrite bool_decide_true by lia.
    assert (p1 - Z.of_nat (S k) < 0)%Z by lia.
    unfold part_at at 1. by rewrite (proj2 (Z.ltb_lt _ _)).
  - rewrite bool_decide_false by lia.
    by replace (p1 - Z.of_nat (S k))%Z with (p1 - Z.of_nat k - 1)%Z by lia.
Qed.

Lemma recoverOutputs_delivered items s (oi ci : nat) item part :
  items !! oi = Some item -> ro_Content item !! ci = Some part ->
  delivered (recoverOutputs s items).1 (Z.of_nat oi, Z.of_nat ci) =
    recovered_part part (delivered s (Z.of_nat oi, Z.of_nat ci)).
Proof.
  intros H1 H2. unfold recoverOutputs, range.
  rewrite (run_recoverOutputs_delivered items 0); simpl. rewrite Z.sub_0_r.
  unfold part_at. rewrite (proj2 (Z.ltb_ge _ _)), Nat2Z.id by lia. rewrite H1; simpl.
  by rewrite (proj2 (Z.ltb_ge _ _)), Nat2Z.id, H2 by lia.
Qed.

(** Transporting delivered text across the parts of the terminal handler. *)
Lemma delivered_eq s s' p : ras_textByPart s' = ras_textByPart s -> delivered s' p = delivered s p.
Proof. unfold delivered. by intros ->. Qed.

Lemma resToAnthHandleCompleted_delivered evt s r oi ci item part :
  ras_MessageStopSent s = false -> is_failed_event evt = false ->
  rse_Response evt = Some r ->
  rr_Output r !! oi = Some item -> ro_Content item !! ci = Some part ->
  delivered (resToAnthHandleCompleted evt s).1 (Z.of_nat oi, Z.of_nat ci) =
    recovered_part part (delivered s (Z.of_nat oi, Z.of_nat ci)).
Proof.
  intros Hns Hf Hr Hi Hp. unfold resToAnthHandleCompleted, completedRecovery. rewrite Hns, Hr.
  unfold is_failed_event in Hf. rewrite Hr in Hf. apply orb_false_iff in Hf as [-> ->]; simpl.
  pose proof (closeCurrentBlock_text s) as [E1 _]. destruct (closeCurrentBlock s) as [s1 e1].
  pose proof (recoverOutputs_delivered (rr_Output r) s1 oi ci item part Hi Hp) as E2.
  destruct (recoverOutputs s1 (rr_Output r)) as [s2 e2].
  pose proof (closeCurrentBlock_text s2) as [E3 _]. destruct (closeCurrentBlock s2) as [s3 e3].
  simpl in *. rewrite (delivered_eq s3); [|by simpl; rewrite completedUsage_text].
  rewrite (delivered_eq s2 s3), E2 by done. by rewrite (delivered_eq s s1).
Qed.

(** ** Blocks of the non-streaming conversion *)

Lemma containsToolUse_app l1 l2 :
  containsAnthropicToolUseBlock (l1 ++ l2) =
    containsAnthropicToolUseBlock l1 || containsAnthropicToolUseBlock l2.
Proof. induction l1 as [|b l IH]; simpl; [done|]. by destruct (_ =s _). Qed.

Lemma item_blocks_tool_use item :
  containsAnthropicToolUseBlock (responsesItemToAnthropicBlocks item) =
    (ro_Type_ item =s "function_call").
Proof.
  unfold responsesItemToAnthropicBlocks.
  destruct (ro_Type_ item =s "reasoning") eqn:E1; [apply String.eqb_eq in E1; rewrite E1; by case_test|].
  destruct (ro_Type_ item =s "message") eqn:E2.
  { apply String.eqb_eq in E2. rewrite E2; simpl.
    induction (ro_Content item) as [|p l IH]; simpl; [done|]. by case_test. }
  destruct (ro_Type_ item =s "function_call") eqn:E3; [done|].
  by destruct (ro_Type_ item =s "web_search_call").
Qed.

Lemma items_blocks_tool_use items :
  containsAnthropicToolUseBlock (flat_map responsesItemToAnthropicBlocks items) =
    existsb (fun item => ro_Type_ item =s "function_call") items.
Proof.
  induction items as [|i l IH]; simpl; [done|].
  by rewrite containsToolUse_app, item_blocks_tool_use, IH.
Qed.

Lemma anth_step_not_prestart bare q e : anth_step bare q e <> Some PreStart.
Proof.
  unfold anth_step. destruct q; try destruct (ase_Index e); repeat case_test; congruence.
Qed.

Lemma accepts_prestart_nil bare q l :
  accepts (anth_step bare) q l = Some PreStart -> q = PreStart -> l = [].
Proof.
  destruct l as [|e l]; [done|]. intros H _. exfalso. revert q e H.
  induction l as [|e' l IH]; intros q e; simpl.
  - destruct (anth_step bare q e) eqn:E; [|done]. intros [= ->]. by eapply anth_step_not_prestart.
  - destruct (anth_step bare q e) as [q'|]; [|done]. apply (IH q' e').
Qed.

(** What [convertStream] emits, in terms of the automaton. *)
Lemma convertStream_phase uuid bare now evts :
  Forall (from_option (event_ok bare) True) evts ->
  let out := (convertStream uuid (NewResponsesEventToAnthropicState now) evts).2 in
  out = [] \/ accepts (anth_step bare) PreStart out = Some Stopped.
Proof.
  intros Hev. unfold convertStream.
  pose proof (convertStream_accepted uuid bare now evts Hev) as [Hinv Hacc].
  destruct (run _ _ evts) as [s1 e1]; simpl in *.
  pose proof (finalize_step bare s1 Hinv) as Hfin.
  destruct (FinalizeResponsesAnthropicStream s1) as [s2 e2]; simpl in *.
  assert (Hall : accepts (anth_step bare) PreStart (e1 ++ e2) =
    Some (if ras_MessageStartSent s1 || ras_MessageStopSent s1 then Stopped else PreStart))
    by eauto with gateway.
  case_test; [by right|left]. by eapply accepts_prestart_nil.
Qed.

(** ** Properties *)

Definition not_failed (e : option ResponsesStreamEvent) : Prop :=
  from_option (fun e => is_failed_event e = false) True e.

(** C15. Protocol conformance: whatever sequence of Responses events arrives
    (nil, unknown, out of order, with missing created or missing terminal
    events), as long as none reports a failed response, the converter with its
    finalizer either emits nothing at all or emits exactly one complete
    Anthropic message: message_start, content blocks with consecutive indices
    from 0, each started and stopped exactly once and never nested, deltas only
    for blocks already started, then message_delta and message_stop, and
    nothing after. *)
Theorem convertStream_protocol uuid now evts :
  Forall not_failed evts ->
  let out := (convertStream uuid (NewResponsesEventToAnthropicState now) evts).2 in
  out = [] \/ accepts (anth_step false) PreStart out = Some Stopped.
Proof.
  intros Hev. apply convertStream_phase. eapply Forall_impl; [exact Hev|].
  intros [e|]; simpl; [|done]. unfold event_ok. congruence.
Qed.

Definition wit_delta (text : string) : option ResponsesStreamEvent :=
  Some (zero_ResponsesStreamEvent
          <| rse_Type_ := "response.output_text.delta" |> <| rse_Delta := text |>).

Definition wit_tool_added : option ResponsesStreamEvent :=
  Some (zero_ResponsesStreamEvent
          <| rse_Type_ := "response.output_item.added" |> <| rse_OutputIndex := 1%Z |>
          <| rse_Item := Some (zero_ResponsesOutput
               <| ro_Type_ := "function_call" |> <| ro_Name := "Read" |>) |>).

Lemma convertStream_protocol_witness :
  accepts (anth_step false) PreStart
    (convertStream "u" (NewResponsesEventToAnthropicState 7)
       [None; wit_delta "hi"; wit_tool_added; wit_delta "!"]).2 = Some Stopped.
Proof.
  destruct (convertStream_protocol "u" 7 [None; wit_delta "hi"; wit_tool_added; wit_delta "!"])
    as [H|H]; [by repeat constructor | vm_compute in H; discriminate H | exact H].
Defined.

(** With failures: when failed responses are reported by terminal events
    only, the output is still either empty or one complete message, except that
    a failure before any output produces just the terminal pair message_delta,
    message_stop without message_start. *)
Theorem convertStream_protocol_failures uuid now evts :
  Forall (from_option (event_ok true) True) evts ->
  let out := (convertStream uuid (NewResponsesEventToAnthropicState now) evts).2 in
  out = [] \/ accepts (anth_step true) PreStart out = Some Stopped.
Proof. apply convertStream_phase. Qed.

Definition wit_failed : option ResponsesStreamEvent :=
  Some (zero_ResponsesStreamEvent <| rse_Type_ := "response.failed" |>).

(** Text conservation: over any stream the text of the emitted deltas is an
    interleaving of per-part texts, and the text recorded for every content
    part is exactly the concatenation of that part's deltas: no text is lost,
    repeated or attributed to two parts, including text recovered from
    done and terminal events. *)
Theorem convertStream_text_conserved uuid now evts :
  exists log,
    text_of (convertStream uuid (NewResponsesEventToAnthropicState now) evts).2 = log_text log /\
    forall p, delivered (convertStream uuid (NewResponsesEventToAnthropicState now) evts).1 p
              = part_text p log.
Proof.
  unfold convertStream.
  pose proof (run_text_spec (fun s e => ResponsesEventToAnthropicEvents uuid e s) evts
    (NewResponsesEventToAnthropicState now)
    (fun s e => ResponsesEventToAnthropicEvents_text_spec uuid e s)) as H1.
  destruct (run _ _ evts) as [s1 e1].
  pose proof (FinalizeResponsesAnthropicStream_text_spec s1) as H2.
  destruct (FinalizeResponsesAnthropicStream s1) as [s2 e2].
  destruct (text_spec_trans _ _ _ _ _ H1 H2) as (log & T & D). eauto.
Qed.

(** Recovery: a terminal event whose response did not fail completes every
    text part whose delivered text is a prefix of the final text, so that after
    it the client has received exactly the final text of that part. *)
Theorem terminal_event_recovers_text uuid evt s r oi ci item part :
  ras_MessageStopSent s = false ->
  is_terminal_type (rse_Type_ evt) = true -> is_failed_event evt = false ->
  rse_Response evt = Some r ->
  rr_Output r !! oi = Some item -> ro_Content item !! ci = Some part ->
  rcp_Type_ part = "output_text" -> rcp_Text part <> "" ->
  HasPrefix (rcp_Text part) (delivered s (Z.of_nat oi, Z.of_nat ci)) = true ->
  delivered (ResponsesEventToAnthropicEvents uuid (Some evt) s).1 (Z.of_nat oi, Z.of_nat ci)
  = rcp_Text part.
Proof.
  intros Hns Ht Hf Hr Hi Hp Hty Hne Hpre. unfold ResponsesEventToAnthropicEvents. rewrite Hns.
  assert (Hd : resToAnthDispatch uuid evt s = resToAnthHandleCompleted evt s).
  { unfold resToAnthDispatch. fold (is_terminal_type (rse_Type_ evt)). rewrite Ht.
    repeat (apply orb_true_iff in Ht as [Ht|Ht]); apply String.eqb_eq in Ht; by rewrite Ht. }
  pose proof (resToAnthHandleCompleted_delivered evt s r oi ci item part Hns Hf Hr Hi Hp) as E.
  rewrite Hd. destruct (resToAnthHandleCompleted evt s) as [s1 e1]; simpl in E.
  assert (E' : delivered s1 (Z.of_nat oi, Z.of_nat ci) = rcp_Text part).
  { rewrite E. unfold recovered_part, recovered. rewrite Hty, Hpre; simpl.
    by rewrite (proj2 (is_empty_false _) Hne). }
  destruct e1 as [|ev e1]; [done|]. case_test; [done|].
  pose proof (resToAnthHandleCreated_text uuid evt s1) as [E2 _].
  destruct (resToAnthHandleCreated uuid evt s1) as [s2 e2]; simpl in *.
  by rewrite (delivered_eq s1).
Qed.

(** Token accounting: converting a Responses usage to Anthropic's never
    yields a negative input count, and when the cached and cache-creation
    tokens are part of the input total (no counter negative), uncached input,
    cache reads and cache creation add up to exactly that total, without
    wrap-around. *)
Theorem anthropicUsage_accounting (u : ResponsesUsage) :
  in_int64 (ru_InputTokens u) ->
  (0 <= responsesUsageCachedTokens (ru_InputTokensDetails u))%Z ->
  (0 <= ru_CacheCreationInputTokens u)%Z ->
  (responsesUsageCachedTokens (ru_InputTokensDetails u) + ru_CacheCreationInputTokens u
     <= ru_InputTokens u)%Z ->
  let a := anthropicUsageFromResponsesUsage (Some u) in
  (0 <= au_InputTokens a)%Z /\
  (au_InputTokens a + au_CacheReadInputTokens a + au_CacheCreationInputTokens a
     = ru_InputTokens u)%Z /\
  au_OutputTokens a = ru_OutputTokens u.
Proof.
  intros Hr Hc Hcc Hsum. unfold anthropicUsageFromResponsesUsage; simpl.
  change (match ru_InputTokensDetails u with Some d => ritd_CachedTokens d | None => 0%Z end)
    with (responsesUsageCachedTokens (ru_InputTokensDetails u)).
  set (c := responsesUsageCachedTokens (ru_InputTokensDetails u)) in *.
  unfold in_int64, min_int64, max_int64 in Hr.
  rewrite (wrap64_id (ru_InputTokens u - c)) by (unfold in_int64, min_int64, max_int64; lia).
  rewrite wrap64_id by (unfold in_int64, min_int64, max_int64; lia).
  rewrite (proj2 (Z.ltb_ge _ _)) by lia. lia.
Qed.

Definition wit_usage : ResponsesUsage :=
  zero_ResponsesUsage <| ru_InputTokens := 100%Z |> <| ru_CacheCreationInputTokens := 20%Z |>
    <| ru_InputTokensDetails := Some (zero_ResponsesInputTokensDetails
         <| ritd_CachedTokens := 30%Z |>) |>.

(** Non-streaming conversion: the converted message always has at least one
    content block, and its stop reason is tool_use exactly when the response is
    completed and contains a function_call item; a response cut at the output
    limit maps to max_tokens, everything else to end_turn. *)
Theorem ResponsesToAnthropic_stop_reason (resp : ResponsesResponse) (model : string) :
  let out := ResponsesToAnthropic resp model in
  let tools := existsb (fun item => ro_Type_ item =s "function_call") (rr_Output resp) in
  ar_Content out <> [] /\
  ar_StopReason out = Some
    (if (rr_Status resp =s "completed") && tools then "tool_use"
     else if (rr_Status resp =s "incomplete")
             && bool_decide (rid_Reason <$> rr_IncompleteDetails resp = Some "max_output_tokens")
     then "max_tokens" else "end_turn").
Proof.
  unfold ResponsesToAnthropic.
  set (blocks := flat_map responsesItemToAnthropicBlocks (rr_Output resp)).
  set (blocks' := match blocks with [] => _ | _ => blocks end).
  assert (Hc : containsAnthropicToolUseBlock blocks' =
               existsb (fun item => ro_Type_ item =s "function_call") (rr_Output resp)).
  { rewrite <- items_blocks_tool_use. fold blocks. subst blocks'. by destruct blocks. }
  assert (Hne : blocks' <> []) by (subst blocks'; by destruct blocks).
  cbn zeta. split; [by destruct (rr_Usage resp)|].
  assert (Hs : forall sr, ar_StopReason
    match rr_Usage resp with
    | Some u => sr <| ar_Usage := anthropicUsageFromResponsesUsage (Some u) |>
    | None => sr end = ar_StopReason sr) by (by destruct (rr_Usage resp)).
  rewrite Hs; simpl. unfold AnthropicStopReasonPtr, responsesStatusToAnthropicStopReason.
  rewrite Hc. f_equal.
  destruct (rr_Status resp =s "incomplete") eqn:E1; destruct (rr_Status resp =s "completed") eqn:E2; simpl.
  - apply String.eqb_eq in E1, E2. congruence.
  - destruct (rr_IncompleteDetails resp) as [d|]; simpl; [|done].
    destruct (String.eqb_spec (rid_Reason d) "max_output_tokens") as [->|Hn];
      [done | by rewrite bool_decide_false by congruence].
  - by case_test.
  - done.
Qed.
