(* ===== verification/ResponsesToChat.v ===== *)
(** * Responses to Chat Completions

    [pkg/apicompat/responses_to_chatcompletions.go]: the non-streaming
    conversion, the stateful stream converter, and the accumulator that
    rebuilds a response's output from stream deltas. *)

From S2P Require Import Prelude GoStrings GoJson ApiTypes.

(** ** Usage *)

Definition promptDetailsFromResponses (src : option ResponsesInputTokensDetails)
    : option ChatTokenDetails :=
  match src with
  | None => None
  | Some src =>
    if ((ritd_CachedTokens src =? 0) && (ritd_AudioTokens src =? 0)
        && (ritd_CacheCreationTokens src =? 0) && (ritd_CacheWriteTokens src =? 0))%Z
    then None
    else Some (zero_ChatTokenDetails
      <| ctd_CachedTokens := ritd_CachedTokens src |>
      <| ctd_AudioTokens := ritd_AudioTokens src |>
      <| ctd_CacheCreationTokens := ritd_CacheCreationTokens src |>
      <| ctd_CacheWriteTokens := ritd_CacheWriteTokens src |>)
  end.

Definition completionDetailsFromResponses (src : option ResponsesOutputTokensDetails)
    : option ChatTokenDetails :=
  match src with
  | None => None
  | Some src =>
    if ((rotd_ReasoningTokens src =? 0) && (rotd_AudioTokens src =? 0)
        && (rotd_AcceptedPredictionTokens src =? 0)
        && (rotd_RejectedPredictionTokens src =? 0))%Z
    then None
    else Some (zero_ChatTokenDetails
      <| ctd_ReasoningTokens := rotd_ReasoningTokens src |>
      <| ctd_AudioTokens := rotd_AudioTokens src |>
      <| ctd_AcceptedPredictionTokens := rotd_AcceptedPredictionTokens src |>
      <| ctd_RejectedPredictionTokens := rotd_RejectedPredictionTokens src |>)
  end.

Definition chatUsageFromResponsesUsage (u : option ResponsesUsage) : option ChatUsage :=
  match u with
  | None => None
  | Some u =>
    let usage := zero_ChatUsage
      <| cu_PromptTokens := ru_InputTokens u |>
      <| cu_CompletionTokens := ru_OutputTokens u |>
      <| cu_TotalTokens := (ru_InputTokens u + ru_OutputTokens u)%i64 |>
      <| cu_PromptTokensDetails := promptDetailsFromResponses (ru_InputTokensDetails u) |> in
    let usage :=
      if (0 <? ru_CacheCreationInputTokens u)%Z then
        let d := match cu_PromptTokensDetails usage with
                 | None => zero_ChatTokenDetails
                 | Some d => d end in
        let d := if ((ctd_CacheWriteTokens d =? 0) && (ctd_CacheCreationTokens d =? 0))%Z
                 then d <| ctd_CacheCreationTokens := ru_CacheCreationInputTokens u |> else d in
        usage <| cu_PromptTokensDetails := Some d |>
      else usage in
    Some (usage <| cu_CompletionTokensDetails :=
                     completionDetailsFromResponses (ru_OutputTokensDetails u) |>)
  end.

(** ** Non-streaming conversion *)

Definition responsesStatusToChatFinishReason (status : string)
    (details : option ResponsesIncompleteDetails) (toolCalls : list ChatToolCall) : string :=
  if status =s "incomplete" then
    match details with
    | Some d =>
      if rid_Reason d =s "max_output_tokens" then "length"
      else if rid_Reason d =s "content_filter" then "content_filter"
      else "stop"
    | None => "stop"
    end
  else if status =s "completed" then
    match toolCalls with [] => "stop" | _ => "tool_calls" end
  else "stop".

(** The four accumulators of the loop over the output items. *)
Record ChatParts := MkChatParts {
  cp_contentText : string;
  cp_refusalText : string;
  cp_reasoningText : string;
  cp_toolCalls : list ChatToolCall
}.

#[export] Instance eta_ChatParts : Eta ChatParts := fun r =>
  MkChatParts (cp_contentText r) (cp_refusalText r) (cp_reasoningText r) (cp_toolCalls r).

Definition chatCollectPart (acc : ChatParts) (part : ResponsesContentPart) : ChatParts :=
  let acc :=
    if (rcp_Type_ part =s "output_text") && negb (is_empty (rcp_Text part))
    then acc <| cp_contentText := cp_contentText acc +:+ rcp_Text part |> else acc in
  if rcp_Type_ part =s "refusal"
  then acc <| cp_refusalText := cp_refusalText acc +:+ rcp_Refusal part |> else acc.

Definition chatCollectSummary (acc : ChatParts) (s : ResponsesSummary) : ChatParts :=
  if (rs_Type_ s =s "summary_text") && negb (is_empty (rs_Text s))
  then acc <| cp_reasoningText := cp_reasoningText acc +:+ rs_Text s |> else acc.

Definition chatCollectItem (acc : ChatParts) (item : ResponsesOutput) : ChatParts :=
  let ty := ro_Type_ item in
  if ty =s "message" then foldl chatCollectPart acc (ro_Content item)
  else if ty =s "function_call" then
    acc <| cp_toolCalls := cp_toolCalls acc ++
      [ zero_ChatToolCall
          <| ctc_ID := ro_CallID item |>
          <| ctc_Type_ := "function" |>
          <| ctc_Function := zero_ChatFunctionCall
               <| cfc_Name := ro_Name item |>
               <| cfc_Arguments := ro_Arguments item |> |> ] |>
  else if ty =s "reasoning" then foldl chatCollectSummary acc (ro_Summary item)
  else acc.

Definition chatCollect (items : list ResponsesOutput) : ChatParts :=
  foldl chatCollectItem (MkChatParts "" "" "" []) items.

(** [ResponsesToChatCompletions]; [randomID] is what [generateChatCmplID]
    draws, [now] the clock. *)
Definition ResponsesToChatCompletions (randomID : string) (now : Z)
    (resp : ResponsesResponse) (model : string) : ChatCompletionsResponse :=
  let id := if is_empty (rr_ID resp) then randomID else rr_ID resp in
  let parts := chatCollect (rr_Output resp) in
  let msg := zero_ChatMessage
    <| cm_Role := "assistant" |>
    <| cm_Refusal := cp_refusalText parts |>
    <| cm_ToolCalls := cp_toolCalls parts |> in
  let msg := if negb (is_empty (cp_contentText parts))
             then msg <| cm_Content := marshal_string (cp_contentText parts) |> else msg in
  let msg := if negb (is_empty (cp_reasoningText parts))
             then msg <| cm_ReasoningContent := cp_reasoningText parts |> else msg in
  let finishReason := responsesStatusToChatFinishReason
    (rr_Status resp) (rr_IncompleteDetails resp) (cp_toolCalls parts) in
  let finishReason := if negb (is_empty (cp_refusalText parts))
                      then "content_filter" else finishReason in
  zero_ChatCompletionsResponse
    <| ccr_ID := id |>
    <| ccr_Object := "chat.completion" |>
    <| ccr_Created := now |>
    <| ccr_Model := model |>
    <| ccr_Choices := [ zero_ChatChoice
         <| cc_Index := 0%Z |> <| cc_Message := msg |> <| cc_FinishReason := finishReason |> ] |>
    <| ccr_Usage := chatUsageFromResponsesUsage (rr_Usage resp) |>.

(** ** Streaming conversion: state *)

(** [ResponsesEventToChatState]. *)
Record ResponsesEventToChatState := MkResponsesEventToChatState {
  rcs_ID : string;
  rcs_Model : string;
  rcs_Created : Z;
  rcs_SentRole : bool;
  rcs_SawToolCall : bool;
  rcs_SawText : bool;
  rcs_SawRefusal : bool;
  rcs_Finalized : bool;
  rcs_NextToolCallIndex : Z;
  rcs_OutputIndexToToolIndex : gmap Z Z;
  rcs_OutputIndexToArguments : gmap Z string;
  rcs_IncludeUsage : bool;
  rcs_Usage : option ChatUsage
}.

#[export] Instance eta_ResponsesEventToChatState : Eta ResponsesEventToChatState := fun r =>
  MkResponsesEventToChatState (rcs_ID r) (rcs_Model r) (rcs_Created r) (rcs_SentRole r) (rcs_SawToolCall r) (rcs_SawText r) (rcs_SawRefusal r) (rcs_Finalized r) (rcs_NextToolCallIndex r) (rcs_OutputIndexToToolIndex r) (rcs_OutputIndexToArguments r) (rcs_IncludeUsage r) (rcs_Usage r).

Definition zero_ResponsesEventToChatState : ResponsesEventToChatState :=
  MkResponsesEventToChatState "" "" 0%Z false false false false false 0%Z ∅ ∅ false None.

Definition NewResponsesEventToChatState (randomID : string) (now : Z) : ResponsesEventToChatState :=
  zero_ResponsesEventToChatState <| rcs_ID := randomID |> <| rcs_Created := now |>.

Definition chat_result : Type := (ResponsesEventToChatState * list ChatCompletionsChunk)%type.

Definition makeChatDeltaChunk (state : ResponsesEventToChatState) (delta : ChatDelta)
    : ChatCompletionsChunk :=
  zero_ChatCompletionsChunk
    <| chunk_ID := rcs_ID state |>
    <| chunk_Object := "chat.completion.chunk" |>
    <| chunk_Created := rcs_Created state |>
    <| chunk_Model := rcs_Model state |>
    <| chunk_Choices := [ zero_ChatChunkChoice
         <| ccc_Index := 0%Z |> <| ccc_Delta := delta |> <| ccc_FinishReason := None |> ] |>.

Definition makeChatFinishChunk (state : ResponsesEventToChatState) (finishReason : string)
    : ChatCompletionsChunk :=
  zero_ChatCompletionsChunk
    <| chunk_ID := rcs_ID state |>
    <| chunk_Object := "chat.completion.chunk" |>
    <| chunk_Created := rcs_Created state |>
    <| chunk_Model := rcs_Model state |>
    <| chunk_Choices := [ zero_ChatChunkChoice
         <| ccc_Index := 0%Z |>
         <| ccc_Delta := zero_ChatDelta <| cd_Content := Some "" |> |>
         <| ccc_FinishReason := Some finishReason |> ] |>.

(** The chunk that carries usage after the finish chunk. *)
Definition usageChunks (state : ResponsesEventToChatState) : list ChatCompletionsChunk :=
  match rcs_Usage state with
  | Some u =>
    if rcs_IncludeUsage state then
      [ zero_ChatCompletionsChunk
          <| chunk_ID := rcs_ID state |>
          <| chunk_Object := "chat.completion.chunk" |>
          <| chunk_Created := rcs_Created state |>
          <| chunk_Model := rcs_Model state |>
          <| chunk_Choices := [] |>
          <| chunk_Usage := Some u |> ]
    else []
  | None => []
  end.

(** ** Handlers *)

Definition resToChatHandleCreated (evt : ResponsesStreamEvent)
    (state : ResponsesEventToChatState) : chat_result :=
  let state :=
    match rse_Response evt with
    | Some r =>
      let state := if negb (is_empty (rr_ID r)) then state <| rcs_ID := rr_ID r |> else state in
      if is_empty (rcs_Model state) && negb (is_empty (rr_Model r))
      then state <| rcs_Model := rr_Model r |> else state
    | None => state
    end in
  if rcs_SentRole state then (state, []) else
  let state := state <| rcs_SentRole := true |> in
  (state, [ makeChatDeltaChunk state (zero_ChatDelta <| cd_Role := "assistant" |>) ]).

Definition resToChatHandleTextDelta (evt : ResponsesStreamEvent)
    (state : ResponsesEventToChatState) : chat_result :=
  if is_empty (rse_Delta evt) then (state, []) else
  let state := state <| rcs_SawText := true |> in
  (state, [ makeChatDeltaChunk state (zero_ChatDelta <| cd_Content := Some (rse_Delta evt) |>) ]).

Definition resToChatHandleOutputItemAdded (evt : ResponsesStreamEvent)
    (state : ResponsesEventToChatState) : chat_result :=
  match rse_Item evt with
  | None => (state, [])
  | Some item =>
    if negb (ro_Type_ item =s "function_call") && negb (ro_Type_ item =s "custom_tool_call")
    then (state, [])
    else
      let idx := rcs_NextToolCallIndex state in
      let state := state
        <| rcs_SawToolCall := true |>
        <| rcs_OutputIndexToToolIndex :=
             <[ rse_OutputIndex evt := idx ]> (rcs_OutputIndexToToolIndex state) |>
        <| rcs_NextToolCallIndex := (rcs_NextToolCallIndex state + 1)%Z |> in
      (state, [ makeChatDeltaChunk state (zero_ChatDelta
        <| cd_ToolCalls := [ zero_ChatToolCall
             <| ctc_Index := Some idx |>
             <| ctc_ID := ro_CallID item |>
             <| ctc_Type_ := "function" |>
             <| ctc_Function := zero_ChatFunctionCall <| cfc_Name := ro_Name item |> |> ] |>) ])
  end.

Definition resToChatHandleFuncArgsDelta (evt : ResponsesStreamEvent)
    (state : ResponsesEventToChatState) : chat_result :=
  if is_empty (rse_Delta evt) then (state, []) else
  match rcs_OutputIndexToToolIndex state !! rse_OutputIndex evt with
  | None => (state, [])
  | Some idx =>
    let current := default "" (rcs_OutputIndexToArguments state !! rse_OutputIndex evt) in
    let state := state
      <| rcs_OutputIndexToArguments :=
           <[ rse_OutputIndex evt := current +:+ rse_Delta evt ]> (rcs_OutputIndexToArguments state) |> in
    (state, [ makeChatDeltaChunk state (zero_ChatDelta
      <| cd_ToolCalls := [ zero_ChatToolCall
           <| ctc_Index := Some idx |>
           <| ctc_Function := zero_ChatFunctionCall <| cfc_Arguments := rse_Delta evt |> |> ] |>) ])
  end.

Definition resToChatHandleFuncArgsDone (evt : ResponsesStreamEvent)
    (state : ResponsesEventToChatState) : chat_result :=
  match rcs_OutputIndexToToolIndex state !! rse_OutputIndex evt with
  | None => (state, [])
  | Some _ =>
    let complete :=
      if rse_Type_ evt =s "response.custom_tool_call_input.done"
      then rse_Input evt else rse_Arguments evt in
    let current := default "" (rcs_OutputIndexToArguments state !! rse_OutputIndex evt) in
    if (complete =s current) || negb (HasPrefix complete current) then (state, [])
    else resToChatHandleFuncArgsDelta
           (evt <| rse_Delta := str_drop (String.length current) complete |>) state
  end.

Definition resToChatHandleReasoningDelta (evt : ResponsesStreamEvent)
    (state : ResponsesEventToChatState) : chat_result :=
  if is_empty (rse_Delta evt) then (state, []) else
  (state, [ makeChatDeltaChunk state
              (zero_ChatDelta <| cd_ReasoningContent := Some (rse_Delta evt) |>) ]).

(** The [response.refusal.delta] case of the dispatch. *)
Definition resToChatHandleRefusalDelta (evt : ResponsesStreamEvent)
    (state : ResponsesEventToChatState) : chat_result :=
  if is_empty (rse_Delta evt) then (state, []) else
  let state := state <| rcs_SawRefusal := true |> in
  (state, [ makeChatDeltaChunk state (zero_ChatDelta <| cd_Refusal := Some (rse_Delta evt) |>) ]).

(** The refusal text of a terminal response. *)
Definition responseRefusal (items : list ResponsesOutput) : string :=
  foldl (fun acc item =>
    foldl (fun acc part =>
      if rcp_Type_ part =s "refusal" then acc +:+ rcp_Refusal part else acc)
      acc (ro_Content item)) "" items.

Definition completedFinishReason (evt : ResponsesStreamEvent) (sawToolCall sawRefusal : bool) : string :=
  let finishReason :=
    match rse_Response evt with
    | Some r =>
      if rr_Status r =s "incomplete" then
        match rr_IncompleteDetails r with
        | Some d =>
          if rid_Reason d =s "max_output_tokens" then "length"
          else if rid_Reason d =s "content_filter" then "content_filter"
          else "stop"
        | None => "stop"
        end
      else if rr_Status r =s "completed" then
        if sawToolCall then "tool_calls" else "stop"
      else "stop"
    | None => if sawToolCall then "tool_calls" else "stop"
    end in
  if sawRefusal then "content_filter" else finishReason.

Definition resToChatHandleCompleted (evt : ResponsesStreamEvent)
    (state : ResponsesEventToChatState) : chat_result :=
  let state := state <| rcs_Finalized := true |> in
  let state :=
    match rse_Usage evt with
    | Some u => state <| rcs_Usage := chatUsageFromResponsesUsage (Some u) |>
    | None => state
    end in
  let state :=
    match rse_Response evt with
    | Some r =>
      match rr_Usage r with
      | Some u => state <| rcs_Usage := chatUsageFromResponsesUsage (Some u) |>
      | None => state
      end
    | None => state
    end in
  let finishReason := completedFinishReason evt (rcs_SawToolCall state) (rcs_SawRefusal state) in
  let text :=
    match rse_Response evt with
    | Some r => if rcs_SawRefusal state then "" else responseRefusal (rr_Output r)
    | None => ""
    end in
  if is_empty text then
    (state, makeChatFinishChunk state finishReason :: usageChunks state)
  else
    let state := state <| rcs_SawRefusal := true |> in
    (state, makeChatDeltaChunk state (zero_ChatDelta <| cd_Refusal := Some text |>)
              :: makeChatFinishChunk state "content_filter" :: usageChunks state).

Definition ResponsesEventToChatChunks (evt : ResponsesStreamEvent)
    (state : ResponsesEventToChatState) : chat_result :=
  if rcs_Finalized state then (state, []) else
  let ty := rse_Type_ evt in
  if ty =s "response.created" then resToChatHandleCreated evt state
  else if ty =s "response.output_text.delta" then resToChatHandleTextDelta evt state
  else if ty =s "response.refusal.delta" then resToChatHandleRefusalDelta evt state
  else if ty =s "response.output_item.added" then resToChatHandleOutputItemAdded evt state
  else if (ty =s "response.function_call_arguments.delta")
       || (ty =s "response.custom_tool_call_input.delta")
  then resToChatHandleFuncArgsDelta evt state
  else if (ty =s "response.function_call_arguments.done")
       || (ty =s "response.custom_tool_call_input.done")
  then resToChatHandleFuncArgsDone evt state
  else if (ty =s "response.reasoning_summary_text.delta")
       || (ty =s "response.reasoning_text.delta")
  then resToChatHandleReasoningDelta evt state
  else if ty =s "response.reasoning_summary_text.done" then (state, [])
  else if (ty =s "response.completed") || (ty =s "response.done")
       || (ty =s "response.incomplete") || (ty =s "response.failed")
  then resToChatHandleCompleted evt state
  else (state, []).

Definition FinalizeResponsesChatStream (state : ResponsesEventToChatState) : chat_result :=
  if rcs_Finalized state then (state, []) else
  let state := state <| rcs_Finalized := true |> in
  let finishReason := if rcs_SawToolCall state then "tool_calls" else "stop" in
  let finishReason := if rcs_SawRefusal state then "content_filter" else finishReason in
  (state, makeChatFinishChunk state finishReason :: usageChunks state).

Definition convertChatStream (state : ResponsesEventToChatState)
    (evts : list ResponsesStreamEvent) : chat_result :=
  let '(state, chunks) := run (fun s e => ResponsesEventToChatChunks e s) state evts in
  let '(state, final) := FinalizeResponsesChatStream state in
  (state, chunks ++ final).

(** ** The buffered accumulator *)

(** A [strings.Builder] remembers the address it was first written at and
    panics when written after having been copied elsewhere. *)
Record Builder := MkBuilder {
  sb_addr : option (nat * nat);
  sb_buf : string
}.

Definition zero_Builder : Builder := MkBuilder None "".

(** [b.WriteString(s)] for the builder stored at [self]; [None] is the panic of
    [copyCheck]. *)
Definition builder_write (self : nat * nat) (s : string) (b : Builder) : option Builder :=
  match sb_addr b with
  | None => Some (MkBuilder (Some self) (sb_buf b +:+ s))
  | Some a => if bool_decide (a = self) then Some (MkBuilder (Some a) (sb_buf b +:+ s)) else None
  end.

(** [bufferedFuncCall]: the arguments are a [strings.Builder] held by value. *)
Record bufferedFuncCall := MkbufferedFuncCall {
  bfc_CallID : string;
  bfc_Name : string;
  bfc_Args : Builder
}.

#[export] Instance eta_bufferedFuncCall : Eta bufferedFuncCall := fun r =>
  MkbufferedFuncCall (bfc_CallID r) (bfc_Name r) (bfc_Args r).

Definition zero_bufferedFuncCall : bufferedFuncCall :=
  MkbufferedFuncCall "" "" zero_Builder.

(** [BufferedResponseAccumulator].  The three top-level builders live behind the
    accumulator's pointer and never move, so they are their contents.  The slice
    of calls has its header written out: the identity of its backing array and
    its capacity. *)
Record BufferedResponseAccumulator := MkBufferedResponseAccumulator {
  acc_text : string;
  acc_refusal : string;
  acc_reasoning : string;
  acc_funcCalls : list bufferedFuncCall;
  acc_array : nat;
  acc_cap : nat;
  acc_outputIndexToFuncIdx : gmap Z nat
}.

#[export] Instance eta_BufferedResponseAccumulator : Eta BufferedResponseAccumulator := fun r =>
  MkBufferedResponseAccumulator (acc_text r) (acc_refusal r) (acc_reasoning r) (acc_funcCalls r) (acc_array r) (acc_cap r) (acc_outputIndexToFuncIdx r).

Definition zero_BufferedResponseAccumulator : BufferedResponseAccumulator :=
  MkBufferedResponseAccumulator "" "" "" [] 0 0 ∅.

Definition NewBufferedResponseAccumulator : BufferedResponseAccumulator :=
  zero_BufferedResponseAccumulator.

Section Accumulator.
(** The capacity [append] allocates when a slice of the given capacity is
    full; the language leaves it open. *)
Variable grow_cap : nat -> nat.

(** [a.funcCalls = append(a.funcCalls, c)]: a full slice moves to a fresh
    backing array. *)
Definition appendFuncCall (c : bufferedFuncCall) (a : BufferedResponseAccumulator)
    : BufferedResponseAccumulator :=
  let a :=
    if bool_decide (length (acc_funcCalls a) < acc_cap a) then a
    else a <| acc_array := S (acc_array a) |> <| acc_cap := grow_cap (acc_cap a) |> in
  a <| acc_funcCalls := acc_funcCalls a ++ [c] |>.

(** [a.funcCalls[idx].Args.WriteString(s)]; [None] is a panic (a moved
    builder, or an index out of range). *)
Definition writeFuncArgs (idx : nat) (s : string) (a : BufferedResponseAccumulator)
    : option BufferedResponseAccumulator :=
  match acc_funcCalls a !! idx with
  | None => None
  | Some c =>
    match builder_write (acc_array a, idx) s (bfc_Args c) with
    | None => None
    | Some b =>
      Some (a <| acc_funcCalls := <[ idx := c <| bfc_Args := b |> ]> (acc_funcCalls a) |>)
    end
  end.

(** [ProcessEvent]. *)
Definition ProcessEvent (event : ResponsesStreamEvent) (a : BufferedResponseAccumulator)
    : option BufferedResponseAccumulator :=
  let ty := rse_Type_ event in
  if ty =s "response.refusal.delta" then
    Some (a <| acc_refusal := acc_refusal a +:+ rse_Delta event |>)
  else if ty =s "response.output_text.delta" then
    if negb (is_empty (rse_Delta event))
    then Some (a <| acc_text := acc_text a +:+ rse_Delta event |>) else Some a
  else if ty =s "response.output_item.added" then
    match rse_Item event with
    | Some item =>
      if (ro_Type_ item =s "function_call") || (ro_Type_ item =s "custom_tool_call") then
        let idx := length (acc_funcCalls a) in
        let a := a <| acc_outputIndexToFuncIdx :=
          <[ rse_OutputIndex event := idx ]> (acc_outputIndexToFuncIdx a) |> in
        Some (appendFuncCall (zero_bufferedFuncCall
          <| bfc_CallID := ro_CallID item |> <| bfc_Name := ro_Name item |>) a)
      else Some a
    | None => Some a
    end
  else if (ty =s "response.function_call_arguments.delta")
       || (ty =s "response.custom_tool_call_input.delta") then
    if negb (is_empty (rse_Delta event)) then
      match acc_outputIndexToFuncIdx a !! rse_OutputIndex event with
      | Some idx => writeFuncArgs idx (rse_Delta event) a
      | None => Some a
      end
    else Some a
  else if (ty =s "response.reasoning_summary_text.delta")
       || (ty =s "response.reasoning_text.delta") then
    if negb (is_empty (rse_Delta event))
    then Some (a <| acc_reasoning := acc_reasoning a +:+ rse_Delta event |>) else Some a
  else Some a.

Fixpoint ProcessEvents (events : list ResponsesStreamEvent) (a : BufferedResponseAccumulator)
    : option BufferedResponseAccumulator :=
  match events with
  | [] => Some a
  | e :: es => match ProcessEvent e a with Some a' => ProcessEvents es a' | None => None end
  end.
End Accumulator.

Definition HasContent (a : BufferedResponseAccumulator) : bool :=
  negb (is_empty (acc_text a)) || negb (is_empty (acc_refusal a))
  || negb (bool_decide (acc_funcCalls a = [])) || negb (is_empty (acc_reasoning a)).

Definition BuildOutput (a : BufferedResponseAccumulator) : list ResponsesOutput :=
  (if negb (is_empty (acc_refusal a)) then
     [ zero_ResponsesOutput <| ro_Type_ := "message" |> <| ro_Role := "assistant" |>
         <| ro_Content := [ zero_ResponsesContentPart
              <| rcp_Type_ := "refusal" |> <| rcp_Refusal := acc_refusal a |> ] |> ]
   else [])
  ++ (if negb (is_empty (acc_reasoning a)) then
        [ zero_ResponsesOutput <| ro_Type_ := "reasoning" |>
            <| ro_Summary := [ zero_ResponsesSummary
                 <| rs_Type_ := "summary_text" |> <| rs_Text := acc_reasoning a |> ] |> ]
      else [])
  ++ (if negb (is_empty (acc_text a)) then
        [ zero_ResponsesOutput <| ro_Type_ := "message" |> <| ro_Role := "assistant" |>
            <| ro_Content := [ zero_ResponsesContentPart
                 <| rcp_Type_ := "output_text" |> <| rcp_Text := acc_text a |> ] |> ]
      else [])
  ++ map (fun c => zero_ResponsesOutput
        <| ro_Type_ := "function_call" |>
        <| ro_CallID := bfc_CallID c |>
        <| ro_Name := bfc_Name c |>
        <| ro_Arguments := sb_buf (bfc_Args c) |>) (acc_funcCalls a).

Definition SupplementResponseOutput (a : BufferedResponseAccumulator)
    (resp : option ResponsesResponse) : option ResponsesResponse :=
  match resp with
  | None => None
  | Some r =>
    match rr_Output r with
    | [] => if HasContent a then Some (r <| rr_Output := BuildOutput a |>) else Some r
    | _ => Some r
    end
  end.
