(* ===== verification/ResponsesToChatProofs.v ===== *)
(** * Chat Completions streams: protocol, and agreement with buffering

    The chunk protocol as an automaton that every converted stream follows, the
    finish reasons, and the equivalence between what a streaming client
    assembles and what the buffered accumulator rebuilds. *)

From S2P Require Import Prelude GoStrings GoJson ApiTypes ResponsesToChat.

(** ** The abstract protocol

    [ChatStreaming n]: [n] tool calls announced so far. *)

Inductive chat_phase :=
  | ChatStreaming (n : Z)
  | ChatFinished
  | ChatDone.

Definition chat_step (q : chat_phase) (c : ChatCompletionsChunk) : option chat_phase :=
  match q, chunk_Choices c with
  | ChatStreaming n, [ch] =>
    match ccc_FinishReason ch with
    | Some _ => Some ChatFinished
    | None =>
      match cd_ToolCalls (ccc_Delta ch) with
      | [] => Some (ChatStreaming n)
      | [tc] =>
        match ctc_Index tc with
        | Some i =>
          if ctc_Type_ tc =s "function"
          then if (i =? n)%Z then Some (ChatStreaming (n + 1)) else None
          else if ((0 <=? i) && (i <? n))%Z then Some (ChatStreaming n) else None
        | None => None
        end
      | _ => None
      end
    end
  | ChatFinished, [] => if bool_decide (is_Some (chunk_Usage c)) then Some ChatDone else None
  | _, _ => None
  end.

Definition end_phase (s : ResponsesEventToChatState) : chat_phase :=
  match rcs_Usage s with
  | Some _ => if rcs_IncludeUsage s then ChatDone else ChatFinished
  | None => ChatFinished
  end.

Definition chat_state_phase (s : ResponsesEventToChatState) : chat_phase :=
  if rcs_Finalized s then end_phase s else ChatStreaming (rcs_NextToolCallIndex s).

Definition chat_ok (s : ResponsesEventToChatState) : Prop :=
  (0 <= rcs_NextToolCallIndex s)%Z /\
  forall k i, rcs_OutputIndexToToolIndex s !! k = Some i -> (0 <= i < rcs_NextToolCallIndex s)%Z.

Definition chat_spec (s : ResponsesEventToChatState) (r : chat_result) : Prop :=
  chat_ok r.1 /\ accepts chat_step (chat_state_phase s) r.2 = Some (chat_state_phase r.1).

Lemma chat_spec_refl s : chat_ok s -> chat_spec s (s, []).
Proof. by split. Qed.

(** A state change that leaves tool calls and finalization alone, with at most
    one plain delta chunk. *)
Lemma chat_spec_frame s s' st d b :
  chat_ok s -> rcs_Finalized s = false -> rcs_Finalized s' = false ->
  rcs_NextToolCallIndex s' = rcs_NextToolCallIndex s ->
  rcs_OutputIndexToToolIndex s' = rcs_OutputIndexToToolIndex s ->
  cd_ToolCalls d = [] ->
  chat_spec s (s', if b : bool then [makeChatDeltaChunk st d] else []).
Proof.
  intros Hok E1 E2 E3 E4 E5. split; simpl.
  - unfold chat_ok in *. by rewrite E3, E4.
  - unfold chat_state_phase. rewrite E1, E2, E3. destruct b; simpl; [|done]. by rewrite E5.
Qed.

Lemma resToChatHandleCreated_spec evt s :
  chat_ok s -> rcs_Finalized s = false -> chat_spec s (resToChatHandleCreated evt s).
Proof.
  intros Hok Hf. unfold resToChatHandleCreated.
  match goal with |- context [if rcs_SentRole ?x then _ else _] => set (s0 := x) end.
  assert (H0 : rcs_Finalized s0 = rcs_Finalized s /\
    rcs_NextToolCallIndex s0 = rcs_NextToolCallIndex s /\
    rcs_OutputIndexToToolIndex s0 = rcs_OutputIndexToToolIndex s).
  { subst s0. destruct (rse_Response evt); simpl; [|done]. repeat (case_test; simpl); done. }
  destruct H0 as (E1 & E2 & E3). case_test.
  - apply (chat_spec_frame s s0 s0 zero_ChatDelta false); simpl; (done || congruence).
  - apply (chat_spec_frame s (s0 <| rcs_SentRole := true |>) _ _ true); simpl; (done || congruence).
Qed.

Lemma resToChatHandleFuncArgsDelta_spec evt s :
  chat_ok s -> rcs_Finalized s = false -> chat_spec s (resToChatHandleFuncArgsDelta evt s).
Proof.
  intros Hok Hf. unfold resToChatHandleFuncArgsDelta.
  case_test; [by apply chat_spec_refl|].
  destruct (_ !! rse_OutputIndex evt) as [idx|] eqn:Ei; [|by apply chat_spec_refl].
  split; [done|]. unfold chat_state_phase; simpl. rewrite Hf.
  destruct (proj2 Hok _ _ Ei) as [H1 H2].
  cbn. by rewrite (proj2 (Z.leb_le _ _) H1), (proj2 (Z.ltb_lt _ _) H2).
Qed.

Lemma resToChatHandleFuncArgsDone_spec evt s :
  chat_ok s -> rcs_Finalized s = false -> chat_spec s (resToChatHandleFuncArgsDone evt s).
Proof.
  intros Hok Hf. unfold resToChatHandleFuncArgsDone.
  destruct (_ !! rse_OutputIndex evt); [|by apply chat_spec_refl]. cbn zeta.
  destruct (_ || _); [by apply chat_spec_refl | by apply resToChatHandleFuncArgsDelta_spec].
Qed.

Lemma resToChatHandleOutputItemAdded_spec evt s :
  chat_ok s -> rcs_Finalized s = false -> chat_spec s (resToChatHandleOutputItemAdded evt s).
Proof.
  intros Hok Hf. unfold resToChatHandleOutputItemAdded.
  destruct (rse_Item evt); [|by apply chat_spec_refl].
  case_test; [by apply chat_spec_refl|]. destruct Hok as [Hn Hm]. split; simpl.
  - split; simpl; [lia|]. intros k i. rewrite lookup_insert. case_decide.
    + intros [= <-]. lia.
    + intros Hk. specialize (Hm k i Hk). lia.
  - unfold chat_state_phase; simpl. rewrite Hf. cbn. by rewrite Z.eqb_refl.
Qed.

Lemma finish_accepted s st n fr :
  rcs_Usage st = rcs_Usage s -> rcs_IncludeUsage st = rcs_IncludeUsage s ->
  accepts chat_step (ChatStreaming n) (makeChatFinishChunk st fr :: usageChunks st)
  = Some (end_phase s).
Proof.
  intros E1 E2. cbn. unfold usageChunks, end_phase. rewrite E1, E2.
  destruct (rcs_Usage s); [|done]. by destruct (rcs_IncludeUsage s).
Qed.

Lemma chat_finished_phase s : rcs_Finalized s = true -> chat_state_phase s = end_phase s.
Proof. intros E. unfold chat_state_phase. by rewrite E. Qed.

Lemma resToChatHandleCompleted_spec evt s :
  chat_ok s -> rcs_Finalized s = false ->
  chat_spec s (resToChatHandleCompleted evt s) /\
  rcs_Finalized (resToChatHandleCompleted evt s).1 = true.
Proof.
  intros Hok Hf. unfold resToChatHandleCompleted. cbn zeta.
  match goal with |- context [completedFinishReason _ (rcs_SawToolCall ?x) _] => set (s0 := x) end.
  assert (H0 : rcs_Finalized s0 = true /\ (chat_ok s -> chat_ok s0)).
  { subst s0. destruct (rse_Response evt) as [r|]; [destruct (rr_Usage r)|];
      by destruct (rse_Usage evt). }
  destruct H0 as [E1 E2].
  assert (Hs : chat_state_phase s = ChatStreaming (rcs_NextToolCallIndex s))
    by (unfold chat_state_phase; by rewrite Hf).
  case_test; (split; [split; [by apply E2|]|done]); cbn [fst snd]; rewrite Hs.
  - rewrite chat_finished_phase by done. by apply finish_accepted.
  - rewrite chat_finished_phase by done.
    change (accepts chat_step (ChatStreaming (rcs_NextToolCallIndex s))
      (makeChatFinishChunk (s0 <| rcs_SawRefusal := true |>) "content_filter"
         :: usageChunks (s0 <| rcs_SawRefusal := true |>)) =
      Some (end_phase (s0 <| rcs_SawRefusal := true |>))).
    by apply finish_accepted.
Qed.

Lemma ResponsesEventToChatChunks_spec evt s :
  chat_ok s -> chat_spec s (ResponsesEventToChatChunks evt s).
Proof.
  intros Hok. unfold ResponsesEventToChatChunks.
  destruct (rcs_Finalized s) eqn:Hf; [by apply chat_spec_refl|]. cbn zeta.
  repeat match goal with |- chat_spec _ (if ?b then _ else _) => destruct b end;
    auto using resToChatHandleCreated_spec, resToChatHandleFuncArgsDelta_spec,
      resToChatHandleFuncArgsDone_spec, resToChatHandleOutputItemAdded_spec, chat_spec_refl.
  - unfold resToChatHandleTextDelta. case_test; [by apply chat_spec_refl|].
    by apply (chat_spec_frame s _ _ _ true).
  - unfold resToChatHandleRefusalDelta. case_test; [by apply chat_spec_refl|].
    by apply (chat_spec_frame s _ _ _ true).
  - unfold resToChatHandleReasoningDelta. case_test; [by apply chat_spec_refl|].
    by apply (chat_spec_frame s _ _ _ true).
  - by apply resToChatHandleCompleted_spec.
Qed.

Lemma run_chat_spec s evts :
  chat_ok s -> chat_spec s (run (fun s e => ResponsesEventToChatChunks e s) s evts).
Proof.
  intros Hok.
  pose proof (run_invariant (fun s e => ResponsesEventToChatChunks e s)
    (fun s' acc => chat_ok s' /\ accepts chat_step (chat_state_phase s) acc = Some (chat_state_phase s'))
    (fun _ => True)) as H.
  apply (H) with (acc := []); [|done|by apply Forall_true].
  intros s1 acc e [H1 H2] _. destruct (ResponsesEventToChatChunks_spec e s1 H1) as [H3 H4].
  split; [done|]. eauto with gateway.
Qed.


(** Refusals win: once a refusal has been streamed, or when the terminal
    response carries refusal text, the finish chunk says content_filter,
    whatever the status, the incomplete details or the tool calls are. *)
Theorem refusal_finishes_with_content_filter evt s :
  rcs_Finalized s = false ->
  rcs_SawRefusal s = true \/
    (exists r, rse_Response evt = Some r /\ responseRefusal (rr_Output r) <> "") ->
  exists pre st rest,
    (resToChatHandleCompleted evt s).2 = pre ++ makeChatFinishChunk st "content_filter" :: rest /\
    rcs_SawRefusal (resToChatHandleCompleted evt s).1 = true.
Proof.
  intros Hf Href. unfold resToChatHandleCompleted. cbn zeta.
  match goal with |- context [completedFinishReason _ (rcs_SawToolCall ?x) _] => set (s0 := x) end.
  assert (E0 : rcs_SawRefusal s0 = rcs_SawRefusal s).
  { subst s0. destruct (rse_Response evt) as [r|]; [destruct (rr_Usage r)|];
      by destruct (rse_Usage evt). }
  rewrite !E0. case_test; cbn [fst snd].
  - destruct (rcs_SawRefusal s) eqn:Er.
    + unfold completedFinishReason. by eexists [], s0, _.
    + destruct Href as [|(r & Hr & Hne)]; [done|]. rewrite Hr in E.
      apply is_empty_true in E. done.
  - eexists [_], _, _. simpl. eauto.
Qed.

(** ** Streaming against buffering

    What a client puts together from the chunks: texts are concatenated, a tool
    call of a new index is recorded and one of a known index extends its
    arguments. *)

Record Assembled := MkAssembled {
  as_content : string;
  as_reasoning : string;
  as_refusal : string;
  as_calls : list (string * string * string)
}.

Definition assemble_call (calls : list (string * string * string)) (tc : ChatToolCall)
    : list (string * string * string) :=
  let i := Z.to_nat (deref 0%Z (ctc_Index tc)) in
  let args := cfc_Arguments (ctc_Function tc) in
  match calls !! i with
  | Some (id, name, args0) => <[ i := (id, name, args0 +:+ args) ]> calls
  | None => calls ++ [(ctc_ID tc, cfc_Name (ctc_Function tc), args)]
  end.

Definition assemble_choice (a : Assembled) (c : ChatChunkChoice) : Assembled :=
  let d := ccc_Delta c in
  MkAssembled (as_content a +:+ deref "" (cd_Content d))
              (as_reasoning a +:+ deref "" (cd_ReasoningContent d))
              (as_refusal a +:+ deref "" (cd_Refusal d))
              (foldl assemble_call (as_calls a) (cd_ToolCalls d)).

Definition assemble (a : Assembled) (chunks : list ChatCompletionsChunk) : Assembled :=
  foldl (fun a ch => foldl assemble_choice a (chunk_Choices ch)) a chunks.

Definition nothing_assembled : Assembled := MkAssembled "" "" "" [].

(** What the accumulator has recorded, in the same terms. *)
Definition call_view (c : bufferedFuncCall) : string * string * string :=
  (bfc_CallID c, bfc_Name c, sb_buf (bfc_Args c)).

Definition accumulated (a : BufferedResponseAccumulator) : Assembled :=
  MkAssembled (acc_text a) (acc_reasoning a) (acc_refusal a) (map call_view (acc_funcCalls a)).

(** The events both sides read as deltas: neither the end of the response nor
    the repetition of a call's complete arguments. *)
Definition delta_event (e : ResponsesStreamEvent) : bool :=
  let ty := rse_Type_ e in
  negb ((ty =s "response.completed") || (ty =s "response.done")
        || (ty =s "response.incomplete") || (ty =s "response.failed")
        || (ty =s "response.function_call_arguments.done")
        || (ty =s "response.custom_tool_call_input.done")).

Record buffer_sim (s : ResponsesEventToChatState) (asm : Assembled)
    (a : BufferedResponseAccumulator) : Prop := {
  bs_open : rcs_Finalized s = false;
  bs_view : asm = accumulated a;
  bs_next : rcs_NextToolCallIndex s = Z.of_nat (length (acc_funcCalls a));
  bs_index : forall k, rcs_OutputIndexToToolIndex s !! k
                       = Z.of_nat <$> acc_outputIndexToFuncIdx a !! k;
  bs_bound : forall k i, acc_outputIndexToFuncIdx a !! k = Some i -> i < length (acc_funcCalls a)
}.

Lemma assemble_call_new calls tc :
  ctc_Index tc = Some (Z.of_nat (length calls)) ->
  assemble_call calls tc
  = calls ++ [(ctc_ID tc, cfc_Name (ctc_Function tc), cfc_Arguments (ctc_Function tc))].
Proof.
  intros E. unfold assemble_call. rewrite E. simpl. rewrite Nat2Z.id.
  by rewrite lookup_ge_None_2.
Qed.

Lemma assemble_call_args calls tc i id name args :
  ctc_Index tc = Some (Z.of_nat i) -> calls !! i = Some (id, name, args) ->
  assemble_call calls tc = <[ i := (id, name, args +:+ cfc_Arguments (ctc_Function tc)) ]> calls.
Proof. intros E Hi. unfold assemble_call. rewrite E. simpl. by rewrite Nat2Z.id, Hi. Qed.

Lemma assemble_delta asm st d :
  assemble asm [makeChatDeltaChunk st d]
  = MkAssembled (as_content asm +:+ deref "" (cd_Content d))
      (as_reasoning asm +:+ deref "" (cd_ReasoningContent d))
      (as_refusal asm +:+ deref "" (cd_Refusal d))
      (foldl assemble_call (as_calls asm) (cd_ToolCalls d)).
Proof. done. Qed.

Lemma assemble_app asm l1 l2 : assemble asm (l1 ++ l2) = assemble (assemble asm l1) l2.
Proof. apply foldl_app. Qed.

Lemma appendFuncCall_calls grow_cap c a :
  acc_funcCalls (appendFuncCall grow_cap c a) = acc_funcCalls a ++ [c] /\
  acc_outputIndexToFuncIdx (appendFuncCall grow_cap c a) = acc_outputIndexToFuncIdx a /\
  acc_text (appendFuncCall grow_cap c a) = acc_text a /\
  acc_refusal (appendFuncCall grow_cap c a) = acc_refusal a /\
  acc_reasoning (appendFuncCall grow_cap c a) = acc_reasoning a.
Proof. unfold appendFuncCall. by destruct (bool_decide _). Qed.

Lemma builder_write_buf self s b b' :
  builder_write self s b = Some b' -> sb_addr b' = Some self /\ sb_buf b' = sb_buf b +:+ s.
Proof.
  unfold builder_write. destruct (sb_addr b); [case_bool_decide; [|done]|]; intros [= <-]; naive_solver.
Qed.

(** A delta that only extends one of the texts. *)
Lemma buffer_sim_text s s' asm a a' st d :
  buffer_sim s asm a -> rcs_Finalized s' = false ->
  rcs_NextToolCallIndex s' = rcs_NextToolCallIndex s ->
  rcs_OutputIndexToToolIndex s' = rcs_OutputIndexToToolIndex s ->
  acc_funcCalls a' = acc_funcCalls a ->
  acc_outputIndexToFuncIdx a' = acc_outputIndexToFuncIdx a ->
  cd_ToolCalls d = [] ->
  acc_text a' = acc_text a +:+ deref "" (cd_Content d) ->
  acc_reasoning a' = acc_reasoning a +:+ deref "" (cd_ReasoningContent d) ->
  acc_refusal a' = acc_refusal a +:+ deref "" (cd_Refusal d) ->
  buffer_sim s' (assemble asm [makeChatDeltaChunk st d]) a'.
Proof.
  intros [H1 H2 H3 H4 H5] E1 E2 E3 E4 E5 E6 E7 E8 E9. subst asm.
  split; rewrite ?E2, ?E3, ?E4, ?E5; try done.
  rewrite assemble_delta, E6. unfold accumulated; simpl. by rewrite E4, E7, E8, E9.
Qed.

Lemma buffer_sim_added grow_cap e s asm a a' :
  buffer_sim s asm a -> rse_Type_ e = "response.output_item.added" ->
  ProcessEvent grow_cap e a = Some a' ->
  let r := resToChatHandleOutputItemAdded e s in buffer_sim r.1 (assemble asm r.2) a'.
Proof.
  intros Hsim Et Hp. cbn zeta. unfold ProcessEvent in Hp. rewrite Et in Hp. simpl in Hp.
  unfold resToChatHandleOutputItemAdded.
  destruct (rse_Item e) as [it|]; [|by simplify_eq].
  rewrite <- negb_orb. destruct (_ || _); simplify_eq; [|done]. cbn [negb fst snd].
  destruct Hsim as [H1 H2 H3 H4 H5].
  match goal with |- buffer_sim _ _ (appendFuncCall _ ?c ?a0) =>
    generalize (appendFuncCall_calls grow_cap c a0); generalize (appendFuncCall grow_cap c a0) end.
  intros a1 HC; simpl in HC; destruct HC as (C1 & C2 & C3 & C4 & C5). split; [done| |simpl..].
  - rewrite H2, assemble_delta. unfold accumulated. rewrite C1, C3, C4, C5. simpl. rewrite !str_app_nil_r. f_equal.
    rewrite assemble_call_new by (simpl; by rewrite length_map, H3). by rewrite map_app.
  - rewrite C1, length_app, H3. simpl. lia.
  - intros k. rewrite C2, !lookup_insert. case_decide; simpl; [by rewrite H3|done].
  - intros k i. rewrite C2, C1, length_app, lookup_insert. simpl. case_decide.
    + intros [= <-]. lia.
    + intros Hk. specialize (H5 _ _ Hk). lia.
Qed.

Lemma buffer_sim_args e s asm a a' :
  buffer_sim s asm a -> is_empty (rse_Delta e) = false ->
  match acc_outputIndexToFuncIdx a !! rse_OutputIndex e with
  | Some idx => writeFuncArgs idx (rse_Delta e) a
  | None => Some a
  end = Some a' ->
  let r := resToChatHandleFuncArgsDelta e s in buffer_sim r.1 (assemble asm r.2) a'.
Proof.
  intros [H1 H2 H3 H4 H5] Hd Hp. cbn zeta. unfold resToChatHandleFuncArgsDelta.
  rewrite Hd, H4. destruct (acc_outputIndexToFuncIdx a !! _) as [idx|] eqn:Ei; [|by simplify_eq/=; split].
  cbn [fmap option_fmap option_map fst snd].
  unfold writeFuncArgs in Hp. destruct (acc_funcCalls a !! idx) as [c|] eqn:Ec; [|done].
  destruct (builder_write _ _ _) as [b|] eqn:Eb; [|done]. injection Hp as <-.
  apply builder_write_buf in Eb as [_ Eb]. split; [done| |simpl..]; try done.
  - rewrite H2, assemble_delta. unfold accumulated. simpl. rewrite !str_app_nil_r. f_equal.
    erewrite (assemble_call_args _ _ idx); [|done|by rewrite list_lookup_fmap, Ec].
    rewrite list_fmap_insert. f_equal. unfold call_view. simpl. by rewrite Eb.
  - by rewrite length_insert.
  - intros k i. rewrite length_insert. eauto.
Qed.

Lemma buffer_sim_created e s asm a :
  buffer_sim s asm a ->
  let r := resToChatHandleCreated e s in buffer_sim r.1 (assemble asm r.2) a.
Proof.
  intros Hsim. cbn zeta. unfold resToChatHandleCreated.
  match goal with |- context [if rcs_SentRole ?x then _ else _] => set (s0 := x) end.
  assert (H0 : rcs_Finalized s0 = rcs_Finalized s /\
    rcs_NextToolCallIndex s0 = rcs_NextToolCallIndex s /\
    rcs_OutputIndexToToolIndex s0 = rcs_OutputIndexToToolIndex s).
  { subst s0. destruct (rse_Response e); simpl; [|done]. repeat (case_test; simpl); done. }
  destruct H0 as (E1 & E2 & E3). destruct (rcs_SentRole s0); cbn [fst snd].
  - destruct Hsim as [H1 H2 H3 H4 H5]. split; rewrite ?E1, ?E2, ?E3; done.
  - pose proof (bs_open _ _ _ Hsim). eapply (buffer_sim_text s); simpl; try done.
    all: (congruence || by rewrite ?str_app_nil_r).
Qed.

Lemma buffer_sim_step grow_cap e s asm a a' :
  buffer_sim s asm a -> delta_event e = true -> ProcessEvent grow_cap e a = Some a' ->
  let r := ResponsesEventToChatChunks e s in buffer_sim r.1 (assemble asm r.2) a'.
Proof.
  intros Hsim Hd Hp. cbn zeta. unfold ResponsesEventToChatChunks.
  pose proof (bs_open _ _ _ Hsim) as Hf. rewrite Hf. cbn zeta.
  destruct (String.eqb_spec (rse_Type_ e) "response.created") as [Et|_].
  { unfold ProcessEvent in Hp. rewrite Et in Hp. simplify_eq/=. by apply buffer_sim_created. }
  destruct (String.eqb_spec (rse_Type_ e) "response.output_text.delta") as [Et|N1].
  { unfold ProcessEvent in Hp. rewrite Et in Hp. simpl in Hp. unfold resToChatHandleTextDelta.
    destruct (is_empty _); injection Hp as <-; [done|].
    apply (buffer_sim_text s _ _ a); simpl; by rewrite ?str_app_nil_r. }
  destruct (String.eqb_spec (rse_Type_ e) "response.refusal.delta") as [Et|N2].
  { unfold ProcessEvent in Hp. rewrite Et in Hp. simplify_eq/=. unfold resToChatHandleRefusalDelta.
    destruct (is_empty (rse_Delta e)) eqn:Ee.
    - apply is_empty_true in Ee. rewrite Ee, str_app_nil_r. destruct a. exact Hsim.
    - apply (buffer_sim_text s _ _ a); simpl; by rewrite ?str_app_nil_r. }
  destruct (String.eqb_spec (rse_Type_ e) "response.output_item.added") as [Et|N3];
    [by eapply buffer_sim_added|].
  unfold ProcessEvent in Hp.
  rewrite (proj2 (String.eqb_neq _ _) N1), (proj2 (String.eqb_neq _ _) N2),
    (proj2 (String.eqb_neq _ _) N3) in Hp.
  destruct (_ || _).
  { destruct (is_empty (rse_Delta e)) eqn:Ee; simpl in Hp; [|by apply (buffer_sim_args _ _ _ a)].
    unfold resToChatHandleFuncArgsDelta. rewrite Ee. by simplify_eq. }
  unfold delta_event in Hd. apply negb_true_iff in Hd. rewrite !orb_false_iff in Hd.
  destruct Hd as (((((-> & ->) & ->) & ->) & ->) & ->). cbn [orb].
  destruct (_ || _).
  { unfold resToChatHandleReasoningDelta. destruct (is_empty _); injection Hp as <-; [done|].
    apply (buffer_sim_text s _ _ a); simpl; by rewrite ?str_app_nil_r. }
  simplify_eq. by destruct (_ =s _).
Qed.

Lemma buffer_sim_run grow_cap evts : forall s asm a a',
  buffer_sim s asm a -> forallb delta_event evts = true ->
  ProcessEvents grow_cap evts a = Some a' ->
  let r := run (fun s e => ResponsesEventToChatChunks e s) s evts in
  buffer_sim r.1 (assemble asm r.2) a'.
Proof.
  induction evts as [|e evts IH]; intros s asm a a' Hsim Hd Hp; simpl in *; [by simplify_eq|].
  apply andb_true_iff in Hd as [Hd1 Hd2].
  destruct (ProcessEvent grow_cap e a) as [a1|] eqn:E1; [|done].
  pose proof (buffer_sim_step _ _ _ _ _ _ Hsim Hd1 E1) as H1. cbn zeta in H1.
  destruct (ResponsesEventToChatChunks e s) as [s1 o1]; cbn [fst snd] in H1.
  specialize (IH _ _ _ _ H1 Hd2 Hp). cbn zeta in IH.
  destruct (run _ s1 evts) as [s2 o2]; cbn [fst snd] in *. by rewrite assemble_app.
Qed.

Lemma buffer_sim_init id now include :
  buffer_sim (NewResponsesEventToChatState id now <| rcs_IncludeUsage := include |>)
    nothing_assembled NewBufferedResponseAccumulator.
Proof. split; try done. Qed.

(** The loop over the output reads back what the accumulator wrote. *)
Definition chat_call (c : string * string * string) : ChatToolCall :=
  zero_ChatToolCall <| ctc_ID := c.1.1 |> <| ctc_Type_ := "function" |>
    <| ctc_Function := zero_ChatFunctionCall <| cfc_Name := c.1.2 |> <| cfc_Arguments := c.2 |> |>.

Lemma chatCollect_calls cs acc :
  foldl chatCollectItem acc (map (fun c => zero_ResponsesOutput
        <| ro_Type_ := "function_call" |>
        <| ro_CallID := bfc_CallID c |>
        <| ro_Name := bfc_Name c |>
        <| ro_Arguments := sb_buf (bfc_Args c) |>) cs)
  = acc <| cp_toolCalls := cp_toolCalls acc ++ map (fun c => chat_call (call_view c)) cs |>.
Proof.
  revert acc; induction cs as [|c cs IH]; intros acc; simpl.
  - rewrite app_nil_r. by destruct acc.
  - rewrite IH. unfold chatCollectItem; simpl. by rewrite <- (assoc_L (++)).
Qed.

Lemma chatCollect_BuildOutput a :
  chatCollect (BuildOutput a)
  = MkChatParts (acc_text a) (acc_refusal a) (acc_reasoning a)
      (map (fun c => chat_call (call_view c)) (acc_funcCalls a)).
Proof.
  unfold chatCollect, BuildOutput. rewrite !foldl_app, chatCollect_calls.
  destruct (is_empty (acc_refusal a)) eqn:E1, (is_empty (acc_reasoning a)) eqn:E2,
    (is_empty (acc_text a)) eqn:E3; simpl; unfold chatCollectItem; simpl;
    unfold chatCollectSummary, chatCollectPart; simpl; rewrite ?E2, ?E3; simpl;
    rewrite ?is_empty_true in *; by rewrite ?E1, ?E2, ?E3.
Qed.

Lemma chatCollect_Supplement a r :
  rr_Output r = [] ->
  exists r', SupplementResponseOutput a (Some r) = Some r' /\
    chatCollect (rr_Output r')
    = MkChatParts (acc_text a) (acc_refusal a) (acc_reasoning a)
        (map (fun c => chat_call (call_view c)) (acc_funcCalls a)).
Proof.
  intros E. unfold SupplementResponseOutput. rewrite E.
  destruct (HasContent a) eqn:Hc; (eexists; split; [done|]); [apply chatCollect_BuildOutput|].
  rewrite E. unfold HasContent in Hc. reflect_bool. rewrite !is_empty_true in *.
  destruct (acc_funcCalls a); [|done]. cbn. congruence.
Qed.


Definition ev_of (ty : string) : ResponsesStreamEvent := zero_ResponsesStreamEvent <| rse_Type_ := ty |>.

Definition ev_add_call (k : Z) (callID name : string) : ResponsesStreamEvent :=
  ev_of "response.output_item.added" <| rse_OutputIndex := k |>
    <| rse_Item := Some (zero_ResponsesOutput <| ro_Type_ := "function_call" |>
         <| ro_CallID := callID |> <| ro_Name := name |>) |>.

Definition ev_args (k : Z) (d : string) : ResponsesStreamEvent :=
  ev_of "response.function_call_arguments.delta" <| rse_OutputIndex := k |> <| rse_Delta := d |>.

Definition wit_sequential : list ResponsesStreamEvent :=
  [ ev_of "response.created";
    ev_of "response.output_text.delta" <| rse_Delta := "Hi" |>;
    ev_add_call 1 "call_a" "f"; ev_args 1 "{"; ev_args 1 "}";
    ev_add_call 2 "call_b" "g"; ev_args 2 "[]" ].

(** [append]'s growth for this element size and these lengths. *)
Definition double_cap (n : nat) : nat := if bool_decide (n = 0) then 1 else 2 * n.


(** ** When buffering is safe *)

(** Argument deltas come only for the call announced last. *)
Fixpoint sequential (last : option Z) (evts : list ResponsesStreamEvent) : bool :=
  match evts with
  | [] => true
  | e :: es =>
    let ty := rse_Type_ e in
    if ty =s "response.output_item.added" then
      match rse_Item e with
      | Some item =>
        if (ro_Type_ item =s "function_call") || (ro_Type_ item =s "custom_tool_call")
        then sequential (Some (rse_OutputIndex e)) es else sequential last es
      | None => sequential last es
      end
    else if (ty =s "response.function_call_arguments.delta")
         || (ty =s "response.custom_tool_call_input.delta")
    then bool_decide (last = Some (rse_OutputIndex e)) && sequential last es
    else sequential last es
  end.

(** The last call's builder has not moved since it was written. *)
Definition last_in_place (last : option Z) (a : BufferedResponseAccumulator) : Prop :=
  forall k, last = Some k ->
    exists cs c, acc_funcCalls a = cs ++ [c] /\
      acc_outputIndexToFuncIdx a !! k = Some (length cs) /\
      (sb_addr (bfc_Args c) = None \/ sb_addr (bfc_Args c) = Some (acc_array a, length cs)).

Lemma last_in_place_write last a e :
  last_in_place last a -> last = Some (rse_OutputIndex e) ->
  exists idx a', acc_outputIndexToFuncIdx a !! rse_OutputIndex e = Some idx /\
    writeFuncArgs idx (rse_Delta e) a = Some a' /\ last_in_place last a'.
Proof.
  intros Hl E. destruct (Hl _ E) as (cs & c & Hc & Hk & Ha).
  assert (Hw : exists b, builder_write (acc_array a, length cs) (rse_Delta e) (bfc_Args c) = Some b).
  { unfold builder_write. destruct Ha as [-> | ->]; [eauto|]. rewrite bool_decide_true by done. eauto. }
  destruct Hw as [b Hb]. pose proof (builder_write_buf _ _ _ _ Hb) as [Hba _].
  eexists _, _. split; [exact Hk|]. unfold writeFuncArgs. rewrite Hc.
  rewrite list_lookup_middle by done. rewrite Hb. split; [done|].
  intros k Ek. simplify_eq. exists cs, (c <| bfc_Args := b |>). simpl.
  rewrite insert_app_r_alt, Nat.sub_diag by done. simpl. split_and!; [done..|]. by right.
Qed.

Lemma last_in_place_step grow_cap last a e es :
  last_in_place last a -> sequential last (e :: es) = true ->
  exists a' last', ProcessEvent grow_cap e a = Some a' /\ last_in_place last' a' /\
    sequential last' es = true.
Proof.
  intros Hl Hs. simpl in Hs. unfold ProcessEvent. cbn zeta.
  destruct (String.eqb_spec (rse_Type_ e) "response.refusal.delta") as [Et|_];
    [rewrite Et in Hs; by eauto|].
  destruct (String.eqb_spec (rse_Type_ e) "response.output_text.delta") as [Et|_].
  { rewrite Et in Hs. destruct (is_empty _); simpl; eauto. }
  destruct (rse_Type_ e =s "response.output_item.added").
  { destruct (rse_Item e) as [it|]; [|by eauto]. destruct (_ || _); [|by eauto].
    eexists _, _. split; [done|]. split; [|done]. intros k [= <-].
    match goal with |- context [appendFuncCall _ ?c ?a0] =>
      destruct (appendFuncCall_calls grow_cap c a0) as (C1 & C2 & _) end.
    rewrite C1, C2. eexists _, _. split; [done|]. split; [by apply lookup_insert_eq|]. by left. }
  destruct (_ || _).
  { apply andb_true_iff in Hs as [Hk Hs]. apply bool_decide_eq_true in Hk.
    destruct (is_empty (rse_Delta e)); simpl; [by eauto|].
    destruct (last_in_place_write _ _ _ Hl Hk) as (idx & a' & -> & -> & ?). eauto. }
  destruct (_ || _); [destruct (is_empty _)|]; simpl; eauto.
Qed.

(** C31. Buffering never fails on sequential streams: when every arguments delta
    belongs to the tool call announced last, the accumulator processes the
    whole stream without panicking, however [append] grows its slice. *)
Theorem sequential_stream_never_panics grow_cap evts :
  sequential None evts = true ->
  exists a, ProcessEvents grow_cap evts NewBufferedResponseAccumulator = Some a.
Proof.
  assert (Hgen : forall last a, last_in_place last a -> sequential last evts = true ->
    exists a', ProcessEvents grow_cap evts a = Some a').
  { induction evts as [|e es IH]; intros last a Hl Hs; [by eexists|].
    destruct (last_in_place_step grow_cap _ _ _ _ Hl Hs) as (a' & last' & E & Hl' & Hs').
    simpl. rewrite E. eauto. }
  intros Hs. by apply (Hgen None); [intros k [=]|].
Qed.

Lemma sequential_stream_never_panics_witness :
  exists a, ProcessEvents double_cap wit_sequential NewBufferedResponseAccumulator = Some a.
Proof. apply sequential_stream_never_panics. vm_compute. reflexivity. Defined.

Definition interleaved : list ResponsesStreamEvent :=
  [ ev_add_call 0 "call_a" "f"; ev_args 0 "a"; ev_add_call 1 "call_b" "g"; ev_args 0 "b" ].


(** The argument text a list of chunks carries. *)
Definition chunk_args (ch : ChatCompletionsChunk) : string :=
  foldr (fun c acc => foldr (fun tc acc => cfc_Arguments (ctc_Function tc) +:+ acc) acc
           (cd_ToolCalls (ccc_Delta c))) "" (chunk_Choices ch).

(** Arguments are completed: when the done event of an announced call
    repeats the arguments streamed so far and extends them, the converter emits
    exactly the missing suffix, and has then forwarded the complete text. *)
Theorem args_done_completes_arguments evt s idx complete :
  rcs_OutputIndexToToolIndex s !! rse_OutputIndex evt = Some idx ->
  complete = (if rse_Type_ evt =s "response.custom_tool_call_input.done"
              then rse_Input evt else rse_Arguments evt) ->
  HasPrefix complete (default "" (rcs_OutputIndexToArguments s !! rse_OutputIndex evt)) = true ->
  let r := resToChatHandleFuncArgsDone evt s in
  default "" (rcs_OutputIndexToArguments r.1 !! rse_OutputIndex evt) = complete /\
  default "" (rcs_OutputIndexToArguments s !! rse_OutputIndex evt)
    +:+ foldr (fun ch acc => chunk_args ch +:+ acc) "" r.2 = complete.
Proof.
  intros Hi Hc Hp. cbn zeta. unfold resToChatHandleFuncArgsDone. rewrite Hi. cbn zeta.
  rewrite <- Hc. clear Hc. apply HasPrefix_true_iff in Hp as [rest Hr].
  set (cur := default "" _) in *. subst complete.
  destruct (String.eqb_spec (cur +:+ rest) cur) as [E|E]; simpl.
  { by rewrite str_app_nil_r, E. }
  rewrite HasPrefix_app. simpl. unfold resToChatHandleFuncArgsDelta; simpl.
  rewrite str_drop_app. destruct (is_empty rest) eqn:Er.
  { apply is_empty_true in Er. subst rest. by rewrite str_app_nil_r in E. }
  rewrite Hi. simpl. rewrite lookup_insert_eq. simpl. fold cur. unfold chunk_args; simpl. by rewrite !str_app_nil_r.
Qed.

