(* ===== verification/AnthropicToResponses.v ===== *)
(** * Anthropic to Responses

    [pkg/apicompat/anthropic_to_responses_response.go]: the reverse direction of
    the response converters.  Identifiers that the code draws at random are
    arguments: one per call for the stream converter, which draws at most one
    per event, and a supply indexed by the number of the draw for the
    non-streaming conversion. *)

From S2P Require Import Prelude GoStrings GoJson GoCrypto ApiTypes ThinkingEnvelope.

(** ** Non-streaming conversion *)

Definition anthropicStopReasonToResponsesStatus (stopReason : string)
    (blocks : list AnthropicContentBlock) : string :=
  if stopReason =s "max_tokens" then "incomplete"
  else if (stopReason =s "end_turn") || (stopReason =s "tool_use")
       || (stopReason =s "stop_sequence") then "completed"
  else "completed".

(** Usage with Responses semantics: the cached tokens are added back to the
    input. *)
Definition responsesUsageOf (input output cacheRead cacheCreation : Z) : ResponsesUsage :=
  let totalInputTokens := ((input + cacheRead)%i64 + cacheCreation)%i64 in
  let usage := zero_ResponsesUsage
    <| ru_InputTokens := totalInputTokens |>
    <| ru_OutputTokens := output |>
    <| ru_TotalTokens := (totalInputTokens + output)%i64 |>
    <| ru_CacheCreationInputTokens := cacheCreation |> in
  if (0 <? cacheRead)%Z
  then usage <| ru_InputTokensDetails := Some (zero_ResponsesInputTokensDetails
                  <| ritd_CachedTokens := cacheRead |>) |>
  else usage.

Definition output_text_part (text : string) : ResponsesContentPart :=
  zero_ResponsesContentPart <| rcp_Type_ := "output_text" |> <| rcp_Text := text |>.

Definition summary_text (text : string) : ResponsesSummary :=
  zero_ResponsesSummary <| rs_Type_ := "summary_text" |> <| rs_Text := text |>.

Definition message_item (id : string) (content : list ResponsesContentPart) : ResponsesOutput :=
  zero_ResponsesOutput <| ro_Type_ := "message" |> <| ro_ID := id |>
    <| ro_Role := "assistant" |> <| ro_Content := content |> <| ro_Status := "completed" |>.

Section NonStreaming.
Variable unicode_lower : string -> string.
(** The value of the n-th call of [generateItemID]. *)
Variable itemID : nat -> string.

(** Loop state: outputs, text parts of the closing message, draws made. *)
Definition conv_acc : Type := (list ResponsesOutput * list ResponsesContentPart * nat)%type.

Definition convertBlock (model scope : string) (acc : conv_acc) (block : AnthropicContentBlock)
    : conv_acc :=
  let '(outputs, msgParts, k) := acc in
  let ty := acb_Type_ block in
  if (ty =s "thinking") || (ty =s "redacted_thinking") then
    if IsAdaptiveThinkingModel unicode_lower model
       && (negb (is_empty (acb_Signature block)) || negb (is_empty (acb_Data block))) then
      let item := zero_ResponsesOutput <| ro_Type_ := "reasoning" |> <| ro_ID := itemID k |> in
      let item := item <| ro_EncryptedContent :=
                           encodeAnthropicThinking block scope (ro_ID item) |> in
      let item := if negb (is_empty (acb_Thinking block))
                  then item <| ro_Summary := [summary_text (acb_Thinking block)] |> else item in
      (outputs ++ [item], msgParts, S k)
    else if negb (is_empty (acb_Thinking block)) then
      (outputs ++ [zero_ResponsesOutput <| ro_Type_ := "reasoning" |> <| ro_ID := itemID k |>
                     <| ro_Summary := [summary_text (acb_Thinking block)] |>], msgParts, S k)
    else acc
  else if ty =s "text" then
    if IsAdaptiveThinkingModel unicode_lower model && negb (is_empty (acb_Text block)) then
      (outputs ++ [message_item (itemID k) [output_text_part (acb_Text block)]], msgParts, S k)
    else if negb (is_empty (acb_Text block)) then
      (outputs, msgParts ++ [output_text_part (acb_Text block)], k)
    else acc
  else if ty =s "tool_use" then
    let args := if (0 <? strlen (acb_Input block))%Z then acb_Input block else "{}" in
    (outputs ++ [zero_ResponsesOutput
       <| ro_Type_ := "function_call" |>
       <| ro_ID := itemID k |>
       <| ro_CallID := toResponsesCallID (acb_ID block) |>
       <| ro_Name := acb_Name block |>
       <| ro_Arguments := args |>
       <| ro_Status := "completed" |>], msgParts, S k)
  else acc.

Definition convertOutputs (model scope : string) (blocks : list AnthropicContentBlock)
    : list ResponsesOutput :=
  let '(outputs, msgParts, k) := foldl (convertBlock model scope) ([], [], 0) blocks in
  let '(outputs, k) :=
    match msgParts with
    | [] => (outputs, k)
    | _ => (outputs ++ [message_item (itemID k) msgParts], S k)
    end in
  match outputs with
  | [] => [message_item (itemID k) [output_text_part ""]]
  | _ => outputs
  end.

(** [AnthropicToResponsesResponse]; [randomID] is what [generateResponsesID]
    draws, [now] the clock. *)
Definition AnthropicToResponsesResponse (randomID : string) (now : Z)
    (resp : AnthropicResponse) (scopes : list string) : ResponsesResponse :=
  let scope := match scopes with s :: _ => s | [] => "" end in
  let id := if is_empty (ar_ID resp) then randomID else ar_ID resp in
  let out := zero_ResponsesResponse
    <| rr_CreatedAt := now |> <| rr_ID := id |> <| rr_Object := "response" |>
    <| rr_Model := ar_Model resp |>
    <| rr_Output := convertOutputs (ar_Model resp) scope (ar_Content resp) |>
    <| rr_Status := anthropicStopReasonToResponsesStatus
         (AnthropicStopReasonString (ar_StopReason resp)) (ar_Content resp) |> in
  let out := if rr_Status out =s "incomplete"
             then out <| rr_IncompleteDetails :=
                    Some (MkResponsesIncompleteDetails "max_output_tokens") |>
             else out in
  let u := ar_Usage resp in
  out <| rr_Usage := Some (responsesUsageOf (au_InputTokens u) (au_OutputTokens u)
           (au_CacheReadInputTokens u) (au_CacheCreationInputTokens u)) |>.
End NonStreaming.

(** ** Streaming conversion: state *)

(** [AnthropicEventToResponsesState]. *)
Record AnthropicEventToResponsesState := MkAnthropicEventToResponsesState {
  ats_PreserveThinkingSignatures : bool;
  ats_ThinkingScope : string;
  ats_CurrentThinking : AnthropicContentBlock;
  ats_ThinkingEnvelopeOverflow : bool;
  ats_ResponseID : string;
  ats_Model : string;
  ats_Created : Z;
  ats_SequenceNumber : Z;
  ats_CreatedSent : bool;
  ats_CompletedSent : bool;
  ats_OutputIndex : Z;
  ats_CurrentItemID : string;
  ats_CurrentItemType : string;
  ats_ContentIndex : Z;
  ats_TextAccum : string;
  ats_CurrentContent : list ResponsesContentPart;
  ats_CurrentArgs : string;
  ats_InitialArgsPending : bool;
  ats_CurrentSummary : string;
  ats_Outputs : list ResponsesOutput;
  ats_CurrentCallID : string;
  ats_CurrentName : string;
  ats_InputTokens : Z;
  ats_OutputTokens : Z;
  ats_CacheReadInputTokens : Z;
  ats_CacheCreationInputTokens : Z;
  ats_StopReason : string
}.

#[export] Instance eta_AnthropicEventToResponsesState : Eta AnthropicEventToResponsesState := fun r =>
  MkAnthropicEventToResponsesState (ats_PreserveThinkingSignatures r) (ats_ThinkingScope r) (ats_CurrentThinking r) (ats_ThinkingEnvelopeOverflow r) (ats_ResponseID r) (ats_Model r) (ats_Created r) (ats_SequenceNumber r) (ats_CreatedSent r) (ats_CompletedSent r) (ats_OutputIndex r) (ats_CurrentItemID r) (ats_CurrentItemType r) (ats_ContentIndex r) (ats_TextAccum r) (ats_CurrentContent r) (ats_CurrentArgs r) (ats_InitialArgsPending r) (ats_CurrentSummary r) (ats_Outputs r) (ats_CurrentCallID r) (ats_CurrentName r) (ats_InputTokens r) (ats_OutputTokens r) (ats_CacheReadInputTokens r) (ats_CacheCreationInputTokens r) (ats_StopReason r).

Definition zero_AnthropicEventToResponsesState : AnthropicEventToResponsesState :=
  MkAnthropicEventToResponsesState false "" zero_AnthropicContentBlock false "" "" 0%Z 0%Z false false 0%Z "" "" 0%Z "" [] "" false "" [] "" "" 0%Z 0%Z 0%Z 0%Z "".

Definition NewAnthropicEventToResponsesState (now : Z) : AnthropicEventToResponsesState :=
  zero_AnthropicEventToResponsesState <| ats_Created := now |>.

Notation res_handler := (handler AnthropicEventToResponsesState ResponsesStreamEvent).

(** ** Event constructors *)

Definition makeResponsesEvent (eventType : string) (template : ResponsesStreamEvent) : res_handler :=
  fun state =>
    let seq := ats_SequenceNumber state in
    (state <| ats_SequenceNumber := (ats_SequenceNumber state + 1)%Z |>,
     [template <| rse_Type_ := eventType |> <| rse_SequenceNumber := seq |>]).

Definition makeResponsesCreatedEvent : res_handler := fun state =>
  let seq := ats_SequenceNumber state in
  (state <| ats_SequenceNumber := (ats_SequenceNumber state + 1)%Z |>,
   [zero_ResponsesStreamEvent
      <| rse_Type_ := "response.created" |>
      <| rse_SequenceNumber := seq |>
      <| rse_Response := Some (zero_ResponsesResponse
           <| rr_CreatedAt := ats_Created state |> <| rr_ID := ats_ResponseID state |>
           <| rr_Object := "response" |> <| rr_Model := ats_Model state |>
           <| rr_Status := "in_progress" |> <| rr_Output := [] |>) |>]).

Definition makeResponsesCompletedEvent (status : string)
    (incompleteDetails : option ResponsesIncompleteDetails) : res_handler := fun state =>
  let seq := ats_SequenceNumber state in
  let usage := responsesUsageOf (ats_InputTokens state) (ats_OutputTokens state)
                 (ats_CacheReadInputTokens state) (ats_CacheCreationInputTokens state) in
  let eventType := if status =s "incomplete" then "response.incomplete" else "response.completed" in
  (state <| ats_SequenceNumber := (ats_SequenceNumber state + 1)%Z |>,
   [zero_ResponsesStreamEvent
      <| rse_Type_ := eventType |>
      <| rse_SequenceNumber := seq |>
      <| rse_Response := Some (zero_ResponsesResponse
           <| rr_CreatedAt := ats_Created state |> <| rr_ID := ats_ResponseID state |>
           <| rr_Object := "response" |> <| rr_Model := ats_Model state |>
           <| rr_Status := status |> <| rr_Output := ats_Outputs state |>
           <| rr_Usage := Some usage |> <| rr_IncompleteDetails := incompleteDetails |>) |>]).

Definition anthropicResponsesStreamTerminalState (stopReason : string)
    : string * option ResponsesIncompleteDetails :=
  if stopReason =s "max_tokens"
  then ("incomplete", Some (MkResponsesIncompleteDetails "max_output_tokens"))
  else ("completed", None).

(** ** Closing the current item *)

Definition flushAnthropicInitialToolArguments : res_handler := reading (fun state =>
  if negb (ats_CurrentItemType state =s "function_call") || negb (ats_InitialArgsPending state)
  then skip else
  modify (fun state => state <| ats_InitialArgsPending := false |>) ;;
  if is_empty (ats_CurrentArgs state) then skip else
  makeResponsesEvent "response.function_call_arguments.delta" (zero_ResponsesStreamEvent
    <| rse_OutputIndex := ats_OutputIndex state |> <| rse_ItemID := ats_CurrentItemID state |>
    <| rse_CallID := ats_CurrentCallID state |> <| rse_Name := ats_CurrentName state |>
    <| rse_Delta := ats_CurrentArgs state |>))%handler.

(** The item that [closeCurrentResponsesItem] records. *)
Definition currentItem (state : AnthropicEventToResponsesState) : ResponsesOutput :=
  let itemType := ats_CurrentItemType state in
  let item := zero_ResponsesOutput <| ro_Type_ := itemType |>
    <| ro_ID := ats_CurrentItemID state |> <| ro_Status := "completed" |> in
  if itemType =s "message" then
    item <| ro_Role := "assistant" |> <| ro_Content := ats_CurrentContent state |>
  else if itemType =s "function_call" then
    item <| ro_CallID := ats_CurrentCallID state |> <| ro_Name := ats_CurrentName state |>
      <| ro_Arguments := if is_empty (ats_CurrentArgs state) then "{}" else ats_CurrentArgs state |>
  else if itemType =s "reasoning" then
    let item :=
      if ats_PreserveThinkingSignatures state && negb (ats_ThinkingEnvelopeOverflow state)
         && (negb (is_empty (acb_Signature (ats_CurrentThinking state)))
             || negb (is_empty (acb_Data (ats_CurrentThinking state))))
      then item <| ro_EncryptedContent := encodeAnthropicThinking (ats_CurrentThinking state)
                     (ats_ThinkingScope state) (ro_ID item) |>
      else item in
    if negb (is_empty (ats_CurrentSummary state))
    then item <| ro_Summary := [summary_text (ats_CurrentSummary state)] |> else item
  else item.

Definition resetCurrent (state : AnthropicEventToResponsesState) : AnthropicEventToResponsesState :=
  state
    <| ats_CurrentItemType := "" |>
    <| ats_CurrentItemID := "" |>
    <| ats_CurrentCallID := "" |>
    <| ats_CurrentName := "" |>
    <| ats_CurrentContent := [] |>
    <| ats_CurrentArgs := "" |>
    <| ats_InitialArgsPending := false |>
    <| ats_CurrentSummary := "" |>
    <| ats_CurrentThinking := zero_AnthropicContentBlock |>
    <| ats_TextAccum := "" |>
    <| ats_OutputIndex := (ats_OutputIndex state + 1)%Z |>
    <| ats_ContentIndex := 0%Z |>.

Definition recordItem : res_handler := reading (fun state =>
  let item := currentItem state in
  modify (fun state => resetCurrent (state <| ats_Outputs := ats_Outputs state ++ [item] |>)) ;;
  reading (fun state =>
    makeResponsesEvent "response.output_item.done" (zero_ResponsesStreamEvent
      <| rse_OutputIndex := (ats_OutputIndex state - 1)%Z |> <| rse_Item := Some item |>)))%handler.

Definition closeCurrentResponsesItem : res_handler := reading (fun state =>
  if is_empty (ats_CurrentItemType state) then skip else
  flushAnthropicInitialToolArguments ;; recordItem)%handler.

Section Streaming.
Variable unicode_lower : string -> string.

(** ** Handlers *)

Definition absorbStartUsage (u : AnthropicUsage) (state : AnthropicEventToResponsesState)
    : AnthropicEventToResponsesState :=
  let state := if (0 <? au_InputTokens u)%Z
               then state <| ats_InputTokens := au_InputTokens u |> else state in
  let state := if (0 <? au_CacheReadInputTokens u)%Z
               then state <| ats_CacheReadInputTokens := au_CacheReadInputTokens u |> else state in
  if (0 <? au_CacheCreationInputTokens u)%Z
  then state <| ats_CacheCreationInputTokens := au_CacheCreationInputTokens u |> else state.

Definition absorbStart (m : AnthropicResponse) (state : AnthropicEventToResponsesState)
    : AnthropicEventToResponsesState :=
  let state := state
    <| ats_PreserveThinkingSignatures :=
         ats_PreserveThinkingSignatures state || IsAdaptiveThinkingModel unicode_lower (ar_Model m) |>
    <| ats_ResponseID := ar_ID m |> in
  let state := if is_empty (ats_Model state) then state <| ats_Model := ar_Model m |> else state in
  absorbStartUsage (ar_Usage m) state.

Definition anthToResHandleMessageStart (evt : AnthropicStreamEvent) : res_handler :=
  (modify (fun state => match ase_Message evt with
                        | Some m => absorbStart m state
                        | None => state
                        end) ;;
   reading (fun state =>
     if ats_CreatedSent state then skip else
     modify (fun state => state <| ats_CreatedSent := true |>) ;;
     makeResponsesCreatedEvent))%handler.

Definition appendThinking (t : string) (state : AnthropicEventToResponsesState)
    : AnthropicEventToResponsesState :=
  if ats_PreserveThinkingSignatures state
     && (strlen (acb_Thinking (ats_CurrentThinking state)) + strlen t
           <=? maxAnthropicThinkingEnvelope)%Z
  then state <| ats_CurrentThinking := ats_CurrentThinking state
         <| acb_Thinking := acb_Thinking (ats_CurrentThinking state) +:+ t |> |>
  else if ats_PreserveThinkingSignatures state
  then state <| ats_ThinkingEnvelopeOverflow := true |> else state.

Definition appendSignature (t : string) (state : AnthropicEventToResponsesState)
    : AnthropicEventToResponsesState :=
  if ats_PreserveThinkingSignatures state
     && (strlen (acb_Signature (ats_CurrentThinking state)) + strlen t
           <=? maxAnthropicThinkingEnvelope)%Z
  then state <| ats_CurrentThinking := ats_CurrentThinking state
         <| acb_Signature := acb_Signature (ats_CurrentThinking state) +:+ t |> |>
  else if ats_PreserveThinkingSignatures state
  then state <| ats_ThinkingEnvelopeOverflow := true |> else state.

(** The cases of [anthToResHandleContentBlockDelta]. *)
Definition anthToResTextDelta (text : string) : res_handler :=
  (if is_empty text then skip else
   modify (fun state => state <| ats_TextAccum := ats_TextAccum state +:+ text |>) ;;
   reading (fun state =>
     makeResponsesEvent "response.output_text.delta" (zero_ResponsesStreamEvent
       <| rse_OutputIndex := ats_OutputIndex state |>
       <| rse_ContentIndex := ats_ContentIndex state |>
       <| rse_Delta := text |>
       <| rse_ItemID := ats_CurrentItemID state |>)))%handler.

Definition anthToResThinkingDelta (thinking : string) : res_handler :=
  (if is_empty thinking then skip else
   modify (fun state => appendThinking thinking
     (state <| ats_CurrentSummary := ats_CurrentSummary state +:+ thinking |>)) ;;
   reading (fun state =>
     makeResponsesEvent "response.reasoning_summary_text.delta" (zero_ResponsesStreamEvent
       <| rse_OutputIndex := ats_OutputIndex state |>
       <| rse_SummaryIndex := 0%Z |>
       <| rse_Delta := thinking |>
       <| rse_ItemID := ats_CurrentItemID state |>)))%handler.

Definition appendArgs (json : string) (state : AnthropicEventToResponsesState)
    : AnthropicEventToResponsesState :=
  let state := if ats_InitialArgsPending state
               then state <| ats_CurrentArgs := "" |> <| ats_InitialArgsPending := false |>
               else state in
  state <| ats_CurrentArgs := ats_CurrentArgs state +:+ json |>.

Definition anthToResArgsDelta (json : string) : res_handler :=
  (if is_empty json then skip else
   modify (appendArgs json) ;;
   reading (fun state =>
     makeResponsesEvent "response.function_call_arguments.delta" (zero_ResponsesStreamEvent
       <| rse_OutputIndex := ats_OutputIndex state |>
       <| rse_Delta := json |>
       <| rse_ItemID := ats_CurrentItemID state |>
       <| rse_CallID := ats_CurrentCallID state |>
       <| rse_Name := ats_CurrentName state |>)))%handler.

Definition anthToResHandleContentBlockDelta (evt : AnthropicStreamEvent) : res_handler :=
  match ase_Delta evt with
  | None => skip
  | Some d =>
    let ty := ad_Type_ d in
    if ty =s "text_delta" then anthToResTextDelta (ad_Text d)
    else if ty =s "thinking_delta" then anthToResThinkingDelta (ad_Thinking d)
    else if ty =s "input_json_delta" then anthToResArgsDelta (ad_PartialJSON d)
    else if ty =s "signature_delta" then modify (appendSignature (ad_Signature d))
    else skip
  end.

(** The cases of [anthToResHandleContentBlockStart]; [newID] is the identifier
    drawn for the item. *)
Definition openThinking (newID : string) (block : AnthropicContentBlock) : res_handler :=
  (closeCurrentResponsesItem ;;
   modify (fun state => state
     <| ats_ThinkingEnvelopeOverflow := false |>
     <| ats_CurrentThinking := block <| acb_Thinking := "" |> |>
     <| ats_CurrentItemID := newID |>
     <| ats_CurrentItemType := "reasoning" |>
     <| ats_ContentIndex := 0%Z |>) ;;
   reading (fun state =>
     makeResponsesEvent "response.output_item.added" (zero_ResponsesStreamEvent
       <| rse_OutputIndex := ats_OutputIndex state |>
       <| rse_Item := Some (zero_ResponsesOutput <| ro_Type_ := "reasoning" |>
            <| ro_ID := ats_CurrentItemID state |>) |>)) ;;
   if is_empty (acb_Thinking block) then skip else
   anthToResHandleContentBlockDelta (zero_AnthropicStreamEvent
     <| ase_Delta := Some (zero_AnthropicDelta <| ad_Type_ := "thinking_delta" |>
          <| ad_Thinking := acb_Thinking block |>) |>))%handler.

Definition openMessage (newID : string) : res_handler := reading (fun state =>
  if ats_CurrentItemType state =s "message" then skip else
  modify (fun state => state
    <| ats_CurrentItemID := newID |>
    <| ats_CurrentItemType := "message" |>
    <| ats_ContentIndex := 0%Z |>) ;;
  reading (fun state =>
    makeResponsesEvent "response.output_item.added" (zero_ResponsesStreamEvent
      <| rse_OutputIndex := ats_OutputIndex state |>
      <| rse_Item := Some (zero_ResponsesOutput <| ro_Type_ := "message" |>
           <| ro_ID := ats_CurrentItemID state |>
           <| ro_Role := "assistant" |> <| ro_Status := "in_progress" |>) |>)))%handler.

Definition openText (newID : string) (block : AnthropicContentBlock) : res_handler :=
  (openMessage newID ;;
   reading (fun state =>
     makeResponsesEvent "response.content_part.added" (zero_ResponsesStreamEvent
       <| rse_OutputIndex := ats_OutputIndex state |>
       <| rse_ContentIndex := ats_ContentIndex state |>
       <| rse_ItemID := ats_CurrentItemID state |>
       <| rse_Part := Some (output_text_part "") |>)) ;;
   modify (fun state => state <| ats_TextAccum := "" |>) ;;
   if is_empty (acb_Text block) then skip else
   anthToResHandleContentBlockDelta (zero_AnthropicStreamEvent
     <| ase_Delta := Some (zero_AnthropicDelta <| ad_Type_ := "text_delta" |>
          <| ad_Text := acb_Text block |>) |>))%handler.

Definition openToolUse (newID : string) (block : AnthropicContentBlock) : res_handler :=
  (closeCurrentResponsesItem ;;
   modify (fun state => state
     <| ats_CurrentItemID := newID |>
     <| ats_CurrentItemType := "function_call" |>
     <| ats_CurrentCallID := toResponsesCallID (acb_ID block) |>
     <| ats_CurrentName := acb_Name block |>
     <| ats_CurrentArgs := acb_Input block |>
     <| ats_InitialArgsPending := true |>) ;;
   reading (fun state =>
     makeResponsesEvent "response.output_item.added" (zero_ResponsesStreamEvent
       <| rse_OutputIndex := ats_OutputIndex state |>
       <| rse_Item := Some (zero_ResponsesOutput <| ro_Type_ := "function_call" |>
            <| ro_ID := ats_CurrentItemID state |>
            <| ro_CallID := ats_CurrentCallID state |>
            <| ro_Name := ats_CurrentName state |>
            <| ro_Status := "in_progress" |>) |>)))%handler.

Definition anthToResHandleContentBlockStart (newID : string) (evt : AnthropicStreamEvent)
    : res_handler :=
  match ase_ContentBlock evt with
  | None => skip
  | Some block =>
    let ty := acb_Type_ block in
    if (ty =s "thinking") || (ty =s "redacted_thinking") then openThinking newID block
    else if ty =s "text" then openText newID block
    else if ty =s "tool_use" then openToolUse newID block
    else skip
  end.

(** The cases of [anthToResHandleContentBlockStop]. *)
Definition stopReasoning : res_handler :=
  (reading (fun state =>
     makeResponsesEvent "response.reasoning_summary_text.done" (zero_ResponsesStreamEvent
       <| rse_OutputIndex := ats_OutputIndex state |>
       <| rse_SummaryIndex := 0%Z |>
       <| rse_ItemID := ats_CurrentItemID state |>
       <| rse_Text := ats_CurrentSummary state |>)) ;;
   closeCurrentResponsesItem)%handler.

Definition stopFunctionCall : res_handler := reading (fun state =>
  let arguments := if is_empty (ats_CurrentArgs state) then "{}" else ats_CurrentArgs state in
  flushAnthropicInitialToolArguments ;;
  reading (fun state =>
    makeResponsesEvent "response.function_call_arguments.done" (zero_ResponsesStreamEvent
      <| rse_OutputIndex := ats_OutputIndex state |>
      <| rse_ItemID := ats_CurrentItemID state |>
      <| rse_CallID := ats_CurrentCallID state |>
      <| rse_Name := ats_CurrentName state |>
      <| rse_Arguments := arguments |>)) ;;
  closeCurrentResponsesItem)%handler.

Definition stopMessagePart : res_handler := reading (fun state =>
  let text := ats_TextAccum state in
  let contentIndex := ats_ContentIndex state in
  modify (fun state => state
    <| ats_TextAccum := "" |>
    <| ats_CurrentContent := ats_CurrentContent state ++ [output_text_part text] |>) ;;
  reading (fun state =>
    makeResponsesEvent "response.output_text.done" (zero_ResponsesStreamEvent
      <| rse_OutputIndex := ats_OutputIndex state |>
      <| rse_ContentIndex := contentIndex |>
      <| rse_ItemID := ats_CurrentItemID state |>
      <| rse_Text := text |>)) ;;
  reading (fun state =>
    makeResponsesEvent "response.content_part.done" (zero_ResponsesStreamEvent
      <| rse_OutputIndex := ats_OutputIndex state |>
      <| rse_ContentIndex := contentIndex |>
      <| rse_ItemID := ats_CurrentItemID state |>
      <| rse_Part := Some (output_text_part text) |>)) ;;
  modify (fun state => state <| ats_ContentIndex := (ats_ContentIndex state + 1)%Z |>))%handler.

Definition anthToResHandleContentBlockStop : res_handler := reading (fun state =>
  if ats_CurrentItemType state =s "reasoning" then stopReasoning
  else if ats_CurrentItemType state =s "function_call" then stopFunctionCall
  else if ats_CurrentItemType state =s "message" then stopMessagePart
  else skip).

Definition absorbMessageDelta (evt : AnthropicStreamEvent) (state : AnthropicEventToResponsesState)
    : AnthropicEventToResponsesState :=
  let state :=
    match ase_Usage evt with
    | Some u => absorbStartUsage u (state <| ats_OutputTokens := au_OutputTokens u |>)
    | None => state
    end in
  match ase_Delta evt with
  | Some d => if is_empty (ad_StopReason d) then state
              else state <| ats_StopReason := ad_StopReason d |>
  | None => state
  end.

Definition anthToResHandleMessageDelta (evt : AnthropicStreamEvent) : res_handler :=
  modify (absorbMessageDelta evt).

(** The terminal events, shared by [message_stop] and the finalizer. *)
Definition terminate : res_handler :=
  (closeCurrentResponsesItem ;;
   reading (fun state =>
     let '(status, incompleteDetails) :=
       anthropicResponsesStreamTerminalState (ats_StopReason state) in
     makeResponsesCompletedEvent status incompleteDetails) ;;
   modify (fun state => state <| ats_CompletedSent := true |>))%handler.

Definition anthToResHandleMessageStop : res_handler := reading (fun state =>
  if ats_CompletedSent state then skip else terminate).

(** [AnthropicEventToResponsesEvents]. *)
Definition AnthropicEventToResponsesEvents (newID : string) (evt : AnthropicStreamEvent)
    : res_handler :=
  let ty := ase_Type_ evt in
  if ty =s "message_start" then anthToResHandleMessageStart evt
  else if ty =s "content_block_start" then anthToResHandleContentBlockStart newID evt
  else if ty =s "content_block_delta" then anthToResHandleContentBlockDelta evt
  else if ty =s "content_block_stop" then anthToResHandleContentBlockStop
  else if ty =s "message_delta" then anthToResHandleMessageDelta evt
  else if ty =s "message_stop" then anthToResHandleMessageStop
  else skip.

(** [FinalizeAnthropicResponsesStream]. *)
Definition FinalizeAnthropicResponsesStream : res_handler := reading (fun state =>
  if negb (ats_CreatedSent state) || ats_CompletedSent state then skip else terminate).

(** A whole stream, each event with the identifier drawn for it, and its
    finalizer. *)
Definition convertAnthropicStream (state : AnthropicEventToResponsesState)
    (evts : list (string * AnthropicStreamEvent))
    : AnthropicEventToResponsesState * list ResponsesStreamEvent :=
  let '(state, out) :=
    run (fun s e => AnthropicEventToResponsesEvents e.1 e.2 s) state evts in
  let '(state, final) := FinalizeAnthropicResponsesStream state in
  (state, out ++ final).
End Streaming.
