(* ===== verification/AnthropicToResponsesProofs.v ===== *)
(** * The Responses stream protocol, and that the converter follows it

    An abstract automaton of the Responses event protocol whose states carry
    the items, texts and arguments announced so far, and the proof that every
    well-formed Anthropic stream is converted into an accepted one; sequence
    numbers; token accounting; what truncated and extended streams do. *)

From S2P Require Import Prelude GoStrings GoJson GoCrypto ApiTypes ThinkingEnvelope.
From S2P Require Import ResponsesToAnthropic AnthropicToResponses.

#[export] Instance ResponsesContentPart_eq_dec : EqDecision ResponsesContentPart.
Proof. solve_decision. Defined.
#[export] Instance ResponsesSummary_eq_dec : EqDecision ResponsesSummary.
Proof. solve_decision. Defined.
#[export] Instance WebSearchAction_eq_dec : EqDecision WebSearchAction.
Proof. solve_decision. Defined.
#[export] Instance ResponsesOutput_eq_dec : EqDecision ResponsesOutput.
Proof. solve_decision. Defined.

(** ** The abstract protocol of Responses streams

    Every state carries the items completed so far; an open item carries its
    identifier and the text collected from its deltas. *)

Inductive resp_phase :=
  | RPre
  | RIdle (items : list ResponsesOutput)
  | RMsg (items : list ResponsesOutput) (id : string) (parts : list string)
  | RPart (items : list ResponsesOutput) (id : string) (parts : list string) (txt : string)
  | RPartDone (items : list ResponsesOutput) (id : string) (parts : list string) (txt : string)
  | RReason (items : list ResponsesOutput) (id txt : string) (ended : bool)
  | RCall (items : list ResponsesOutput) (id callID name args : string) (ended : bool)
  | RDone.

Definition at_index (e : ResponsesStreamEvent) (items : list ResponsesOutput) : bool :=
  (rse_OutputIndex e =? Z.of_nat (length items))%Z.

Definition at_item (e : ResponsesStreamEvent) (items : list ResponsesOutput) (id : string) : bool :=
  at_index e items && (rse_ItemID e =s id).

Definition at_part (e : ResponsesStreamEvent) (items : list ResponsesOutput) (id : string)
    (parts : list string) : bool :=
  at_item e items id && (rse_ContentIndex e =? Z.of_nat (length parts))%Z.

Definition guardq (b : bool) (q : resp_phase) : option resp_phase := if b then Some q else None.

Definition full_args (args : string) : string := if is_empty args then "{}" else args.

(** [output_item.done] must carry an item that satisfies [ok]. *)
Definition item_done (e : ResponsesStreamEvent) (items : list ResponsesOutput)
    (ok : ResponsesOutput -> bool) : option resp_phase :=
  match rse_Item e with
  | Some it =>
    guardq ((rse_Type_ e =s "response.output_item.done") && at_index e items && ok it)
           (RIdle (items ++ [it]))
  | None => None
  end.

Definition item_added (e : ResponsesStreamEvent) (items : list ResponsesOutput) : option resp_phase :=
  match rse_Item e with
  | Some it =>
    if negb (at_index e items) then None
    else if ro_Type_ it =s "message" then Some (RMsg items (ro_ID it) [])
    else if ro_Type_ it =s "reasoning" then Some (RReason items (ro_ID it) "" false)
    else if ro_Type_ it =s "function_call"
    then Some (RCall items (ro_ID it) (ro_CallID it) (ro_Name it) "" false)
    else None
  | None => None
  end.

Definition terminal_ok (e : ResponsesStreamEvent) (items : list ResponsesOutput) : bool :=
  ((rse_Type_ e =s "response.completed") || (rse_Type_ e =s "response.incomplete"))
  && match rse_Response e with
     | Some r => bool_decide (rr_Output r = items)
     | None => false
     end.

Definition resp_step (q : resp_phase) (e : ResponsesStreamEvent) : option resp_phase :=
  let ty := rse_Type_ e in
  match q with
  | RPre => guardq (ty =s "response.created") (RIdle [])
  | RIdle items =>
    if ty =s "response.output_item.added" then item_added e items
    else guardq (terminal_ok e items) RDone
  | RMsg items id parts =>
    if ty =s "response.content_part.added"
    then guardq (at_part e items id parts) (RPart items id parts "")
    else item_done e items (fun it => bool_decide (it = message_item id (map output_text_part parts)))
  | RPart items id parts txt =>
    if ty =s "response.output_text.delta"
    then guardq (at_part e items id parts) (RPart items id parts (txt +:+ rse_Delta e))
    else guardq ((ty =s "response.output_text.done") && at_part e items id parts && (rse_Text e =s txt))
                (RPartDone items id parts txt)
  | RPartDone items id parts txt =>
    guardq ((ty =s "response.content_part.done") && at_part e items id parts
            && bool_decide (rse_Part e = Some (output_text_part txt)))
           (RMsg items id (parts ++ [txt]))
  | RReason items id txt false =>
    if ty =s "response.reasoning_summary_text.delta"
    then guardq (at_item e items id) (RReason items id (txt +:+ rse_Delta e) false)
    else guardq ((ty =s "response.reasoning_summary_text.done") && at_item e items id
                 && (rse_Text e =s txt)) (RReason items id txt true)
  | RReason items id txt true =>
    item_done e items (fun it =>
      (ro_Type_ it =s "reasoning") && (ro_ID it =s id)
      && bool_decide (ro_Summary it = if is_empty txt then [] else [summary_text txt]))
  | RCall items id callID name args false =>
    let here := at_item e items id && (rse_CallID e =s callID) && (rse_Name e =s name) in
    if ty =s "response.function_call_arguments.delta"
    then guardq here (RCall items id callID name (args +:+ rse_Delta e) false)
    else guardq ((ty =s "response.function_call_arguments.done") && here
                 && (rse_Arguments e =s full_args args)) (RCall items id callID name args true)
  | RCall items id callID name args true =>
    item_done e items (fun it =>
      (ro_Type_ it =s "function_call") && (ro_ID it =s id) && (ro_CallID it =s callID)
      && (ro_Name it =s name) && (ro_Arguments it =s full_args args))
  | RDone => None
  end.

(** ** Well-formed Anthropic streams

    Blocks of the kinds the converter translates, each closed before the next
    starts, with deltas of the matching kind, inside one message. *)

Inductive src_phase := SPre | SBetween | SText | SThinking | STool | SStopped.

Definition block_kind (ty : string) : option src_phase :=
  if (ty =s "thinking") || (ty =s "redacted_thinking") then Some SThinking
  else if ty =s "text" then Some SText
  else if ty =s "tool_use" then Some STool
  else None.

Definition delta_kinds (q : src_phase) : list string :=
  match q with
  | SText => ["text_delta"; "citations_delta"]
  | SThinking => ["thinking_delta"; "signature_delta"]
  | STool => ["input_json_delta"]
  | _ => []
  end.

Definition src_step (q : src_phase) (e : AnthropicStreamEvent) : option src_phase :=
  let ty := ase_Type_ e in
  if ty =s "ping" then Some q else
  match q with
  | SPre => if ty =s "message_start" then Some SBetween else None
  | SBetween =>
    if ty =s "content_block_start" then
      match ase_ContentBlock e with Some b => block_kind (acb_Type_ b) | None => None end
    else if ty =s "message_delta" then Some SBetween
    else if ty =s "message_stop" then Some SStopped
    else None
  | SText | SThinking | STool =>
    if ty =s "content_block_delta" then
      match ase_Delta e with
      | Some d => if bool_decide (ad_Type_ d ∈ delta_kinds q) then Some q else None
      | None => None
      end
    else if ty =s "content_block_stop" then Some SBetween
    else None
  | SStopped => None
  end.

(** ** The simulation relation *)

Definition streaming (s : AnthropicEventToResponsesState) : Prop :=
  ats_CreatedSent s = true /\ ats_CompletedSent s = false /\
  ats_OutputIndex s = Z.of_nat (length (ats_Outputs s)).

(** Nothing is left over from an earlier item. *)
Definition no_call (s : AnthropicEventToResponsesState) : Prop :=
  ats_InitialArgsPending s = false.
Definition no_reasoning (s : AnthropicEventToResponsesState) : Prop :=
  ats_CurrentSummary s = "".
Definition no_content (s : AnthropicEventToResponsesState) : Prop :=
  ats_CurrentContent s = [].

Inductive conv_sim : src_phase -> AnthropicEventToResponsesState -> resp_phase -> Prop :=
  | sim_pre s :
      ats_CreatedSent s = false -> ats_CompletedSent s = false -> ats_OutputIndex s = 0%Z ->
      ats_Outputs s = [] -> ats_CurrentItemType s = "" ->
      no_call s -> no_reasoning s -> no_content s ->
      conv_sim SPre s RPre
  | sim_idle s :
      streaming s -> ats_CurrentItemType s = "" -> no_call s -> no_reasoning s -> no_content s ->
      conv_sim SBetween s (RIdle (ats_Outputs s))
  | sim_msg s parts :
      streaming s -> ats_CurrentItemType s = "message" -> no_call s -> no_reasoning s ->
      ats_CurrentContent s = map output_text_part parts ->
      ats_ContentIndex s = Z.of_nat (length parts) ->
      conv_sim SBetween s (RMsg (ats_Outputs s) (ats_CurrentItemID s) parts)
  | sim_part s parts :
      streaming s -> ats_CurrentItemType s = "message" -> no_call s -> no_reasoning s ->
      ats_CurrentContent s = map output_text_part parts ->
      ats_ContentIndex s = Z.of_nat (length parts) ->
      conv_sim SText s (RPart (ats_Outputs s) (ats_CurrentItemID s) parts (ats_TextAccum s))
  | sim_reason s :
      streaming s -> ats_CurrentItemType s = "reasoning" -> no_call s -> no_content s ->
      conv_sim SThinking s
        (RReason (ats_Outputs s) (ats_CurrentItemID s) (ats_CurrentSummary s) false)
  | sim_call s :
      streaming s -> ats_CurrentItemType s = "function_call" -> no_reasoning s -> no_content s ->
      conv_sim STool s
        (RCall (ats_Outputs s) (ats_CurrentItemID s) (ats_CurrentCallID s) (ats_CurrentName s)
           (if ats_InitialArgsPending s then "" else ats_CurrentArgs s) false)
  | sim_stopped s :
      ats_CompletedSent s = true -> conv_sim SStopped s RDone.

(** A handler from [s], in protocol state [p], keeps the relation. *)
Definition sim_step (q' : src_phase) (p : resp_phase)
    (r : AnthropicEventToResponsesState * list ResponsesStreamEvent) : Prop :=
  exists p', accepts resp_step p r.2 = Some p' /\ conv_sim q' r.1 p'.

Lemma sim_step_refl q s p : conv_sim q s p -> sim_step q p (s, []).
Proof. by exists p. Qed.

Lemma sim_step_then q1 q2 p h1 h2 s :
  sim_step q1 p (h1 s) ->
  (forall s1 p1, conv_sim q1 s1 p1 -> sim_step q2 p1 (h2 s1)) ->
  sim_step q2 p (andThen h1 h2 s).
Proof.
  unfold andThen. intros (p1 & A1 & C1) H2. destruct (h1 s) as [s1 o1]; simpl in *.
  destruct (H2 s1 p1 C1) as (p2 & A2 & C2). destruct (h2 s1) as [s2 o2]; simpl in *.
  exists p2. eauto with gateway.
Qed.

(** ** Tactics *)

Ltac run_handler :=
  unfold reading, andThen, modify, skip, makeResponsesEvent, makeResponsesCreatedEvent,
    makeResponsesCompletedEvent in *.

(** Single transitions of the protocol. *)
Section Transitions.
Context (items : list ResponsesOutput) (e : ResponsesStreamEvent).
Context (Hidx : rse_OutputIndex e = Z.of_nat (length items)).

Lemma at_index_true : at_index e items = true.
Proof using Hidx. unfold at_index. by rewrite Hidx, Z.eqb_refl. Qed.

Lemma at_item_true id : rse_ItemID e = id -> at_item e items id = true.
Proof using Hidx. intros <-. unfold at_item. by rewrite at_index_true, String.eqb_refl. Qed.

Lemma at_part_true id parts :
  rse_ItemID e = id -> rse_ContentIndex e = Z.of_nat (length parts) ->
  at_part e items id parts = true.
Proof using Hidx. intros H1 H2. unfold at_part. by rewrite at_item_true, H2, Z.eqb_refl. Qed.

Lemma added_message_step it :
  rse_Type_ e = "response.output_item.added" -> rse_Item e = Some it -> ro_Type_ it = "message" ->
  resp_step (RIdle items) e = Some (RMsg items (ro_ID it) []).
Proof using Hidx.
  intros H1 H2 H3. unfold resp_step, item_added. by rewrite H1, H2, at_index_true, H3.
Qed.

Lemma added_reasoning_step it :
  rse_Type_ e = "response.output_item.added" -> rse_Item e = Some it -> ro_Type_ it = "reasoning" ->
  resp_step (RIdle items) e = Some (RReason items (ro_ID it) "" false).
Proof using Hidx.
  intros H1 H2 H3. unfold resp_step, item_added. by rewrite H1, H2, at_index_true, H3.
Qed.

Lemma added_call_step it :
  rse_Type_ e = "response.output_item.added" -> rse_Item e = Some it -> ro_Type_ it = "function_call" ->
  resp_step (RIdle items) e = Some (RCall items (ro_ID it) (ro_CallID it) (ro_Name it) "" false).
Proof using Hidx.
  intros H1 H2 H3. unfold resp_step, item_added. by rewrite H1, H2, at_index_true, H3.
Qed.

Lemma message_done_step id parts it :
  rse_Type_ e = "response.output_item.done" -> rse_Item e = Some it ->
  it = message_item id (map output_text_part parts) ->
  resp_step (RMsg items id parts) e = Some (RIdle (items ++ [it])).
Proof using Hidx.
  intros H1 H2 H3. unfold resp_step, item_done. rewrite H1, H2, at_index_true.
  by rewrite (bool_decide_true _ H3).
Qed.

Lemma part_added_step id parts :
  rse_Type_ e = "response.content_part.added" -> rse_ItemID e = id ->
  rse_ContentIndex e = Z.of_nat (length parts) ->
  resp_step (RMsg items id parts) e = Some (RPart items id parts "").
Proof using Hidx. intros H1 H2 H3. unfold resp_step. by rewrite H1, at_part_true. Qed.

Lemma text_delta_step id parts txt :
  rse_Type_ e = "response.output_text.delta" -> rse_ItemID e = id ->
  rse_ContentIndex e = Z.of_nat (length parts) ->
  resp_step (RPart items id parts txt) e = Some (RPart items id parts (txt +:+ rse_Delta e)).
Proof using Hidx. intros H1 H2 H3. unfold resp_step. by rewrite H1, at_part_true. Qed.

Lemma text_done_step id parts txt :
  rse_Type_ e = "response.output_text.done" -> rse_ItemID e = id ->
  rse_ContentIndex e = Z.of_nat (length parts) -> rse_Text e = txt ->
  resp_step (RPart items id parts txt) e = Some (RPartDone items id parts txt).
Proof using Hidx.
  intros H1 H2 H3 H4. unfold resp_step. by rewrite H1, at_part_true, H4, !String.eqb_refl.
Qed.

Lemma part_done_step id parts txt :
  rse_Type_ e = "response.content_part.done" -> rse_ItemID e = id ->
  rse_ContentIndex e = Z.of_nat (length parts) -> rse_Part e = Some (output_text_part txt) ->
  resp_step (RPartDone items id parts txt) e = Some (RMsg items id (parts ++ [txt])).
Proof using Hidx.
  intros H1 H2 H3 H4. unfold resp_step. rewrite H1, at_part_true by done.
  by rewrite (bool_decide_true _ H4).
Qed.

Lemma reason_delta_step id txt :
  rse_Type_ e = "response.reasoning_summary_text.delta" -> rse_ItemID e = id ->
  resp_step (RReason items id txt false) e = Some (RReason items id (txt +:+ rse_Delta e) false).
Proof using Hidx. intros H1 H2. unfold resp_step. by rewrite H1, at_item_true. Qed.

Lemma reason_done_step id txt :
  rse_Type_ e = "response.reasoning_summary_text.done" -> rse_ItemID e = id -> rse_Text e = txt ->
  resp_step (RReason items id txt false) e = Some (RReason items id txt true).
Proof using Hidx.
  intros H1 H2 H3. unfold resp_step. by rewrite H1, at_item_true, H3, !String.eqb_refl.
Qed.

Lemma call_delta_step id callID name args :
  rse_Type_ e = "response.function_call_arguments.delta" -> rse_ItemID e = id ->
  rse_CallID e = callID -> rse_Name e = name ->
  resp_step (RCall items id callID name args false) e
  = Some (RCall items id callID name (args +:+ rse_Delta e) false).
Proof using Hidx.
  intros H1 H2 H3 H4. unfold resp_step. by rewrite H1, at_item_true, H3, H4, !String.eqb_refl.
Qed.

Lemma call_done_step id callID name args :
  rse_Type_ e = "response.function_call_arguments.done" -> rse_ItemID e = id ->
  rse_CallID e = callID -> rse_Name e = name -> rse_Arguments e = full_args args ->
  resp_step (RCall items id callID name args false) e = Some (RCall items id callID name args true).
Proof using Hidx.
  intros H1 H2 H3 H4 H5. unfold resp_step. by rewrite H1, at_item_true, H3, H4, H5, !String.eqb_refl.
Qed.
End Transitions.

Lemma terminal_step items e r :
  rse_Type_ e = "response.completed" \/ rse_Type_ e = "response.incomplete" ->
  rse_Response e = Some r -> rr_Output r = items ->
  resp_step (RIdle items) e = Some RDone.
Proof.
  intros H1 H2 H3. unfold resp_step, terminal_ok. rewrite H2, (bool_decide_true _ H3).
  destruct H1 as [-> | ->]; done.
Qed.

#[local] Arguments resp_step : simpl never.

(** Take one transition, its checks computed from the event's fields. *)
Ltac step_by L :=
  cbn [accepts app fst snd]; erewrite L by (cbn; (done || congruence)); cbn.

Lemma streaming_frame s s' :
  streaming s -> ats_CreatedSent s' = ats_CreatedSent s -> ats_CompletedSent s' = ats_CompletedSent s ->
  ats_OutputIndex s' = ats_OutputIndex s -> ats_Outputs s' = ats_Outputs s -> streaming s'.
Proof. unfold streaming. intros (?&?&?) -> -> -> ->. done. Qed.

(** Closing the item that is open between two blocks. *)
Lemma close_between s p :
  conv_sim SBetween s p ->
  exists p', accepts resp_step p (closeCurrentResponsesItem s).2 = Some p' /\
    conv_sim SBetween (closeCurrentResponsesItem s).1 p' /\
    ats_CurrentItemType (closeCurrentResponsesItem s).1 = "".
Proof.
  inversion 1 as [|? Hs Ht H1 H2 H3|? parts Hs Ht H1 H2 H3 H4| | | |]; subst;
    unfold closeCurrentResponsesItem, reading; rewrite Ht; cbn [is_empty String.eqb].
  - eexists. split; [reflexivity|]. split; [by constructor|done].
  - unfold flushAnthropicInitialToolArguments, recordItem, currentItem. run_handler.
    rewrite !Ht. cbn. rewrite Ht, H3. cbn. destruct Hs as (C1 & C2 & C3).
    eexists. split; [|split; [|reflexivity]].
    + cbn [accepts]. erewrite message_done_step; [reflexivity|cbn; lia|done..].
    + match goal with |- conv_sim _ ?s' (RIdle ?its) =>
        change its with (ats_Outputs s'); constructor end; try done.
      split_and!; cbn; [done..|]. rewrite length_app, C3. cbn. lia.
Qed.

(** Apply the constructor of the relation whose protocol state is the current
    one; the projections of the updated state are computed first. *)
Ltac sim_here C :=
  match goal with
  | |- conv_sim _ ?s _ =>
    let Hc := fresh "Hc" in
    pose proof (C s) as Hc;
    unfold streaming, no_call, no_reasoning, no_content in *; cbn in Hc;
    repeat match goal with
    | H : ats_CurrentSummary ?x = "" |- _ => rewrite H in Hc
    | H : ats_InitialArgsPending ?x = false |- _ => rewrite H in Hc
    end;
    apply Hc
  end.

Lemma closed_idle s p :
  conv_sim SBetween s p -> ats_CurrentItemType s = "" ->
  p = RIdle (ats_Outputs s) /\ streaming s /\ no_call s /\ no_reasoning s /\ no_content s.
Proof. inversion 1; subst; intros Ht; try congruence. done. Qed.

(** Deltas. *)
Lemma text_delta_sim s p t :
  conv_sim SText s p -> sim_step SText p (anthToResTextDelta t s).
Proof.
  intros Hsim. unfold anthToResTextDelta. case_test; [by apply sim_step_refl|].
  inversion Hsim; subst. pose proof H as (C1 & C2 & C3). run_handler. cbn.
  eexists. split; [step_by text_delta_step; reflexivity|]. by sim_here sim_part.
Qed.

Lemma appendThinking_frame t s :
  streaming s -> ats_CurrentItemType s = "reasoning" -> no_call s -> no_content s ->
  let s' := appendThinking t s in
  streaming s' /\ ats_CurrentItemType s' = "reasoning" /\ no_call s' /\ no_content s' /\
  ats_Outputs s' = ats_Outputs s /\ ats_CurrentItemID s' = ats_CurrentItemID s /\
  ats_CurrentSummary s' = ats_CurrentSummary s /\ ats_OutputIndex s' = ats_OutputIndex s.
Proof. cbn zeta; intros. unfold appendThinking. repeat case_test; split_and!; done. Qed.

Lemma appendSignature_frame t s :
  streaming s -> ats_CurrentItemType s = "reasoning" -> no_call s -> no_content s ->
  let s' := appendSignature t s in
  streaming s' /\ ats_CurrentItemType s' = "reasoning" /\ no_call s' /\ no_content s' /\
  ats_Outputs s' = ats_Outputs s /\ ats_CurrentItemID s' = ats_CurrentItemID s /\
  ats_CurrentSummary s' = ats_CurrentSummary s.
Proof. cbn zeta; intros. unfold appendSignature. repeat case_test; split_and!; done. Qed.

Lemma thinking_emit_sim items id sum t s1 :
  streaming s1 -> ats_CurrentItemType s1 = "reasoning" -> no_call s1 -> no_content s1 ->
  ats_Outputs s1 = items -> ats_CurrentItemID s1 = id -> ats_CurrentSummary s1 = sum +:+ t ->
  sim_step SThinking (RReason items id sum false)
    (makeResponsesEvent "response.reasoning_summary_text.delta" (zero_ResponsesStreamEvent
         <| rse_OutputIndex := ats_OutputIndex s1 |> <| rse_SummaryIndex := 0%Z |>
         <| rse_Delta := t |> <| rse_ItemID := ats_CurrentItemID s1 |>) s1).
Proof.
  intros Hs Ht H1 H2 E1 E2 E3. destruct Hs as (C1 & C2 & C3). subst items id.
  run_handler. cbn. eexists. split; [step_by reason_delta_step; reflexivity|].
  rewrite <- E3. by sim_here sim_reason.
Qed.

Lemma thinking_delta_sim s p t :
  conv_sim SThinking s p -> sim_step SThinking p (anthToResThinkingDelta t s).
Proof.
  intros Hsim. unfold anthToResThinkingDelta. case_test; [by apply sim_step_refl|].
  inversion Hsim as [| | | |? Hs Ht H1 H2| |]; subst. unfold andThen, modify, reading.
  pose (s0 := s <| ats_CurrentSummary := ats_CurrentSummary s +:+ t |>).
  destruct (appendThinking_frame t s0 Hs Ht H1 H2) as (K1 & K2 & K3 & K4 & K5 & K6 & K7 & K8).
  exact (thinking_emit_sim _ _ (ats_CurrentSummary s) t _ K1 K2 K3 K4 K5 K6 K7).
Qed.

Lemma signature_delta_sim s p t :
  conv_sim SThinking s p -> sim_step SThinking p (modify (appendSignature t) s).
Proof.
  inversion 1 as [| | | |? Hs Ht H1 H2| |]; subst.
  destruct (appendSignature_frame t s Hs Ht H1 H2) as (K1 & K2 & K3 & K4 & K5 & K6 & K7).
  eexists. split; [reflexivity|]. cbn. rewrite <- K5, <- K6, <- K7. by constructor.
Qed.

Lemma args_delta_sim s p j :
  conv_sim STool s p -> sim_step STool p (anthToResArgsDelta j s).
Proof.
  intros Hsim. unfold anthToResArgsDelta. case_test; [by apply sim_step_refl|].
  inversion Hsim as [| | | | |? Hs Ht H1 H2|]; subst. pose proof Hs as (C1 & C2 & C3).
  run_handler. unfold appendArgs. destruct (ats_InitialArgsPending s) eqn:Ep; cbn.
  - eexists. split; [step_by call_delta_step; reflexivity|].
    by sim_here sim_call.
  - eexists. split; [step_by call_delta_step; reflexivity|]. by sim_here sim_call.
Qed.

Lemma delta_sim evt d s q p :
  ase_Delta evt = Some d -> ad_Type_ d ∈ delta_kinds q -> conv_sim q s p ->
  sim_step q p (anthToResHandleContentBlockDelta evt s).
Proof.
  intros Ed Hin Hsim. unfold anthToResHandleContentBlockDelta. rewrite Ed.
  destruct q; cbn in Hin; try (by apply elem_of_nil in Hin);
    repeat (apply elem_of_cons in Hin as [Hin|Hin]); try (by apply elem_of_nil in Hin);
    rewrite Hin; cbn; eauto using text_delta_sim, thinking_delta_sim, signature_delta_sim,
      args_delta_sim, sim_step_refl.
Qed.

(** Blocks start. *)

(** After [closeCurrentResponsesItem] only the idle state remains. *)
Lemma close_then q p h s :
  conv_sim SBetween s p ->
  (forall s1, streaming s1 -> ats_CurrentItemType s1 = "" -> no_call s1 -> no_reasoning s1 ->
     no_content s1 -> sim_step q (RIdle (ats_Outputs s1)) (h s1)) ->
  sim_step q p (andThen closeCurrentResponsesItem h s).
Proof.
  intros Hsim Hh. destruct (close_between s p Hsim) as (p1 & A1 & C1 & T1).
  unfold andThen. destruct (closeCurrentResponsesItem s) as [s1 o1]; cbn [fst snd] in *.
  destruct (closed_idle _ _ C1 T1) as (-> & H1 & H2 & H3 & H4).
  destruct (Hh s1 H1 T1 H2 H3 H4) as (p2 & A2 & C2). destruct (h s1) as [s2 o2]; cbn [fst snd] in *.
  exists p2. eauto with gateway.
Qed.

Lemma openThinking_sim newID block s p :
  conv_sim SBetween s p -> sim_step SThinking p (openThinking newID block s).
Proof.
  intros Hsim. unfold openThinking. apply close_then; [done|].
  intros s1 Hs Ht H1 H2 H3. rewrite <- (andThen_assoc (modify _)).
  eapply sim_step_then.
  - pose proof Hs as (C1 & C2 & C3). run_handler. cbn.
    eexists. split; [step_by added_reasoning_step; reflexivity|]. 
    by sim_here sim_reason.
  - intros s2 p2 Hsim2. case_test; [by apply sim_step_refl|].
    by eapply delta_sim; [reflexivity|cbn; apply elem_of_cons; by left|].
Qed.

Lemma openMessage_sim newID s p :
  conv_sim SBetween s p ->
  exists parts s', (openMessage newID s).1 = s' /\
    streaming s' /\ ats_CurrentItemType s' = "message" /\ no_call s' /\ no_reasoning s' /\
    ats_CurrentContent s' = map output_text_part parts /\
    ats_ContentIndex s' = Z.of_nat (length parts) /\
    accepts resp_step p (openMessage newID s).2
      = Some (RMsg (ats_Outputs s') (ats_CurrentItemID s') parts).
Proof.
  inversion 1 as [|? Hs Ht H1 H2 H3|? parts Hs Ht H1 H2 H3 H4| | | |]; subst;
    unfold openMessage, reading; rewrite Ht; cbn [String.eqb Ascii.eqb Bool.eqb].
  - pose proof Hs as (C1 & C2 & C3). exists [], (openMessage newID s).1.
    unfold openMessage, reading; rewrite Ht; cbn [String.eqb]. run_handler. cbn.
    split_and!; try done. by step_by added_message_step.
  - exists parts, s. cbn. done.
Qed.

Lemma openText_sim newID block s p :
  conv_sim SBetween s p -> sim_step SText p (openText newID block s).
Proof.
  intros Hsim. destruct (openMessage_sim newID s p Hsim) as (parts & s' & E1 & Hs & Ht & H1 & H2 & H3 & H4 & A1).
  assert (Hpart : sim_step SText p (((openMessage newID ;;
     reading (fun state =>
       makeResponsesEvent "response.content_part.added" (zero_ResponsesStreamEvent
         <| rse_OutputIndex := ats_OutputIndex state |>
         <| rse_ContentIndex := ats_ContentIndex state |>
         <| rse_ItemID := ats_CurrentItemID state |>
         <| rse_Part := Some (output_text_part "") |>))) ;;
     modify (fun state => state <| ats_TextAccum := "" |>))%handler s)).
  { unfold andThen. destruct (openMessage newID s) as [s1 o1]; cbn [fst snd] in *. subst s1.
    pose proof Hs as (C1 & C2 & C3). run_handler. cbn. eexists. split.
    - rewrite app_nil_r. eapply accepts_app_Some; [exact A1|]. step_by part_added_step. reflexivity.
    - by sim_here sim_part. }
  unfold openText. rewrite <- !andThen_assoc.
  eapply sim_step_then; [exact Hpart|].
  intros s2 p2 Hsim2. case_test; [by apply sim_step_refl|].
  by eapply delta_sim; [reflexivity|cbn; apply elem_of_cons; by left|].
Qed.

Lemma openToolUse_sim newID block s p :
  conv_sim SBetween s p -> sim_step STool p (openToolUse newID block s).
Proof.
  intros Hsim. unfold openToolUse. apply close_then; [done|].
  intros s1 Hs Ht H1 H2 H3. pose proof Hs as (C1 & C2 & C3). run_handler. cbn.
  eexists. split; [step_by added_call_step; reflexivity|].
  by sim_here sim_call.
Qed.

(** Blocks end. *)

Lemma close_is_record s :
  is_empty (ats_CurrentItemType s) = false -> ats_InitialArgsPending s = false ->
  closeCurrentResponsesItem s = recordItem s.
Proof.
  intros H1 H2. unfold closeCurrentResponsesItem, flushAnthropicInitialToolArguments, reading at 1.
  rewrite H1. unfold andThen, reading at 1. rewrite H2, orb_true_r. cbn [skip].
  by destruct (recordItem s).
Qed.

Lemma recordItem_sim s p ok :
  streaming s -> (forall e, resp_step p e = item_done e (ats_Outputs s) ok) ->
  ok (currentItem s) = true -> sim_step SBetween p (recordItem s).
Proof.
  intros (C1 & C2 & C3) Hp Hok. unfold recordItem, reading. generalize (currentItem s) Hok.
  intros it Hit. run_handler. cbn. eexists. split.
  - cbn. rewrite Hp. unfold item_done, at_index, guardq. cbn.
    rewrite Hit, Z.add_simpl_r, C3, Z.eqb_refl. reflexivity.
  - match goal with |- conv_sim _ ?s' (RIdle ?its) =>
      change its with (ats_Outputs s'); constructor end; try done.
    split_and!; cbn; [done..|]. rewrite length_app, C3. cbn. lia.
Qed.

Lemma currentItem_reasoning s :
  ats_CurrentItemType s = "reasoning" ->
  ro_Type_ (currentItem s) = "reasoning" /\ ro_ID (currentItem s) = ats_CurrentItemID s /\
  ro_Summary (currentItem s)
    = if is_empty (ats_CurrentSummary s) then [] else [summary_text (ats_CurrentSummary s)].
Proof.
  intros Ht. unfold currentItem. rewrite Ht. cbn [String.eqb Ascii.eqb Bool.eqb]. cbn zeta.
  destruct (_ && _), (is_empty (ats_CurrentSummary s)); cbn; done.
Qed.

Lemma stopReasoning_sim s p :
  conv_sim SThinking s p -> sim_step SBetween p (anthToResHandleContentBlockStop s).
Proof.
  inversion 1 as [| | | |? Hs Ht H1 H2| |]; subst. pose proof Hs as (C1 & C2 & C3).
  unfold anthToResHandleContentBlockStop, reading at 1. rewrite Ht. cbn [String.eqb Ascii.eqb Bool.eqb].
  unfold stopReasoning, andThen, reading, makeResponsesEvent.
  match goal with |- context [closeCurrentResponsesItem ?s'] => set (s1 := s') end.
  rewrite close_is_record by (unfold s1; cbn; by rewrite ?Ht).
  destruct (recordItem_sim s1 (RReason (ats_Outputs s) (ats_CurrentItemID s) (ats_CurrentSummary s) true)
    (fun it => (ro_Type_ it =s "reasoning") && (ro_ID it =s ats_CurrentItemID s)
      && bool_decide (ro_Summary it = if is_empty (ats_CurrentSummary s) then []
                                      else [summary_text (ats_CurrentSummary s)])))
    as (p2 & A2 & S2); [done|done| |].
  { destruct (currentItem_reasoning s1 Ht) as (-> & -> & ->). unfold s1. cbn.
    rewrite String.eqb_refl. by rewrite bool_decide_true. }
  destruct (recordItem s1) as [s2 o2]; cbn [fst snd] in *.
  exists p2. split; [|done]. eapply (accepts_app_Some _ _ _ _ [_]); [|exact A2].
  by step_by reason_done_step.
Qed.

Lemma currentItem_call s :
  ats_CurrentItemType s = "function_call" ->
  ro_Type_ (currentItem s) = "function_call" /\ ro_ID (currentItem s) = ats_CurrentItemID s /\
  ro_CallID (currentItem s) = ats_CurrentCallID s /\ ro_Name (currentItem s) = ats_CurrentName s /\
  ro_Arguments (currentItem s) = full_args (ats_CurrentArgs s).
Proof. intros Ht. unfold currentItem. rewrite Ht. done. Qed.

Lemma flush_call s :
  ats_CurrentItemType s = "function_call" -> streaming s ->
  let s' := (flushAnthropicInitialToolArguments s).1 in
  accepts resp_step
    (RCall (ats_Outputs s) (ats_CurrentItemID s) (ats_CurrentCallID s) (ats_CurrentName s)
       (if ats_InitialArgsPending s then "" else ats_CurrentArgs s) false)
    (flushAnthropicInitialToolArguments s).2
  = Some (RCall (ats_Outputs s) (ats_CurrentItemID s) (ats_CurrentCallID s) (ats_CurrentName s)
       (ats_CurrentArgs s) false) /\
  ats_InitialArgsPending s' = false /\ ats_CurrentItemType s' = "function_call" /\ streaming s' /\
  ats_Outputs s' = ats_Outputs s /\ ats_CurrentItemID s' = ats_CurrentItemID s /\
  ats_CurrentCallID s' = ats_CurrentCallID s /\ ats_CurrentName s' = ats_CurrentName s /\
  ats_CurrentArgs s' = ats_CurrentArgs s.
Proof.
  intros Ht Hs. pose proof Hs as (C1 & C2 & C3). cbn zeta.
  unfold flushAnthropicInitialToolArguments, reading. rewrite Ht. cbn [String.eqb Ascii.eqb Bool.eqb negb orb].
  destruct (ats_InitialArgsPending s) eqn:Ep; cbn [negb]; [|split_and!; done].
  destruct (is_empty (ats_CurrentArgs s)) eqn:Ea; run_handler; cbn; split_and!; try done.
  - apply is_empty_true in Ea. by rewrite Ea.
  - by step_by call_delta_step.
Qed.

Lemma stopFunctionCall_sim s p :
  conv_sim STool s p -> sim_step SBetween p (anthToResHandleContentBlockStop s).
Proof.
  inversion 1 as [| | | | |? Hs Ht H1 H2|]; subst.
  unfold anthToResHandleContentBlockStop, reading at 1. rewrite Ht. cbn [String.eqb Ascii.eqb Bool.eqb].
  unfold stopFunctionCall, reading at 1, andThen.
  destruct (flush_call s Ht Hs) as (A1 & F1 & F2 & F3 & F4 & F5 & F6 & F7 & F8).
  destruct (flushAnthropicInitialToolArguments s) as [s0 o0]; cbn [fst snd] in *.
  pose proof F3 as (C1 & C2 & C3). unfold reading, makeResponsesEvent.
  match goal with |- context [closeCurrentResponsesItem ?s'] => set (s1 := s') end.
  rewrite close_is_record by (unfold s1; cbn; by rewrite ?F2).
  destruct (recordItem_sim s1 (RCall (ats_Outputs s) (ats_CurrentItemID s) (ats_CurrentCallID s)
      (ats_CurrentName s) (ats_CurrentArgs s) true)
    (fun it => (ro_Type_ it =s "function_call") && (ro_ID it =s ats_CurrentItemID s)
      && (ro_CallID it =s ats_CurrentCallID s) && (ro_Name it =s ats_CurrentName s)
      && (ro_Arguments it =s full_args (ats_CurrentArgs s))))
    as (p2 & A2 & S2); [done|by rewrite <- F4| |].
  { destruct (currentItem_call s1 F2) as (-> & -> & -> & -> & ->). unfold s1. cbn.
    rewrite F5, F6, F7, F8. by rewrite !String.eqb_refl. }
  destruct (recordItem s1) as [s2 o2]; cbn [fst snd] in *.
  exists p2. split; [|done]. eapply accepts_app_Some; [exact A1|].
  eapply (accepts_app_Some _ _ _ _ [_]); [|exact A2].
  by step_by call_done_step.
Qed.

Lemma stopMessagePart_sim s p :
  conv_sim SText s p -> sim_step SBetween p (anthToResHandleContentBlockStop s).
Proof.
  inversion 1 as [| | |? parts Hs Ht H1 H2 H3 H4| | |]; subst. pose proof Hs as (C1 & C2 & C3).
  unfold anthToResHandleContentBlockStop, reading at 1. rewrite Ht. cbn [String.eqb Ascii.eqb Bool.eqb].
  unfold stopMessagePart. run_handler. cbn. eexists. split; [step_by text_done_step; step_by part_done_step; reflexivity|].
  match goal with |- conv_sim _ ?s' _ => apply (sim_msg s'); try done; cbn end.
  - by rewrite H3, map_app.
  - rewrite length_app, H4. cbn. lia.
Qed.

(** ** Messages *)

(** States that differ only in usage, model and identifiers of the response. *)
Record same_item (s s' : AnthropicEventToResponsesState) : Prop := {
  si_created : ats_CreatedSent s' = ats_CreatedSent s;
  si_completed : ats_CompletedSent s' = ats_CompletedSent s;
  si_index : ats_OutputIndex s' = ats_OutputIndex s;
  si_outputs : ats_Outputs s' = ats_Outputs s;
  si_type : ats_CurrentItemType s' = ats_CurrentItemType s;
  si_id : ats_CurrentItemID s' = ats_CurrentItemID s;
  si_pending : ats_InitialArgsPending s' = ats_InitialArgsPending s;
  si_summary : ats_CurrentSummary s' = ats_CurrentSummary s;
  si_content : ats_CurrentContent s' = ats_CurrentContent s;
  si_part : ats_ContentIndex s' = ats_ContentIndex s
}.

#[export] Instance same_item_preorder : PreOrder same_item.
Proof.
  split; [by constructor|]. intros s1 s2 s3 [] []. constructor; congruence.
Qed.

Lemma conv_sim_same q s s' p :
  q = SPre \/ q = SBetween -> same_item s s' -> conv_sim q s p -> conv_sim q s' p.
Proof.
  intros Hq [F1 F2 F3 F4 F5 F6 F7 F8 F9 F10].
  inversion 1 as [|? Hs Ht H1 H2 H3|? parts Hs Ht H1 H2 H3 H4| | | |]; subst;
    try (by destruct Hq); unfold no_call, no_reasoning, no_content in *.
  - constructor; unfold no_call, no_reasoning, no_content; congruence.
  - rewrite <- F4. constructor; try (unfold no_call, no_reasoning, no_content; congruence).
    by apply (streaming_frame s).
  - rewrite <- F4, <- F6. constructor; try (unfold no_call, no_reasoning; congruence).
    by apply (streaming_frame s).
Qed.

Lemma absorbStartUsage_same u s : same_item s (absorbStartUsage u s).
Proof. unfold absorbStartUsage. repeat case_test; by constructor. Qed.

Lemma absorbStart_same ul m s : same_item s (absorbStart ul m s).
Proof.
  unfold absorbStart. cbn zeta. etransitivity; [|apply absorbStartUsage_same].
  case_test; by constructor.
Qed.

Lemma absorbMessageDelta_same evt s : same_item s (absorbMessageDelta evt s).
Proof.
  unfold absorbMessageDelta. cbn zeta.
  set (s1 := match ase_Usage evt with Some u => _ | None => s end).
  assert (Hf : same_item s s1).
  { subst s1. destruct (ase_Usage evt); [|done].
    etransitivity; [|apply absorbStartUsage_same]. by constructor. }
  etransitivity; [exact Hf|]. destruct (ase_Delta evt); [case_test|]; by constructor.
Qed.

Lemma messageStart_sim ul evt s p :
  conv_sim SPre s p -> sim_step SBetween p (anthToResHandleMessageStart ul evt s).
Proof.
  intros Hsim. unfold anthToResHandleMessageStart, andThen, modify, reading.
  set (s1 := match ase_Message evt with Some m => absorbStart ul m s | None => s end).
  assert (Hs1 : conv_sim SPre s1 p).
  { apply (conv_sim_same SPre s); [by left| |done]. subst s1.
    destruct (ase_Message evt); [apply absorbStart_same|done]. }
  clearbody s1. inversion Hs1 as [? G1 G2 G3 G4 G5 G6 G7 G8| | | | | |]; subst. rewrite G1.
  unfold makeResponsesCreatedEvent. cbn [fst snd app].
  eexists. split; [reflexivity|].
  match goal with |- conv_sim _ ?s' _ => pose proof (sim_idle s') as Hc end.
  cbn in Hc. rewrite G4 in Hc. apply Hc; try done. split_and!; cbn; try done. by rewrite G3, G4.
Qed.

Lemma messageDelta_sim evt s p :
  conv_sim SBetween s p -> sim_step SBetween p (anthToResHandleMessageDelta evt s).
Proof.
  intros Hsim. exists p. split; [done|].
  apply (conv_sim_same SBetween s); [by right|apply absorbMessageDelta_same|done].
Qed.

Lemma terminate_sim s p :
  conv_sim SBetween s p -> sim_step SStopped p (terminate s).
Proof.
  intros Hsim. unfold terminate. apply close_then; [done|].
  intros s1 (C1 & C2 & C3) Ht H1 H2 H3. unfold anthropicResponsesStreamTerminalState.
  run_handler; cbn beta. destruct (ats_StopReason s1 =s "max_tokens"); cbn.
  all: eexists; split; [cbn; erewrite terminal_step; [reflexivity|cbn; by auto|done|done]|by constructor].
Qed.

Lemma messageStop_sim s p :
  conv_sim SBetween s p -> sim_step SStopped p (anthToResHandleMessageStop s).
Proof.
  intros Hsim. unfold anthToResHandleMessageStop, reading.
  assert (ats_CompletedSent s = false) as -> by (inversion Hsim as [|? Hs|? ? Hs| | | |]; by destruct Hs as (?&?&?)).
  by apply terminate_sim.
Qed.

(** ** The whole dispatch *)

Lemma ping_sim ul newID e q s p :
  ase_Type_ e = "ping" -> conv_sim q s p -> sim_step q p (AnthropicEventToResponsesEvents ul newID e s).
Proof. intros E Hsim. unfold AnthropicEventToResponsesEvents. rewrite E. by apply sim_step_refl. Qed.

Lemma block_start_sim newID e b q s p :
  ase_ContentBlock e = Some b -> block_kind (acb_Type_ b) = Some q -> conv_sim SBetween s p ->
  sim_step q p (anthToResHandleContentBlockStart newID e s).
Proof.
  intros Eb Hk Hsim. unfold anthToResHandleContentBlockStart. rewrite Eb. cbn zeta.
  unfold block_kind in Hk. repeat case_test; simplify_eq;
    eauto using openThinking_sim, openText_sim, openToolUse_sim.
Qed.

(** Inside a block only its deltas and its stop are expected. *)
Lemma in_block_sim ul newID e q q' s p :
  (forall s p, conv_sim q s p -> sim_step SBetween p (anthToResHandleContentBlockStop s)) ->
  (if ase_Type_ e =s "content_block_delta" then
     match ase_Delta e with
     | Some d => if bool_decide (ad_Type_ d ∈ delta_kinds q) then Some q else None
     | None => None
     end
   else if ase_Type_ e =s "content_block_stop" then Some SBetween
   else None) = Some q' ->
  conv_sim q s p -> sim_step q' p (AnthropicEventToResponsesEvents ul newID e s).
Proof.
  intros Hstop Hq Hsim. unfold AnthropicEventToResponsesEvents. cbn zeta.
  destruct (String.eqb_spec (ase_Type_ e) "content_block_delta") as [->|_]; cbn.
  { destruct (ase_Delta e) eqn:Ed; [|done]. case_bool_decide; simplify_eq. by eapply delta_sim. }
  destruct (String.eqb_spec (ase_Type_ e) "content_block_stop") as [->|_]; [|done].
  simplify_eq. by apply Hstop.
Qed.

Lemma event_sim ul newID e q q' s p :
  src_step q e = Some q' -> conv_sim q s p ->
  sim_step q' p (AnthropicEventToResponsesEvents ul newID e s).
Proof.
  intros Hq Hsim. unfold src_step in Hq. cbn zeta in Hq.
  destruct (String.eqb_spec (ase_Type_ e) "ping") as [Et|_]; [simplify_eq; by apply ping_sim|].
  destruct q; try done.
  - unfold AnthropicEventToResponsesEvents. cbn zeta.
    destruct (ase_Type_ e =s "message_start") eqn:Et; simplify_eq. by apply messageStart_sim.
  - unfold AnthropicEventToResponsesEvents. cbn zeta.
    destruct (String.eqb_spec (ase_Type_ e) "content_block_start") as [->|_]; cbn.
    { destruct (ase_ContentBlock e) eqn:Eb; [|done]. by eapply block_start_sim. }
    destruct (String.eqb_spec (ase_Type_ e) "message_delta") as [->|_]; cbn.
    { simplify_eq. by apply messageDelta_sim. }
    destruct (String.eqb_spec (ase_Type_ e) "message_stop") as [->|_]; [|done].
    simplify_eq. by apply messageStop_sim.
  - by eapply in_block_sim; [apply stopMessagePart_sim| |].
  - by eapply in_block_sim; [apply stopReasoning_sim| |].
  - by eapply in_block_sim; [apply stopFunctionCall_sim| |].
Qed.

Lemma run_sim ul evts : forall q q' s p,
  accepts src_step q (map snd evts) = Some q' -> conv_sim q s p ->
  sim_step q' p (run (fun s e => AnthropicEventToResponsesEvents ul e.1 e.2 s) s evts).
Proof.
  induction evts as [|[id e] evts IH]; intros q q' s p Hq Hsim; simpl in Hq.
  - simplify_eq. by apply sim_step_refl.
  - destruct (src_step q e) as [q1|] eqn:E1; [|done]. cbn [run].
    destruct (event_sim ul id e q q1 s p E1 Hsim) as (p1 & A1 & C1). cbn [fst snd] in *.
    destruct (AnthropicEventToResponsesEvents ul id e s) as [s1 o1]; cbn [fst snd] in *.
    destruct (IH q1 q' s1 p1 Hq C1) as (p2 & A2 & C2).
    destruct (run _ s1 evts) as [s2 o2]; cbn [fst snd] in *. exists p2. eauto with gateway.
Qed.

Lemma new_state_sim now : conv_sim SPre (NewAnthropicEventToResponsesState now) RPre.
Proof. by constructor. Qed.

(** C14. Protocol translation: when the Anthropic stream is well formed up to a
    point between blocks (its last block is closed, with or without the final
    message_stop), the converted Responses stream with its finalizer is exactly
    one well-formed response: created first, items with consecutive output
    indices, content parts with consecutive content indices, every done event
    carrying the concatenation of its deltas, every completed item carrying its
    parts, summary or arguments, and one terminal event whose output is the
    list of completed items. *)
Theorem convertAnthropicStream_protocol unicode_lower now scope evts q :
  accepts src_step SPre (map snd evts) = Some q -> q = SBetween \/ q = SStopped ->
  accepts resp_step RPre
    (convertAnthropicStream unicode_lower
       (NewAnthropicEventToResponsesState now <| ats_ThinkingScope := scope |>) evts).2 = Some RDone.
Proof.
  intros Hq Hend. unfold convertAnthropicStream.
  destruct (run_sim unicode_lower evts SPre q
    (NewAnthropicEventToResponsesState now <| ats_ThinkingScope := scope |>) RPre Hq) as (p & A & C);
    [by constructor|].
  destruct (run _ _ evts) as [s1 o1]; cbn [fst snd] in *.
  unfold FinalizeAnthropicResponsesStream, reading. destruct Hend as [-> | ->].
  - assert (Hs : streaming s1) by (by inversion C). destruct Hs as (-> & -> & _). cbn [negb orb].
    destruct (terminate_sim s1 p C) as (p2 & A2 & C2). destruct (terminate s1) as [s2 o2].
    cbn [fst snd] in *. inversion C2; subst. eauto with gateway.
  - inversion C as [| | | | | |? Hd]; subst. rewrite Hd, orb_true_r. cbn. by rewrite app_nil_r.
Qed.

Definition src_ev (ty : string) : AnthropicStreamEvent := zero_AnthropicStreamEvent <| ase_Type_ := ty |>.

Definition src_start (block : AnthropicContentBlock) : AnthropicStreamEvent :=
  src_ev "content_block_start" <| ase_ContentBlock := Some block |>.

Definition src_text (t : string) : AnthropicStreamEvent :=
  src_ev "content_block_delta" <| ase_Delta := Some (zero_AnthropicDelta
    <| ad_Type_ := "text_delta" |> <| ad_Text := t |>) |>.

Definition src_json (t : string) : AnthropicStreamEvent :=
  src_ev "content_block_delta" <| ase_Delta := Some (zero_AnthropicDelta
    <| ad_Type_ := "input_json_delta" |> <| ad_PartialJSON := t |>) |>.

Definition block_of (ty : string) : AnthropicContentBlock :=
  zero_AnthropicContentBlock <| acb_Type_ := ty |>.

Definition wit_anthropic : list (string * AnthropicStreamEvent) :=
  [("", src_ev "message_start"); ("i0", src_start (block_of "text")); ("", src_text "Hel");
   ("", src_text "lo"); ("", src_ev "content_block_stop");
   ("i1", src_start (block_of "tool_use" <| acb_ID := "t" |> <| acb_Name := "f" |>));
   ("", src_json "{}"); ("", src_ev "content_block_stop");
   ("", src_ev "message_delta"); ("", src_ev "message_stop")].

Lemma convertAnthropicStream_protocol_witness :
  accepts resp_step RPre
    (convertAnthropicStream (fun s => s)
       (NewAnthropicEventToResponsesState 7 <| ats_ThinkingScope := "k" |>) wit_anthropic).2 = Some RDone.
Proof.
  apply (convertAnthropicStream_protocol (fun s => s) 7 "k" wit_anthropic SStopped);
    [vm_compute; reflexivity | right; reflexivity].
Defined.

(** ** Sequence numbers *)

#[export] Instance anthropic_numbered
    : Numbered AnthropicEventToResponsesState ResponsesStreamEvent :=
  { next_number := ats_SequenceNumber; number_of := rse_SequenceNumber }.

Lemma numbers_event ty t : numbers (makeResponsesEvent ty t).
Proof. intros s; cbn. split; [lia|done]. Qed.

Lemma numbers_created : numbers makeResponsesCreatedEvent.
Proof. intros s; cbn. split; [lia|done]. Qed.

Lemma numbers_completed st d : numbers (makeResponsesCompletedEvent st d).
Proof. intros s; cbn. split; [lia|done]. Qed.

#[export] Hint Resolve numbers_event numbers_created numbers_completed : numbering.

Lemma numbers_close : numbers closeCurrentResponsesItem.
Proof.
  unfold closeCurrentResponsesItem, flushAnthropicInitialToolArguments, recordItem.
  walk_numbers; done.
Qed.

#[export] Hint Resolve numbers_close : numbering.

Lemma appendThinking_seq t s : ats_SequenceNumber (appendThinking t s) = ats_SequenceNumber s.
Proof. unfold appendThinking. by repeat case_test. Qed.

Lemma appendSignature_seq t s : ats_SequenceNumber (appendSignature t s) = ats_SequenceNumber s.
Proof. unfold appendSignature. by repeat case_test. Qed.

Lemma absorbStartUsage_seq u s : ats_SequenceNumber (absorbStartUsage u s) = ats_SequenceNumber s.
Proof. unfold absorbStartUsage. by repeat case_test. Qed.

Lemma numbers_delta evt : numbers (anthToResHandleContentBlockDelta evt).
Proof.
  unfold anthToResHandleContentBlockDelta, anthToResTextDelta, anthToResThinkingDelta, anthToResArgsDelta.
  cbn zeta. walk_numbers; try done.
  - cbn. by rewrite appendThinking_seq.
  - unfold appendArgs. by case_test.
  - apply appendSignature_seq.
Qed.

#[export] Hint Resolve numbers_delta : numbering.

Lemma numbers_events ul newID evt : numbers (AnthropicEventToResponsesEvents ul newID evt).
Proof.
  unfold AnthropicEventToResponsesEvents, anthToResHandleMessageStart,
    anthToResHandleContentBlockStart, openThinking, openText, openMessage, openToolUse,
    anthToResHandleContentBlockStop, stopReasoning, stopFunctionCall, stopMessagePart,
    anthToResHandleMessageDelta, anthToResHandleMessageStop, terminate,
    flushAnthropicInitialToolArguments.
  cbn zeta. walk_numbers; try done.
  - destruct (ase_Message evt); [|done]. unfold absorbStart. cbn -[absorbStartUsage].
    rewrite absorbStartUsage_seq. by case_test.
  - unfold absorbMessageDelta. cbn -[absorbStartUsage]. destruct (ase_Usage evt), (ase_Delta evt);
      repeat case_test; cbn; by rewrite ?absorbStartUsage_seq.
Qed.

Lemma numbers_finalize : numbers FinalizeAnthropicResponsesStream.
Proof.
  unfold FinalizeAnthropicResponsesStream, terminate.
  walk_numbers; done.
Qed.

(** Sequence numbers: for every sequence of Anthropic events, well formed
    or not, the events of the converted stream are numbered 0, 1, 2, ... in the
    order they are emitted, finalizer included. *)
Theorem convertAnthropicStream_sequence unicode_lower now scope evts :
  let out := (convertAnthropicStream unicode_lower
    (NewAnthropicEventToResponsesState now <| ats_ThinkingScope := scope |>) evts).2 in
  map rse_SequenceNumber out = seqZ 0 (Z.of_nat (length out)).
Proof.
  exact (proj2 (numbers_then _ _ (numbers_run
    (fun e => AnthropicEventToResponsesEvents unicode_lower e.1 e.2) evts
    (fun e => numbers_events unicode_lower e.1 e.2)) numbers_finalize
    (NewAnthropicEventToResponsesState now <| ats_ThinkingScope := scope |>))).
Qed.

(** ** Token accounting *)

(** Usage round trip: the token counts of an Anthropic response survive the
    translation to Responses usage (where cached tokens are part of the input)
    and back, as long as they are not negative and their sum fits an int64. *)
Theorem usage_roundtrip input output cacheRead cacheCreation :
  (0 <= input)%Z -> (0 <= cacheRead)%Z -> (0 <= cacheCreation)%Z ->
  (input + cacheRead + cacheCreation <= max_int64)%Z ->
  anthropicUsageFromResponsesUsage (Some (responsesUsageOf input output cacheRead cacheCreation))
  = MkAnthropicUsage input output cacheCreation cacheRead.
Proof.
  intros H1 H2 H3 H4. unfold max_int64 in H4.
  assert (Hin : forall z, (0 <= z < 2 ^ 63)%Z -> in_int64 z).
  { intros z Hz. unfold in_int64, min_int64, max_int64. lia. }
  unfold responsesUsageOf, anthropicUsageFromResponsesUsage.
  rewrite (wrap64_id (input + cacheRead)) by (apply Hin; lia).
  rewrite (wrap64_id (input + cacheRead + cacheCreation)) by (apply Hin; lia).
  destruct (Z.ltb_spec 0 cacheRead); cbn.
  - rewrite (wrap64_id (_ - cacheRead)) by (apply Hin; lia).
    rewrite wrap64_id by (apply Hin; lia).
    destruct (Z.ltb_spec (input + cacheRead + cacheCreation - cacheRead - cacheCreation) 0); [lia|].
    unfold zero_AnthropicUsage, field_update; cbn. f_equal. lia.
  - replace cacheRead with 0%Z by lia.
    rewrite (wrap64_id (_ - 0)) by (apply Hin; lia).
    rewrite wrap64_id by (apply Hin; lia).
    destruct (Z.ltb_spec (input + 0 + cacheCreation - 0 - cacheCreation) 0); [lia|].
    unfold zero_AnthropicUsage, field_update; cbn. f_equal. lia.
Qed.

(** ** Streams that are cut or extended *)


(** A block of a kind the converter does not translate disturbs the message
    before it: after a text block, a server_tool_use block emits argument deltas
    of a function call that was never announced, and its stop ends a content
    part that was never added, which stays in the message as an empty part. *)
Theorem untranslated_block_corrupts_message :
  let r := convertAnthropicStream (fun s => s) (NewAnthropicEventToResponsesState 0)
    [("", src_ev "message_start"); ("i0", src_start (block_of "text")); ("", src_text "Hi");
     ("", src_ev "content_block_stop"); ("i1", src_start (block_of "server_tool_use"));
     ("", src_json "{}"); ("", src_ev "content_block_stop"); ("", src_ev "message_stop")] in
  accepts resp_step RPre r.2 = None /\
  map rse_Type_ (take 3 (drop 6 r.2)) = ["response.function_call_arguments.delta";
    "response.output_text.done"; "response.content_part.done"] /\
  (last r.2 ≫= rse_Response) ≫= (fun x => Some (rr_Output x))
    = Some [message_item "i0" [output_text_part "Hi"; output_text_part ""]].
Proof. vm_compute. split_and!; reflexivity. Qed.

(** ** There and back *)

Definition block_text (b : AnthropicContentBlock) : string :=
  if acb_Type_ b =s "text" then acb_Text b else "".

Definition texts (bs : list AnthropicContentBlock) : string :=
  foldr (fun b acc => block_text b +:+ acc) "" bs.

Definition tool_of (b : AnthropicContentBlock) : list (string * string * string) :=
  if acb_Type_ b =s "tool_use" then [(acb_ID b, acb_Name b, acb_Input b)] else [].

Definition tools (bs : list AnthropicContentBlock) : list (string * string * string) :=
  flat_map tool_of bs.

(** What a tool call looks like after the round trip. *)
Definition normalized_tool (t : string * string * string) : string * string * string :=
  (fromResponsesCallID t.1.1, t.1.2, sanitizeAnthropicToolUseInput t.1.2 (full_args t.2)).

Lemma texts_app l1 l2 : texts (l1 ++ l2) = texts l1 +:+ texts l2.
Proof.
  induction l1 as [|b l1 IH]; [done|]. simpl. by rewrite IH, str_app_assoc.
Qed.

Lemma tools_app l1 l2 : tools (l1 ++ l2) = tools l1 ++ tools l2.
Proof. apply flat_map_app. Qed.

Definition items_blocks (items : list ResponsesOutput) : list AnthropicContentBlock :=
  flat_map responsesItemToAnthropicBlocks items.

Lemma items_blocks_app l1 l2 : items_blocks (l1 ++ l2) = items_blocks l1 ++ items_blocks l2.
Proof. apply flat_map_app. Qed.

Definition part_texts (ps : list ResponsesContentPart) : string :=
  texts (items_blocks [message_item "" ps]).

#[local] Arguments is_empty : simpl never.

Lemma reasoning_blocks it :
  ro_Type_ it = "reasoning" -> texts (items_blocks [it]) = "" /\ tools (items_blocks [it]) = [].
Proof.
  intros Ht. unfold items_blocks, flat_map, responsesItemToAnthropicBlocks. rewrite Ht. cbn.
  by destruct (_ || _).
Qed.

Lemma message_blocks_tools id ps : tools (items_blocks [message_item id ps]) = [].
Proof.
  unfold items_blocks, tools. cbn. rewrite app_nil_r.
  induction ps as [|p ps IH]; cbn; [done|]. rewrite flat_map_app, IH.
  by destruct (_ && _).
Qed.

Lemma part_texts_snoc ps t : part_texts (ps ++ [output_text_part t]) = part_texts ps +:+ t.
Proof.
  unfold part_texts, items_blocks. cbn. rewrite !app_nil_r, flat_map_app, texts_app. f_equal.
  cbn. destruct (is_empty t) eqn:E; unfold texts; cbn; unfold block_text; cbn.
  - apply is_empty_true in E. by subst.
  - by rewrite str_app_nil_r.
Qed.

(** The blocks read back from the items converted so far, and the parts still to
    be put into the closing message, carry the texts and calls read so far. *)
Definition conv_ok (adaptive : bool) (bs : list AnthropicContentBlock) (acc : conv_acc) : Prop :=
  let '(outputs, parts, _) := acc in
  texts (items_blocks outputs) +:+ part_texts parts = texts bs /\
  tools (items_blocks outputs) = map normalized_tool (tools bs) /\
  (if adaptive then parts = [] else texts (items_blocks outputs) = "").

(** An item that carries the block's text or call, and nothing else. *)
Lemma conv_ok_item adaptive bs b outputs parts k k' it :
  conv_ok adaptive bs (outputs, parts, k) ->
  texts (items_blocks [it]) = block_text b ->
  tools (items_blocks [it]) = map normalized_tool (tool_of b) ->
  (adaptive = false -> block_text b = "") ->
  conv_ok adaptive (bs ++ [b]) (outputs ++ [it], parts, k').
Proof.
  intros (H1 & H2 & H3) E1 E2 E3. unfold conv_ok.
  rewrite !items_blocks_app, !texts_app, !tools_app, map_app, <- H1, H2, E1, E2.
  cbn [tools flat_map texts foldr]. rewrite str_app_nil_r, app_nil_r. destruct adaptive.
  - rewrite H3. cbn. rewrite !str_app_nil_r. done.
  - rewrite H3, E3 by done. cbn. by rewrite !str_app_nil_r.
Qed.

(** A block that leaves no trace. *)
Lemma conv_ok_drop adaptive bs b acc :
  conv_ok adaptive bs acc -> block_text b = "" -> tool_of b = [] -> conv_ok adaptive (bs ++ [b]) acc.
Proof.
  destruct acc as [[outputs parts] k]. intros (H1 & H2 & H3) E1 E2. unfold conv_ok.
  rewrite texts_app, tools_app, map_app. cbn [tools flat_map texts foldr]. rewrite E1, E2.
  cbn [app map String.append]. rewrite str_app_nil_r, app_nil_r. done.
Qed.

Lemma block_text_other b ty : acb_Type_ b = ty -> ty <> "text" -> block_text b = "".
Proof. intros E H. unfold block_text. destruct (String.eqb_spec (acb_Type_ b) "text"); congruence. Qed.

Lemma tool_of_other b ty : acb_Type_ b = ty -> ty <> "tool_use" -> tool_of b = [].
Proof. intros E H. unfold tool_of. destruct (String.eqb_spec (acb_Type_ b) "tool_use"); congruence. Qed.

Lemma convertBlock_ok ul itemID model scope bs acc b :
  conv_ok (IsAdaptiveThinkingModel ul model) bs acc ->
  conv_ok (IsAdaptiveThinkingModel ul model) (bs ++ [b]) (convertBlock ul itemID model scope acc b).
Proof.
  intros Hok. destruct acc as [[outputs parts] k]. unfold convertBlock. cbn zeta.
  destruct ((acb_Type_ b =s "thinking") || (acb_Type_ b =s "redacted_thinking")) eqn:Et.
  { assert (Hb : block_text b = "" /\ tool_of b = []).
    { apply orb_true_iff in Et as [E|E]; apply String.eqb_eq in E; split;
        (by eapply block_text_other) || by eapply tool_of_other. }
    destruct Hb as [Hb1 Hb2]. case_test; [|case_test].
    - eapply conv_ok_item; [done|rewrite Hb1|rewrite Hb2|done]; case_test; by apply reasoning_blocks.
    - eapply conv_ok_item; [done|rewrite Hb1|rewrite Hb2|done]; by apply reasoning_blocks.
    - by apply conv_ok_drop. }
  destruct (String.eqb_spec (acb_Type_ b) "text") as [Ex|Nx].
  { assert (Hb1 : block_text b = acb_Text b) by (unfold block_text; by rewrite Ex).
    assert (Hb2 : tool_of b = []) by (by eapply tool_of_other).
    destruct (is_empty (acb_Text b)) eqn:Ee; rewrite ?andb_false_r, ?andb_true_r; cbn [negb].
    { apply conv_ok_drop; [done| |done]. apply is_empty_true in Ee. by rewrite Hb1. }
    destruct (IsAdaptiveThinkingModel ul model) eqn:Ea.
    - eapply conv_ok_item; [done| | |done].
      + rewrite Hb1. cbn. rewrite Ee. unfold texts; cbn; unfold block_text; cbn. by rewrite str_app_nil_r.
      + rewrite Hb2. apply message_blocks_tools.
    - destruct Hok as (H1 & H2 & H3). unfold conv_ok.
      rewrite part_texts_snoc, texts_app, tools_app, map_app, <- H1, H2.
      cbn [tools flat_map texts foldr]. rewrite Hb1, Hb2, str_app_nil_r, str_app_assoc.
      cbn [app map]. by rewrite app_nil_r. }
  destruct (String.eqb_spec (acb_Type_ b) "tool_use") as [Eu|Nu].
  - assert (Hb1 : block_text b = "") by (by eapply block_text_other).
    eapply conv_ok_item; [done|by rewrite Hb1| |done].
    unfold tool_of. rewrite Eu. cbn. unfold normalized_tool, full_args, toResponsesCallID. cbn.
    unfold strlen, is_empty. by destruct (acb_Input b).
  - apply conv_ok_drop; [done|by eapply block_text_other|by eapply tool_of_other].
Qed.

Lemma convertBlocks_ok ul itemID model scope bs :
  conv_ok (IsAdaptiveThinkingModel ul model) bs
    (foldl (convertBlock ul itemID model scope) ([], [], 0) bs).
Proof.
  induction bs as [|b bs IH] using rev_ind.
  - cbn. split_and!; [done..|]. by destruct (IsAdaptiveThinkingModel ul model).
  - rewrite foldl_snoc. by apply convertBlock_ok.
Qed.

Lemma convertOutputs_ok ul itemID model scope bs :
  let outs := convertOutputs ul itemID model scope bs in
  texts (items_blocks outs) = texts bs /\
  tools (items_blocks outs) = map normalized_tool (tools bs).
Proof.
  cbn zeta. unfold convertOutputs. pose proof (convertBlocks_ok ul itemID model scope bs) as H.
  destruct (foldl _ _ bs) as [[outputs parts] k]. destruct H as (H1 & H2 & _).
  assert (Hm : forall id ps, texts (items_blocks [message_item id ps]) = part_texts ps) by done.
  destruct parts as [|part parts].
  - cbn [part_texts] in H1. change (part_texts []) with "" in H1. rewrite str_app_nil_r in H1.
    destruct outputs; [|done]. split; [by rewrite <- H1|by rewrite <- H2].
  - destruct (outputs ++ _) as [|o os] eqn:Eo; [by destruct outputs|]. rewrite <- Eo.
    rewrite items_blocks_app, texts_app, tools_app, Hm, message_blocks_tools, app_nil_r. done.
Qed.

Lemma tools_nonempty bs :
  containsAnthropicToolUseBlock bs = match tools bs with [] => false | _ => true end.
Proof.
  induction bs as [|b bs IH]; [done|].
  cbn [containsAnthropicToolUseBlock tools flat_map]. unfold tool_of at 1.
  by destruct (acb_Type_ b =s "tool_use").
Qed.

(** The empty text block that stands for no blocks changes nothing. *)
Lemma or_empty_block bs :
  let bs' := match bs with
             | [] => [zero_AnthropicContentBlock <| acb_Type_ := "text" |> <| acb_Text := "" |>]
             | _ => bs end in
  texts bs' = texts bs /\ tools bs' = tools bs.
Proof. by destruct bs. Qed.

