(* ===== verification/Idempotency.v ===== *)
(** * Idempotent execution of write requests

    [service/idempotency.go] and [repository/idempotency_repo.go]: the
    coordinator that runs a request at most once per idempotency key and replays
    its stored response, over a table with a unique index.  [Execute] is a
    program whose calls to the repository, the clock and the wrapped operation
    are explicit, so that any number of requests can be interleaved call by
    call; each repository call is one SQL statement and therefore atomic. *)

From stdpp Require Import sorting.
From S2P Require Import Prelude GoStrings GoJson GoCrypto.

(** ** Data *)

Definition IdempotencyStatusProcessing : string := "processing".
Definition IdempotencyStatusSucceeded : string := "succeeded".
Definition IdempotencyStatusFailedRetryable : string := "failed_retryable".

(** [IdempotencyRecord]: a row of the table [idempotency_records].  Times are
    nanoseconds on one clock. *)
Record IdempotencyRecord := MkIdempotencyRecord {
  ir_ID : Z;
  ir_Scope : string;
  ir_IdempotencyKeyHash : string;
  ir_RequestFingerprint : string;
  ir_Status : string;
  ir_ResponseStatus : option Z;
  ir_ResponseBody : option string;
  ir_ErrorReason : option string;
  ir_LockedUntil : option Z;
  ir_ExpiresAt : Z;
  ir_CreatedAt : Z;
  ir_UpdatedAt : Z
}.

#[export] Instance eta_IdempotencyRecord : Eta IdempotencyRecord := fun r =>
  MkIdempotencyRecord (ir_ID r) (ir_Scope r) (ir_IdempotencyKeyHash r) (ir_RequestFingerprint r) (ir_Status r) (ir_ResponseStatus r) (ir_ResponseBody r) (ir_ErrorReason r) (ir_LockedUntil r) (ir_ExpiresAt r) (ir_CreatedAt r) (ir_UpdatedAt r).

Definition zero_IdempotencyRecord : IdempotencyRecord :=
  MkIdempotencyRecord 0%Z "" "" "" "" None None None None 0%Z 0%Z 0%Z.

(** [IdempotencyConfig]; durations are nanoseconds. *)
Record IdempotencyConfig := MkIdempotencyConfig {
  icfg_DefaultTTL : Z;
  icfg_SystemOperationTTL : Z;
  icfg_ProcessingTimeout : Z;
  icfg_FailedRetryBackoff : Z;
  icfg_MaxStoredResponseLen : Z;
  icfg_ObserveOnly : bool
}.

#[export] Instance eta_IdempotencyConfig : Eta IdempotencyConfig := fun r =>
  MkIdempotencyConfig (icfg_DefaultTTL r) (icfg_SystemOperationTTL r) (icfg_ProcessingTimeout r) (icfg_FailedRetryBackoff r) (icfg_MaxStoredResponseLen r) (icfg_ObserveOnly r).

Definition zero_IdempotencyConfig : IdempotencyConfig :=
  MkIdempotencyConfig 0%Z 0%Z 0%Z 0%Z 0%Z false.

Definition second : Z := 1000000000.

Definition DefaultIdempotencyConfig : IdempotencyConfig :=
  zero_IdempotencyConfig
    <| icfg_DefaultTTL := (24 * 3600 * second)%Z |>
    <| icfg_SystemOperationTTL := (3600 * second)%Z |>
    <| icfg_ProcessingTimeout := (30 * second)%Z |>
    <| icfg_FailedRetryBackoff := (5 * second)%Z |>
    <| icfg_MaxStoredResponseLen := (64 * 1024)%Z |>
    <| icfg_ObserveOnly := true |>.

(** [IdempotencyExecuteOptions]; the payload is given by its JSON encoding, [None]
    when [json.Marshal] rejects it. *)
Record IdempotencyExecuteOptions := MkIdempotencyExecuteOptions {
  io_Scope : string;
  io_ActorScope : string;
  io_Method : string;
  io_Route : string;
  io_IdempotencyKey : string;
  io_Payload : option string;
  io_TTL : Z;
  io_RequireKey : bool
}.

#[export] Instance eta_IdempotencyExecuteOptions : Eta IdempotencyExecuteOptions := fun r =>
  MkIdempotencyExecuteOptions (io_Scope r) (io_ActorScope r) (io_Method r) (io_Route r) (io_IdempotencyKey r) (io_Payload r) (io_TTL r) (io_RequireKey r).

Definition zero_IdempotencyExecuteOptions : IdempotencyExecuteOptions :=
  MkIdempotencyExecuteOptions "" "" "" "" "" None 0%Z false.

(** ** Keys and fingerprints *)

Definition key_rune_ok (r : Z) : bool := negb ((r <? 33) || (126 <? r))%Z.

(** [NormalizeIdempotencyKey]; [None] is [ErrIdempotencyKeyInvalid]. *)
Definition NormalizeIdempotencyKey (raw : string) : option string :=
  let key := TrimSpace raw in
  if is_empty key then Some ""
  else if (128 <? strlen key)%Z then None
  else if forallb key_rune_ok (runes key) then Some key else None.

Definition HashIdempotencyKey (key : string) : string := sha256_hex key.

Definition newline : string := chr 10.

(** The text that is hashed into the fingerprint. *)
Definition fingerprintInput (unicode_upper : string -> string)
    (method route actorScope raw : string) : string :=
  let method := if is_empty method then "POST" else method in
  let route := if is_empty route then "/" else route in
  let actorScope := if is_empty actorScope then "anonymous" else actorScope in
  ToUpper unicode_upper method +:+ newline +:+ route +:+ newline +:+ actorScope +:+ newline +:+ raw.

(** [None] is [ErrIdempotencyInvalidPayload]. *)
Definition BuildIdempotencyFingerprint (unicode_upper : string -> string)
    (method route actorScope : string) (payload : option string) : option string :=
  match payload with
  | None => None
  | Some raw => Some (sha256_hex (fingerprintInput unicode_upper method route actorScope raw))
  end.

(** ** Stored responses *)

(** [for maxBytes > 0 && !utf8.ValidString(s[:maxBytes]) { maxBytes-- }]. *)
Fixpoint shrink_to_valid (maxBytes : nat) (s : string) : nat :=
  match maxBytes with
  | O => O
  | S m => if ValidString (str_take maxBytes s) then maxBytes else shrink_to_valid m s
  end.

Definition truncateUTF8 (s : string) (maxBytes : Z) : string :=
  if ((maxBytes <=? 0) || (strlen s <=? maxBytes))%Z then s
  else str_take (shrink_to_valid (Z.to_nat maxBytes) s) s.

Definition truncationSuffix : string := "...(truncated)".

(** [marshalStoredResponse] after [json.Marshal]; [redact] is
    [logredact.RedactText]. *)
Definition storedBody (redact : string -> string) (cfg : IdempotencyConfig) (raw : string) : string :=
  let redacted := redact raw in
  if ((0 <? icfg_MaxStoredResponseLen cfg)
      && (icfg_MaxStoredResponseLen cfg <? strlen redacted))%Z
  then truncateUTF8 redacted (icfg_MaxStoredResponseLen cfg) +:+ truncationSuffix
  else redacted.

(** [decodeStoredResponse]; the decoded value is named by its JSON text, [None]
    is the decoding error.  [numbers_fit] says that every number of the text is
    in the range of a float64, which decoding into [any] requires. *)
Definition decodeStoredResponse (numbers_fit : string -> bool) (stored : option string)
    : option string :=
  match stored with
  | None => Some "{}"
  | Some s =>
    if is_empty (TrimSpace s) then Some "{}"
    else if Valid s && numbers_fit s then Some s else None
  end.

(** ** The table *)

Record idem_db := MkIdemDb {
  db_rows : gmap Z IdempotencyRecord;
  db_next : Z
}.

#[export] Instance eta_idem_db : Eta idem_db := fun r => MkIdemDb (db_rows r) (db_next r).

Definition empty_db : idem_db := MkIdemDb ∅ 1.

Definition row_key (r : IdempotencyRecord) : string * string := (ir_Scope r, ir_IdempotencyKeyHash r).

(** Lookup through the unique index. *)
Definition find_row (key : string * string) (db : idem_db) : option IdempotencyRecord :=
  snd <$> head (filter (fun p => row_key p.2 = key) (map_to_list (db_rows db))).

(** [INSERT ... ON CONFLICT DO NOTHING RETURNING id]: the new row's id, or
    nothing.  [dbnow] is the server's [NOW()]. *)
Definition CreateProcessing (dbnow : Z) (record : IdempotencyRecord) (db : idem_db)
    : option Z * idem_db :=
  match find_row (row_key record) db with
  | Some _ => (None, db)
  | None =>
    let id := db_next db in
    let row := zero_IdempotencyRecord
      <| ir_ID := id |>
      <| ir_Scope := ir_Scope record |>
      <| ir_IdempotencyKeyHash := ir_IdempotencyKeyHash record |>
      <| ir_RequestFingerprint := ir_RequestFingerprint record |>
      <| ir_Status := ir_Status record |>
      <| ir_LockedUntil := ir_LockedUntil record |>
      <| ir_ExpiresAt := ir_ExpiresAt record |>
      <| ir_CreatedAt := dbnow |> <| ir_UpdatedAt := dbnow |> in
    (Some id, db <| db_rows := <[id := row]> (db_rows db) |> <| db_next := (id + 1)%Z |>)
  end.

Definition GetByScopeAndKeyHash (scope keyHash : string) (db : idem_db) : option IdempotencyRecord :=
  find_row (scope, keyHash) db.

(** [UPDATE ... WHERE id = $1 AND cond]: whether a row was affected. *)
Definition update_row (id : Z) (cond : IdempotencyRecord -> bool)
    (f : IdempotencyRecord -> IdempotencyRecord) (db : idem_db) : bool * idem_db :=
  match db_rows db !! id with
  | Some r => if cond r then (true, db <| db_rows := <[id := f r]> (db_rows db) |>) else (false, db)
  | None => (false, db)
  end.

Definition lock_free (now : Z) (r : IdempotencyRecord) : bool :=
  match ir_LockedUntil r with None => true | Some l => (l <=? now)%Z end.

Definition TryReclaim (dbnow id : Z) (fromStatus : string) (now newLockedUntil newExpiresAt : Z)
    (db : idem_db) : bool * idem_db :=
  update_row id (fun r => (ir_Status r =s fromStatus) && lock_free now r)
    (fun r => r <| ir_Status := IdempotencyStatusProcessing |>
                <| ir_LockedUntil := Some newLockedUntil |>
                <| ir_ErrorReason := None |>
                <| ir_UpdatedAt := dbnow |>
                <| ir_ExpiresAt := newExpiresAt |>) db.

Definition ExtendProcessingLock (dbnow id : Z) (requestFingerprint : string)
    (newLockedUntil newExpiresAt : Z) (db : idem_db) : bool * idem_db :=
  update_row id (fun r => (ir_Status r =s IdempotencyStatusProcessing)
                          && (ir_RequestFingerprint r =s requestFingerprint))
    (fun r => r <| ir_LockedUntil := Some newLockedUntil |>
                <| ir_ExpiresAt := newExpiresAt |> <| ir_UpdatedAt := dbnow |>) db.

Definition MarkSucceeded (dbnow id responseStatus : Z) (responseBody : string) (expiresAt : Z)
    (db : idem_db) : idem_db :=
  (update_row id (fun _ => true)
    (fun r => r <| ir_Status := IdempotencyStatusSucceeded |>
                <| ir_ResponseStatus := Some responseStatus |>
                <| ir_ResponseBody := Some responseBody |>
                <| ir_ErrorReason := None |>
                <| ir_LockedUntil := None |>
                <| ir_ExpiresAt := expiresAt |>
                <| ir_UpdatedAt := dbnow |>) db).2.

Definition MarkFailedRetryable (dbnow id : Z) (errorReason : string) (lockedUntil expiresAt : Z)
    (db : idem_db) : idem_db :=
  (update_row id (fun _ => true)
    (fun r => r <| ir_Status := IdempotencyStatusFailedRetryable |>
                <| ir_ErrorReason := Some errorReason |>
                <| ir_LockedUntil := Some lockedUntil |>
                <| ir_ExpiresAt := expiresAt |>
                <| ir_UpdatedAt := dbnow |>) db).2.

(** The victims of [DeleteExpired], oldest expiry first, at most [limit]. *)
Definition expires_before (p q : Z * IdempotencyRecord) : Prop :=
  (ir_ExpiresAt p.2 <= ir_ExpiresAt q.2)%Z.

#[export] Instance expires_before_dec p q : Decision (expires_before p q).
Proof. unfold expires_before. apply _. Defined.

Definition expired_ids (now limit : Z) (db : idem_db) : list Z :=
  let limit := if (limit <=? 0)%Z then 500%Z else limit in
  take (Z.to_nat limit)
    (fst <$> merge_sort expires_before
       (filter (fun p => (ir_ExpiresAt p.2 <= now)%Z) (map_to_list (db_rows db)))).

Definition DeleteExpired (now limit : Z) (db : idem_db) : Z * idem_db :=
  let ids := expired_ids now limit db in
  (Z.of_nat (length ids), db <| db_rows := foldr delete (db_rows db) ids |>).

(** ** Results *)

Section Coordinator.
(** The data an operation returns, its errors, and the functions of other
    packages applied to them: [json.Marshal], [infraerrors.Reason],
    [logredact.RedactText]. *)
Context {D E : Type}.
Variable marshal : D -> option string.
Variable reason_of : E -> string.
Variable redact : string -> string.
Variable numbers_fit : string -> bool.
Variable unicode_upper : string -> string.

Inductive idem_error :=
  | ErrIdempotencyKeyRequired
  | ErrIdempotencyKeyInvalid
  | ErrIdempotencyKeyConflict
  | ErrIdempotencyInProgress (retry_after : option Z)
  | ErrIdempotencyRetryBackoff (retry_after : option Z)
  | ErrIdempotencyStoreUnavail
  | ErrIdempotencyInvalidPayload
  | ErrIdempotencyScopeRequired
  | ErrExecution (e : E).

Inductive idem_data :=
  | Fresh (d : D)
  | Stored (json : string).

Record IdempotencyExecuteResult := MkResult { res_Data : idem_data; res_Replayed : bool }.

Definition outcome : Type := (IdempotencyExecuteResult + idem_error)%type.

(** [conflictWithRetryAfter]: whole seconds until the lock ends, at least
    one. *)
Definition retryAfter (lockedUntil : option Z) (now : Z) : option Z :=
  match lockedUntil with
  | None => None
  | Some l =>
    let sec := Z.quot (l - now) second in
    Some (if (sec <=? 0)%Z then 1%Z else sec)
  end.

(** ** Programs

    The calls [Execute] makes.  A repository call's continuation receives
    [None] (or [false]) when the call returned an error.  The wrapped
    operation is a pair of calls, its start and its end. *)

Inductive prog :=
  | Done (r : outcome)
  | DoNow (k : Z -> prog)
  | DoCreate (record : IdempotencyRecord) (k : option (option Z) -> prog)
  | DoGet (scope keyHash : string) (k : option (option IdempotencyRecord) -> prog)
  | DoReclaim (id : Z) (fromStatus : string) (now newLockedUntil newExpiresAt : Z)
      (k : option bool -> prog)
  | DoExecBegin (k : prog)
  | DoExecEnd (k : D + E -> prog)
  | DoMarkSucceeded (id responseStatus : Z) (responseBody : string) (expiresAt : Z)
      (k : bool -> prog)
  | DoMarkFailed (id : Z) (errorReason : string) (lockedUntil expiresAt : Z) (k : bool -> prog).

(** ** [Execute] *)

(** The part after a claim: run the operation and record how it ended. *)
Definition executeOwned (cfg : IdempotencyConfig) (recordID expiresAt : Z) : prog :=
  if (recordID =? 0)%Z then Done (inr ErrIdempotencyStoreUnavail) else
  DoExecBegin (DoExecEnd (fun res =>
    match res with
    | inr execErr =>
      DoNow (fun now =>
        let backoffUntil := (now + icfg_FailedRetryBackoff cfg)%Z in
        let reason := reason_of execErr in
        let reason := if is_empty reason then "EXECUTION_FAILED" else reason in
        DoMarkFailed recordID reason backoffUntil expiresAt (fun _ =>
          Done (inr (ErrExecution execErr))))
    | inl data =>
      match marshal data with
      | None => Done (inr ErrIdempotencyStoreUnavail)
      | Some raw =>
        DoMarkSucceeded recordID 200 (storedBody redact cfg raw) expiresAt (fun ok =>
          if ok : bool then Done (inl (MkResult (Fresh data) false))
          else Done (inr ErrIdempotencyStoreUnavail))
      end
    end)).

(** What an existing record that was not reclaimed leads to. *)
Definition resolveExisting (cfg : IdempotencyConfig) (now lockedUntil expiresAt : Z)
    (existing : IdempotencyRecord) : prog :=
  if ir_Status existing =s IdempotencyStatusSucceeded then
    match decodeStoredResponse numbers_fit (ir_ResponseBody existing) with
    | None => Done (inr ErrIdempotencyStoreUnavail)
    | Some data => Done (inl (MkResult (Stored data) true))
    end
  else if ir_Status existing =s IdempotencyStatusProcessing then
    Done (inr (ErrIdempotencyInProgress (retryAfter (ir_LockedUntil existing) now)))
  else if ir_Status existing =s IdempotencyStatusFailedRetryable then
    if negb (lock_free now existing) then
      Done (inr (ErrIdempotencyRetryBackoff (retryAfter (ir_LockedUntil existing) now)))
    else
      DoReclaim (ir_ID existing) IdempotencyStatusFailedRetryable now lockedUntil expiresAt
        (fun taken =>
          match taken with
          | None => Done (inr ErrIdempotencyStoreUnavail)
          | Some false =>
            Done (inr (ErrIdempotencyInProgress (retryAfter (ir_LockedUntil existing) now)))
          | Some true => executeOwned cfg (ir_ID existing) expiresAt
          end)
  else Done (inr ErrIdempotencyKeyConflict).

(** The path of a request that did not create the record. *)
Definition executeExisting (cfg : IdempotencyConfig) (scope keyHash fingerprint : string)
    (now lockedUntil expiresAt : Z) : prog :=
  DoGet scope keyHash (fun got =>
    match got with
    | None => Done (inr ErrIdempotencyStoreUnavail)
    | Some None => Done (inr ErrIdempotencyStoreUnavail)
    | Some (Some existing) =>
      if negb (ir_RequestFingerprint existing =s fingerprint)
      then Done (inr ErrIdempotencyKeyConflict)
      else if (now <? ir_ExpiresAt existing)%Z
      then resolveExisting cfg now lockedUntil expiresAt existing
      else
        DoReclaim (ir_ID existing) (ir_Status existing) now lockedUntil expiresAt (fun taken =>
          match taken with
          | None => Done (inr ErrIdempotencyStoreUnavail)
          | Some true => executeOwned cfg (ir_ID existing) expiresAt
          | Some false =>
            DoGet scope keyHash (fun latest =>
              match latest with
              | None => Done (inr ErrIdempotencyStoreUnavail)
              | Some None => Done (inr ErrIdempotencyStoreUnavail)
              | Some (Some latest) =>
                if negb (ir_RequestFingerprint latest =s fingerprint)
                then Done (inr ErrIdempotencyKeyConflict)
                else resolveExisting cfg now lockedUntil expiresAt latest
              end)
          end)
    end).

Definition effectiveTTL (cfg : IdempotencyConfig) (opts : IdempotencyExecuteOptions) : Z :=
  if (io_TTL opts <=? 0)%Z then icfg_DefaultTTL cfg else io_TTL opts.

Definition executeKeyed (cfg : IdempotencyConfig) (opts : IdempotencyExecuteOptions)
    (keyHash fingerprint : string) : prog :=
  DoNow (fun now =>
    let expiresAt := (now + effectiveTTL cfg opts)%Z in
    let lockedUntil := (now + icfg_ProcessingTimeout cfg)%Z in
    let record := zero_IdempotencyRecord
      <| ir_Scope := io_Scope opts |>
      <| ir_IdempotencyKeyHash := keyHash |>
      <| ir_RequestFingerprint := fingerprint |>
      <| ir_Status := IdempotencyStatusProcessing |>
      <| ir_LockedUntil := Some lockedUntil |>
      <| ir_ExpiresAt := expiresAt |> in
    DoCreate record (fun created =>
      match created with
      | None => Done (inr ErrIdempotencyStoreUnavail)
      | Some (Some id) => executeOwned cfg id expiresAt
      | Some None =>
        executeExisting cfg (io_Scope opts) keyHash fingerprint now lockedUntil expiresAt
      end)).

Definition executeUnkeyed : prog :=
  DoExecBegin (DoExecEnd (fun res =>
    match res with
    | inr e => Done (inr (ErrExecution e))
    | inl d => Done (inl (MkResult (Fresh d) false))
    end)).

(** [IdempotencyCoordinator.Execute]; [hasRepo] is [c.repo != nil]. *)
Definition Execute (cfg : IdempotencyConfig) (hasRepo : bool) (opts : IdempotencyExecuteOptions)
    : prog :=
  match NormalizeIdempotencyKey (io_IdempotencyKey opts) with
  | None => Done (inr ErrIdempotencyKeyInvalid)
  | Some key =>
    if is_empty key then
      if io_RequireKey opts && negb (icfg_ObserveOnly cfg)
      then Done (inr ErrIdempotencyKeyRequired) else executeUnkeyed
    else if negb hasRepo then Done (inr ErrIdempotencyStoreUnavail)
    else if is_empty (io_Scope opts) then Done (inr ErrIdempotencyScopeRequired)
    else
      match BuildIdempotencyFingerprint unicode_upper (io_Method opts) (io_Route opts)
              (io_ActorScope opts) (io_Payload opts) with
      | None => Done (inr ErrIdempotencyInvalidPayload)
      | Some fingerprint => executeKeyed cfg opts (HashIdempotencyKey key) fingerprint
      end
  end.

(** ** Running a program

    A repository call can go through, be lost before it reaches the database,
    or be applied and then have its reply lost. *)

Inductive fault := NoFault | LostRequest | LostReply.

Definition faulty {A : Type} (f : fault) (reply : A) : option A :=
  match f with NoFault => Some reply | _ => None end.

Definition applied (f : fault) (db db' : idem_db) : idem_db :=
  match f with LostRequest => db | _ => db' end.

(** One call of a program against the table. *)
Definition prog_step (f : fault) (res : D + E) (clock : Z) (db : idem_db) (p : prog)
    : idem_db * prog :=
  match p with
  | Done r => (db, Done r)
  | DoNow k => (db, k clock)
  | DoCreate record k =>
    let '(reply, db') := CreateProcessing clock record db in
    (applied f db db', k (faulty f reply))
  | DoGet scope keyHash k => (db, k (faulty f (GetByScopeAndKeyHash scope keyHash db)))
  | DoReclaim id from now locked expires k =>
    let '(reply, db') := TryReclaim clock id from now locked expires db in
    (applied f db db', k (faulty f reply))
  | DoExecBegin k => (db, k)
  | DoExecEnd k => (db, k res)
  | DoMarkSucceeded id st body expires k =>
    (applied f db (MarkSucceeded clock id st body expires db),
     k (match f with NoFault => true | _ => false end))
  | DoMarkFailed id reason locked expires k =>
    (applied f db (MarkFailedRetryable clock id reason locked expires db),
     k (match f with NoFault => true | _ => false end))
  end.

(** A request alone, at a fixed time, with an operation that ends in [res]:
    the table it leaves, its outcome and how often the operation ran. *)
Fixpoint run_alone (fuel : nat) (res : D + E) (clock : Z) (db : idem_db) (p : prog)
    : option (idem_db * outcome * nat) :=
  match fuel with
  | O => None
  | S fuel' =>
    match p with
    | Done r => Some (db, r, 0)
    | _ =>
      let '(db', p') := prog_step NoFault res clock db p in
      match run_alone fuel' res clock db' p' with
      | Some (db'', r, n) =>
        Some (db'', r, match p with DoExecEnd _ => S n | _ => n end)
      | None => None
      end
    end
  end.
End Coordinator.

Arguments prog D E : clear implicits.
Arguments outcome D E : clear implicits.
Arguments idem_error E : clear implicits.
