(* ===== verification/IdempotencyProofs.v ===== *)
(** * Idempotent execution: proofs

    Any number of requests, interleaved call by call over one table, with
    repository calls that may fail before or after taking effect; within the
    lifetime of the records no two operations of one key overlap and at most
    one succeeds.  Then keys, replays, conflicts and stored responses. *)

From Stdlib Require Import Ascii.
From stdpp Require Import sorting.
From S2P Require Import Prelude GoStrings GoStringsFacts GoJson GoCrypto Idempotency.

(** ** The table *)

Lemma find_row_Some key db r :
  find_row key db = Some r -> row_key r = key /\ exists id, db_rows db !! id = Some r.
Proof.
  unfold find_row. destruct (filter _ _) as [|[id r'] l] eqn:E; [done|]. intros [= <-].
  assert (Hin : (id, r') ∈ filter (fun p => row_key p.2 = key) (map_to_list (db_rows db)))
    by (rewrite E; apply elem_of_cons; by left).
  apply list_elem_of_filter in Hin as [Hk Hin]. split; [done|].
  exists id. by apply elem_of_map_to_list.
Qed.

Lemma find_row_None key db id r :
  find_row key db = None -> db_rows db !! id = Some r -> row_key r <> key.
Proof.
  unfold find_row. destruct (filter _ _) as [|p l] eqn:E; [|done]. intros _ Hr Hk.
  assert (Hin : (id, r) ∈ filter (fun p => row_key p.2 = key) (map_to_list (db_rows db))).
  { apply list_elem_of_filter. split; [done|]. by apply elem_of_map_to_list. }
  rewrite E in Hin. by apply elem_of_nil in Hin.
Qed.

(** Well-formed tables whose records all outlive [B]. *)
Record db_ok (B : Z) (db : idem_db) : Prop := {
  dbo_id : forall id r, db_rows db !! id = Some r -> ir_ID r = id /\ (0 < id < db_next db)%Z;
  dbo_live : forall id r, db_rows db !! id = Some r -> (B <= ir_ExpiresAt r)%Z;
  dbo_unique : forall id1 id2 r1 r2, db_rows db !! id1 = Some r1 -> db_rows db !! id2 = Some r2 ->
    row_key r1 = row_key r2 -> id1 = id2;
  dbo_next : (0 < db_next db)%Z
}.

Lemma empty_db_ok B : db_ok B empty_db.
Proof. by split; cbn; [intros * ?; simplify_map_eq..|]. Qed.

(** An update that keeps identity and key, and the record alive. *)
Lemma db_ok_update B db id r r' :
  db_ok B db -> db_rows db !! id = Some r ->
  ir_ID r' = ir_ID r -> row_key r' = row_key r -> (B <= ir_ExpiresAt r')%Z ->
  db_ok B (db <| db_rows := <[id := r']> (db_rows db) |>).
Proof.
  intros [H1 H2 H3 H4] Hr E1 E2 E3. split; cbn; [..|done].
  - intros id0 r0. rewrite lookup_insert. case_decide as Hd; [|eauto].
    intros [= <-]. subst. rewrite E1. eauto.
  - intros id0 r0. rewrite lookup_insert. case_decide as Hd; [|eauto]. by intros [= <-].
  - intros id1 id2 r1 r2. rewrite !lookup_insert.
    case_decide as Hd1; case_decide as Hd2; subst; try (intros; simplify_eq; congruence); eauto.
    + intros [= <-] Hr2 Hk. rewrite E2 in Hk. eauto.
    + intros Hr1 [= <-] Hk. rewrite E2 in Hk. eauto.
Qed.

Lemma db_ok_create B db r :
  db_ok B db -> find_row (row_key r) db = None -> ir_ID r = db_next db -> (B <= ir_ExpiresAt r)%Z ->
  db_ok B (db <| db_rows := <[db_next db := r]> (db_rows db) |> <| db_next := (db_next db + 1)%Z |>).
Proof.
  intros [H1 H2 H3 H4] Hf E1 E2. split; cbn; [..|lia].
  - intros id0 r0. rewrite lookup_insert. case_decide as Hd.
    + intros [= <-]. subst. lia.
    + intros Hr. specialize (H1 _ _ Hr). lia.
  - intros id0 r0. rewrite lookup_insert. case_decide as Hd; [|eauto]. by intros [= <-].
  - intros id1 id2 r1 r2. rewrite !lookup_insert.
    case_decide as Hd1; case_decide as Hd2; subst; try (intros; simplify_eq; congruence); eauto.
    + intros [= <-] Hr2 Hk. by destruct (find_row_None _ _ _ _ Hf Hr2).
    + intros Hr1 [= <-] Hk. by destruct (find_row_None _ _ _ _ Hf Hr1).
Qed.

Lemma DeleteExpired_live B now limit db :
  db_ok B db -> (now < B)%Z -> (DeleteExpired now limit db).2 = db.
Proof.
  intros Hok Hn. unfold DeleteExpired, expired_ids. cbn zeta.
  assert (filter (fun p => (ir_ExpiresAt p.2 <= now)%Z) (map_to_list (db_rows db)) = []) as ->.
  { apply elem_of_nil_inv. intros [id r] Hin. apply list_elem_of_filter in Hin as [Hp Hin].
    apply elem_of_map_to_list in Hin. pose proof (dbo_live _ _ Hok _ _ Hin). cbn in *. lia. }
  destruct (Z.to_nat _); cbn; by destruct db.
Qed.

(** ** Concurrent requests *)

Section Concurrency.
Context {D E : Type}.
Context (marshal : D -> option string) (reason_of : E -> string) (redact : string -> string)
        (numbers_fit : string -> bool) (unicode_upper : string -> string).
Context (cfg : IdempotencyConfig) (hasRepo : bool).

Notation program := (Execute marshal reason_of redact numbers_fit unicode_upper cfg hasRepo).

(** The unique key a request works on; [None] without an idempotency key. *)
Definition request_key (opts : IdempotencyExecuteOptions) : option (string * string) :=
  match NormalizeIdempotencyKey (io_IdempotencyKey opts) with
  | Some key => if is_empty key then None else Some (io_Scope opts, HashIdempotencyKey key)
  | None => None
  end.

Record request := MkRequest { rq_key : option (string * string); rq_prog : prog D E }.

Record world := MkWorld {
  w_clock : Z;
  w_db : idem_db;
  w_requests : list request;
  w_successes : list (string * string)   (* keys of operations that succeeded *)
}.

Definition initial (t0 : Z) : world := MkWorld t0 empty_db [] [].

(** The key to log when this call is the successful end of an operation. *)
Definition success_of (rq : request) (res : D + E) : list (string * string) :=
  match rq_prog rq, res, rq_key rq with
  | DoExecEnd _, inl _, Some key => [key]
  | _, _, _ => []
  end.

(** Time passes, a request arrives, some request makes its next call, the
    cleanup job runs. *)
Inductive wstep (window : Z) : world -> world -> Prop :=
  | ws_clock w t : (w_clock w <= t)%Z ->
      wstep window w (MkWorld t (w_db w) (w_requests w) (w_successes w))
  | ws_arrive w opts : (window <= effectiveTTL cfg opts)%Z ->
      wstep window w (MkWorld (w_clock w) (w_db w)
        (w_requests w ++ [MkRequest (request_key opts) (program opts)]) (w_successes w))
  | ws_call w i rq f res : w_requests w !! i = Some rq ->
      wstep window w
        (let st := prog_step f res (w_clock w) (w_db w) (rq_prog rq) in
         MkWorld (w_clock w) st.1 (<[i := MkRequest (rq_key rq) st.2]> (w_requests w))
           (w_successes w ++ success_of rq res))
  | ws_cleanup w limit :
      wstep window w (MkWorld (w_clock w) (DeleteExpired (w_clock w) limit (w_db w)).2
        (w_requests w) (w_successes w)).

(** ** Phases of a request *)

Inductive phase :=
  | PStart | PSeen (id : Z) | PClaimed (id : Z) | PRunning (id : Z)
  | PRan (id : Z) | PBroke (id : Z) | PFree.

(** The record a phase knows, and the record it owns. *)
Definition known (ph : phase) : option Z :=
  match ph with
  | PSeen id | PClaimed id | PRunning id | PRan id | PBroke id => Some id
  | _ => None
  end.

Definition owned (ph : phase) : option Z :=
  match ph with
  | PClaimed id | PRunning id | PRan id | PBroke id => Some id
  | _ => None
  end.

(** [follows t0 B key ph p]: between [t0] and [B], the program [p] in phase
    [ph] works on [key] only, starts the operation only after a claim, claims
    an existing record only from the failed state, and records the end of the
    operation under the id it owns. *)
Inductive follows (t0 B : Z) (key : option (string * string)) : phase -> prog D E -> Prop :=
  | fo_done ph r : follows t0 B key ph (Done r)
  | fo_now ph k : (forall t, (t0 <= t < B)%Z -> follows t0 B key ph (k t)) ->
      follows t0 B key ph (DoNow k)
  | fo_create r k :
      key = Some (row_key r) -> ir_Status r = IdempotencyStatusProcessing ->
      (B <= ir_ExpiresAt r)%Z ->
      follows t0 B key PStart (k None) -> follows t0 B key PStart (k (Some None)) ->
      (forall id, follows t0 B key (PClaimed id) (k (Some (Some id)))) ->
      follows t0 B key PStart (DoCreate r k)
  | fo_get sc h k :
      key = Some (sc, h) ->
      follows t0 B key PStart (k None) -> follows t0 B key PStart (k (Some None)) ->
      (forall r, row_key r = (sc, h) -> (B <= ir_ExpiresAt r)%Z ->
         follows t0 B key (PSeen (ir_ID r)) (k (Some (Some r)))) ->
      follows t0 B key PStart (DoGet sc h k)
  | fo_reclaim id now l e k :
      (B <= e)%Z ->
      follows t0 B key (PSeen id) (k None) -> follows t0 B key (PSeen id) (k (Some false)) ->
      follows t0 B key (PClaimed id) (k (Some true)) ->
      follows t0 B key (PSeen id) (DoReclaim id IdempotencyStatusFailedRetryable now l e k)
  | fo_begin id p : follows t0 B key (PRunning id) p ->
      follows t0 B key (PClaimed id) (DoExecBegin p)
  | fo_end id k :
      (forall d, follows t0 B key (PRan id) (k (inl d))) ->
      (forall e, follows t0 B key (PBroke id) (k (inr e))) ->
      follows t0 B key (PRunning id) (DoExecEnd k)
  | fo_failed id reason l e k :
      (B <= e)%Z -> (forall b, follows t0 B key PStart (k b)) ->
      follows t0 B key (PBroke id) (DoMarkFailed id reason l e k)
  | fo_succeeded id st body e k :
      (B <= e)%Z -> (forall b, follows t0 B key PStart (k b)) ->
      follows t0 B key (PRan id) (DoMarkSucceeded id st body e k)
  | fo_free_begin p : key = None -> follows t0 B key PFree p ->
      follows t0 B key PFree (DoExecBegin p)
  | fo_free_end k : key = None -> (forall r, follows t0 B key PFree (k r)) ->
      follows t0 B key PFree (DoExecEnd k).

Lemma executeOwned_follows t0 B key id e :
  (B <= e)%Z ->
  follows t0 B key (PClaimed id) (executeOwned marshal reason_of redact cfg id e).
Proof.
  intros He. unfold executeOwned. case_test; [constructor|].
  do 2 constructor; [intros d|intros err].
  - destruct (marshal d); constructor; [done|]. intros []; constructor.
  - constructor. intros t Ht. constructor; [done|]. constructor.
Qed.

Lemma resolveExisting_follows t0 B key now l e r :
  (B <= e)%Z ->
  follows t0 B key (PSeen (ir_ID r))
    (resolveExisting marshal reason_of redact numbers_fit cfg now l e r).
Proof.
  intros He. unfold resolveExisting. repeat case_test; try constructor; try done.
  - destruct (decodeStoredResponse _ _); constructor.
  - constructor.
  - constructor.
  - by apply executeOwned_follows.
Qed.

Lemma Execute_follows t0 B opts :
  (B <= t0 + effectiveTTL cfg opts)%Z ->
  exists ph, known ph = None /\ follows t0 B (request_key opts) ph (program opts).
Proof.
  intros Httl. unfold Execute, request_key.
  destruct (NormalizeIdempotencyKey _) as [key|]; [|exists PStart; by repeat constructor].
  destruct (is_empty key).
  { case_test; [exists PStart; by repeat constructor|]. exists PFree. split; [done|].
    unfold executeUnkeyed. constructor; [done|]. constructor; [done|].
    intros []; constructor. }
  exists PStart. split; [done|]. case_test; [constructor|]. case_test; [constructor|].
  destruct (BuildIdempotencyFingerprint _ _ _ _ _) as [fp|]; [|constructor].
  unfold executeKeyed. constructor. intros t Ht. constructor; cbn; try done; [lia|constructor| |].
  - unfold executeExisting. constructor; [done|constructor|constructor|].
    intros r Hk Hr. case_test; [constructor|]. case_test; [|reflect_bool; lia].
    apply resolveExisting_follows. lia.
  - intros id. apply executeOwned_follows. lia.
Qed.

(** ** The invariant *)

Record world_ok (t0 B : Z) (w : world) (phs : list phase) : Prop := {
  wo_clock : (t0 <= w_clock w)%Z;
  wo_db : db_ok B (w_db w);
  wo_follows : Forall2 (fun rq ph => follows t0 B (rq_key rq) ph (rq_prog rq)) (w_requests w) phs;
  wo_known : forall i rq ph id, w_requests w !! i = Some rq -> phs !! i = Some ph ->
    known ph = Some id ->
    exists r, db_rows (w_db w) !! id = Some r /\ rq_key rq = Some (row_key r);
  wo_exclusive : forall i j ph1 ph2 id, phs !! i = Some ph1 -> phs !! j = Some ph2 ->
    owned ph1 = Some id -> owned ph2 = Some id -> i = j;
  wo_processing : forall i ph id r, phs !! i = Some ph -> owned ph = Some id ->
    db_rows (w_db w) !! id = Some r -> ir_Status r = IdempotencyStatusProcessing;
  wo_once : NoDup (w_successes w);
  wo_success : forall key, key ∈ w_successes w ->
    exists id r, db_rows (w_db w) !! id = Some r /\ row_key r = key /\
      ir_Status r <> IdempotencyStatusFailedRetryable /\
      forall i ph, phs !! i = Some ph -> owned ph = Some id -> ph = PRan id
}.

Lemma owned_known ph id : owned ph = Some id -> known ph = Some id.
Proof. by destruct ph. Qed.

(** A request changes its program and phase, the table stays: what it owns in
    the new phase it owned before, or owned nothing before. *)
Lemma world_ok_local t0 B w phs i rq p' ph ph' :
  world_ok t0 B w phs -> w_requests w !! i = Some rq -> phs !! i = Some ph ->
  follows t0 B (rq_key rq) ph' p' ->
  (forall id, known ph' = Some id -> known ph = Some id \/
     exists r, db_rows (w_db w) !! id = Some r /\ rq_key rq = Some (row_key r)) ->
  (forall id, owned ph' = Some id -> owned ph = Some id) ->
  (forall id, owned ph' = Some id -> ph = PRan id -> ph' = PRan id) ->
  world_ok t0 B (MkWorld (w_clock w) (w_db w) (<[i := MkRequest (rq_key rq) p']> (w_requests w))
                   (w_successes w)) (<[i := ph']> phs).
Proof.
  intros [H1 H2 H3 H4 H5 H6 H7 H8] Hi Hph Hf Hk Ho Hr.
  assert (Hlt : i < length phs) by (by eapply lookup_lt_Some).
  split; cbn; try done.
  - by apply Forall2_insert.
  - intros j rq' ph1 id Hj1 Hj2 Hid. apply list_lookup_insert_Some in Hj1 as [(<-&<-&_)|[? ?]].
    + rewrite list_lookup_insert_eq in Hj2 by done. simplify_eq. cbn.
      destruct (Hk id Hid) as [|]; eauto.
    + rewrite list_lookup_insert_ne in Hj2 by done. eauto.
  - intros j1 j2 ph1 ph2 id Hj1 Hj2 Ho1 Ho2.
    apply list_lookup_insert_Some in Hj1 as [(<-&<-&_)|[? ?]];
      apply list_lookup_insert_Some in Hj2 as [(<-&<-&_)|[? ?]]; eauto.
  - intros j ph1 id r Hj Hid. apply list_lookup_insert_Some in Hj as [(<-&<-&_)|[? ?]]; eauto.
  - intros key Hkey. destruct (H8 key Hkey) as (id & r & Hr1 & Hr2 & Hr3 & Hr4).
    exists id, r. split_and!; try done. intros j ph1 Hj Hid.
    apply list_lookup_insert_Some in Hj as [(<-&<-&_)|[? ?]]; eauto.
Qed.

(** A request changes its program, its phase and the one row it knows. *)
Lemma world_ok_update t0 B w phs i rq p' ph ph' id r r' :
  world_ok t0 B w phs -> w_requests w !! i = Some rq -> phs !! i = Some ph ->
  db_rows (w_db w) !! id = Some r ->
  ir_ID r' = ir_ID r -> row_key r' = row_key r -> (B <= ir_ExpiresAt r')%Z ->
  follows t0 B (rq_key rq) ph' p' ->
  (forall id', known ph' = Some id' -> known ph = Some id') ->
  (forall j phj, j <> i -> phs !! j = Some phj -> owned phj <> Some id) ->
  (forall id', owned ph' = Some id' -> id' = id /\ ir_Status r' = IdempotencyStatusProcessing) ->
  (row_key r ∈ w_successes w ->
     ir_Status r' <> IdempotencyStatusFailedRetryable /\ owned ph' = None) ->
  world_ok t0 B (MkWorld (w_clock w) (w_db w <| db_rows := <[id := r']> (db_rows (w_db w)) |>)
                   (<[i := MkRequest (rq_key rq) p']> (w_requests w)) (w_successes w))
    (<[i := ph']> phs).
Proof.
  intros [H1 H2 H3 H4 H5 H6 H7 H8] Hi Hph Hr E1 E2 E3 Hf Hk Hoth Ho Hs.
  assert (Hlt : i < length phs) by (by eapply lookup_lt_Some).
  assert (Hrow : forall id0 r0, db_rows (w_db w) !! id0 = Some r0 ->
    exists r1, <[id := r']> (db_rows (w_db w)) !! id0 = Some r1 /\ row_key r1 = row_key r0).
  { intros id0 r0 H0. rewrite lookup_insert. case_decide; subst; [|by eauto].
    exists r'. split; [done|congruence]. }
  split; cbn; try done.
  - by eapply db_ok_update.
  - by apply Forall2_insert.
  - intros j rq' ph1 id0 Hj1 Hj2 Hid. apply list_lookup_insert_Some in Hj1 as [(<-&<-&_)|[? ?]].
    + rewrite list_lookup_insert_eq in Hj2 by done. simplify_eq. cbn.
      destruct (H4 _ _ _ _ Hi Hph (Hk _ Hid)) as (r0 & Hr0 & ->).
      destruct (Hrow _ _ Hr0) as (r1 & ? & Hk1). exists r1. by rewrite Hk1.
    + rewrite list_lookup_insert_ne in Hj2 by done.
      destruct (H4 _ _ _ _ H0 Hj2 Hid) as (r0 & Hr0 & ->).
      destruct (Hrow _ _ Hr0) as (r1 & ? & Hk1). exists r1. by rewrite Hk1.
  - intros j1 j2 ph1 ph2 id0 Hj1 Hj2 Ho1 Ho2.
    apply list_lookup_insert_Some in Hj1 as [(<-&<-&_)|[Hn1 Hj1]];
      apply list_lookup_insert_Some in Hj2 as [(<-&<-&_)|[Hn2 Hj2]]; eauto.
    + destruct (Ho _ Ho1) as [-> _]. by destruct (Hoth j2 ph2).
    + destruct (Ho _ Ho2) as [-> _]. by destruct (Hoth j1 ph1).
  - intros j ph1 id0 r0 Hj Hid Hr0. apply list_lookup_insert_Some in Hj as [(<-&<-&_)|[Hn Hj]].
    + destruct (Ho _ Hid) as [-> ?]. rewrite lookup_insert_eq in Hr0. by simplify_eq.
    + rewrite lookup_insert in Hr0. case_decide; subst; [by destruct (Hoth j ph1)|]. eauto.
  - intros key Hkey. destruct (H8 key Hkey) as (id0 & r0 & Hr1 & Hr2 & Hr3 & Hr4).
    exists id0. rewrite lookup_insert. case_decide as Hd.
    + subst id0. assert (r0 = r) as -> by congruence. exists r'. destruct (Hs ltac:(congruence)) as [Hs1 Hs2].
      split; [done|]. split; [congruence|]. split; [done|]. intros j ph1 Hj Hid.
      apply list_lookup_insert_Some in Hj as [(<-&<-&_)|[Hn Hj]]; [congruence|].
      by destruct (Hoth j ph1).
    + exists r0. split_and!; try done. intros j ph1 Hj Hid.
      apply list_lookup_insert_Some in Hj as [(<-&<-&_)|[Hn Hj]]; [|by eauto].
      destruct (Ho _ Hid). congruence.
Qed.

(** A request creates its record, and learns so or not. *)
Lemma world_ok_create t0 B w phs i rq p' ph' r :
  world_ok t0 B w phs -> w_requests w !! i = Some rq -> phs !! i = Some PStart ->
  rq_key rq = Some (row_key r) -> find_row (row_key r) (w_db w) = None ->
  ir_ID r = db_next (w_db w) -> (B <= ir_ExpiresAt r)%Z ->
  ir_Status r = IdempotencyStatusProcessing ->
  follows t0 B (rq_key rq) ph' p' -> ph' = PStart \/ ph' = PClaimed (db_next (w_db w)) ->
  world_ok t0 B (MkWorld (w_clock w) (w_db w <| db_rows := <[db_next (w_db w) := r]> (db_rows (w_db w)) |>
                     <| db_next := (db_next (w_db w) + 1)%Z |>)
                   (<[i := MkRequest (rq_key rq) p']> (w_requests w)) (w_successes w))
    (<[i := ph']> phs).
Proof.
  intros [H1 H2 H3 H4 H5 H6 H7 H8] Hi Hph Hkey Hfind E1 E2 E3 Hf Hph'.
  assert (Hlt : i < length phs) by (by eapply lookup_lt_Some).
  set (n := db_next (w_db w)) in *.
  assert (Hnew : forall id0 r0, db_rows (w_db w) !! id0 = Some r0 -> id0 <> n).
  { intros id0 r0 H0. destruct (dbo_id _ _ H2 _ _ H0). lia. }
  assert (Hown : forall j phj id, phs !! j = Some phj -> owned phj = Some id -> id <> n).
  { intros j phj id Hj Ho. destruct (lookup_lt_is_Some_2 (w_requests w) j) as [rqj Hrqj].
    { rewrite (Forall2_length _ _ _ H3). by eapply lookup_lt_Some. }
    destruct (H4 _ _ _ _ Hrqj Hj (owned_known _ _ Ho)) as (r0 & Hr0 & _). eauto. }
  split; cbn; try done.
  - by apply db_ok_create.
  - by apply Forall2_insert.
  - intros j rq' ph1 id0 Hj1 Hj2 Hid. apply list_lookup_insert_Some in Hj1 as [(<-&<-&_)|[? ?]].
    + rewrite list_lookup_insert_eq in Hj2 by done. simplify_eq. cbn.
      destruct Hph' as [-> | ->]; [done|]. cbn in Hid. simplify_eq.
      exists r. by rewrite lookup_insert_eq.
    + rewrite list_lookup_insert_ne in Hj2 by done.
      destruct (H4 _ _ _ _ H0 Hj2 Hid) as (r0 & Hr0 & ->). exists r0.
      rewrite lookup_insert_ne by (symmetry; eauto). done.
  - intros j1 j2 ph1 ph2 id0 Hj1 Hj2 Ho1 Ho2.
    apply list_lookup_insert_Some in Hj1 as [(<-&<-&_)|[Hn1 Hj1]];
      apply list_lookup_insert_Some in Hj2 as [(<-&<-&_)|[Hn2 Hj2]]; eauto;
      destruct Hph' as [-> | ->]; cbn in *; simplify_eq.
    + by destruct (Hown _ _ _ Hj2 Ho2).
    + by destruct (Hown _ _ _ Hj1 Ho1).
  - intros j ph1 id0 r0 Hj Hid Hr0. apply list_lookup_insert_Some in Hj as [(<-&<-&_)|[Hn Hj]].
    + destruct Hph' as [-> | ->]; cbn in Hid; simplify_eq. rewrite lookup_insert_eq in Hr0.
      by simplify_eq.
    + rewrite lookup_insert_ne in Hr0 by (symmetry; eauto). eauto.
  - intros key Hk. destruct (H8 key Hk) as (id0 & r0 & Hr1 & Hr2 & Hr3 & Hr4).
    exists id0, r0. rewrite lookup_insert_ne by (symmetry; eauto). split_and!; try done.
    intros j ph1 Hj Hid. apply list_lookup_insert_Some in Hj as [(<-&<-&_)|[Hn Hj]]; [|by eauto].
    destruct Hph' as [-> | ->]; cbn in Hid; simplify_eq. by destruct (Hnew _ _ Hr1).
Qed.

(** An operation succeeds. *)
Lemma world_ok_success t0 B w phs i rq p' id key :
  world_ok t0 B w phs -> w_requests w !! i = Some rq -> phs !! i = Some (PRunning id) ->
  rq_key rq = Some key -> follows t0 B (rq_key rq) (PRan id) p' ->
  world_ok t0 B (MkWorld (w_clock w) (w_db w) (<[i := MkRequest (rq_key rq) p']> (w_requests w))
                   (w_successes w ++ [key])) (<[i := PRan id]> phs).
Proof.
  intros Hok Hi Hph Hkey Hf.
  pose proof (world_ok_local t0 B w phs i rq p' (PRunning id) (PRan id) Hok Hi Hph Hf
    ltac:(naive_solver) ltac:(naive_solver) ltac:(naive_solver)) as [G1 G2 G3 G4 G5 G6 G7 G8].
  destruct (wo_known _ _ _ _ Hok _ _ _ id Hi Hph eq_refl) as (r & Hr & Hrk).
  assert (Hlt : i < length phs) by (by eapply lookup_lt_Some).
  assert (Hfresh : key ∉ w_successes w).
  { intros Hin. destruct (wo_success _ _ _ _ Hok _ Hin) as (id0 & r0 & Hr0 & Hk0 & _ & Ho).
    assert (id0 = id) as -> by (eapply (dbo_unique _ _ (wo_db _ _ _ _ Hok)); [done|done|congruence]).
    by specialize (Ho _ _ Hph eq_refl). }
  split; cbn in *; try done.
  - apply NoDup_app. split; [done|]. split; [|by apply NoDup_singleton].
    intros k Hk1 Hk2. apply list_elem_of_singleton in Hk2. by subst.
  - intros k [Hin|Hin]%elem_of_app; [by apply G8|]. apply list_elem_of_singleton in Hin. subst k.
    exists id, r. split; [done|]. split; [congruence|]. split.
    + rewrite (wo_processing _ _ _ _ Hok _ _ _ _ Hph eq_refl Hr). done.
    + intros j ph1 Hj Hid. pose proof (G5 j i ph1 (PRan id) id Hj) as Hij.
      rewrite list_lookup_insert_eq in Hij by done. specialize (Hij eq_refl Hid eq_refl). subst j.
      rewrite list_lookup_insert_eq in Hj by done. by simplify_eq.
Qed.

(** ** Every call keeps the invariant *)

(** The request after its next call, with the rest of the world. *)
Definition after_call (w : world) (i : nat) (rq : request) (f : fault) (res : D + E) : world :=
  let st := prog_step f res (w_clock w) (w_db w) (rq_prog rq) in
  MkWorld (w_clock w) st.1 (<[i := MkRequest (rq_key rq) st.2]> (w_requests w))
    (w_successes w ++ success_of rq res).

Definition call_ok (t0 B : Z) (w : world) (i : nat) (rq : request) (f : fault) (res : D + E) : Prop :=
  exists phs, world_ok t0 B (after_call w i rq f res) phs.

(** Reclaiming a record that its last owner marked as failed. *)
Lemma reclaim_ok t0 B w phs i key id now l e k f res :
  world_ok t0 B w phs ->
  w_requests w !! i = Some (MkRequest key (DoReclaim id IdempotencyStatusFailedRetryable now l e k)) ->
  phs !! i = Some (PSeen id) -> (B <= e)%Z ->
  follows t0 B key (PSeen id) (k None) -> follows t0 B key (PSeen id) (k (Some false)) ->
  follows t0 B key (PClaimed id) (k (Some true)) ->
  call_ok t0 B w i (MkRequest key (DoReclaim id IdempotencyStatusFailedRetryable now l e k)) f res.
Proof.
  intros Hok Hi Hph He F1 F2 F3. unfold call_ok, after_call, success_of. cbn [rq_prog rq_key].
  rewrite app_nil_r. unfold prog_step, TryReclaim, update_row.
  destruct (db_rows (w_db w) !! id) as [r|] eqn:Hr; [destruct (_ && _) eqn:Hc|]; cbn [fst snd].
  2,3: exists (<[i := PSeen id]> phs); destruct f; cbn [applied faulty];
    (eapply (world_ok_local _ _ _ _ _ (MkRequest key _)); [done|done|done|done|naive_solver..]).
  apply andb_true_iff in Hc as [Hst _]. apply String.eqb_eq in Hst.
  assert (Hoth : forall j phj, phs !! j = Some phj -> owned phj <> Some id).
  { intros j phj Hj Ho. pose proof (wo_processing _ _ _ _ Hok _ _ _ _ Hj Ho Hr) as Hp.
    rewrite Hst in Hp. discriminate. }
  assert (Hs : row_key r ∉ w_successes w).
  { intros Hin. destruct (wo_success _ _ _ _ Hok _ Hin) as (id0 & r0 & Hr0 & Hk0 & Hn & _).
    assert (id0 = id) as -> by (eapply (dbo_unique _ _ (wo_db _ _ _ _ Hok)); [done|done|congruence]).
    congruence. }
  destruct f; cbn [applied faulty].
  - exists (<[i := PClaimed id]> phs).
    eapply (world_ok_update _ _ _ _ _ (MkRequest key _)); try done; naive_solver.
  - exists (<[i := PSeen id]> phs).
    eapply (world_ok_local _ _ _ _ _ (MkRequest key _)); [done|done|done|done|naive_solver..].
  - exists (<[i := PSeen id]> phs).
    eapply (world_ok_update _ _ _ _ _ (MkRequest key _)); try done; naive_solver.
Qed.

(** Recording the end of the operation. *)
Lemma mark_ok t0 B w phs i rq ph id r r' p' f :
  world_ok t0 B w phs -> w_requests w !! i = Some rq -> phs !! i = Some ph ->
  owned ph = Some id -> db_rows (w_db w) !! id = Some r ->
  ir_ID r' = ir_ID r -> row_key r' = row_key r -> (B <= ir_ExpiresAt r')%Z ->
  (ph <> PRan id \/ ir_Status r' <> IdempotencyStatusFailedRetryable) ->
  follows t0 B (rq_key rq) PStart p' ->
  world_ok t0 B (MkWorld (w_clock w)
      (applied f (w_db w) (w_db w <| db_rows := <[id := r']> (db_rows (w_db w)) |>))
      (<[i := MkRequest (rq_key rq) p']> (w_requests w)) (w_successes w)) (<[i := PStart]> phs).
Proof.
  intros Hok Hi Hph Ho Hr E1 E2 E3 Hst Hf.
  assert (Hupd : world_ok t0 B (MkWorld (w_clock w) (w_db w <| db_rows := <[id := r']> (db_rows (w_db w)) |>)
      (<[i := MkRequest (rq_key rq) p']> (w_requests w)) (w_successes w)) (<[i := PStart]> phs)).
  { eapply world_ok_update; try done.
    - intros j phj Hj Hphj Hoj. apply Hj. by eapply (wo_exclusive _ _ _ _ Hok).
    - intros Hin. split; [|done].
      destruct (wo_success _ _ _ _ Hok _ Hin) as (id0 & r0 & Hr0 & Hk0 & _ & Hran).
      assert (id0 = id) as -> by (eapply (dbo_unique _ _ (wo_db _ _ _ _ Hok)); [done|done|congruence]).
      specialize (Hran _ _ Hph Ho). naive_solver. }
  destruct f; cbn [applied]; [done| |done].
  by eapply world_ok_local.
Qed.

(** A call that only reads: the phase may learn the record it read. *)
Lemma read_ok t0 B w phs i rq ph ph' p' :
  world_ok t0 B w phs -> w_requests w !! i = Some rq -> phs !! i = Some ph ->
  follows t0 B (rq_key rq) ph' p' ->
  (forall id, known ph' = Some id -> known ph = Some id \/
     exists r, db_rows (w_db w) !! id = Some r /\ rq_key rq = Some (row_key r)) ->
  (forall id, owned ph' = Some id -> owned ph = Some id) ->
  (forall id, owned ph' = Some id -> ph = PRan id -> ph' = PRan id) ->
  exists phs', world_ok t0 B (MkWorld (w_clock w) (w_db w)
    (<[i := MkRequest (rq_key rq) p']> (w_requests w)) (w_successes w ++ [])) phs'.
Proof. intros. rewrite app_nil_r. eexists. by eapply world_ok_local. Qed.

Lemma call_keeps t0 B w phs i rq f res :
  world_ok t0 B w phs -> (w_clock w < B)%Z -> w_requests w !! i = Some rq ->
  call_ok t0 B w i rq f res.
Proof.
  intros Hok HB Hi.
  destruct (Forall2_lookup_l _ _ _ _ _ (wo_follows _ _ _ _ Hok) Hi) as (ph & Hph & Hf).
  destruct rq as [key p]. cbn [rq_key rq_prog] in Hf.
  destruct Hf as [ph r|ph k Hk|r k Hkey Hst He F1 F2 F3|sc h k Hkey F1 F2 F3
    |id now l e k He F1 F2 F3|id p Hp|id k F1 F2|id reason l e k He Hk|id st body e k He Hk|p Hkey Hp|k Hkey Hk].
  - eapply (read_ok _ _ _ _ _ (MkRequest key _) ph ph); [done|done|done|apply fo_done|naive_solver..].
  - eapply (read_ok _ _ _ _ _ (MkRequest key _) ph ph); [done|done|done| |naive_solver..].
    apply Hk. split; [apply (wo_clock _ _ _ _ Hok)|done].
  - unfold call_ok, after_call, success_of, prog_step, CreateProcessing. cbn [rq_prog rq_key].
    rewrite app_nil_r.
    destruct (find_row (row_key r) (w_db w)) eqn:Hfind; cbn [fst snd].
    + destruct f; cbn [applied faulty]; eexists;
        (eapply (world_ok_local _ _ _ _ _ (MkRequest key _) _ _ PStart); [done|done|done|done|naive_solver..]).
    + destruct f; cbn [applied faulty]; eexists.
      * eapply (world_ok_create _ _ _ _ _ (MkRequest key _) _ (PClaimed (db_next (w_db w)))); eauto; by right.
      * eapply (world_ok_local _ _ _ _ _ (MkRequest key _) _ _ PStart); [done|done|done|done|naive_solver..].
      * eapply (world_ok_create _ _ _ _ _ (MkRequest key _) _ PStart); eauto; by left.
  - unfold call_ok, after_call, success_of, prog_step, GetByScopeAndKeyHash. cbn [rq_prog rq_key fst snd].
    destruct f; cbn [faulty].
    2,3: by eapply (read_ok _ _ _ _ _ (MkRequest key _) PStart PStart); [..|naive_solver|naive_solver|naive_solver].
    destruct (find_row (sc, h) (w_db w)) as [r|] eqn:Hfind.
    2: by eapply (read_ok _ _ _ _ _ (MkRequest key _) PStart PStart); [..|naive_solver|naive_solver|naive_solver].
    destruct (find_row_Some _ _ _ Hfind) as (Hk & id & Hr).
    destruct (dbo_id _ _ (wo_db _ _ _ _ Hok) _ _ Hr) as [Hid _].
    eapply (read_ok _ _ _ _ _ (MkRequest key _) PStart (PSeen (ir_ID r))); [done|done|done| | |done|done].
    + apply F3; [done|]. by eapply (dbo_live _ _ (wo_db _ _ _ _ Hok)).
    + intros id' [= <-]. right. exists r. cbn. rewrite Hid, Hkey, Hk. done.
  - by eapply reclaim_ok.
  - eapply (read_ok _ _ _ _ _ (MkRequest key _) (PClaimed id) (PRunning id));
      [done|done|done|exact Hp|naive_solver..].
  - destruct (wo_known _ _ _ _ Hok _ _ _ id Hi Hph eq_refl) as (r & Hr & Hrk). cbn in Hrk. subst key.
    destruct res as [d|err].
    + eexists. by eapply (world_ok_success _ _ _ _ _ (MkRequest (Some (row_key r)) _));
        [..|apply F1].
    + eapply (read_ok _ _ _ _ _ (MkRequest (Some (row_key r)) _) (PRunning id) (PBroke id));
        [done|done|done|apply F2|naive_solver..].
  - destruct (wo_known _ _ _ _ Hok _ _ _ id Hi Hph eq_refl) as (r & Hr & Hrk).
    unfold call_ok, after_call, success_of, prog_step, MarkFailedRetryable, update_row.
    cbn [rq_prog rq_key fst snd]. rewrite Hr, app_nil_r. cbn [fst snd]. eexists.
    eapply (mark_ok _ _ _ _ _ (MkRequest key _) (PBroke id)); try done. by left.
  - destruct (wo_known _ _ _ _ Hok _ _ _ id Hi Hph eq_refl) as (r & Hr & Hrk).
    unfold call_ok, after_call, success_of, prog_step, MarkSucceeded, update_row.
    cbn [rq_prog rq_key fst snd]. rewrite Hr, app_nil_r. cbn [fst snd]. eexists.
    eapply (mark_ok _ _ _ _ _ (MkRequest key _) (PRan id)); try done. by right.
  - eapply (read_ok _ _ _ _ _ (MkRequest key _) PFree PFree); [done|done|done|exact Hp|naive_solver..].
  - subst key. unfold call_ok, after_call, success_of. cbn [rq_prog rq_key prog_step fst snd].
    destruct res; (eapply (read_ok _ _ _ _ _ (MkRequest None _) PFree PFree);
      [done|done|done|apply Hk|naive_solver..]).
Qed.

Lemma step_keeps t0 window w w' phs :
  world_ok t0 (t0 + window) w phs -> wstep window w w' -> (w_clock w' < t0 + window)%Z ->
  exists phs', world_ok t0 (t0 + window) w' phs'.
Proof.
  intros Hok Hstep HB. destruct Hstep as [w t Ht|w opts Httl|w i rq f res Hi|w limit].
  - exists phs. destruct Hok. split; cbn in *; try done. lia.
  - destruct (Execute_follows t0 (t0 + window) opts ltac:(lia)) as (ph & Hkn & Hf).
    assert (Hno : owned ph = None) by (by destruct ph).
    exists (phs ++ [ph]). destruct Hok as [H1 H2 H3 H4 H5 H6 H7 H8].
    pose proof (Forall2_length _ _ _ H3) as Hlen. split; cbn in *; try done.
    + apply Forall2_app; [done|]. by constructor.
    + intros i rq ph0 id Hi Hp Hk. apply lookup_app_Some in Hp as [Hp|[Hge Hp]].
      * rewrite lookup_app_l in Hi by (rewrite Hlen; by eapply lookup_lt_Some). eauto.
      * apply list_lookup_singleton_Some in Hp as [_ <-]. congruence.
    + intros i j p1 p2 id Hp1 Hp2 Ho1 Ho2.
      apply lookup_snoc_Some in Hp1 as [[_ Hp1]|[_ <-]]; [|congruence].
      apply lookup_snoc_Some in Hp2 as [[_ Hp2]|[_ <-]]; [|congruence]. eauto.
    + intros i p1 id r Hp Ho. apply lookup_snoc_Some in Hp as [[_ Hp]|[_ <-]]; [|congruence]. eauto.
    + intros key Hkey. destruct (H8 key Hkey) as (id & r & Hr1 & Hr2 & Hr3 & Hr4).
      exists id, r. split_and!; try done. intros i p1 Hp Ho.
      apply lookup_snoc_Some in Hp as [[_ Hp]|[_ <-]]; [|congruence]. eauto.
  - by eapply call_keeps.
  - exists phs. rewrite (DeleteExpired_live (t0 + window)); [|apply Hok|done]. by destruct w.
Qed.

Lemma step_clock window w w' : wstep window w w' -> (w_clock w <= w_clock w')%Z.
Proof. destruct 1; cbn; lia. Qed.

Lemma steps_clock window w w' : rtc (wstep window) w w' -> (w_clock w <= w_clock w')%Z.
Proof. induction 1; [lia|]. pose proof (step_clock _ _ _ H). lia. Qed.

Lemma steps_keep t0 window w w' :
  rtc (wstep window) w w' -> (w_clock w' < t0 + window)%Z ->
  forall phs, world_ok t0 (t0 + window) w phs -> exists phs', world_ok t0 (t0 + window) w' phs'.
Proof.
  induction 1 as [w|w w1 w2 Hs Hr IH]; intros HB phs Hok; [by eauto|].
  pose proof (steps_clock _ _ _ Hr).
  destruct (step_keeps _ _ _ _ _ Hok Hs ltac:(lia)) as [phs' Hok']. by eapply IH.
Qed.

Lemma reachable_ok t0 window w :
  rtc (wstep window) (initial t0) w -> (w_clock w < t0 + window)%Z ->
  exists phs, world_ok t0 (t0 + window) w phs.
Proof.
  intros Hr HB. apply (steps_keep _ _ _ _ Hr HB []).
  split; cbn; try done; try apply empty_db_ok; try apply NoDup_nil_2.
  intros key Hin. by apply elem_of_nil in Hin.
Qed.

(** The operation of a request is running. *)
Definition running (rq : request) : Prop := exists k, rq_prog rq = DoExecEnd k.

Lemma running_phase t0 B key ph p k :
  follows t0 B (Some key) ph p -> p = DoExecEnd k -> exists id, ph = PRunning id.
Proof. intros Hf E0. destruct Hf; simplify_eq; eauto. Qed.

(** The two guarantees of the invariant. *)
Lemma invariant_exclusion t0 B w phs i j rq1 rq2 key :
  world_ok t0 B w phs ->
  w_requests w !! i = Some rq1 -> w_requests w !! j = Some rq2 ->
  rq_key rq1 = Some key -> rq_key rq2 = Some key -> running rq1 -> running rq2 -> i = j.
Proof.
  intros Hok Hi Hj K1 K2 [k1 R1] [k2 R2].
  destruct (Forall2_lookup_l _ _ _ _ _ (wo_follows _ _ _ _ Hok) Hi) as (p1 & Hp1 & F1).
  destruct (Forall2_lookup_l _ _ _ _ _ (wo_follows _ _ _ _ Hok) Hj) as (p2 & Hp2 & F2).
  rewrite K1 in F1. rewrite K2 in F2.
  destruct (running_phase _ _ _ _ _ _ F1 R1) as [id1 ->].
  destruct (running_phase _ _ _ _ _ _ F2 R2) as [id2 ->].
  destruct (wo_known _ _ _ _ Hok _ _ _ _ Hi Hp1 eq_refl) as (r1 & Hr1 & Hk1).
  destruct (wo_known _ _ _ _ Hok _ _ _ _ Hj Hp2 eq_refl) as (r2 & Hr2 & Hk2).
  assert (id1 = id2) as -> by (eapply (dbo_unique _ _ (wo_db _ _ _ _ Hok)); [done|done|congruence]).
  by eapply (wo_exclusive _ _ _ _ Hok).
Qed.

(** C5. Mutual exclusion: whatever the interleaving of concurrent requests,
    failing repository calls and cleanup runs, while the records live no two
    requests with the same scope and key are executing their operation at the
    same time. *)
Theorem idempotency_mutual_exclusion t0 window w i j rq1 rq2 key :
  rtc (wstep window) (initial t0) w -> (w_clock w < t0 + window)%Z ->
  w_requests w !! i = Some rq1 -> w_requests w !! j = Some rq2 -> i <> j ->
  rq_key rq1 = Some key -> rq_key rq2 = Some key ->
  running rq1 -> ~ running rq2.
Proof.
  intros Hr HB Hi Hj Hij K1 K2 R1 R2. destruct (reachable_ok _ _ _ Hr HB) as [phs Hok].
  apply Hij. by eapply invariant_exclusion.
Qed.

(** C4. At most one success: whatever the interleaving of concurrent requests,
    failing repository calls and cleanup runs, while the records live the
    operation of one scope and key succeeds at most once. *)
Theorem idempotency_at_most_one_success t0 window w :
  rtc (wstep window) (initial t0) w -> (w_clock w < t0 + window)%Z ->
  NoDup (w_successes w).
Proof.
  intros Hr HB. destruct (reachable_ok _ _ _ Hr HB) as [phs Hok]. apply Hok.
Qed.
End Concurrency.

(** ** Where a JSON text ends

    The last byte a scan consumes is never a closing parenthesis. *)

Definition ends_ok (s rest : string) : Prop :=
  exists pre c, s = pre +:+ String c rest /\ byte_of c <> 41%Z.

Lemma ends_ok_app p s rest : ends_ok s rest -> ends_ok (p +:+ s) rest.
Proof.
  intros (pre & c & -> & Hc). exists (p +:+ pre), c. by rewrite str_app_assoc.
Qed.

Lemma ends_ok_cons c s rest : ends_ok s rest -> ends_ok (String c s) rest.
Proof. apply (ends_ok_app (String c "")). Qed.

Lemma ends_ok_here c rest : byte_of c <> 41%Z -> ends_ok (String c rest) rest.
Proof. intros Hc. by exists "", c. Qed.

#[export] Hint Resolve ends_ok_cons ends_ok_here : gateway.

Lemma skip_ws_suffix s : exists w, s = w +:+ skip_ws s.
Proof.
  induction s as [|c s [w IH]]; cbn; [by exists ""|]. case_test; [|by exists ""].
  exists (String c w). cbn. by rewrite <- IH.
Qed.

Lemma ends_ok_ws s rest : ends_ok (skip_ws s) rest -> ends_ok s rest.
Proof. intros H. destruct (skip_ws_suffix s) as [w Hw]. rewrite Hw. by apply ends_ok_app. Qed.

Lemma skip_string_body_ends n s rest :
  String.length s <= n -> skip_string_body s = Some rest -> ends_ok s rest.
Proof.
  revert s; induction n as [|n IH]; intros [|c r] Hn; cbn in *; try done; [lia|].
  destruct (Z.eqb_spec (byte_of c) 34) as [Hc|_].
  { intros [= <-]. apply ends_ok_here. lia. }
  destruct (byte_of c =? 92)%Z.
  - destruct r as [|e r1]; [done|]. cbn in Hn.
    destruct (is_simple_escape e); [intros H; do 2 apply ends_ok_cons; apply IH; [lia|done]|].
    destruct (byte_of e =? 117)%Z; [|done].
    destruct r1 as [|a [|b [|c' [|d r2]]]]; try done. cbn in Hn.
    destruct (_ && _); [|done]. intros H. do 6 apply ends_ok_cons. apply IH; [lia|done].
  - destruct (byte_of c <? 32)%Z; [done|]. intros H. apply ends_ok_cons, IH; [lia|done].
Qed.

Lemma digit_not_paren c : is_digit c = true -> byte_of c <> 41%Z.
Proof. unfold is_digit. intros H. reflect_bool. lia. Qed.

Lemma skip_digits_ends c s : is_digit c = true -> ends_ok (String c s) (skip_digits s).
Proof.
  revert c; induction s as [|c' s IH]; intros c Hc; cbn.
  - by apply ends_ok_here, digit_not_paren.
  - destruct (is_digit c') eqn:E; [by apply ends_ok_cons, IH|].
    by apply ends_ok_here, digit_not_paren.
Qed.

Lemma skip_digits1_ends s rest : skip_digits1 s = Some rest -> ends_ok s rest.
Proof.
  destruct s as [|c s]; cbn; [done|]. destruct (is_digit c) eqn:E; [|done].
  intros [= <-]. by apply skip_digits_ends.
Qed.

Lemma skip_exponent_ends s rest : skip_exponent s = Some rest -> rest = s \/ ends_ok s rest.
Proof.
  destruct s as [|c r]; cbn; [naive_solver|]. case_test; [|naive_solver].
  destruct r as [|sg r']; [done|].
  destruct ((byte_of sg =? 43) || (byte_of sg =? 45))%Z; intros H; right.
  - do 2 apply ends_ok_cons. by apply skip_digits1_ends.
  - apply ends_ok_cons. by apply skip_digits1_ends.
Qed.

Lemma skip_fraction_ends s rest : skip_fraction s = Some rest -> rest = s \/ ends_ok s rest.
Proof.
  destruct s as [|c r]; cbn [skip_fraction]; [naive_solver|].
  destruct (byte_of c =? 46)%Z; [|apply skip_exponent_ends].
  destruct (skip_digits1 r) as [r'|] eqn:E; [|done]. apply skip_digits1_ends in E as (pre & d & -> & Hd).
  intros H. right. apply skip_exponent_ends in H as [-> | H].
  - apply ends_ok_cons, ends_ok_app. by apply ends_ok_here.
  - apply ends_ok_cons, ends_ok_app, ends_ok_cons, H.
Qed.

Lemma skip_unsigned_ends s rest : skip_unsigned s = Some rest -> ends_ok s rest.
Proof.
  destruct s as [|c r]; cbn [skip_unsigned]; [done|].
  destruct (Z.eqb_spec (byte_of c) 48) as [Hc|_].
  - intros [-> | H]%skip_fraction_ends; [apply ends_ok_here; lia|by apply ends_ok_cons].
  - destruct (is_digit c) eqn:E; [|done].
    destruct (skip_digits_ends c r E) as (pre & d & -> & Hd).
    intros [-> | H]%skip_fraction_ends; apply ends_ok_app; [by apply ends_ok_here|by apply ends_ok_cons].
Qed.

Lemma skip_number_ends s rest : skip_number s = Some rest -> ends_ok s rest.
Proof.
  destruct s as [|c r]; cbn [skip_number]; [done|].
  destruct (byte_of c =? 45)%Z; [intros H; apply ends_ok_cons|]; by apply skip_unsigned_ends.
Qed.

Lemma CutPrefix_app s p r : CutPrefix s p = Some r -> s = p +:+ r.
Proof.
  unfold CutPrefix. destruct (HasPrefix s p) eqn:E; [|done]. intros [= <-].
  by apply HasPrefix_drop.
Qed.

Lemma skip_literal_ends s rest : skip_literal s = Some rest -> ends_ok s rest.
Proof.
  unfold skip_literal. destruct (CutPrefix s "true") eqn:E1.
  { intros [= <-]. apply CutPrefix_app in E1. subst s. by exists "tru", "e"%char. }
  destruct (CutPrefix s "false") eqn:E2.
  { intros [= <-]. apply CutPrefix_app in E2. subst s. by exists "fals", "e"%char. }
  intros E3. apply CutPrefix_app in E3. subst s. by exists "nul", "l"%char.
Qed.

Lemma skip_value_ends n :
  (forall depth s rest, skip_value n depth s = Some rest -> ends_ok s rest) /\
  (forall depth s rest, skip_members n depth s = Some rest -> ends_ok s rest) /\
  (forall depth s rest, skip_elems n depth s = Some rest -> ends_ok s rest).
Proof.
  induction n as [|n (IHv & IHm & IHe)]; [done|]. split_and!; intros depth s rest.
  - cbn. destruct s as [|c r]; [done|].
    destruct (byte_of c =? 123)%Z; [|destruct (byte_of c =? 91)%Z].
    1,2: destruct (_ <? _)%Z; [done|]; destruct (skip_ws r) as [|c' r'] eqn:Ew; [done|];
      intros H; apply ends_ok_cons, ends_ok_ws; rewrite Ew.
    + destruct (Z.eqb_spec (byte_of c') 125); [simplify_eq; apply ends_ok_here; lia|by eapply IHm].
    + destruct (Z.eqb_spec (byte_of c') 93); [simplify_eq; apply ends_ok_here; lia|by eapply IHe].
    + destruct (byte_of c =? 34)%Z; [intros H; by eapply ends_ok_cons, skip_string_body_ends|].
      destruct (_ || _); [apply skip_number_ends|apply skip_literal_ends].
  - cbn. destruct s as [|c r]; [done|]. destruct (negb _); [done|].
    destruct (skip_string_body r) as [r1|] eqn:E1; [|done].
    eapply skip_string_body_ends in E1 as (p1 & d1 & -> & _); [|done].
    destruct (skip_ws r1) as [|c2 r2] eqn:E2; [done|]. destruct (negb _); [done|].
    destruct (skip_value n depth (skip_ws r2)) as [r3|] eqn:E3; [|done].
    apply IHv in E3 as (p3 & d3 & E3 & _).
    destruct (skip_ws r3) as [|c4 r4] eqn:E4; [done|]. intros H.
    apply ends_ok_cons, ends_ok_app, ends_ok_cons, ends_ok_ws. rewrite E2.
    apply ends_ok_cons, ends_ok_ws. rewrite E3. apply ends_ok_app, ends_ok_cons, ends_ok_ws. rewrite E4.
    destruct (Z.eqb_spec (byte_of c4) 125); [simplify_eq; apply ends_ok_here; lia|].
    destruct (_ =? _)%Z; [|done]. by eapply ends_ok_cons, ends_ok_ws, IHm.
  - cbn. destruct (skip_value n depth s) as [r1|] eqn:E1; [|done].
    apply IHv in E1 as (p1 & d1 & -> & _).
    destruct (skip_ws r1) as [|c2 r2] eqn:E2; [done|]. intros H.
    apply ends_ok_app, ends_ok_cons, ends_ok_ws. rewrite E2.
    destruct (Z.eqb_spec (byte_of c2) 93); [simplify_eq; apply ends_ok_here; lia|].
    destruct (_ =? _)%Z; [|done]. by eapply ends_ok_cons, ends_ok_ws, IHe.
Qed.

Fixpoint last_byte (s : string) : option ascii :=
  match s with
  | EmptyString => None
  | String c EmptyString => Some c
  | String _ s' => last_byte s'
  end.

Lemma last_byte_app p c s : last_byte (p +:+ String c s) = last_byte (String c s).
Proof.
  induction p as [|d p IH]; [done|]. cbn [String.append]. rewrite <- IH. by destruct p.
Qed.

Lemma last_byte_ws c s : skip_ws s = "" -> last_byte (String c s) = Some c \/
  exists d, last_byte (String c s) = Some d /\ is_json_space d = true.
Proof.
  revert c; induction s as [|d s IH]; intros c Hs; [by left|]. cbn in Hs.
  destruct (is_json_space d) eqn:E; [|done]. right.
  change (last_byte (String c (String d s))) with (last_byte (String d s)).
  destruct (IH d Hs) as [->|]; eauto.
Qed.

Lemma Valid_last_byte s c : Valid s = true -> last_byte s = Some c -> byte_of c <> 41%Z.
Proof.
  unfold Valid. destruct (skip_value _ _ _) as [rest|] eqn:E; [|done].
  intros Hws Hl. apply is_empty_true in Hws.
  apply (proj1 (skip_value_ends _)) in E. apply ends_ok_ws in E as (pre & d & -> & Hd).
  rewrite last_byte_app in Hl. destruct (last_byte_ws d rest Hws) as [Hd'|(e & He & Hsp)].
  - congruence.
  - assert (c = e) as -> by congruence. unfold is_json_space in Hsp. intros H. by rewrite H in Hsp.
Qed.

Lemma truncated_not_valid s : Valid (s +:+ truncationSuffix) = false.
Proof.
  destruct (Valid _) eqn:E; [|done]. exfalso.
  apply (Valid_last_byte _ ")"%char) in E; [by apply E|].
  unfold truncationSuffix. by rewrite last_byte_app.
Qed.

Lemma str_rev_append_app s t acc : str_rev_append (s +:+ t) acc = str_rev_append t (str_rev_append s acc).
Proof. revert acc; induction s as [|c s IH]; intros acc; [done|]. cbn. apply IH. Qed.

Lemma str_rev_append_length s acc :
  String.length (str_rev_append s acc) = String.length s + String.length acc.
Proof. revert acc; induction s as [|c s IH]; intros acc; cbn; [done|]. rewrite IH. cbn. lia. Qed.

(** The marker's first byte does not complete a blank. *)
Lemma is_space2_dot a : is_space2 a "."%char = false.
Proof. unfold is_space2. apply andb_false_r. Qed.

Lemma is_space3_dot2 a c : is_space3 a "."%char c = false.
Proof. unfold is_space3. cbn. by rewrite !andb_false_r. Qed.

Lemma is_space3_dot3 a b : is_space3 a b "."%char = false.
Proof. unfold is_space3. cbn. by rewrite !andb_false_r. Qed.

(** Its last byte is not the end of a blank. *)
Lemma trim_left_rev_paren r : trim_left_rev (String ")"%char r) = String ")"%char r.
Proof.
  cbn. destruct r as [|b [|a r]]; [done|..]; unfold is_space2, is_space3; cbn;
    by rewrite !andb_false_r.
Qed.

(** Trimming keeps a text that ends in a byte that is not a blank. *)
Lemma trim_left_suffix s t :
  trim_left (s +:+ truncationSuffix) = t -> exists u, t = u +:+ truncationSuffix.
Proof.
  intros <-. remember (String.length s) as n eqn:En. assert (Hn : String.length s <= n) by lia. clear En.
  revert s Hn; induction n as [|n IH]; intros s Hn.
  - destruct s; [|cbn in Hn; lia]. by exists "".
  - destruct s as [|a s]; [by exists ""|]. cbn in Hn. cbn [String.append trim_left].
    destruct (is_space1 a); [apply IH; lia|].
    destruct s as [|b s].
    { exists (String a ""). cbn. by rewrite is_space2_dot, is_space3_dot2. }
    cbn in Hn. cbn [String.append].
    destruct (is_space2 a b); [apply IH; lia|].
    destruct s as [|c s].
    { exists (String a (String b "")). cbn. by rewrite is_space3_dot3. }
    cbn in Hn. cbn [String.append].
    destruct (is_space3 a b c); [apply IH; lia|]. by exists (String a (String b (String c s))).
Qed.

Lemma truncated_not_blank s : is_empty (TrimSpace (s +:+ truncationSuffix)) = false.
Proof.
  apply is_empty_false. unfold TrimSpace.
  destruct (trim_left_suffix s _ eq_refl) as [u ->]. unfold trim_right, str_rev.
  rewrite str_rev_append_app. set (acc := str_rev_append u "").
  change (str_rev_append truncationSuffix acc)
    with (String ")"%char (str_rev_append "...(truncated" acc)).
  rewrite trim_left_rev_paren. intros H. apply (f_equal String.length) in H. revert H.
  rewrite str_rev_append_length. cbn [String.length]. lia.
Qed.

Lemma find_row_lookup B db id r :
  db_ok B db -> db_rows db !! id = Some r -> find_row (row_key r) db = Some r.
Proof.
  intros Hok Hr. destruct (find_row (row_key r) db) as [r2|] eqn:Hf.
  - destruct (find_row_Some _ _ _ Hf) as (Hk & id2 & Hr2).
    assert (id2 = id) as -> by (by eapply (dbo_unique _ _ Hok)). congruence.
  - by destruct (find_row_None _ _ _ _ Hf Hr).
Qed.

Lemma find_row_updated B db id r r' :
  db_ok B db -> db_rows db !! id = Some r ->
  ir_ID r' = ir_ID r -> row_key r' = row_key r -> (B <= ir_ExpiresAt r')%Z ->
  find_row (row_key r) (db <| db_rows := <[id := r']> (db_rows db) |>) = Some r'.
Proof.
  intros Hok Hr E1 E2 E3. rewrite <- E2. eapply (find_row_lookup B _ id); [|apply lookup_insert_eq].
  by eapply db_ok_update.
Qed.

(** ** One request at a time *)

Section Sequential.
Context {D E : Type}.
Context (marshal : D -> option string) (reason_of : E -> string) (redact : string -> string)
        (numbers_fit : string -> bool) (unicode_upper : string -> string).
Context (cfg : IdempotencyConfig).

Notation program opts := (Execute marshal reason_of redact numbers_fit unicode_upper cfg true opts).

(** A request with a valid key, a scope and an encodable payload. *)
Record keyed (opts : IdempotencyExecuteOptions) (key fp : string) : Prop := {
  ky_key : NormalizeIdempotencyKey (io_IdempotencyKey opts) = Some key;
  ky_nonempty : is_empty key = false;
  ky_scope : is_empty (io_Scope opts) = false;
  ky_fp : BuildIdempotencyFingerprint unicode_upper (io_Method opts) (io_Route opts)
            (io_ActorScope opts) (io_Payload opts) = Some fp
}.

Lemma Execute_keyed opts key fp :
  keyed opts key fp ->
  program opts = executeKeyed marshal reason_of redact numbers_fit cfg opts (HashIdempotencyKey key) fp.
Proof. intros [H1 H2 H3 H4]. unfold Execute. by rewrite H1, H2, H3, H4. Qed.

(** The answer to a request whose record exists and cannot be claimed. *)
Definition settled_outcome (clock : Z) (fp : string) (r : IdempotencyRecord) : option (outcome D E) :=
  if negb (ir_RequestFingerprint r =s fp) then Some (inr ErrIdempotencyKeyConflict)
  else if (ir_ExpiresAt r <=? clock)%Z then None
  else if ir_Status r =s IdempotencyStatusSucceeded then
    Some (match decodeStoredResponse numbers_fit (ir_ResponseBody r) with
          | Some data => inl (MkResult (Stored data) true)
          | None => inr ErrIdempotencyStoreUnavail
          end)
  else if ir_Status r =s IdempotencyStatusProcessing then
    Some (inr (ErrIdempotencyInProgress (retryAfter (ir_LockedUntil r) clock)))
  else if ir_Status r =s IdempotencyStatusFailedRetryable then
    if lock_free clock r then None
    else Some (inr (ErrIdempotencyRetryBackoff (retryAfter (ir_LockedUntil r) clock)))
  else Some (inr ErrIdempotencyKeyConflict).

Lemma run_alone_existing opts key fp res clock db r n :
  keyed opts key fp -> find_row (io_Scope opts, HashIdempotencyKey key) db = Some r ->
  run_alone (S (S n)) res clock db (program opts) =
  run_alone n res clock db
    (executeExisting marshal reason_of redact numbers_fit cfg (io_Scope opts)
       (HashIdempotencyKey key) fp clock (clock + icfg_ProcessingTimeout cfg)
       (clock + effectiveTTL cfg opts)).
Proof.
  intros Hk Hf. rewrite (Execute_keyed _ _ _ Hk). unfold executeKeyed.
  cbn [run_alone prog_step]. unfold CreateProcessing.
  change (row_key (zero_IdempotencyRecord <| ir_Scope := io_Scope opts |>
      <| ir_IdempotencyKeyHash := HashIdempotencyKey key |> <| ir_RequestFingerprint := fp |>
      <| ir_Status := IdempotencyStatusProcessing |>
      <| ir_LockedUntil := Some (clock + icfg_ProcessingTimeout cfg)%Z |>
      <| ir_ExpiresAt := (clock + effectiveTTL cfg opts)%Z |>))
    with (io_Scope opts, HashIdempotencyKey key).
  rewrite Hf. cbn [applied faulty].
  by destruct (run_alone n res clock db _) as [[[? ?] ?]|].
Qed.

(** No second execution: a request whose key is already recorded with
    another payload, or whose record is alive and succeeded, still processing,
    or failed less than the backoff ago, returns the conflict, the stored
    response or the retry time without running its operation and without
    changing the table. *)
Theorem settled_record_not_executed opts key fp res clock db r out :
  keyed opts key fp -> find_row (io_Scope opts, HashIdempotencyKey key) db = Some r ->
  settled_outcome clock fp r = Some out ->
  run_alone 4 res clock db (program opts) = Some (db, out, 0).
Proof.
  intros Hk Hf Ho. rewrite (run_alone_existing _ _ _ _ _ _ _ _ Hk Hf).
  unfold executeExisting. cbn [run_alone prog_step]. unfold GetByScopeAndKeyHash. rewrite Hf.
  cbn [faulty]. unfold settled_outcome in Ho.
  destruct (negb (ir_RequestFingerprint r =s fp)); [by simplify_eq|].
  rewrite Z.ltb_antisym. destruct (ir_ExpiresAt r <=? clock)%Z; [done|]. cbn [negb].
  unfold resolveExisting.
  destruct (ir_Status r =s IdempotencyStatusSucceeded).
  { simplify_eq. by destruct (decodeStoredResponse numbers_fit (ir_ResponseBody r)). }
  destruct (ir_Status r =s IdempotencyStatusProcessing); [by simplify_eq|].
  destruct (ir_Status r =s IdempotencyStatusFailedRetryable); [|by simplify_eq].
  destruct (lock_free clock r); by simplify_eq.
Qed.

(** The row that creating the record inserts. *)
Definition claimed_row (id : Z) (opts : IdempotencyExecuteOptions) (key fp : string) (clock : Z)
    : IdempotencyRecord :=
  zero_IdempotencyRecord
    <| ir_ID := id |>
    <| ir_Scope := io_Scope opts |>
    <| ir_IdempotencyKeyHash := HashIdempotencyKey key |>
    <| ir_RequestFingerprint := fp |>
    <| ir_Status := IdempotencyStatusProcessing |>
    <| ir_LockedUntil := Some (clock + icfg_ProcessingTimeout cfg)%Z |>
    <| ir_ExpiresAt := (clock + effectiveTTL cfg opts)%Z |>
    <| ir_CreatedAt := clock |> <| ir_UpdatedAt := clock |>.

(** A fresh key is claimed by creating its record. *)
Lemma fresh_claim opts key fp clock db B :
  db_ok B db -> find_row (io_Scope opts, HashIdempotencyKey key) db = None ->
  (B <= clock + effectiveTTL cfg opts)%Z -> keyed opts key fp ->
  exists db1 row,
    db_ok B db1 /\ db_rows db1 !! db_next db = Some row /\ ir_ID row = db_next db /\
    row_key row = (io_Scope opts, HashIdempotencyKey key) /\ ir_RequestFingerprint row = fp /\
    forall n res, run_alone (S (S n)) res clock db (program opts)
      = run_alone n res clock db1
          (executeOwned marshal reason_of redact cfg (db_next db) (clock + effectiveTTL cfg opts)).
Proof.
  intros Hok Hf HB Hk. set (row := claimed_row (db_next db) opts key fp clock).
  exists (db <| db_rows := <[db_next db := row]> (db_rows db) |> <| db_next := (db_next db + 1)%Z |>), row.
  split; [by apply db_ok_create|]. split; [apply lookup_insert_eq|].
  split; [reflexivity|]. split; [reflexivity|]. split; [reflexivity|].
  intros n res. rewrite (Execute_keyed _ _ _ Hk). unfold executeKeyed.
  cbn [run_alone prog_step]. unfold CreateProcessing.
  match goal with |- context [find_row ?k db] =>
    change k with (io_Scope opts, HashIdempotencyKey key) end.
  rewrite Hf. cbn [applied faulty].
  by destruct (run_alone n res clock _ _) as [[[? ?] ?]|].
Qed.

(** The table after the operation of a fresh request ended. *)
Lemma fresh_success opts key fp clock db B d raw :
  db_ok B db -> find_row (io_Scope opts, HashIdempotencyKey key) db = None ->
  (B <= clock + effectiveTTL cfg opts)%Z -> keyed opts key fp -> marshal d = Some raw ->
  exists db1 r,
    run_alone 6 (inl d) clock db (program opts) = Some (db1, inl (MkResult (Fresh d) false), 1) /\
    find_row (io_Scope opts, HashIdempotencyKey key) db1 = Some r /\
    ir_RequestFingerprint r = fp /\ ir_Status r = IdempotencyStatusSucceeded /\
    ir_ExpiresAt r = (clock + effectiveTTL cfg opts)%Z /\
    ir_ResponseBody r = Some (storedBody redact cfg raw).
Proof.
  intros Hok Hf HB Hk Hm.
  destruct (fresh_claim opts key fp clock db B Hok Hf HB Hk)
    as (db1 & row & Hok1 & Hrow & E1 & E2 & E3 & Hrun). rewrite Hrun. unfold executeOwned.
  pose proof (dbo_next _ _ Hok) as Hn. destruct (Z.eqb_spec (db_next db) 0); [lia|].
  cbn [run_alone prog_step]. rewrite Hm. cbn [run_alone prog_step applied].
  unfold MarkSucceeded, update_row. rewrite Hrow. cbn [snd].
  eexists _, _. split; [reflexivity|]. split.
  - rewrite <- E2. by eapply (find_row_updated B).
  - done.
Qed.

Lemma fresh_failure opts key fp clock db B e :
  db_ok B db -> find_row (io_Scope opts, HashIdempotencyKey key) db = None ->
  (B <= clock + effectiveTTL cfg opts)%Z -> keyed opts key fp ->
  exists db1 id r,
    run_alone 7 (inr e) clock db (program opts) = Some (db1, inr (ErrExecution e), 1) /\
    db_ok B db1 /\ db_rows db1 !! id = Some r /\ (0 < id)%Z /\ ir_ID r = id /\
    row_key r = (io_Scope opts, HashIdempotencyKey key) /\
    ir_RequestFingerprint r = fp /\ ir_Status r = IdempotencyStatusFailedRetryable /\
    ir_ExpiresAt r = (clock + effectiveTTL cfg opts)%Z /\
    ir_LockedUntil r = Some (clock + icfg_FailedRetryBackoff cfg)%Z.
Proof.
  intros Hok Hf HB Hk.
  destruct (fresh_claim opts key fp clock db B Hok Hf HB Hk)
    as (db1 & row & Hok1 & Hrow & E1 & E2 & E3 & Hrun). rewrite Hrun. unfold executeOwned.
  pose proof (dbo_next _ _ Hok) as Hn. destruct (Z.eqb_spec (db_next db) 0); [lia|].
  cbn [run_alone prog_step applied].
  unfold MarkFailedRetryable, update_row. rewrite Hrow. cbn [snd].
  eexists _, (db_next db), _. split; [reflexivity|].
  split; [by eapply db_ok_update|]. split; [apply lookup_insert_eq|].
  split_and!; [lia|exact E1|exact E2|exact E3|done..].
Qed.


(** Oversized responses cannot be replayed: when the redacted response is
    longer than the configured limit, what is stored is the truncated text
    followed by a marker, which is never valid JSON, so every later identical
    request before expiry fails with "store unavailable" although the first
    one succeeded. *)
Theorem oversized_response_never_replays opts key fp clock db B d raw :
  db_ok B db -> find_row (io_Scope opts, HashIdempotencyKey key) db = None ->
  (B <= clock + effectiveTTL cfg opts)%Z -> keyed opts key fp -> marshal d = Some raw ->
  (0 < icfg_MaxStoredResponseLen cfg < strlen (redact raw))%Z ->
  exists db1,
    run_alone 6 (inl d) clock db (program opts) = Some (db1, inl (MkResult (Fresh d) false), 1) /\
    forall clock' res, (clock' < clock + effectiveTTL cfg opts)%Z ->
      run_alone 4 res clock' db1 (program opts) = Some (db1, inr ErrIdempotencyStoreUnavail, 0).
Proof.
  intros Hok Hf HB Hk Hm [Hl1 Hl2].
  destruct (fresh_success opts key fp clock db B d raw Hok Hf HB Hk Hm)
    as (db1 & r & Hrun & Hf1 & E1 & E2 & E3 & E4).
  exists db1. split; [done|]. intros clock' res Ht.
  rewrite (run_alone_existing _ _ _ _ _ _ _ _ Hk Hf1). unfold executeExisting.
  cbn [run_alone prog_step]. unfold GetByScopeAndKeyHash. rewrite Hf1. cbn [faulty].
  rewrite E1, String.eqb_refl. cbn [negb]. rewrite E3, (proj2 (Z.ltb_lt _ _) Ht).
  unfold resolveExisting. rewrite E2, E4. cbn [String.eqb].
  unfold decodeStoredResponse, storedBody.
  rewrite (proj2 (Z.ltb_lt _ _) Hl1), (proj2 (Z.ltb_lt _ _) Hl2). cbn [andb].
  rewrite truncated_not_valid, truncated_not_blank. done.
Qed.

(** Failures can be retried: when the operation of a fresh request fails,
    its error is returned and recorded; identical requests are refused with a
    retry time until the backoff is over, and from then on until expiry the
    next one runs the operation again. *)
Theorem failed_request_then_retry opts key fp clock db B e :
  db_ok B db -> find_row (io_Scope opts, HashIdempotencyKey key) db = None ->
  (B <= clock + effectiveTTL cfg opts)%Z -> keyed opts key fp ->
  exists db1,
    run_alone 7 (inr e) clock db (program opts) = Some (db1, inr (ErrExecution e), 1) /\
    (forall clock' res, (clock' < clock + effectiveTTL cfg opts)%Z ->
       (clock' < clock + icfg_FailedRetryBackoff cfg)%Z ->
       run_alone 4 res clock' db1 (program opts) = Some (db1, inr (ErrIdempotencyRetryBackoff
         (retryAfter (Some (clock + icfg_FailedRetryBackoff cfg)%Z) clock')), 0)) /\
    (forall clock' d raw, (clock' < clock + effectiveTTL cfg opts)%Z ->
       (clock + icfg_FailedRetryBackoff cfg <= clock')%Z -> marshal d = Some raw ->
       exists db2, run_alone 8 (inl d) clock' db1 (program opts)
                   = Some (db2, inl (MkResult (Fresh d) false), 1)).
Proof.
  intros Hok Hf HB Hk.
  destruct (fresh_failure opts key fp clock db B e Hok Hf HB Hk)
    as (db1 & id & r & Hrun & Hok1 & Hr & Hid & Eid & Ekey & E1 & E2 & E3 & E4).
  pose proof (find_row_lookup B db1 id r Hok1 Hr) as Hf1. rewrite Ekey in Hf1.
  exists db1. split; [done|]. split.
  - intros clock' res Ht Hb.
    rewrite (run_alone_existing _ _ _ _ _ _ _ _ Hk Hf1). unfold executeExisting.
    cbn [run_alone prog_step]. unfold GetByScopeAndKeyHash. rewrite Hf1. cbn [faulty].
    rewrite E1, String.eqb_refl. cbn [negb]. rewrite E3, (proj2 (Z.ltb_lt _ _) Ht).
    unfold resolveExisting, lock_free. rewrite E2, E4. cbn [String.eqb].
    by rewrite (proj2 (Z.leb_gt _ _) Hb).
  - intros clock' d raw Ht Hb Hm.
    rewrite (run_alone_existing _ _ _ _ _ _ _ _ Hk Hf1). unfold executeExisting.
    cbn [run_alone prog_step]. unfold GetByScopeAndKeyHash. rewrite Hf1. cbn [faulty].
    rewrite E1, String.eqb_refl. cbn [negb]. rewrite E3, (proj2 (Z.ltb_lt _ _) Ht).
    unfold resolveExisting. rewrite E2.
    assert (Hlf : lock_free clock' r = true) by (unfold lock_free; rewrite E4; by apply Z.leb_le).
    change (IdempotencyStatusFailedRetryable =s IdempotencyStatusSucceeded) with false.
    change (IdempotencyStatusFailedRetryable =s IdempotencyStatusProcessing) with false.
    rewrite String.eqb_refl, Hlf, Eid. cbn [negb].
    cbn [run_alone prog_step]. unfold TryReclaim, update_row. rewrite Hr, E2, Hlf, String.eqb_refl.
    cbn [applied faulty andb]. unfold executeOwned. destruct (Z.eqb_spec id 0); [lia|].
    cbn [run_alone prog_step]. rewrite Hm. cbn [run_alone prog_step applied]. eauto.
Qed.
End Sequential.

(** ** Concrete requests *)

Definition wit_opts : IdempotencyExecuteOptions :=
  zero_IdempotencyExecuteOptions <| io_Scope := "orders" |> <| io_IdempotencyKey := "k1" |>
    <| io_Payload := Some "{}" |>.

Definition wit_fp : string :=
  sha256_hex (fingerprintInput (fun s => s) (io_Method wit_opts) (io_Route wit_opts)
    (io_ActorScope wit_opts) "{}").

Definition wit_execute (cfg : IdempotencyConfig) : prog string string :=
  Execute Some (fun e => e) (fun s => s) (fun _ => true) (fun s => s) cfg true wit_opts.

Lemma wit_keyed : keyed (fun s => s) wit_opts "k1" wit_fp.
Proof. split; vm_compute; reflexivity. Qed.

Definition wit_succeeded : IdempotencyRecord :=
  zero_IdempotencyRecord <| ir_ID := 1%Z |> <| ir_Scope := "orders" |>
    <| ir_IdempotencyKeyHash := HashIdempotencyKey "k1" |> <| ir_RequestFingerprint := wit_fp |>
    <| ir_Status := IdempotencyStatusSucceeded |> <| ir_ResponseBody := Some "[1]" |>
    <| ir_ExpiresAt := 100%Z |>.


(** Two requests with one key; the first one is executing. *)
Notation wit_world := (world (D := string) (E := string)).

Definition wit_world0 : wit_world := initial 0.

Definition wit_arrive (w : wit_world) : wit_world :=
  MkWorld (w_clock w) (w_db w)
    (w_requests w ++ [MkRequest (request_key wit_opts) (wit_execute DefaultIdempotencyConfig)])
    (w_successes w).

Definition wit_call (i : nat) (w : wit_world) : wit_world :=
  match w_requests w !! i with
  | Some rq => after_call w i rq NoFault (inl "[1]")
  | None => w
  end.

Lemma wit_arrive_step w : wstep Some (fun e => e) (fun s => s) (fun _ => true) (fun s => s)
  DefaultIdempotencyConfig true second w (wit_arrive w).
Proof. apply ws_arrive. vm_compute. discriminate. Qed.

Lemma wit_call_steps i w : rtc (wstep Some (fun e => e) (fun s => s) (fun _ => true) (fun s => s)
  DefaultIdempotencyConfig true second) w (wit_call i w).
Proof.
  unfold wit_call. destruct (w_requests w !! i) eqn:E; [|done]. apply rtc_once. by apply ws_call.
Qed.

Definition wit_running : wit_world := wit_call 0 (wit_call 0 (wit_call 0 (wit_arrive (wit_arrive wit_world0)))).

Lemma wit_running_reachable : rtc (wstep Some (fun e => e) (fun s => s) (fun _ => true) (fun s => s)
  DefaultIdempotencyConfig true second) (initial 0) wit_running.
Proof.
  eapply rtc_l; [apply wit_arrive_step|]. eapply rtc_l; [apply wit_arrive_step|].
  do 2 (etransitivity; [apply (wit_call_steps 0)|]). apply (wit_call_steps 0).
Qed.

Definition wit_request (i : nat) (w : wit_world) : request :=
  default (MkRequest None (wit_execute DefaultIdempotencyConfig)) (w_requests w !! i).

Lemma idempotency_mutual_exclusion_witness :
  running (wit_request 0 wit_running) /\ ~ running (wit_request 1 wit_running).
Proof.
  assert (R : running (wit_request 0 wit_running)) by (eexists; reflexivity).
  split; [exact R|].
  apply (idempotency_mutual_exclusion Some (fun e => e) (fun s => s) (fun _ => true) (fun s => s)
    DefaultIdempotencyConfig true 0 second wit_running 0 1 (wit_request 0 wit_running)
    (wit_request 1 wit_running) ("orders", HashIdempotencyKey "k1"));
    [apply wit_running_reachable | reflexivity | reflexivity | reflexivity | discriminate
    | reflexivity | reflexivity | exact R].
Defined.

Lemma idempotency_at_most_one_success_witness :
  w_successes (wit_call 0 wit_running) = [("orders", HashIdempotencyKey "k1")] /\
  NoDup (w_successes (wit_call 0 wit_running)).
Proof.
  split; [reflexivity|].
  apply (idempotency_at_most_one_success Some (fun e => e) (fun s => s) (fun _ => true) (fun s => s)
    DefaultIdempotencyConfig true 0 second (wit_call 0 wit_running)); [|reflexivity].
  etransitivity; [apply wit_running_reachable|apply (wit_call_steps 0)].
Defined.

(** ** Keys *)

(** A first rune in the accepted range is a single printable byte. *)
Lemma decode_rune_printable a s r w ok :
  decode_rune (String a s) = (r, w, ok) -> key_rune_ok r = true -> printable a = true /\ w = 1.
Proof.
  unfold decode_rune, key_rune_ok, printable, is_cont, rune_error.
  pose proof (byte_of_range a) as Ha.
  destruct (Z.ltb_spec (byte_of a) 0x80).
  { intros [= <- <- <-] Hr. reflect_bool. split; [|done]. apply andb_true_iff. rewrite !Z.leb_le. lia. }
  intros Hd Hr. exfalso. destruct s as [|b s]; [by simplify_eq|].
  pose proof (byte_of_range b) as Hb. case_test.
  { simplify_eq. reflect_bool. lia. }
  destruct s as [|c s]; [by simplify_eq|].
  pose proof (byte_of_range c) as Hc. case_test.
  { simplify_eq. reflect_bool. destruct (Z.eqb_spec (byte_of a) 0xE0); lia. }
  destruct s as [|d s]; [by simplify_eq|].
  pose proof (byte_of_range d) as Hd'. case_test; [|by simplify_eq].
  simplify_eq. reflect_bool. destruct (Z.eqb_spec (byte_of a) 0xF0); lia.
Qed.

Lemma runes_printable fuel s :
  String.length s <= fuel -> forallb key_rune_ok (runes_fuel fuel s) = true ->
  str_forall printable s = true.
Proof.
  revert s; induction fuel as [|fuel IH]; intros [|a s] Hn Hr; cbn [String.length] in Hn; try done; [lia|].
  cbn [runes_fuel] in Hr. destruct (decode_rune (String a s)) as [[r w] ok] eqn:Ed.
  cbn [forallb] in Hr. apply andb_true_iff in Hr as [Hr1 Hr2].
  destruct (decode_rune_printable _ _ _ _ _ Ed Hr1) as [Hp ->].
  cbn [str_forall]. rewrite Hp. apply IH; [lia|exact Hr2].
Qed.

(** Accepted keys: a normalized key is empty, or has between 1 and 128 bytes
    that are all printable ASCII, and normalizing it again gives the same key. *)
Theorem NormalizeIdempotencyKey_accepts raw key :
  NormalizeIdempotencyKey raw = Some key ->
  (key = "" \/ (1 <= strlen key <= 128)%Z /\ str_forall printable key = true) /\
  NormalizeIdempotencyKey key = Some key.
Proof.
  unfold NormalizeIdempotencyKey at 1. cbn zeta.
  destruct (is_empty (TrimSpace raw)) eqn:Ee; [intros [= <-]; split; [by left|done]|].
  destruct (Z.ltb_spec 128 (strlen (TrimSpace raw))) as [|Hl]; [done|].
  destruct (forallb key_rune_ok (runes (TrimSpace raw))) eqn:Er; [|done]. intros [= <-].
  pose proof (runes_printable _ _ ltac:(done) Er) as Hp. split.
  - right. split; [|done]. apply is_empty_false in Ee. unfold strlen in *.
    destruct (TrimSpace raw); [done|]. cbn [String.length] in *. lia.
  - unfold NormalizeIdempotencyKey. rewrite (TrimSpace_printable _ Hp), Ee, Er.
    by destruct (Z.ltb_spec 128 (strlen (TrimSpace raw))); [lia|].
Qed.

(** ** Truncation *)

Lemma shrink_to_valid_spec m s :
  shrink_to_valid m s <= m /\ ValidString (str_take (shrink_to_valid m s) s) = true /\
  forall n, n <= m -> ValidString (str_take n s) = true -> n <= shrink_to_valid m s.
Proof.
  induction m as [|m (IH1 & IH2 & IH3)]; cbn [shrink_to_valid].
  - split_and!; [done|by destruct s|lia].
  - destruct (ValidString (str_take (S m) s)) eqn:E; [split_and!; [lia|done|lia]|].
    split_and!; [lia|done|]. intros n Hn Hv. destruct (decide (n = S m)) as [->|]; [congruence|].
    apply IH3; [lia|done].
Qed.

(** Truncation respects characters: cutting a text to a positive number of
    bytes gives a prefix of it that fits, is valid UTF-8 whenever something was
    cut off, and is the longest such prefix. *)
Theorem truncateUTF8_longest_valid_prefix s maxBytes :
  (0 < maxBytes < strlen s)%Z ->
  exists n, truncateUTF8 s maxBytes = str_take n s /\ (Z.of_nat n <= maxBytes)%Z /\
    ValidString (str_take n s) = true /\
    forall m, (Z.of_nat m <= maxBytes)%Z -> ValidString (str_take m s) = true -> m <= n.
Proof.
  intros [H1 H2]. unfold truncateUTF8.
  rewrite (proj2 (Z.leb_gt _ _) H1), (proj2 (Z.leb_gt _ _) H2). cbn [orb].
  destruct (shrink_to_valid_spec (Z.to_nat maxBytes) s) as (S1 & S2 & S3).
  eexists. split; [done|]. split; [lia|]. split; [done|]. intros m Hm Hv. apply S3; [lia|done].
Qed.

