(* ===== verification/ChatBridge.v ===== *)
(** * Chat Completions to Responses

    The response side of [pkg/apicompat/chatcompletions_responses_bridge.go] and
    of [pkg/apicompat/chat_tool_compat.go]: clients of the Responses protocol
    are served by upstreams that only speak Chat Completions.  Buffered answers
    are translated at once, streamed ones chunk by chunk; calls of tools that the
    request side renamed (custom tools, namespaces, tool search) get their names
    back. *)

From stdpp Require Import sorting.
From S2P Require Import Prelude GoStrings GoJson GoCrypto ApiTypes.

(** ** Names of tools *)

Record NamespacedToolName := MkNamespacedToolName {
  nt_Namespace : string;
  nt_Name : string
}.

Definition chatToolNameMaxLen : Z := 64.

(** The runes of a text as long as their encoding fits [limit] bytes. *)
Fixpoint fit_prefix (limit : Z) (prefix : string) (chars : list Z) : string :=
  match chars with
  | [] => prefix
  | char :: chars' =>
    if (limit <? strlen prefix + strlen (encode_rune char))%Z then prefix
    else fit_prefix limit (prefix +:+ encode_rune char) chars'
  end.

Definition flattenNamespaceToolName (namespace name : string) : string :=
  let full := namespace +:+ "__" +:+ name in
  if (strlen full <=? chatToolNameMaxLen)%Z then full else
  let sum := sha256 (bytes_of full) in
  let suffix := "__" +:+ hex_encode (take 4 sum) in
  let prefixLen := (chatToolNameMaxLen - strlen suffix)%Z in
  fit_prefix prefixLen "" (runes full) +:+ suffix.

Definition toolSearchProxyName : string := "tool_search".

(** The maps of declared tools; a key that is absent reads [false]. *)
Definition has (m : gmap string bool) (name : string) : bool := default false (m !! name).

(** One step of the search for an alias: the match so far, [None] once two
    candidates matched. *)
Definition alias_step (name : string) (acc : option string)
    (p : string * NamespacedToolName) : option string :=
  match acc with
  | None => None
  | Some matched =>
    if flattenNamespaceToolName (nt_Namespace p.2) p.1 =s name then
      if negb (is_empty matched) && negb (matched =s p.1) then None else Some p.1
    else Some matched
  end.

(** Go ranges over maps in an order that it chooses anew for every loop: [mo_custom]
    is the order of the candidates, [mo_ns c] the order of the namespaces in the
    inner loop of candidate [c]. *)
Record map_order := MkMapOrder {
  mo_custom : gmap string bool -> list string;
  mo_ns : string -> gmap string NamespacedToolName -> list NamespacedToolName
}.

Definition alias_pairs (o : map_order) (custom : gmap string bool)
    (namespaces : gmap string NamespacedToolName) : list (string * NamespacedToolName) :=
  mo_custom o custom ≫= fun c => pair c <$> mo_ns o c namespaces.

(** [customToolCallName]: the name of the custom tool a call stands for. *)
Definition customToolCallName (o : map_order) (name : string) (custom functions : gmap string bool)
    (namespaces : gmap string NamespacedToolName) : option string :=
  if has functions name then None
  else if has custom name then Some name
  else match namespaces !! name with
  | Some _ => None
  | None =>
    match foldl (alias_step name) (Some "") (alias_pairs o custom namespaces) with
    | None => None
    | Some matched => if is_empty matched then None else Some matched
    end
  end.

(** ** Arguments of calls *)

(** [json.Unmarshal] into a string: [None] is an error, [null] leaves it empty. *)
Definition unmarshal_string (data : string) : option string :=
  if negb (Valid data) then None else
  match skip_ws data with
  | String c r =>
    if (byte_of c =? 34)%Z then
      match skip_string_body r with
      | Some rest =>
        let body := consumed r rest in
        Some (unquote (str_take (String.length body - 1) body))
      | None => None
      end
    else if (byte_of c =? 110)%Z then Some ""
    else None
  | EmptyString => None
  end.

Definition extractCustomToolCallInput (arguments : string) : string :=
  let trimmed := TrimSpace arguments in
  if is_empty trimmed then "" else
  match unmarshal_raw_map trimmed with
  | None => trimmed
  | Some object =>
    match raw_lookup "input" object with
    | Some raw => match unmarshal_string raw with Some input => input | None => trimmed end
    | None => match object with [] => "" | _ => trimmed end
    end
  end.

(** An empty argument text stands for an empty object. *)
Definition argumentsOrEmpty (arguments : string) : string :=
  if is_empty (TrimSpace arguments) then "{}" else arguments.

Definition toolSearchCallArgumentsJSON (arguments : string) : string :=
  let trimmed := TrimSpace arguments in
  if is_empty trimmed then "{}"
  else if Valid trimmed then trimmed
  else marshal_string arguments.

Definition nonEmpty (value fallback : string) : string :=
  if negb (is_empty value) then value else fallback.

(** ** Usage *)

Definition ChatUsageToResponsesUsage (usage : option ChatUsage) : option ResponsesUsage :=
  match usage with
  | None => None
  | Some u =>
    let out := zero_ResponsesUsage
      <| ru_InputTokens := cu_PromptTokens u |>
      <| ru_OutputTokens := cu_CompletionTokens u |>
      <| ru_TotalTokens := cu_TotalTokens u |> in
    let out := if (ru_TotalTokens out =? 0)%Z
               then out <| ru_TotalTokens := (ru_InputTokens out + ru_OutputTokens out)%i64 |>
               else out in
    match cu_PromptTokensDetails u with
    | None => Some out
    | Some d =>
      if ((0 <? ctd_CachedTokens d) || (0 <? ctd_CacheCreationTokens d)
          || (0 <? ctd_CacheWriteTokens d))%Z then
        let out := out <| ru_InputTokensDetails := Some (zero_ResponsesInputTokensDetails
            <| ritd_CachedTokens := ctd_CachedTokens d |>
            <| ritd_CacheCreationTokens := ctd_CacheCreationTokens d |>
            <| ritd_CacheWriteTokens := ctd_CacheWriteTokens d |>) |> in
        Some (if (0 <? ctd_CacheWriteTokens d)%Z
              then out <| ru_CacheCreationInputTokens := ctd_CacheWriteTokens d |>
              else out <| ru_CacheCreationInputTokens := ctd_CacheCreationTokens d |>)
      else Some out
    end
  end.

(** ** Reasoning text under its two names *)

Definition messageReasoningText (m : ChatMessage) : string :=
  if negb (is_empty (cm_ReasoningContent m)) then cm_ReasoningContent m else cm_Reasoning m.

Definition deltaReasoningText (d : ChatDelta) : option string :=
  match cd_ReasoningContent d with
  | Some r => if negb (is_empty r) then Some r else cd_Reasoning d
  | None => cd_Reasoning d
  end.

(** ** State of a stream *)

(** [ChatCompletionsToResponsesStreamState]; a [strings.Builder] is its text, and
    [ccs_draws] counts the calls of [generateItemID]. *)
Record ChatCompletionsToResponsesStreamState := MkChatCompletionsToResponsesStreamState {
  ccs_UpstreamServiceTier : string;
  ccs_ResponseID : string;
  ccs_Model : string;
  ccs_Created : Z;
  ccs_SequenceNumber : Z;
  ccs_CreatedSent : bool;
  ccs_CompletedSent : bool;
  ccs_nextOutputIndex : Z;
  ccs_ReasoningItemID : string;
  ccs_ReasoningIndex : Z;
  ccs_ReasoningOpen : bool;
  ccs_ReasoningDone : bool;
  ccs_MessageItemID : string;
  ccs_MessageIndex : Z;
  ccs_TextPartOpen : bool;
  ccs_Text : string;
  ccs_Reasoning : string;
  ccs_ToolCalls : gmap Z ChatToolCall;
  ccs_ToolItemIDs : gmap Z string;
  ccs_ToolOutputIndex : gmap Z Z;
  ccs_CustomTools : gmap string bool;
  ccs_FunctionTools : gmap string bool;
  ccs_ToolSearchDeclared : bool;
  ccs_NamespaceTools : gmap string NamespacedToolName;
  ccs_toolIsCustom : gmap Z bool;
  ccs_toolIsToolSearch : gmap Z bool;
  ccs_toolNamespace : gmap Z NamespacedToolName;
  ccs_toolAnnounced : gmap Z bool;
  ccs_FinishReason : string;
  ccs_Usage : option ResponsesUsage;
  ccs_draws : nat
}.

#[export] Instance eta_ChatCompletionsToResponsesStreamState : Eta ChatCompletionsToResponsesStreamState := fun r =>
  MkChatCompletionsToResponsesStreamState
    (ccs_UpstreamServiceTier r) (ccs_ResponseID r) (ccs_Model r) (ccs_Created r)
    (ccs_SequenceNumber r) (ccs_CreatedSent r) (ccs_CompletedSent r)
    (ccs_nextOutputIndex r) (ccs_ReasoningItemID r) (ccs_ReasoningIndex r)
    (ccs_ReasoningOpen r) (ccs_ReasoningDone r) (ccs_MessageItemID r) (ccs_MessageIndex r)
    (ccs_TextPartOpen r) (ccs_Text r) (ccs_Reasoning r) (ccs_ToolCalls r)
    (ccs_ToolItemIDs r) (ccs_ToolOutputIndex r) (ccs_CustomTools r) (ccs_FunctionTools r)
    (ccs_ToolSearchDeclared r) (ccs_NamespaceTools r) (ccs_toolIsCustom r)
    (ccs_toolIsToolSearch r) (ccs_toolNamespace r) (ccs_toolAnnounced r)
    (ccs_FinishReason r) (ccs_Usage r) (ccs_draws r).

Definition zero_ChatCompletionsToResponsesStreamState : ChatCompletionsToResponsesStreamState :=
  MkChatCompletionsToResponsesStreamState
    "" "" "" 0%Z 0%Z false false 0%Z "" 0%Z false false "" 0%Z false "" "" ∅ ∅ ∅ ∅ ∅ false
    ∅ ∅ ∅ ∅ ∅ "" None 0.

Notation chat_handler := (handler ChatCompletionsToResponsesStreamState ResponsesStreamEvent).

Section Bridge.
(** The hexadecimal digits that the n-th call of [generateItemID] draws, and the
    order maps are ranged over. *)
Variable random_hex : nat -> string.
Variable order : map_order.

Definition generateItemID (n : nat) : string := "item_" +:+ random_hex n.

(** ** Buffered answers *)

Definition text_item (id text : string) : ResponsesOutput :=
  zero_ResponsesOutput
    <| ro_Type_ := "message" |>
    <| ro_ID := id |>
    <| ro_Role := "assistant" |>
    <| ro_Content := [zero_ResponsesContentPart <| rcp_Type_ := "output_text" |> <| rcp_Text := text |>] |>
    <| ro_Status := "completed" |>.

Definition emptyResponsesMessageOutput (n : nat) : ResponsesOutput :=
  text_item (generateItemID n) "".

Definition reasoning_item (id text : string) : ResponsesOutput :=
  zero_ResponsesOutput
    <| ro_Type_ := "reasoning" |>
    <| ro_ID := id |>
    <| ro_Summary := [zero_ResponsesSummary <| rs_Type_ := "summary_text" |> <| rs_Text := text |>] |>.

Definition firstFunctionTools (optional : list (gmap string bool)) : gmap string bool :=
  match optional with f :: _ => f | [] => ∅ end.

(** [ValidateChatToolCalls]: the call it rejects, if any. *)
Definition invalidChatToolCall (custom : gmap string bool) (toolSearch : bool)
    (namespaces : gmap string NamespacedToolName) (functions : list (gmap string bool))
    (call : ChatToolCall) : bool :=
  let name := cfc_Name (ctc_Function call) in
  if toolSearch && (name =s toolSearchProxyName) then false else
  match customToolCallName order name custom (firstFunctionTools functions) namespaces with
  | Some _ => false
  | None =>
    let args := TrimSpace (cfc_Arguments (ctc_Function call)) in
    negb (is_empty args) && negb (Valid args)
  end.

Definition ValidateChatToolCalls (resp : option ChatCompletionsResponse) (custom : gmap string bool)
    (toolSearch : bool) (namespaces : gmap string NamespacedToolName)
    (functions : list (gmap string bool)) : option ChatToolCall :=
  match resp with
  | None => None
  | Some r =>
    head (List.filter (invalidChatToolCall custom toolSearch namespaces functions)
      (ccr_Choices r ≫= fun choice => cm_ToolCalls (cc_Message choice)))
  end.

(** The item of one call, [None] when its arguments are not JSON. *)
Definition toolCallOutput (custom : gmap string bool) (toolSearch : bool)
    (namespaces : gmap string NamespacedToolName) (functions : gmap string bool)
    (id : string) (call : ChatToolCall) : option ResponsesOutput :=
  let name := cfc_Name (ctc_Function call) in
  let arguments := argumentsOrEmpty (cfc_Arguments (ctc_Function call)) in
  let item := zero_ResponsesOutput
    <| ro_ID := id |> <| ro_CallID := ctc_ID call |> <| ro_Status := "completed" |> in
  match customToolCallName order name custom functions namespaces with
  | Some customName =>
    Some (item <| ro_Type_ := "custom_tool_call" |> <| ro_Name := customName |>
               <| ro_Input := extractCustomToolCallInput arguments |>)
  | None =>
    if toolSearch && (name =s toolSearchProxyName) then
      Some (item <| ro_Type_ := "tool_search_call" |> <| ro_Arguments := arguments |>)
    else if negb (Valid arguments) then None
    else
      let item := item <| ro_Type_ := "function_call" |> <| ro_Arguments := arguments |> in
      match namespaces !! name with
      | Some ns => Some (item <| ro_Name := nt_Name ns |> <| ro_Namespace := nt_Namespace ns |>)
      | None => Some (item <| ro_Name := name |>)
      end
  end.

(** The loop over the calls, from the [n]-th identifier on: a call that is
    skipped draws none. *)
Fixpoint toolCallOutputs (custom : gmap string bool) (toolSearch : bool)
    (namespaces : gmap string NamespacedToolName) (functions : gmap string bool)
    (n : nat) (calls : list ChatToolCall) : list ResponsesOutput :=
  match calls with
  | [] => []
  | call :: calls' =>
    match toolCallOutput custom toolSearch namespaces functions (generateItemID n) call with
    | Some item => item :: toolCallOutputs custom toolSearch namespaces functions (S n) calls'
    | None => toolCallOutputs custom toolSearch namespaces functions n calls'
    end
  end.

(** The decoder of a content array, [json.Unmarshal] into [[]ChatContentPart]:
    type and text of its parts. *)
Variable unmarshal_parts : string -> option (list (string * string)).

Definition chatMessageContentText (raw : string) : string :=
  let raw := TrimSpace raw in
  if is_empty raw || (raw =s "null") then "" else
  match unmarshal_string raw with
  | Some text => text
  | None =>
    match unmarshal_parts raw with
    | Some parts =>
      String.concat (chr 10 +:+ chr 10)
        (map snd (List.filter (fun p => (fst p =s "text") && negb (is_empty (snd p))) parts))
    | None => ""
    end
  end.

Definition chatMessageToResponsesOutput (message : ChatMessage) (customTools : gmap string bool)
    (toolSearch : bool) (namespaceTools : gmap string NamespacedToolName)
    (functionTools : list (gmap string bool)) : list ResponsesOutput :=
  let reasoning := messageReasoningText message in
  let reasoningItems :=
    if negb (is_empty reasoning) then [reasoning_item (generateItemID 0) reasoning] else [] in
  let text := chatMessageContentText (cm_Content message) in
  let n := length reasoningItems in
  let textItems :=
    if negb (is_empty text) || (bool_decide (cm_ToolCalls message = []) && is_empty reasoning)
    then [text_item (generateItemID n) text] else [] in
  reasoningItems ++ textItems
    ++ toolCallOutputs customTools toolSearch namespaceTools (firstFunctionTools functionTools)
         (n + length textItems) (cm_ToolCalls message).

Definition incompleteStatus (item : ResponsesOutput) : ResponsesOutput :=
  if negb (is_empty (ro_Status item)) then item <| ro_Status := "incomplete" |> else item.

(** Why an answer is incomplete, from the finish reason. *)
Definition finishIncomplete (finishReason : string) : option ResponsesIncompleteDetails :=
  if (finishReason =s "length") || (finishReason =s "content_filter") then
    Some (zero_ResponsesIncompleteDetails <| rid_Reason :=
            if finishReason =s "content_filter" then "content_filter" else "max_output_tokens" |>)
  else None.

(** [ChatCompletionsResponseToResponses]; [randomID] is what [generateResponsesID]
    draws, [errorf] the text of the validation error. *)
Definition ChatCompletionsResponseToResponses (randomID : string) (now : Z)
    (errorf : ChatToolCall -> string) (resp : option ChatCompletionsResponse) (model : string)
    (customTools : gmap string bool) (toolSearch : bool)
    (namespaceTools : gmap string NamespacedToolName) (functionTools : list (gmap string bool))
    : ResponsesResponse :=
  let id := match resp with Some r => ccr_ID r | None => "" end in
  let id := if is_empty id then randomID else id in
  let out := zero_ResponsesResponse
    <| rr_CreatedAt := now |> <| rr_ID := id |> <| rr_Object := "response" |>
    <| rr_Model := model |> <| rr_Status := "completed" |> in
  match resp with
  | None => out <| rr_Output := [emptyResponsesMessageOutput 0] |>
  | Some r =>
    match ValidateChatToolCalls resp customTools toolSearch namespaceTools functionTools with
    | Some call =>
      out <| rr_Status := "failed" |> <| rr_Output := [] |>
          <| rr_Error := Some (zero_ResponsesError
               <| re_Code := "invalid_tool_arguments" |> <| re_Message := errorf call |>) |>
    | None =>
      let out := if is_empty (rr_Model out) then out <| rr_Model := ccr_Model r |> else out in
      let out :=
        match ccr_Choices r with
        | [] => out
        | choice :: _ =>
          let output := chatMessageToResponsesOutput (cc_Message choice) customTools toolSearch
            namespaceTools [firstFunctionTools functionTools] in
          match finishIncomplete (cc_FinishReason choice) with
          | Some details =>
            out <| rr_Output := map incompleteStatus output |>
                <| rr_Status := "incomplete" |> <| rr_IncompleteDetails := Some details |>
          | None => out <| rr_Output := output |>
          end
        end in
      let out := match rr_Output out with
                 | [] => out <| rr_Output := [emptyResponsesMessageOutput 0] |>
                 | _ => out
                 end in
      let out := out <| rr_UpstreamServiceTier := ccr_ServiceTier r |> in
      match ccr_Usage r with
      | Some u => out <| rr_Usage := ChatUsageToResponsesUsage (Some u) |>
      | None => out
      end
    end
  end.

(** ** Streams: identifiers, indices, events *)

Definition NewChatCompletionsToResponsesStreamState (randomID model : string) (now : Z)
    : ChatCompletionsToResponsesStreamState :=
  zero_ChatCompletionsToResponsesStreamState
    <| ccs_ResponseID := randomID |> <| ccs_Model := model |> <| ccs_Created := now |>.

(** The tools of the request, as the gateway hands them to a new stream. *)
Definition declareTools (customTools functionTools : gmap string bool) (toolSearchDeclared : bool)
    (namespaceTools : gmap string NamespacedToolName)
    (state : ChatCompletionsToResponsesStreamState) : ChatCompletionsToResponsesStreamState :=
  state <| ccs_CustomTools := customTools |> <| ccs_FunctionTools := functionTools |>
        <| ccs_ToolSearchDeclared := toolSearchDeclared |> <| ccs_NamespaceTools := namespaceTools |>.

Definition withItemID (h : string -> chat_handler) : chat_handler := fun state =>
  h (generateItemID (ccs_draws state)) (state <| ccs_draws := S (ccs_draws state) |>).

(** [allocOutputIndex]. *)
Definition withOutputIndex (h : Z -> chat_handler) : chat_handler := fun state =>
  h (ccs_nextOutputIndex state)
    (state <| ccs_nextOutputIndex := (ccs_nextOutputIndex state + 1)%Z |>).

Definition chatToResponsesEvent (eventType : string) (template : ResponsesStreamEvent)
    : chat_handler := fun state =>
  (state <| ccs_SequenceNumber := (ccs_SequenceNumber state + 1)%Z |>,
   [template <| rse_Type_ := eventType |>
             <| rse_SequenceNumber := ccs_SequenceNumber state |>]).

Definition ensureChatToResponsesCreated : chat_handler := reading (fun state =>
  if ccs_CreatedSent state then skip else
  modify (fun state => state <| ccs_CreatedSent := true |>) ;;
  reading (fun state => chatToResponsesEvent "response.created" (zero_ResponsesStreamEvent
    <| rse_Response := Some (zero_ResponsesResponse
         <| rr_CreatedAt := ccs_Created state |> <| rr_ID := ccs_ResponseID state |>
         <| rr_Object := "response" |> <| rr_Model := ccs_Model state |>
         <| rr_Status := "in_progress" |> <| rr_Output := [] |>) |>)))%handler.

(** ** The message and the reasoning *)

Definition ensureChatToResponsesMessageItem : chat_handler := reading (fun state =>
  if negb (is_empty (ccs_MessageItemID state)) then skip else
  withItemID (fun id => withOutputIndex (fun idx =>
    modify (fun state => state <| ccs_MessageItemID := id |> <| ccs_MessageIndex := idx |>) ;;
    chatToResponsesEvent "response.output_item.added" (zero_ResponsesStreamEvent
      <| rse_OutputIndex := idx |>
      <| rse_Item := Some (zero_ResponsesOutput
           <| ro_Type_ := "message" |> <| ro_ID := id |>
           <| ro_Role := "assistant" |> <| ro_Status := "in_progress" |>) |>))))%handler.

Definition ensureChatToResponsesTextPart : chat_handler := reading (fun state =>
  if ccs_TextPartOpen state then skip else
  modify (fun state => state <| ccs_TextPartOpen := true |>) ;;
  chatToResponsesEvent "response.content_part.added" (zero_ResponsesStreamEvent
    <| rse_OutputIndex := ccs_MessageIndex state |>
    <| rse_ContentIndex := 0%Z |>
    <| rse_ItemID := ccs_MessageItemID state |>
    <| rse_Part := Some (zero_ResponsesContentPart <| rcp_Type_ := "output_text" |>) |>))%handler.

Definition ensureChatReasoningItem : chat_handler := reading (fun state =>
  if ccs_ReasoningOpen state || ccs_ReasoningDone state then skip else
  withItemID (fun id => withOutputIndex (fun idx =>
    modify (fun state => state <| ccs_ReasoningOpen := true |>
              <| ccs_ReasoningItemID := id |> <| ccs_ReasoningIndex := idx |>) ;;
    chatToResponsesEvent "response.output_item.added" (zero_ResponsesStreamEvent
      <| rse_OutputIndex := idx |>
      <| rse_Item := Some (zero_ResponsesOutput
           <| ro_Type_ := "reasoning" |> <| ro_ID := id |> <| ro_Status := "in_progress" |>) |>) ;;
    chatToResponsesEvent "response.reasoning_summary_part.added" (zero_ResponsesStreamEvent
      <| rse_OutputIndex := idx |>
      <| rse_SummaryIndex := 0%Z |>
      <| rse_ItemID := id |>
      <| rse_Part := Some (zero_ResponsesContentPart <| rcp_Type_ := "summary_text" |>) |>))))%handler.

Definition closeChatReasoningItem : chat_handler := reading (fun state =>
  if negb (ccs_ReasoningOpen state) then skip else
  let reasoning := ccs_Reasoning state in
  let at_item := zero_ResponsesStreamEvent
    <| rse_OutputIndex := ccs_ReasoningIndex state |> in
  modify (fun state => state <| ccs_ReasoningOpen := false |> <| ccs_ReasoningDone := true |>) ;;
  chatToResponsesEvent "response.reasoning_summary_text.done" (at_item
    <| rse_SummaryIndex := 0%Z |> <| rse_Text := reasoning |>
    <| rse_ItemID := ccs_ReasoningItemID state |>) ;;
  chatToResponsesEvent "response.reasoning_summary_part.done" (at_item
    <| rse_SummaryIndex := 0%Z |> <| rse_ItemID := ccs_ReasoningItemID state |>
    <| rse_Part := Some (zero_ResponsesContentPart
         <| rcp_Type_ := "summary_text" |> <| rcp_Text := reasoning |>) |>) ;;
  chatToResponsesEvent "response.output_item.done" (at_item
    <| rse_Item := Some (reasoning_item (ccs_ReasoningItemID state) reasoning
         <| ro_Status := "completed" |>) |>))%handler.

(** ** Tool calls *)

Definition stored_call (state : ChatCompletionsToResponsesStreamState) (idx : Z) : ChatToolCall :=
  default zero_ChatToolCall (ccs_ToolCalls state !! idx).

Definition flag (m : gmap Z bool) (idx : Z) : bool := default false (m !! idx).

Definition customNameOf (state : ChatCompletionsToResponsesStreamState) (name : string)
    : option string :=
  customToolCallName order name (ccs_CustomTools state) (ccs_FunctionTools state)
    (ccs_NamespaceTools state).

Definition set_name (name : string) (c : ChatToolCall) : ChatToolCall :=
  c <| ctc_Function := ctc_Function c <| cfc_Name := name |> |>.

(** Write through the pointer [state.ToolCalls[idx]]. *)
Definition updateCall (idx : Z) (f : ChatToolCall -> ChatToolCall)
    (state : ChatCompletionsToResponsesStreamState) : ChatCompletionsToResponsesStreamState :=
  state <| ccs_ToolCalls := alter f idx (ccs_ToolCalls state) |>.

(** Restore the name of a custom tool. *)
Definition restoreName (idx : Z) : chat_handler := reading (fun state =>
  match customNameOf state (cfc_Name (ctc_Function (stored_call state idx))) with
  | Some name => modify (updateCall idx (set_name name))
  | None => skip
  end).

(** What kind of call an announced item is: its flags and its type. *)
Definition classifyCall (idx : Z) (state : ChatCompletionsToResponsesStreamState)
    : ChatCompletionsToResponsesStreamState :=
  let name := cfc_Name (ctc_Function (stored_call state idx)) in
  let custom := customNameOf state name in
  let isCustom := bool_decide (is_Some custom) in
  let state := match custom with
               | Some customName => updateCall idx (set_name customName) state
               | None => state
               end in
  let name := cfc_Name (ctc_Function (stored_call state idx)) in
  let isToolSearch := negb isCustom && ccs_ToolSearchDeclared state
                      && (name =s toolSearchProxyName) in
  let state := state
    <| ccs_toolIsCustom := <[ idx := isCustom ]> (ccs_toolIsCustom state) |>
    <| ccs_toolIsToolSearch := <[ idx := isToolSearch ]> (ccs_toolIsToolSearch state) |> in
  match ccs_NamespaceTools state !! name with
  | Some ns =>
    if negb isCustom && negb isToolSearch
    then state <| ccs_toolNamespace := <[ idx := ns ]> (ccs_toolNamespace state) |>
    else state
  | None => state
  end.

Definition itemType (state : ChatCompletionsToResponsesStreamState) (idx : Z) : string :=
  if flag (ccs_toolIsCustom state) idx then "custom_tool_call"
  else if flag (ccs_toolIsToolSearch state) idx then "tool_search_call"
  else "function_call".

(** Name and namespace a call is shown under. *)
Definition shownName (state : ChatCompletionsToResponsesStreamState) (idx : Z) : string * string :=
  match ccs_toolNamespace state !! idx with
  | Some ns => (nt_Name ns, nt_Namespace ns)
  | None => (cfc_Name (ctc_Function (stored_call state idx)), "")
  end.

Definition toolItemID (state : ChatCompletionsToResponsesStreamState) (idx : Z) : string :=
  default "" (ccs_ToolItemIDs state !! idx).

Definition toolOutputIndex (state : ChatCompletionsToResponsesStreamState) (idx : Z) : Z :=
  default 0%Z (ccs_ToolOutputIndex state !! idx).

Definition argumentsDelta (idx : Z) (delta : string) : chat_handler := reading (fun state =>
  let stored := stored_call state idx in
  chatToResponsesEvent "response.function_call_arguments.delta" (zero_ResponsesStreamEvent
    <| rse_OutputIndex := toolOutputIndex state idx |>
    <| rse_ItemID := toolItemID state idx |>
    <| rse_Delta := delta |>
    <| rse_CallID := ctc_ID stored |>
    <| rse_Name := cfc_Name (ctc_Function stored) |>)).

Definition announceChatToolItem (idx : Z) (force : bool) : chat_handler := reading (fun state =>
  let stored := stored_call state idx in
  if flag (ccs_toolAnnounced state) idx then skip
  else if negb force && (is_empty (ctc_ID stored) || is_empty (cfc_Name (ctc_Function stored)))
  then skip
  else
    (if is_empty (ctc_ID stored)
     then withItemID (fun id => modify (updateCall idx (fun c => c <| ctc_ID := id |>)))
     else skip) ;;
    modify (fun state => state <| ccs_toolAnnounced := <[ idx := true ]> (ccs_toolAnnounced state) |>) ;;
    modify (classifyCall idx) ;;
    reading (fun state =>
      let stored := stored_call state idx in
      let '(name, namespace) := shownName state idx in
      chatToResponsesEvent "response.output_item.added" (zero_ResponsesStreamEvent
        <| rse_OutputIndex := toolOutputIndex state idx |>
        <| rse_Item := Some (zero_ResponsesOutput
             <| ro_Type_ := itemType state idx |> <| ro_ID := toolItemID state idx |>
             <| ro_CallID := ctc_ID stored |> <| ro_Name := name |>
             <| ro_Namespace := namespace |> <| ro_Status := "in_progress" |>) |>) ;;
      if (itemType state idx =s "function_call")
         && negb (is_empty (cfc_Arguments (ctc_Function stored)))
      then argumentsDelta idx (cfc_Arguments (ctc_Function stored)) else skip))%handler.

(** The first fragment of a call opens its record, later ones may complete its
    identifier and name. *)
Definition storeToolCall (idx : Z) (toolCall : ChatToolCall) : chat_handler := reading (fun state =>
  match ccs_ToolCalls state !! idx with
  | None =>
    closeChatReasoningItem ;;
    withItemID (fun id => withOutputIndex (fun outputIndex =>
      modify (fun state => state
        <| ccs_ToolCalls := <[ idx := toolCall <| ctc_Type_ := "function" |>
             <| ctc_Function := ctc_Function toolCall <| cfc_Arguments := "" |> |> ]>
             (ccs_ToolCalls state) |>
        <| ccs_ToolItemIDs := <[ idx := id ]> (ccs_ToolItemIDs state) |>
        <| ccs_ToolOutputIndex := <[ idx := outputIndex ]> (ccs_ToolOutputIndex state) |>)))
  | Some _ =>
    modify (updateCall idx (fun stored =>
      let stored := if negb (is_empty (ctc_ID toolCall))
                    then stored <| ctc_ID := ctc_ID toolCall |> else stored in
      if negb (is_empty (cfc_Name (ctc_Function toolCall)))
      then set_name (cfc_Name (ctc_Function toolCall)) stored else stored))
  end)%handler.

Definition append_arguments (s : string) (c : ChatToolCall) : ChatToolCall :=
  c <| ctc_Function := ctc_Function c <| cfc_Arguments := cfc_Arguments (ctc_Function c) +:+ s |> |>.

Definition appendToolArguments (idx : Z) (arguments : string) : chat_handler :=
  (if is_empty arguments then skip else
   modify (updateCall idx (append_arguments arguments)) ;;
   reading (fun state =>
     if flag (ccs_toolAnnounced state) idx && negb (flag (ccs_toolIsCustom state) idx)
        && negb (flag (ccs_toolIsToolSearch state) idx)
     then argumentsDelta idx arguments else skip))%handler.

Definition handleToolCall (toolCall : ChatToolCall) : chat_handler :=
  (let idx := default 0%Z (ctc_Index toolCall) in
   storeToolCall idx toolCall ;;
   restoreName idx ;;
   announceChatToolItem idx false ;;
   appendToolArguments idx (cfc_Arguments (ctc_Function toolCall)))%handler.

(** ** Chunks *)

Definition handleReasoning (reasoning : option string) : chat_handler :=
  (match reasoning with
   | Some r =>
     if is_empty r then skip else
     ensureChatReasoningItem ;;
     modify (fun state => state <| ccs_Reasoning := ccs_Reasoning state +:+ r |>) ;;
     reading (fun state =>
       chatToResponsesEvent "response.reasoning_summary_text.delta" (zero_ResponsesStreamEvent
         <| rse_OutputIndex := ccs_ReasoningIndex state |>
         <| rse_SummaryIndex := 0%Z |>
         <| rse_Delta := r |>
         <| rse_ItemID := ccs_ReasoningItemID state |>))
   | None => skip
   end)%handler.

Definition handleContent (content : option string) : chat_handler :=
  (match content with
   | Some c =>
     if is_empty c then skip else
     closeChatReasoningItem ;;
     ensureChatToResponsesMessageItem ;;
     ensureChatToResponsesTextPart ;;
     modify (fun state => state <| ccs_Text := ccs_Text state +:+ c |>) ;;
     reading (fun state =>
       chatToResponsesEvent "response.output_text.delta" (zero_ResponsesStreamEvent
         <| rse_OutputIndex := ccs_MessageIndex state |>
         <| rse_ContentIndex := 0%Z |>
         <| rse_Delta := c |>
         <| rse_ItemID := ccs_MessageItemID state |>))
   | None => skip
   end)%handler.

Definition handleFinishReason (finishReason : option string) : chat_handler :=
  match finishReason with
  | Some r => if is_empty r then skip else modify (fun state => state <| ccs_FinishReason := r |>)
  | None => skip
  end.

Definition handleChoice (choice : ChatChunkChoice) : chat_handler :=
  (handleReasoning (deltaReasoningText (ccc_Delta choice)) ;;
   handleContent (cd_Content (ccc_Delta choice)) ;;
   forEach handleToolCall (cd_ToolCalls (ccc_Delta choice)) ;;
   handleFinishReason (ccc_FinishReason choice))%handler.

(** The fields a chunk has besides its choices. *)
Definition absorbChunk (chunk : ChatCompletionsChunk) (state : ChatCompletionsToResponsesStreamState)
    : ChatCompletionsToResponsesStreamState :=
  let state := if negb (is_empty (chunk_ID chunk)) && negb (ccs_CreatedSent state)
               then state <| ccs_ResponseID := chunk_ID chunk |> else state in
  let state := if is_empty (ccs_Model state) && negb (is_empty (chunk_Model chunk))
               then state <| ccs_Model := chunk_Model chunk |> else state in
  let state := if negb (is_empty (chunk_ServiceTier chunk))
               then state <| ccs_UpstreamServiceTier := chunk_ServiceTier chunk |> else state in
  match chunk_Usage chunk with
  | Some u => state <| ccs_Usage := ChatUsageToResponsesUsage (Some u) |>
  | None => state
  end.

Definition ChatCompletionsChunkToResponsesEvents (chunk : option ChatCompletionsChunk)
    : chat_handler :=
  (match chunk with
   | None => skip
   | Some chunk =>
     modify (absorbChunk chunk) ;;
     ensureChatToResponsesCreated ;;
     forEach handleChoice (chunk_Choices chunk)
   end)%handler.

(** ** The end of a stream *)

(** [ValidateToolCallArguments]: whether it returns nil. *)
Definition ValidateToolCallArguments (state : ChatCompletionsToResponsesStreamState) : bool :=
  forallb (fun p =>
    flag (ccs_toolIsCustom state) p.1 || flag (ccs_toolIsToolSearch state) p.1 ||
    (let arguments := TrimSpace (cfc_Arguments (ctc_Function p.2)) in
     is_empty arguments || Valid arguments))
    (map_to_list (ccs_ToolCalls state)).

Definition sortedChatToolCallIndexes (toolCalls : gmap Z ChatToolCall) : list Z :=
  merge_sort Z.le (fst <$> map_to_list toolCalls).

Definition closeMessageItem : chat_handler := reading (fun state =>
  if is_empty (ccs_MessageItemID state) then skip else
  let text := ccs_Text state in
  let at_item := zero_ResponsesStreamEvent <| rse_OutputIndex := ccs_MessageIndex state |> in
  (if ccs_TextPartOpen state then
     chatToResponsesEvent "response.output_text.done" (at_item
       <| rse_ContentIndex := 0%Z |> <| rse_Text := text |>
       <| rse_ItemID := ccs_MessageItemID state |>) ;;
     chatToResponsesEvent "response.content_part.done" (at_item
       <| rse_ContentIndex := 0%Z |> <| rse_ItemID := ccs_MessageItemID state |>
       <| rse_Part := Some (zero_ResponsesContentPart
            <| rcp_Type_ := "output_text" |> <| rcp_Text := text |>) |>)
   else skip) ;;
  chatToResponsesEvent "response.output_item.done" (at_item
    <| rse_Item := Some (text_item (ccs_MessageItemID state) text) |>))%handler.

(** The item of a call as it is when the stream ends. *)
Definition closedToolItem (state : ChatCompletionsToResponsesStreamState) (id : string) (i : Z)
    : ResponsesOutput :=
  let toolCall := stored_call state i in
  let arguments := argumentsOrEmpty (cfc_Arguments (ctc_Function toolCall)) in
  let item := zero_ResponsesOutput
    <| ro_ID := id |> <| ro_CallID := ctc_ID toolCall |> <| ro_Status := "completed" |> in
  if flag (ccs_toolIsCustom state) i then
    item <| ro_Type_ := "custom_tool_call" |> <| ro_Name := cfc_Name (ctc_Function toolCall) |>
         <| ro_Input := extractCustomToolCallInput arguments |>
  else if flag (ccs_toolIsToolSearch state) i then
    item <| ro_Type_ := "tool_search_call" |> <| ro_Arguments := arguments |>
  else
    let '(name, namespace) := shownName state i in
    item <| ro_Type_ := "function_call" |> <| ro_Name := name |>
         <| ro_Namespace := namespace |> <| ro_Arguments := arguments |>.

Definition closeToolItem (i : Z) : chat_handler := reading (fun state =>
  let toolCall := stored_call state i in
  let arguments := argumentsOrEmpty (cfc_Arguments (ctc_Function toolCall)) in
  let item := closedToolItem state (toolItemID state i) i in
  let at_item := zero_ResponsesStreamEvent <| rse_OutputIndex := toolOutputIndex state i |> in
  let done := chatToResponsesEvent "response.output_item.done"
    (at_item <| rse_Item := Some item |>) in
  if flag (ccs_toolIsCustom state) i then
    let input := extractCustomToolCallInput arguments in
    (if negb (is_empty input) then
       chatToResponsesEvent "response.custom_tool_call_input.delta" (at_item
         <| rse_ItemID := toolItemID state i |> <| rse_Delta := input |>)
     else skip) ;;
    chatToResponsesEvent "response.custom_tool_call_input.done" (at_item
      <| rse_ItemID := toolItemID state i |> <| rse_CallID := ctc_ID toolCall |>
      <| rse_Name := cfc_Name (ctc_Function toolCall) |> <| rse_Input := input |>) ;;
    done
  else if flag (ccs_toolIsToolSearch state) i then done
  else if negb (Valid arguments) then skip
  else
    chatToResponsesEvent "response.function_call_arguments.done" (at_item
      <| rse_ItemID := toolItemID state i |> <| rse_Arguments := arguments |>
      <| rse_CallID := ctc_ID toolCall |> <| rse_Name := (shownName state i).1 |>) ;;
    done)%handler.

Definition closeChatToolItems : chat_handler := reading (fun state =>
  forEach (fun i =>
    announceChatToolItem i true ;;
    reading (fun state =>
      if bool_decide (is_Some (ccs_ToolOutputIndex state !! i)) then closeToolItem i else skip))
    (sortedChatToolCallIndexes (ccs_ToolCalls state)))%handler.

(** [chatOutput]: the items of the terminal event; every item draws an identifier
    and uses it only if the stream has given it none. *)
Definition chatOutput (state : ChatCompletionsToResponsesStreamState) : list ResponsesOutput :=
  let n := ccs_draws state in
  let reasoningItems :=
    if negb (is_empty (ccs_Reasoning state))
    then [reasoning_item (nonEmpty (ccs_ReasoningItemID state) (generateItemID n)) (ccs_Reasoning state)]
    else [] in
  let n := n + length reasoningItems in
  let textItems :=
    if negb (is_empty (ccs_MessageItemID state))
       || (bool_decide (ccs_ToolCalls state = ∅) && is_empty (ccs_Reasoning state))
    then [text_item (nonEmpty (ccs_MessageItemID state) (generateItemID n)) (ccs_Text state)]
    else [] in
  let n := n + length textItems in
  reasoningItems ++ textItems
    ++ imap (fun k i => closedToolItem state (nonEmpty (toolItemID state i) (generateItemID (n + k))) i)
         (sortedChatToolCallIndexes (ccs_ToolCalls state)).

Definition incompleteEvent (evt : ResponsesStreamEvent) : ResponsesStreamEvent :=
  evt <| rse_Item := incompleteStatus <$> rse_Item evt |>.

(** The events that close what is open. *)
Definition closeOpenItems : chat_handler :=
  (ensureChatToResponsesCreated ;;
   closeChatReasoningItem ;;
   closeMessageItem ;;
   closeChatToolItems)%handler.

Definition terminalResponse (state : ChatCompletionsToResponsesStreamState) (status : string)
    (output : list ResponsesOutput) (details : option ResponsesIncompleteDetails)
    : ResponsesResponse :=
  zero_ResponsesResponse
    <| rr_UpstreamServiceTier := ccs_UpstreamServiceTier state |>
    <| rr_CreatedAt := ccs_Created state |> <| rr_ID := ccs_ResponseID state |>
    <| rr_Object := "response" |> <| rr_Model := ccs_Model state |> <| rr_Status := status |>
    <| rr_Output := output |> <| rr_Usage := ccs_Usage state |>
    <| rr_IncompleteDetails := details |>.

Definition FinalizeChatCompletionsResponsesStream : chat_handler := fun state =>
  if ccs_CompletedSent state then (state, []) else
  let '(state, events) := closeOpenItems state in
  let details := finishIncomplete (ccs_FinishReason state) in
  let state := state <| ccs_CompletedSent := true |> in
  let output := chatOutput state in
  let state := state <| ccs_draws := ccs_draws state + length output |> in
  let '(status, eventType, events, output) :=
    match details with
    | Some _ =>
      ("incomplete", "response.incomplete", map incompleteEvent events, map incompleteStatus output)
    | None => ("completed", "response.completed", events, output)
    end in
  let '(state, terminal) := chatToResponsesEvent eventType (zero_ResponsesStreamEvent
    <| rse_Response := Some (terminalResponse state status output details) |>) state in
  (state, events ++ terminal).

(** A whole stream, as the gateway runs it: every chunk, then the end. *)
Definition convertChatChunks (state : ChatCompletionsToResponsesStreamState)
    (chunks : list (option ChatCompletionsChunk))
    : ChatCompletionsToResponsesStreamState * list ResponsesStreamEvent :=
  let '(state, events) := run (fun s c => ChatCompletionsChunkToResponsesEvents c s) state chunks in
  let '(state, final) := FinalizeChatCompletionsResponsesStream state in
  (state, events ++ final).
End Bridge.
