(* ===== verification/ChatBridgeSim.v ===== *)
(** * The Responses stream of the Chat Completions bridge: protocol and simulation

    An automaton of Responses streams in which several items are open at the same
    time, what is assumed of the upstream, and the relation between the state of
    the bridge and the state of the automaton, kept by every chunk. *)

From stdpp Require Import sorting.
From S2P Require Import Prelude GoStrings GoJson GoCrypto ApiTypes ChatBridge.

#[global] Arguments is_empty : simpl never.

#[export] Instance bridge_part_eq_dec : EqDecision ResponsesContentPart.
Proof. solve_decision. Defined.
#[export] Instance bridge_summary_eq_dec : EqDecision ResponsesSummary.
Proof. solve_decision. Defined.

(** ** Responses streams with concurrent items

    An item is announced at an output index that was not used before, filled by
    events that name its index and identifier, and completed by events that repeat
    what it was filled with. *)

Inductive item_kind := KMessage | KReasoning | KCall | KCustom | KSearch.
Inductive item_stage := StAdded | StPart | StText | StFull | StClosed.

#[export] Instance item_kind_eq_dec : EqDecision item_kind.
Proof. solve_decision. Defined.
#[export] Instance item_stage_eq_dec : EqDecision item_stage.
Proof. solve_decision. Defined.

Definition kind_of (ty : string) : option item_kind :=
  if ty =s "message" then Some KMessage
  else if ty =s "reasoning" then Some KReasoning
  else if ty =s "function_call" then Some KCall
  else if ty =s "custom_tool_call" then Some KCustom
  else if ty =s "tool_search_call" then Some KSearch
  else None.

(** An announced item: its kind and identifier, how far it is, and what its deltas
    add up to. *)
Record live_item := MkLive {
  li_kind : item_kind;
  li_id : string;
  li_stage : item_stage;
  li_acc : string
}.

#[export] Instance eta_live_item : Eta live_item := fun r =>
  MkLive (li_kind r) (li_id r) (li_stage r) (li_acc r).

(** Arguments that were never sent read as an empty object. *)
Definition complete_arguments (acc : string) : string :=
  if is_empty (TrimSpace acc) then "{}" else acc.

(** A finished item carries what was streamed for it. *)
Definition carries (it : live_item) (o : ResponsesOutput) : bool :=
  bool_decide (kind_of (ro_Type_ o) = Some (li_kind it)) && (ro_ID o =s li_id it) &&
  match li_kind it with
  | KMessage => bool_decide (ro_Content o =
      [zero_ResponsesContentPart <| rcp_Type_ := "output_text" |> <| rcp_Text := li_acc it |>])
  | KReasoning => bool_decide (ro_Summary o =
      [zero_ResponsesSummary <| rs_Type_ := "summary_text" |> <| rs_Text := li_acc it |>])
  | KCall => ro_Arguments o =s complete_arguments (li_acc it)
  | KCustom => ro_Input o =s li_acc it
  | KSearch => true
  end.

(** Kinds that are filled through a part. *)
Definition part_step (added delta text_done part_done part_type : string)
    (it : live_item) (e : ResponsesStreamEvent) : option live_item :=
  let ty := rse_Type_ e in
  match li_stage it with
  | StAdded => if ty =s added then Some (it <| li_stage := StPart |>) else None
  | StPart =>
    if ty =s delta then Some (it <| li_acc := li_acc it +:+ rse_Delta e |>)
    else if (ty =s text_done) && (rse_Text e =s li_acc it) then Some (it <| li_stage := StText |>)
    else None
  | StText =>
    if (ty =s part_done) && bool_decide (rse_Part e = Some (zero_ResponsesContentPart
         <| rcp_Type_ := part_type |> <| rcp_Text := li_acc it |>))
    then Some (it <| li_stage := StFull |>) else None
  | _ => None
  end.

(** Kinds that are filled directly. *)
Definition payload_step (delta payload_done : string) (payload : ResponsesStreamEvent -> string)
    (complete : string -> string) (it : live_item) (e : ResponsesStreamEvent) : option live_item :=
  let ty := rse_Type_ e in
  match li_stage it with
  | StAdded =>
    if ty =s delta then Some (it <| li_acc := li_acc it +:+ rse_Delta e |>)
    else if (ty =s payload_done) && (payload e =s complete (li_acc it))
    then Some (it <| li_stage := StFull |>) else None
  | _ => None
  end.

Definition complete_item (it : live_item) : bool :=
  match li_kind it, li_stage it with
  | KSearch, StAdded => true
  | _, StFull => true
  | _, _ => false
  end.

Definition item_step (it : live_item) (e : ResponsesStreamEvent) : option live_item :=
  if rse_Type_ e =s "response.output_item.done" then
    match rse_Item e with
    | Some o => if carries it o && complete_item it then Some (it <| li_stage := StClosed |>) else None
    | None => None
    end
  else if negb (rse_ItemID e =s li_id it) then None
  else match li_kind it with
  | KMessage => part_step "response.content_part.added" "response.output_text.delta"
      "response.output_text.done" "response.content_part.done" "output_text" it e
  | KReasoning => part_step "response.reasoning_summary_part.added"
      "response.reasoning_summary_text.delta" "response.reasoning_summary_text.done"
      "response.reasoning_summary_part.done" "summary_text" it e
  | KCall => payload_step "response.function_call_arguments.delta"
      "response.function_call_arguments.done" rse_Arguments complete_arguments it e
  | KCustom => payload_step "response.custom_tool_call_input.delta"
      "response.custom_tool_call_input.done" rse_Input (fun acc => acc) it e
  | KSearch => None
  end.

(** The whole stream: before the created event, with the announced items by output
    index, and after the terminal event. *)
Inductive bridge_phase := BPre | BOpen (items : gmap Z live_item) | BDone.

Definition is_terminal (ty : string) : bool :=
  (ty =s "response.completed") || (ty =s "response.incomplete").

(** The output of the terminal event has the streamed items, all of them and no
    others; a stream without items ends with one empty message. *)
Definition output_matches (items : gmap Z live_item) (output : list ResponsesOutput) : bool :=
  let streamed := snd <$> map_to_list items in
  match streamed with
  | [] => match output with
          | [o] => carries (MkLive KMessage (ro_ID o) StClosed "") o
          | _ => false
          end
  | _ => forallb (fun it => existsb (carries it) output) streamed
         && forallb (fun o => existsb (fun it => carries it o) streamed) output
  end.

Definition terminal_ok (items : gmap Z live_item) (e : ResponsesStreamEvent) : bool :=
  match rse_Response e with
  | Some r =>
    (rse_Type_ e =s "response." +:+ rr_Status r)
    && bool_decide (is_Some (rr_IncompleteDetails r) <-> rr_Status r = "incomplete")
    && forallb (fun it => bool_decide (li_stage it = StClosed)) (snd <$> map_to_list items)
    && output_matches items (rr_Output r)
  | None => false
  end.

Definition bridge_step (q : bridge_phase) (e : ResponsesStreamEvent) : option bridge_phase :=
  let ty := rse_Type_ e in
  let i := rse_OutputIndex e in
  match q with
  | BPre => if ty =s "response.created" then Some (BOpen ∅) else None
  | BDone => None
  | BOpen items =>
    if ty =s "response.output_item.added" then
      match items !! i, rse_Item e with
      | None, Some o =>
        match kind_of (ro_Type_ o) with
        | Some k => Some (BOpen (<[ i := MkLive k (ro_ID o) StAdded "" ]> items))
        | None => None
        end
      | _, _ => None
      end
    else if is_terminal ty then if terminal_ok items e then Some BDone else None
    else
      match items !! i with
      | Some it => match item_step it e with
                   | Some it' => Some (BOpen (<[ i := it' ]> items))
                   | None => None
                   end
      | None => None
      end
  end.

(** ** Assumptions on the upstream *)

(** Reasoning comes in one run: it has not begun, is running, or is over. *)
Inductive reasoning_phase := RNone | RRun | ROver.

Definition nonempty (p : option string) : bool :=
  match p with Some s => negb (is_empty s) | None => false end.

Definition reasoning_step (q : reasoning_phase) (c : ChatChunkChoice) : option reasoning_phase :=
  let q1 := if nonempty (deltaReasoningText (ccc_Delta c))
            then match q with ROver => None | _ => Some RRun end else Some q in
  match q1 with
  | Some RRun =>
    if nonempty (cd_Content (ccc_Delta c)) || negb (bool_decide (cd_ToolCalls (ccc_Delta c) = []))
    then Some ROver else Some RRun
  | _ => q1
  end.

Definition choices_of (chunks : list (option ChatCompletionsChunk)) : list ChatChunkChoice :=
  chunks ≫= fun c => match c with Some c => chunk_Choices c | None => [] end.

(** The arguments of every call that is passed on as JSON are JSON, or blank;
    calls already announced as custom or search calls pass anything on. *)
Definition arguments_json (s : ChatCompletionsToResponsesStreamState) : Prop :=
  forall k c, ccs_ToolCalls s !! k = Some c ->
    (flag (ccs_toolAnnounced s) k = true /\
     (flag (ccs_toolIsCustom s) k || flag (ccs_toolIsToolSearch s) k) = true) \/
    Valid (argumentsOrEmpty (cfc_Arguments (ctc_Function c))) = true.

(** ** The simulation relation

    Output indices are handed out once: every index belongs to a slot, and what the
    automaton knows about an index is what the state says about its slot. *)

Inductive slot := SReasoning | SMessage | STool (k : Z).

#[export] Instance slot_eq_dec : EqDecision slot.
Proof. solve_decision. Defined.

Definition slot_index (s : ChatCompletionsToResponsesStreamState) (sl : slot) : option Z :=
  match sl with
  | SReasoning => if ccs_ReasoningOpen s || ccs_ReasoningDone s then Some (ccs_ReasoningIndex s) else None
  | SMessage => if is_empty (ccs_MessageItemID s) then None else Some (ccs_MessageIndex s)
  | STool k => ccs_ToolOutputIndex s !! k
  end.

Definition tool_kind (s : ChatCompletionsToResponsesStreamState) (k : Z) : item_kind :=
  if flag (ccs_toolIsCustom s) k then KCustom
  else if flag (ccs_toolIsToolSearch s) k then KSearch else KCall.

Definition call_arguments (s : ChatCompletionsToResponsesStreamState) (k : Z) : string :=
  cfc_Arguments (ctc_Function (stored_call s k)).

(** What the deltas of a call add up to; those of a custom tool come at the end. *)
Definition tool_acc (closed : bool) (s : ChatCompletionsToResponsesStreamState) (k : Z) : string :=
  match tool_kind s k with
  | KCall => call_arguments s k
  | KCustom => if closed then extractCustomToolCallInput (argumentsOrEmpty (call_arguments s k)) else ""
  | _ => ""
  end.

(** The item of a slot, when the message ([md]) and the calls in [cl] are closed. *)
Definition view (md : bool) (cl : gset Z) (s : ChatCompletionsToResponsesStreamState) (sl : slot)
    : option live_item :=
  match sl with
  | SReasoning => Some (MkLive KReasoning (ccs_ReasoningItemID s)
      (if ccs_ReasoningOpen s then StPart else StClosed) (ccs_Reasoning s))
  | SMessage => Some (MkLive KMessage (ccs_MessageItemID s)
      (if md then StClosed else StPart) (ccs_Text s))
  | STool k =>
    if flag (ccs_toolAnnounced s) k then
      Some (MkLive (tool_kind s k) (toolItemID s k)
        (if bool_decide (k ∈ cl) then StClosed else StAdded) (tool_acc (bool_decide (k ∈ cl)) s k))
    else None
  end.

(** The fields are consistent with each other. *)
Record wf (s : ChatCompletionsToResponsesStreamState) : Prop := {
  wf_created : ccs_CreatedSent s = true;
  wf_completed : ccs_CompletedSent s = false;
  wf_part : ccs_TextPartOpen s = negb (is_empty (ccs_MessageItemID s));
  wf_text : ccs_MessageItemID s = "" -> ccs_Text s = "";
  wf_reasoning : ccs_ReasoningOpen s || ccs_ReasoningDone s = negb (is_empty (ccs_Reasoning s));
  wf_reasoning_id : ccs_Reasoning s <> "" -> ccs_ReasoningItemID s <> "";
  wf_calls : forall k, is_Some (ccs_ToolCalls s !! k) <-> is_Some (ccs_ToolOutputIndex s !! k);
  wf_ids : forall k, is_Some (ccs_ToolCalls s !! k) -> toolItemID s k <> "";
  wf_announced : forall k, flag (ccs_toolAnnounced s) k = true -> is_Some (ccs_ToolCalls s !! k)
}.

Definition placed (s : ChatCompletionsToResponsesStreamState) (alloc : gmap Z slot) : Prop :=
  (forall i sl, alloc !! i = Some sl <-> slot_index s sl = Some i) /\
  (forall i sl, alloc !! i = Some sl -> (i < ccs_nextOutputIndex s)%Z).

Definition sim (md : bool) (cl : gset Z) (s : ChatCompletionsToResponsesStreamState)
    (m : gmap Z live_item) : Prop :=
  wf s /\ exists alloc, placed s alloc /\ m = omap (view md cl s) alloc.

Lemma sim_lookup md cl s m sl i :
  sim md cl s m -> slot_index s sl = Some i -> m !! i = view md cl s sl.
Proof.
  intros (_ & alloc & [H1 _] & ->) Hi. apply H1 in Hi. by rewrite lookup_omap, Hi.
Qed.

Lemma sim_inv md cl s m i it :
  sim md cl s m -> m !! i = Some it ->
  exists sl, slot_index s sl = Some i /\ view md cl s sl = Some it.
Proof.
  intros (_ & alloc & [H1 _] & ->) Hi. rewrite lookup_omap in Hi.
  destruct (alloc !! i) as [sl|] eqn:E; [|done]. exists sl. split; [by apply H1|done].
Qed.

Lemma sim_fresh md cl s m : sim md cl s m -> m !! ccs_nextOutputIndex s = None.
Proof.
  intros (_ & alloc & [_ H2] & ->). rewrite lookup_omap.
  destruct (alloc !! ccs_nextOutputIndex s) as [sl|] eqn:E; [|done]. apply H2 in E. lia.
Qed.

(** Nothing that is visible changed. *)
Lemma sim_frame md cl md' cl' s s' m :
  sim md cl s m -> wf s' -> ccs_nextOutputIndex s' = ccs_nextOutputIndex s ->
  (forall sl, slot_index s' sl = slot_index s sl) ->
  (forall sl, is_Some (slot_index s sl) -> view md' cl' s' sl = view md cl s sl) -> sim md' cl' s' m.
Proof.
  intros (_ & alloc & [H1 H2] & ->) W Hn Hs Hv. split; [done|]. exists alloc. split.
  - split; intros i sl; [rewrite Hs; apply H1|rewrite Hn; apply H2].
  - apply map_eq. intros i. rewrite !lookup_omap. destruct (alloc !! i) as [sl|] eqn:E; [|done].
    cbn. symmetry. apply Hv. apply H1 in E. by rewrite E.
Qed.

(** One slot's item changed. *)
Lemma sim_update md cl md' cl' s s' m sl i it :
  sim md cl s m -> wf s' -> slot_index s sl = Some i ->
  ccs_nextOutputIndex s' = ccs_nextOutputIndex s ->
  (forall sl, slot_index s' sl = slot_index s sl) ->
  (forall sl', sl' <> sl -> is_Some (slot_index s sl') -> view md' cl' s' sl' = view md cl s sl') ->
  view md' cl' s' sl = Some it -> sim md' cl' s' (<[ i := it ]> m).
Proof.
  intros (_ & alloc & [H1 H2] & ->) W Hi Hn Hs Hv Hit. split; [done|]. exists alloc. split.
  - split; intros j sl'; [rewrite Hs; apply H1|rewrite Hn; apply H2].
  - apply map_eq. intros j. rewrite lookup_omap. destruct (decide (i = j)) as [<-|Hne].
    + rewrite lookup_insert_eq. apply H1 in Hi. by rewrite Hi.
    + rewrite lookup_insert_ne, lookup_omap by done.
      destruct (alloc !! j) as [sl'|] eqn:E; [|done]. cbn. symmetry.
      apply H1 in E. apply Hv; [|by rewrite E]. intros ->. congruence.
Qed.

(** A slot got the next output index; its item may not be announced yet. *)
Lemma sim_new md cl s s' m sl :
  sim md cl s m -> wf s' -> slot_index s sl = None ->
  slot_index s' sl = Some (ccs_nextOutputIndex s) ->
  ccs_nextOutputIndex s' = (ccs_nextOutputIndex s + 1)%Z ->
  (forall sl', sl' <> sl -> slot_index s' sl' = slot_index s sl') ->
  (forall sl', sl' <> sl -> is_Some (slot_index s sl') -> view md cl s' sl' = view md cl s sl') ->
  sim md cl s' (match view md cl s' sl with
                | Some it => <[ ccs_nextOutputIndex s := it ]> m
                | None => m
                end).
Proof.
  intros Hsim W H0 Hnew Hn Hs Hv. pose proof (sim_fresh _ _ _ _ Hsim) as Hfresh.
  destruct Hsim as (_ & alloc & [H1 H2] & ->). split; [done|].
  assert (Ha : alloc !! ccs_nextOutputIndex s = None).
  { destruct (alloc !! ccs_nextOutputIndex s) eqn:E; [|done]. apply H2 in E. lia. }
  exists (<[ ccs_nextOutputIndex s := sl ]> alloc). split.
  - split; intros j sl'; destruct (decide (ccs_nextOutputIndex s = j)) as [<-|Hne];
      rewrite ?lookup_insert_eq, ?lookup_insert_ne by done.
    + split; [intros [= <-]; done|]. intros E. f_equal.
      destruct (decide (sl = sl')) as [<-|Hsl]; [done|]. rewrite Hs in E by done.
      apply H1 in E. congruence.
    + destruct (decide (sl = sl')) as [<-|Hsl].
      * rewrite Hnew. split; [intros E; apply H1 in E; congruence|]. intros [= ?]; congruence.
      * rewrite Hs by done. apply H1.
    + intros _. lia.
    + intros E. apply H2 in E. lia.
  - apply map_eq. intros j. rewrite lookup_omap.
    destruct (decide (ccs_nextOutputIndex s = j)) as [<-|Hne].
    + rewrite lookup_insert_eq. cbn. destruct (view md cl s' sl); [by rewrite lookup_insert_eq|].
      done.
    + rewrite lookup_insert_ne by done.
      transitivity (omap (view md cl s) alloc !! j).
      { destruct (view md cl s' sl); [by rewrite lookup_insert_ne|done]. }
      rewrite lookup_omap. destruct (alloc !! j) as [sl'|] eqn:E; [|done]. cbn. symmetry.
      apply H1 in E. apply Hv; [|by rewrite E]. intros ->. congruence.
Qed.

Lemma sim_new_item md cl s s' m sl it :
  sim md cl s m -> wf s' -> slot_index s sl = None ->
  slot_index s' sl = Some (ccs_nextOutputIndex s) ->
  ccs_nextOutputIndex s' = (ccs_nextOutputIndex s + 1)%Z ->
  (forall sl', sl' <> sl -> slot_index s' sl' = slot_index s sl') ->
  (forall sl', sl' <> sl -> is_Some (slot_index s sl') -> view md cl s' sl' = view md cl s sl') ->
  view md cl s' sl = Some it -> sim md cl s' (<[ ccs_nextOutputIndex s := it ]> m).
Proof.
  intros Hs W H0 H1 H2 H3 H4 H5. pose proof (sim_new md cl s s' m sl Hs W H0 H1 H2 H3 H4) as H.
  by rewrite H5 in H.
Qed.

(** ** Steps of handlers *)

(** From states and items in [A] the handler emits accepted events and ends in [B]. *)
Definition triple (A : ChatCompletionsToResponsesStreamState -> gmap Z live_item -> Prop)
    (h : chat_handler)
    (B : ChatCompletionsToResponsesStreamState -> gmap Z live_item -> Prop) : Prop :=
  forall s m, A s m -> exists m',
    accepts bridge_step (BOpen m) (h s).2 = Some (BOpen m') /\ B (h s).1 m'.

Lemma triple_skip A : triple A skip A.
Proof. intros s m H. by exists m. Qed.

Lemma triple_then A B C h1 h2 : triple A h1 B -> triple B h2 C -> triple A (andThen h1 h2) C.
Proof.
  intros H1 H2 s m HA. unfold andThen. destruct (H1 s m HA) as (m1 & A1 & B1).
  destruct (h1 s) as [s1 o1]. destruct (H2 s1 m1 B1) as (m2 & A2 & B2).
  destruct (h2 s1) as [s2 o2]. exists m2. split; [eauto with gateway|done].
Qed.

Lemma triple_forEach {X : Type} A (h : X -> chat_handler) xs :
  (forall x, triple A (h x) A) -> triple A (forEach h xs) A.
Proof.
  intros H. induction xs as [|x xs IH]; [apply triple_skip|]. exact (triple_then _ _ _ _ _ (H x) IH).
Qed.

(** The events of one item are checked against that item only. *)
Definition item_event (i : Z) (e : ResponsesStreamEvent) : Prop :=
  rse_OutputIndex e = i /\ (rse_Type_ e =s "response.output_item.added") = false /\
  is_terminal (rse_Type_ e) = false.

Lemma accepts_item m i it it' es :
  m !! i = Some it -> Forall (item_event i) es -> accepts item_step it es = Some it' ->
  accepts bridge_step (BOpen m) es = Some (BOpen (<[ i := it' ]> m)).
Proof.
  intros Hm Hes. revert m it Hm. induction Hes as [|e es (H1 & H2 & H3) _ IH]; intros m it Hm; cbn.
  - intros [= ->]. by rewrite insert_id.
  - rewrite H1, H2, H3, Hm. destruct (item_step it e) as [it1|]; [|done]. intros Hes.
    rewrite (IH _ it1); [by rewrite insert_insert_eq|apply lookup_insert_eq|done].
Qed.

Lemma added_step m e o k :
  rse_Type_ e = "response.output_item.added" -> m !! rse_OutputIndex e = None ->
  rse_Item e = Some o -> kind_of (ro_Type_ o) = Some k ->
  bridge_step (BOpen m) e
  = Some (BOpen (<[ rse_OutputIndex e := MkLive k (ro_ID o) StAdded "" ]> m)).
Proof. intros H1 H2 H3 H4. unfold bridge_step. by rewrite H1, H2, H3, H4. Qed.

(** ** Transitions of an item *)

Section ItemSteps.
Context (id acc : string) (e : ResponsesStreamEvent) (Hid : rse_ItemID e = id).

Ltac item_transition :=
  intros; unfold item_step, part_step, payload_step; cbn [li_kind li_stage li_id li_acc];
  repeat match goal with H : rse_Type_ e = _ |- _ => rewrite H; clear H end;
  rewrite Hid, String.eqb_refl; cbn;
  repeat match goal with H : _ e = _ |- _ => rewrite H; clear H end;
  rewrite ?String.eqb_refl, ?bool_decide_eq_true_2 by done; done.

Lemma text_part_added : rse_Type_ e = "response.content_part.added" ->
  item_step (MkLive KMessage id StAdded acc) e = Some (MkLive KMessage id StPart acc).
Proof using Hid. item_transition. Qed.

Lemma text_delta : rse_Type_ e = "response.output_text.delta" ->
  item_step (MkLive KMessage id StPart acc) e = Some (MkLive KMessage id StPart (acc +:+ rse_Delta e)).
Proof using Hid. item_transition. Qed.

Lemma text_done : rse_Type_ e = "response.output_text.done" -> rse_Text e = acc ->
  item_step (MkLive KMessage id StPart acc) e = Some (MkLive KMessage id StText acc).
Proof using Hid. item_transition. Qed.

Lemma text_part_done : rse_Type_ e = "response.content_part.done" ->
  rse_Part e = Some (zero_ResponsesContentPart <| rcp_Type_ := "output_text" |> <| rcp_Text := acc |>) ->
  item_step (MkLive KMessage id StText acc) e = Some (MkLive KMessage id StFull acc).
Proof using Hid. item_transition. Qed.

Lemma summary_part_added : rse_Type_ e = "response.reasoning_summary_part.added" ->
  item_step (MkLive KReasoning id StAdded acc) e = Some (MkLive KReasoning id StPart acc).
Proof using Hid. item_transition. Qed.

Lemma summary_delta : rse_Type_ e = "response.reasoning_summary_text.delta" ->
  item_step (MkLive KReasoning id StPart acc) e
  = Some (MkLive KReasoning id StPart (acc +:+ rse_Delta e)).
Proof using Hid. item_transition. Qed.

Lemma summary_done : rse_Type_ e = "response.reasoning_summary_text.done" -> rse_Text e = acc ->
  item_step (MkLive KReasoning id StPart acc) e = Some (MkLive KReasoning id StText acc).
Proof using Hid. item_transition. Qed.

Lemma summary_part_done : rse_Type_ e = "response.reasoning_summary_part.done" ->
  rse_Part e = Some (zero_ResponsesContentPart <| rcp_Type_ := "summary_text" |> <| rcp_Text := acc |>) ->
  item_step (MkLive KReasoning id StText acc) e = Some (MkLive KReasoning id StFull acc).
Proof using Hid. item_transition. Qed.

Lemma arguments_delta : rse_Type_ e = "response.function_call_arguments.delta" ->
  item_step (MkLive KCall id StAdded acc) e = Some (MkLive KCall id StAdded (acc +:+ rse_Delta e)).
Proof using Hid. item_transition. Qed.

Lemma arguments_done : rse_Type_ e = "response.function_call_arguments.done" ->
  rse_Arguments e = complete_arguments acc ->
  item_step (MkLive KCall id StAdded acc) e = Some (MkLive KCall id StFull acc).
Proof using Hid. item_transition. Qed.

Lemma input_delta : rse_Type_ e = "response.custom_tool_call_input.delta" ->
  item_step (MkLive KCustom id StAdded acc) e = Some (MkLive KCustom id StAdded (acc +:+ rse_Delta e)).
Proof using Hid. item_transition. Qed.

Lemma input_done : rse_Type_ e = "response.custom_tool_call_input.done" -> rse_Input e = acc ->
  item_step (MkLive KCustom id StAdded acc) e = Some (MkLive KCustom id StFull acc).
Proof using Hid. item_transition. Qed.
End ItemSteps.

Lemma item_done k id st acc e o :
  rse_Type_ e = "response.output_item.done" -> rse_Item e = Some o ->
  carries (MkLive k id st acc) o = true -> complete_item (MkLive k id st acc) = true ->
  item_step (MkLive k id st acc) e = Some (MkLive k id StClosed acc).
Proof. intros H1 H2 H3 H4. unfold item_step. by rewrite H1, H2, H3, H4. Qed.

Lemma carries_reasoning id st text status :
  carries (MkLive KReasoning id st text) (reasoning_item id text <| ro_Status := status |>) = true.
Proof. unfold carries. cbn. rewrite String.eqb_refl, ?bool_decide_eq_true_2 by done. done. Qed.

Lemma carries_text id st text : carries (MkLive KMessage id st text) (text_item id text) = true.
Proof. unfold carries. cbn. rewrite String.eqb_refl, ?bool_decide_eq_true_2 by done. done. Qed.

(** One accepted event at a time. *)
Lemma accepts_step {Q O : Type} (delta : Q -> O -> option Q) q q1 o l :
  delta q o = Some q1 -> accepts delta q (o :: l) = accepts delta q1 l.
Proof. intros H. cbn. by rewrite H. Qed.

Ltac item_events := repeat (first [apply Forall_nil_2 | apply Forall_cons_2; [by split_and!|]]).

(** Unfold the combinators of a handler. *)
Ltac run_bridge :=
  unfold reading, andThen, modify, skip, withItemID, withOutputIndex, chatToResponsesEvent in *.

(** ** The handlers of a chunk *)

Section Chunks.
Context (random_hex : nat -> string) (order : map_order).

Lemma generateItemID_nonempty n : generateItemID random_hex n <> "".
Proof. done. Qed.

Lemma generateItemID_is_empty n : is_empty (generateItemID random_hex n) = false.
Proof. done. Qed.

(** Where the run of reasoning can be, and what follows other output. *)
Definition running (q : reasoning_phase) (s : ChatCompletionsToResponsesStreamState) : Prop :=
  (ccs_ReasoningDone s = true -> q = ROver) /\ (ccs_ReasoningOpen s = true -> q <> RNone).

Definition after_reasoning (q : reasoning_phase) : reasoning_phase :=
  match q with RRun => ROver | _ => q end.

Lemma running_after q s : running q s -> running (after_reasoning q) s.
Proof. intros [H1 H2]. split; intros E; [by rewrite (H1 E)|]. specialize (H2 E). by destruct q. Qed.

Lemma closeReasoning_triple md cl q :
  triple (fun s m => sim md cl s m /\ running q s) closeChatReasoningItem
    (fun s m => sim md cl s m /\ running (after_reasoning q) s /\ ccs_ReasoningOpen s = false).
Proof.
  intros s m [Hs Hq]. unfold closeChatReasoningItem. run_bridge.
  destruct (ccs_ReasoningOpen s) eqn:Eo; cbn [negb];
    [|exists m; split_and!; auto using running_after].
  assert (Hi : slot_index s SReasoning = Some (ccs_ReasoningIndex s)) by (cbn; by rewrite Eo).
  pose proof (sim_lookup _ _ _ _ _ _ Hs Hi) as Hm. cbn in Hm. rewrite Eo in Hm.
  eexists. split; [|split; [|split; [|reflexivity]]].
  - cbn [fst snd app]. eapply accepts_item; [exact Hm|item_events|].
    erewrite accepts_step; [|by apply summary_done].
    erewrite accepts_step; [|by apply summary_part_done].
    erewrite accepts_step; [reflexivity|].
    eapply item_done; [reflexivity|reflexivity|apply carries_reasoning|reflexivity].
  - eapply (sim_update _ _ _ _ s _ m SReasoning); [done| |done|done| | |reflexivity].
    + destruct Hs as [[] _]. split; try done. by rewrite Eo in wf_reasoning0.
    + intros [| |k]; cbn; [by rewrite Eo|done|done].
    + intros [| |k]; done.
  - destruct Hq as [_ H2]. specialize (H2 Eo). split; [|done]. by destruct q.
Qed.

Lemma handleReasoning_triple q q' r :
  (if nonempty r then match q with ROver => None | _ => Some RRun end else Some q) = Some q' ->
  triple (fun s m => sim false ∅ s m /\ running q s) (handleReasoning random_hex r)
    (fun s m => sim false ∅ s m /\ running q' s).
Proof.
  intros Hq s m [Hs [Hr Hr2]]. unfold handleReasoning.
  destruct r as [r|]; [|cbn in Hq; injection Hq as <-; by exists m].
  cbn in Hq. destruct (is_empty r) eqn:Er; cbn in Hq; [injection Hq as <-; by exists m|].
  assert (Hd : ccs_ReasoningDone s = false).
  { destruct (ccs_ReasoningDone s); [|done]. by rewrite Hr in Hq. }
  assert (Hq' : q' = RRun) by (destruct q; congruence). subst q'. clear Hq.
  assert (Hne : forall t, is_empty (t +:+ r) = false).
  { intros t. apply is_empty_false. apply is_empty_false in Er. by destruct t. }
  unfold ensureChatReasoningItem. run_bridge.
  destruct (ccs_ReasoningOpen s) eqn:Eo; rewrite ?Hd; cbn [orb].
  - assert (Hi : slot_index s SReasoning = Some (ccs_ReasoningIndex s)) by (cbn; by rewrite Eo).
    pose proof (sim_lookup _ _ _ _ _ _ Hs Hi) as Hm. cbn in Hm. rewrite Eo in Hm.
    eexists. split; [|split].
    + cbn [fst snd app]. eapply accepts_item; [exact Hm|item_events|].
      erewrite accepts_step; [reflexivity|by apply summary_delta].
    + eapply (sim_update _ _ _ _ s _ m SReasoning); [done| |done|done| | |cbn; by rewrite Eo].
      * destruct Hs as [[] _]. split; cbn; try done.
        -- rewrite Hne. by rewrite Eo.
        -- intros _. apply wf_reasoning_id0. intros E. by rewrite E, Eo in wf_reasoning0.
      * by intros [| |k].
      * by intros [| |k].
    + split; [|done]. intros H. cbn in H. congruence.
  - destruct Hs as [W Hs']. assert (Hs : sim false ∅ s m) by done.
    assert (Ht : ccs_Reasoning s = "").
    { destruct W. rewrite Eo, Hd in wf_reasoning0. cbn in wf_reasoning0.
      symmetry in wf_reasoning0. apply negb_false_iff in wf_reasoning0. by apply is_empty_true. }
    eexists. split; [|split].
    + cbn [fst snd app]. erewrite accepts_step;
        [|apply added_step; [reflexivity|by apply sim_fresh in Hs|reflexivity|reflexivity]].
      eapply accepts_item; [apply lookup_insert_eq|item_events|].
      erewrite accepts_step; [|by apply summary_part_added].
      erewrite accepts_step; [reflexivity|by apply summary_delta].
    + cbn [fst snd]. rewrite insert_insert_eq.
      eapply (sim_new_item _ _ s _ m SReasoning);
        [done| |cbn; by rewrite Eo, Hd|reflexivity|reflexivity|by intros [| |k]|by intros [| |k]|].
      * destruct W. split; cbn; try done. by rewrite Hne.
      * cbn. by rewrite Ht.
    + split; [|done]. intros H. cbn in H. congruence.
Qed.

Lemma handleContent_triple q c :
  triple (fun s m => sim false ∅ s m /\ running q s) (handleContent random_hex c)
    (fun s m => sim false ∅ s m /\ running (if nonempty c then after_reasoning q else q) s).
Proof.
  destruct c as [c|]; [|apply triple_skip]. cbn [handleContent nonempty].
  destruct (is_empty c) eqn:Ec; cbn [negb]; [apply triple_skip|].
  eapply triple_then; [apply closeReasoning_triple|].
  intros s m (Hs & Hq & _). unfold ensureChatToResponsesMessageItem, ensureChatToResponsesTextPart.
  run_bridge. destruct (is_empty (ccs_MessageItemID s)) eqn:Em; cbn [negb].
  - destruct Hs as [W Hs']. assert (Hs : sim false ∅ s m) by done.
    assert (Hp : ccs_TextPartOpen s = false) by (by rewrite (wf_part s W), Em).
    assert (Ht : ccs_Text s = "") by (apply (wf_text s W); by apply is_empty_true).
    cbn. rewrite Hp. eexists. split; [|split].
    + cbn [fst snd app]. erewrite accepts_step;
        [|apply added_step; [reflexivity|by apply sim_fresh in Hs|reflexivity|reflexivity]].
      eapply accepts_item; [apply lookup_insert_eq|item_events|].
      erewrite accepts_step; [|by apply text_part_added].
      erewrite accepts_step; [reflexivity|by apply text_delta].
    + cbn [fst snd]. rewrite insert_insert_eq.
      eapply (sim_new_item _ _ s _ m SMessage);
        [done| |cbn; by rewrite Em|reflexivity|reflexivity|by intros [| |k]|by intros [| |k]|].
      * destruct W. by split.
      * cbn. by rewrite Ht.
    + exact Hq.
  - assert (Hp : ccs_TextPartOpen s = true) by (by rewrite (wf_part s (proj1 Hs)), Em).
    rewrite Hp.
    assert (Hi : slot_index s SMessage = Some (ccs_MessageIndex s)) by (cbn; by rewrite Em).
    pose proof (sim_lookup _ _ _ _ _ _ Hs Hi) as Hm. cbn in Hm.
    eexists. split; [|split].
    + cbn [fst snd app]. eapply accepts_item; [exact Hm|item_events|].
      erewrite accepts_step; [reflexivity|by apply text_delta].
    + eapply (sim_update _ _ _ _ s _ m SMessage); [done| |done|done|by intros [| |k]|by intros [| |k]|done].
      destruct Hs as [[] _]. split; cbn; try done. intros E. by rewrite E in Em.
    + exact Hq.
Qed.

End Chunks.

(** ** Tool calls *)

(** What the slots other than the one of call [idx] depend on. *)
Definition core (s : ChatCompletionsToResponsesStreamState) :=
  (ccs_CreatedSent s, ccs_CompletedSent s, ccs_nextOutputIndex s, ccs_ReasoningOpen s,
   ccs_ReasoningDone s, ccs_ReasoningItemID s, ccs_ReasoningIndex s, ccs_Reasoning s,
   ccs_MessageItemID s, ccs_MessageIndex s, ccs_TextPartOpen s, ccs_Text s,
   ccs_ToolItemIDs s, ccs_ToolOutputIndex s).

Definition arguments_of (c : ChatToolCall) : string := cfc_Arguments (ctc_Function c).

(** Between [s] and [s'] only flags, name and identifier of call [idx] changed. *)
Record tool_frame (idx : Z) (s s' : ChatCompletionsToResponsesStreamState) : Prop := {
  tf_core : core s' = core s;
  tf_calls : forall k, arguments_of <$> ccs_ToolCalls s' !! k = arguments_of <$> ccs_ToolCalls s !! k;
  tf_flags : forall k, k <> idx ->
    flag (ccs_toolAnnounced s') k = flag (ccs_toolAnnounced s) k /\
    flag (ccs_toolIsCustom s') k = flag (ccs_toolIsCustom s) k /\
    flag (ccs_toolIsToolSearch s') k = flag (ccs_toolIsToolSearch s) k
}.

Lemma tool_frame_trans idx s1 s2 s3 :
  tool_frame idx s1 s2 -> tool_frame idx s2 s3 -> tool_frame idx s1 s3.
Proof.
  intros [A1 A2 A3] [B1 B2 B3]. split; [congruence|intros k; by rewrite B2, A2|].
  intros k Hk. destruct (A3 k Hk) as (? & ? & ?), (B3 k Hk) as (? & ? & ?). split_and!; congruence.
Qed.

Lemma tool_frame_calls idx s s' k :
  tool_frame idx s s' -> is_Some (ccs_ToolCalls s' !! k) <-> is_Some (ccs_ToolCalls s !! k).
Proof. intros F. rewrite <- !(fmap_is_Some arguments_of). by rewrite (tf_calls _ _ _ F). Qed.

Lemma call_arguments_eq s k :
  call_arguments s k = default "" (arguments_of <$> ccs_ToolCalls s !! k).
Proof. unfold call_arguments, stored_call. by destruct (ccs_ToolCalls s !! k). Qed.

Lemma tool_frame_arguments idx s s' k :
  tool_frame idx s s' -> call_arguments s' k = call_arguments s k.
Proof. intros F. by rewrite !call_arguments_eq, (tf_calls _ _ _ F). Qed.

(** Rewrite the equations of the core fields. *)
Ltac core_rewrite F :=
  let E := fresh "E" in pose proof (tf_core _ _ _ F) as E; unfold core in E; injection E as;
  repeat match goal with H : ?f ?s' = ?f ?s |- _ => progress rewrite H; clear H end.

Lemma tool_frame_slot idx s s' sl : tool_frame idx s s' -> slot_index s' sl = slot_index s sl.
Proof. intros F. destruct sl; cbn; core_rewrite F; done. Qed.

Lemma tool_frame_view idx md cl s s' sl :
  tool_frame idx s s' -> sl <> STool idx -> view md cl s' sl = view md cl s sl.
Proof.
  intros F Hsl. destruct sl as [| |k]; cbn; [by core_rewrite F|by core_rewrite F|].
  assert (k <> idx) as Hk by congruence. destruct (tf_flags _ _ _ F k Hk) as (H1 & H2 & H3).
  unfold tool_acc, tool_kind, toolItemID. rewrite H1, H2, H3, (tool_frame_arguments _ _ _ _ F).
  by core_rewrite F.
Qed.

Lemma tool_frame_wf idx s s' :
  tool_frame idx s s' -> wf s ->
  (flag (ccs_toolAnnounced s') idx = true -> is_Some (ccs_ToolCalls s !! idx)) -> wf s'.
Proof.
  intros F W Hidx. destruct W. split; try (core_rewrite F; done).
  - intros k. rewrite (tool_frame_calls _ _ _ _ F). core_rewrite F. done.
  - intros k. rewrite (tool_frame_calls _ _ _ _ F). unfold toolItemID. core_rewrite F. apply wf_ids0.
  - intros k. rewrite (tool_frame_calls _ _ _ _ F). destruct (decide (k = idx)) as [->|Hk]; [done|].
    rewrite (proj1 (tf_flags _ _ _ F k Hk)). apply wf_announced0.
Qed.

(** Writing through the pointer of a call keeps its arguments. *)
Lemma updateCall_frame idx f s :
  (forall c, arguments_of (f c) = arguments_of c) -> tool_frame idx s (updateCall idx f s).
Proof.
  intros Hf. split; [done| |done]. intros k. cbn. destruct (decide (k = idx)) as [->|Hk].
  - rewrite lookup_alter_eq. destruct (ccs_ToolCalls s !! idx); cbn; [by rewrite Hf|done].
  - by rewrite lookup_alter_ne.
Qed.

Lemma updateCall_sim md cl idx f s m :
  (forall c, arguments_of (f c) = arguments_of c) -> is_Some (ccs_ToolCalls s !! idx) ->
  sim md cl s m -> sim md cl (updateCall idx f s) m.
Proof.
  intros Hf Hidx Hs. pose proof (updateCall_frame idx f s Hf) as F.
  apply (sim_frame md cl _ _ s); [done|eapply tool_frame_wf; [done|apply Hs|done]|done| |].
  - intros sl. by apply (tool_frame_slot idx).
  - intros sl _. destruct (decide (sl = STool idx)) as [->|Hsl]; [|by eapply tool_frame_view].
    cbn. unfold tool_acc, tool_kind. by rewrite (tool_frame_arguments _ _ _ _ F).
Qed.

Section ToolCalls.
Context (random_hex : nat -> string) (order : map_order).

Lemma classifyCall_frame idx s : tool_frame idx s (classifyCall order idx s).
Proof.
  unfold classifyCall.
  set (s1 := match customNameOf order s _ with Some n => updateCall idx (set_name n) s | None => s end).
  assert (F : tool_frame idx s s1).
  { unfold s1. destruct (customNameOf order s _); [by apply updateCall_frame|by split]. }
  apply (tool_frame_trans _ _ s1); [done|]. cbn zeta. clearbody s1. clear F.
  assert (Hf : forall (m : gmap Z bool) k v, k <> idx -> flag (<[ idx := v ]> m) k = flag m k).
  { intros m k v Hk. unfold flag. by rewrite lookup_insert_ne. }
  repeat case_match; (split; [done|done|intros k Hk; cbn; by rewrite !Hf]).
Qed.

Lemma tool_frame_running idx q s s' : tool_frame idx s s' -> running q s -> running q s'.
Proof. intros F. unfold running. by core_rewrite F. Qed.

(** The call [idx] is recorded. *)
Definition recorded (q : reasoning_phase) (idx : Z) (s : ChatCompletionsToResponsesStreamState)
    (m : gmap Z live_item) : Prop :=
  sim false ∅ s m /\ running q s /\ is_Some (ccs_ToolCalls s !! idx).

Lemma updateCall_recorded q idx f s m :
  (forall c, arguments_of (f c) = arguments_of c) -> recorded q idx s m ->
  recorded q idx (updateCall idx f s) m.
Proof.
  intros Hf (H1 & H2 & H3). pose proof (updateCall_frame idx f s Hf) as F.
  split_and!; [by apply updateCall_sim|by eapply tool_frame_running|].
  by apply (tool_frame_calls _ _ _ _ F).
Qed.

Lemma unrecorded_index md cl s m idx :
  sim md cl s m -> ccs_ToolCalls s !! idx = None ->
  ccs_ToolOutputIndex s !! idx = None /\ flag (ccs_toolAnnounced s) idx = false.
Proof.
  intros [W _] E. split.
  - apply eq_None_not_Some. rewrite <- (wf_calls s W), E. by intros [].
  - destruct (flag (ccs_toolAnnounced s) idx) eqn:Ea; [|done].
    apply (wf_announced s W) in Ea. rewrite E in Ea. by destruct Ea.
Qed.

Lemma storeToolCall_triple q idx tc : after_reasoning q = q ->
  triple (fun s m => sim false ∅ s m /\ running q s) (storeToolCall random_hex idx tc) (recorded q idx).
Proof.
  intros Hq s m [Hs Hr]. unfold storeToolCall, reading.
  destruct (ccs_ToolCalls s !! idx) as [c|] eqn:E.
  - exists m. split; [done|]. cbn [fst modify]. apply updateCall_recorded; [|by split_and!].
    intros c'. by repeat case_match.
  - revert s m Hs Hr E.
    enough (triple (fun s m => (sim false ∅ s m /\ running q s /\ ccs_ReasoningOpen s = false)
        /\ ccs_ToolCalls s !! idx = None)
      (withItemID random_hex (fun id => withOutputIndex (fun outputIndex =>
      modify (fun state => state
        <| ccs_ToolCalls := <[ idx := tc <| ctc_Type_ := "function" |>
             <| ctc_Function := ctc_Function tc <| cfc_Arguments := "" |> |> ]>
             (ccs_ToolCalls state) |>
        <| ccs_ToolItemIDs := <[ idx := id ]> (ccs_ToolItemIDs state) |>
        <| ccs_ToolOutputIndex := <[ idx := outputIndex ]> (ccs_ToolOutputIndex state) |>))))
      (recorded q idx)) as Htail.
    { intros s m Hs Hr E. pose proof (closeReasoning_triple false ∅ q s m (conj Hs Hr)) as Hc.
      rewrite Hq in Hc.
      assert (Hk : ccs_ToolCalls (closeChatReasoningItem s).1 !! idx = None).
      { unfold closeChatReasoningItem. run_bridge. by destruct (ccs_ReasoningOpen s). }
      destruct Hc as (m1 & A1 & B1). unfold andThen.
      destruct (closeChatReasoningItem s) as [s1 o1].
      destruct (Htail s1 m1 (conj B1 Hk)) as (m2 & A2 & B2).
      destruct (withItemID _ _ s1) as [s2 o2]. exists m2. split; [eauto with gateway|done]. }
    clear. intros s m [(Hs & Hr & _) E]. destruct (unrecorded_index _ _ _ _ _ Hs E) as [Hi Ha].
    exists m. split; [done|]. run_bridge. cbn [fst]. split_and!; [|exact Hr|cbn; by rewrite lookup_insert_eq].
    match goal with |- sim _ _ ?s' _ => pose proof (sim_new false ∅ s s' m (STool idx) Hs) as Hnew end.
    cbn [view] in Hnew. cbn in Hnew. rewrite Ha in Hnew. apply Hnew; [|done|by rewrite lookup_insert_eq|done| |].
    + destruct Hs as [[] _]. split; cbn; try done.
      * intros k. destruct (decide (k = idx)) as [->|Hk]; [by rewrite !lookup_insert_eq|].
        by rewrite !lookup_insert_ne.
      * intros k. unfold toolItemID. cbn. destruct (decide (k = idx)) as [->|Hk];
          [by rewrite !lookup_insert_eq|]. rewrite !lookup_insert_ne by done. apply wf_ids0.
      * intros k Hk. destruct (decide (k = idx)) as [->|Hne]; [by rewrite lookup_insert_eq|].
        rewrite lookup_insert_ne by done. by apply wf_announced0.
    + intros [| |k] Hk; cbn; try done. rewrite lookup_insert_ne; [done|congruence].
    + intros [| |k] Hk; cbn; try done. intros _.
      unfold tool_acc, tool_kind, call_arguments, stored_call, toolItemID. cbn.
      by rewrite !lookup_insert_ne by congruence.
Qed.

Lemma restoreName_triple q idx : triple (recorded q idx) (restoreName order idx) (recorded q idx).
Proof.
  intros s m Hr. unfold restoreName, reading.
  destruct (customNameOf order s _); [|by exists m].
  exists m. split; [done|]. by apply updateCall_recorded.
Qed.

Lemma itemType_kind s idx : kind_of (itemType s idx) = Some (tool_kind s idx).
Proof.
  unfold itemType, tool_kind. by destruct (flag (ccs_toolIsCustom s) idx), (flag (ccs_toolIsToolSearch s) idx).
Qed.

Lemma itemType_call s idx :
  (itemType s idx =s "function_call") = bool_decide (tool_kind s idx = KCall).
Proof.
  unfold itemType, tool_kind. by destruct (flag (ccs_toolIsCustom s) idx), (flag (ccs_toolIsToolSearch s) idx).
Qed.

(** Announcing a recorded call that has not been announced. *)
Lemma announced_event md cl idx s0 s m :
  sim md cl s0 m -> tool_frame idx s0 s -> is_Some (ccs_ToolCalls s0 !! idx) -> idx ∉ cl ->
  flag (ccs_toolAnnounced s0) idx = false -> flag (ccs_toolAnnounced s) idx = true ->
  let h := reading (fun state =>
      let stored := stored_call state idx in
      let '(name, namespace) := shownName state idx in
      chatToResponsesEvent "response.output_item.added" (zero_ResponsesStreamEvent
        <| rse_OutputIndex := toolOutputIndex state idx |>
        <| rse_Item := Some (zero_ResponsesOutput
             <| ro_Type_ := itemType state idx |> <| ro_ID := toolItemID state idx |>
             <| ro_CallID := ctc_ID stored |> <| ro_Name := name |>
             <| ro_Namespace := namespace |> <| ro_Status := "in_progress" |>) |>) ;;
      if (itemType state idx =s "function_call")
         && negb (is_empty (cfc_Arguments (ctc_Function stored)))
      then argumentsDelta idx (cfc_Arguments (ctc_Function stored)) else skip)%handler in
  exists m', accepts bridge_step (BOpen m) (h s).2 = Some (BOpen m') /\ sim md cl (h s).1 m'
    /\ tool_frame idx s (h s).1 /\ flag (ccs_toolAnnounced (h s).1) idx = true.
Proof.
  intros Hs F Hidx Hcl Ha0 Ha h. unfold h, reading.
  destruct (shownName s idx) as [name namespace].
  assert (Hsome := Hidx). apply (wf_calls s0 (proj1 Hs)) in Hsome as [i Hi].
  assert (Hm : m !! i = None).
  { rewrite (sim_lookup _ _ _ _ (STool idx) _ Hs Hi). cbn. by rewrite Ha0. }
  assert (Hti : toolOutputIndex s idx = i) by (unfold toolOutputIndex; core_rewrite F; by rewrite Hi).
  assert (Hsim : forall s' it, (forall sl, slot_index s' sl = slot_index s sl) ->
      ccs_nextOutputIndex s' = ccs_nextOutputIndex s -> (forall sl, view md cl s' sl = view md cl s sl) ->
      wf s' -> view md cl s (STool idx) = Some it -> sim md cl s' (<[ i := it ]> m)).
  { intros s' it H1 H2 H3 H4 H5. eapply (sim_update _ _ _ _ s0 s' m (STool idx)); [done|done|done| | | |].
    - rewrite H2. by core_rewrite F.
    - intros sl. rewrite H1. by apply (tool_frame_slot idx).
    - intros sl Hsl _. rewrite H3. by apply (tool_frame_view idx).
    - by rewrite H3. }
  assert (W : wf s) by (by eapply tool_frame_wf; [done|apply Hs|]).
  assert (Hview : view md cl s (STool idx)
    = Some (MkLive (tool_kind s idx) (toolItemID s idx) StAdded (tool_acc false s idx))).
  { cbn. by rewrite Ha, bool_decide_eq_false_2. }
  unfold andThen, argumentsDelta, reading, chatToResponsesEvent, skip.
  rewrite itemType_call.
  destruct (bool_decide (tool_kind s idx = KCall)
    && negb (is_empty (cfc_Arguments (ctc_Function (stored_call s idx))))) eqn:Ed.
  - apply andb_true_iff in Ed as [Ek _]. apply bool_decide_eq_true in Ek.
    eexists. split; [|split; [|split; [|done]]].
    + cbn [fst snd app]. erewrite accepts_step;
        [|apply added_step; [reflexivity|cbn; by rewrite Hti|reflexivity|apply itemType_kind]].
      eapply accepts_item; [apply lookup_insert_eq| |].
      * item_events.
      * rewrite Ek. erewrite accepts_step; [reflexivity|by apply arguments_delta].
    + cbn [fst snd]. rewrite insert_insert_eq. cbn. rewrite Hti. apply Hsim; [done|done|done| |].
      * destruct W. by split.
      * rewrite Hview. unfold tool_acc. by rewrite Ek.
    + by split.
  - eexists. split; [|split; [|split; [|done]]].
    + cbn [fst snd app]. erewrite accepts_step;
        [reflexivity|apply added_step; [reflexivity|cbn; by rewrite Hti|reflexivity|apply itemType_kind]].
    + cbn. rewrite Hti. apply Hsim; [done|done|done| |].
      * destruct W. by split.
      * rewrite Hview. do 2 f_equal. unfold tool_acc. apply andb_false_iff in Ed as [Ed|Ed].
        -- apply bool_decide_eq_false in Ed. by destruct (tool_kind s idx).
        -- apply negb_false_iff, is_empty_true in Ed.
           unfold call_arguments. rewrite Ed. by destruct (tool_kind s idx).
    + by split.
Qed.

Lemma classifyCall_announced idx s : ccs_toolAnnounced (classifyCall order idx s) = ccs_toolAnnounced s.
Proof. unfold classifyCall. cbn zeta. by repeat (case_match; cbn). Qed.

Lemma markAnnounced_frame idx s :
  tool_frame idx s (s <| ccs_toolAnnounced := <[ idx := true ]> (ccs_toolAnnounced s) |>).
Proof.
  split; [done|done|]. intros k Hk. cbn. unfold flag. by rewrite lookup_insert_ne.
Qed.

Lemma announce_step md cl idx force s m :
  sim md cl s m -> is_Some (ccs_ToolCalls s !! idx) -> idx ∉ cl ->
  let r := announceChatToolItem random_hex order idx force s in
  exists m', accepts bridge_step (BOpen m) r.2 = Some (BOpen m') /\ sim md cl r.1 m' /\
    tool_frame idx s r.1 /\ (force = true -> flag (ccs_toolAnnounced r.1) idx = true).
Proof.
  intros Hs Hidx Hcl r.
  set (P := fun r : ChatCompletionsToResponsesStreamState * list ResponsesStreamEvent =>
    exists m', accepts bridge_step (BOpen m) r.2 = Some (BOpen m') /\ sim md cl r.1 m' /\
      tool_frame idx s r.1 /\ (force = true -> flag (ccs_toolAnnounced r.1) idx = true)).
  change (P r). unfold r, announceChatToolItem. clear r. unfold reading at 1. cbv beta zeta.
  assert (Hrefl : tool_frame idx s s) by (by split).
  destruct (flag (ccs_toolAnnounced s) idx) eqn:Ea; [by exists m|].
  destruct (negb force && _) eqn:Ef; [exists m; split_and!; try done; by destruct force|].
  set (first := if is_empty (ctc_ID (stored_call s idx)) then _ else skip).
  assert (F1 : (first s).2 = [] /\ tool_frame idx s (first s).1).
  { unfold first. destruct (is_empty _); [|by split]. split; [done|].
    unfold withItemID, modify. cbn [fst].
    apply (tool_frame_trans _ _ (s <| ccs_draws := S (ccs_draws s) |>)); [by split|].
    by apply updateCall_frame. }
  destruct F1 as [Ho F1]. unfold andThen at 1. destruct (first s) as [s1 o1]. cbn in Ho, F1. subst o1.
  unfold andThen at 1, modify at 1. unfold andThen at 1, modify at 1.
  set (s2 := s1 <| ccs_toolAnnounced := <[ idx := true ]> (ccs_toolAnnounced s1) |>).
  assert (F3 : tool_frame idx s (classifyCall order idx s2)).
  { eapply tool_frame_trans; [exact F1|]. eapply tool_frame_trans; [apply markAnnounced_frame|].
    apply classifyCall_frame. }
  assert (Ha3 : flag (ccs_toolAnnounced (classifyCall order idx s2)) idx = true).
  { rewrite classifyCall_announced. unfold s2, flag. cbn. by rewrite lookup_insert_eq. }
  destruct (announced_event md cl idx s _ m Hs F3 Hidx Hcl Ea Ha3) as (m' & A & B & C & D).
  revert A B C D. destruct (reading _ (classifyCall order idx s2)) as [s4 o4].
  cbn [fst snd app]. intros A B C D. exists m'. split_and!; [done|done|by eapply tool_frame_trans|done].
Qed.

Lemma announce_triple q idx :
  triple (recorded q idx) (announceChatToolItem random_hex order idx false) (recorded q idx).
Proof.
  intros s m (H1 & H2 & H3).
  destruct (announce_step false ∅ idx false s m H1 H3 (not_elem_of_empty idx)) as (m' & A & B & F & _).
  exists m'. split; [done|]. split_and!; [done|by eapply tool_frame_running|].
  by apply (tool_frame_calls _ _ _ _ F).
Qed.

Lemma appendToolArguments_triple q idx a :
  triple (recorded q idx) (appendToolArguments idx a) (fun s m => sim false ∅ s m /\ running q s).
Proof.
  intros s m (Hs & Hr & c & Hc). unfold appendToolArguments.
  destruct (is_empty a) eqn:Ea; [by exists m|].
  assert (Hi := proj1 (wf_calls s (proj1 Hs) idx) (mk_is_Some _ _ Hc)). destruct Hi as [i Hi].
  pose proof (sim_lookup _ _ _ _ (STool idx) i Hs Hi) as Hm. cbn [view] in Hm.
  set (s1 := updateCall idx (append_arguments a) s).
  assert (Hargs : call_arguments s1 idx = call_arguments s idx +:+ a).
  { unfold call_arguments, stored_call, s1, updateCall. cbn. by rewrite lookup_alter_eq, Hc. }
  assert (Hother : forall k, k <> idx -> stored_call s1 k = stored_call s k).
  { intros k Hk. unfold stored_call, s1, updateCall. cbn. by rewrite lookup_alter_ne. }
  assert (Hwf : wf s1).
  { destruct Hs as [[] _]. unfold s1, updateCall. split; try done; cbn; intros k.
    - rewrite lookup_alter_is_Some. apply wf_calls0.
    - rewrite lookup_alter_is_Some. apply wf_ids0.
    - rewrite lookup_alter_is_Some. apply wf_announced0. }
  assert (Hviews : forall sl, sl <> STool idx -> view false ∅ s1 sl = view false ∅ s sl).
  { intros [| |k] Hk; cbn; try done. unfold tool_acc, call_arguments. rewrite Hother by congruence. done. }
  unfold andThen, modify, reading. fold s1.
  destruct (flag (ccs_toolAnnounced s1) idx && negb (flag (ccs_toolIsCustom s1) idx)
    && negb (flag (ccs_toolIsToolSearch s1) idx)) eqn:Ed.
  - apply andb_true_iff in Ed as [Ed E3]. apply andb_true_iff in Ed as [E1 E2].
    apply negb_true_iff in E2, E3. change (flag (ccs_toolAnnounced s) idx = true) in E1.
    change (flag (ccs_toolIsCustom s) idx = false) in E2.
    change (flag (ccs_toolIsToolSearch s) idx = false) in E3.
    rewrite E1 in Hm. unfold tool_acc, tool_kind in Hm. rewrite E2, E3 in Hm.
    eexists. split; [|split; [|exact Hr]].
    + unfold argumentsDelta, reading, chatToResponsesEvent. cbn [fst snd app].
      eapply accepts_item; [exact Hm| |].
      * apply Forall_cons_2; [|apply Forall_nil_2]. split_and!; [|done|done].
        change (default 0%Z (ccs_ToolOutputIndex s !! idx) = i). by rewrite Hi.
      * erewrite accepts_step; [reflexivity|by apply arguments_delta].
    + eapply (sim_update _ _ _ _ s _ m (STool idx));
        [done|by destruct Hwf; split|done|done|done|by intros sl Hsl _; apply Hviews|].
      cbn. rewrite E1. unfold tool_acc, tool_kind. cbn. rewrite E2, E3. do 2 f_equal. exact Hargs.
  - exists m. split; [done|]. split; [|exact Hr]. apply (sim_frame false ∅ _ _ s); [done|done|done|done|].
    intros sl _. destruct (decide (sl = STool idx)) as [->|Hsl]; [|by apply Hviews].
    cbn in Ed |- *. destruct (flag (ccs_toolAnnounced s) idx); [|done].
    unfold tool_acc, tool_kind in *. cbn in *.
    by destruct (flag (ccs_toolIsCustom s) idx), (flag (ccs_toolIsToolSearch s) idx).
Qed.

Lemma handleToolCall_triple q tc : after_reasoning q = q ->
  triple (fun s m => sim false ∅ s m /\ running q s) (handleToolCall random_hex order tc)
    (fun s m => sim false ∅ s m /\ running q s).
Proof.
  intros Hq. unfold handleToolCall. cbn zeta.
  eapply triple_then; [by apply storeToolCall_triple|].
  eapply triple_then; [apply restoreName_triple|].
  eapply triple_then; [apply announce_triple|]. apply appendToolArguments_triple.
Qed.

Lemma handleFinishReason_triple A r :
  (forall s m f, A s m -> A (s <| ccs_FinishReason := f |>) m) -> triple A (handleFinishReason r) A.
Proof.
  intros HA s m H. exists m. destruct r as [r|]; [|done]. cbn. destruct (is_empty r); cbn; auto.
Qed.

Lemma sim_weaken md cl s s' m :
  sim md cl s m -> core s' = core s -> ccs_ToolCalls s' = ccs_ToolCalls s ->
  ccs_toolAnnounced s' = ccs_toolAnnounced s -> ccs_toolIsCustom s' = ccs_toolIsCustom s ->
  ccs_toolIsToolSearch s' = ccs_toolIsToolSearch s -> sim md cl s' m.
Proof.
  intros Hs E1 E2 E3 E4 E5.
  assert (F : forall k, tool_frame k s s').
  { intros k. split; [done|by rewrite E2|]. intros j _. by rewrite E3, E4, E5. }
  apply (sim_frame md cl _ _ s); [done| | | |].
  - apply (tool_frame_wf 0%Z s); [done|apply Hs|]. rewrite E3. apply (wf_announced s (proj1 Hs)).
  - pose proof (F 0%Z) as F0. by core_rewrite F0.
  - intros sl. by apply (tool_frame_slot 0%Z).
  - intros [| |k] _; [by apply (tool_frame_view 0%Z)|by apply (tool_frame_view 0%Z)|].
    by apply (tool_frame_view (k + 1)%Z); [|intros [=]; lia].
Qed.

Lemma handleChoice_triple q q' c : reasoning_step q c = Some q' ->
  triple (fun s m => sim false ∅ s m /\ running q s) (handleChoice random_hex order c)
    (fun s m => sim false ∅ s m /\ running q' s).
Proof.
  unfold reasoning_step, handleChoice. intros Hq.
  destruct (if nonempty (deltaReasoningText (ccc_Delta c)) then _ else Some q) as [q1|] eqn:E1; [|done].
  eapply triple_then; [by apply (handleReasoning_triple random_hex q q1)|].
  eapply triple_then; [apply handleContent_triple|].
  assert (Hfin : forall q s m f, sim false ∅ s m /\ running q s ->
    sim false ∅ (s <| ccs_FinishReason := f |>) m /\ running q (s <| ccs_FinishReason := f |>)).
  { intros q2 s m f [H1 H2]. split; [by eapply sim_weaken|exact H2]. }
  set (q2 := if nonempty (cd_Content (ccc_Delta c)) then after_reasoning q1 else q1).
  destruct (cd_ToolCalls (ccc_Delta c)) as [|t ts] eqn:Et.
  - replace q' with q2; [|unfold q2; destruct q1; cbn in Hq |- *;
      destruct (nonempty (cd_Content _)); cbn in Hq; congruence].
    eapply triple_then; [apply triple_skip|]. apply handleFinishReason_triple. intros s m f. apply Hfin.
  - assert (Hq' : q' = after_reasoning q2).
    { unfold q2. destruct q1; cbn in Hq |- *; destruct (nonempty (cd_Content _)); cbn in *; congruence. }
    subst q'. apply (triple_then _ (fun s m => sim false ∅ s m /\ running (after_reasoning q2) s)).
    + intros s m [H1 H2]. apply running_after in H2. revert s m H1 H2.
      enough (triple (fun s m => sim false ∅ s m /\ running (after_reasoning q2) s)
        (forEach (handleToolCall random_hex order) (t :: ts))
        (fun s m => sim false ∅ s m /\ running (after_reasoning q2) s)) as H by
        (intros s m H1 H2; exact (H s m (conj H1 H2))).
      apply triple_forEach. intros x. apply handleToolCall_triple. by destruct q2.
    + apply handleFinishReason_triple. intros s m f. apply Hfin.
Qed.

(** ** Chunks and streams *)

(** Nothing has been received. *)
Definition blank (s : ChatCompletionsToResponsesStreamState) : Prop :=
  core s = core zero_ChatCompletionsToResponsesStreamState /\ ccs_ToolCalls s = ∅ /\
  ccs_toolAnnounced s = ∅.

Definition stream_rel (q : reasoning_phase) (s : ChatCompletionsToResponsesStreamState)
    (p : bridge_phase) : Prop :=
  (q = RNone /\ blank s /\ p = BPre) \/ (exists m, p = BOpen m /\ sim false ∅ s m /\ running q s).

Lemma ensureCreated_rel q s p : stream_rel q s p ->
  exists m, accepts bridge_step p (ensureChatToResponsesCreated s).2 = Some (BOpen m) /\
    sim false ∅ (ensureChatToResponsesCreated s).1 m /\ running q (ensureChatToResponsesCreated s).1.
Proof.
  unfold ensureChatToResponsesCreated, reading. intros [(-> & (B1 & B2 & B3) & ->)|(m & -> & Hs & Hq)].
  - unfold core in B1. injection B1 as.
    repeat match goal with H : ?f s = ?v |- context [?f s] => rewrite H end.
    exists ∅. split; [done|]. split; [split|].
    + split; cbn; try intros k; repeat match goal with H : ?f s = ?v |- context [?f s] => rewrite H end;
        rewrite ?lookup_empty; try done; by intros [].
    + exists ∅. split; [|by rewrite omap_empty]. split; [|done]. intros i sl. rewrite lookup_empty.
      split; [done|]. destruct sl; cbn;
        repeat match goal with H : ?f s = ?v |- context [?f s] => rewrite H end; done.
    + split; cbn; congruence.
  - rewrite (wf_created s (proj1 Hs)). by exists m.
Qed.

Lemma absorbChunk_frame c s :
  core (absorbChunk c s) = core s /\ ccs_ToolCalls (absorbChunk c s) = ccs_ToolCalls s /\
  ccs_toolAnnounced (absorbChunk c s) = ccs_toolAnnounced s /\
  ccs_toolIsCustom (absorbChunk c s) = ccs_toolIsCustom s /\
  ccs_toolIsToolSearch (absorbChunk c s) = ccs_toolIsToolSearch s.
Proof.
  unfold absorbChunk. cbn zeta. by repeat (case_match; cbn).
Qed.

Lemma absorbChunk_rel q c s p : stream_rel q s p -> stream_rel q (absorbChunk c s) p.
Proof.
  destruct (absorbChunk_frame c s) as (E1 & E2 & E3 & E4 & E5).
  intros [(-> & (B1 & B2 & B3) & ->)|(m & -> & Hs & Hq)].
  - left. split_and!; try done. unfold blank. by rewrite E1, E2, E3.
  - right. exists m. split_and!; [done|by eapply sim_weaken|].
    assert (F : tool_frame 0 s (absorbChunk c s)) by (split; [done|by rewrite E2|by rewrite E3, E4, E5]).
    by eapply tool_frame_running.
Qed.

Lemma choices_triple q q' cs : accepts reasoning_step q cs = Some q' ->
  triple (fun s m => sim false ∅ s m /\ running q s) (forEach (handleChoice random_hex order) cs)
    (fun s m => sim false ∅ s m /\ running q' s).
Proof.
  revert q. induction cs as [|c cs IH]; intros q; cbn; [intros [= ->]; apply triple_skip|].
  destruct (reasoning_step q c) as [q1|] eqn:E; [|done]. intros H.
  exact (triple_then _ _ _ _ _ (handleChoice_triple q q1 c E) (IH q1 H)).
Qed.

Lemma chunk_rel q q' c s p :
  accepts reasoning_step q (match c with Some c => chunk_Choices c | None => [] end) = Some q' ->
  stream_rel q s p -> exists p',
    accepts bridge_step p (ChatCompletionsChunkToResponsesEvents random_hex order c s).2 = Some p' /\
    stream_rel q' (ChatCompletionsChunkToResponsesEvents random_hex order c s).1 p'.
Proof.
  destruct c as [c|]; cbn [ChatCompletionsChunkToResponsesEvents]; [|intros [= ->] H; by exists p].
  intros Hq Hr. apply (absorbChunk_rel _ c) in Hr. unfold andThen, modify.
  destruct (ensureCreated_rel _ _ _ Hr) as (m & A1 & B1 & C1).
  destruct (ensureChatToResponsesCreated (absorbChunk c s)) as [s1 o1]. cbn [fst snd] in *.
  destruct (choices_triple q q' _ Hq s1 m (conj B1 C1)) as (m2 & A2 & B2 & C2).
  destruct (forEach _ _ s1) as [s2 o2]. exists (BOpen m2). cbn [fst snd app] in *.
  split; [eauto with gateway|]. right. by exists m2.
Qed.

Lemma chunks_rel cs : forall q q' s p,
  accepts reasoning_step q (choices_of cs) = Some q' -> stream_rel q s p -> exists p',
    let r := run (fun s c => ChatCompletionsChunkToResponsesEvents random_hex order c s) s cs in
    accepts bridge_step p r.2 = Some p' /\ stream_rel q' r.1 p'.
Proof.
  induction cs as [|c cs IH]; intros q q' s p; cbn; [intros [= ->] H; by exists p|].
  fold (choices_of cs). rewrite accepts_app.
  destruct (accepts reasoning_step q _) as [q1|] eqn:E1; [|done]. intros E2 Hr.
  destruct (chunk_rel q q1 c s p E1 Hr) as (p1 & A1 & R1).
  destruct (ChatCompletionsChunkToResponsesEvents random_hex order c s) as [s1 o1].
  destruct (IH q1 q' s1 p1 E2 R1) as (p2 & A2 & R2). destruct (run _ s1 cs) as [s2 o2].
  exists p2. cbn in *. split; [eauto with gateway|done].
Qed.
End ToolCalls.
