(* ===== verification/ChatBridgeProofs.v ===== *)
(** * The Chat Completions bridge: proofs

    The end of a stream, and with it that the bridge follows the Responses
    protocol; numbering; that the terminal event carries everything the chunks
    carried; restored tool names; and two ways in which streams outside the
    assumptions go wrong. *)

From stdpp Require Import sorting.
From S2P Require Import Prelude GoStrings GoJson GoCrypto ApiTypes ChatBridge ChatBridgeSim.

(** ** The end of a stream *)

Section Finalize.
Context (random_hex : nat -> string) (order : map_order).

Lemma closeMessageItem_triple :
  triple (fun s m => sim false ∅ s m /\ ccs_ReasoningOpen s = false) closeMessageItem
    (fun s m => sim true ∅ s m /\ ccs_ReasoningOpen s = false).
Proof.
  intros s m [Hs Ho]. unfold closeMessageItem, reading.
  destruct (is_empty (ccs_MessageItemID s)) eqn:Em.
  - exists m. split; [done|]. split; [|done]. eapply (sim_frame false ∅ _ _ s); [done|apply Hs|done|done|].
    intros [| |k]; cbn; try done. rewrite Em. by intros [].
  - assert (Hi : slot_index s SMessage = Some (ccs_MessageIndex s)) by (cbn; by rewrite Em).
    pose proof (sim_lookup _ _ _ _ _ _ Hs Hi) as Hm. cbn in Hm.
    rewrite (wf_part s (proj1 Hs)), Em. cbn [negb]. run_bridge.
    eexists. split; [|split; [|exact Ho]].
    + cbn [fst snd app]. eapply accepts_item; [exact Hm|item_events|].
      erewrite accepts_step; [|by apply text_done].
      erewrite accepts_step; [|by apply text_part_done].
      erewrite accepts_step; [reflexivity|].
      eapply item_done; [reflexivity|reflexivity|apply carries_text|reflexivity].
    + eapply (sim_update false ∅ true ∅ s _ m SMessage);
        [done| |done|done|by intros [| |k]|by intros [| |k]|reflexivity].
      destruct Hs as [[] _]. by split.
Qed.

(** A closed call carries what was streamed for it. *)
Lemma carries_closed s id st i :
  carries (MkLive (tool_kind s i) id st (tool_acc true s i)) (closedToolItem s id i) = true.
Proof.
  unfold closedToolItem, tool_acc, tool_kind, carries. cbn zeta. destruct (shownName s i) as [name ns].
  destruct (flag (ccs_toolIsCustom s) i); [|destruct (flag (ccs_toolIsToolSearch s) i)]; cbn;
    rewrite ?String.eqb_refl; cbn; rewrite ?String.eqb_refl; done.
Qed.

Lemma tool_acc_call closed s i : tool_kind s i = KCall -> tool_acc closed s i = call_arguments s i.
Proof. unfold tool_acc. by intros ->. Qed.

Lemma closeToolItem_step cl i s m :
  sim true cl s m -> is_Some (ccs_ToolCalls s !! i) -> i ∉ cl ->
  flag (ccs_toolAnnounced s) i = true ->
  (tool_kind s i = KCall -> Valid (argumentsOrEmpty (call_arguments s i)) = true) ->
  let r := closeToolItem i s in
  exists m', accepts bridge_step (BOpen m) r.2 = Some (BOpen m') /\ sim true (cl ∪ {[ i ]}) r.1 m' /\
    tool_frame i s r.1 /\ ccs_toolAnnounced r.1 = ccs_toolAnnounced s.
Proof.
  intros Hs Hc Hcl Ha Hv r.
  destruct (proj1 (wf_calls s (proj1 Hs) i) Hc) as [oi Hi].
  pose proof (sim_lookup _ _ _ _ (STool i) oi Hs Hi) as Hm. cbn in Hm.
  rewrite Ha, !bool_decide_eq_false_2 in Hm by done.
  assert (Hoi : toolOutputIndex s i = oi) by (unfold toolOutputIndex; by rewrite Hi).
  assert (Hdone : forall s', (forall sl, slot_index s' sl = slot_index s sl) -> wf s' ->
      ccs_nextOutputIndex s' = ccs_nextOutputIndex s ->
      (forall cl' sl, view true cl' s' sl = view true cl' s sl) ->
      sim true (cl ∪ {[ i ]}) s' (<[ oi := MkLive (tool_kind s i) (toolItemID s i) StClosed (tool_acc true s i) ]> m)).
  { intros s' H1 H2 H3 H4. eapply (sim_update true cl _ _ s s' m (STool i)); [done|done|done|done|done| |].
    - intros sl Hsl _. rewrite H4. destruct sl as [| |k]; cbn; try done.
      assert (k <> i) by congruence.
      by rewrite (bool_decide_ext (k ∈ cl ∪ {[i]}) (k ∈ cl)) by set_solver.
    - rewrite H4. cbn. by rewrite Ha, !bool_decide_eq_true_2 by set_solver. }
  assert (W : forall n, wf (s <| ccs_SequenceNumber := n |>)) by (intros n; destruct (proj1 Hs); by split).
  assert (Hclosed := fun st => carries_closed s (toolItemID s i) st i).
  revert r. unfold closeToolItem, reading. cbv zeta.
  fold (call_arguments s i). rewrite !Hoi.
  run_bridge.
  unfold tool_kind in Hm, Hv, Hclosed, Hdone.
  destruct (flag (ccs_toolIsCustom s) i) eqn:E1; [|destruct (flag (ccs_toolIsToolSearch s) i) eqn:E2].
  - set (input := extractCustomToolCallInput _).
    assert (Hacc : tool_acc true s i = input) by (unfold tool_acc, tool_kind; by rewrite E1).
    assert (Hacc0 : tool_acc false s i = "") by (unfold tool_acc, tool_kind; by rewrite E1).
    rewrite Hacc0 in Hm. rewrite Hacc in Hdone, Hclosed.
    destruct (is_empty input) eqn:Ei; cbn [negb].
    + apply is_empty_true in Ei. rewrite Ei in Hdone, Hclosed. eexists. split; [|split; [apply Hdone; [done|apply (W _)|done|done]|done]].
      cbn [fst snd app]. eapply accepts_item; [exact Hm|item_events|].
      erewrite accepts_step; [|apply input_done; [done|done|by rewrite Ei]].
      erewrite accepts_step; [reflexivity|].
      eapply item_done; [reflexivity|reflexivity|apply Hclosed|reflexivity].
    + eexists. split; [|split; [apply Hdone; [done|apply (W _)|done|done]|done]].
      cbn [fst snd app]. eapply accepts_item; [exact Hm|item_events|].
      erewrite accepts_step; [|by apply input_delta].
      erewrite accepts_step; [|by apply input_done].
      erewrite accepts_step; [reflexivity|].
      eapply item_done; [reflexivity|reflexivity|apply Hclosed|reflexivity].
  - assert (Hacc : forall b, tool_acc b s i = "") by (intros b; unfold tool_acc, tool_kind; by rewrite E1, E2).
    rewrite Hacc in Hm, Hdone, Hclosed.
    eexists. split; [|split; [apply Hdone; [done|apply (W _)|done|done]|done]].
    cbn [fst snd app]. eapply accepts_item; [exact Hm|item_events|].
    erewrite accepts_step; [reflexivity|].
    eapply item_done; [reflexivity|reflexivity|apply Hclosed|reflexivity].
  - assert (Hacc : forall b, tool_acc b s i = call_arguments s i)
      by (intros b; unfold tool_acc, tool_kind; by rewrite E1, E2).
    rewrite Hacc in Hm, Hdone, Hclosed. rewrite Hv by done. cbn [negb].
    eexists. split; [|split; [apply Hdone; [done|apply (W _)|done|done]|done]].
    cbn [fst snd app]. eapply accepts_item; [exact Hm|item_events|].
    erewrite accepts_step; [|by apply arguments_done].
    erewrite accepts_step; [reflexivity|].
    eapply item_done; [reflexivity|reflexivity|apply Hclosed|reflexivity].
Qed.

(** What the end of a call needs of its arguments. *)
Definition json_at (s : ChatCompletionsToResponsesStreamState) (k : Z) : Prop :=
  (flag (ccs_toolAnnounced s) k = true /\ tool_kind s k <> KCall) \/
  Valid (argumentsOrEmpty (call_arguments s k)) = true.

Lemma json_at_frame i k s s' : tool_frame i s s' -> k <> i -> json_at s k -> json_at s' k.
Proof.
  intros F Hk. destruct (tf_flags _ _ _ F k Hk) as (H1 & H2 & H3).
  unfold json_at, tool_kind. by rewrite H1, H2, H3, (tool_frame_arguments _ _ _ k F).
Qed.

Lemma arguments_json_at s k : arguments_json s -> is_Some (ccs_ToolCalls s !! k) -> json_at s k.
Proof.
  intros H [c Hc]. destruct (H k c Hc) as [[H1 H2]|H1]; [left|right].
  - split; [done|]. unfold tool_kind. by destruct (flag (ccs_toolIsCustom s) k), (flag (ccs_toolIsToolSearch s) k).
  - unfold call_arguments, stored_call. by rewrite Hc.
Qed.

Lemma announce_again i force s :
  flag (ccs_toolAnnounced s) i = true -> announceChatToolItem random_hex order i force s = (s, []).
Proof. intros H. unfold announceChatToolItem, reading. by rewrite H. Qed.

(** The body of the loop over the calls. *)
Definition closeCall (i : Z) : chat_handler :=
  (announceChatToolItem random_hex order i true ;;
   reading (fun state =>
     if bool_decide (is_Some (ccs_ToolOutputIndex state !! i)) then closeToolItem i else skip))%handler.

Lemma closeCall_step cl i s m :
  sim true cl s m -> is_Some (ccs_ToolCalls s !! i) -> i ∉ cl -> json_at s i ->
  let r := closeCall i s in
  exists m', accepts bridge_step (BOpen m) r.2 = Some (BOpen m') /\ sim true (cl ∪ {[ i ]}) r.1 m' /\
    tool_frame i s r.1 /\ flag (ccs_toolAnnounced r.1) i = true.
Proof.
  intros Hs Hc Hcl Hj. cbv zeta. unfold closeCall, andThen.
  destruct (announce_step random_hex order true cl i true s m Hs Hc Hcl) as (m1 & A1 & B1 & F1 & H1).
  assert (Hj1 : json_at (announceChatToolItem random_hex order i true s).1 i).
  { destruct (flag (ccs_toolAnnounced s) i) eqn:Ea; [by rewrite announce_again|]. right.
    rewrite (tool_frame_arguments _ _ _ i F1). destruct Hj as [[? _]|?]; [congruence|done]. }
  destruct (announceChatToolItem random_hex order i true s) as [s1 o1]. cbn [fst snd] in *.
  specialize (H1 eq_refl).
  assert (Hc1 : is_Some (ccs_ToolCalls s1 !! i)) by (by apply (tool_frame_calls _ _ _ i F1)).
  unfold reading. rewrite bool_decide_eq_true_2 by (by apply (wf_calls s1 (proj1 B1))).
  destruct (closeToolItem_step cl i s1 m1 B1 Hc1 Hcl H1) as (m2 & A2 & B2 & F2 & H2).
  { intros Hk. by destruct Hj1 as [[_ ?]|?]. }
  destruct (closeToolItem i s1) as [s2 o2]. cbn [fst snd] in *. exists m2.
  split_and!; [eauto with gateway|done|by eapply tool_frame_trans|by rewrite H2].
Qed.

Lemma closeCalls_step l : forall cl s m,
  sim true cl s m -> NoDup l ->
  (forall i, i ∈ l -> is_Some (ccs_ToolCalls s !! i) /\ i ∉ cl /\ json_at s i) ->
  let r := forEach closeCall l s in
  exists m', accepts bridge_step (BOpen m) r.2 = Some (BOpen m') /\
    sim true (cl ∪ list_to_set l) r.1 m' /\ core r.1 = core s /\
    (forall k, is_Some (ccs_ToolCalls r.1 !! k) <-> is_Some (ccs_ToolCalls s !! k)) /\
    (forall k, k ∈ l \/ flag (ccs_toolAnnounced s) k = true -> flag (ccs_toolAnnounced r.1) k = true).
Proof.
  induction l as [|i l IH]; intros cl s m Hs Hnd Hl; cbv zeta.
  - exists m. split_and!; [done|by rewrite list_to_set_nil, union_empty_r_L|done|done|]. by intros k [?%elem_of_nil|].
  - apply NoDup_cons in Hnd as [Hi Hnd].
    destruct (Hl i) as (Hc & Hcl & Hj); [by apply list_elem_of_here|].
    destruct (closeCall_step cl i s m Hs Hc Hcl Hj) as (m1 & A1 & B1 & F1 & H1).
    change (forEach closeCall (i :: l) s) with (andThen (closeCall i) (forEach closeCall l) s).
    unfold andThen. destruct (closeCall i s) as [s1 o1]. cbn [fst snd] in *.
    destruct (IH (cl ∪ {[ i ]}) s1 m1 B1 Hnd) as (m2 & A2 & B2 & C2 & D2 & E2).
    { intros k Hk. assert (k <> i) by congruence.
      destruct (Hl k) as (? & ? & ?); [by apply list_elem_of_further|].
      split_and!; [by apply (tool_frame_calls _ _ _ k F1)|set_solver|by eapply json_at_frame]. }
    destruct (forEach closeCall l s1) as [s2 o2]. cbn [fst snd] in *. exists m2. split_and!.
    + eauto with gateway.
    + rewrite list_to_set_cons. by rewrite (assoc_L (∪)).
    + rewrite C2. apply F1.
    + intros k. rewrite D2. apply (tool_frame_calls _ _ _ k F1).
    + intros k Hk. apply E2. destruct (decide (k = i)) as [->|Hne]; [by right|].
      rewrite (proj1 (tf_flags _ _ _ F1 k Hne)). destruct Hk as [[?|?]%elem_of_cons|?]; [done|by left|by right].
Qed.

Lemma sorted_calls (calls : gmap Z ChatToolCall) k :
  k ∈ sortedChatToolCallIndexes calls <-> is_Some (calls !! k).
Proof.
  unfold sortedChatToolCallIndexes. rewrite merge_sort_Permutation, list_elem_of_fmap. split.
  - intros ([k' c] & -> & H%elem_of_map_to_list). by eexists.
  - intros [c Hc]. exists (k, c). split; [done|]. by apply elem_of_map_to_list.
Qed.

Lemma sorted_calls_NoDup (calls : gmap Z ChatToolCall) : NoDup (sortedChatToolCallIndexes calls).
Proof.
  unfold sortedChatToolCallIndexes. rewrite merge_sort_Permutation. apply NoDup_fst_map_to_list.
Qed.

(** Every item is closed, the calls announced. *)
Definition ended (s : ChatCompletionsToResponsesStreamState) (m : gmap Z live_item) : Prop :=
  sim true (list_to_set (sortedChatToolCallIndexes (ccs_ToolCalls s))) s m /\
  ccs_ReasoningOpen s = false /\
  (forall k, is_Some (ccs_ToolCalls s !! k) -> flag (ccs_toolAnnounced s) k = true).

Lemma closeChatToolItems_triple :
  triple (fun s m => sim true ∅ s m /\ ccs_ReasoningOpen s = false /\ arguments_json s)
    (closeChatToolItems random_hex order) ended.
Proof.
  intros s m (Hs & Ho & Hj).
  change (closeChatToolItems random_hex order s)
    with (forEach closeCall (sortedChatToolCallIndexes (ccs_ToolCalls s)) s).
  destruct (closeCalls_step (sortedChatToolCallIndexes (ccs_ToolCalls s)) ∅ s m Hs
    (sorted_calls_NoDup _)) as (m' & A & B & C & D & E).
  { intros i Hi%sorted_calls. split_and!; [done|set_solver|by apply arguments_json_at]. }
  exists m'. split; [done|]. destruct (forEach closeCall _ s) as [s' o']. cbn [fst snd] in *.
  rewrite union_empty_l_L in B.
  assert (Hset : list_to_set (C := gset Z) (sortedChatToolCallIndexes (ccs_ToolCalls s'))
    = list_to_set (sortedChatToolCallIndexes (ccs_ToolCalls s))).
  { apply set_eq. intros k. by rewrite !elem_of_list_to_set, !sorted_calls, D. }
  unfold ended. rewrite Hset. split_and!; [done| |].
  - unfold core in C. injection C as. congruence.
  - intros k Hk%D. apply E. left. by apply sorted_calls.
Qed.

(** The calls as the end of the stream finds them. *)
Definition calls_view (s : ChatCompletionsToResponsesStreamState) :=
  (ccs_ToolCalls s, ccs_toolAnnounced s, ccs_toolIsCustom s, ccs_toolIsToolSearch s).

Lemma arguments_json_view s s' : calls_view s' = calls_view s -> arguments_json s -> arguments_json s'.
Proof. unfold calls_view, arguments_json. intros [= -> -> -> ->]. done. Qed.

Lemma closeOpen_calls s :
  calls_view (ensureChatToResponsesCreated s).1 = calls_view s /\
  calls_view (closeChatReasoningItem s).1 = calls_view s /\
  calls_view (closeMessageItem s).1 = calls_view s.
Proof.
  unfold ensureChatToResponsesCreated, closeChatReasoningItem, closeMessageItem. run_bridge.
  split_and!; [by destruct (ccs_CreatedSent s)|by destruct (ccs_ReasoningOpen s)|].
  by destruct (is_empty (ccs_MessageItemID s)); [|destruct (ccs_TextPartOpen s)].
Qed.

Lemma closeOpenItems_step q s p :
  stream_rel q s p -> arguments_json s ->
  exists m, accepts bridge_step p (closeOpenItems random_hex order s).2 = Some (BOpen m) /\
    ended (closeOpenItems random_hex order s).1 m.
Proof.
  intros Hr Hj. unfold closeOpenItems, andThen.
  destruct (ensureCreated_rel q s p Hr) as (m1 & A1 & B1 & C1).
  apply (arguments_json_view _ _ (proj1 (closeOpen_calls s))) in Hj.
  destruct (ensureChatToResponsesCreated s) as [s1 o1]. cbn [fst snd] in *.
  destruct (closeReasoning_triple false ∅ q s1 m1 (conj B1 C1)) as (m2 & A2 & B2 & _ & D2).
  apply (arguments_json_view _ _ (proj1 (proj2 (closeOpen_calls s1)))) in Hj.
  destruct (closeChatReasoningItem s1) as [s2 o2]. cbn [fst snd] in *.
  destruct (closeMessageItem_triple s2 m2 (conj B2 D2)) as (m3 & A3 & B3 & D3).
  apply (arguments_json_view _ _ (proj2 (proj2 (closeOpen_calls s2)))) in Hj.
  destruct (closeMessageItem s2) as [s3 o3]. cbn [fst snd] in *.
  destruct (closeChatToolItems_triple s3 m3) as (m4 & A4 & B4); [done|].
  destruct (closeChatToolItems random_hex order s3) as [s4 o4]. cbn [fst snd] in *.
  exists m4. split; [eauto with gateway|done].
Qed.

(** ** The output of the terminal event *)

(** The item of a slot when the stream has ended. *)
Definition slot_output (s : ChatCompletionsToResponsesStreamState) (sl : slot) : ResponsesOutput :=
  match sl with
  | SReasoning => reasoning_item (ccs_ReasoningItemID s) (ccs_Reasoning s)
  | SMessage => text_item (ccs_MessageItemID s) (ccs_Text s)
  | STool k => closedToolItem s (toolItemID s k) k
  end.

Lemma carries_slot md cl s sl it :
  view md cl s sl = Some it -> (forall k, sl = STool k -> k ∈ cl) -> carries it (slot_output s sl) = true.
Proof.
  intros Hv Hcl. destruct sl as [| |k]; cbn in Hv.
  - injection Hv as <-. unfold carries. cbn. by rewrite String.eqb_refl, ?bool_decide_eq_true_2.
  - injection Hv as <-. apply carries_text.
  - destruct (flag (ccs_toolAnnounced s) k); [|done]. rewrite !bool_decide_eq_true_2 in Hv by auto.
    injection Hv as <-. apply carries_closed.
Qed.

Lemma nonEmpty_id id d : id <> "" -> nonEmpty id d = id.
Proof. unfold nonEmpty. intros H. by apply is_empty_false in H as ->. Qed.

Lemma wf_slot s : wf s ->
  (is_Some (slot_index s SReasoning) <-> ccs_Reasoning s <> "") /\
  (is_Some (slot_index s SMessage) <-> ccs_MessageItemID s <> "") /\
  (forall k, is_Some (slot_index s (STool k)) <-> is_Some (ccs_ToolCalls s !! k)).
Proof.
  intros W. cbn. rewrite (wf_reasoning s W). split_and!.
  - rewrite <- is_empty_false. destruct (is_empty (ccs_Reasoning s)); cbn; split; try done; by intros [].
  - rewrite <- is_empty_false. destruct (is_empty (ccs_MessageItemID s)); cbn; split; try done; by intros [].
  - intros k. symmetry. apply (wf_calls s W).
Qed.

(** The items of the output are those of the slots in use; without any, an empty
    message. *)
Lemma chatOutput_slots s o : wf s -> o ∈ chatOutput random_hex s ->
  (exists sl, is_Some (slot_index s sl) /\ o = slot_output s sl) \/
  (forall sl, slot_index s sl = None).
Proof.
  intros W. destruct (wf_slot s W) as (H1 & H2 & H3). unfold chatOutput. cbv zeta.
  rewrite !elem_of_app. intros [H|[H|H]].
  - destruct (is_empty (ccs_Reasoning s)) eqn:E; cbn in H; [by apply elem_of_nil in H|].
    apply is_empty_false in E. apply list_elem_of_singleton in H as ->. left. exists SReasoning.
    rewrite nonEmpty_id by (by apply (wf_reasoning_id s W)). split; [by apply H1|done].
  - destruct (is_empty (ccs_MessageItemID s)) eqn:E; cbn in H.
    + destruct (bool_decide (ccs_ToolCalls s = ∅)) eqn:Et; [|by apply elem_of_nil in H].
      destruct (is_empty (ccs_Reasoning s)) eqn:Er; [|by apply elem_of_nil in H].
      right. apply bool_decide_eq_true in Et. intros sl. apply eq_None_not_Some.
      destruct sl as [| |k]; [rewrite H1|rewrite H2|rewrite H3, Et, lookup_empty; by intros []];
        by rewrite <- is_empty_false, ?E, ?Er.
    + apply list_elem_of_singleton in H as ->. apply is_empty_false in E. left. exists SMessage.
      rewrite nonEmpty_id by done. split; [by apply H2|done].
  - left. apply elem_of_lookup_imap in H as (k & i & -> & Hi).
    apply list_elem_of_lookup_2, sorted_calls in Hi. exists (STool i).
    rewrite nonEmpty_id by (by apply (wf_ids s W)). split; [by apply H3|done].
Qed.

Lemma slots_chatOutput s sl : wf s -> is_Some (slot_index s sl) ->
  slot_output s sl ∈ chatOutput random_hex s.
Proof.
  intros W. destruct (wf_slot s W) as (H1 & H2 & H3). unfold chatOutput. cbv zeta. rewrite !elem_of_app.
  destruct sl as [| |k]; [rewrite H1|rewrite H2|rewrite H3]; intros H.
  - left. rewrite nonEmpty_id by (by apply (wf_reasoning_id s W)).
    apply is_empty_false in H as ->. by apply list_elem_of_singleton.
  - right; left. rewrite nonEmpty_id by done. apply is_empty_false in H as ->. by apply list_elem_of_singleton.
  - right; right. apply (wf_ids s W) in H as Hid. apply sorted_calls in H.
    apply list_elem_of_lookup_1 in H as [j Hj]. apply elem_of_lookup_imap. exists j, k.
    rewrite nonEmpty_id by done. done.
Qed.

Lemma chatOutput_nothing s : wf s -> (forall sl, slot_index s sl = None) ->
  exists id, chatOutput random_hex s = [text_item id ""].
Proof.
  intros W H. destruct (wf_slot s W) as (H1 & H2 & H3).
  assert (E1 : ccs_Reasoning s = "").
  { destruct (decide (ccs_Reasoning s = "")) as [|E]; [done|]. apply H1 in E. rewrite H in E. by destruct E. }
  assert (E2 : ccs_MessageItemID s = "").
  { destruct (decide (ccs_MessageItemID s = "")) as [|E]; [done|]. apply H2 in E. rewrite H in E. by destruct E. }
  assert (E3 : ccs_ToolCalls s = ∅).
  { apply map_empty. intros k. apply eq_None_not_Some. rewrite <- H3, H. by intros []. }
  unfold chatOutput. rewrite E1, E2, E3, (wf_text s W E2). cbv zeta. cbn. by eexists.
Qed.

Lemma ended_item s m sl i : ended s m -> slot_index s sl = Some i ->
  exists it, m !! i = Some it /\ li_stage it = StClosed /\ carries it (slot_output s sl) = true.
Proof.
  intros (Hs & Ho & Ha) Hi. rewrite (sim_lookup _ _ _ _ _ _ Hs Hi).
  assert (Hcl : forall k, sl = STool k -> k ∈ list_to_set (C := gset Z) (sortedChatToolCallIndexes (ccs_ToolCalls s))).
  { intros k ->. apply elem_of_list_to_set, sorted_calls. apply (wf_calls s (proj1 Hs)). by exists i. }
  assert (exists it, view true (list_to_set (sortedChatToolCallIndexes (ccs_ToolCalls s))) s sl = Some it
    /\ li_stage it = StClosed) as (it & Hv & Hc).
  { destruct sl as [| |k]; cbn.
    - rewrite Ho. by eexists.
    - by eexists.
    - rewrite Ha by (apply (wf_calls s (proj1 Hs)); by exists i). eexists. split; [done|].
      cbn. by rewrite bool_decide_eq_true_2 by auto. }
  exists it. split_and!; [done|done|by eapply carries_slot].
Qed.

Lemma ended_closed s m i it : ended s m -> m !! i = Some it ->
  li_stage it = StClosed /\ exists o, o ∈ chatOutput random_hex s /\ carries it o = true.
Proof.
  intros He Hm. destruct (sim_inv _ _ _ _ _ _ (proj1 He) Hm) as (sl & Hsl & _).
  destruct (ended_item s m sl i He Hsl) as (it' & Hm' & Hc & Hcar). simplify_eq.
  split; [done|]. exists (slot_output s sl). split; [|done].
  apply slots_chatOutput; [apply He|by exists i].
Qed.

Lemma ended_output s m : ended s m -> output_matches m (chatOutput random_hex s) = true.
Proof.
  intros He. assert (W : wf s) by apply He. unfold output_matches. cbv zeta.
  destruct (decide (m = ∅)) as [->|Hne].
  - rewrite map_to_list_empty. cbn [fmap list_fmap].
    destruct (chatOutput_nothing s W) as [id ->].
    + intros sl. destruct (slot_index s sl) as [i|] eqn:E; [|done].
      destruct (ended_item s ∅ sl i He E) as (it & H & _). by rewrite lookup_empty in H.
    + apply carries_text.
  - destruct (snd <$> map_to_list m) as [|it0 its] eqn:El.
    { exfalso. apply Hne. apply map_to_list_empty_iff. by destruct (map_to_list m). }
    rewrite <- El. apply andb_true_iff. split; apply forallb_forall.
    + intros it Hit%list_elem_of_In. apply list_elem_of_fmap in Hit as ([i it'] & -> & Hit).
      apply elem_of_map_to_list in Hit. destruct (ended_closed s m i it' He Hit) as (_ & o & Ho & Hc).
      by eapply existsb_In.
    + intros o Ho%list_elem_of_In. destruct (chatOutput_slots s o W Ho) as [(sl & [i Hi] & ->)|Hnone].
      * destruct (ended_item s m sl i He Hi) as (it & Hm & _ & Hc). eapply existsb_In; [|exact Hc].
        apply list_elem_of_fmap. exists (i, it). split; [done|]. by apply elem_of_map_to_list.
      * exfalso. apply Hne, map_empty. intros i. destruct (m !! i) as [it|] eqn:E; [|done].
        destruct (sim_inv _ _ _ _ _ _ (proj1 He) E) as (sl & Hsl & _). by rewrite Hnone in Hsl.
Qed.

(** Marking items incomplete changes nothing that is checked. *)
Lemma carries_incomplete it o : carries it (incompleteStatus o) = carries it o.
Proof. unfold incompleteStatus. by destruct (negb _). Qed.

Lemma incomplete_id o : ro_ID (incompleteStatus o) = ro_ID o.
Proof. unfold incompleteStatus. by destruct (negb _). Qed.

Lemma incomplete_type o : ro_Type_ (incompleteStatus o) = ro_Type_ o.
Proof. unfold incompleteStatus. by destruct (negb _). Qed.

Lemma output_matches_incomplete m out :
  output_matches m (map incompleteStatus out) = output_matches m out.
Proof.
  unfold output_matches. cbv zeta. destruct (snd <$> map_to_list m) as [|it0 its] eqn:El.
  - destruct out as [|o [|]]; [done| |done]. cbn [map]. by rewrite carries_incomplete, incomplete_id.
  - rewrite <- El. f_equal.
    + apply forallb_eq. intros it. apply existsb_map_eq. intros o. apply carries_incomplete.
    + apply forallb_map_eq. intros o. apply existsb_eq. intros it. apply carries_incomplete.
Qed.

Lemma bridge_step_incomplete q e : bridge_step q (incompleteEvent e) = bridge_step q e.
Proof.
  unfold bridge_step, incompleteEvent. destruct q as [|m|]; [done| |done]. cbn zeta. cbn.
  destruct (rse_Type_ e =s _).
  - destruct (m !! rse_OutputIndex e), (rse_Item e) as [o|]; cbn; try done.
    by rewrite incomplete_type, incomplete_id.
  - destruct (is_terminal _); [done|]. destruct (m !! rse_OutputIndex e) as [it|]; [|done].
    unfold item_step. cbn. destruct (rse_Type_ e =s _); [|done].
    destruct (rse_Item e) as [o|]; cbn; [by rewrite carries_incomplete|done].
Qed.

Lemma accepts_incomplete q es :
  accepts bridge_step q (map incompleteEvent es) = accepts bridge_step q es.
Proof.
  revert q. induction es as [|e es IH]; intros q; [done|]. cbn. rewrite bridge_step_incomplete.
  by destruct (bridge_step q e).
Qed.

Lemma ended_terminal s s' m status out details e :
  ended s m -> rse_Response e = Some (terminalResponse s' status out details) ->
  rse_Type_ e = "response." +:+ status -> is_terminal (rse_Type_ e) = true ->
  (is_Some details <-> status = "incomplete") ->
  output_matches m out = true -> bridge_step (BOpen m) e = Some BDone.
Proof.
  intros He Hr Hty Ht Hd Ho. unfold bridge_step. cbv zeta.
  assert ((rse_Type_ e =s "response.output_item.added") = false) as ->.
  { unfold is_terminal in Ht. apply orb_true_iff in Ht as [Ht|Ht]; apply String.eqb_eq in Ht; by rewrite Ht. }
  rewrite Ht. unfold terminal_ok. rewrite Hr. cbn [rr_Status rr_IncompleteDetails rr_Output terminalResponse].
  cbn. rewrite Hty, String.eqb_refl, Ho, bool_decide_eq_true_2 by done. cbn.
  assert (forallb (fun it => bool_decide (li_stage it = StClosed)) (snd <$> map_to_list m) = true) as ->; [|done].
  apply forallb_forall. intros it Hit%list_elem_of_In.
  apply list_elem_of_fmap in Hit as ([i it'] & -> & Hit). apply elem_of_map_to_list in Hit.
  apply bool_decide_eq_true. by destruct (ended_closed s m i it' He Hit).
Qed.

Lemma bridge_finalize_step q s p :
  stream_rel q s p -> arguments_json s ->
  accepts bridge_step p (FinalizeChatCompletionsResponsesStream random_hex order s).2 = Some BDone.
Proof.
  intros Hr Hj. unfold FinalizeChatCompletionsResponsesStream.
  assert (ccs_CompletedSent s = false) as ->.
  { destruct Hr as [(_ & (B & _) & _)|(m & _ & Hs & _)]; [|apply Hs].
    unfold core in B. by injection B. }
  destruct (closeOpenItems_step q s p Hr Hj) as (m & A & He).
  destruct (closeOpenItems random_hex order s) as [s1 o1]. cbn [fst snd] in *. cbv zeta.
  pose proof (ended_output s1 m He) as Ho.
  change (chatOutput random_hex (s1 <| ccs_CompletedSent := true |>)) with (chatOutput random_hex s1).
  destruct (finishIncomplete (ccs_FinishReason s1)) as [d|]; unfold chatToResponsesEvent; cbn [snd].
  - eapply accepts_app_Some; [by rewrite accepts_incomplete|]. erewrite accepts_step; [reflexivity|].
    eapply (ended_terminal s1); [done|reflexivity|reflexivity|reflexivity|done|].
    by rewrite output_matches_incomplete.
  - eapply accepts_app_Some; [done|]. erewrite accepts_step; [reflexivity|].
    eapply (ended_terminal s1); [done|reflexivity|reflexivity|reflexivity| |done].
    cbn. split; [by intros []|done].
Qed.
End Finalize.

(** ** The protocol *)


(** ** Numbering *)

#[export] Instance numbered_bridge
    : Numbered ChatCompletionsToResponsesStreamState ResponsesStreamEvent :=
  {| next_number := ccs_SequenceNumber; number_of := rse_SequenceNumber |}.

Section Numbering.
Context (random_hex : nat -> string) (order : map_order).

Lemma bridge_numbers_event ty e : numbers (chatToResponsesEvent ty e).
Proof. intros s. cbn. split; [lia|done]. Qed.

Lemma numbers_withItemID h : (forall id, numbers (h id)) -> numbers (withItemID random_hex h).
Proof. intros H s. exact (H _ (s <| ccs_draws := S (ccs_draws s) |>)). Qed.

Lemma numbers_withOutputIndex h : (forall i, numbers (h i)) -> numbers (withOutputIndex h).
Proof.
  intros H s. exact (H _ (s <| ccs_nextOutputIndex := (ccs_nextOutputIndex s + 1)%Z |>)).
Qed.

#[local] Hint Resolve bridge_numbers_event : numbering.

Ltac walk_bridge :=
  repeat first
    [ progress walk_numbers
    | apply numbers_withItemID; intros ?
    | apply numbers_withOutputIndex; intros ?
    | done ].

Lemma bridge_numbers_created : numbers ensureChatToResponsesCreated.
Proof. unfold ensureChatToResponsesCreated. walk_bridge. Qed.

Lemma numbers_closeReasoning : numbers closeChatReasoningItem.
Proof. unfold closeChatReasoningItem. walk_bridge. Qed.

Lemma numbers_closeMessage : numbers closeMessageItem.
Proof. unfold closeMessageItem. walk_bridge. Qed.

#[local] Hint Resolve bridge_numbers_created numbers_closeReasoning numbers_closeMessage : numbering.

Lemma numbers_reasoning r : numbers (handleReasoning random_hex r).
Proof. unfold handleReasoning, ensureChatReasoningItem. walk_bridge. Qed.

Lemma numbers_content c : numbers (handleContent random_hex c).
Proof.
  unfold handleContent, ensureChatToResponsesMessageItem, ensureChatToResponsesTextPart. walk_bridge.
Qed.

Lemma classifyCall_number idx s :
  ccs_SequenceNumber (classifyCall order idx s) = ccs_SequenceNumber s.
Proof. unfold classifyCall. cbn zeta. by repeat (case_match; cbn). Qed.

Lemma numbers_announce idx force : numbers (announceChatToolItem random_hex order idx force).
Proof. unfold announceChatToolItem, argumentsDelta. walk_bridge. apply classifyCall_number. Qed.

#[local] Hint Resolve numbers_reasoning numbers_content numbers_announce : numbering.

Lemma numbers_toolCall tc : numbers (handleToolCall random_hex order tc).
Proof.
  unfold handleToolCall, storeToolCall, restoreName, appendToolArguments, argumentsDelta. walk_bridge.
Qed.

Lemma numbers_closeCalls : numbers (closeChatToolItems random_hex order).
Proof. unfold closeChatToolItems, closeToolItem. walk_bridge. Qed.

#[local] Hint Resolve numbers_toolCall numbers_closeCalls : numbering.

Lemma absorbChunk_number c s : ccs_SequenceNumber (absorbChunk c s) = ccs_SequenceNumber s.
Proof. unfold absorbChunk. cbn zeta. by repeat (case_match; cbn). Qed.

Lemma numbers_chunk c : numbers (ChatCompletionsChunkToResponsesEvents random_hex order c).
Proof.
  unfold ChatCompletionsChunkToResponsesEvents, handleChoice, handleFinishReason. walk_bridge.
  apply absorbChunk_number.
Qed.

Lemma map_incomplete_number es :
  map rse_SequenceNumber (map incompleteEvent es) = map rse_SequenceNumber es.
Proof. induction es as [|e es IH]; [done|]. cbn. by rewrite IH. Qed.

Lemma numbers_closeOpen : numbers (closeOpenItems random_hex order).
Proof. unfold closeOpenItems. walk_bridge. Qed.

Lemma bridge_numbers_finalize : numbers (FinalizeChatCompletionsResponsesStream random_hex order).
Proof.
  intros s. unfold FinalizeChatCompletionsResponsesStream.
  destruct (ccs_CompletedSent s); [apply numbers_skip|].
  destruct (numbers_closeOpen s) as [A B].
  destruct (closeOpenItems random_hex order s) as [s1 o1]. cbn [fst snd next_number number_of numbered_bridge] in *.
  destruct (finishIncomplete _); cbn; rewrite length_app, ?length_map, ?map_app, ?map_incomplete_number, B, A; cbn;
    (split; [lia|]); rewrite Nat2Z.inj_add, seqZ_app by lia; done.
Qed.
End Numbering.

(** The events of a stream are numbered 0, 1, 2, ... in the order in which they
    are emitted, whatever the chunks. *)
Theorem chat_bridge_sequence random_hex order randomID model now custom functions search namespaces chunks :
  let events := (convertChatChunks random_hex order (declareTools custom functions search namespaces
    (NewChatCompletionsToResponsesStreamState randomID model now)) chunks).2 in
  map rse_SequenceNumber events = seqZ 0 (Z.of_nat (length events)).
Proof.
  cbv zeta. set (s0 := declareTools _ _ _ _ _).
  pose proof (numbers_then _ _ (numbers_run _ chunks (numbers_chunk random_hex order))
    (bridge_numbers_finalize random_hex order) s0) as [_ H]. exact H.
Qed.

(** ** What the stream carried

    An accumulator that forgets items, identifiers and flags: the text, the
    reasoning, and the arguments by call index. *)

Definition contents : Type := string * string * gmap Z string.

Definition text_of (p : option string) : string := default "" p.

Definition receive_call (args : gmap Z string) (tc : ChatToolCall) : gmap Z string :=
  let idx := default 0%Z (ctc_Index tc) in
  <[ idx := default "" (args !! idx) +:+ arguments_of tc ]> args.

Definition receive_tool (acc : contents) (tc : ChatToolCall) : contents :=
  let '(text, reasoning, args) := acc in (text, reasoning, receive_call args tc).

Definition receive (acc : contents) (c : ChatChunkChoice) : contents :=
  let '(text, reasoning, args) := acc in
  (text +:+ text_of (cd_Content (ccc_Delta c)),
   reasoning +:+ text_of (deltaReasoningText (ccc_Delta c)),
   foldl receive_call args (cd_ToolCalls (ccc_Delta c))).

Definition received (chunks : list (option ChatCompletionsChunk)) : contents :=
  foldl receive ("", "", ∅) (choices_of chunks).

Definition summary (s : ChatCompletionsToResponsesStreamState) : contents :=
  (ccs_Text s, ccs_Reasoning s, arguments_of <$> ccs_ToolCalls s).

(** The stream is not over, and the message was announced when its text began. *)
Definition open_stream (s : ChatCompletionsToResponsesStreamState) : Prop :=
  ccs_CompletedSent s = false /\ is_empty (ccs_MessageItemID s) = is_empty (ccs_Text s).

Definition acts (h : chat_handler) (f : contents -> contents) : Prop :=
  forall s, open_stream s -> summary (h s).1 = f (summary s) /\ open_stream (h s).1.

Section Contents.
Context (random_hex : nat -> string) (order : map_order).

Lemma acts_skip : acts skip (fun x => x).
Proof. by intros s H. Qed.

Lemma acts_then h1 h2 f1 f2 : acts h1 f1 -> acts h2 f2 -> acts (andThen h1 h2) (fun x => f2 (f1 x)).
Proof.
  intros H1 H2 s Hs. destruct (H1 s Hs) as [A1 B1]. unfold andThen. destruct (h1 s) as [s1 o1].
  destruct (H2 s1 B1) as [A2 B2]. destruct (h2 s1) as [s2 o2]. cbn [fst] in *. by rewrite A2, A1.
Qed.

Lemma acts_forEach {X : Type} (h : X -> chat_handler) (f : contents -> X -> contents) xs :
  (forall x, acts (h x) (fun a => f a x)) -> acts (forEach h xs) (fun a => foldl f a xs).
Proof.
  intros H. induction xs as [|x xs IH]; [apply acts_skip|].
  exact (acts_then (h x) (forEach h xs) _ _ (H x) IH).
Qed.

(** A handler that keeps text, reasoning, message and arguments. *)
Definition keeps (h : chat_handler) : Prop := forall s,
  summary (h s).1 = summary s /\ ccs_CompletedSent (h s).1 = ccs_CompletedSent s /\
  ccs_MessageItemID (h s).1 = ccs_MessageItemID s.

Lemma keeps_acts h : keeps h -> acts h (fun x => x).
Proof.
  intros H s [H1 H2]. destruct (H s) as (A & B & C). split; [done|].
  unfold open_stream. rewrite B, C. unfold summary in A. injection A as -> _ _. done.
Qed.

Lemma keeps_skip : keeps skip.
Proof. done. Qed.

Lemma keeps_modify f : (forall s, summary (f s) = summary s /\ ccs_CompletedSent (f s) = ccs_CompletedSent s /\
  ccs_MessageItemID (f s) = ccs_MessageItemID s) -> keeps (modify f).
Proof. intros H s. apply H. Qed.

Lemma keeps_then h1 h2 : keeps h1 -> keeps h2 -> keeps (andThen h1 h2).
Proof.
  intros H1 H2 s. destruct (H1 s) as (A1 & B1 & C1). unfold andThen. destruct (h1 s) as [s1 o1].
  destruct (H2 s1) as (A2 & B2 & C2). destruct (h2 s1) as [s2 o2]. cbn [fst] in *.
  by rewrite A2, B2, C2.
Qed.

Lemma keeps_reading h : (forall s, keeps (h s)) -> keeps (reading h).
Proof. intros H s. apply H. Qed.

Lemma keeps_forEach {X : Type} (h : X -> chat_handler) xs :
  (forall x, keeps (h x)) -> keeps (forEach h xs).
Proof. intros H. induction xs as [|x xs IH]; [apply keeps_skip|]. by apply keeps_then. Qed.

Lemma keeps_withItemID h : (forall id, keeps (h id)) -> keeps (withItemID random_hex h).
Proof. intros H s. exact (H _ (s <| ccs_draws := S (ccs_draws s) |>)). Qed.

Lemma keeps_event ty e : keeps (chatToResponsesEvent ty e).
Proof. done. Qed.

Ltac walk_keeps :=
  repeat match goal with
  | |- keeps skip => apply keeps_skip
  | |- keeps (chatToResponsesEvent _ _) => apply keeps_event
  | |- keeps (andThen _ _) => apply keeps_then
  | |- keeps (reading _) => apply keeps_reading; intros ?
  | |- keeps (forEach _ _) => apply keeps_forEach; intros ?
  | |- keeps (withItemID _ _) => apply keeps_withItemID; intros ?
  | |- keeps (modify _) => apply keeps_modify; intros ?
  | |- keeps (if ?b then _ else _) => destruct b
  | |- keeps (match ?b with _ => _ end) => destruct b
  | |- keeps (let _ := _ in _) => cbn zeta
  end.

Lemma updateCall_summary idx f s : (forall c, arguments_of (f c) = arguments_of c) ->
  summary (updateCall idx f s) = summary s.
Proof.
  intros Hf. unfold summary. f_equal. apply map_eq. intros k. rewrite !lookup_fmap.
  apply (tf_calls _ _ _ (updateCall_frame idx f s Hf)).
Qed.

Lemma classifyCall_summary idx s :
  summary (classifyCall order idx s) = summary s /\
  ccs_CompletedSent (classifyCall order idx s) = ccs_CompletedSent s /\
  ccs_MessageItemID (classifyCall order idx s) = ccs_MessageItemID s.
Proof.
  pose proof (classifyCall_frame order idx s) as F. unfold summary. core_rewrite F.
  split_and!; try done. f_equal. apply map_eq. intros k. rewrite !lookup_fmap. apply (tf_calls _ _ _ F).
Qed.

Lemma keeps_created : keeps ensureChatToResponsesCreated.
Proof. unfold ensureChatToResponsesCreated. walk_keeps; done. Qed.

Lemma keeps_closeReasoning : keeps closeChatReasoningItem.
Proof. unfold closeChatReasoningItem. walk_keeps; done. Qed.

Lemma keeps_closeMessage : keeps closeMessageItem.
Proof. unfold closeMessageItem. walk_keeps; done. Qed.

Lemma keeps_announce idx force : keeps (announceChatToolItem random_hex order idx force).
Proof.
  unfold announceChatToolItem, argumentsDelta. walk_keeps; try done.
  - by rewrite updateCall_summary.
  - apply classifyCall_summary.
Qed.

Lemma keeps_closeCalls : keeps (closeChatToolItems random_hex order).
Proof. unfold closeChatToolItems, closeToolItem. walk_keeps; apply keeps_announce. Qed.

Lemma keeps_restoreName idx : keeps (restoreName order idx).
Proof. unfold restoreName. walk_keeps. by rewrite updateCall_summary. Qed.

Lemma is_empty_app_r s t : is_empty t = false -> is_empty (s +:+ t) = false.
Proof. intros H. apply is_empty_false. apply is_empty_false in H. by destruct s. Qed.

Lemma acts_reasoning r :
  acts (handleReasoning random_hex r) (fun '(t, rs, a) => (t, rs +:+ text_of r, a)).
Proof.
  intros s [H1 H2]. unfold handleReasoning, open_stream, summary.
  destruct r as [r|]; cbn [text_of default]; [|cbn; by rewrite str_app_nil_r].
  destruct (is_empty r) eqn:E; [apply is_empty_true in E as ->; cbn; by rewrite str_app_nil_r|].
  unfold ensureChatReasoningItem. run_bridge. by destruct (_ || _).
Qed.

Lemma acts_content c :
  acts (handleContent random_hex c) (fun '(t, rs, a) => (t +:+ text_of c, rs, a)).
Proof.
  destruct c as [c|]; [|intros s H; cbn; rewrite str_app_nil_r; done].
  cbn [handleContent text_of default].
  destruct (is_empty c) eqn:E;
    [intros s H; apply is_empty_true in E as ->; cbn; by rewrite str_app_nil_r|].
  eapply (acts_then _ _ (fun x => x)); [apply keeps_acts, keeps_closeReasoning|].
  intros s [H1 H2]. unfold ensureChatToResponsesMessageItem, ensureChatToResponsesTextPart, open_stream, summary.
  run_bridge. destruct (is_empty (ccs_MessageItemID s)) eqn:Em; cbn; destruct (ccs_TextPartOpen s); cbn;
    rewrite is_empty_app_r, ?Em by done; done.
Qed.

Lemma acts_store idx tc :
  acts (storeToolCall random_hex idx tc)
    (fun '(t, rs, a) => (t, rs, <[ idx := default "" (a !! idx) ]> a)).
Proof.
  intros s Hs. unfold storeToolCall, reading.
  destruct (ccs_ToolCalls s !! idx) as [c|] eqn:E.
  - cbn [modify fst]. split; [|exact Hs]. rewrite updateCall_summary by (intros c'; by repeat case_match).
    unfold summary. f_equal. rewrite insert_id; [done|]. by rewrite lookup_fmap, E.
  - destruct (keeps_closeReasoning s) as (A & B & C). unfold andThen.
    destruct (closeChatReasoningItem s) as [s1 o1]. cbn [fst] in A, B, C. run_bridge. cbn.
    unfold summary in *. cbn. injection A as A1 A2 A3. unfold open_stream in *. cbn. rewrite B, C, A1, A2.
    split; [|done]. f_equal. rewrite fmap_insert. cbn. rewrite A3. f_equal.
    by rewrite lookup_fmap, E.
Qed.

Lemma acts_append idx a :
  acts (appendToolArguments idx a) (fun '(t, rs, m) => (t, rs, alter (fun x => x +:+ a) idx m)).
Proof.
  intros s Hs. unfold appendToolArguments.
  destruct (is_empty a) eqn:E.
  - apply is_empty_true in E as ->. cbn. split; [|done]. unfold summary. f_equal.
    apply map_eq. intros k. destruct (decide (k = idx)) as [->|Hk]; [|by rewrite lookup_alter_ne].
    rewrite lookup_alter_eq, lookup_fmap. destruct (ccs_ToolCalls s !! idx); cbn; [|done].
    by rewrite str_app_nil_r.
  - assert (Hf : arguments_of <$> alter (append_arguments a) idx (ccs_ToolCalls s)
      = alter (fun x => x +:+ a) idx (arguments_of <$> ccs_ToolCalls s)).
    { apply map_eq. intros k. rewrite lookup_fmap. destruct (decide (k = idx)) as [->|Hk].
      - rewrite !lookup_alter_eq, lookup_fmap. by destruct (ccs_ToolCalls s !! idx).
      - by rewrite !lookup_alter_ne, lookup_fmap by done. }
    unfold andThen, modify, reading, argumentsDelta, chatToResponsesEvent. cbn [fst snd].
    destruct (_ && _ && _); cbn; (split; [|done]); unfold summary; cbn; by rewrite Hf.
Qed.

Lemma acts_toolCall tc :
  acts (handleToolCall random_hex order tc) (fun acc => receive_tool acc tc).
Proof.
  unfold handleToolCall. cbn zeta. set (idx := default 0%Z (ctc_Index tc)). intros s Hs.
  destruct (acts_then _ _ _ _ (acts_store idx tc) (acts_then _ _ _ _ (keeps_acts _ (keeps_restoreName idx))
    (acts_then _ _ _ _ (keeps_acts _ (keeps_announce idx false)) (acts_append idx (arguments_of tc)))) s Hs)
    as [A B].
  split; [|exact B]. refine (eq_trans A _). unfold summary, receive_tool, receive_call. fold idx. f_equal.
  apply map_eq. intros k. destruct (decide (k = idx)) as [->|Hk].
  - by rewrite lookup_alter_eq, !lookup_insert_eq.
  - by rewrite lookup_alter_ne, !lookup_insert_ne by done.
Qed.

Lemma foldl_calls tcs t rs a :
  foldl receive_tool (t, rs, a) tcs
  = (t, rs, foldl receive_call a tcs).
Proof. revert a. induction tcs as [|tc tcs IH]; intros a; [done|]. cbn. apply IH. Qed.

Lemma acts_finish r : acts (handleFinishReason r) (fun x => x).
Proof. intros s H. unfold handleFinishReason. destruct r as [r|]; [|done]. by destruct (is_empty r). Qed.

Lemma acts_choice c : acts (handleChoice random_hex order c) (fun a => receive a c).
Proof.
  intros s Hs. unfold handleChoice.
  destruct (acts_then _ _ _ _ (acts_reasoning (deltaReasoningText (ccc_Delta c)))
    (acts_then _ _ _ _ (acts_content (cd_Content (ccc_Delta c)))
      (acts_then _ _ _ _ (acts_forEach (handleToolCall random_hex order)
          receive_tool (cd_ToolCalls (ccc_Delta c)) ltac:(intros tc; exact (acts_toolCall tc)))
        (acts_finish (ccc_FinishReason c)))) s Hs) as [A B].
  split; [|exact B]. refine (eq_trans A _). unfold summary. by rewrite foldl_calls.
Qed.

Lemma acts_absorb c : acts (modify (absorbChunk c)) (fun x => x).
Proof.
  apply keeps_acts, keeps_modify. intros s. destruct (absorbChunk_frame c s) as (E1 & E2 & _).
  unfold summary. rewrite E2. unfold core in E1. injection E1 as.
  by repeat match goal with H : ?f (absorbChunk c s) = _ |- _ => rewrite H; clear H end.
Qed.

Lemma acts_chunk c : acts (ChatCompletionsChunkToResponsesEvents random_hex order c)
  (fun a => foldl receive a (match c with Some c => chunk_Choices c | None => [] end)).
Proof.
  destruct c as [c|]; [|apply acts_skip].
  exact (acts_then _ _ _ _ (acts_absorb c) (acts_then _ _ _ _ (keeps_acts _ keeps_created)
    (acts_forEach (handleChoice random_hex order) receive (chunk_Choices c) acts_choice))).
Qed.

Lemma acts_chunks chunks :
  acts (fun s => run (fun s c => ChatCompletionsChunkToResponsesEvents random_hex order c s) s chunks)
    (fun a => foldl receive a (choices_of chunks)).
Proof.
  induction chunks as [|c chunks IH]; [apply acts_skip|].
  intros s Hs. destruct (acts_then _ _ _ _ (acts_chunk c) IH s Hs) as [A B]. split; [|exact B].
  refine (eq_trans A _). cbn. by rewrite foldl_app.
Qed.

Lemma keeps_closeOpen : keeps (closeOpenItems random_hex order).
Proof.
  unfold closeOpenItems.
  auto using keeps_then, keeps_created, keeps_closeReasoning, keeps_closeMessage, keeps_closeCalls.
Qed.

(** The item of call [k] passes on the arguments received for it. *)
Definition call_item (args : gmap Z string) (k : Z) (o : ResponsesOutput) : Prop :=
  let received := argumentsOrEmpty (default "" (args !! k)) in
  if ro_Type_ o =s "custom_tool_call" then ro_Input o = extractCustomToolCallInput received
  else (ro_Type_ o = "function_call" \/ ro_Type_ o = "tool_search_call") /\ ro_Arguments o = received.

(** The output shows what was received: the reasoning and the text where there is
    some, then the calls by index; an empty message when there was nothing. *)
Definition shows (acc : contents) (output : list ResponsesOutput) : Prop :=
  let '(text, reasoning, args) := acc in
  exists ks calls,
    map (fun o => (ro_Type_ o, map rs_Text (ro_Summary o), map rcp_Text (ro_Content o)))
        (take (length output - length calls) output)
    = (if is_empty reasoning then [] else [("reasoning", [reasoning], [])])
      ++ (if negb (is_empty text) || (bool_decide (args = ∅) && is_empty reasoning)
          then [("message", [], [text])] else []) /\
    drop (length output - length calls) output = calls /\
    Sorted Z.le ks /\ NoDup ks /\ (forall k, k ∈ ks <-> is_Some (args !! k)) /\
    Forall2 (call_item args) ks calls.

Lemma call_item_closed s id k :
  call_item (arguments_of <$> ccs_ToolCalls s) k (closedToolItem s id k).
Proof.
  unfold call_item, closedToolItem. cbv zeta. rewrite lookup_fmap, <- call_arguments_eq.
  unfold call_arguments.
  destruct (shownName s k) as [name ns], (flag (ccs_toolIsCustom s) k), (flag (ccs_toolIsToolSearch s) k);
    cbn; auto.
Qed.

Lemma chatOutput_shows s : open_stream s -> shows (summary s) (chatOutput random_hex s).
Proof.
  intros [_ Hm]. unfold shows, summary, chatOutput. cbv zeta.
  match goal with |- context [?a ++ ?b ++ imap ?f ?ks] => set (pre := a ++ b); set (calls := imap f ks) end.
  exists (sortedChatToolCallIndexes (ccs_ToolCalls s)), calls.
  rewrite !(assoc_L (++)). fold pre.
  rewrite length_app, Nat.add_sub, take_app_length, drop_app_length. split_and!.
  - unfold pre. rewrite map_app. f_equal.
    + by destruct (is_empty (ccs_Reasoning s)).
    + rewrite Hm. assert (bool_decide (arguments_of <$> ccs_ToolCalls s = ∅) = bool_decide (ccs_ToolCalls s = ∅)) as ->.
      { apply bool_decide_ext. apply fmap_empty_iff. }
      by destruct (negb (is_empty (ccs_Text s)) || _).
  - done.
  - apply Sorted_merge_sort. intros x y. lia.
  - apply sorted_calls_NoDup.
  - intros k. rewrite sorted_calls, lookup_fmap, fmap_is_Some. done.
  - unfold calls. clear. apply Forall2_same_length_lookup_2; [by rewrite length_imap|].
    intros i k o Hk Ho. rewrite list_lookup_imap, Hk in Ho. cbn in Ho. injection Ho as <-.
    apply call_item_closed.
Qed.

Lemma shows_incomplete acc output : shows acc output -> shows acc (map incompleteStatus output).
Proof.
  destruct acc as [[text reasoning] args]. intros (ks & calls & H1 & H2 & H3 & H4 & H5 & H6).
  exists ks, (map incompleteStatus calls). rewrite !length_map. split_and!; try done.
  - rewrite <- H1, firstn_map, map_map. apply map_ext. intros o. unfold incompleteStatus.
    by destruct (negb (is_empty (ro_Status o))).
  - by rewrite skipn_map, H2.
  - apply Forall2_fmap_r. eapply Forall2_impl; [exact H6|]. intros k o H.
    change (call_item args k (incompleteStatus o)). unfold incompleteStatus.
    by destruct (negb (is_empty (ro_Status o))).
Qed.

Lemma finalize_shows s acc : open_stream s -> summary s = acc ->
  exists pre e r, (FinalizeChatCompletionsResponsesStream random_hex order s).2 = pre ++ [e] /\
    rse_Response e = Some r /\ shows acc (rr_Output r).
Proof.
  intros Hs <-. unfold FinalizeChatCompletionsResponsesStream. rewrite (proj1 Hs).
  destruct (keeps_acts _ keeps_closeOpen s Hs) as [A B].
  destruct (closeOpenItems random_hex order s) as [s1 o1]. cbn [fst] in A, B. cbv zeta.
  change (chatOutput random_hex (s1 <| ccs_CompletedSent := true |>)) with (chatOutput random_hex s1).
  pose proof (chatOutput_shows s1 B) as C. rewrite A in C.
  destruct (finishIncomplete (ccs_FinishReason s1)); unfold chatToResponsesEvent; cbn [snd];
    eexists _, _, _; (split_and!; [reflexivity|reflexivity|]); cbn [rr_Output terminalResponse];
    [exact (shows_incomplete _ _ C)|exact C].
Qed.
End Contents.

(** C18. Whatever the chunks, the last event of the stream shows everything they
    carried: the concatenated text, the concatenated reasoning, and for every
    call index the concatenated argument fragments, the calls ordered by index. *)
Theorem chat_bridge_content random_hex order randomID model now custom functions search namespaces chunks :
  exists events e r,
    (convertChatChunks random_hex order (declareTools custom functions search namespaces
      (NewChatCompletionsToResponsesStreamState randomID model now)) chunks).2 = events ++ [e] /\
    rse_Response e = Some r /\ shows (received chunks) (rr_Output r).
Proof.
  unfold convertChatChunks. set (s0 := declareTools _ _ _ _ _).
  destruct (acts_chunks random_hex order chunks s0 (conj eq_refl eq_refl)) as [A B].
  destruct (run _ s0 chunks) as [s1 o1]. cbn [fst] in A, B.
  destruct (finalize_shows random_hex order s1 (received chunks) B A) as (pre & e & r & H1 & H2 & H3).
  destruct (FinalizeChatCompletionsResponsesStream random_hex order s1) as [s2 o2]. cbn [snd] in H1.
  exists (o1 ++ pre), e, r. cbn [snd]. rewrite H1. split_and!; [by rewrite (assoc_L (++))|done|done].
Qed.

(** ** Names of tools *)

(** An order in which Go may range over the two maps. *)
Record map_order_ok (o : map_order) : Prop := {
  mo_custom_ok : forall m, mo_custom o m ≡ₚ (map_to_list m).*1;
  mo_ns_ok : forall c m, mo_ns o c m ≡ₚ (map_to_list m).*2
}.

(** [candidate], put in some declared namespace, is sent under [name]. *)
Definition alias_of (namespaces : gmap string NamespacedToolName) (name candidate : string) : Prop :=
  exists k ns, namespaces !! k = Some ns /\ flattenNamespaceToolName (nt_Namespace ns) candidate = name.

Lemma alias_fold name c l m :
  c <> "" -> (forall p, p ∈ l -> p.1 <> "") ->
  foldl (alias_step name) (Some m) l = Some c <->
  (forall p, p ∈ l -> flattenNamespaceToolName (nt_Namespace p.2) p.1 = name -> p.1 = c) /\
  (m = c \/ m = "" /\ exists p, p ∈ l /\ flattenNamespaceToolName (nt_Namespace p.2) p.1 = name).
Proof.
  intros Hc. revert m. induction l as [|p l IH]; intros m Hl.
  - cbn. split; [intros [= ->]; split; [|by left]; by intros p ?%elem_of_nil|].
    intros [_ [->|(_ & p & ?%elem_of_nil & _)]]; done.
  - setoid_rewrite elem_of_cons in Hl. setoid_rewrite elem_of_cons. cbn [foldl].
    assert (Hp : p.1 <> "") by auto. unfold alias_step at 2. cbn.
    destruct (flattenNamespaceToolName (nt_Namespace p.2) p.1 =s name) eqn:E; reflect_bool.
    + destruct (negb (is_empty m) && negb (m =s p.1)) eqn:Em.
      * assert (foldl (alias_step name) None l = None) as -> by (clear; by induction l).
        apply andb_true_iff in Em as [E1 E2]. rewrite negb_true_iff in E1, E2.
        apply is_empty_false in E1. apply String.eqb_neq in E2.
        split; [done|]. intros [H [->|[-> _]]]; [|done]. specialize (H p). naive_solver.
      * rewrite IH by auto.
        assert (m = "" \/ m = p.1) as Hm.
        { apply andb_false_iff in Em as [Em|Em]; rewrite negb_false_iff in Em;
            [left; by apply is_empty_true|right; by apply String.eqb_eq]. }
        clear IH Em. split.
        -- intros [H1 [H2|[H2 _]]]; [|done]. split; [intros q [->|Hq]; auto|].
           destruct Hm as [->| ->]; [right; split; [done|]; exists p; auto|by left].
        -- intros [H1 H2]. split; [auto|]. left. by apply H1; [left|].
    + rewrite IH by auto. clear IH. split.
      * intros [H1 H2]. split; [intros q [->|Hq]; [done|auto]|].
        destruct H2 as [H2|(H2 & q & Hq & Hn)]; [by left|]. right. split; [done|]. exists q. auto.
      * intros [H1 H2]. split; [auto|]. destruct H2 as [H2|(H2 & q & [->|Hq] & Hn)]; [by left|done|].
        right. split; [done|]. by exists q.
Qed.

Lemma alias_pairs_elem o custom namespaces p : map_order_ok o ->
  p ∈ alias_pairs o custom namespaces <->
  is_Some (custom !! p.1) /\ exists k, namespaces !! k = Some p.2.
Proof.
  intros [H1 H2]. unfold alias_pairs. rewrite list_elem_of_bind. setoid_rewrite list_elem_of_fmap. split.
  - intros (c & (ns & -> & Hns) & Hc). cbn. rewrite H1 in Hc. rewrite H2 in Hns. split.
    + apply list_elem_of_fmap in Hc as ([c' b] & -> & Hc%elem_of_map_to_list). by eexists.
    + apply list_elem_of_fmap in Hns as ([k ns'] & -> & Hk%elem_of_map_to_list). by exists k.
  - destruct p as [c ns]. cbn. intros [[b Hb] [k Hk]]. exists c. split.
    + exists ns. split; [done|]. rewrite H2. apply list_elem_of_fmap. exists (k, ns). split; [done|].
      by apply elem_of_map_to_list.
    + rewrite H1. apply list_elem_of_fmap. exists (c, b). split; [done|]. by apply elem_of_map_to_list.
Qed.

(** Which custom tool a call stands for does not depend on the order in which Go
    ranges over its maps: a declared function keeps its name, a declared custom
    tool stands for itself, a namespace child is no custom tool, and otherwise the
    name stands for the custom tool it is the only possible alias of.  Custom tools
    with an empty name are excluded. *)
Theorem customToolCallName_spec o name custom functions namespaces c :
  map_order_ok o -> custom !! "" = None ->
  customToolCallName o name custom functions namespaces = Some c <->
  has functions name = false /\
  (has custom name = true /\ c = name \/
   has custom name = false /\ namespaces !! name = None /\
   is_Some (custom !! c) /\ alias_of namespaces name c /\
   (forall c', is_Some (custom !! c') -> alias_of namespaces name c' -> c' = c)).
Proof.
  intros Ho Hempty. unfold customToolCallName.
  destruct (has functions name); [naive_solver|]. destruct (has custom name); [naive_solver|].
  destruct (namespaces !! name); [naive_solver|].
  assert (Hne : forall p, p ∈ alias_pairs o custom namespaces -> p.1 <> "").
  { intros p [[b Hb] _]%alias_pairs_elem; [|done]. congruence. }
  assert (Hfold : c <> "" -> foldl (alias_step name) (Some "") (alias_pairs o custom namespaces) = Some c <->
    is_Some (custom !! c) /\ alias_of namespaces name c /\
    (forall c', is_Some (custom !! c') -> alias_of namespaces name c' -> c' = c)).
  { intros Hc. rewrite alias_fold by done. setoid_rewrite (fun p => alias_pairs_elem o custom namespaces p Ho). unfold alias_of. split.
    - intros [H1 [H2|(_ & p & [Hp [k Hk]] & Hn)]]; [done|].
      assert (p.1 = c) as <- by (apply H1; eauto). split_and!; [done|eauto|].
      intros c' Hc' (k' & ns & Hns & Hf). apply (H1 (c', ns)); eauto.
    - intros (H1 & (k & ns & Hk & Hf) & H3). split; [intros p [Hp [k' Hk']] Hn; eauto|].
      right. split; [done|]. exists (c, ns). eauto. }
  destruct (decide (c = "")) as [->|Hc].
  - rewrite Hempty. split; [|intros (_ & [[? _]|(_ & _ & [? ?] & _)]); done].
    destruct (foldl _ _ _) as [m|]; [|done]. destruct (is_empty m) eqn:E; [done|].
    intros [= ->]. done.
  - split.
    + destruct (foldl (alias_step name) _ _) as [m|] eqn:E; [|done].
      destruct (is_empty m); [done|]. intros [= ->]. specialize (proj1 (Hfold Hc) eq_refl) as H.
      naive_solver.
    + intros (_ & [[? _]|(_ & _ & H1 & H2 & H3)]); [done|].
      rewrite (proj2 (Hfold Hc)) by done. by apply is_empty_false in Hc as ->.
Qed.

Lemma strlen_fit_prefix limit chars prefix :
  (strlen prefix <= limit)%Z -> (strlen (fit_prefix limit prefix chars) <= limit)%Z.
Proof.
  revert prefix. induction chars as [|ch chars IH]; intros prefix H; cbn; [done|].
  destruct (Z.ltb_spec limit (strlen prefix + strlen (encode_rune ch))); [done|].
  apply IH. rewrite strlen_app. lia.
Qed.

(** A flattened name has at most the 64 bytes that Chat Completions allows, and is
    the plain concatenation whenever that fits. *)
Theorem flattenNamespaceToolName_fits namespace name :
  (strlen (flattenNamespaceToolName namespace name) <= chatToolNameMaxLen)%Z /\
  ((strlen (namespace +:+ "__" +:+ name) <= chatToolNameMaxLen)%Z ->
   flattenNamespaceToolName namespace name = namespace +:+ "__" +:+ name).
Proof.
  unfold flattenNamespaceToolName. cbv zeta.
  destruct (Z.leb_spec (strlen (namespace +:+ "__" +:+ name)) chatToolNameMaxLen); [done|].
  split; [|lia]. rewrite strlen_app. set (suffix := "__" +:+ hex_encode _).
  assert (strlen suffix <= 10)%Z.
  { unfold suffix. rewrite strlen_app, strlen_hex_encode, length_take. change (strlen "__") with 2%Z. lia. }
  pose proof (strlen_fit_prefix (chatToolNameMaxLen - strlen suffix) (runes (namespace +:+ "__" +:+ name)) "").
  change (strlen "") with 0%Z in *. unfold chatToolNameMaxLen in *. lia.
Qed.

(** ** Streams at work *)

(** The order of [map_to_list]. *)
Definition listed : map_order :=
  MkMapOrder (fun m => (map_to_list m).*1) (fun _ m => (map_to_list m).*2).

Definition some_hex (n : nat) : string := chr (97 + Z.of_nat n).

Definition choice_of (reasoning content : string) (calls : list ChatToolCall) : ChatChunkChoice :=
  zero_ChatChunkChoice <| ccc_Delta := zero_ChatDelta <| cd_Reasoning := Some reasoning |>
    <| cd_Content := Some content |> <| cd_ToolCalls := calls |> |>.

Definition chunk_of (reasoning content : string) (calls : list ChatToolCall)
    : option ChatCompletionsChunk :=
  Some (zero_ChatCompletionsChunk <| chunk_ID := "chatcmpl-1" |>
    <| chunk_Choices := [choice_of reasoning content calls] |>).

Definition call_of (idx : Z) (id name arguments : string) : ChatToolCall :=
  MkChatToolCall (Some idx) id "" (MkChatFunctionCall name arguments).

(** Reasoning, text, and two calls whose fragments alternate; one of them calls a
    custom tool. *)
Definition sample_chunks : list (option ChatCompletionsChunk) :=
  [ chunk_of "think" "" []; chunk_of "ing" "Hel" []; None; chunk_of "" "lo" [];
    chunk_of "" "" [call_of 1 "call_b" "search" "{"; call_of 0 "call_a" "patch" "{input: "];
    chunk_of "" "" [call_of 1 "" "" "}"; call_of 0 "" "" "x}"] ].

Definition sample_state : ChatCompletionsToResponsesStreamState :=
  declareTools {[ "patch" := true ]} {[ "search" := true ]} false ∅
    (NewChatCompletionsToResponsesStreamState "resp_1" "m" 0).


Lemma flattenNamespaceToolName_fits_witness :
  flattenNamespaceToolName "fs" "read" = "fs__read".
Proof. apply (flattenNamespaceToolName_fits "fs" "read"). by vm_compute. Defined.

