(* ===== verification/Programs.v ===== *)
(** * Programs with explicit calls

    A handler is a tree of calls to the database, the clock and other services, so that
    handlers can be interleaved call by call and calls can fail.  The reply of a call is
    optional: [None] is an error. *)

From S2P Require Import Prelude.

Inductive prog (C : Type -> Type) (A : Type) : Type :=
  | Ret (a : A)
  | Do {R : Type} (c : C R) (k : option R -> prog C A).

Arguments Ret {C A} a.
Arguments Do {C A R} c k.

Fixpoint bind {C : Type -> Type} {A B : Type} (p : prog C A) (f : A -> prog C B) : prog C B :=
  match p with
  | Ret a => f a
  | Do c k => Do c (fun r => bind (k r) f)
  end.

Declare Scope prog_scope.
Delimit Scope prog_scope with prog.
Bind Scope prog_scope with prog.
Open Scope prog_scope.

Notation "'let*' r := c 'in' p" := (Do c (fun r => p))
  (at level 200, r name, c at level 100, p at level 200, right associativity) : prog_scope.
Notation "c ';*' p" := (Do c (fun _ => p))
  (at level 100, p at level 200, right associativity) : prog_scope.
Notation "'let!' r := q 'in' p" := (bind q (fun r => p))
  (at level 200, r name, q at level 100, p at level 200, right associativity) : prog_scope.

(** A call can fail before it is executed, or after. *)
Inductive fault := Fine | LostRequest | LostReply.

Section Runs.
Context {C : Type -> Type} {D : Type} (run : forall R, C R -> D -> R * D).

Definition perform (f : fault) {R : Type} (c : C R) (d : D) : option R * D :=
  match f with
  | Fine => (Some (run R c d).1, (run R c d).2)
  | LostRequest => (None, d)
  | LostReply => (None, (run R c d).2)
  end.

(** A program that runs alone and without faults. *)
Fixpoint alone {A : Type} (p : prog C A) (d : D) : A * D :=
  match p with
  | Ret a => (a, d)
  | Do c k => let r := run _ c d in alone (k (Some r.1)) r.2
  end.

Lemma alone_bind {A B : Type} (p : prog C A) (f : A -> prog C B) d :
  alone (bind p f) d = let r := alone p d in alone (f r.1) r.2.
Proof. revert d. induction p as [a|R c k IH]; intros d; [done|]. apply IH. Qed.

Lemma alone_do {A R : Type} (c : C R) (k : option R -> prog C A) d :
  alone (Do c k) d = alone (k (Some (run R c d).1)) (run R c d).2.
Proof. done. Qed.
End Runs.
