(* ===== verification/PaymentOrders.v ===== *)
(** * Payment orders

    [service/payment_fulfillment.go], [service/payment_order_lifecycle.go],
    [service/payment_order_provider_snapshot.go] and the parts of
    [service/redeem_service.go] they use: payment notifications, the fulfilment
    of paid orders through redeem codes and subscriptions, retries,
    cancellation, expiry and reconciliation.  Handlers are programs whose
    database statements, clock readings and calls to other services are
    explicit, so that any number of them can be interleaved statement by
    statement. *)

From stdpp Require Import sorting pretty.
From S2P Require Import Prelude GoStrings GoFloat Programs.

(** ** Data *)

Definition OrderStatusPending : string := "PENDING".
Definition OrderStatusPaid : string := "PAID".
Definition OrderStatusRecharging : string := "RECHARGING".
Definition OrderStatusCompleted : string := "COMPLETED".
Definition OrderStatusExpired : string := "EXPIRED".
Definition OrderStatusCancelled : string := "CANCELLED".
Definition OrderStatusFailed : string := "FAILED".
Definition OrderStatusRefundRequested : string := "REFUND_REQUESTED".
Definition OrderStatusRefunding : string := "REFUNDING".
Definition OrderStatusRefundPending : string := "REFUND_PENDING".
Definition OrderStatusPartiallyRefunded : string := "PARTIALLY_REFUNDED".
Definition OrderStatusRefunded : string := "REFUNDED".
Definition OrderStatusRefundFailed : string := "REFUND_FAILED".

Definition OrderTypeBalance : string := "balance".
Definition OrderTypeSubscription : string := "subscription".

Definition StatusUnused : string := "unused".
Definition StatusUsed : string := "used".
Definition StatusExpired : string := "expired".

Definition RedeemTypeBalance : string := "balance".
Definition RedeemTypeConcurrency : string := "concurrency".
Definition RedeemTypeSubscription : string := "subscription".

(** Values of the JSON column [provider_snapshot]. *)
Inductive snapshot_value :=
  | SnapString (s : string)
  | SnapNumber (n : Z)
  | SnapOther.

(** A row of [payment_orders], with the columns that the code below and refunds use.  Times are nanoseconds on one clock. *)
Record PaymentOrder := MkPaymentOrder {
  po_ID : Z;
  po_UserID : Z;
  po_Amount : float64;
  po_BonusAmount : float64;
  po_PayAmount : float64;
  po_RechargeCode : string;
  po_OutTradeNo : string;
  po_PaymentType : string;
  po_PaymentTradeNo : string;
  po_OrderType : string;
  po_Status : string;
  po_ProviderInstanceID : option string;
  po_ProviderKey : option string;
  po_ProviderSnapshot : gmap string snapshot_value;
  po_SubscriptionGroupID : option Z;
  po_SubscriptionDays : option Z;
  po_PaidAt : option Z;
  po_CompletedAt : option Z;
  po_FailedAt : option Z;
  po_FailedReason : option string;
  po_RefundAmount : float64;
  po_RefundReason : option string;
  po_RefundAt : option Z;
  po_ForceRefund : bool;
  po_RefundRequestedAt : option Z;
  po_RefundRequestReason : option string;
  po_RefundRequestedBy : option string;
  po_ExpiresAt : Z;
  po_CreatedAt : Z;
  po_UpdatedAt : Z
}.

#[export] Instance eta_PaymentOrder : Eta PaymentOrder := fun r =>
  MkPaymentOrder (po_ID r) (po_UserID r) (po_Amount r) (po_BonusAmount r) (po_PayAmount r)
    (po_RechargeCode r) (po_OutTradeNo r) (po_PaymentType r) (po_PaymentTradeNo r)
    (po_OrderType r) (po_Status r) (po_ProviderInstanceID r) (po_ProviderKey r)
    (po_ProviderSnapshot r) (po_SubscriptionGroupID r) (po_SubscriptionDays r) (po_PaidAt r)
    (po_CompletedAt r) (po_FailedAt r) (po_FailedReason r) (po_RefundAmount r) (po_RefundReason r)
    (po_RefundAt r) (po_ForceRefund r) (po_RefundRequestedAt r) (po_RefundRequestReason r)
    (po_RefundRequestedBy r) (po_ExpiresAt r) (po_CreatedAt r)
    (po_UpdatedAt r).

(** A row of [redeem_codes]. *)
Record RedeemCode := MkRedeemCode {
  rc_ID : Z;
  rc_Code : string;
  rc_Type_ : string;
  rc_Value : float64;
  rc_Status : string;
  rc_UsedBy : option Z;
  rc_UsedAt : option Z;
  rc_GroupID : option Z;
  rc_ValidityDays : Z;
  rc_ExpiresAt : option Z
}.

#[export] Instance eta_RedeemCode : Eta RedeemCode := fun r =>
  MkRedeemCode (rc_ID r) (rc_Code r) (rc_Type_ r) (rc_Value r) (rc_Status r) (rc_UsedBy r)
    (rc_UsedAt r) (rc_GroupID r) (rc_ValidityDays r) (rc_ExpiresAt r).

Definition zero_RedeemCode : RedeemCode :=
  MkRedeemCode 0%Z "" "" fzero "" None None None 0%Z None.

Definition IsUsed (r : RedeemCode) : bool := rc_Status r =s StatusUsed.

Definition IsExpiredAt (r : RedeemCode) (now : Z) : bool :=
  (rc_Status r =s StatusExpired) ||
  ((rc_Status r =s StatusUnused) &&
   match rc_ExpiresAt r with Some t => negb (now <? t)%Z | None => false end).

Definition CanUse (r : RedeemCode) (now : Z) : bool :=
  (rc_Status r =s StatusUnused) && negb (IsExpiredAt r now).

(** [payment.PaymentNotification] and [payment.QueryOrderResponse]. *)
Record PaymentNotification := MkPaymentNotification {
  pn_TradeNo : string;
  pn_OrderID : string;
  pn_Amount : float64;
  pn_Status : string;
  pn_Metadata : gmap string string
}.

Record QueryOrderResponse := MkQueryOrderResponse {
  qr_TradeNo : string;
  qr_Status : string;
  qr_Amount : float64;
  qr_Metadata : gmap string string
}.

Definition NotificationStatusSuccess : string := "success".
Definition ProviderStatusPaid : string := "paid".
Definition ProviderStatusSuccess : string := "success".

(** ** Currencies *)

Definition DefaultPaymentCurrency : string := "CNY".

Section Checks.
(** Tables of the [unicode] package for strings outside ASCII. *)
Variable unicode_upper : string -> string.
Variable unicode_fold : string -> string -> bool.

(** [strings.EqualFold]. *)
Definition EqualFold (s t : string) : bool :=
  if is_ascii_string s && is_ascii_string t
  then str_map ascii_lower s =s str_map ascii_lower t else unicode_fold s t.

(** [NormalizePaymentCurrency]; [None] is the error. *)
Definition NormalizePaymentCurrency (raw : string) : option string :=
  let currency := ToUpper unicode_upper (TrimSpace raw) in
  if is_empty currency then Some DefaultPaymentCurrency
  else if negb (strlen currency =? 3)%Z then None
  else if existsb (fun ch => (ch <? 65) || (90 <? ch))%Z (runes currency) then None
  else Some currency.

(** [paymentCurrencyAmountUnits]: API minor unit and fraction digits. *)
Definition paymentCurrencyAmountUnits (currency : string) : Z * Z :=
  if bool_decide (currency ∈ ["BIF"; "CLP"; "DJF"; "GNF"; "JPY"; "KMF"; "KRW"; "MGA"; "PYG";
                              "RWF"; "VND"; "VUV"; "XAF"; "XOF"; "XPF"]) then (0%Z, 0%Z)
  else if bool_decide (currency ∈ ["ISK"; "UGX"]) then (2%Z, 0%Z)
  else if bool_decide (currency ∈ ["BHD"; "IQD"; "JOD"; "KWD"; "LYD"; "OMR"; "TND"]) then (3%Z, 3%Z)
  else (2%Z, 2%Z).

Definition CurrencyMinorUnit (currency : string) : Z :=
  match NormalizePaymentCurrency currency with
  | Some c => (paymentCurrencyAmountUnits c).1
  | None => 2%Z
  end.

(** ** Checks of a notification *)

Definition psStringValue (value : option string) : string := default "" value.

Definition psSnapshotStringValue (value : option snapshot_value) : string :=
  match value with Some (SnapString s) => TrimSpace s | _ => "" end.

Record paymentOrderProviderSnapshot := MkSnapshot {
  ps_SchemaVersion : Z;
  ps_ProviderInstanceID : string;
  ps_ProviderKey : string;
  ps_PaymentMode : string;
  ps_MerchantAppID : string;
  ps_MerchantID : string;
  ps_Currency : string
}.

Definition psSnapshotIntValue (value : option snapshot_value) : Z :=
  match value with
  | Some (SnapNumber n) => n
  | Some (SnapString s) => default 0%Z (ParseInt (TrimSpace s))
  | _ => 0%Z
  end.

Definition psOrderProviderSnapshot (order : PaymentOrder) : option paymentOrderProviderSnapshot :=
  let raw := po_ProviderSnapshot order in
  if bool_decide (raw = ∅) then None else
  let str key := psSnapshotStringValue (raw !! key) in
  let snapshot := MkSnapshot (psSnapshotIntValue (raw !! "schema_version"))
    (str "provider_instance_id") (str "provider_key") (str "payment_mode")
    (str "merchant_app_id") (str "merchant_id") (str "currency") in
  if (ps_SchemaVersion snapshot =? 0)%Z
     && is_empty (ps_ProviderInstanceID snapshot) && is_empty (ps_ProviderKey snapshot)
     && is_empty (ps_PaymentMode snapshot) && is_empty (ps_MerchantAppID snapshot)
     && is_empty (ps_MerchantID snapshot) && is_empty (ps_Currency snapshot)
  then None else Some snapshot.

Definition PaymentOrderCurrency (order : PaymentOrder) : string :=
  match psOrderProviderSnapshot order with
  | Some snapshot =>
    match NormalizePaymentCurrency (ps_Currency snapshot) with
    | Some currency => currency
    | None => DefaultPaymentCurrency
    end
  | None => DefaultPaymentCurrency
  end.

Definition expectedNotificationProviderKey (registry : option (string -> string))
    (orderPaymentType orderProviderKey instanceProviderKey : string) : string :=
  let key := TrimSpace instanceProviderKey in
  if negb (is_empty key) then key else
  let key := TrimSpace orderProviderKey in
  if negb (is_empty key) then key else
  let key := match registry with Some lookup => TrimSpace (lookup orderPaymentType) | None => "" end in
  if negb (is_empty key) then key else TrimSpace orderPaymentType.

Definition expectedNotificationProviderKeyForOrder (registry : option (string -> string))
    (order : PaymentOrder) (instanceProviderKey : string) : string :=
  let orderProviderKey :=
    match psOrderProviderSnapshot order with
    | Some snapshot => if negb (is_empty (ps_ProviderKey snapshot)) then ps_ProviderKey snapshot
                       else psStringValue (po_ProviderKey order)
    | None => psStringValue (po_ProviderKey order)
    end in
  expectedNotificationProviderKey registry (po_PaymentType order) orderProviderKey instanceProviderKey.

(** One comparison of [validateProviderSnapshotMetadata]: nothing is expected, or the
    metadata has a value that agrees up to case. *)
Definition metadata_agrees (expected actual : string) : bool :=
  let expected := TrimSpace expected in
  is_empty expected || (negb (is_empty actual) && EqualFold expected actual).

(** A reported state, where there is one, is [wanted]. *)
Definition state_agrees (actual wanted : string) : bool :=
  let actual := TrimSpace actual in is_empty actual || EqualFold actual wanted.

(** [validateProviderSnapshotMetadata]: whether it returns nil. *)
Definition validateProviderSnapshotMetadata (order : PaymentOrder) (providerKey : string)
    (metadata : gmap string string) : bool :=
  if bool_decide (metadata = ∅) then true else
  match psOrderProviderSnapshot order with
  | None => true
  | Some snapshot =>
    let field key := default "" (metadata !! key) in
    let trimmed key := TrimSpace (field key) in
    let upper key := ToUpper unicode_upper (trimmed key) in
    let key := TrimSpace providerKey in
    if key =s "wxpay" then
      metadata_agrees (ps_MerchantAppID snapshot) (trimmed "appid")
      && metadata_agrees (ps_MerchantID snapshot) (trimmed "mchid")
      && metadata_agrees (ps_Currency snapshot) (upper "currency")
      && state_agrees (field "trade_state") "SUCCESS"
    else if key =s "alipay" then metadata_agrees (ps_MerchantAppID snapshot) (trimmed "app_id")
    else if key =s "easypay" then metadata_agrees (ps_MerchantID snapshot) (trimmed "pid")
    else if key =s "stripe" then metadata_agrees (ps_Currency snapshot) (upper "currency")
    else if key =s "airwallex" then
      metadata_agrees (ps_MerchantID snapshot) (trimmed "account_id")
      && metadata_agrees (ps_Currency snapshot) (upper "currency")
      && state_agrees (field "status") "SUCCEEDED"
    else true
  end.

Definition amountToleranceCNY : float64 := pow10_neg 2.

Definition paymentAmountToleranceForCurrency (currency : string) : float64 :=
  let minorUnit := CurrencyMinorUnit currency in
  if (minorUnit <=? 2)%Z then amountToleranceCNY
  else fdiv (pow10_neg minorUnit) (float_of_Z 2).

Definition isValidProviderAmount (amount : float64) : bool :=
  flt fzero amount && negb (IsNaN amount) && negb (IsInf amount).

(** The two amount checks of [confirmPayment]. *)
Definition amountMismatch (paid : float64) (order : PaymentOrder) : bool :=
  flt (paymentAmountToleranceForCurrency (PaymentOrderCurrency order))
      (fabs (fsub paid (po_PayAmount order))).

Definition orderIDPrefix : string := "sub2_".

(** [parseLegacyPaymentOrderID] for an order number that was not found. *)
Definition parseLegacyPaymentOrderID (orderID : string) : option Z :=
  let orderID := TrimSpace orderID in
  if negb (HasPrefix orderID orderIDPrefix) then None else
  let trimmed := TrimPrefix orderID orderIDPrefix in
  if is_empty trimmed || (trimmed =s orderID) then None else
  match ParseInt trimmed with
  | Some oid => if (oid <=? 0)%Z then None else Some oid
  | None => None
  end.

Definition psIsRefundStatus (s : string) : bool :=
  bool_decide (s ∈ [OrderStatusRefundRequested; OrderStatusRefunding; OrderStatusRefundPending;
    OrderStatusPartiallyRefunded; OrderStatusRefunded; OrderStatusRefundFailed]).

Definition isSupportedPaymentOrderType (orderType : string) : bool :=
  (orderType =s OrderTypeBalance) || (orderType =s OrderTypeSubscription).

Definition affiliateRebateBaseAmount (o : PaymentOrder) : float64 :=
  if (po_OrderType o =s OrderTypeBalance) || (po_OrderType o =s OrderTypeSubscription)
  then fmax fzero (fsub (po_Amount o) (po_BonusAmount o)) else fzero.

Definition GetBasePaymentType (t : string) : string :=
  if t =s "easypay" then "easypay"
  else if t =s "airwallex" then "airwallex"
  else if (t =s "stripe") || (t =s "card") || (t =s "link") then "stripe"
  else if HasPrefix t "alipay" then "alipay"
  else if HasPrefix t "wxpay" then "wxpay"
  else t.

(** [paymentOrderQueryReference]; [providerKey] is the key of the provider. *)
Definition paymentOrderQueryReference (order : PaymentOrder) (providerKey : string) : string :=
  let key := TrimSpace providerKey in
  let key := if negb (is_empty key) then key else
    match psOrderProviderSnapshot order with
    | Some snapshot => TrimSpace (ps_ProviderKey snapshot) | None => "" end in
  let key := if negb (is_empty key) then key else TrimSpace (psStringValue (po_ProviderKey order)) in
  let key := if negb (is_empty key) then key else TrimSpace (po_PaymentType order) in
  let base := GetBasePaymentType key in
  if (base =s "alipay") || (base =s "easypay") || (base =s "wxpay") then TrimSpace (po_OutTradeNo order)
  else
    let tradeNo := TrimSpace (po_PaymentTradeNo order) in
    if negb (is_empty tradeNo) then tradeNo else TrimSpace (po_OutTradeNo order).

Definition paymentOrderShouldPersistUpstreamTradeNo (queryRef upstreamTradeNo currentTradeNo : string)
    : bool :=
  let upstreamTradeNo := TrimSpace upstreamTradeNo in
  negb (is_empty upstreamTradeNo)
  && negb (EqualFold upstreamTradeNo (TrimSpace currentTradeNo))
  && negb (EqualFold upstreamTradeNo (TrimSpace queryRef)).

Definition out_trade_no_rune (ch : Z) : bool :=
  (((97 <=? ch) && (ch <=? 122)) || ((65 <=? ch) && (ch <=? 90)) || ((48 <=? ch) && (ch <=? 57))
   || (ch =? 95) || (ch =? 45))%Z.

(** [normalizeOrderLookupOutTradeNo]; [None] is the error. *)
Definition normalizeOrderLookupOutTradeNo (raw : string) : option string :=
  let outTradeNo := TrimSpace raw in
  if is_empty outTradeNo then None
  else if (64 <? strlen outTradeNo)%Z then None
  else if forallb out_trade_no_rune (runes outTradeNo) then Some outTradeNo else None.
End Checks.

(** ** Tables *)

(** What redeeming a code grants. *)
Inductive grant :=
  | GrantBalance (amount : float64)
  | GrantConcurrency (delta : Z)
  | GrantSubscription (group days : Z).

(** [gr_code] is the id of the redeem code behind a grant. *)
Record granted := MkGranted { gr_code : Z; gr_user : Z; gr_what : grant }.

(** [db_audit] has one row per order and action, as the unique index
    [idx_payment_audit_logs_order_action_uniq] demands, with its operator.
    [db_grants], [db_assigned] and [db_rebates] are the effects on balances,
    subscriptions and invitation rebates in the order in which they happened. *)
Record pay_db := MkPayDb {
  db_orders : gmap Z PaymentOrder;
  db_next_order : Z;
  db_codes : gmap Z RedeemCode;
  db_next_code : Z;
  db_audit : gmap (Z * string) string;
  db_grants : list granted;
  db_assigned : list (Z * (Z * Z * Z));
  db_rebates : list (Z * float64)
}.

#[export] Instance eta_pay_db : Eta pay_db := fun r =>
  MkPayDb (db_orders r) (db_next_order r) (db_codes r) (db_next_code r) (db_audit r)
    (db_grants r) (db_assigned r) (db_rebates r).

Definition empty_pay_db : pay_db := MkPayDb ∅ 1 ∅ 1 ∅ [] [] [].

(** [UPDATE payment_orders ... WHERE id = oid AND guard]: the number of rows; ent
    also sets [updated_at]. *)
Definition updateOrder (clock oid : Z) (guard : PaymentOrder -> bool)
    (f : PaymentOrder -> PaymentOrder) (db : pay_db) : Z * pay_db :=
  match db_orders db !! oid with
  | Some o =>
    if guard o
    then (1%Z, db <| db_orders := <[ oid := f o <| po_UpdatedAt := clock |> ]> (db_orders db) |>)
    else (0%Z, db)
  | None => (0%Z, db)
  end.

Definition status_in (statuses : list string) (o : PaymentOrder) : bool :=
  bool_decide (po_Status o ∈ statuses).

(** [Only]: several rows match only when they have no order number, which the unique
    index allows. *)
Inductive only := Found (o : PaymentOrder) | NotFound | NotSingular.

Definition findByOutTradeNo (outTradeNo : string) (db : pay_db) : only :=
  match filter (fun p => po_OutTradeNo p.2 = outTradeNo) (map_to_list (db_orders db)) with
  | [] => NotFound
  | [(_, o)] => Found o
  | _ => NotSingular
  end.

Definition findCode (code : string) (db : pay_db) : option RedeemCode :=
  snd <$> head (filter (fun p => rc_Code p.2 = code) (map_to_list (db_codes db))).

(** ** Statements *)

Definition paymentGraceMinutes : Z := 5.
Definition minute : Z := 60 * 1000000000.

(** [toPaid]. *)
Definition UpdateToPaid (clock oid now : Z) (paid : float64) (tradeNo : string) (db : pay_db)
    : Z * pay_db :=
  let grace := (now - paymentGraceMinutes * minute)%Z in
  updateOrder clock oid
    (fun o => status_in [OrderStatusPending; OrderStatusCancelled] o
              || (status_in [OrderStatusExpired] o && (grace <=? po_UpdatedAt o)%Z))
    (fun o => o <| po_Status := OrderStatusPaid |> <| po_PayAmount := paid |>
                <| po_PaymentTradeNo := tradeNo |> <| po_PaidAt := Some now |>
                <| po_FailedAt := None |> <| po_FailedReason := None |>) db.

(** The lock of [ExecuteBalanceFulfillment] and [ExecuteSubscriptionFulfillment]. *)
Definition UpdateToRecharging (clock oid : Z) (db : pay_db) : Z * pay_db :=
  updateOrder clock oid (status_in [OrderStatusPaid; OrderStatusFailed])
    (fun o => o <| po_Status := OrderStatusRecharging |>) db.

(** [markCompleted]. *)
Definition UpdateToCompleted (clock oid now : Z) (db : pay_db) : Z * pay_db :=
  updateOrder clock oid (status_in [OrderStatusRecharging])
    (fun o => o <| po_Status := OrderStatusCompleted |> <| po_CompletedAt := Some now |>) db.

(** [markFailed] and [rejectUnsupportedOrderType], from the statuses [from]. *)
Definition UpdateToFailed (clock oid : Z) (from : list string) (now : Z) (reason : string)
    (db : pay_db) : Z * pay_db :=
  updateOrder clock oid (status_in from)
    (fun o => o <| po_Status := OrderStatusFailed |> <| po_FailedAt := Some now |>
                <| po_FailedReason := Some reason |>) db.

(** [RetryFulfillment]. *)
Definition UpdateForRetry (clock oid : Z) (db : pay_db) : Z * pay_db :=
  updateOrder clock oid (status_in [OrderStatusFailed; OrderStatusPaid])
    (fun o => o <| po_Status := OrderStatusPaid |> <| po_FailedAt := None |>
                <| po_FailedReason := None |>) db.

(** [cancelCore]. *)
Definition UpdateFromPending (clock oid : Z) (fs : string) (db : pay_db) : Z * pay_db :=
  updateOrder clock oid (status_in [OrderStatusPending]) (fun o => o <| po_Status := fs |>) db.

(** [checkPaidWithOptions]. *)
Definition UpdateTradeNo (clock oid : Z) (tradeNo : string) (db : pay_db) : Z * pay_db :=
  updateOrder clock oid (fun _ => true) (fun o => o <| po_PaymentTradeNo := tradeNo |>) db.

(** [CreateOrder] when the provider could not be called; no status is demanded. *)
Definition UpdateCreateFailed (clock oid : Z) (db : pay_db) : Z * pay_db :=
  updateOrder clock oid (fun _ => true) (fun o => o <| po_Status := OrderStatusFailed |>) db.

(** [invokeProvider]. *)
Definition UpdatePaymentDetails (clock oid : Z) (tradeNo instanceID providerKey : string)
    (db : pay_db) : Z * pay_db :=
  updateOrder clock oid (fun _ => true)
    (fun o =>
      let o := if is_empty tradeNo then o else o <| po_PaymentTradeNo := tradeNo |> in
      let o := if is_empty instanceID then o else o <| po_ProviderInstanceID := Some instanceID |> in
      if is_empty providerKey then o else o <| po_ProviderKey := Some providerKey |>) db.

(** The transaction of [createOrderInTx] for the order [template]: a pending order
    with the next id and a recharge code made from it.  [None] when the order
    number is taken. *)
Definition rechargeCode (oid nanos : Z) : string :=
  "PAY-" +:+ pretty oid +:+ "-" +:+ pretty (nanos `mod` 100000)%Z.

Definition InsertOrder (clock : Z) (template : PaymentOrder) (db : pay_db) : option Z * pay_db :=
  if negb (is_empty (po_OutTradeNo template))
     && existsb (fun p => po_OutTradeNo p.2 =s po_OutTradeNo template) (map_to_list (db_orders db))
  then (None, db) else
  let oid := db_next_order db in
  let o := template <| po_ID := oid |> <| po_Status := OrderStatusPending |>
    <| po_PaymentTradeNo := "" |> <| po_RechargeCode := rechargeCode oid clock |>
    <| po_PaidAt := None |> <| po_CompletedAt := None |> <| po_FailedAt := None |>
    <| po_FailedReason := None |> <| po_RefundAmount := fzero |> <| po_RefundReason := None |>
    <| po_RefundAt := None |> <| po_ForceRefund := false |> <| po_RefundRequestedAt := None |>
    <| po_RefundRequestReason := None |> <| po_RefundRequestedBy := None |>
    <| po_CreatedAt := clock |> <| po_UpdatedAt := clock |> in
  (Some oid, db <| db_orders := <[ oid := o ]> (db_orders db) |> <| db_next_order := (oid + 1)%Z |>).

(** [writeAuditLog]: whether the row was written. *)
Definition InsertAudit (oid : Z) (action operator : string) (db : pay_db) : bool * pay_db :=
  match db_audit db !! (oid, action) with
  | Some _ => (false, db)
  | None => (true, db <| db_audit := <[ (oid, action) := operator ]> (db_audit db) |>)
  end.

Definition hasAudit (oid : Z) (action : string) (db : pay_db) : bool :=
  bool_decide (is_Some (db_audit db !! (oid, action))).

(** [redeemCodeRepository.Create]: [None] when the code exists. *)
Definition InsertCode (code : RedeemCode) (db : pay_db) : option Z * pay_db :=
  match findCode (rc_Code code) db with
  | Some _ => (None, db)
  | None =>
    let id := db_next_code db in
    (Some id, db <| db_codes := <[ id := code <| rc_ID := id |> ]> (db_codes db) |>
                 <| db_next_code := (id + 1)%Z |>)
  end.

(** The transaction of [Redeem]: mark the code used if it is unused, and grant.  The
    result says whether the code was still unused. *)
Definition RedeemTx (clock id userID : Z) (what : grant) (db : pay_db) : bool * pay_db :=
  match db_codes db !! id with
  | Some c =>
    if rc_Status c =s StatusUnused then
      (true, db <| db_codes := <[ id := c <| rc_Status := StatusUsed |> <| rc_UsedBy := Some userID |>
                                        <| rc_UsedAt := Some clock |> ]> (db_codes db) |>
                <| db_grants := db_grants db ++ [MkGranted id userID what] |>)
    else (false, db)
  | None => (false, db)
  end.

(** The transaction of [applyAffiliateRebateForOrder]; [rebateAmount] is what
    [AccrueInviteRebateForOrder] computes. *)
Definition RebateTx (oid : Z) (rebateAmount : float64) (db : pay_db) : pay_db :=
  if hasAudit oid "AFFILIATE_REBATE_APPLIED" db || hasAudit oid "AFFILIATE_REBATE_SKIPPED" db then db
  else if fle rebateAmount fzero
  then db <| db_audit := <[ (oid, "AFFILIATE_REBATE_SKIPPED") := "system" ]> (db_audit db) |>
  else db <| db_audit := <[ (oid, "AFFILIATE_REBATE_APPLIED") := "system" ]> (db_audit db) |>
          <| db_rebates := db_rebates db ++ [(oid, rebateAmount)] |>.

(** The queries of [ExpireTimedOutOrders] and [ReconcilePendingPaymentOrders]. *)
Definition listTimedOut (now : Z) (db : pay_db) : list PaymentOrder :=
  snd <$> filter (fun p => po_Status p.2 = OrderStatusPending /\ (po_ExpiresAt p.2 <= now)%Z)
    (map_to_list (db_orders db)).

Definition provider_family (family : string) (o : PaymentOrder) : bool :=
  let key := psStringValue (po_ProviderKey o) in
  (po_PaymentType o =s family) || HasPrefix (po_PaymentType o) (family +:+ "_")
  || (key =s family) || HasPrefix key (family +:+ "_").

Definition created_before (o1 o2 : PaymentOrder) : Prop := (po_CreatedAt o1 <= po_CreatedAt o2)%Z.

#[export] Instance created_before_dec o1 o2 : Decision (created_before o1 o2).
Proof. unfold created_before. apply _. Defined.

Definition pendingPaymentReconcileLimit : nat := 20.

Definition listPending (now : Z) (db : pay_db) : list PaymentOrder :=
  take pendingPaymentReconcileLimit (merge_sort created_before
    (snd <$> filter (fun p => po_Status p.2 = OrderStatusPending /\ (now < po_ExpiresAt p.2)%Z /\
       provider_family "wxpay" p.2 || provider_family "alipay" p.2 = true)
      (map_to_list (db_orders db)))).

(** ** Calls

    One database statement or transaction, clock reading or call to another
    service.  Replies are optional: [None] is an error. *)

Record provider := MkProvider { pv_key : string; pv_cancelable : bool }.

Inductive call : Type -> Type :=
  | Now : call Z
  | GetOrder (oid : Z) : call (option PaymentOrder)
  | FindOrder (outTradeNo : string) : call only
  | ListTimedOut (now : Z) : call (list PaymentOrder)
  | ListPending (now : Z) : call (list PaymentOrder)
  | CallInsertOrder (template : PaymentOrder) : call (option Z)
  | CallToPaid (oid now : Z) (paid : float64) (tradeNo : string) : call Z
  | CallToRecharging (oid : Z) : call Z
  | CallToCompleted (oid now : Z) : call Z
  | CallToFailed (oid : Z) (from : list string) (now : Z) (reason : string) : call Z
  | CallForRetry (oid : Z) : call Z
  | CallFromPending (oid : Z) (fs : string) : call Z
  | CallTradeNo (oid : Z) (tradeNo : string) : call Z
  | CallCreateFailed (oid : Z) : call Z
  | CallPaymentDetails (oid : Z) (tradeNo instanceID providerKey : string) : call Z
  | WriteAudit (oid : Z) (action operator : string) : call bool
  | HasAudit (oid : Z) (action : string) : call bool
  | GetCode (code : string) : call (option RedeemCode)
  | GetCodeByID (id : Z) : call (option RedeemCode)
  | CreateCodeRow (code : RedeemCode) : call (option Z)
  | CallRedeemTx (id userID : Z) (what : grant) : call bool
  | CallRebateTx (oid userID : Z) (base : float64) : call unit
  | AssignSubscription (oid userID groupID days : Z) : call unit
  (** answered by other services *)
  | InstanceKey (oid : Z) : call (option string)
  | RedeemRateLimited (userID : Z) : call bool
  | AcquireRedeemLock (code : string) : call bool
  | ReleaseRedeemLock (code : string) : call unit
  | GetUser (userID : Z) : call (float64 * Z)
  | GroupActive (groupID : Z) : call bool
  | OrderProvider (oid : Z) : call provider
  | QueryProvider (outTradeNo queryRef : string) : call QueryOrderResponse
  | CancelPayment (queryRef : string) : call unit
  | CreatePayment (oid : Z) : call (string * string * string).

Abbreviation prog := (Programs.prog call).

(** What the other services answer in one call, and what the amount columns of type
    [decimal(20,2)] make of a number.  (Values of redeem codes have eight digits, so that
    the amount of an order is stored as it is.) *)
Record services := MkServices {
  sv_instance_key : option string;
  sv_rate_limited : bool;
  sv_lock : bool;
  sv_user : float64 * Z;
  sv_group_active : bool;
  sv_rebate : float64;
  sv_provider : provider;
  sv_query : QueryOrderResponse;
  sv_payment : string * string * string;
  sv_numeric : float64 -> float64
}.

(** The row that is inserted for [template]. *)
Definition stored (numeric : float64 -> float64) (template : PaymentOrder) : PaymentOrder :=
  template <| po_Amount := numeric (po_Amount template) |>
    <| po_BonusAmount := numeric (po_BonusAmount template) |>
    <| po_PayAmount := numeric (po_PayAmount template) |>.

(** A call at time [clock]. *)
Definition exec (clock : Z) (sv : services) {R : Type} (c : call R) (db : pay_db) : R * pay_db :=
  match c in call R return R * pay_db with
  | Now => (clock, db)
  | GetOrder oid => (db_orders db !! oid, db)
  | FindOrder outTradeNo => (findByOutTradeNo outTradeNo db, db)
  | ListTimedOut now => (listTimedOut now db, db)
  | ListPending now => (listPending now db, db)
  | CallInsertOrder template => InsertOrder clock (stored (sv_numeric sv) template) db
  | CallToPaid oid now paid tradeNo => UpdateToPaid clock oid now (sv_numeric sv paid) tradeNo db
  | CallToRecharging oid => UpdateToRecharging clock oid db
  | CallToCompleted oid now => UpdateToCompleted clock oid now db
  | CallToFailed oid from now reason => UpdateToFailed clock oid from now reason db
  | CallForRetry oid => UpdateForRetry clock oid db
  | CallFromPending oid fs => UpdateFromPending clock oid fs db
  | CallTradeNo oid tradeNo => UpdateTradeNo clock oid tradeNo db
  | CallCreateFailed oid => UpdateCreateFailed clock oid db
  | CallPaymentDetails oid tradeNo instanceID providerKey =>
    UpdatePaymentDetails clock oid tradeNo instanceID providerKey db
  | WriteAudit oid action operator => InsertAudit oid action operator db
  | HasAudit oid action => (hasAudit oid action db, db)
  | GetCode code => (findCode code db, db)
  | GetCodeByID id => (db_codes db !! id, db)
  | CreateCodeRow code => InsertCode code db
  | CallRedeemTx id userID what => RedeemTx clock id userID what db
  | CallRebateTx oid _ _ => (tt, RebateTx oid (sv_rebate sv) db)
  | AssignSubscription oid userID groupID days =>
    (tt, db <| db_assigned := db_assigned db ++ [(oid, (userID, groupID, days))] |>)
  | InstanceKey _ => (sv_instance_key sv, db)
  | RedeemRateLimited _ => (sv_rate_limited sv, db)
  | AcquireRedeemLock _ => (sv_lock sv, db)
  | ReleaseRedeemLock _ => (tt, db)
  | GetUser _ => (sv_user sv, db)
  | GroupActive _ => (sv_group_active sv, db)
  | OrderProvider _ => (sv_provider sv, db)
  | QueryProvider _ _ => (sv_query sv, db)
  | CancelPayment _ => (tt, db)
  | CreatePayment _ => (sv_payment sv, db)
  end.

(** ** Errors *)

Inductive pay_error :=
  | ErrOrderNotFound
  | ErrOrderLookup
  | ErrProviderMismatch
  | ErrProviderMetadata
  | ErrInvalidPaidAmount
  | ErrAmountMismatch
  | ErrUpdate
  | ErrBeingProcessed
  | ErrNotFound
  | ErrForbidden
  | ErrInvalidOrderType
  | ErrInvalidStatus
  | ErrConflict
  | ErrInvalidOutTradeNo
  | ErrCreateRedeemCode
  | ErrRedeemRateLimited
  | ErrRedeemCodeLocked
  | ErrRedeemCodeNotFound
  | ErrRedeemCodeExpired
  | ErrRedeemCodeUsed
  | ErrRedeemCodeInvalid
  | ErrUnsupportedRedeemType
  | ErrRedeem
  | ErrRebate
  | ErrMarkCompleted
  | ErrGroupInactive
  | ErrAssignSubscription
  | ErrCreatePayment.

(** Go's [error]. *)
Abbreviation error := (option pay_error).

Definition audit (oid : Z) (action operator : string) {A : Type} (p : prog A) : prog A :=
  WriteAudit oid action operator ;* p.

(** A flag from a query: an error reads as false. *)
Definition yes (r : option bool) : bool := default false r.
Definition count (r : option Z) : Z := default 0%Z r.

(** ** Redeeming a code *)

Section Redeem.

(** What a code grants to a user with the given balance and concurrency: deductions
    stop at zero, a subscription without days gets thirty. *)
Definition grantOf (c : RedeemCode) (balance : float64) (concurrency : Z) : option grant :=
  if rc_Type_ c =s RedeemTypeBalance then
    let amount := rc_Value c in
    Some (GrantBalance (if flt amount fzero && flt (fadd balance amount) fzero
                        then fneg balance else amount))
  else if rc_Type_ c =s RedeemTypeConcurrency then
    let delta := float_to_int (rc_Value c) in
    Some (GrantConcurrency (if ((delta <? 0) && (concurrency + delta <? 0))%Z
                            then (- concurrency)%Z else delta))
  else if rc_Type_ c =s RedeemTypeSubscription then
    match rc_GroupID c with
    | Some group =>
      Some (GrantSubscription group (if (rc_ValidityDays c =? 0)%Z then 30%Z else rc_ValidityDays c))
    | None => None
    end
  else None.

(** The part of [Redeem] that holds the lock. *)
Definition redeemLocked (userID : Z) (code : string) : prog error :=
  let* found := GetCode code in
  match found with
  | None => Ret (Some ErrRedeem)
  | Some None => Ret (Some ErrRedeemCodeNotFound)
  | Some (Some redeemCode) =>
    let* now := Now in
    if IsExpiredAt redeemCode (default 0%Z now) then Ret (Some ErrRedeemCodeExpired) else
    let* now := Now in
    if negb (CanUse redeemCode (default 0%Z now)) then Ret (Some ErrRedeemCodeUsed) else
    if (rc_Type_ redeemCode =s RedeemTypeSubscription) && bool_decide (rc_GroupID redeemCode = None)
    then Ret (Some ErrRedeemCodeInvalid)
    else if negb ((rc_Type_ redeemCode =s RedeemTypeBalance)
                  || (rc_Type_ redeemCode =s RedeemTypeConcurrency)
                  || (rc_Type_ redeemCode =s RedeemTypeSubscription))
    then Ret (Some ErrUnsupportedRedeemType) else
    let* user := GetUser userID in
    match user with
    | None => Ret (Some ErrRedeem)
    | Some (balance, concurrency) =>
      match grantOf redeemCode balance concurrency with
      | None => Ret (Some ErrUnsupportedRedeemType)
      | Some what =>
        let* marked := CallRedeemTx (rc_ID redeemCode) userID what in
        match marked with
        | None => Ret (Some ErrRedeem)
        | Some false => Ret (Some ErrRedeemCodeUsed)
        | Some true =>
          let* again := GetCodeByID (rc_ID redeemCode) in
          match again with
          | Some (Some _) => Ret None
          | _ => Ret (Some ErrRedeem)
          end
        end
      end
    end
  end.

(** [Redeem]: errors of the rate limiter and of the lock do not stop it. *)
Definition Redeem (userID : Z) (code : string) : prog error :=
  let* limited := RedeemRateLimited userID in
  if yes limited then Ret (Some ErrRedeemRateLimited) else
  let* lock := AcquireRedeemLock code in
  if negb (default true lock) then Ret (Some ErrRedeemCodeLocked) else
  let! err := redeemLocked userID code in
  ReleaseRedeemLock code ;*
  Ret err.

(** [CreateCode]. *)
Definition CreateCode (code : RedeemCode) : prog error :=
  let code := code <| rc_Code := TrimSpace (rc_Code code) |> in
  if is_empty (rc_Code code) then Ret (Some ErrCreateRedeemCode) else
  let code := if is_empty (rc_Type_ code) then code <| rc_Type_ := RedeemTypeBalance |> else code in
  if negb (rc_Type_ code =s "invitation") && feq (rc_Value code) fzero
  then Ret (Some ErrCreateRedeemCode) else
  let code := if is_empty (rc_Status code) then code <| rc_Status := StatusUnused |> else code in
  let* now := Now in
  if IsExpiredAt code (default 0%Z now) then Ret (Some ErrCreateRedeemCode) else
  let* created := CreateCodeRow code in
  match created with
  | Some (Some _) => Ret None
  | _ => Ret (Some ErrCreateRedeemCode)
  end.
End Redeem.

(** ** Fulfilment *)

Section Fulfilment.
(** Tables of the [unicode] package, the provider registry, whether there is an
    affiliate service, and the texts of errors. *)
Variable unicode_upper : string -> string.
Variable unicode_fold : string -> string -> bool.
Variable registry : option (string -> string).
Variable affiliate : bool.
Variable message : pay_error -> string.

Definition markCompleted (o : PaymentOrder) (auditAction : string) : prog error :=
  let* now := Now in
  let* c := CallToCompleted (po_ID o) (default 0%Z now) in
  match c with
  | None => Ret (Some ErrMarkCompleted)
  | Some _ => audit (po_ID o) auditAction "system" (Ret None)
  end.

Definition markFailed (oid : Z) (cause : pay_error) : prog unit :=
  let* now := Now in
  let* c := CallToFailed oid [OrderStatusRecharging] (default 0%Z now) (message cause) in
  if (0 <? count c)%Z then audit oid "FULFILLMENT_FAILED" "system" (Ret tt) else Ret tt.

Definition applyAffiliateRebateForOrder (o : PaymentOrder) : prog error :=
  let baseAmount := affiliateRebateBaseAmount o in
  if fle baseAmount fzero then Ret None
  else if negb affiliate then Ret None
  else
    let* done := CallRebateTx (po_ID o) (po_UserID o) baseAmount in
    match done with
    | Some _ => Ret None
    | None => audit (po_ID o) "AFFILIATE_REBATE_FAILED" "system" (Ret (Some ErrRebate))
    end.

Inductive redeemAction := redeemActionCreate | redeemActionRedeem | redeemActionSkipCompleted.

(** [resolveRedeemAction]; an error of the lookup reads as no code. *)
Definition resolveRedeemAction (existing : option RedeemCode) : redeemAction :=
  match existing with
  | None => redeemActionCreate
  | Some c => if IsUsed c then redeemActionSkipCompleted else redeemActionRedeem
  end.

(** The end that the branches of [doBalance] share. *)
Definition finishBalance (o : PaymentOrder) : prog error :=
  let! err := applyAffiliateRebateForOrder o in
  match err with
  | Some e => Ret (Some e)
  | None => markCompleted o "RECHARGE_SUCCESS"
  end.

Definition redeemAndFinish (o : PaymentOrder) : prog error :=
  let! err := Redeem (po_UserID o) (po_RechargeCode o) in
  match err with
  | Some _ => Ret (Some ErrRedeem)
  | None => finishBalance o
  end.

Definition rechargeCodeOf (o : PaymentOrder) : RedeemCode :=
  zero_RedeemCode <| rc_Code := po_RechargeCode o |> <| rc_Type_ := RedeemTypeBalance |>
    <| rc_Value := po_Amount o |> <| rc_Status := StatusUnused |>.

Definition doBalance (o : PaymentOrder) : prog error :=
  let* existing := GetCode (po_RechargeCode o) in
  match resolveRedeemAction (default None existing) with
  | redeemActionSkipCompleted => finishBalance o
  | redeemActionCreate =>
    let! err := CreateCode (rechargeCodeOf o) in
    match err with
    | Some _ => Ret (Some ErrCreateRedeemCode)
    | None => redeemAndFinish o
    end
  | redeemActionRedeem => redeemAndFinish o
  end.

Definition doSub (o : PaymentOrder) (gid days : Z) : prog error :=
  let* active := GroupActive gid in
  if negb (yes active) then Ret (Some ErrGroupInactive) else
  let finish :=
    let! err := applyAffiliateRebateForOrder o in
    match err with
    | Some e => Ret (Some e)
    | None => markCompleted o "SUBSCRIPTION_SUCCESS"
    end in
  let* assigned := HasAudit (po_ID o) "SUBSCRIPTION_ASSIGNED" in
  let assign :=
    let* done := AssignSubscription (po_ID o) (po_UserID o) gid days in
    match done with
    | None => Ret (Some ErrAssignSubscription)
    | Some _ => audit (po_ID o) "SUBSCRIPTION_ASSIGNED" "system" finish
    end in
  if yes assigned then finish else
  let* succeeded := HasAudit (po_ID o) "SUBSCRIPTION_SUCCESS" in
  if yes succeeded then finish else assign.

(** The lock, the work, and the failure mark that both kinds of orders share. *)
Definition lockedFulfilment (oid : Z) (work : prog error) : prog error :=
  let* c := CallToRecharging oid in
  match c with
  | None => Ret (Some ErrUpdate)
  | Some n =>
    if (n =? 0)%Z then Ret None else
    let! err := work in
    match err with
    | Some e => let! _done := markFailed oid e in Ret (Some e)
    | None => Ret None
    end
  end.

Definition fulfillable (o : PaymentOrder) : error :=
  if psIsRefundStatus (po_Status o) then Some ErrInvalidStatus
  else if negb (po_Status o =s OrderStatusPaid) && negb (po_Status o =s OrderStatusFailed)
  then Some ErrInvalidStatus else None.

Definition ExecuteBalanceFulfillment (oid : Z) : prog error :=
  let* found := GetOrder oid in
  match found with
  | Some (Some o) =>
    if negb (po_OrderType o =s OrderTypeBalance) then Ret (Some ErrInvalidOrderType)
    else if po_Status o =s OrderStatusCompleted then Ret None
    else match fulfillable o with
    | Some e => Ret (Some e)
    | None => lockedFulfilment oid (doBalance o)
    end
  | _ => Ret (Some ErrNotFound)
  end.

Definition ExecuteSubscriptionFulfillment (oid : Z) : prog error :=
  let* found := GetOrder oid in
  match found with
  | Some (Some o) =>
    if po_Status o =s OrderStatusCompleted then Ret None
    else match fulfillable o with
    | Some e => Ret (Some e)
    | None =>
      match po_SubscriptionGroupID o, po_SubscriptionDays o with
      | Some gid, Some days => lockedFulfilment oid (doSub o gid days)
      | _, _ => Ret (Some ErrInvalidStatus)
      end
    end
  | _ => Ret (Some ErrNotFound)
  end.

Definition rejectUnsupportedOrderType (o : PaymentOrder) : prog unit :=
  let reason := "unsupported order type: " +:+ po_OrderType o in
  let* now := Now in
  let* c := CallToFailed (po_ID o) [OrderStatusPaid; OrderStatusRecharging] (default 0%Z now) reason in
  if (0 <? count c)%Z then audit (po_ID o) "FULFILLMENT_FAILED" "system" (Ret tt) else Ret tt.

Definition executeFulfillment (oid : Z) : prog error :=
  let* found := GetOrder oid in
  match found with
  | Some (Some o) =>
    if po_OrderType o =s OrderTypeSubscription then ExecuteSubscriptionFulfillment oid
    else if po_OrderType o =s OrderTypeBalance then ExecuteBalanceFulfillment oid
    else let! _done := rejectUnsupportedOrderType o in Ret None
  | _ => Ret (Some ErrOrderLookup)
  end.

(** ** Notifications *)

Definition alreadyProcessed (o : PaymentOrder) : prog error :=
  let* found := GetOrder (po_ID o) in
  match found with
  | Some (Some cur) =>
    if status_in [OrderStatusCompleted; OrderStatusRefunded] cur then Ret None
    else if status_in [OrderStatusFailed] cur then executeFulfillment (po_ID o)
    else if status_in [OrderStatusPaid; OrderStatusRecharging] cur then Ret (Some ErrBeingProcessed)
    else if status_in [OrderStatusExpired] cur
    then audit (po_ID o) "PAYMENT_AFTER_EXPIRY" "system" (Ret None)
    else Ret None
  | _ => Ret None
  end.

Definition toPaid (o : PaymentOrder) (tradeNo : string) (paid : float64) (pk : string) : prog error :=
  let* now := Now in
  let* c := CallToPaid (po_ID o) (default 0%Z now) paid tradeNo in
  match c with
  | None => Ret (Some ErrUpdate)
  | Some n =>
    if (n =? 0)%Z then alreadyProcessed o else
    let paid := audit (po_ID o) "ORDER_PAID" pk (executeFulfillment (po_ID o)) in
    if status_in [OrderStatusCancelled; OrderStatusExpired] o
    then audit (po_ID o) "ORDER_RECOVERED" pk paid else paid
  end.

Definition confirmPayment (oid : Z) (tradeNo : string) (paid : float64) (pk : string)
    (metadata : gmap string string) : prog error :=
  let* found := GetOrder oid in
  match found with
  | None => Ret (Some ErrOrderLookup)
  | Some None => Ret (Some ErrOrderNotFound)
  | Some (Some o) =>
    let* inst := InstanceKey oid in
    let instanceProviderKey := default "" (default None inst) in
    let expectedProviderKey := expectedNotificationProviderKeyForOrder registry o instanceProviderKey in
    if negb (is_empty expectedProviderKey) && negb (is_empty (TrimSpace pk))
       && negb (EqualFold unicode_fold expectedProviderKey (TrimSpace pk))
    then audit (po_ID o) "PAYMENT_PROVIDER_MISMATCH" pk (Ret (Some ErrProviderMismatch))
    else if negb (validateProviderSnapshotMetadata unicode_upper unicode_fold o pk metadata)
    then audit (po_ID o) "PAYMENT_PROVIDER_METADATA_MISMATCH" pk (Ret (Some ErrProviderMetadata))
    else if negb (isValidProviderAmount paid)
    then audit (po_ID o) "PAYMENT_INVALID_AMOUNT" pk (Ret (Some ErrInvalidPaidAmount))
    else if amountMismatch unicode_upper paid o
    then audit (po_ID o) "PAYMENT_AMOUNT_MISMATCH" pk (Ret (Some ErrAmountMismatch))
    else toPaid o tradeNo paid pk
  end.

Definition HandlePaymentNotification (n : PaymentNotification) (pk : string) : prog error :=
  if negb (pn_Status n =s NotificationStatusSuccess) then Ret None else
  let* found := FindOrder (pn_OrderID n) in
  match found with
  | None | Some NotSingular => Ret (Some ErrOrderLookup)
  | Some (Found order) => confirmPayment (po_ID order) (pn_TradeNo n) (pn_Amount n) pk (pn_Metadata n)
  | Some NotFound =>
    match parseLegacyPaymentOrderID (pn_OrderID n) with
    | Some oid => confirmPayment oid (pn_TradeNo n) (pn_Amount n) pk (pn_Metadata n)
    | None => Ret (Some ErrOrderNotFound)
    end
  end.

Definition RetryFulfillment (oid : Z) : prog error :=
  let* found := GetOrder oid in
  match found with
  | Some (Some o) =>
    if negb (isSupportedPaymentOrderType (po_OrderType o)) then Ret (Some ErrInvalidOrderType)
    else if bool_decide (po_PaidAt o = None) then Ret (Some ErrInvalidStatus)
    else if psIsRefundStatus (po_Status o) then Ret (Some ErrInvalidStatus)
    else if po_Status o =s OrderStatusRecharging then Ret (Some ErrConflict)
    else if po_Status o =s OrderStatusCompleted then Ret (Some ErrInvalidStatus)
    else if negb (po_Status o =s OrderStatusFailed) && negb (po_Status o =s OrderStatusPaid)
    then Ret (Some ErrInvalidStatus) else
    let* c := CallForRetry oid in
    match c with
    | None => Ret (Some ErrUpdate)
    | Some _ => audit oid "RECHARGE_RETRY" "admin" (executeFulfillment oid)
    end
  | _ => Ret (Some ErrNotFound)
  end.

(** ** Cancellation, expiry, reconciliation *)

Inductive paid_result := AlreadyPaid | Cancelled | NoResult.

(** [requeryPaidOrderOnce]. *)
Definition requeryPaidOrderOnce (outTradeNo queryRef : string) : prog (option QueryOrderResponse) :=
  if is_empty (TrimSpace queryRef) then Ret None else
  let* resp := QueryProvider outTradeNo queryRef in
  match resp with
  | None => Ret None
  | Some resp =>
    if (qr_Status resp =s ProviderStatusPaid) && isValidProviderAmount (qr_Amount resp)
    then Ret (Some resp) else Ret None
  end.

(** The part of [checkPaidWithOptions] for a paid order with a valid amount. *)
Definition acceptPaid (o : PaymentOrder) (pkey queryRef : string) (resp : QueryOrderResponse)
    : prog paid_result :=
  let notify tradeNo :=
    let! _err := HandlePaymentNotification
      (MkPaymentNotification tradeNo (po_OutTradeNo o) (qr_Amount resp) ProviderStatusSuccess
        (qr_Metadata resp)) pkey in
    Ret AlreadyPaid in
  let upstreamTradeNo := TrimSpace (qr_TradeNo resp) in
  if paymentOrderShouldPersistUpstreamTradeNo unicode_fold queryRef upstreamTradeNo (po_PaymentTradeNo o)
  then CallTradeNo (po_ID o) upstreamTradeNo ;* notify upstreamTradeNo
  else notify (po_PaymentTradeNo o).

Definition checkPaidWithOptions (o : PaymentOrder) (cancelIfUnpaid : bool) : prog paid_result :=
  let* prov := OrderProvider (po_ID o) in
  match prov with
  | None => Ret NoResult
  | Some prov =>
    let queryRef := paymentOrderQueryReference o (pv_key prov) in
    if is_empty queryRef then Ret NoResult else
    let* resp := QueryProvider (po_OutTradeNo o) queryRef in
    match resp with
    | None => Ret NoResult
    | Some resp =>
      if qr_Status resp =s ProviderStatusPaid then
        if isValidProviderAmount (qr_Amount resp) then acceptPaid o (pv_key prov) queryRef resp
        else
          audit (po_ID o) "PAYMENT_INVALID_AMOUNT" (pv_key prov) (
          let! retried := requeryPaidOrderOnce (po_OutTradeNo o) queryRef in
          match retried with
          | Some resp => acceptPaid o (pv_key prov) queryRef resp
          | None => Ret NoResult
          end)
      else if cancelIfUnpaid && pv_cancelable prov then CancelPayment queryRef ;* Ret NoResult
      else Ret NoResult
    end
  end.

Definition cancelUpdate (o : PaymentOrder) (fs op : string) : prog (paid_result * error) :=
  let* c := CallFromPending (po_ID o) fs in
  match c with
  | None => Ret (NoResult, Some ErrUpdate)
  | Some n =>
    if (0 <? n)%Z
    then audit (po_ID o) (if fs =s OrderStatusExpired then "ORDER_EXPIRED" else "ORDER_CANCELLED") op
           (Ret (Cancelled, None))
    else Ret (Cancelled, None)
  end.

Definition cancelCore (o : PaymentOrder) (fs op : string) : prog (paid_result * error) :=
  if negb (is_empty (po_PaymentTradeNo o)) || negb (is_empty (po_PaymentType o)) then
    let! paid := checkPaidWithOptions o true in
    match paid with
    | AlreadyPaid => Ret (AlreadyPaid, None)
    | _ => cancelUpdate o fs op
    end
  else cancelUpdate o fs op.

Definition CancelOrder (orderID userID : Z) : prog (paid_result * error) :=
  let* found := GetOrder orderID in
  match found with
  | Some (Some o) =>
    if negb (po_UserID o =? userID)%Z then Ret (NoResult, Some ErrForbidden)
    else if negb (po_Status o =s OrderStatusPending) then Ret (NoResult, Some ErrInvalidStatus)
    else cancelCore o OrderStatusCancelled ("user:" +:+ pretty userID)
  | _ => Ret (NoResult, Some ErrNotFound)
  end.

Definition AdminCancelOrder (orderID : Z) : prog (paid_result * error) :=
  let* found := GetOrder orderID in
  match found with
  | Some (Some o) =>
    if negb (po_Status o =s OrderStatusPending) then Ret (NoResult, Some ErrInvalidStatus)
    else cancelCore o OrderStatusCancelled "admin"
  | _ => Ret (NoResult, Some ErrNotFound)
  end.

Fixpoint expireEach (orders : list PaymentOrder) (n : Z) : prog Z :=
  match orders with
  | [] => Ret n
  | o :: orders' =>
    let! outcome := cancelCore o OrderStatusExpired "system" in
    expireEach orders' (match outcome.1 with Cancelled => (n + 1)%Z | _ => n end)
  end.

Definition ExpireTimedOutOrders : prog (option Z) :=
  let* now := Now in
  let* orders := ListTimedOut (default 0%Z now) in
  match orders with
  | None => Ret None
  | Some orders => let! n := expireEach orders 0 in Ret (Some n)
  end.

Definition VerifyOrderByOutTradeNo (outTradeNo : string) (userID : Z)
    : prog (option PaymentOrder * error) :=
  match normalizeOrderLookupOutTradeNo outTradeNo with
  | None => Ret (None, Some ErrInvalidOutTradeNo)
  | Some outTradeNo =>
    let* found := FindOrder outTradeNo in
    match found with
    | Some (Found o) =>
      if negb (po_UserID o =? userID)%Z then Ret (None, Some ErrForbidden) else
      if status_in [OrderStatusPending; OrderStatusExpired] o then
        let! result := checkPaidWithOptions o false in
        match result with
        | AlreadyPaid =>
          let* again := GetOrder (po_ID o) in
          match again with
          | Some (Some o) => Ret (Some o, None)
          | _ => Ret (None, Some ErrOrderLookup)
          end
        | _ => Ret (Some o, None)
        end
      else Ret (Some o, None)
    | _ => Ret (None, Some ErrNotFound)
    end
  end.

Fixpoint reconcileEach (orders : list PaymentOrder) (recovered : Z) : prog Z :=
  match orders with
  | [] => Ret recovered
  | o :: orders' =>
    let! result := checkPaidWithOptions o false in
    reconcileEach orders' (match result with AlreadyPaid => (recovered + 1)%Z | _ => recovered end)
  end.

Definition ReconcilePendingPaymentOrders : prog (option Z) :=
  let* now := Now in
  let* orders := ListPending (default 0%Z now) in
  match orders with
  | None => Ret None
  | Some orders => let! n := reconcileEach orders 0 in Ret (Some n)
  end.

(** The end of [CreateOrder]: the transaction, the call of the provider, and the mark
    when that fails. *)
Definition invokeProvider (oid userID : Z) : prog error :=
  let* pr := CreatePayment oid in
  match pr with
  | None => Ret (Some ErrCreatePayment)
  | Some (tradeNo, instanceID, providerKey) =>
    let* c := CallPaymentDetails oid tradeNo instanceID providerKey in
    match c with
    | None => Ret (Some ErrUpdate)
    | Some n => if (n =? 0)%Z then Ret (Some ErrUpdate) else
                audit oid "ORDER_CREATED" ("user:" +:+ pretty userID) (Ret None)
    end
  end.

Definition placeOrder (template : PaymentOrder) : prog error :=
  let* created := CallInsertOrder template in
  match created with
  | Some (Some oid) =>
    let! err := invokeProvider oid (po_UserID template) in
    match err with
    | Some e => CallCreateFailed oid ;* Ret (Some e)
    | None => Ret None
    end
  | _ => Ret (Some ErrUpdate)
  end.
End Fulfilment.
