(* ===== verification/PaymentOrdersProofs.v ===== *)
(** * Payment orders: proofs

    Any number of notifications, retries, cancellations, expiry and
    reconciliation runs, redemptions and new orders, interleaved call by call
    and with calls that fail before or after their effect.  Over all of them,
    an order is credited at most once, and only after a provider has confirmed
    a payment of its price; without faults a confirmed order is completed; and
    a subscription order can be fulfilled twice. *)

From Stdlib Require Import Ascii.
From stdpp Require Import sorting pretty.
From S2P Require Import Prelude GoStrings GoStringsFacts GoFloat Programs PaymentOrders.

(** ** Worlds *)

(** [pw_placed] has the orders as they were placed; [pw_evidence] what providers said
    about payments: order number and amount of every accepted notification, and
    of every answer that an order is paid. *)
Record pay_world := MkPayWorld {
  pw_clock : Z;
  pw_db : pay_db;
  pw_threads : list (prog unit);
  pw_placed : gmap Z PaymentOrder;
  pw_evidence : list (string * float64)
}.

#[export] Instance eta_pay_world : Eta pay_world := fun r =>
  MkPayWorld (pw_clock r) (pw_db r) (pw_threads r) (pw_placed r) (pw_evidence r).

Definition initial_pay (t0 : Z) : pay_world := MkPayWorld t0 empty_pay_db [] ∅ [].

Inductive pay_request :=
  | ReqNotify (n : PaymentNotification) (pk : string)
  | ReqRetry (oid : Z)
  | ReqCancel (oid uid : Z)
  | ReqAdminCancel (oid : Z)
  | ReqExpire
  | ReqVerify (outTradeNo : string) (uid : Z)
  | ReqReconcile
  | ReqRedeem (uid : Z) (code : string)
  | ReqPlace (template : PaymentOrder).

Definition fallible {R : Type} (c : call R) : bool := match c with Now => false | _ => true end.

(** What a reply says about payments. *)
Definition evidence_of {R : Type} (c : call R) : option R -> list (string * float64) :=
  match c in call R return option R -> list (string * float64) with
  | QueryProvider outTradeNo _ => fun r =>
    match r with
    | Some resp => if qr_Status resp =s ProviderStatusPaid then [(outTradeNo, qr_Amount resp)] else []
    | None => []
    end
  | _ => fun _ => []
  end.

Definition request_evidence (rq : pay_request) : list (string * float64) :=
  match rq with
  | ReqNotify n _ =>
    if pn_Status n =s NotificationStatusSuccess then [(pn_OrderID n, pn_Amount n)] else []
  | _ => []
  end.

(** The world after a call of thread [i] with continuation [k]. *)
Definition after_call (w : pay_world) (i : nat) (f : fault) (sv : services) {R : Type} (c : call R)
    (k : option R -> prog unit) : pay_world :=
  let r := perform (@exec (pw_clock w) sv) f c (pw_db w) in
  w <| pw_db := r.2 |> <| pw_threads := <[ i := k r.1 ]> (pw_threads w) |>
    <| pw_placed := pw_placed w ∪ db_orders r.2 |>
    <| pw_evidence := pw_evidence w ++ evidence_of c r.1 |>.

Section Payments.
Context (unicode_upper : string -> string) (unicode_fold : string -> string -> bool).
Context (registry : option (string -> string)) (affiliate : bool) (message : pay_error -> string).

Definition start (rq : pay_request) : prog unit :=
  match rq with
  | ReqNotify n pk => let! _r := HandlePaymentNotification unicode_upper unicode_fold registry affiliate message n pk in Ret tt
  | ReqRetry oid => let! _r := RetryFulfillment affiliate message oid in Ret tt
  | ReqCancel oid uid => let! _r := CancelOrder unicode_upper unicode_fold registry affiliate message oid uid in Ret tt
  | ReqAdminCancel oid => let! _r := AdminCancelOrder unicode_upper unicode_fold registry affiliate message oid in Ret tt
  | ReqExpire => let! _r := ExpireTimedOutOrders unicode_upper unicode_fold registry affiliate message in Ret tt
  | ReqVerify no uid => let! _r := VerifyOrderByOutTradeNo unicode_upper unicode_fold registry affiliate message no uid in Ret tt
  | ReqReconcile => let! _r := ReconcilePendingPaymentOrders unicode_upper unicode_fold registry affiliate message in Ret tt
  | ReqRedeem uid code => let! _r := Redeem uid code in Ret tt
  | ReqPlace template => let! _r := placeOrder template in Ret tt
  end%prog.

Inductive pay_step : pay_world -> pay_world -> Prop :=
  | step_tick w t : (pw_clock w <= t)%Z -> pay_step w (w <| pw_clock := t |>)
  | step_start w rq :
    pay_step w (w <| pw_threads := pw_threads w ++ [start rq] |>
                  <| pw_evidence := pw_evidence w ++ request_evidence rq |>)
  | step_call w i f sv R (c : call R) k :
    pw_threads w !! i = Some (Do c k) -> (f = Fine \/ fallible c = true) ->
    pay_step w (after_call w i f sv c k).

(** ** What is known about orders and codes *)

(** The provider's order number [num] stands for the order. *)
Definition addresses (num : string) (o : PaymentOrder) : Prop :=
  po_OutTradeNo o = num \/ parseLegacyPaymentOrderID num = Some (po_ID o).

(** A provider reported a payment of the order as it was placed. *)
Definition pays (e : string * float64) (o : PaymentOrder) : Prop :=
  addresses e.1 o /\ isValidProviderAmount e.2 = true /\ amountMismatch unicode_upper e.2 o = false.

Definition paid_for (w : pay_world) (oid : Z) : Prop :=
  exists o e, pw_placed w !! oid = Some o /\ e ∈ pw_evidence w /\ pays e o.

(** Columns that no statement writes once the order is placed. *)
Definition fixed_part (o : PaymentOrder) :=
  (po_ID o, po_UserID o, po_Amount o, po_RechargeCode o, po_OutTradeNo o, po_ProviderSnapshot o,
   po_OrderType o).

(** What is true for good of a row read from the table. *)
Definition row_known (w : pay_world) (o : PaymentOrder) : Prop :=
  exists o0, pw_placed w !! po_ID o = Some o0 /\ fixed_part o = fixed_part o0 /\
    (po_PayAmount o = po_PayAmount o0 \/ paid_for w (po_ID o)) /\
    (po_PaidAt o <> None -> paid_for w (po_ID o)).

Definition code_part (c : RedeemCode) :=
  (rc_ID c, rc_Code c, rc_Type_ c, rc_Value c, rc_GroupID c, rc_ValidityDays c).

Definition code_known (w : pay_world) (c : RedeemCode) : Prop :=
  exists c', db_codes (pw_db w) !! rc_ID c = Some c' /\ code_part c = code_part c'.

(** The code of a paid order. *)
Definition order_code (w : pay_world) (c : RedeemCode) : Prop :=
  exists oid o, pw_placed w !! oid = Some o /\ rc_Code c = po_RechargeCode o /\
    rc_Type_ c = RedeemTypeBalance /\ rc_Value c = po_Amount o /\ paid_for w oid.

Record extends (w w' : pay_world) : Prop := {
  ext_placed : forall oid o, pw_placed w !! oid = Some o -> pw_placed w' !! oid = Some o;
  ext_evidence : forall e, e ∈ pw_evidence w -> e ∈ pw_evidence w';
  ext_codes : forall c, code_known w c -> code_known w' c
}.

Lemma extends_refl w : extends w w.
Proof. by split. Qed.

Lemma extends_trans w1 w2 w3 : extends w1 w2 -> extends w2 w3 -> extends w1 w3.
Proof. intros [] []. split; auto. Qed.

Lemma paid_for_extends w w' oid : extends w w' -> paid_for w oid -> paid_for w' oid.
Proof. intros [] (o & e & H1 & H2 & H3). exists o, e. auto. Qed.

Lemma row_known_extends w w' o : extends w w' -> row_known w o -> row_known w' o.
Proof.
  intros E (o0 & H1 & H2 & H3 & H4). exists o0.
  split_and!; [by apply E|done| |eauto using paid_for_extends].
  destruct H3; eauto using paid_for_extends.
Qed.

Lemma order_code_extends w w' c : extends w w' -> order_code w c -> order_code w' c.
Proof.
  intros E (oid & o & H1 & H2 & H3 & H4 & H5). exists oid, o.
  split_and!; [by apply E|done|done|done|by eapply paid_for_extends].
Qed.

(** ** Invariant *)

Definition used_grant (codes : gmap Z RedeemCode) (g : granted) : Prop :=
  exists c balance concurrency, codes !! gr_code g = Some c /\ rc_Status c = StatusUsed /\
    grantOf c balance concurrency = Some (gr_what g).

Record pay_inv (w : pay_world) : Prop := {
  inv_orders : forall oid o, db_orders (pw_db w) !! oid = Some o -> po_ID o = oid /\ row_known w o;
  inv_placed : forall oid o, pw_placed w !! oid = Some o ->
    po_ID o = oid /\ (0 < oid < db_next_order (pw_db w))%Z /\
    exists nanos, po_RechargeCode o = rechargeCode oid nanos;
  inv_next : (0 < db_next_order (pw_db w))%Z;
  inv_codes : forall id c, db_codes (pw_db w) !! id = Some c ->
    rc_ID c = id /\ (id < db_next_code (pw_db w))%Z /\ order_code w c;
  inv_unique : forall id1 id2 c1 c2, db_codes (pw_db w) !! id1 = Some c1 ->
    db_codes (pw_db w) !! id2 = Some c2 -> rc_Code c1 = rc_Code c2 -> id1 = id2;
  inv_grants : NoDup (gr_code <$> db_grants (pw_db w)) /\
    Forall (used_grant (db_codes (pw_db w))) (db_grants (pw_db w));
  inv_rebates : NoDup (db_rebates (pw_db w)).*1 /\
    Forall (fun p => is_Some (db_audit (pw_db w) !! (p.1, "AFFILIATE_REBATE_APPLIED")))
      (db_rebates (pw_db w))
}.

(** What a call demands of its caller. *)
Definition call_pre {R : Type} (c : call R) (w : pay_world) : Prop :=
  match c with
  | CallToPaid oid _ _ _ => paid_for w oid
  | CreateCodeRow code => order_code w code
  | CallRedeemTx id _ what =>
    exists c b n, rc_ID c = id /\ code_known w c /\ grantOf c b n = Some what
  | _ => True
  end.

(** What its caller knows afterwards. *)
Definition call_post {R : Type} (c : call R) : option R -> pay_world -> Prop :=
  match c in call R return option R -> pay_world -> Prop with
  | GetOrder oid => fun r w =>
    match r with Some (Some o) => po_ID o = oid /\ row_known w o | _ => True end
  | FindOrder outTradeNo => fun r w =>
    match r with Some (Found o) => po_OutTradeNo o = outTradeNo /\ row_known w o | _ => True end
  | ListTimedOut _ => fun r w => match r with Some l => Forall (row_known w) l | None => True end
  | ListPending _ => fun r w => match r with Some l => Forall (row_known w) l | None => True end
  | GetCode code => fun r w =>
    match r with Some (Some c) => rc_Code c = code /\ code_known w c | _ => True end
  | QueryProvider outTradeNo _ => fun r w =>
    match r with
    | Some resp => qr_Status resp = ProviderStatusPaid -> (outTradeNo, qr_Amount resp) ∈ pw_evidence w
    | None => True
    end
  | _ => fun _ _ => True
  end.

Lemma call_post_none {R : Type} (c : call R) w : call_post c None w.
Proof. by destruct c. Qed.

(** ** Programs that respect the demands, whatever happens between their calls *)

Fixpoint wp {A : Type} (p : prog A) (Q : A -> pay_world -> Prop) (w : pay_world) : Prop :=
  match p with
  | Ret a => Q a w
  | Do c k => forall w1, extends w w1 -> pay_inv w1 ->
    call_pre c w1 /\ forall r w2, extends w1 w2 -> call_post c r w2 -> wp (k r) Q w2
  end.

Lemma wp_bind {A B : Type} (p : prog A) (f : A -> prog B) Q w :
  wp p (fun a w => wp (f a) Q w) w -> wp (bind p f) Q w.
Proof.
  revert w. induction p as [a|R c k IH]; intros w H; [exact H|]. cbn. intros w1 E1 I1.
  destruct (H w1 E1 I1) as [H1 H2]. split; [done|]. intros r w2 E2 P2. apply IH. by apply H2.
Qed.

Lemma wp_mono {A : Type} (p : prog A) (Q Q' : A -> pay_world -> Prop) w :
  (forall a w', extends w w' -> Q a w' -> Q' a w') -> wp p Q w -> wp p Q' w.
Proof.
  revert w. induction p as [a|R c k IH]; intros w HQ H; [apply HQ; [apply extends_refl|exact H]|].
  cbn in *. intros w1 E1 I1. destruct (H w1 E1 I1) as [H1 H2]. split; [done|]. intros r w2 E2 P2.
  apply IH; [|by apply H2]. intros a w' E' HQa. apply HQ; [|done]. eauto using extends_trans.
Qed.

Definition stable {A : Type} (Q : A -> pay_world -> Prop) : Prop :=
  forall a w w', extends w w' -> Q a w -> Q a w'.

Lemma wp_extends {A : Type} (p : prog A) (Q : A -> pay_world -> Prop) w w' :
  stable Q -> extends w w' -> wp p Q w -> wp p Q w'.
Proof.
  intros HQ E H. destruct p as [a|R c k]; [by eapply HQ|]. cbn in *. intros w1 E1 I1.
  apply H; [|done]. eauto using extends_trans.
Qed.

(** Any result will do. *)
Definition anything {A : Type} (_ : A) (_ : pay_world) : Prop := True.

Definition safe {A : Type} (p : prog A) (w : pay_world) : Prop := wp p anything w.

Lemma stable_anything {A : Type} : stable (@anything A).
Proof. done. Qed.

Lemma safe_ret {A : Type} (a : A) w : safe (Ret a) w.
Proof. done. Qed.

Lemma safe_do {A R : Type} (c : call R) (k : option R -> prog A) w :
  (forall w1, extends w w1 -> pay_inv w1 -> call_pre c w1) ->
  (forall r w', extends w w' -> call_post c r w' -> safe (k r) w') ->
  safe (Do c k) w.
Proof.
  intros H1 H2 w1 E1 I1. split; [by apply H1|]. intros r w2 E2 P2. apply H2; [|done].
  eauto using extends_trans.
Qed.

Lemma safe_bind {A B : Type} (p : prog A) (f : A -> prog B) w :
  safe p w -> (forall a w', extends w w' -> safe (f a) w') -> safe (bind p f) w.
Proof. intros H1 H2. apply wp_bind. eapply wp_mono; [|exact H1]. intros a w' E _. by apply H2. Qed.

(** ** The handlers *)

Create HintDb payments.
Hint Resolve extends_refl : payments.
Hint Resolve paid_for_extends row_known_extends order_code_extends ext_codes ext_evidence : payments.
Hint Resolve extends_trans | 5 : payments.

(** Walk through a program; calls without demands are passed. *)
Ltac safe_walk :=
  repeat match goal with
  | |- safe (Ret _) _ => exact I
  | |- safe (audit _ _ _ _) _ => unfold audit
  | |- safe (let _ := _ in _) _ => cbv zeta
  | |- safe (if ?b then _ else _) _ => destruct b eqn:?
  | |- safe (Do (CallToPaid _ _ _ _) _) _ => fail 1
  | |- safe (Do (CreateCodeRow _) _) _ => fail 1
  | |- safe (Do (CallRedeemTx _ _ _) _) _ => fail 1
  | |- safe (Do _ _) _ => apply safe_do; [intros ? ? ?; exact I|intros ? ? ? ?]
  | |- safe (match ?x with _ => _ end) _ => destruct x eqn:?
  end.

Lemma redeemLocked_safe uid code w : safe (redeemLocked uid code) w.
Proof.
  unfold redeemLocked. apply safe_do; [intros; exact I|]. intros [[c|]|] w1 E1 P1; [|exact I|exact I].
  destruct P1 as [_ Hc]. safe_walk. apply safe_do; [|intros; safe_walk].
  intros w5 E5 I5. cbn. exists c. do 2 eexists. split_and!; [done| |done].
  repeat match goal with E : extends _ _ |- _ => apply (ext_codes _ _ E) in Hc; clear E end. done.
Qed.

Lemma Redeem_safe uid code w : safe (Redeem uid code) w.
Proof.
  unfold Redeem. safe_walk. apply safe_bind; [apply redeemLocked_safe|]. intros. safe_walk.
Qed.

Lemma rechargeCode_trim oid nanos : (0 < oid)%Z -> TrimSpace (rechargeCode oid nanos) = rechargeCode oid nanos.
Proof.
  intros H. apply TrimSpace_printable. unfold rechargeCode. rewrite !str_forall_app. cbn.
  assert (forall z, (0 <= z)%Z -> str_forall printable (pretty z) = true) as Hp.
  { intros z Hz. eapply str_forall_impl; [|by apply pretty_digits]. unfold is_digit, printable.
    intros c Hc. reflect_bool. apply andb_true_iff. rewrite !Z.leb_le. lia. }
  rewrite Hp by lia. rewrite Hp by (apply Z.mod_pos_bound; lia). done.
Qed.

Lemma rechargeCode_inj oid1 oid2 n1 n2 : (0 < oid1)%Z -> (0 < oid2)%Z ->
  rechargeCode oid1 n1 = rechargeCode oid2 n2 -> oid1 = oid2.
Proof.
  unfold rechargeCode. intros H1 H2 H. injection H as H. apply digits_split in H as [H _];
    [by apply (inj pretty)|done|apply pretty_digits; lia|apply pretty_digits; lia].
Qed.

(** The row of a paid order. *)
Definition paid_row (w : pay_world) (o : PaymentOrder) : Prop :=
  row_known w o /\ paid_for w (po_ID o).

Lemma paid_row_extends w w' o : extends w w' -> paid_row w o -> paid_row w' o.
Proof. intros E [H1 H2]. split; eauto with payments. Qed.

Hint Resolve paid_row_extends : payments.

Lemma recharge_order_code w o : pay_inv w -> paid_row w o ->
  order_code w (rechargeCodeOf o <| rc_Code := TrimSpace (po_RechargeCode o) |>).
Proof.
  intros Hi [(o0 & H1 & H2 & _) Hp]. unfold fixed_part in H2. injection H2 as _ _ Ha Hr _ _ _.
  destruct (inv_placed w Hi _ _ H1) as (_ & Hid & nanos & Hn).
  exists (po_ID o), o0. split_and!; [done| |done|done|done]. cbn. rewrite Hr, Hn. apply rechargeCode_trim. lia.
Qed.

Lemma CreateCode_safe o w : paid_row w o -> safe (CreateCode (rechargeCodeOf o)) w.
Proof.
  intros Hp. unfold CreateCode. cbv zeta. cbn [rc_Type_ rc_Status rc_Value rc_Code rechargeCodeOf].
  destruct (is_empty (rc_Code _)); [exact I|].
  destruct (is_empty (rc_Type_ _)) eqn:Et; [done|].
  destruct (_ && _); [exact I|]. destruct (is_empty (rc_Status _)) eqn:Es; [done|].
  safe_walk. apply safe_do; [|intros; safe_walk]. intros w2 E2 I2.
  apply (recharge_order_code w2 o I2). eauto with payments.
Qed.

Lemma finishBalance_safe o w : safe (finishBalance affiliate o) w.
Proof.
  unfold finishBalance, applyAffiliateRebateForOrder, markCompleted.
  apply safe_bind; [safe_walk|]. intros e w1 E1. safe_walk.
Qed.

Lemma redeemAndFinish_safe o w : safe (redeemAndFinish affiliate o) w.
Proof.
  unfold redeemAndFinish. apply safe_bind; [apply Redeem_safe|]. intros e w1 E1.
  destruct e; [exact I|]. apply finishBalance_safe.
Qed.

Lemma doBalance_safe o w : paid_row w o -> safe (doBalance affiliate o) w.
Proof.
  intros Hp. unfold doBalance. safe_walk.
  - apply safe_bind; [apply CreateCode_safe; eauto with payments|]. intros e w2 E2.
    destruct e; [exact I|]. apply redeemAndFinish_safe.
  - apply redeemAndFinish_safe.
  - apply finishBalance_safe.
Qed.

Lemma doSub_safe o gid days w : safe (doSub affiliate o gid days) w.
Proof.
  assert (Hf : forall w, safe (let! err := applyAffiliateRebateForOrder affiliate o in
    match err with Some e => Ret (Some e) | None => markCompleted o "SUBSCRIPTION_SUCCESS" end)%prog w).
  { intros w1. unfold applyAffiliateRebateForOrder, markCompleted. apply safe_bind; [safe_walk|].
    intros e w2 E2. safe_walk. }
  unfold doSub. safe_walk; apply Hf.
Qed.

Lemma lockedFulfilment_safe oid p w :
  (forall w', extends w w' -> safe p w') -> safe (lockedFulfilment message oid p) w.
Proof.
  intros H. unfold lockedFulfilment, markFailed. safe_walk. apply safe_bind; [apply H; eauto with payments|].
  intros e w2 E2. destruct e; [|exact I]. apply safe_bind; [safe_walk|]. intros. exact I.
Qed.

Lemma ExecuteBalanceFulfillment_safe oid w :
  paid_for w oid -> safe (ExecuteBalanceFulfillment affiliate message oid) w.
Proof.
  intros Hp. unfold ExecuteBalanceFulfillment. apply safe_do; [intros; exact I|].
  intros [[o|]|] w1 E1 P1; [|exact I|exact I]. destruct P1 as [<- Hr]. safe_walk.
  apply lockedFulfilment_safe. intros w2 E2. apply doBalance_safe. split; eauto with payments.
Qed.

Lemma executeFulfillment_safe oid w : paid_for w oid -> safe (executeFulfillment affiliate message oid) w.
Proof.
  intros Hp. unfold executeFulfillment. safe_walk.
  - unfold ExecuteSubscriptionFulfillment. safe_walk. apply lockedFulfilment_safe. intros. apply doSub_safe.
  - apply ExecuteBalanceFulfillment_safe. eauto with payments.
  - unfold rejectUnsupportedOrderType. apply safe_bind; [safe_walk|]. intros. exact I.
Qed.

Lemma alreadyProcessed_safe o w : paid_for w (po_ID o) -> safe (alreadyProcessed affiliate message o) w.
Proof. intros Hp. unfold alreadyProcessed. safe_walk. apply executeFulfillment_safe. eauto with payments. Qed.

Lemma toPaid_safe o tradeNo paid pk w :
  paid_for w (po_ID o) -> safe (toPaid affiliate message o tradeNo paid pk) w.
Proof.
  intros Hp. unfold toPaid. safe_walk. apply safe_do; [intros; cbn; eauto with payments|].
  intros r2 w2 E2 _. safe_walk.
  - apply alreadyProcessed_safe. eauto with payments.
  - apply executeFulfillment_safe. eauto 6 with payments.
  - apply executeFulfillment_safe. eauto 6 with payments.
Qed.

(** The payment that a caller of [confirmPayment] has evidence for. *)
Definition reported (w : pay_world) (oid : Z) (paid : float64) : Prop :=
  exists num, (num, paid) ∈ pw_evidence w /\
    (parseLegacyPaymentOrderID num = Some oid \/
     exists o, pw_placed w !! oid = Some o /\ po_OutTradeNo o = num).

Lemma reported_extends w w' oid paid : extends w w' -> reported w oid paid -> reported w' oid paid.
Proof.
  intros E (num & H1 & H2). exists num. split; [eauto with payments|].
  destruct H2 as [H2|(o & H2 & H3)]; [by left|right]. exists o. split; [by apply E|done].
Qed.

Hint Resolve reported_extends : payments.

(** An amount that passes the checks against a row of the table pays the order. *)
Lemma checked_paid w o paid : pay_inv w -> row_known w o -> reported w (po_ID o) paid ->
  isValidProviderAmount paid = true -> amountMismatch unicode_upper paid o = false ->
  paid_for w (po_ID o).
Proof.
  intros Hi (o0 & H1 & H2 & H3 & _) (num & Hn & Ha) Hv Hm. destruct H3 as [H3|H3]; [|done].
  exists o0, (num, paid). split_and!; [done|done|]. unfold fixed_part in H2. injection H2 as Hid _ _ _ Hout Hsnap _.
  split_and!; [|done|].
  - destruct Ha as [Ha|(o' & Ho' & Ha)].
    + right. cbn. rewrite Ha. f_equal. done.
    + left. cbn. rewrite H1 in Ho'. by injection Ho' as ->.
  - revert Hm. cbn. unfold amountMismatch, PaymentOrderCurrency, psOrderProviderSnapshot.
    by rewrite H3, Hsnap.
Qed.

Lemma confirmPayment_safe oid tradeNo paid pk metadata w : reported w oid paid ->
  safe (confirmPayment unicode_upper unicode_fold registry affiliate message oid tradeNo paid pk metadata) w.
Proof.
  intros Hrep. unfold confirmPayment. intros w1 E1 I1. split; [exact I|]. intros [[o|]|] w2 E2 P2; [|exact I|exact I].
  destruct P2 as [<- Hr]. fold (@wp error). intros w3 E3 I3. split; [exact I|]. intros r3 w4 E4 _.
  change (safe (if negb (is_empty (expectedNotificationProviderKeyForOrder registry o (default "" (default None r3)))) && negb (is_empty (TrimSpace pk))
       && negb (EqualFold unicode_fold (expectedNotificationProviderKeyForOrder registry o (default "" (default None r3))) (TrimSpace pk))
    then audit (po_ID o) "PAYMENT_PROVIDER_MISMATCH" pk (Ret (Some ErrProviderMismatch))
    else if negb (validateProviderSnapshotMetadata unicode_upper unicode_fold o pk metadata)
    then audit (po_ID o) "PAYMENT_PROVIDER_METADATA_MISMATCH" pk (Ret (Some ErrProviderMetadata))
    else if negb (isValidProviderAmount paid)
    then audit (po_ID o) "PAYMENT_INVALID_AMOUNT" pk (Ret (Some ErrInvalidPaidAmount))
    else if amountMismatch unicode_upper paid o
    then audit (po_ID o) "PAYMENT_AMOUNT_MISMATCH" pk (Ret (Some ErrAmountMismatch))
    else toPaid affiliate message o tradeNo paid pk) w4).
  safe_walk. apply toPaid_safe. eapply paid_for_extends; [exact E4|].
  apply negb_false_iff in Heqb1. eapply checked_paid; eauto 6 with payments.
Qed.

Lemma HandlePaymentNotification_safe n pk w :
  (pn_Status n = NotificationStatusSuccess -> (pn_OrderID n, pn_Amount n) ∈ pw_evidence w) ->
  safe (HandlePaymentNotification unicode_upper unicode_fold registry affiliate message n pk) w.
Proof.
  intros He. unfold HandlePaymentNotification.
  destruct (pn_Status n =s NotificationStatusSuccess) eqn:Es; cbn [negb]; [|exact I].
  apply String.eqb_eq in Es. specialize (He Es).
  apply safe_do; [intros; exact I|]. intros [[o| |]|] w1 E1 P1; [| |exact I|exact I].
  - destruct P1 as [Hout (o0 & H1 & H2 & _)]. apply confirmPayment_safe. exists (pn_OrderID n).
    split; [eauto with payments|]. right. exists o0. split; [done|]. unfold fixed_part in H2.
    injection H2 as _ _ _ _ H2 _ _. congruence.
  - destruct (parseLegacyPaymentOrderID (pn_OrderID n)) as [oid|] eqn:El; [|exact I].
    apply confirmPayment_safe. exists (pn_OrderID n). split; [eauto with payments|by left].
Qed.

Lemma RetryFulfillment_safe oid w : safe (RetryFulfillment affiliate message oid) w.
Proof.
  unfold RetryFulfillment. apply safe_do; [intros; exact I|]. intros [[o|]|] w1 E1 P1; [|exact I|exact I].
  destruct P1 as [<- (o0 & _ & _ & _ & Hp)].
  destruct (negb (isSupportedPaymentOrderType _)); [exact I|].
  destruct (bool_decide (po_PaidAt o = None)) eqn:Ep; [exact I|]. apply bool_decide_eq_false in Ep.
  specialize (Hp Ep). safe_walk. apply executeFulfillment_safe. eauto 6 with payments.
Qed.

(** ** Queries of providers *)

Definition knows_paid (out : string) (resp : QueryOrderResponse) (w : pay_world) : Prop :=
  (out, qr_Amount resp) ∈ pw_evidence w.

Lemma acceptPaid_safe o pkey queryRef resp w : knows_paid (po_OutTradeNo o) resp w ->
  safe (acceptPaid unicode_upper unicode_fold registry affiliate message o pkey queryRef resp) w.
Proof.
  intros Hk.
  assert (Hn : forall tradeNo w', extends w w' -> safe (let! _err := HandlePaymentNotification
      unicode_upper unicode_fold registry affiliate message
      (MkPaymentNotification tradeNo (po_OutTradeNo o) (qr_Amount resp) ProviderStatusSuccess
        (qr_Metadata resp)) pkey in Ret AlreadyPaid)%prog w').
  { intros tradeNo w' E. apply safe_bind; [|intros; exact I]. apply HandlePaymentNotification_safe.
    intros _. cbn. by apply (ext_evidence _ _ E). }
  unfold acceptPaid. safe_walk; apply Hn; eauto with payments.
Qed.

Lemma checkPaidWithOptions_safe o cancel w :
  safe (checkPaidWithOptions unicode_upper unicode_fold registry affiliate message o cancel) w.
Proof.
  unfold checkPaidWithOptions. apply safe_do; [intros; exact I|]. intros [prov|] w1 E1 _; [|exact I].
  cbv zeta. destruct (is_empty _); [exact I|]. apply safe_do; [intros; exact I|].
  intros [resp|] w2 E2 P2; [|exact I]. cbn in P2.
  destruct (qr_Status resp =s ProviderStatusPaid) eqn:Es; [|safe_walk].
  apply String.eqb_eq in Es. specialize (P2 Es).
  destruct (isValidProviderAmount (qr_Amount resp)); [by apply acceptPaid_safe|].
  unfold audit. apply safe_do; [intros; exact I|]. intros r3 w3 E3 _. apply wp_bind.
  unfold requeryPaidOrderOnce. destruct (is_empty (TrimSpace _)); [exact I|].
  intros w4 E4 I4. split; [exact I|]. intros [resp2|] w5 E5 P5; [|exact I]. cbn in P5.
  destruct (qr_Status resp2 =s ProviderStatusPaid) eqn:Es2; [|exact I]. apply String.eqb_eq in Es2.
  cbn [andb]. destruct (isValidProviderAmount (qr_Amount resp2)); [|exact I].
  apply acceptPaid_safe. by apply P5.
Qed.

Lemma cancelCore_safe o fs op w :
  safe (cancelCore unicode_upper unicode_fold registry affiliate message o fs op) w.
Proof.
  unfold cancelCore, cancelUpdate. safe_walk. apply safe_bind; [apply checkPaidWithOptions_safe|].
  intros a w1 E1. safe_walk.
Qed.

Lemma expireEach_safe orders n w :
  safe (expireEach unicode_upper unicode_fold registry affiliate message orders n) w.
Proof.
  revert n w. induction orders as [|o orders IH]; intros n w; [exact I|]. cbn [expireEach].
  apply safe_bind; [apply cancelCore_safe|]. intros a w1 E1. apply IH.
Qed.

Lemma reconcileEach_safe orders n w :
  safe (reconcileEach unicode_upper unicode_fold registry affiliate message orders n) w.
Proof.
  revert n w. induction orders as [|o orders IH]; intros n w; [exact I|]. cbn [reconcileEach].
  apply safe_bind; [apply checkPaidWithOptions_safe|]. intros a w1 E1. apply IH.
Qed.

Lemma placeOrder_safe template w : safe (placeOrder template) w.
Proof.
  unfold placeOrder, invokeProvider. safe_walk. apply safe_bind; [safe_walk|]. intros e w2 E2. safe_walk.
Qed.

Lemma start_safe rq w :
  (forall e, e ∈ request_evidence rq -> e ∈ pw_evidence w) -> safe (start rq) w.
Proof.
  intros He. destruct rq; cbn [start]; apply safe_bind; try (intros; exact I).
  - apply HandlePaymentNotification_safe. intros Hs. apply He. cbn. rewrite Hs. cbn. by apply list_elem_of_singleton.
  - apply RetryFulfillment_safe.
  - unfold CancelOrder. safe_walk. apply cancelCore_safe.
  - unfold AdminCancelOrder. safe_walk. apply cancelCore_safe.
  - unfold ExpireTimedOutOrders. safe_walk. apply safe_bind; [apply expireEach_safe|]. intros. exact I.
  - unfold VerifyOrderByOutTradeNo. safe_walk. apply safe_bind; [apply checkPaidWithOptions_safe|].
    intros. safe_walk.
  - unfold ReconcilePendingPaymentOrders. safe_walk. apply safe_bind; [apply reconcileEach_safe|]. intros. exact I.
  - apply Redeem_safe.
  - apply placeOrder_safe.
Qed.

(** ** One call keeps the invariant *)

(** The world when the tables are [db], more evidence [l] is there, and the threads
    are [ts]. *)
Definition moved (w : pay_world) (db : pay_db) (l : list (string * float64)) (ts : list (prog unit))
    : pay_world :=
  w <| pw_db := db |> <| pw_threads := ts |> <| pw_placed := pw_placed w ∪ db_orders db |>
    <| pw_evidence := pw_evidence w ++ l |>.

Lemma moved_extends w db l ts :
  (forall c, code_known w c -> exists c', db_codes db !! rc_ID c = Some c' /\ code_part c = code_part c') ->
  extends w (moved w db l ts).
Proof.
  intros Hc. split.
  - intros oid o H. cbn. by apply lookup_union_Some_l.
  - intros e He. cbn. apply elem_of_app. by left.
  - intros c H. exact (Hc c H).
Qed.

(** The orders that have been placed, when the rows are those of [w]. *)
Lemma placed_same w db : pay_inv w ->
  (forall oid, is_Some (db_orders db !! oid) -> is_Some (db_orders (pw_db w) !! oid)) ->
  pw_placed w ∪ db_orders db = pw_placed w.
Proof.
  intros Hi H. apply map_eq. intros oid. rewrite lookup_union.
  destruct (pw_placed w !! oid) as [o|] eqn:Ep; [by destruct (db_orders db !! oid)|].
  destruct (db_orders db !! oid) as [o|] eqn:Eo; [|done].
  destruct (H oid) as [o' Ho']; [by eexists|].
  destruct (inv_orders w Hi oid o' Ho') as [<- (o0 & H0 & _)]. congruence.
Qed.

(** Statements that leave the tables of codes and grants alone. *)
Record same_codes (db db' : pay_db) : Prop := {
  sc_codes : db_codes db' = db_codes db;
  sc_next : db_next_code db' = db_next_code db;
  sc_grants : db_grants db' = db_grants db
}.

Lemma same_codes_extends w db l ts : same_codes (pw_db w) db -> extends w (moved w db l ts).
Proof. intros [H _ _]. apply moved_extends. intros c (c' & Hc). exists c'. by rewrite H. Qed.

Definition rebates_ok (db : pay_db) : Prop :=
  NoDup (db_rebates db).*1 /\
  Forall (fun p => is_Some (db_audit db !! (p.1, "AFFILIATE_REBATE_APPLIED"))) (db_rebates db).

(** Codes and grants keep their part of the invariant in such statements. *)
Lemma same_codes_inv w db l ts : pay_inv w -> same_codes (pw_db w) db ->
  (forall oid o, db_orders db !! oid = Some o -> po_ID o = oid /\ row_known (moved w db l ts) o) ->
  (forall oid o, (pw_placed w ∪ db_orders db) !! oid = Some o ->
    po_ID o = oid /\ (0 < oid < db_next_order db)%Z /\ exists nanos, po_RechargeCode o = rechargeCode oid nanos) ->
  (0 < db_next_order db)%Z -> rebates_ok db -> pay_inv (moved w db l ts).
Proof.
  intros Hi Hs Ho Hp Hn Hr. pose proof (same_codes_extends w db l ts Hs) as He.
  destruct Hs as [H1 H2 H3]. split; cbn; [exact Ho|exact Hp|exact Hn| | | |exact Hr]; rewrite ?H1, ?H2, ?H3.
  - intros id c Hc. destruct (inv_codes w Hi id c Hc) as (? & ? & ?). eauto using order_code_extends.
  - apply (inv_unique w Hi).
  - apply (inv_grants w Hi).
Qed.

(** Statements that write neither orders nor codes. *)
Lemma aside_inv w db l ts : pay_inv w -> same_codes (pw_db w) db ->
  db_orders db = db_orders (pw_db w) -> db_next_order db = db_next_order (pw_db w) -> rebates_ok db ->
  pay_inv (moved w db l ts).
Proof.
  intros Hi Hs Ho Hn Hr. pose proof (same_codes_extends w db l ts Hs) as He.
  apply same_codes_inv; [done|done| | | |done].
  - intros oid o H. rewrite Ho in H. destruct (inv_orders w Hi oid o H). eauto using row_known_extends.
  - rewrite placed_same by (done || by rewrite Ho). rewrite Hn. apply (inv_placed w Hi).
  - rewrite Hn. apply (inv_next w Hi).
Qed.

Lemma nothing_inv w l ts : pay_inv w -> pay_inv (moved w (pw_db w) l ts).
Proof. intros Hi. apply aside_inv; try done. apply (inv_rebates w Hi). Qed.

(** *** Updates of orders *)

(** What an update may do to a row. *)
Definition fair_update (w : pay_world) (oid : Z) (f : PaymentOrder -> PaymentOrder) : Prop :=
  forall o, fixed_part (f o) = fixed_part o /\
    (po_PayAmount (f o) = po_PayAmount o \/ paid_for w oid) /\
    (po_PaidAt (f o) = po_PaidAt o \/ paid_for w oid).

Lemma updateOrder_inv w clock oid guard f l ts : pay_inv w -> fair_update w oid f ->
  pay_inv (moved w (updateOrder clock oid guard f (pw_db w)).2 l ts) /\
  same_codes (pw_db w) (updateOrder clock oid guard f (pw_db w)).2.
Proof.
  intros Hi Hf. unfold updateOrder. destruct (db_orders (pw_db w) !! oid) as [o|] eqn:Eo;
    [destruct (guard o)|]; [|by split; [apply nothing_inv|]|by split; [apply nothing_inv|]].
  split; [|done]. set (db := (_, _).2). assert (Hs : same_codes (pw_db w) db) by done.
  pose proof (same_codes_extends w db l ts Hs) as He.
  assert (Hp : pw_placed w ∪ db_orders db = pw_placed w).
  { apply placed_same; [done|]. intros oid'. cbn. destruct (decide (oid' = oid)) as [->|Hne];
      [by eauto|]. by rewrite lookup_insert_ne. }
  apply same_codes_inv; [done|done| | |apply (inv_next w Hi)|apply (inv_rebates w Hi)];
    [|rewrite Hp; apply (inv_placed w Hi)].
  intros oid' o' H. cbn in H. destruct (decide (oid' = oid)) as [->|Hne]; cycle 1.
  { rewrite lookup_insert_ne in H by done. destruct (inv_orders w Hi oid' o' H). eauto using row_known_extends. }
  rewrite lookup_insert_eq in H. injection H as <-.
  destruct (inv_orders w Hi oid o Eo) as [Hid (o0 & K1 & K2 & K3 & K4)].
  destruct (Hf o) as (F1 & F2 & F3).
  assert (Hid' : po_ID (f o) = po_ID o) by (unfold fixed_part in F1; congruence).
  split; [by rewrite <- Hid, <- Hid'|]. apply (row_known_extends w); [done|]. exists o0.
  change (po_ID (f o <| po_UpdatedAt := clock |>)) with (po_ID (f o)). rewrite Hid'.
  change (fixed_part (f o <| po_UpdatedAt := clock |>)) with (fixed_part (f o)).
  change (po_PayAmount (f o <| po_UpdatedAt := clock |>)) with (po_PayAmount (f o)).
  change (po_PaidAt (f o <| po_UpdatedAt := clock |>)) with (po_PaidAt (f o)). subst oid.
  split_and!; [done|congruence| |].
  - destruct F2 as [F2|F2]; [|by right]. destruct K3 as [K3|K3]; [left; congruence|by right].
  - destruct F3 as [F3|F3]; [|done]. rewrite F3. exact K4.
Qed.

(** *** Other statements *)

Lemma InsertOrder_inv w clock template l ts : pay_inv w ->
  pay_inv (moved w (InsertOrder clock template (pw_db w)).2 l ts) /\
  same_codes (pw_db w) (InsertOrder clock template (pw_db w)).2.
Proof.
  intros Hi. unfold InsertOrder. destruct (_ && _); [by split; [apply nothing_inv|]|].
  cbv zeta. set (o := template <| po_ID := _ |> <| po_Status := _ |> <| po_PaymentTradeNo := _ |>
    <| po_RechargeCode := _ |> <| po_PaidAt := _ |> <| po_CompletedAt := _ |> <| po_FailedAt := _ |>
    <| po_FailedReason := _ |> <| po_RefundAmount := _ |> <| po_RefundReason := _ |> <| po_RefundAt := _ |>
    <| po_ForceRefund := _ |> <| po_RefundRequestedAt := _ |> <| po_RefundRequestReason := _ |>
    <| po_RefundRequestedBy := _ |> <| po_CreatedAt := _ |> <| po_UpdatedAt := _ |>).
  split; [|done]. set (db := (_, _).2). set (oid := db_next_order (pw_db w)) in *.
  assert (Hs : same_codes (pw_db w) db) by done. pose proof (same_codes_extends w db l ts Hs) as He.
  pose proof (inv_next w Hi) as Hn. fold oid in Hn.
  assert (Hfresh : pw_placed w !! oid = None).
  { destruct (pw_placed w !! oid) as [o'|] eqn:E; [|done]. destruct (inv_placed w Hi _ _ E) as (_ & H & _).
    unfold oid in H. lia. }
  apply same_codes_inv; [done|done| | |cbn; fold oid; lia|apply (inv_rebates w Hi)].
  - intros oid' o' H. cbn in H. destruct (decide (oid' = oid)) as [->|Hne]; cycle 1.
    { rewrite lookup_insert_ne in H by done. destruct (inv_orders w Hi oid' o' H). eauto using row_known_extends. }
    rewrite lookup_insert_eq in H. injection H as <-. split; [done|]. exists o. cbn. split_and!; [|done|by left|done].
    apply lookup_union_Some_raw. right. split; [done|]. cbn. by rewrite lookup_insert_eq.
  - intros oid' o' H. cbn. apply lookup_union_Some_raw in H as [H|[Hp H]].
    { destruct (inv_placed w Hi _ _ H) as (? & ? & ?). fold oid in H1. split_and!; [done|lia|lia|done]. }
    cbn in H. destruct (decide (oid' = oid)) as [->|Hne].
    + rewrite lookup_insert_eq in H. injection H as <-. fold oid. cbn. split_and!; [done|lia|lia|by eexists].
    + rewrite lookup_insert_ne in H by done. destruct (inv_orders w Hi oid' o' H) as [<- (o0 & H0 & _)]. congruence.
Qed.

Lemma InsertAudit_inv w oid action operator l ts : pay_inv w ->
  pay_inv (moved w (InsertAudit oid action operator (pw_db w)).2 l ts) /\
  same_codes (pw_db w) (InsertAudit oid action operator (pw_db w)).2.
Proof.
  intros Hi. unfold InsertAudit. destruct (_ !! _); [by split; [apply nothing_inv|]|]. split; [|done].
  apply aside_inv; try done. destruct (inv_rebates w Hi) as [H1 H2]. split; [done|]. cbn.
  eapply Forall_impl; [exact H2|]. intros p Hp. apply lookup_insert_is_Some'. by right.
Qed.

Lemma RebateTx_inv w oid amount l ts : pay_inv w ->
  pay_inv (moved w (RebateTx oid amount (pw_db w)) l ts) /\
  same_codes (pw_db w) (RebateTx oid amount (pw_db w)).
Proof.
  intros Hi. unfold RebateTx. destruct (hasAudit oid "AFFILIATE_REBATE_APPLIED" (pw_db w)) eqn:Ea;
    [by split; [apply nothing_inv|]|]. cbn [orb].
  destruct (hasAudit oid "AFFILIATE_REBATE_SKIPPED" _); [by split; [apply nothing_inv|]|].
  apply bool_decide_eq_false in Ea. destruct (inv_rebates w Hi) as [H1 H2].
  assert (Hm : forall action op, Forall (fun p => is_Some (<[ (oid, action) := op ]> (db_audit (pw_db w)) !! (p.1, "AFFILIATE_REBATE_APPLIED")))
    (db_rebates (pw_db w))).
  { intros action op. eapply Forall_impl; [exact H2|]. intros p Hp. apply lookup_insert_is_Some'. by right. }
  destruct (fle _ _); (split; [|done]); apply aside_inv; try done; (split; cbn; [|]); try done; try apply Hm.
  - rewrite fmap_app. apply NoDup_app. split_and!; [done| |apply NoDup_singleton].
    intros x Hx Hx'. apply list_elem_of_singleton in Hx'. subst x. apply list_elem_of_fmap in Hx as (p & Heq & Hx).
    rewrite Forall_forall in H2. apply H2 in Hx. rewrite <- Heq in Hx. done.
  - apply Forall_app. split; [apply Hm|]. apply Forall_singleton. cbn. rewrite lookup_insert_eq. by eexists.
Qed.

Lemma findCode_None code db id c : findCode code db = None -> db_codes db !! id = Some c -> rc_Code c <> code.
Proof.
  unfold findCode. intros H Hc Heq.
  destruct (filter _ _) as [|p l] eqn:E; [|done].
  assert ((id, c) ∈ filter (fun p : Z * RedeemCode => rc_Code p.2 = code) (map_to_list (db_codes db))) as Hin.
  { apply list_elem_of_filter. split; [done|]. by apply elem_of_map_to_list. }
  rewrite E in Hin. by apply not_elem_of_nil in Hin.
Qed.

Lemma findCode_Some code db c : findCode code db = Some c -> rc_Code c = code /\ exists id, db_codes db !! id = Some c.
Proof.
  unfold findCode. intros H. destruct (filter _ _) as [|[id c'] l] eqn:E; [done|]. injection H as ->.
  assert ((id, c) ∈ filter (fun p : Z * RedeemCode => rc_Code p.2 = code) (map_to_list (db_codes db))) as Hin.
  { rewrite E. by apply list_elem_of_here. }
  apply list_elem_of_filter in Hin as [H1 H2]. apply elem_of_map_to_list in H2. eauto.
Qed.

Lemma InsertCode_extends w code l ts : pay_inv w -> extends w (moved w (InsertCode code (pw_db w)).2 l ts).
Proof.
  intros Hi. unfold InsertCode. apply moved_extends. intros c (c' & H1 & H2).
  destruct (findCode _ _); [by exists c'|]. cbn. exists c'. split; [|done]. rewrite lookup_insert_ne; [done|].
  destruct (inv_codes w Hi _ _ H1) as (_ & H & _). lia.
Qed.

Lemma InsertCode_inv w code l ts : pay_inv w -> order_code w code ->
  pay_inv (moved w (InsertCode code (pw_db w)).2 l ts).
Proof.
  intros Hi Hc. pose proof (InsertCode_extends w code l ts Hi) as He. revert He. unfold InsertCode.
  destruct (findCode _ _) as [?|] eqn:Ef; [by intros _; apply nothing_inv|]. cbv zeta. set (db := (_, _).2).
  intros He. set (id := db_next_code (pw_db w)) in *.
  assert (Hp : pw_placed w ∪ db_orders db = pw_placed w) by (apply placed_same; [done|]; by intros).
  assert (Hfresh : db_codes (pw_db w) !! id = None).
  { destruct (_ !! id) eqn:E; [|done]. destruct (inv_codes w Hi _ _ E) as (_ & H & _). unfold id in H. lia. }
  split; cbn.
  - intros oid o H. destruct (inv_orders w Hi oid o H). eauto using row_known_extends.
  - change (pw_placed w ∪ db_orders (pw_db w)) with (pw_placed w ∪ db_orders db). rewrite Hp. apply (inv_placed w Hi).
  - apply (inv_next w Hi).
  - fold id. intros id' c' H. apply lookup_insert_Some in H as [[<- <-]|[Hne H]].
    + split_and!; [done|lia|]. apply (order_code_extends w); [done|]. exact Hc.
    + destruct (inv_codes w Hi _ _ H) as (? & ? & ?). fold id in H1. split_and!; [done|lia|]. by apply (order_code_extends w).
  - fold id. intros id1 id2 c1 c2 H1 H2 Heq.
    apply lookup_insert_Some in H1 as [[<- <-]|[Hne1 H1]]; apply lookup_insert_Some in H2 as [[<- <-]|[Hne2 H2]].
    + done.
    + cbn in Heq. by destruct (findCode_None _ _ _ _ Ef H2).
    + cbn in Heq. by destruct (findCode_None _ _ _ _ Ef H1).
    + by eapply (inv_unique w Hi).
  - destruct (inv_grants w Hi) as [H1 H2]. split; [done|]. eapply Forall_impl; [exact H2|].
    intros g (c & b & n & Hg & ?). exists c, b, n. split; [|done]. rewrite lookup_insert_ne; [done|]. fold id. congruence.
  - apply (inv_rebates w Hi).
Qed.

Lemma grantOf_part c c' b n : code_part c = code_part c' -> grantOf c b n = grantOf c' b n.
Proof. unfold code_part, grantOf. intros H. injection H as H1 H2 H3 H4 H5 H6. by rewrite H3, H4, H5, H6. Qed.

Lemma RedeemTx_extends w clock id uid what l ts :
  extends w (moved w (RedeemTx clock id uid what (pw_db w)).2 l ts).
Proof.
  apply moved_extends. intros c (c' & H1 & H2). unfold RedeemTx.
  destruct (db_codes (pw_db w) !! id) as [c0|] eqn:E0; [|by exists c'].
  destruct (rc_Status c0 =s StatusUnused); [|by exists c']. cbn.
  destruct (decide (rc_ID c = id)) as [Heq|Hne]; [|exists c'; by rewrite lookup_insert_ne].
  subst id. rewrite lookup_insert_eq. eexists. split; [done|]. rewrite H2. by simplify_eq.
Qed.

Lemma RedeemTx_inv w clock id uid what l ts : pay_inv w ->
  (exists c b n, rc_ID c = id /\ code_known w c /\ grantOf c b n = Some what) ->
  pay_inv (moved w (RedeemTx clock id uid what (pw_db w)).2 l ts).
Proof.
  intros Hi (cx & b & n & Hid & (c' & Hc' & Hpart) & Hg).
  pose proof (RedeemTx_extends w clock id uid what l ts) as He. revert He. unfold RedeemTx.
  destruct (db_codes (pw_db w) !! id) as [c|] eqn:Ec; [|by intros _; apply nothing_inv].
  destruct (rc_Status c =s StatusUnused) eqn:Eu; [|by intros _; apply nothing_inv].
  apply String.eqb_eq in Eu. set (db := (_, _).2). intros He.
  assert (Hp : pw_placed w ∪ db_orders db = pw_placed w) by (apply placed_same; [done|]; by intros).
  rewrite Hid, Ec in Hc'. injection Hc' as <-. rewrite (grantOf_part _ _ _ _ Hpart) in Hg.
  destruct (inv_grants w Hi) as [H1 H2].
  assert (Hnot : forall g, g ∈ db_grants (pw_db w) -> gr_code g <> id).
  { intros g Hin Heq. rewrite Forall_forall in H2. destruct (H2 g Hin) as (c1 & b1 & n1 & K1 & K2 & K3).
    rewrite Heq, Ec in K1. injection K1 as <-. rewrite Eu in K2. done. }
  split; cbn.
  - intros oid o H. destruct (inv_orders w Hi oid o H). eauto using row_known_extends.
  - change (pw_placed w ∪ db_orders (pw_db w)) with (pw_placed w ∪ db_orders db). rewrite Hp. apply (inv_placed w Hi).
  - apply (inv_next w Hi).
  - intros id' c' H. destruct (decide (id' = id)) as [->|Hne].
    + rewrite lookup_insert_eq in H. injection H as <-. destruct (inv_codes w Hi _ _ Ec) as (? & ? & Ho).
      split_and!; [done|done|]. exact (order_code_extends _ _ _ He Ho).
    + rewrite lookup_insert_ne in H by done. destruct (inv_codes w Hi _ _ H) as (? & ? & ?). eauto using order_code_extends.
  - intros id1 id2 c1 c2 K1 K2 Heq.
    assert (Hback : forall i c0, <[ id := c <| rc_Status := StatusUsed |> <| rc_UsedBy := Some uid |>
      <| rc_UsedAt := Some clock |> ]> (db_codes (pw_db w)) !! i = Some c0 ->
      exists c0', db_codes (pw_db w) !! i = Some c0' /\ rc_Code c0' = rc_Code c0).
    { intros i c0 H. destruct (decide (i = id)) as [->|Hne];
        [rewrite lookup_insert_eq in H; injection H as <-; by eauto|rewrite lookup_insert_ne in H by done; eauto]. }
    destruct (Hback _ _ K1) as (? & ? & ?). destruct (Hback _ _ K2) as (? & ? & ?).
    eapply (inv_unique w Hi); [done|done|congruence].
  - split.
    + rewrite fmap_app. apply NoDup_app. split_and!; [done| |apply NoDup_singleton].
      intros x Hx Hx'. apply list_elem_of_fmap in Hx as (g & -> & Hin). cbn in Hx'.
      apply list_elem_of_singleton in Hx'. by destruct (Hnot g Hin).
    + apply Forall_app. split.
      * apply Forall_forall. intros g Hin. rewrite Forall_forall in H2.
        destruct (H2 g Hin) as (c1 & b1 & n1 & K1 & K2). exists c1, b1, n1. split; [|done].
        rewrite lookup_insert_ne; [done|]. apply not_eq_sym. by apply Hnot.
      * apply Forall_singleton. do 3 eexists. cbn. rewrite lookup_insert_eq. split_and!; [done|done|].
        rewrite <- Hg. by apply grantOf_part.
  - apply (inv_rebates w Hi).
Qed.

(** *** Queries *)

Lemma row_read w l ts oid o : pay_inv w -> db_orders (pw_db w) !! oid = Some o ->
  po_ID o = oid /\ row_known (moved w (pw_db w) l ts) o.
Proof.
  intros Hi H. destruct (inv_orders w Hi oid o H). split; [done|]. eapply row_known_extends; [|done].
  by apply same_codes_extends.
Qed.

Lemma rows_read w l ts (P : Z * PaymentOrder -> Prop) `{forall p, Decision (P p)} : pay_inv w ->
  Forall (row_known (moved w (pw_db w) l ts)) (snd <$> filter P (map_to_list (db_orders (pw_db w)))).
Proof.
  intros Hi. apply Forall_fmap, Forall_forall. intros [oid o] Hin.
  apply list_elem_of_filter in Hin as [_ Hin]. apply elem_of_map_to_list in Hin. by eapply row_read.
Qed.

Lemma findByOutTradeNo_Found no db o : findByOutTradeNo no db = Found o ->
  po_OutTradeNo o = no /\ exists oid, db_orders db !! oid = Some o.
Proof.
  unfold findByOutTradeNo. intros H. destruct (filter _ _) as [|[oid o'] [|? ?]] eqn:E; [done| |done].
  injection H as ->.
  assert ((oid, o) ∈ filter (fun p : Z * PaymentOrder => po_OutTradeNo p.2 = no) (map_to_list (db_orders db))) as Hin.
  { rewrite E. by apply list_elem_of_here. }
  apply list_elem_of_filter in Hin as [H1 H2]. apply elem_of_map_to_list in H2. eauto.
Qed.

(** What a caller learns from a query. *)
Lemma exec_post w clock sv R (c : call R) ts : pay_inv w ->
  let r := exec clock sv c (pw_db w) in
  call_post c (Some r.1) (moved w r.2 (evidence_of c (Some r.1)) ts).
Proof.
  intros Hi. destruct c; cbv zeta; try exact I; cbn [exec fst snd call_post evidence_of].
  - destruct (_ !! oid) as [o|] eqn:E; [|done]. by eapply row_read.
  - destruct (findByOutTradeNo _ _) as [o| |] eqn:E; [|done|done].
    apply findByOutTradeNo_Found in E as [H1 (oid & H2)]. split; [done|]. by eapply row_read.
  - by apply rows_read.
  - unfold listPending. apply Forall_take. eapply Forall_Permutation; [by intros|apply merge_sort_Permutation|].
    by apply rows_read.
  - destruct (findCode _ _) as [c|] eqn:E; [|done]. apply findCode_Some in E as [H1 (id & H2)].
    split; [done|]. exists c. split; [|done]. by destruct (inv_codes w Hi _ _ H2) as [-> _].
  - intros Hs. rewrite Hs. cbn. apply elem_of_app. right. by apply list_elem_of_singleton.
Qed.

Ltac fair := let o := fresh in intros o; split_and!; auto.

(** Every statement keeps the invariant where its demands are met. *)
Lemma exec_inv w clock sv R (c : call R) l ts : pay_inv w -> call_pre c w ->
  extends w (moved w (exec clock sv c (pw_db w)).2 l ts) /\
  pay_inv (moved w (exec clock sv c (pw_db w)).2 l ts).
Proof.
  intros Hi Hpre.
  assert (Hsame : forall db, pay_inv (moved w db l ts) /\ same_codes (pw_db w) db ->
    extends w (moved w db l ts) /\ pay_inv (moved w db l ts)).
  { intros db [H1 H2]. split; [by apply same_codes_extends|done]. }
  destruct c; cbn [exec fst snd]; cbn in Hpre;
    try (apply Hsame; split; [by apply nothing_inv|done]);
    try (apply Hsame; apply updateOrder_inv; [done|by fair]).
  - apply Hsame. by apply InsertOrder_inv.
  - apply Hsame. apply updateOrder_inv; [done|]. intros o.
    destruct (is_empty tradeNo), (is_empty instanceID), (is_empty providerKey); split_and!; auto.
  - apply Hsame. by apply InsertAudit_inv.
  - split; [by apply InsertCode_extends|by apply InsertCode_inv].
  - split; [by apply RedeemTx_extends|by apply RedeemTx_inv].
  - apply Hsame. by apply RebateTx_inv.
  - apply Hsame. split; [|done]. apply aside_inv; try done. apply (inv_rebates w Hi).
Qed.

(** ** All reachable worlds *)

Definition world_ok (w : pay_world) : Prop := pay_inv w /\ Forall (fun p => safe p w) (pw_threads w).

Lemma threads_extend w w' (ps : list (prog unit)) : extends w w' -> Forall (fun p => safe p w) ps -> Forall (fun p => safe p w') ps.
Proof. intros He H. eapply Forall_impl; [exact H|]. intros p. apply wp_extends; [apply stable_anything|done]. Qed.

Lemma after_call_moved w i f sv R (c : call R) k :
  after_call w i f sv c k =
  moved w (perform (@exec (pw_clock w) sv) f c (pw_db w)).2 (evidence_of c (perform (@exec (pw_clock w) sv) f c (pw_db w)).1)
    (<[ i := k (perform (@exec (pw_clock w) sv) f c (pw_db w)).1 ]> (pw_threads w)).
Proof. done. Qed.

Lemma call_ok w i f sv R (c : call R) k :
  world_ok w -> pw_threads w !! i = Some (Do c k) -> world_ok (after_call w i f sv c k).
Proof.
  intros [Hi Ht] Hk. rewrite Forall_forall in Ht.
  destruct (Ht (Do c k) (list_elem_of_lookup_2 _ _ _ Hk) w (extends_refl w) Hi) as [Hpre Hsafe].
  rewrite <- Forall_forall in Ht. rewrite after_call_moved.
  set (r := perform (@exec (pw_clock w) sv) f c (pw_db w)). set (ts := <[ i := k r.1 ]> (pw_threads w)).
  assert (extends w (moved w r.2 (evidence_of c r.1) ts) /\ pay_inv (moved w r.2 (evidence_of c r.1) ts)
          /\ call_post c r.1 (moved w r.2 (evidence_of c r.1) ts)) as (He & Hi' & Hpost).
  { subst r. clearbody ts. destruct f; cbn [perform fst snd].
    - split_and!; [by apply exec_inv..|by apply exec_post].
    - split_and!; [by apply same_codes_extends|by apply nothing_inv|apply call_post_none].
    - split_and!; [by apply exec_inv..|apply call_post_none]. }
  split; [done|]. cbn. subst ts. apply Forall_insert; [|by apply Hsafe]. by eapply threads_extend.
Qed.

Lemma step_ok w w' : world_ok w -> pay_step w w' -> world_ok w'.
Proof.
  intros [Hi Ht] Hs. destruct Hs as [w t Hle|w rq|w i f sv R c k Hk Hf].
  - split; [by destruct Hi; split|]. eapply threads_extend; [|exact Ht]. by split.
  - assert (He : extends w (w <| pw_threads := pw_threads w ++ [start rq] |>
      <| pw_evidence := pw_evidence w ++ request_evidence rq |>)).
    { split; [done| |done]. intros e H. cbn. apply elem_of_app. by left. }
    split.
    + pose proof (inv_orders w Hi) as Ho. pose proof (inv_codes w Hi) as Hc. destruct Hi.
      split; try done; cbn.
      * intros oid o H. destruct (Ho oid o H). eauto using row_known_extends.
      * intros id c H. destruct (Hc id c H) as (? & ? & ?). eauto using order_code_extends.
    + cbn. apply Forall_app. split; [by eapply threads_extend|]. apply Forall_singleton.
      apply start_safe. intros e H. cbn. apply elem_of_app. by right.
  - by apply call_ok.
Qed.

Lemma initial_ok t0 : world_ok (initial_pay t0).
Proof.
  split; [|by apply Forall_nil]. split; try done; try (intros; set_solver).
  - split; [apply NoDup_nil|apply Forall_nil]; done.
  - split; [apply NoDup_nil|apply Forall_nil]; done.
Qed.

Definition reachable (w : pay_world) : Prop := exists t0, rtc pay_step (initial_pay t0) w.

Lemma pay_reachable_ok w : reachable w -> world_ok w.
Proof.
  intros [t0 H]. generalize (initial_ok t0). induction H as [|w0 w1 w2 Hs _ IH]; [done|].
  intros Hw. apply IH. by eapply step_ok.
Qed.

(** ** Credits *)

(** The grants made with the recharge code of an order. *)
Definition credits_of (db : pay_db) (o : PaymentOrder) : list granted :=
  filter (fun g => (rc_Code <$> db_codes db !! gr_code g) = Some (po_RechargeCode o)) (db_grants db).

Lemma NoDup_fmap_filter {A B : Type} (f : A -> B) (l : list A) (P : A -> Prop) `{forall a, Decision (P a)} :
  NoDup (f <$> l) -> NoDup (f <$> filter P l).
Proof.
  induction l as [|x l IH]; intros Hn; [exact Hn|]. cbn in Hn. apply NoDup_cons in Hn as [Hx Hn].
  rewrite filter_cons. destruct (decide (P x)); [|by apply IH]. cbn. apply NoDup_cons. split; [|by apply IH].
  intros Hin. apply Hx. apply list_elem_of_fmap in Hin as (y & -> & Hy). apply list_elem_of_filter in Hy as [_ Hy].
  by apply list_elem_of_fmap_2.
Qed.

Lemma NoDup_at_most_one {A B : Type} (f : A -> B) (l : list A) (P : A -> Prop) `{forall a, Decision (P a)} :
  NoDup (f <$> l) -> (forall x y, x ∈ l -> y ∈ l -> P x -> P y -> f x = f y) ->
  (length (filter P l) <= 1)%nat.
Proof.
  intros Hn Hp. destruct (filter P l) as [|x [|y l']] eqn:E; cbn; [lia|lia|exfalso].
  assert (Hx : x ∈ filter P l) by (rewrite E; by left).
  assert (Hy : y ∈ filter P l) by (rewrite E; right; by left).
  apply list_elem_of_filter in Hx as [Px Hx]. apply list_elem_of_filter in Hy as [Py Hy].
  apply (NoDup_fmap_filter f l P) in Hn. rewrite E in Hn. cbn in Hn. apply NoDup_cons in Hn as [Hn _].
  apply Hn. rewrite (Hp x y) by done. by left.
Qed.



(** C9. Every credit that was ever granted belongs to an order as it was
    placed for which a provider reported a valid payment that agrees with the price within
    the tolerance of the currency, and credits exactly the amount of the order (when that
    is not negative); rows keep their owner, amount, code and order number. *)
Theorem credit_implies_payment (w : pay_world) (g : granted) :
  reachable w -> g ∈ db_grants (pw_db w) ->
  exists (oid : Z) (placed : PaymentOrder) (e : string * float64) (c : RedeemCode),
    pw_placed w !! oid = Some placed /\ e ∈ pw_evidence w /\ pays e placed /\
    db_codes (pw_db w) !! gr_code g = Some c /\ rc_Code c = po_RechargeCode placed /\
    (flt (po_Amount placed) fzero = false -> gr_what g = GrantBalance (po_Amount placed)) /\
    (forall o : PaymentOrder, db_orders (pw_db w) !! oid = Some o ->
      fixed_part o = fixed_part placed /\ g ∈ credits_of (pw_db w) o).
Proof.
  intros Hr Hg. apply pay_reachable_ok in Hr as [Hi _]. destruct (inv_grants w Hi) as [_ H2].
  rewrite Forall_forall in H2. destruct (H2 g Hg) as (c & b & n & Hc & _ & Hw).
  destruct (inv_codes w Hi _ _ Hc) as (_ & _ & (oid & o0 & Ho & Hcode & Ht & Hv & (o1 & e & Ho1 & He & Hp))).
  rewrite Ho in Ho1. injection Ho1 as <-. exists oid, o0, e, c. split_and!; [done..| |].
  - intros Hf. unfold grantOf in Hw. rewrite Ht, Hv, Hf in Hw. cbn in Hw. congruence.
  - intros o Hrow. destruct (inv_orders w Hi oid o Hrow) as [<- (o1 & K1 & K2 & _)].
    rewrite Ho in K1. injection K1 as <-. split; [done|]. apply list_elem_of_filter. split; [|done].
    rewrite Hc. cbn. rewrite Hcode. unfold fixed_part in K2. congruence.
Qed.

(** ** Schedules that can be executed *)

Inductive move :=
  | MTick (t : Z)
  | MStart (rq : pay_request)
  | MCall (i : nat) (f : fault) (sv : services).

Definition play1 (w : pay_world) (m : move) : option pay_world :=
  match m with
  | MTick t => if (pw_clock w <=? t)%Z then Some (w <| pw_clock := t |>) else None
  | MStart rq =>
    Some (w <| pw_threads := pw_threads w ++ [start rq] |>
            <| pw_evidence := pw_evidence w ++ request_evidence rq |>)
  | MCall i f sv =>
    match pw_threads w !! i with
    | Some (Do c k) =>
      if match f with Fine => true | _ => fallible c end then Some (after_call w i f sv c k) else None
    | _ => None
    end
  end.

Definition play (ms : list move) (w : pay_world) : option pay_world :=
  foldl (fun r m => r ≫= fun w => play1 w m) (Some w) ms.

Lemma play1_sound w m w' : play1 w m = Some w' -> pay_step w w'.
Proof.
  destruct m as [t|rq|i f sv]; cbn [play1].
  - destruct (pw_clock w <=? t)%Z eqn:E; [|done]. intros [= <-]. constructor. lia.
  - intros [= <-]. constructor.
  - destruct (pw_threads w !! i) as [[|R c k]|] eqn:E; [done| |done].
    destruct (match f with Fine => true | _ => fallible c end) eqn:Ef; [|done]. intros [= <-].
    constructor; [done|]. destruct f; auto.
Qed.

Lemma play_app ms1 ms2 w : play (ms1 ++ ms2) w = play ms1 w ≫= play ms2.
Proof.
  unfold play. rewrite foldl_app. destruct (foldl _ (Some w) ms1); [done|]. cbn.
  induction ms2 as [|m ms2 IH]; [done|exact IH].
Qed.

Lemma play_sound ms w w' : play ms w = Some w' -> rtc pay_step w w'.
Proof.
  revert w. induction ms as [|m ms IH]; intros w; [by intros [= <-]|].
  change (m :: ms) with ([m] ++ ms). rewrite play_app. cbn [play foldl mbind option_bind].
  destruct (play1 w m) as [w1|] eqn:E; [|done]. intros H. eapply rtc_l; [by eapply play1_sound|by apply IH].
Qed.

(** The tables after a schedule from the empty tables. *)
Definition played (ms : list move) : option pay_world := play ms (initial_pay 0).

Lemma played_reachable ms w : played ms = Some w -> reachable w.
Proof. intros H. exists 0%Z. by eapply play_sound. Qed.

(** ** Requests that run alone and without faults *)

(** Such runs are runs of the system. *)
Lemma alone_steps sv i p w : pw_threads w !! i = Some p ->
  exists w', rtc pay_step w w' /\ pw_db w' = (alone (@exec (pw_clock w) sv) p (pw_db w)).2 /\
    pw_threads w' !! i = Some (Ret (alone (@exec (pw_clock w) sv) p (pw_db w)).1).
Proof.
  revert w. induction p as [a|R c k IH]; intros w Hi; [by exists w|].
  set (w1 := after_call w i Fine sv c k).
  destruct (IH (Some (exec (pw_clock w) sv c (pw_db w)).1) w1) as (w' & H1 & H2 & H3).
  { cbn. apply list_lookup_insert_eq. by eapply lookup_lt_Some. }
  exists w'. split; [|done]. eapply rtc_l; [|exact H1]. constructor; auto.
Qed.

Lemma start_alone sv rq w : exists w', rtc pay_step w w' /\
  pw_db w' = (alone (@exec (pw_clock w) sv) (start rq) (pw_db w)).2.
Proof.
  set (w1 := w <| pw_threads := pw_threads w ++ [start rq] |>
    <| pw_evidence := pw_evidence w ++ request_evidence rq |>).
  destruct (alone_steps sv (length (pw_threads w)) (start rq) w1) as (w' & H1 & H2 & _).
  { cbn. by rewrite lookup_app_r, Nat.sub_diag. }
  exists w'. split; [|done]. eapply rtc_l; [|exact H1]. constructor.
Qed.

(** The checks of [confirmPayment]. *)
Definition accepts (sv : services) (o : PaymentOrder) (n : PaymentNotification) (pk : string) : bool :=
  let expected := expectedNotificationProviderKeyForOrder registry o (default "" (sv_instance_key sv)) in
  (is_empty expected || is_empty (TrimSpace pk) || EqualFold unicode_fold expected (TrimSpace pk))
  && validateProviderSnapshotMetadata unicode_upper unicode_fold o pk (pn_Metadata n)
  && isValidProviderAmount (pn_Amount n) && negb (amountMismatch unicode_upper (pn_Amount n) o).

Lemma audit_run clock sv oid action operator {A : Type} (p : prog A) db :
  alone (@exec clock sv) (audit oid action operator p) db =
  alone (@exec clock sv) p (InsertAudit oid action operator db).2.
Proof. done. Qed.

(** The database up to audit rows. *)
Definition apart_from_audit (db db' : pay_db) : Prop := db' = db <| db_audit := db_audit db' |>.

Lemma InsertAudit_apart oid action operator db : apart_from_audit db (InsertAudit oid action operator db).2.
Proof. unfold InsertAudit. destruct (_ !! _); [by destruct db|done]. Qed.

(** What [confirmPayment] does with an order of the table. *)
Lemma confirm_run clock sv db n pk o : db_orders db !! po_ID o = Some o ->
  let r := alone (@exec clock sv) (confirmPayment unicode_upper unicode_fold registry affiliate message
    (po_ID o) (pn_TradeNo n) (pn_Amount n) pk (pn_Metadata n)) db in
  if accepts sv o n pk
  then r = alone (@exec clock sv) (toPaid affiliate message o (pn_TradeNo n) (pn_Amount n) pk) db
  else r.1 <> None /\ apart_from_audit db r.2.
Proof.
  intros Ho. unfold confirmPayment. rewrite alone_do. cbn [exec fst snd]. rewrite Ho, alone_do.
  cbn [exec fst snd default from_option id]. unfold accepts. cbv zeta.
  generalize (expectedNotificationProviderKeyForOrder registry o (default "" (sv_instance_key sv))). intros expected.
  assert (Hcheck : negb (is_empty expected) && negb (is_empty (TrimSpace pk))
       && negb (EqualFold unicode_fold expected (TrimSpace pk)) =
     negb (is_empty expected || is_empty (TrimSpace pk) || EqualFold unicode_fold expected (TrimSpace pk)))
    by by rewrite !negb_orb.
  rewrite Hcheck.
  destruct (is_empty expected || _ || _); cbn [negb andb]; [|rewrite audit_run; split; [done|apply InsertAudit_apart]].
  destruct (validateProviderSnapshotMetadata _ _ o pk _); cbn [negb andb];
    [|rewrite audit_run; split; [done|apply InsertAudit_apart]].
  destruct (isValidProviderAmount _); cbn [negb andb]; [|rewrite audit_run; split; [done|apply InsertAudit_apart]].
  destruct (amountMismatch _ _ _); cbn [negb andb]; [|done].
  rewrite audit_run; split; [done|apply InsertAudit_apart].
Qed.

Lemma notification_run clock sv db n pk o :
  findByOutTradeNo (pn_OrderID n) db = Found o -> pn_Status n = NotificationStatusSuccess ->
  alone (@exec clock sv) (HandlePaymentNotification unicode_upper unicode_fold registry affiliate message n pk) db =
  alone (@exec clock sv) (confirmPayment unicode_upper unicode_fold registry affiliate message
    (po_ID o) (pn_TradeNo n) (pn_Amount n) pk (pn_Metadata n)) db.
Proof.
  intros Hf Hs. unfold HandlePaymentNotification. rewrite Hs. cbn [negb String.eqb].
  change (NotificationStatusSuccess =s NotificationStatusSuccess) with true. cbn [negb].
  rewrite alone_do. cbn [exec fst snd]. by rewrite Hf.
Qed.

(** A notification for an order that fails the check of the provider, of its
    metadata or of the amount returns an error and writes nothing but an audit row. *)
Theorem rejected_notification clock sv db n pk o :
  findByOutTradeNo (pn_OrderID n) db = Found o -> db_orders db !! po_ID o = Some o ->
  pn_Status n = NotificationStatusSuccess -> accepts sv o n pk = false ->
  let r := alone (@exec clock sv) (HandlePaymentNotification unicode_upper unicode_fold registry affiliate message n pk) db in
  r.1 <> None /\ apart_from_audit db r.2.
Proof.
  intros Hf Ho Hs Ha. cbv zeta. rewrite (notification_run _ _ _ _ _ o) by done.
  pose proof (confirm_run clock sv db n pk o Ho) as H. cbv zeta in H. by rewrite Ha in H.
Qed.

(** *** A confirmed order is completed *)

Lemma updateOrder_run clock oid guard f db o : db_orders db !! oid = Some o -> guard o = true ->
  updateOrder clock oid guard f db =
  (1%Z, db <| db_orders := <[ oid := f o <| po_UpdatedAt := clock |> ]> (db_orders db) |>).
Proof. intros Ho Hg. unfold updateOrder. by rewrite Ho, Hg. Qed.

Lemma findCode_new db code : findCode (rc_Code code) db = None ->
  findCode (rc_Code code) (InsertCode code db).2 = Some (code <| rc_ID := db_next_code db |>).
Proof.
  intros Hn. unfold InsertCode. rewrite Hn. cbv zeta. cbn [snd].
  set (db' := db <| db_codes := _ |> <| db_next_code := _ |>).
  assert (Hnew : db_codes db' !! db_next_code db = Some (code <| rc_ID := db_next_code db |>))
    by apply lookup_insert_eq.
  destruct (findCode (rc_Code code) db') as [c|] eqn:E.
  - apply findCode_Some in E as [Hc (id & Hid)]. destruct (decide (id = db_next_code db)) as [->|Hne]; [congruence|].
    cbn in Hid. rewrite lookup_insert_ne in Hid by done. by destruct (findCode_None _ _ _ _ Hn Hid).
  - by destruct (findCode_None _ _ _ _ E Hnew).
Qed.

(** The rows of an unused code without a term. *)
Definition redeemable (c : RedeemCode) : Prop :=
  rc_Status c = StatusUnused /\ rc_ExpiresAt c = None /\ rc_Type_ c = RedeemTypeBalance /\
  flt (rc_Value c) fzero = false.

Lemma redeemLocked_run clock sv uid code db c :
  findCode code db = Some c -> db_codes db !! rc_ID c = Some c -> redeemable c ->
  exists db', alone (@exec clock sv) (redeemLocked uid code) db = (None, db') /\ db_orders db' = db_orders db /\
    db_grants db' = db_grants db ++ [MkGranted (rc_ID c) uid (GrantBalance (rc_Value c))].
Proof.
  intros Hf Hc (Hs & He & Ht & Hv).
  unfold redeemLocked. rewrite alone_do. cbn [exec fst snd]. rewrite Hf, alone_do. cbn [exec fst snd default from_option id].
  assert (Hx : IsExpiredAt c clock = false) by (unfold IsExpiredAt; by rewrite Hs, He).
  assert (Hu : CanUse c clock = true) by (unfold CanUse; by rewrite Hx, Hs).
  rewrite Hx, alone_do. cbn [exec fst snd default from_option id]. rewrite Hu, Ht. cbn [negb].
  change ((RedeemTypeBalance =s RedeemTypeSubscription) && _) with false.
  change (negb ((RedeemTypeBalance =s RedeemTypeBalance) || _ || _)) with false. cbv iota.
  rewrite alone_do. cbn [exec fst snd]. destruct (sv_user sv) as [balance concurrency]. unfold grantOf.
  rewrite Ht, Hv. change (RedeemTypeBalance =s RedeemTypeBalance) with true. cbn [andb]. cbv zeta iota.
  rewrite alone_do. cbn [exec fst snd]. unfold RedeemTx. rewrite Hc, Hs.
  change (StatusUnused =s StatusUnused) with true. cbv iota. cbn [fst snd].
  rewrite alone_do. cbn [exec fst snd]. cbn. rewrite lookup_insert_eq. cbn. eexists. split_and!; done.
Qed.

Lemma Redeem_run clock sv uid code db c :
  sv_rate_limited sv = false -> sv_lock sv = true ->
  findCode code db = Some c -> db_codes db !! rc_ID c = Some c -> redeemable c ->
  exists db', alone (@exec clock sv) (Redeem uid code) db = (None, db') /\ db_orders db' = db_orders db /\
    db_grants db' = db_grants db ++ [MkGranted (rc_ID c) uid (GrantBalance (rc_Value c))].
Proof.
  intros Hl Hk Hf Hc Hr. destruct (redeemLocked_run clock sv uid code db c Hf Hc Hr) as (db' & E & H).
  exists db'. split; [|done]. unfold Redeem. rewrite alone_do. cbn [exec fst snd yes default from_option id].
  rewrite Hl, alone_do. cbn [exec fst snd default from_option id]. rewrite Hk. cbn [negb]. rewrite alone_bind, E. done.
Qed.

Lemma CreateCode_run clock sv db o :
  TrimSpace (po_RechargeCode o) = po_RechargeCode o -> is_empty (po_RechargeCode o) = false ->
  feq (po_Amount o) fzero = false -> findCode (po_RechargeCode o) db = None ->
  alone (@exec clock sv) (CreateCode (rechargeCodeOf o)) db = (None, (InsertCode (rechargeCodeOf o) db).2).
Proof.
  intros Ht He Hz Hn. unfold CreateCode. cbv zeta.
  assert (Hsame : rechargeCodeOf o <| rc_Code := TrimSpace (rc_Code (rechargeCodeOf o)) |> = rechargeCodeOf o).
  { change (rc_Code (rechargeCodeOf o)) with (po_RechargeCode o). by rewrite Ht. }
  rewrite Hsame. change (rc_Code (rechargeCodeOf o)) with (po_RechargeCode o). rewrite He.
  change (is_empty (rc_Type_ (rechargeCodeOf o))) with false. cbv iota.
  change (rc_Value (rechargeCodeOf o)) with (po_Amount o). rewrite Hz, andb_false_r.
  change (is_empty (rc_Status (rechargeCodeOf o))) with false. cbv iota.
  rewrite alone_do. cbn [exec fst snd default from_option id].
  change (IsExpiredAt (rechargeCodeOf o) clock) with false. cbv iota. rewrite alone_do. cbn [exec].
  unfold InsertCode. change (rc_Code (rechargeCodeOf o)) with (po_RechargeCode o). rewrite Hn. done.
Qed.

Lemma rebate_run clock sv db o :
  (alone (@exec clock sv) (applyAffiliateRebateForOrder affiliate o) db).1 = None /\
  db_orders (alone (@exec clock sv) (applyAffiliateRebateForOrder affiliate o) db).2 = db_orders db /\
  db_grants (alone (@exec clock sv) (applyAffiliateRebateForOrder affiliate o) db).2 = db_grants db.
Proof.
  unfold applyAffiliateRebateForOrder. cbv zeta. destruct (fle _ _); [done|]. destruct affiliate; [|done]. cbn.
  unfold RebateTx. destruct (_ || _); [done|]. by destruct (fle _ _).
Qed.

(** [finishBalance] on a row that is being recharged. *)
Lemma finishBalance_run clock sv db o row :
  db_orders db !! po_ID o = Some row -> po_Status row = OrderStatusRecharging ->
  exists db', alone (@exec clock sv) (finishBalance affiliate o) db = (None, db') /\
    db_orders db' !! po_ID o = Some (row <| po_Status := OrderStatusCompleted |>
      <| po_CompletedAt := Some clock |> <| po_UpdatedAt := clock |>) /\
    db_grants db' = db_grants db.
Proof.
  intros Ho Hs. unfold finishBalance. rewrite alone_bind. destruct (rebate_run clock sv db o) as (R1 & R2 & R3).
  cbv zeta. rewrite R1. set (db1 := (alone _ (applyAffiliateRebateForOrder _ _) _).2) in *.
  unfold markCompleted. rewrite alone_do. cbn [exec fst snd default from_option id].
  rewrite alone_do. cbn [exec]. unfold UpdateToCompleted.
  rewrite (updateOrder_run _ _ _ _ _ row); [|by rewrite R2|unfold status_in; rewrite Hs; by apply bool_decide_eq_true_2, list_elem_of_singleton].
  cbn [fst snd]. rewrite audit_run. eexists. split; [done|].
  pose proof (InsertAudit_apart (po_ID o) "RECHARGE_SUCCESS" "system") as Ha. rewrite Ha. cbn.
  by rewrite lookup_insert_eq.
Qed.

(** An order whose amount can be credited with its code. *)
Definition creditable (o : PaymentOrder) : Prop :=
  TrimSpace (po_RechargeCode o) = po_RechargeCode o /\ is_empty (po_RechargeCode o) = false /\
  feq (po_Amount o) fzero = false /\ flt (po_Amount o) fzero = false.

Definition credit (db : pay_db) (o : PaymentOrder) : granted :=
  MkGranted (db_next_code db) (po_UserID o) (GrantBalance (po_Amount o)).

Definition completed (clock : Z) (row : PaymentOrder) : PaymentOrder :=
  row <| po_Status := OrderStatusCompleted |> <| po_CompletedAt := Some clock |> <| po_UpdatedAt := clock |>.

Section Alone.
Context (clock : Z) (sv : services).
Context (Hlimit : sv_rate_limited sv = false) (Hlock : sv_lock sv = true).

Lemma doBalance_run db o row :
  creditable o -> findCode (po_RechargeCode o) db = None ->
  db_orders db !! po_ID o = Some row -> po_Status row = OrderStatusRecharging ->
  exists db', alone (@exec clock sv) (doBalance affiliate o) db = (None, db') /\
    db_orders db' !! po_ID o = Some (completed clock row) /\ db_grants db' = db_grants db ++ [credit db o].
Proof.
  intros (Ht & He & Hz & Hv) Hn Ho Hs. unfold doBalance. rewrite alone_do. cbn [exec fst snd default from_option id].
  rewrite Hn. cbn [resolveRedeemAction]. rewrite alone_bind, CreateCode_run by done. cbn [fst snd].
  pose proof (findCode_new db (rechargeCodeOf o) Hn) as Hf. change (rc_Code (rechargeCodeOf o)) with (po_RechargeCode o) in Hf.
  set (db1 := (InsertCode (rechargeCodeOf o) db).2) in *.
  assert (H1 : db_orders db1 = db_orders db /\ db_grants db1 = db_grants db /\
    db_codes db1 !! db_next_code db = Some (rechargeCodeOf o <| rc_ID := db_next_code db |>)).
  { subst db1. unfold InsertCode. change (rc_Code (rechargeCodeOf o)) with (po_RechargeCode o). rewrite Hn.
    split_and!; [done|done|apply lookup_insert_eq]. }
  destruct H1 as (Ho1 & Hg1 & Hc1).
  destruct (Redeem_run clock sv (po_UserID o) _ db1 _ Hlimit Hlock Hf Hc1) as (db2 & E2 & Ho2 & Hg2); [done|].
  unfold redeemAndFinish. rewrite alone_bind, E2. cbn [fst snd].
  destruct (finishBalance_run clock sv db2 o row) as (db3 & E3 & Ho3 & Hg3); [by rewrite Ho2, Ho1|done|].
  exists db3. rewrite E3. split_and!; [done|done|]. rewrite Hg3, Hg2, Hg1. done.
Qed.

Lemma ExecuteBalanceFulfillment_run db o :
  creditable o -> findCode (po_RechargeCode o) db = None ->
  db_orders db !! po_ID o = Some o -> po_Status o = OrderStatusPaid -> po_OrderType o = OrderTypeBalance ->
  exists db', alone (@exec clock sv) (ExecuteBalanceFulfillment affiliate message (po_ID o)) db = (None, db') /\
    db_orders db' !! po_ID o = Some (completed clock o) /\ db_grants db' = db_grants db ++ [credit db o].
Proof.
  intros Hc Hn Ho Hs Ht. unfold ExecuteBalanceFulfillment. rewrite alone_do. cbn [exec fst snd]. rewrite Ho, Ht, Hs.
  change (negb (OrderTypeBalance =s OrderTypeBalance)) with false.
  change (OrderStatusPaid =s OrderStatusCompleted) with false. cbv iota.
  assert (Hf : fulfillable o = None) by (unfold fulfillable; by rewrite Hs). rewrite Hf. unfold lockedFulfilment.
  rewrite alone_do. cbn [exec]. unfold UpdateToRecharging.
  rewrite (updateOrder_run _ _ _ _ _ o Ho) by (unfold status_in; rewrite Hs; by apply bool_decide_eq_true_2, list_elem_of_here).
  cbn [fst snd]. change (1 =? 0)%Z with false. cbv iota. rewrite alone_bind.
  set (row := o <| po_Status := OrderStatusRecharging |> <| po_UpdatedAt := clock |>).
  destruct (doBalance_run (db <| db_orders := <[ po_ID o := row ]> (db_orders db) |>) o row) as (db' & E & Ho' & Hg');
    [done|done|apply lookup_insert_eq|done|].
  exists db'. rewrite E. split_and!; done.
Qed.

Lemma toPaid_run db o tradeNo paid pk :
  creditable o -> findCode (po_RechargeCode o) db = None -> db_orders db !! po_ID o = Some o ->
  po_Status o = OrderStatusPending -> po_OrderType o = OrderTypeBalance ->
  exists db' row, alone (@exec clock sv) (toPaid affiliate message o tradeNo paid pk) db = (None, db') /\
    db_orders db' !! po_ID o = Some row /\ po_Status row = OrderStatusCompleted /\ po_PaidAt row = Some clock /\
    db_grants db' = db_grants db ++ [credit db o].
Proof.
  intros Hc Hn Ho Hs Ht. unfold toPaid. rewrite alone_do. cbn [exec fst snd default from_option id].
  rewrite alone_do. cbn [exec]. unfold UpdateToPaid. cbv zeta.
  rewrite (updateOrder_run _ _ _ _ _ o Ho) by (unfold status_in; by rewrite Hs).
  cbn [fst snd]. change (1 =? 0)%Z with false. cbv iota.
  set (row := (o <| po_Status := OrderStatusPaid |> <| po_PayAmount := _ |> <| po_PaymentTradeNo := _ |>
    <| po_PaidAt := _ |> <| po_FailedAt := _ |> <| po_FailedReason := _ |>) <| po_UpdatedAt := clock |>).
  unfold status_in at 1. rewrite Hs. cbn [bool_decide decide]. change (bool_decide (OrderStatusPending ∈ [OrderStatusCancelled; OrderStatusExpired])) with false. cbv iota.
  rewrite audit_run. set (db1 := db <| db_orders := <[ po_ID o := row ]> (db_orders db) |>).
  pose proof (InsertAudit_apart (po_ID o) "ORDER_PAID" pk db1) as Ha.
  set (db2 := (InsertAudit _ _ _ db1).2) in *. clearbody db2. unfold executeFulfillment.
  assert (Hrow : db_orders db2 !! po_ID row = Some row) by (rewrite Ha; apply lookup_insert_eq).
  change (po_ID o) with (po_ID row). rewrite alone_do. cbn [exec fst snd]. rewrite Hrow.
  change (po_OrderType row) with (po_OrderType o). rewrite Ht.
  change (OrderTypeBalance =s OrderTypeSubscription) with false.
  change (OrderTypeBalance =s OrderTypeBalance) with true. cbv iota.
  destruct (ExecuteBalanceFulfillment_run db2 row) as (db' & E & Ho' & Hg'); [done|by rewrite Ha|done|done|done|].
  exists db', (completed clock row). rewrite E. split_and!; [done|done|done|done|]. rewrite Hg', Ha. done.
Qed.
End Alone.

End Payments.

(** ** Concrete runs *)

Definition sample_services : services :=
  MkServices (Some "stripe") false true (fzero, 1%Z) true (float_of_Z 1) (MkProvider "stripe" true)
    (MkQueryOrderResponse "T1" "pending" fzero ∅) ("T1", "inst1", "stripe") (fun x => x).

Definition sample_order (kind currency : string) (amount price : float64) : PaymentOrder :=
  MkPaymentOrder 0 7 amount fzero price "" "sub2_N1" "stripe" "" kind "" None (Some "stripe")
    {[ "currency" := SnapString currency ]} (Some 3%Z) (Some 30%Z) None None None None fzero None None false None None None 1000 0 0.

(** Thread [i] makes [n] calls without a fault. *)
Definition calls (i n : nat) : list move := replicate n (MCall i Fine sample_services).

Definition sample_notification (amount : float64) : PaymentNotification :=
  MkPaymentNotification "T1" "sub2_N1" amount NotificationStatusSuccess ∅.

(** The tables of the [unicode] package are not needed for these texts. *)
Abbreviation ascii_played := (played (fun s => s) (fun _ _ => false) None true (fun _ => "failed")).
Abbreviation ascii_reachable := (reachable (fun s => s) (fun _ _ => false) None true (fun _ => "failed")).

Definition outcome (ms : list move) : pay_world := default (initial_pay 0) (ascii_played ms).

Lemma outcome_reachable ms : (if ascii_played ms then true else false) = true -> ascii_reachable (outcome ms).
Proof.
  unfold outcome. destruct (ascii_played ms) as [w|] eqn:E; [|done]. intros _. by eapply played_reachable.
Qed.

Definition twenty : float64 := float_of_Z 20.

(** An order is placed; its notification arrives and is processed. *)
Definition placed_world : pay_world :=
  outcome ([MStart (ReqPlace (sample_order "balance" "CNY" twenty twenty))] ++ calls 0 4).

Definition credited_world : pay_world :=
  outcome ([MStart (ReqPlace (sample_order "balance" "CNY" twenty twenty))] ++ calls 0 4 ++
           [MStart (ReqNotify (sample_notification twenty) "stripe")] ++ calls 1 25).

(** The subscription is extended, but the answer of the service is lost; the order fails
    and is retried. *)
Definition retried_world : pay_world :=
  outcome ([MStart (ReqPlace (sample_order "subscription" "CNY" twenty twenty))] ++ calls 0 4 ++
           [MStart (ReqNotify (sample_notification twenty) "stripe")] ++ calls 1 12 ++
           [MCall 1 LostReply sample_services] ++ calls 1 3 ++
           [MStart (ReqRetry 1)] ++ calls 2 15).

(** A [decimal(20,2)] column, for amounts that are not negative. *)
Definition two_digits (x : float64) : float64 :=
  fdiv (float_of_Z (float_to_int (fadd (SpecFloat.SFmul 53 1024 x (float_of_Z 100)) (fdiv (float_of_Z 1) (float_of_Z 2)))))
    (float_of_Z 100).

Definition dinar_price : float64 := fdiv (float_of_Z 1234) (float_of_Z 1000).

Definition dinar_services : services :=
  MkServices (Some "stripe") false true (fzero, 1%Z) true (float_of_Z 1) (MkProvider "stripe" true)
    (MkQueryOrderResponse "T1" "pending" fzero ∅) ("T1", "inst1", "stripe") two_digits.

(** The notification of exactly the price that was placed. *)
Definition dinar_world : pay_world :=
  outcome ([MStart (ReqPlace (sample_order "balance" "KWD" dinar_price dinar_price))] ++
           replicate 4 (MCall 0 Fine dinar_services) ++
           [MStart (ReqNotify (sample_notification dinar_price) "stripe")] ++
           replicate 4 (MCall 1 Fine dinar_services)).



Lemma credit_implies_payment_witness : exists g, ascii_reachable credited_world /\
  g ∈ db_grants (pw_db credited_world) /\
  exists (oid : Z) (placed : PaymentOrder) (e : string * float64),
    pw_placed credited_world !! oid = Some placed /\ e ∈ pw_evidence credited_world /\ pays (fun s => s) e placed.
Proof.
  assert (H1 : ascii_reachable credited_world) by (apply outcome_reachable; vm_compute; reflexivity).
  eexists. assert (H2 : head (db_grants (pw_db credited_world)) = Some _) by (vm_compute; reflexivity).
  apply head_Some_elem_of in H2. split; [exact H1|]. split; [exact H2|].
  destruct (credit_implies_payment _ _ _ _ _ credited_world _ H1 H2) as (oid & placed & e & c & K1 & K2 & K3 & _).
  exists oid, placed, e. auto.
Defined.


