(* ===== verification/PaymentRefunds.v ===== *)
(** * Refunds of payment orders

    [service/payment_refund.go]: requests of users, preparation and execution of refunds by
    administrators, refunds that a provider keeps pending, and their finalization.  As in
    the file on payment orders, handlers are programs with explicit calls; a database
    transaction is one call. *)

From stdpp Require Import pretty.
From S2P Require Import Prelude GoStrings GoFloat Programs PaymentOrders.

(** ** Data *)

Definition DeductionTypeBalance : string := "balance".
Definition DeductionTypeSubscription : string := "subscription".
Definition DeductionTypeNone : string := "none".

Definition ProviderStatusPending : string := "pending".
Definition ProviderStatusFailed : string := "failed".
Definition ProviderStatusRefunded : string := "refunded".

Record RefundPlan := MkRefundPlan {
  rp_OrderID : Z;
  rp_Order : PaymentOrder;
  rp_RefundAmount : float64;
  rp_GatewayAmount : float64;
  rp_Reason : string;
  rp_Force : bool;
  rp_DeductBalance : bool;
  rp_DeductionType : string;
  rp_BalanceToDeduct : float64;
  rp_SubDaysToDeduct : Z;
  rp_SubscriptionID : Z;
  rp_deductionHeld : bool;
  rp_subscriptionRevoked : bool
}.

#[export] Instance eta_RefundPlan : Eta RefundPlan := fun r =>
  MkRefundPlan (rp_OrderID r) (rp_Order r) (rp_RefundAmount r) (rp_GatewayAmount r) (rp_Reason r)
    (rp_Force r) (rp_DeductBalance r) (rp_DeductionType r) (rp_BalanceToDeduct r)
    (rp_SubDaysToDeduct r) (rp_SubscriptionID r) (rp_deductionHeld r) (rp_subscriptionRevoked r).

Record RefundResult := MkRefundResult {
  rr_Success : bool;
  rr_Warning : string;
  rr_RequireForce : bool;
  rr_BalanceDeducted : float64;
  rr_SubDaysDeducted : Z
}.

(** A result without success. *)
Definition warned (warning : string) : RefundResult := MkRefundResult false warning false fzero 0.
Definition requireForce (warning : string) : RefundResult := MkRefundResult false warning true fzero 0.

Record RefundResponse := MkRefundResponse { rf_RefundID : string; rf_Status : string }.

(** The detail of a [REFUND_PENDING] audit row. *)
Record refundPendingAuditDetail := MkPendingDetail {
  pd_RefundID : string;
  pd_DeductionRollbackOK : bool;
  pd_DeductionHeld : bool;
  pd_DeductionType : string;
  pd_BalanceDeducted : float64;
  pd_SubDaysDeducted : Z;
  pd_SubscriptionID : Z;
  pd_SubscriptionRevoked : bool
}.

Definition applyTo (d : refundPendingAuditDetail) (p : RefundPlan) : RefundPlan :=
  p <| rp_deductionHeld := true |>
    <| rp_DeductionType := if is_empty (pd_DeductionType d) then DeductionTypeNone else pd_DeductionType d |>
    <| rp_BalanceToDeduct := pd_BalanceDeducted d |> <| rp_SubDaysToDeduct := pd_SubDaysDeducted d |>
    <| rp_SubscriptionID := pd_SubscriptionID d |> <| rp_subscriptionRevoked := pd_SubscriptionRevoked d |>.

(** What [latestRefundPendingDetail] returns for an order without a record. *)
Definition legacyPendingDetail : refundPendingAuditDetail :=
  MkPendingDetail "" true false "" fzero 0 0 false.

(** The columns of a provider instance that refunds depend on. *)
Record instance := MkInstance { in_RefundEnabled : bool; in_AllowUserRefund : bool }.

(** The adapter of the provider of an order: its key and merchant identity. *)
Record refund_provider := MkRefundProvider {
  rv_key : string;
  rv_metadata : gmap string string;
  rv_queries : bool
}.

Inductive refund_error :=
  | RefNotFound
  | RefForbidden
  | RefInvalidOrderType
  | RefInvalidStatus
  | RefUserRefundDisabled
  | RefBalanceNotEnough
  | RefGetUser
  | RefUpdate
  | RefConflict
  | RefProviderLookup
  | RefDisabled
  | RefInvalidAmount
  | RefAmountExceeded
  | RefLock
  | RefDeduction
  | RefRestorePartial
  | RefRestoreStatus
  | RefRevoke
  | RefDeductDays
  | RefGetProvider
  | RefMetadata
  | RefGateway
  | RefResponse
  | RefGatewayFailed
  | RefMark
  | RefMarkPending
  | RefQueryUnsupported
  | RefPendingDetail
  | RefQuery
  | RefFinalize
  | RefPaymentRefundFailed.

(** A result or an error. *)
Inductive refund_out := Done (r : RefundResult) | Err (e : refund_error).

(** ** Tables *)

(** What happened to balances and subscriptions because of an order. *)
Inductive adjustment :=
  | Deducted (amount : float64)
  | Restored (amount : float64)
  | Extended (subscription days : Z)
  | Revoked (subscription : Z)
  | Reinstated (subscription : Z).

(** Refunds of the payment providers, in the order in which they were asked for. *)
Inductive gateway_status := GatewayPending | GatewaySucceeded | GatewayFailed.

Record gateway_refund := MkGatewayRefund { gw_order : Z; gw_amount : float64; gw_status : gateway_status }.

(** [rd_pending] has the details of the [REFUND_PENDING] rows of the audit table; that
    table has one row per order and action. *)
Record refund_db := MkRefundDb {
  rd_orders : gmap Z PaymentOrder;
  rd_audit : gmap (Z * string) string;
  rd_pending : gmap Z refundPendingAuditDetail;
  rd_gateway : list gateway_refund;
  rd_ledger : list (Z * adjustment)
}.

#[export] Instance eta_refund_db : Eta refund_db := fun r =>
  MkRefundDb (rd_orders r) (rd_audit r) (rd_pending r) (rd_gateway r) (rd_ledger r).

(** [UPDATE payment_orders ... WHERE id = oid AND guard]. *)
Definition updateRow (clock oid : Z) (guard : PaymentOrder -> bool) (f : PaymentOrder -> PaymentOrder)
    (db : refund_db) : Z * refund_db :=
  match rd_orders db !! oid with
  | Some o =>
    if guard o
    then (1%Z, db <| rd_orders := <[ oid := f o <| po_UpdatedAt := clock |> ]> (rd_orders db) |>)
    else (0%Z, db)
  | None => (0%Z, db)
  end.

Definition writeAudit (oid : Z) (action operator : string) (db : refund_db) : bool * refund_db :=
  match rd_audit db !! (oid, action) with
  | Some _ => (false, db)
  | None => (true, db <| rd_audit := <[ (oid, action) := operator ]> (rd_audit db) |>)
  end.

Definition auditExists (oid : Z) (action : string) (db : refund_db) : bool :=
  bool_decide (is_Some (rd_audit db !! (oid, action))).

Definition adjust (oid : Z) (a : adjustment) (db : refund_db) : refund_db :=
  db <| rd_ledger := rd_ledger db ++ [(oid, a)] |>.

(** ** Statements *)

Definition refundable : list string :=
  [OrderStatusCompleted; OrderStatusRefundRequested; OrderStatusRefundFailed].

(** [RequestRefund]. *)
Definition UpdateRequested (clock oid uid now : Z) (amount : float64) (reason by_ : string) (db : refund_db)
    : Z * refund_db :=
  updateRow clock oid
    (fun o => (po_UserID o =? uid)%Z && (po_Status o =s OrderStatusCompleted)
              && (po_OrderType o =s OrderTypeBalance))
    (fun o => o <| po_Status := OrderStatusRefundRequested |> <| po_RefundRequestedAt := Some now |>
                <| po_RefundRequestReason := Some reason |> <| po_RefundRequestedBy := Some by_ |>
                <| po_RefundAmount := amount |>) db.

(** The lock of [ExecuteRefund]. *)
Definition UpdateRefunding (clock oid : Z) (db : refund_db) : Z * refund_db :=
  updateRow clock oid (status_in refundable) (fun o => o <| po_Status := OrderStatusRefunding |>) db.

(** [restoreStatusChecked]. *)
Definition UpdateRestored (clock oid : Z) (status : string) (db : refund_db) : Z * refund_db :=
  updateRow clock oid (fun _ => true) (fun o => o <| po_Status := status |>) db.

Definition finalStatus (p : RefundPlan) : string :=
  if flt (rp_RefundAmount p) (po_Amount (rp_Order p)) then OrderStatusPartiallyRefunded else OrderStatusRefunded.

(** [markRefundOk]. *)
Definition UpdateRefundOk (clock now : Z) (p : RefundPlan) (db : refund_db) : Z * refund_db :=
  updateRow clock (rp_OrderID p) (fun _ => true)
    (fun o => o <| po_Status := finalStatus p |> <| po_RefundAmount := rp_RefundAmount p |>
                <| po_RefundReason := Some (rp_Reason p) |> <| po_RefundAt := Some now |>
                <| po_ForceRefund := rp_Force p |>) db.

(** [handleGwFail]. *)
Definition UpdateRefundFailed (clock oid now : Z) (reason : string) (db : refund_db) : Z * refund_db :=
  updateRow clock oid (fun _ => true)
    (fun o => o <| po_Status := OrderStatusRefundFailed |> <| po_FailedAt := Some now |>
                <| po_FailedReason := Some reason |>) db.

(** [deductRefundBalance] for a user with the given balance: [DeductAvailableBalanceExact] or
    [DeductAvailableBalance]. *)
Definition deductRefundBalance (balance amount : float64) (requireFull : bool) : option float64 :=
  if flt amount fzero then None
  else if requireFull then Some (if fle amount balance then amount else fzero)
  else Some (if fle amount (fmax balance fzero) then amount else fmax balance fzero).

(** ** Calls *)

Inductive extend_reply := ExtendOk | WouldExpire | ExtendError.

(** The results of the transactions of [finalizePendingRefundSuccess] and
    [finalizeRefundFailedTx]. *)
Inductive success_tx := SuccessConflict | SuccessError | SuccessCommitted (r : RefundResult).
Inductive failure_tx := FailureConflict | FailureError | ReturnFailed | FailureCommitted.

(** What other services answer in one call: the balance of the user, what the subscription
    service makes of an extension, whether it revokes and restores, whether balances can be
    restored, what a provider replies. *)
Record refund_services := MkRefundServices {
  rs_instance : option instance;
  rs_balance : float64;
  rs_subscription : option Z;
  rs_extend : extend_reply;
  rs_revoke : bool;
  rs_reinstate : bool;
  rs_restore : bool;
  rs_provider : refund_provider;
  rs_refund : option RefundResponse * bool;
  rs_answers : bool;
  rs_refund_id : string
}.

Inductive refund_call : Type -> Type :=
  | RNow : refund_call Z
  | RGetOrder (oid : Z) : refund_call (option PaymentOrder)
  | RefundInstance (oid : Z) : refund_call (option instance)
  | UserBalance (uid : Z) : refund_call float64
  | ActiveSubscription (uid gid : Z) : refund_call (option Z)
  | CallRequested (oid uid now : Z) (amount : float64) (reason by_ : string) : refund_call Z
  | CallRefunding (oid : Z) : refund_call Z
  | CallRestored (oid : Z) (status : string) : refund_call Z
  | CallRefundOk (now : Z) (p : RefundPlan) : refund_call Z
  | CallRefundFailed (oid now : Z) (reason : string) : refund_call Z
  | RWriteAudit (oid : Z) (action operator : string) : refund_call bool
  | RHasAudit (oid : Z) (action : string) : refund_call bool
  | DeductBalance (oid uid : Z) (amount : float64) (requireFull : bool) : refund_call (option float64)
  | RestoreBalance (oid uid : Z) (amount : float64) : refund_call bool
  | ExtendSubscription (oid subID days : Z) : refund_call extend_reply
  | RevokeSubscription (oid subID : Z) : refund_call bool
  | RestoreSubscription (oid subID : Z) : refund_call bool
  | RefundProvider (oid : Z) : refund_call refund_provider
  | GatewayRefund (oid : Z) (tradeNo outTradeNo : string) (amount : float64) (reason : string)
      : refund_call (option RefundResponse * bool)
  | QueryRefund (oid : Z) (tradeNo outTradeNo refundID : string) : refund_call (option RefundResponse)
  | PendingDetail (oid : Z) : refund_call (option refundPendingAuditDetail)
  | MarkPendingTx (p : RefundPlan) (refundID : string) : refund_call bool
  | FinalizeSuccessTx (p : RefundPlan) : refund_call success_tx
  | FinalizeFailedTx (p : RefundPlan) (rollback : bool) (reason : string) : refund_call failure_tx.

(** What a provider has done when it replies [resp] with an error or without: a refund was
    made when the status says so, it may still be made when the status is pending, and
    otherwise none is made. *)
Definition refundOutcome (reply : option RefundResponse * bool) : gateway_status :=
  match reply with
  | (Some resp, failed) =>
    let status := TrimSpace (rf_Status resp) in
    if status =s ProviderStatusPending then GatewayPending
    else if negb failed && ((status =s ProviderStatusSuccess) || (status =s ProviderStatusRefunded))
    then GatewaySucceeded else GatewayFailed
  | (None, _) => GatewayFailed
  end.

(** The answer to a query for the last refund of an order. *)
Definition refundsOf (oid : Z) (db : refund_db) : list gateway_refund :=
  filter (fun g => gw_order g = oid) (rd_gateway db).

Definition refundStatus (oid : Z) (db : refund_db) : string :=
  match gw_status <$> last (refundsOf oid db) with
  | Some GatewaySucceeded => ProviderStatusSuccess
  | Some GatewayFailed => ProviderStatusFailed
  | Some GatewayPending => ProviderStatusPending
  | None => ""
  end.

(** *** Transactions *)

(** [returnRefundSubscription] and [returnHeldRefundDeduction] in a transaction; [None] is an
    error, on which the transaction is rolled back. *)
Definition returnSubscriptionTx (sv : refund_services) (p : RefundPlan) (db : refund_db) : option refund_db :=
  if rp_subscriptionRevoked p
  then if rs_reinstate sv then Some (adjust (rp_OrderID p) (Reinstated (rp_SubscriptionID p)) db) else None
  else match rs_extend sv with
  | ExtendOk => Some (adjust (rp_OrderID p) (Extended (rp_SubscriptionID p) (rp_SubDaysToDeduct p)) db)
  | _ => None
  end.

Definition deducts_balance (p : RefundPlan) : bool :=
  (rp_DeductionType p =s DeductionTypeBalance) && flt fzero (rp_BalanceToDeduct p).

Definition deducts_subscription (p : RefundPlan) : bool :=
  (rp_DeductionType p =s DeductionTypeSubscription) && (0 <? rp_SubDaysToDeduct p)%Z
  && (0 <? rp_SubscriptionID p)%Z.

Definition returnHeldRefundDeduction (sv : refund_services) (p : RefundPlan) (db : refund_db)
    : option refund_db :=
  let returned :=
    if deducts_balance p
    then if rs_restore sv then Some (adjust (rp_OrderID p) (Restored (rp_BalanceToDeduct p)) db) else None
    else Some db in
  match returned with
  | None => None
  | Some db => if deducts_subscription p then returnSubscriptionTx sv p db else Some db
  end.

(** An audit row in a transaction: the unique index makes a second one an error. *)
Definition createPaymentAuditLogTx (oid : Z) (action : string) (db : refund_db) : option refund_db :=
  let r := writeAudit oid action "admin" db in if r.1 then Some r.2 else None.

(** [markRefundPending]: whether the transaction committed.  The detail is as it will be
    read: a [deductionRollbackOK] that is left out reads as true. *)
Definition markPendingTx (clock : Z) (p : RefundPlan) (refundID : string) (db : refund_db)
    : bool * refund_db :=
  let oid := rp_OrderID p in
  let r := updateRow clock oid (fun _ => true)
    (fun o => o <| po_Status := OrderStatusRefundPending |> <| po_RefundAmount := rp_RefundAmount p |>
                <| po_RefundReason := Some (rp_Reason p) |> <| po_RefundAt := None |>
                <| po_ForceRefund := rp_Force p |> <| po_FailedAt := None |> <| po_FailedReason := None |>) db in
  if (r.1 =? 0)%Z then (false, db) else
  match createPaymentAuditLogTx oid "REFUND_PENDING" r.2 with
  | None => (false, db)
  | Some db' =>
    (true, db' <| rd_pending := <[ oid := MkPendingDetail refundID true true (rp_DeductionType p)
        (rp_BalanceToDeduct p) (rp_SubDaysToDeduct p) (rp_SubscriptionID p) (rp_subscriptionRevoked p) ]>
        (rd_pending db') |>)
  end.

(** [applyRefundFinalDeduction]: the plan with what was deducted. *)
Definition applyRefundFinalDeduction (sv : refund_services) (p : RefundPlan) (db : refund_db)
    : option (RefundPlan * refund_db) :=
  if rp_deductionHeld p then Some (p, db) else
  let balance :=
    if deducts_balance p then
      match deductRefundBalance (rs_balance sv) (rp_BalanceToDeduct p) (negb (rp_Force p)) with
      | None => None
      | Some deducted =>
        if negb (rp_Force p) && flt deducted (rp_BalanceToDeduct p) then None
        else Some (p <| rp_BalanceToDeduct := deducted |>, adjust (rp_OrderID p) (Deducted deducted) db)
      end
    else Some (p, db) in
  match balance with
  | None => None
  | Some (p, db) =>
    if deducts_subscription p then
      match rs_extend sv with
      | ExtendOk => Some (p, adjust (rp_OrderID p) (Extended (rp_SubscriptionID p) (- rp_SubDaysToDeduct p)) db)
      | WouldExpire =>
        if rs_revoke sv then Some (p, adjust (rp_OrderID p) (Revoked (rp_SubscriptionID p)) db) else None
      | ExtendError => None
      end
    else Some (p, db)
  end.

Definition refundSucceeded (p : RefundPlan) : RefundResult :=
  MkRefundResult true "" false (rp_BalanceToDeduct p) (rp_SubDaysToDeduct p).

(** [finalizePendingRefundSuccess] with [markRefundOkTx]. *)
Definition finalizeSuccessTx (clock : Z) (sv : refund_services) (p : RefundPlan) (db : refund_db)
    : success_tx * refund_db :=
  let r := updateRow clock (rp_OrderID p) (status_in [OrderStatusRefundPending])
    (fun o => o <| po_Status := OrderStatusRefunding |>) db in
  if (r.1 =? 0)%Z then (SuccessConflict, db) else
  match applyRefundFinalDeduction sv p r.2 with
  | None => (SuccessError, db)
  | Some (p, db1) =>
    match createPaymentAuditLogTx (rp_OrderID p) "REFUND_SUCCESS" (UpdateRefundOk clock clock p db1).2 with
    | None => (SuccessError, db)
    | Some db2 => (SuccessCommitted (refundSucceeded p), db2)
    end
  end.

(** [finalizeRefundFailedTx]; [rollback] says that [rollbackErr] is set. *)
Definition finalizeFailedTx (clock : Z) (sv : refund_services) (p : RefundPlan) (rollback : bool)
    (reason : string) (db : refund_db) : failure_tx * refund_db :=
  let oid := rp_OrderID p in
  let r := updateRow clock oid (status_in [OrderStatusRefundPending])
    (fun o => o <| po_Status := OrderStatusRefundFailed |> <| po_FailedAt := Some clock |>
                <| po_FailedReason := Some reason |>) db in
  if (r.1 =? 0)%Z then (FailureConflict, db) else
  let returned := if rp_deductionHeld p && negb rollback then returnHeldRefundDeduction sv p r.2 else Some r.2 in
  match returned with
  | None => (ReturnFailed, db)
  | Some db1 =>
    let marked := if rollback then createPaymentAuditLogTx oid "REFUND_ROLLBACK_FAILED" db1 else Some db1 in
    match marked with
    | None => (FailureError, db)
    | Some db2 =>
      match createPaymentAuditLogTx oid "REFUND_FAILED" db2 with
      | None => (FailureError, db)
      | Some db3 => (FailureCommitted, db3)
      end
    end
  end.

(** A call at time [clock]. *)
Definition refund_exec (clock : Z) (sv : refund_services) {R : Type} (c : refund_call R) (db : refund_db)
    : R * refund_db :=
  match c in refund_call R return R * refund_db with
  | RNow => (clock, db)
  | RGetOrder oid => (rd_orders db !! oid, db)
  | RefundInstance _ => (rs_instance sv, db)
  | UserBalance _ => (rs_balance sv, db)
  | ActiveSubscription _ _ => (rs_subscription sv, db)
  | CallRequested oid uid now amount reason by_ => UpdateRequested clock oid uid now amount reason by_ db
  | CallRefunding oid => UpdateRefunding clock oid db
  | CallRestored oid status => UpdateRestored clock oid status db
  | CallRefundOk now p => UpdateRefundOk clock now p db
  | CallRefundFailed oid now reason => UpdateRefundFailed clock oid now reason db
  | RWriteAudit oid action operator => writeAudit oid action operator db
  | RHasAudit oid action => (auditExists oid action db, db)
  | DeductBalance oid _ amount requireFull =>
    let r := deductRefundBalance (rs_balance sv) amount requireFull in
    (r, match r with Some deducted => adjust oid (Deducted deducted) db | None => db end)
  | RestoreBalance oid _ amount =>
    (rs_restore sv, if rs_restore sv then adjust oid (Restored amount) db else db)
  | ExtendSubscription oid subID days =>
    (rs_extend sv, match rs_extend sv with ExtendOk => adjust oid (Extended subID days) db | _ => db end)
  | RevokeSubscription oid subID => (rs_revoke sv, if rs_revoke sv then adjust oid (Revoked subID) db else db)
  | RestoreSubscription oid subID =>
    (rs_reinstate sv, if rs_reinstate sv then adjust oid (Reinstated subID) db else db)
  | RefundProvider _ => (rs_provider sv, db)
  | GatewayRefund oid _ _ amount _ =>
    (rs_refund sv,
     db <| rd_gateway := rd_gateway db ++ [MkGatewayRefund oid amount (refundOutcome (rs_refund sv))] |>)
  | QueryRefund oid _ _ _ =>
    (if rs_answers sv then Some (MkRefundResponse (rs_refund_id sv) (refundStatus oid db)) else None, db)
  | PendingDetail oid => (rd_pending db !! oid, db)
  | MarkPendingTx p refundID => markPendingTx clock p refundID db
  | FinalizeSuccessTx p => finalizeSuccessTx clock sv p db
  | FinalizeFailedTx p rollback reason => finalizeFailedTx clock sv p rollback reason db
  end.

Abbreviation rprog := (Programs.prog refund_call).

(** ** Amounts *)

Section Refunds.
(** Tables of the [unicode] package, the arithmetic of the decimal library
    ([Round], and [Mul], [Div] and [Round]), and the texts of errors. *)
Variable unicode_upper : string -> string.
Variable unicode_fold : string -> string -> bool.
Variable decimalRound : float64 -> Z -> float64.
Variable decimalShare : float64 -> float64 -> float64 -> Z -> float64.
Variable message : refund_error -> string.

Definition CurrencyMaxFractionDigits (currency : string) : Z :=
  match NormalizePaymentCurrency unicode_upper currency with
  | Some c => (paymentCurrencyAmountUnits c).2
  | None => 2%Z
  end.

Definition calculateGatewayRefundAmount (orderAmount payAmount refundAmount : float64) (currency : string)
    : float64 :=
  if fle orderAmount fzero || fle payAmount fzero || fle refundAmount fzero then fzero else
  let fractionDigits := CurrencyMaxFractionDigits currency in
  if fle (fabs (fsub refundAmount orderAmount)) (paymentAmountToleranceForCurrency unicode_upper currency)
  then decimalRound payAmount fractionDigits
  else decimalShare payAmount refundAmount orderAmount fractionDigits.

(** [math.Min]. *)
Definition fmin (x y : float64) : float64 :=
  match x, y with
  | SpecFloat.S754_infinity true, _ | _, SpecFloat.S754_infinity true => SpecFloat.S754_infinity true
  | SpecFloat.S754_nan, _ | _, SpecFloat.S754_nan => SpecFloat.S754_nan
  | SpecFloat.S754_zero sx, SpecFloat.S754_zero _ => if sx then x else y
  | _, _ => if flt x y then x else y
  end.

(** ** Requests of users *)

Definition raudit (oid : Z) (action operator : string) {A : Type} (p : rprog A) : rprog A :=
  RWriteAudit oid action operator ;* p.

Definition validateRefundRequest (oid uid : Z) : rprog (PaymentOrder + refund_error) :=
  let* found := RGetOrder oid in
  match found with
  | Some (Some o) =>
    if negb (po_UserID o =? uid)%Z then Ret (inr RefForbidden)
    else if negb (po_OrderType o =s OrderTypeBalance) then Ret (inr RefInvalidOrderType)
    else if negb (po_Status o =s OrderStatusCompleted) then Ret (inr RefInvalidStatus) else
    let* inst := RefundInstance oid in
    match inst with
    | Some (Some inst) => if in_AllowUserRefund inst then Ret (inl o) else Ret (inr RefUserRefundDisabled)
    | _ => Ret (inr RefUserRefundDisabled)
    end
  | _ => Ret (inr RefNotFound)
  end.

Definition RequestRefund (oid uid : Z) (reason : string) : rprog (option refund_error) :=
  let! valid := validateRefundRequest oid uid in
  match valid with
  | inr e => Ret (Some e)
  | inl o =>
    let* balance := UserBalance (po_UserID o) in
    match balance with
    | None => Ret (Some RefGetUser)
    | Some balance =>
      if flt balance (po_Amount o) then Ret (Some RefBalanceNotEnough) else
      let* now := RNow in
      let* c := CallRequested oid uid (default 0%Z now) (po_Amount o) (TrimSpace reason) (pretty uid) in
      match c with
      | None => Ret (Some RefUpdate)
      | Some n => if (n =? 0)%Z then Ret (Some RefConflict)
                  else raudit oid "REFUND_REQUESTED" ("user:" +:+ pretty uid) (Ret None)
      end
    end
  end.

(** ** Preparation *)

(** [prepDeduct]: the plan, or the result that ends the refund. *)
Definition prepDeduct (o : PaymentOrder) (p : RefundPlan) (force : bool) : rprog (RefundPlan + RefundResult) :=
  if po_OrderType o =s OrderTypeSubscription then
    let p := p <| rp_DeductionType := DeductionTypeSubscription |> in
    match po_SubscriptionGroupID o, po_SubscriptionDays o with
    | Some gid, Some days =>
      let p := p <| rp_SubDaysToDeduct := days |> in
      let* sub := ActiveSubscription (po_UserID o) gid in
      match sub with
      | Some (Some id) => Ret (inl (p <| rp_SubscriptionID := id |>))
      | _ => if force then Ret (inl p)
             else Ret (inr (requireForce "cannot find active subscription for deduction, use force"))
      end
    | _, _ => Ret (inl p)
    end
  else
    let* balance := UserBalance (po_UserID o) in
    match balance with
    | None => if force then Ret (inl p)
              else Ret (inr (requireForce "cannot fetch user balance, use force"))
    | Some balance =>
      let p := p <| rp_DeductionType := DeductionTypeBalance |> in
      if flt balance (rp_RefundAmount p) && negb force
      then Ret (inr (requireForce "user balance is insufficient for deduction, use force"))
      else Ret (inl (p <| rp_BalanceToDeduct := fmax fzero (fmin (rp_RefundAmount p) balance) |>))
    end.

Inductive prepared := Plan (p : RefundPlan) | Early (r : RefundResult) | Refused (e : refund_error).

Definition refundReason (o : PaymentOrder) (reason : string) : string :=
  let rr := TrimSpace reason in
  let rr := if is_empty rr then default "" (po_RefundRequestReason o) else rr in
  if is_empty rr then "refund order:" +:+ pretty (po_ID o) else rr.

Definition PrepareRefund (oid : Z) (amt : float64) (reason : string) (force deduct : bool) : rprog prepared :=
  let* found := RGetOrder oid in
  match found with
  | Some (Some o) =>
    if negb (status_in refundable o) then Ret (Refused RefInvalidStatus) else
    let* inst := RefundInstance oid in
    match inst with
    | None => Ret (Refused RefProviderLookup)
    | Some None => Ret (Refused RefDisabled)
    | Some (Some inst) =>
      if negb (in_RefundEnabled inst) then Ret (Refused RefDisabled)
      else if IsNaN amt || IsInf amt then Ret (Refused RefInvalidAmount) else
      let amt := if fle amt fzero then po_Amount o else amt in
      let currency := PaymentOrderCurrency unicode_upper o in
      if flt (paymentAmountToleranceForCurrency unicode_upper currency) (fsub amt (po_Amount o))
      then Ret (Refused RefAmountExceeded) else
      let p := MkRefundPlan oid o amt
        (calculateGatewayRefundAmount (po_Amount o) (po_PayAmount o) amt currency) (refundReason o reason)
        force deduct DeductionTypeNone fzero 0 0 false false in
      if deduct then
        let! r := prepDeduct o p force in
        match r with inl p => Ret (Plan p) | inr early => Ret (Early early) end
      else Ret (Plan p)
    end
  | _ => Ret (Refused RefNotFound)
  end.

(** ** Execution *)

Definition restoredStatus (p : RefundPlan) : string :=
  if po_Status (rp_Order p) =s OrderStatusRefundRequested then OrderStatusRefundRequested
  else OrderStatusCompleted.

Definition restoreStatus (p : RefundPlan) {A : Type} (q : rprog A) : rprog A :=
  CallRestored (rp_OrderID p) (restoredStatus p) ;* q.

(** [validateRefundProviderResponse]; [None] is nil. *)
Definition validateRefundProviderResponse (resp : option RefundResponse) : option refund_error :=
  match resp with
  | None => Some RefResponse
  | Some resp =>
    let status := TrimSpace (rf_Status resp) in
    if (status =s ProviderStatusSuccess) || (status =s ProviderStatusRefunded) || (status =s ProviderStatusPending)
    then None
    else if status =s ProviderStatusFailed then Some RefGatewayFailed else Some RefResponse
  end.

Definition returnRefundSubscription (p : RefundPlan) : rprog bool :=
  if rp_subscriptionRevoked p then
    let* r := RestoreSubscription (rp_OrderID p) (rp_SubscriptionID p) in Ret (yes r)
  else
    let* r := ExtendSubscription (rp_OrderID p) (rp_SubscriptionID p) (rp_SubDaysToDeduct p) in
    Ret (match r with Some ExtendOk => true | _ => false end).

Definition RollbackRefund (p : RefundPlan) : rprog bool :=
  let subscription :=
    if deducts_subscription p then
      let! ok := returnRefundSubscription p in
      if ok then Ret true else raudit (rp_OrderID p) "REFUND_ROLLBACK_FAILED" "admin" (Ret false)
    else Ret true in
  if deducts_balance p then
    let* r := RestoreBalance (rp_OrderID p) (po_UserID (rp_Order p)) (rp_BalanceToDeduct p) in
    if yes r then subscription else raudit (rp_OrderID p) "REFUND_ROLLBACK_FAILED" "admin" (Ret false)
  else subscription.

Definition handleGwFail (p : RefundPlan) (gErr : refund_error) : rprog refund_out :=
  let! rolledBack := RollbackRefund p in
  if (rolledBack : bool) then
    restoreStatus p (raudit (rp_OrderID p) "REFUND_GATEWAY_FAILED" "admin"
      (Ret (Done (warned ("gateway failed: " +:+ message gErr +:+ ", rolled back")))))
  else
    let* now := RNow in
    CallRefundFailed (rp_OrderID p) (default 0%Z now) (message gErr) ;*
    raudit (rp_OrderID p) "REFUND_FAILED" "admin" (Ret (Err RefGatewayFailed)).

Definition gwRefund (p : RefundPlan) : rprog (RefundResponse + refund_error) :=
  let o := rp_Order p in
  if is_empty (po_PaymentTradeNo o)
  then raudit (po_ID o) "REFUND_NO_TRADE_NO" "admin" (Ret (inl (MkRefundResponse "" ProviderStatusSuccess)))
  else
    let* prov := RefundProvider (rp_OrderID p) in
    match prov with
    | None => Ret (inr RefGetProvider)
    | Some prov =>
      if negb (validateProviderSnapshotMetadata unicode_upper unicode_fold o (rv_key prov) (rv_metadata prov))
      then raudit (po_ID o) "REFUND_PROVIDER_METADATA_MISMATCH" "admin" (Ret (inr RefMetadata))
      else
        let* reply := GatewayRefund (rp_OrderID p) (po_PaymentTradeNo o) (po_OutTradeNo o) (rp_GatewayAmount p) (rp_Reason p) in
        match reply with
        | None => Ret (inr RefGateway)
        | Some (resp, true) =>
          match resp with
          | Some resp => if TrimSpace (rf_Status resp) =s ProviderStatusPending then Ret (inl resp)
                         else Ret (inr RefGateway)
          | None => Ret (inr RefGateway)
          end
        | Some (resp, false) =>
          match validateRefundProviderResponse resp, resp with
          | None, Some resp => Ret (inl resp)
          | Some e, _ => Ret (inr e)
          | None, None => Ret (inr RefResponse)
          end
        end
    end.

Definition markRefundOk (p : RefundPlan) : rprog refund_out :=
  let* now := RNow in
  let* c := CallRefundOk (default 0%Z now) p in
  match c with
  | None => Ret (Err RefMark)
  | Some n => if (n =? 0)%Z then Ret (Err RefMark)
              else raudit (rp_OrderID p) "REFUND_SUCCESS" "admin" (Ret (Done (refundSucceeded p)))
  end.

Definition markRefundPending (p : RefundPlan) (resp : RefundResponse) : rprog refund_out :=
  let* committed := MarkPendingTx p (TrimSpace (rf_RefundID resp)) in
  if yes committed then Ret (Done (warned "gateway refund is pending confirmation"))
  else Ret (Err RefMarkPending).

Definition finishRefund (p : RefundPlan) (resp : RefundResponse) : rprog refund_out :=
  match validateRefundProviderResponse (Some resp) with
  | Some e => handleGwFail p e
  | None =>
    let status := TrimSpace (rf_Status resp) in
    if (status =s ProviderStatusSuccess) || (status =s ProviderStatusRefunded) then markRefundOk p
    else if status =s ProviderStatusPending then markRefundPending p resp
    else handleGwFail p RefResponse
  end.

(** The deduction from the balance, then [k] with the plan as it is afterwards. *)
Definition deductBalanceThen (p : RefundPlan) (k : RefundPlan -> rprog refund_out) : rprog refund_out :=
  if negb (deducts_balance p) then k p else
  let* skip := RHasAudit (rp_OrderID p) "REFUND_ROLLBACK_FAILED" in
  if yes skip then k (p <| rp_BalanceToDeduct := fzero |>) else
  let requested := rp_BalanceToDeduct p in
  let* r := DeductBalance (rp_OrderID p) (po_UserID (rp_Order p)) requested (negb (rp_Force p)) in
  match default None r with
  | None => restoreStatus p (Ret (Err RefDeduction))
  | Some deducted =>
    if negb (rp_Force p) && flt deducted requested then
      let giveUp :=
        let* c := CallRestored (rp_OrderID p) (restoredStatus p) in
        match c with
        | Some n => if (n =? 0)%Z then Ret (Err RefRestoreStatus)
                    else Ret (Done (requireForce "user balance became insufficient for deduction, use force"))
        | None => Ret (Err RefRestoreStatus)
        end in
      if flt fzero deducted then
        let* restored := RestoreBalance (rp_OrderID p) (po_UserID (rp_Order p)) deducted in
        if yes restored then giveUp else restoreStatus p (Ret (Err RefRestorePartial))
      else giveUp
    else k (p <| rp_BalanceToDeduct := deducted |>)
  end.

(** The deduction of subscription days. *)
Definition deductDaysThen (p : RefundPlan) (k : RefundPlan -> rprog refund_out) : rprog refund_out :=
  if negb (deducts_subscription p) then k p else
  let* skip := RHasAudit (rp_OrderID p) "REFUND_ROLLBACK_FAILED" in
  if yes skip then k (p <| rp_SubDaysToDeduct := 0%Z |>) else
  let* r := ExtendSubscription (rp_OrderID p) (rp_SubscriptionID p) (- rp_SubDaysToDeduct p)%Z in
  match r with
  | Some ExtendOk => k p
  | Some WouldExpire =>
    let* revoked := RevokeSubscription (rp_OrderID p) (rp_SubscriptionID p) in
    if yes revoked then k (p <| rp_subscriptionRevoked := true |>)
    else restoreStatus p (Ret (Err RefRevoke))
  | _ => restoreStatus p (Ret (Err RefDeductDays))
  end.

Definition ExecuteRefund (p : RefundPlan) : rprog refund_out :=
  let* c := CallRefunding (rp_OrderID p) in
  match c with
  | None => Ret (Err RefLock)
  | Some n =>
    if (n =? 0)%Z then Ret (Err RefConflict) else
    deductBalanceThen p (fun p => deductDaysThen p (fun p =>
      let! reply := gwRefund p in
      match reply with
      | inl resp => finishRefund p resp
      | inr e => handleGwFail p e
      end))
  end.

(** The handler of administrators. *)
Definition ProcessRefund (oid : Z) (amt : float64) (reason : string) (force deduct : bool) : rprog refund_out :=
  let! plan := PrepareRefund oid amt reason force deduct in
  match plan with
  | Refused e => Ret (Err e)
  | Early r => Ret (Done r)
  | Plan p => ExecuteRefund p
  end.

(** ** Finalization of pending refunds *)

Definition refundFinalizePlan (o : PaymentOrder) : RefundPlan :=
  let reason := TrimSpace (psStringValue (po_RefundReason o)) in
  MkRefundPlan (po_ID o) o (po_RefundAmount o)
    (calculateGatewayRefundAmount (po_Amount o) (po_PayAmount o) (po_RefundAmount o)
      (PaymentOrderCurrency unicode_upper o))
    (if is_empty reason then "refund order:" +:+ pretty (po_ID o) else reason)
    (po_ForceRefund o) true DeductionTypeBalance
    (if po_OrderType o =s OrderTypeBalance then po_RefundAmount o else fzero) 0 0 false false.

Definition finalizeRefundFailed (p : RefundPlan) (gErr : refund_error) : rprog refund_out :=
  let warning := "gateway refund failed: " +:+ message gErr in
  let* r := FinalizeFailedTx p false (message gErr) in
  match r with
  | None | Some FailureError => Ret (Err RefFinalize)
  | Some FailureConflict => Ret (Err RefConflict)
  | Some FailureCommitted => Ret (Done (warned warning))
  | Some ReturnFailed =>
    let* r := FinalizeFailedTx p true (message gErr) in
    match r with
    | Some FailureCommitted | Some ReturnFailed =>
      Ret (Done (warned (warning +:+ "; refund deduction rollback failed")))
    | Some FailureConflict => Ret (Err RefConflict)
    | _ => Ret (Err RefFinalize)
    end
  end.

Definition finalizePendingRefundSuccess (p : RefundPlan) : rprog refund_out :=
  let* r := FinalizeSuccessTx p in
  match r with
  | Some (SuccessCommitted result) => Ret (Done result)
  | Some SuccessConflict => Ret (Err RefConflict)
  | _ => Ret (Err RefFinalize)
  end.

(** What a reply to the query of a refund leads to. *)
Definition settleRefund (oid : Z) (plan : RefundPlan) (resp : option RefundResponse) : rprog refund_out :=
  match resp with
  | None => Ret (Err RefQuery)
  | Some resp =>
    let status := TrimSpace (rf_Status resp) in
    if status =s ProviderStatusFailed then finalizeRefundFailed plan RefPaymentRefundFailed else
    match validateRefundProviderResponse (Some resp) with
    | Some e => Ret (Err e)
    | None =>
      if (status =s ProviderStatusSuccess) || (status =s ProviderStatusRefunded)
      then finalizePendingRefundSuccess plan
      else if status =s ProviderStatusPending
      then raudit oid "REFUND_QUERY_PENDING" "admin"
             (Ret (Done (warned "gateway refund is still pending confirmation")))
      else finalizeRefundFailed plan RefResponse
    end
  end.

Definition QueryAndFinalizeRefund (oid : Z) : rprog refund_out :=
  let* found := RGetOrder oid in
  match found with
  | Some (Some o) =>
    if negb (po_Status o =s OrderStatusRefundPending) then Ret (Err RefInvalidStatus) else
    let* prov := RefundProvider oid in
    match prov with
    | None => Ret (Err RefGetProvider)
    | Some prov =>
      if negb (validateProviderSnapshotMetadata unicode_upper unicode_fold o (rv_key prov) (rv_metadata prov))
      then raudit (po_ID o) "REFUND_PROVIDER_METADATA_MISMATCH" "admin" (Ret (Err RefMetadata))
      else if negb (rv_queries prov) then Ret (Err RefQueryUnsupported) else
      let* detail := PendingDetail oid in
      match detail with
      | None => Ret (Err RefPendingDetail)
      | Some detail =>
        let detail := default legacyPendingDetail detail in
        let* resp := QueryRefund oid (po_PaymentTradeNo o) (po_OutTradeNo o) (pd_RefundID detail) in
        match resp with
        | None => Ret (Err RefQuery)
        | Some resp =>
          let plan := refundFinalizePlan o in
          if pd_DeductionHeld detail then settleRefund oid (applyTo detail plan) resp
          else if negb (pd_DeductionRollbackOK detail)
          then settleRefund oid (plan <| rp_BalanceToDeduct := fzero |> <| rp_SubDaysToDeduct := 0%Z |>) resp
          else if po_OrderType o =s OrderTypeSubscription then
            let! r := prepDeduct o plan true in
            match r with inl plan => settleRefund oid plan resp | inr early => Ret (Done early) end
          else settleRefund oid plan resp
        end
      end
    end
  | _ => Ret (Err RefNotFound)
  end.
End Refunds.
