(* ===== verification/PaymentRefundsProofs.v ===== *)
(** * Refunds of payment orders: proofs

    Refund requests, executions and finalizations interleaved call by call, with statements
    that fail before or after their effect, with the fulfilment of orders, and with
    providers that settle pending refunds at any time: at most one refund of an order is
    ever pending or made.  Runs without faults: a failed refund returns what was deducted.
    Executions that get stuck. *)

From stdpp Require Import pretty.
From S2P Require Import Prelude GoStrings GoFloat Programs PaymentOrders PaymentRefunds.

(** ** Worlds *)

Record refund_world := MkRefundWorld {
  rw_clock : Z;
  rw_db : refund_db;
  rw_threads : list (rprog unit)
}.

#[export] Instance eta_refund_world : Eta refund_world := fun r =>
  MkRefundWorld (rw_clock r) (rw_db r) (rw_threads r).

Definition initial_refund (t0 : Z) : refund_world := MkRefundWorld t0 (MkRefundDb ∅ ∅ ∅ [] []) [].

Inductive refund_request :=
  | ReqRequestRefund (oid uid : Z) (reason : string)
  | ReqProcessRefund (oid : Z) (amt : float64) (reason : string) (force deduct : bool)
  | ReqFinalizeRefund (oid : Z).

(** The clock does not fail, and a provider does not report an error for a refund it makes. *)
Definition may_fail {R : Type} (f : fault) (c : refund_call R) : bool :=
  match f, c with
  | Fine, _ => true
  | _, RNow => false
  | LostReply, GatewayRefund _ _ _ _ _ => false
  | _, _ => true
  end.

(** Statuses that only refunds write. *)
Definition refund_locked (status : string) : bool :=
  bool_decide (status ∈ [OrderStatusRefunding; OrderStatusRefundPending; OrderStatusPartiallyRefunded;
    OrderStatusRefunded]).

Definition status_of (db : refund_db) (oid : Z) : option string := po_Status <$> rd_orders db !! oid.

Definition locked (db : refund_db) (oid : Z) : bool :=
  match status_of db oid with Some s => refund_locked s | None => false end.

Section Refunding.
Context (unicode_upper : string -> string) (unicode_fold : string -> string -> bool).
Context (decimalRound : float64 -> Z -> float64) (decimalShare : float64 -> float64 -> float64 -> Z -> float64).
Context (message : refund_error -> string).

Definition refund_start (rq : refund_request) : rprog unit :=
  match rq with
  | ReqRequestRefund oid uid reason => let! _r := RequestRefund oid uid reason in Ret tt
  | ReqProcessRefund oid amt reason force deduct =>
    let! _r := ProcessRefund unicode_upper unicode_fold decimalRound decimalShare message oid amt reason force deduct in
    Ret tt
  | ReqFinalizeRefund oid =>
    let! _r := QueryAndFinalizeRefund unicode_upper unicode_fold decimalRound decimalShare message oid in Ret tt
  end%prog.

(** A pending refund of a provider is settled. *)
Definition settle (n : nat) (g : gateway_refund) (s : gateway_status) (db : refund_db) : refund_db :=
  db <| rd_gateway := <[ n := MkGatewayRefund (gw_order g) (gw_amount g) s ]> (rd_gateway db) |>.

Inductive refund_step : refund_world -> refund_world -> Prop :=
  | rstep_tick w t : (rw_clock w <= t)%Z -> refund_step w (w <| rw_clock := t |>)
  | rstep_start w rq : refund_step w (w <| rw_threads := rw_threads w ++ [refund_start rq] |>)
  | rstep_settle w n g s :
    rd_gateway (rw_db w) !! n = Some g -> gw_status g = GatewayPending ->
    refund_step w (w <| rw_db := settle n g s (rw_db w) |>)
  (** payment handlers write rows that are not being refunded *)
  | rstep_fulfil w oid o :
    po_ID o = oid -> locked (rw_db w) oid = false -> refund_locked (po_Status o) = false ->
    refund_step w (w <| rw_db := rw_db w <| rd_orders := <[ oid := o ]> (rd_orders (rw_db w)) |> |>)
  | rstep_call w i f sv R (c : refund_call R) k :
    rw_threads w !! i = Some (Do c k) -> may_fail f c = true ->
    let r := perform (@refund_exec (rw_clock w) sv) f c (rw_db w) in
    refund_step w (w <| rw_db := r.2 |> <| rw_threads := <[ i := k r.1 ]> (rw_threads w) |>).

Definition refund_reachable (w : refund_world) : Prop := exists t0, rtc refund_step (initial_refund t0) w.

(** A refund that is made or may still be made. *)
Definition live (g : gateway_refund) : bool := match gw_status g with GatewayFailed => false | _ => true end.

Definition none_live (db : refund_db) (oid : Z) : Prop := Forall (fun g => live g = false) (refundsOf oid db).

(** ** Invariant *)

(** Refunds before the last one have failed. *)
Definition last_only (l : list gateway_refund) : Prop :=
  l = [] \/ exists l' g, l = l' ++ [g] /\ Forall (fun g => live g = false) l'.

(** Which thread has locked an order. *)
Abbreviation owners := (gmap Z nat).

Record refund_inv (ow : owners) (db : refund_db) : Prop := {
  ri_id : forall oid o, rd_orders db !! oid = Some o -> po_ID o = oid;
  ri_last : forall oid, last_only (refundsOf oid db);
  ri_free : forall oid, locked db oid = false -> none_live db oid;
  ri_owner : forall oid i, ow !! oid = Some i -> status_of db oid = Some OrderStatusRefunding;
  ri_audit : forall oid, status_of db oid = Some OrderStatusRefundPending ->
    is_Some (rd_audit db !! (oid, "REFUND_PENDING"))
}.

(** The refund that made the order pending has failed: an order becomes pending at most
    once, because its audit row is unique. *)
Definition settled (db : refund_db) (oid : Z) : Prop :=
  is_Some (rd_audit db !! (oid, "REFUND_PENDING")) /\
  (status_of db oid = Some OrderStatusRefundPending -> none_live db oid).

(** What thread [i] can rely on while others run. *)
Record rely (i : nat) (s s' : owners * refund_db) : Prop := {
  rl_owner : forall oid, s.1 !! oid = Some i <-> s'.1 !! oid = Some i;
  rl_live : forall oid, s.1 !! oid = Some i -> none_live s.2 oid -> none_live s'.2 oid;
  rl_audit : forall oid, is_Some (rd_audit s.2 !! (oid, "REFUND_PENDING")) ->
    is_Some (rd_audit s'.2 !! (oid, "REFUND_PENDING"));
  rl_settled : forall oid, settled s.2 oid -> settled s'.2 oid
}.

Lemma rely_refl i s : rely i s s.
Proof. by split. Qed.

Lemma rely_trans i s1 s2 s3 : rely i s1 s2 -> rely i s2 s3 -> rely i s1 s3.
Proof.
  intros [A1 A2 A3 A4] [B1 B2 B3 B4]. split; auto.
  - intros oid. by rewrite A1, B1.
  - intros oid H1 H2. apply B2; [by apply A1|]. by apply A2.
Qed.

(** The order is locked by thread [i]; no refund of it is made or pending. *)
Definition owns (i : nat) (oid : Z) (s : owners * refund_db) : Prop := s.1 !! oid = Some i.
Definition owns_clean (i : nat) (oid : Z) (s : owners * refund_db) : Prop :=
  owns i oid s /\ none_live s.2 oid.

Lemma owns_rely i oid s s' : rely i s s' -> owns i oid s -> owns i oid s'.
Proof. intros H. apply (rl_owner _ _ _ H). Qed.

Lemma owns_clean_rely i oid s s' : rely i s s' -> owns_clean i oid s -> owns_clean i oid s'.
Proof. intros H [H1 H2]. split; [by eapply owns_rely|]. by apply (rl_live _ _ _ H). Qed.

(** ** Demands of calls, and what their caller learns *)

Definition demand (i : nat) {R : Type} (c : refund_call R) (s : owners * refund_db) : Prop :=
  match c with
  | CallRestored oid status => owns_clean i oid s /\ refund_locked status = false
  | CallRefundOk _ p => owns i (rp_OrderID p) s
  | CallRefundFailed oid _ _ => owns_clean i oid s
  | GatewayRefund oid _ _ _ _ => owns_clean i oid s
  | MarkPendingTx p _ => owns i (rp_OrderID p) s
  | FinalizeFailedTx p _ _ => settled s.2 (rp_OrderID p)
  | _ => True
  end.

Definition learns (i : nat) {R : Type} (c : refund_call R) : option R -> owners * refund_db -> owners * refund_db -> Prop :=
  match c in refund_call R return option R -> owners * refund_db -> owners * refund_db -> Prop with
  | CallRefunding oid => fun r s s' => forall n, r = Some n -> n <> 0%Z -> owns_clean i oid s'
  | CallRestored _ _ => fun _ _ _ => True
  | CallRefundOk _ _ => fun _ _ _ => True
  | CallRefundFailed _ _ _ => fun _ _ _ => True
  | MarkPendingTx _ _ => fun _ _ _ => True
  | GatewayRefund oid _ _ _ _ => fun r s s' =>
    owns i oid s' /\ (default GatewayFailed (refundOutcome <$> r) = GatewayFailed -> owns_clean i oid s')
  | RGetOrder oid => fun r s s' =>
    rely i s s' /\ forall o, r = Some (Some o) -> po_ID o = oid /\
      (po_Status o = OrderStatusRefundPending -> is_Some (rd_audit s'.2 !! (oid, "REFUND_PENDING")))
  | QueryRefund oid _ _ _ => fun r s s' =>
    rely i s s' /\ forall resp, r = Some (Some resp) -> TrimSpace (rf_Status resp) = ProviderStatusFailed ->
      is_Some (rd_audit s'.2 !! (oid, "REFUND_PENDING")) -> settled s'.2 oid
  | _ => fun _ s s' => rely i s s'
  end.

(** ** Changes of the tables *)

(** Nothing but the ledger, pending details and more audit rows. *)
Record quiet (db db' : refund_db) : Prop := {
  qu_orders : rd_orders db' = rd_orders db;
  qu_gateway : rd_gateway db' = rd_gateway db;
  qu_audit : forall k, is_Some (rd_audit db !! k) -> is_Some (rd_audit db' !! k)
}.

Lemma quiet_status db db' oid : quiet db db' -> status_of db' oid = status_of db oid.
Proof. intros [H _ _]. unfold status_of. by rewrite H. Qed.

Lemma quiet_live db db' oid : rd_gateway db' = rd_gateway db -> none_live db' oid <-> none_live db oid.
Proof. intros H. unfold none_live, refundsOf. by rewrite H. Qed.

Lemma quiet_rely i ow db db' : quiet db db' -> rely i (ow, db) (ow, db').
Proof.
  intros Hq. split; cbn; [done| | |].
  - intros oid _. by apply quiet_live, Hq.
  - intros oid. apply Hq.
  - intros oid [H1 H2]. split; [by apply Hq|]. rewrite (quiet_status _ _ _ Hq). intros H.
    apply quiet_live with (db := db); [apply Hq|]. by apply H2.
Qed.

Lemma quiet_inv ow db db' : quiet db db' -> refund_inv ow db -> refund_inv ow db'.
Proof.
  intros Hq [I0 I1 I2 I3 I4]. split.
  - intros oid o. rewrite (qu_orders _ _ Hq). apply I0.
  - intros oid. specialize (I1 oid). revert I1. unfold refundsOf. by rewrite (qu_gateway _ _ Hq).
  - intros oid. unfold locked. rewrite (quiet_status _ _ _ Hq). intros H.
    apply quiet_live with (db := db); [apply Hq|]. by apply I2.
  - intros oid i H. rewrite (quiet_status _ _ _ Hq). by eapply I3.
  - intros oid. rewrite (quiet_status _ _ _ Hq). intros H. by apply Hq, I4.
Qed.

(** A row is written by thread [i] (or by another part of the system). *)
Record row_write (i : nat) (oid : Z) (o : PaymentOrder) (ow ow' : owners) (db db' : refund_db) : Prop := {
  wr_id : po_ID o = oid;
  wr_orders : rd_orders db' = <[ oid := o ]> (rd_orders db);
  wr_gateway : rd_gateway db' = rd_gateway db;
  wr_audit : forall k, is_Some (rd_audit db !! k) -> is_Some (rd_audit db' !! k);
  wr_elsewhere : forall oid', oid' <> oid -> ow' !! oid' = ow !! oid';
  wr_before : forall j, ow !! oid = Some j -> j = i;
  wr_after : forall j, ow' !! oid = Some j -> j = i /\ po_Status o = OrderStatusRefunding;
  wr_free : refund_locked (po_Status o) = false -> none_live db oid;
  wr_pending : po_Status o = OrderStatusRefundPending ->
    is_Some (rd_audit db' !! (oid, "REFUND_PENDING")) /\ rd_audit db !! (oid, "REFUND_PENDING") = None
}.

Lemma row_status i oid o ow ow' db db' oid' : row_write i oid o ow ow' db db' ->
  status_of db' oid' = if decide (oid' = oid) then Some (po_Status o) else status_of db oid'.
Proof.
  intros H. unfold status_of. rewrite (wr_orders _ _ _ _ _ _ _ H). destruct (decide (oid' = oid)) as [->|Hne];
    [by rewrite lookup_insert_eq|by rewrite lookup_insert_ne].
Qed.

Lemma row_inv i oid o ow ow' db db' : row_write i oid o ow ow' db db' -> refund_inv ow db -> refund_inv ow' db'.
Proof.
  intros H [I0 I1 I2 I3 I4]. split.
  - intros oid' o'. rewrite (wr_orders _ _ _ _ _ _ _ H). intros Ho. apply lookup_insert_Some in Ho as [[<- <-]|[_ Ho]];
      [apply (wr_id _ _ _ _ _ _ _ H)|by apply I0].
  - intros oid'. specialize (I1 oid'). revert I1. unfold refundsOf. by rewrite (wr_gateway _ _ _ _ _ _ _ H).
  - intros oid'. unfold locked. rewrite (row_status _ _ _ _ _ _ _ _ H). intros Hl.
    apply (quiet_live db); [apply H|]. destruct (decide (oid' = oid)) as [->|]; [by apply H|by apply I2].
  - intros oid' j Hj. rewrite (row_status _ _ _ _ _ _ _ _ H). destruct (decide (oid' = oid)) as [->|Hne].
    + destruct (wr_after _ _ _ _ _ _ _ H j Hj) as [_ ->]. done.
    + rewrite (wr_elsewhere _ _ _ _ _ _ _ H) in Hj by done. by eapply I3.
  - intros oid'. rewrite (row_status _ _ _ _ _ _ _ _ H). destruct (decide (oid' = oid)) as [->|Hne].
    + intros [= Hp]. by apply (wr_pending _ _ _ _ _ _ _ H).
    + intros Hp. apply H. by apply I4.
Qed.

Lemma row_rely i j oid o ow ow' db db' : row_write i oid o ow ow' db db' -> j <> i -> rely j (ow, db) (ow', db').
Proof.
  intros H Hne. split; cbn.
  - intros oid'. destruct (decide (oid' = oid)) as [->|Hd]; [|by rewrite (wr_elsewhere _ _ _ _ _ _ _ H)].
    split; intros Hj; [by apply H in Hj|]. by destruct (wr_after _ _ _ _ _ _ _ H j Hj) as [-> _].
  - intros oid' _. by apply quiet_live, H.
  - intros oid'. apply H.
  - intros oid' [H1 H2]. split; [by apply H|]. rewrite (row_status _ _ _ _ _ _ _ _ H).
    destruct (decide (oid' = oid)) as [->|Hd].
    + intros [= Hp]. destruct (wr_pending _ _ _ _ _ _ _ H Hp) as [_ Hnone]. rewrite Hnone in H1. by destruct H1.
    + intros Hp. apply (quiet_live db); [apply H|]. by apply H2.
Qed.

(** *** Refunds of providers *)

Lemma refundsOf_append oid db g :
  refundsOf oid (db <| rd_gateway := rd_gateway db ++ [g] |>) =
  refundsOf oid db ++ (if decide (gw_order g = oid) then [g] else []).
Proof.
  unfold refundsOf. cbn [rd_gateway]. change (rd_gateway (db <| rd_gateway := _ |>)) with (rd_gateway db ++ [g]).
  by rewrite filter_app, filter_cons, filter_nil.
Qed.

Lemma none_live_last l g : last_only (l ++ [g]) -> Forall (fun g => live g = false) l.
Proof.
  intros [H|(l' & g' & H & Hl)]; [by destruct l|]. apply app_inj_tail in H as [-> _]. done.
Qed.

Lemma last_failed db oid : last_only (refundsOf oid db) -> refundStatus oid db = ProviderStatusFailed -> none_live db oid.
Proof.
  unfold refundStatus, none_live. intros [->|(l & g & -> & Hl)]; [done|]. rewrite last_snoc. cbn. intros H.
  apply Forall_app. split; [done|]. apply Forall_singleton. unfold live. by destruct (gw_status g).
Qed.

(** An owner asks for a refund when none is live. *)
Lemma append_inv ow db g i : refund_inv ow db -> ow !! gw_order g = Some i -> none_live db (gw_order g) ->
  refund_inv ow (db <| rd_gateway := rd_gateway db ++ [g] |>).
Proof.
  intros [I0 I1 I2 I3 I4] Ho Hn. split; [exact I0| | |exact I3|exact I4].
  - intros oid. rewrite refundsOf_append. destruct (decide (gw_order g = oid)) as [<-|Hne]; [|by rewrite app_nil_r].
    right. eauto.
  - intros oid Hl. unfold none_live. rewrite refundsOf_append.
    destruct (decide (gw_order g = oid)) as [<-|Hne]; [|rewrite app_nil_r; by apply I2].
    unfold locked in Hl. change (status_of (db <| rd_gateway := _ |>)) with (status_of db) in Hl.
    apply I3 in Ho. change (status_of db (gw_order g) = Some OrderStatusRefunding) in Ho.
    change (match status_of db (gw_order g) with Some s => refund_locked s | None => false end = false) in Hl.
    rewrite Ho in Hl. done.
Qed.

Lemma append_rely ow db g i j : refund_inv ow db -> ow !! gw_order g = Some i -> j <> i ->
  rely j (ow, db) (ow, db <| rd_gateway := rd_gateway db ++ [g] |>).
Proof.
  intros Hi Ho Hne. split; cbn; [done| |done|].
  - intros oid Hj Hn. unfold none_live. rewrite refundsOf_append.
    destruct (decide (gw_order g = oid)) as [<-|]; [congruence|by rewrite app_nil_r].
  - intros oid [H1 H2]. split; [done|]. intros Hp. unfold none_live. rewrite refundsOf_append.
    destruct (decide (gw_order g = oid)) as [<-|]; [|rewrite app_nil_r; by apply H2].
    apply (ri_owner _ _ Hi) in Ho. change (status_of db (gw_order g) = Some OrderStatusRefundPending) in Hp.
    by rewrite Ho in Hp.
Qed.

(** A pending refund is settled: it is the last one of its order. *)
Lemma settle_split n g s db oid : rd_gateway db !! n = Some g ->
  exists l1 l2, refundsOf oid db = l1 ++ (if decide (gw_order g = oid) then [g] else []) ++ l2 /\
    refundsOf oid (settle n g s db) =
      l1 ++ (if decide (gw_order g = oid) then [MkGatewayRefund (gw_order g) (gw_amount g) s] else []) ++ l2.
Proof.
  intros Hn. exists (filter (fun g => gw_order g = oid) (take n (rd_gateway db))),
    (filter (fun g => gw_order g = oid) (drop (S n) (rd_gateway db))).
  assert (Hlt : (n < length (rd_gateway db))%nat) by by eapply lookup_lt_Some.
  split.
  - unfold refundsOf. rewrite <- (take_drop_middle _ _ _ Hn) at 1. rewrite filter_app, filter_cons.
    by destruct (decide (gw_order g = oid)).
  - unfold refundsOf, settle. cbn [rd_gateway].
    change (rd_gateway (db <| rd_gateway := _ |>)) with (<[ n := MkGatewayRefund (gw_order g) (gw_amount g) s ]> (rd_gateway db)).
    rewrite insert_take_drop by done. rewrite filter_app, filter_cons. cbn [gw_order].
    by destruct (decide (gw_order g = oid)).
Qed.

Lemma settle_none_live n g s db oid : rd_gateway db !! n = Some g -> gw_status g = GatewayPending ->
  none_live db oid -> none_live (settle n g s db) oid.
Proof.
  intros Hn Hp Hl. destruct (settle_split n g s db oid Hn) as (l1 & l2 & E1 & E2). unfold none_live in *.
  rewrite E1 in Hl. rewrite E2. destruct (decide (gw_order g = oid)); [|done].
  apply Forall_app in Hl as [_ Hl]. apply Forall_app in Hl as [Hl _]. rewrite Forall_singleton in Hl.
  unfold live in Hl. by rewrite Hp in Hl.
Qed.

Lemma settle_last n g s db oid : rd_gateway db !! n = Some g -> gw_status g = GatewayPending ->
  last_only (refundsOf oid db) -> last_only (refundsOf oid (settle n g s db)).
Proof.
  intros Hn Hp Hl. destruct (settle_split n g s db oid Hn) as (l1 & l2 & E1 & E2). rewrite E1 in Hl. rewrite E2.
  destruct (decide (gw_order g = oid)); [|done]. destruct l2 as [|g2 l2 _] using rev_ind.
  - rewrite app_nil_r in *. right. exists l1. eexists. split; [done|]. by eapply none_live_last.
  - exfalso. rewrite !app_assoc in Hl. apply none_live_last in Hl. apply Forall_app in Hl as [Hl _].
    apply Forall_app in Hl as [_ Hl]. rewrite Forall_singleton in Hl. unfold live in Hl. by rewrite Hp in Hl.
Qed.

Lemma settle_inv n g s ow db : rd_gateway db !! n = Some g -> gw_status g = GatewayPending ->
  refund_inv ow db -> refund_inv ow (settle n g s db).
Proof.
  intros Hn Hp [I0 I1 I2 I3 I4]. split; [exact I0| |intros oid Hl|exact I3|exact I4].
  - intros oid. by apply settle_last.
  - apply settle_none_live; [done|done|]. by apply I2.
Qed.

Lemma settle_rely n g s ow db i : rd_gateway db !! n = Some g -> gw_status g = GatewayPending ->
  rely i (ow, db) (ow, settle n g s db).
Proof.
  intros Hn Hp. split; cbn; [done| |done|].
  - intros oid _. by apply settle_none_live.
  - intros oid [H1 H2]. split; [done|]. intros H. apply settle_none_live; [done|done|]. by apply H2.
Qed.

(** *** Calls *)

Lemma quiet_refl db : quiet db db.
Proof. by split. Qed.

Lemma quiet_trans db1 db2 db3 : quiet db1 db2 -> quiet db2 db3 -> quiet db1 db3.
Proof. intros [A1 A2 A3] [B1 B2 B3]. split; [congruence|congruence|auto]. Qed.

Lemma quiet_adjust oid a db : quiet db (adjust oid a db).
Proof. by split. Qed.

Lemma quiet_audit oid action operator db : quiet db (writeAudit oid action operator db).2.
Proof.
  unfold writeAudit. destruct (_ !! _); [apply quiet_refl|]. split; [done|done|]. intros k Hk. cbn.
  apply lookup_insert_is_Some'. by right.
Qed.

Lemma quiet_audit_tx oid action db db' : createPaymentAuditLogTx oid action db = Some db' -> quiet db db'.
Proof.
  unfold createPaymentAuditLogTx. pose proof (quiet_audit oid action "admin" db) as H.
  destruct (writeAudit oid action "admin" db) as [[] db1]; [|done]. cbn. by intros [= <-].
Qed.

Create HintDb refunds.
#[local] Hint Resolve quiet_refl quiet_adjust quiet_audit quiet_audit_tx : refunds.

(** Thread [i] turns the tables into [db'], ending with the owners [ow']. *)
Definition moves (i : nat) (ow ow' : owners) (db db' : refund_db) : Prop :=
  refund_inv ow' db' /\ forall j, j <> i -> rely j (ow, db) (ow', db').

Lemma quiet_moves i ow db db' : refund_inv ow db -> quiet db db' -> moves i ow ow db db'.
Proof. intros Hi Hq. split; [by eapply quiet_inv|]. intros j _. by apply quiet_rely. Qed.

Lemma row_moves i oid o ow ow' db db' : refund_inv ow db -> row_write i oid o ow ow' db db' -> moves i ow ow' db db'.
Proof. intros Hi Hw. split; [by eapply row_inv|]. intros j Hj. by eapply row_rely. Qed.

Lemma updateRow_case clock oid guard f db :
  updateRow clock oid guard f db = (0%Z, db) \/
  exists o, rd_orders db !! oid = Some o /\ guard o = true /\
    updateRow clock oid guard f db =
      (1%Z, db <| rd_orders := <[ oid := f o <| po_UpdatedAt := clock |> ]> (rd_orders db) |>).
Proof.
  unfold updateRow. destruct (rd_orders db !! oid) as [o|]; [|by left]. destruct (guard o) eqn:E; [|by left].
  right. eauto.
Qed.

(** The owner writes the row and gives up the lock. *)
Lemma release i oid o ow db db' : refund_inv ow db -> owns i oid (ow, db) ->
  rd_orders db' = <[ oid := o ]> (rd_orders db) -> po_ID o = oid -> rd_gateway db' = rd_gateway db ->
  (forall k, is_Some (rd_audit db !! k) -> is_Some (rd_audit db' !! k)) ->
  (refund_locked (po_Status o) = false -> none_live db oid) ->
  (po_Status o = OrderStatusRefundPending ->
    is_Some (rd_audit db' !! (oid, "REFUND_PENDING")) /\ rd_audit db !! (oid, "REFUND_PENDING") = None) ->
  moves i ow (delete oid ow) db db'.
Proof.
  intros Hi Ho E1 E0 E2 E3 Hf Hp. apply (row_moves i oid o); [done|]. split; try done.
  - intros oid' Hne. by apply lookup_delete_ne.
  - intros j Hj. unfold owns in Ho. cbn in Ho. congruence.
  - intros j Hj. by rewrite lookup_delete_eq in Hj.
Qed.

(** A row that nobody has locked is written. *)
Lemma unlocked_write i oid o ow db db' : refund_inv ow db -> ow !! oid = None ->
  rd_orders db' = <[ oid := o ]> (rd_orders db) -> po_ID o = oid -> rd_gateway db' = rd_gateway db ->
  (forall k, is_Some (rd_audit db !! k) -> is_Some (rd_audit db' !! k)) ->
  (refund_locked (po_Status o) = false -> none_live db oid) -> po_Status o <> OrderStatusRefundPending ->
  moves i ow ow db db'.
Proof.
  intros Hi Ho E1 E0 E2 E3 Hf Hp. apply (row_moves i oid o); [done|]. split; try done; congruence.
Qed.

Lemma no_owner ow db oid s : refund_inv ow db -> status_of db oid = Some s -> s <> OrderStatusRefunding -> ow !! oid = None.
Proof.
  intros Hi Hs Hne. destruct (ow !! oid) as [i|] eqn:E; [|done]. apply (ri_owner _ _ Hi) in E. congruence.
Qed.

Lemma refundable_unlocked o : status_in refundable o = true -> refund_locked (po_Status o) = false.
Proof.
  unfold status_in, refund_locked. intros H. apply bool_decide_eq_true in H. apply bool_decide_eq_false.
  intros H'. unfold refundable in H. set_unfold. destruct H as [H|[H|[H|[]]]]; rewrite H in H';
    destruct H' as [H'|[H'|[H'|[H'|[]]]]]; done.
Qed.

Lemma return_quiet sv p db db' : returnHeldRefundDeduction sv p db = Some db' -> quiet db db'.
Proof.
  unfold returnHeldRefundDeduction, returnSubscriptionTx. intros H.
  repeat case_match; simplify_eq; eauto using quiet_trans with refunds.
Qed.

Lemma deduction_quiet sv p db p' db' : applyRefundFinalDeduction sv p db = Some (p', db') ->
  quiet db db' /\ rp_OrderID p' = rp_OrderID p.
Proof.
  unfold applyRefundFinalDeduction. intros H.
  repeat case_match; simplify_eq; split; eauto using quiet_trans with refunds.
Qed.

(** Requests of users, locks and transactions. *)
Lemma requested_moves i ow db clock oid uid now amount reason by_ : refund_inv ow db ->
  moves i ow ow db (UpdateRequested clock oid uid now amount reason by_ db).2.
Proof.
  intros Hi. unfold UpdateRequested.
  edestruct (updateRow_case clock oid) as [E|(o & Ho & Hg & E)]; rewrite E; [apply quiet_moves; eauto with refunds|].
  apply andb_true_iff in Hg as [Hg _]. apply andb_true_iff in Hg as [_ Hs]. apply String.eqb_eq in Hs.
  assert (Hst : status_of db oid = Some OrderStatusCompleted) by (unfold status_of; by rewrite Ho, <- Hs).
  pose proof (ri_id _ _ Hi _ _ Ho) as Hid.
  eapply (unlocked_write i oid); [done|by eapply no_owner|done|exact Hid|done|done| |done].
  intros _. apply (ri_free _ _ Hi). unfold locked. by rewrite Hst.
Qed.

Lemma refunding_moves i ow db clock oid : refund_inv ow db ->
  moves i ow ow db (UpdateRefunding clock oid db).2 /\
  exists ow', moves i ow ow' db (UpdateRefunding clock oid db).2 /\
    ((UpdateRefunding clock oid db).1 <> 0%Z -> owns_clean i oid (ow', (UpdateRefunding clock oid db).2)).
Proof.
  intros Hi. unfold UpdateRefunding.
  edestruct (updateRow_case clock oid) as [E|(o & Ho & Hg & E)]; rewrite E; cbn [fst snd].
  { split; [apply quiet_moves; eauto with refunds|]. exists ow. split; [apply quiet_moves; eauto with refunds|done]. }
  assert (Hst : status_of db oid = Some (po_Status o)) by (unfold status_of; by rewrite Ho).
  assert (Hl : locked db oid = false) by (unfold locked; rewrite Hst; by apply refundable_unlocked).
  assert (Hn : ow !! oid = None).
  { destruct (ow !! oid) as [j|] eqn:Ej; [|done]. apply (ri_owner _ _ Hi) in Ej. unfold locked in Hl. by rewrite Ej in Hl. }
  pose proof (ri_id _ _ Hi _ _ Ho) as Hid. split.
  - by eapply (unlocked_write i oid).
  - exists (<[ oid := i ]> ow). split.
    + apply (row_moves i oid ((o <| po_Status := OrderStatusRefunding |>) <| po_UpdatedAt := clock |>)); [done|].
      split; [exact Hid|try done..].
      * intros oid' Hne. by rewrite lookup_insert_ne.
      * intros j Hj. congruence.
      * intros j Hj. rewrite lookup_insert_eq in Hj. by injection Hj as <-.
    + intros _. split; [apply lookup_insert_eq|]. apply (quiet_live db); [done|]. by apply (ri_free _ _ Hi).
Qed.

Lemma owner_write_moves i ow db clock oid f : refund_inv ow db -> owns i oid (ow, db) ->
  (forall o, po_ID (f o) = po_ID o) ->
  (forall o, po_Status (f o) <> OrderStatusRefundPending) ->
  (forall o, refund_locked (po_Status (f o)) = false -> none_live db oid) ->
  exists ow', moves i ow ow' db (updateRow clock oid (fun _ => true) f db).2.
Proof.
  intros Hi Ho Hid Hp Hf. edestruct (updateRow_case clock oid) as [E|(o & Hr & Hg & E)]; rewrite E; cbn [fst snd].
  - exists ow. apply quiet_moves; eauto with refunds.
  - exists (delete oid ow). eapply (release i oid (f o <| po_UpdatedAt := clock |>)); [done|done|done| |done|done|apply (Hf o)|].
    { change (po_ID (f o) = oid). rewrite Hid. by apply (ri_id _ _ Hi). }
    intros H. by destruct (Hp o).
Qed.

Lemma pending_moves i ow db clock p refundID : refund_inv ow db -> owns i (rp_OrderID p) (ow, db) ->
  exists ow', moves i ow ow' db (markPendingTx clock p refundID db).2.
Proof.
  intros Hi Ho. unfold markPendingTx. cbv zeta.
  edestruct (updateRow_case clock (rp_OrderID p)) as [E|(o & Hr & Hg & E)]; rewrite E; cbn [fst snd].
  { exists ow. apply quiet_moves; eauto with refunds. }
  change (1 =? 0)%Z with false. cbv iota. unfold createPaymentAuditLogTx, writeAudit.
  set (db1 := db <| rd_orders := _ |>). change (rd_audit db1) with (rd_audit db).
  destruct (rd_audit db !! (rp_OrderID p, "REFUND_PENDING")) eqn:Ea; cbn [fst snd].
  { exists ow. apply quiet_moves; eauto with refunds. }
  exists (delete (rp_OrderID p) ow). pose proof (ri_id _ _ Hi _ _ Hr) as Hid.
  eapply (release i (rp_OrderID p)); [done|done|done|exact Hid|done| |done|].
  - intros k Hk. cbn. apply lookup_insert_is_Some'. by right.
  - intros _. split; [|done]. cbn. rewrite lookup_insert_eq. by eexists.
Qed.

(** A pending order is claimed by a transaction. *)
Lemma claim_moves i ow db db1 oid o : refund_inv ow db -> status_of db oid = Some OrderStatusRefundPending ->
  rd_orders db1 = <[ oid := o ]> (rd_orders db) -> po_ID o = oid -> rd_gateway db1 = rd_gateway db ->
  (forall k, is_Some (rd_audit db !! k) -> is_Some (rd_audit db1 !! k)) ->
  (refund_locked (po_Status o) = false -> none_live db oid) -> po_Status o <> OrderStatusRefundPending ->
  moves i ow ow db db1.
Proof. intros Hi Hs. apply unlocked_write; [done|]. by eapply no_owner. Qed.

Lemma finalStatus_locked p : refund_locked (finalStatus p) = true /\ finalStatus p <> OrderStatusRefundPending.
Proof. unfold finalStatus. by destruct (flt _ _). Qed.

Lemma status_pending db oid o : rd_orders db !! oid = Some o -> status_in [OrderStatusRefundPending] o = true ->
  status_of db oid = Some OrderStatusRefundPending.
Proof.
  intros Ho Hs. unfold status_in in Hs. apply bool_decide_eq_true, list_elem_of_singleton in Hs.
  unfold status_of. by rewrite Ho, <- Hs.
Qed.

Lemma success_moves i ow db clock sv p : refund_inv ow db -> moves i ow ow db (finalizeSuccessTx clock sv p db).2.
Proof.
  intros Hi. unfold finalizeSuccessTx. cbv zeta.
  edestruct (updateRow_case clock (rp_OrderID p)) as [E|(o & Hr & Hg & E)]; rewrite E; cbn [fst snd];
    [apply quiet_moves; eauto with refunds|].
  change (1 =? 0)%Z with false. cbv iota. set (db1 := db <| rd_orders := _ |>).
  destruct (applyRefundFinalDeduction sv p db1) as [[p' db2]|] eqn:Ed; [|apply quiet_moves; eauto with refunds].
  apply deduction_quiet in Ed as [Hq Hid].
  destruct (createPaymentAuditLogTx _ _ _) as [db3|] eqn:Ea; [|apply quiet_moves; eauto with refunds].
  apply quiet_audit_tx in Ea. cbn [snd]. unfold UpdateRefundOk in Ea. rewrite Hid in Ea.
  unfold updateRow in Ea. rewrite (qu_orders _ _ Hq) in Ea.
  change (rd_orders db1) with (<[ rp_OrderID p := (o <| po_Status := OrderStatusRefunding |>) <| po_UpdatedAt := clock |> ]> (rd_orders db)) in Ea.
  rewrite lookup_insert_eq in Ea. cbn [snd] in Ea.
  eapply (claim_moves i ow db db3 (rp_OrderID p)); [done|by eapply status_pending|
    rewrite (qu_orders _ _ Ea); cbn; apply insert_insert_eq|exact (ri_id _ _ Hi _ _ Hr)| | | |].
  - rewrite (qu_gateway _ _ Ea). cbn. by rewrite (qu_gateway _ _ Hq).
  - intros k Hk. apply Ea. cbn. by apply Hq.
  - intros H. change (refund_locked (finalStatus p') = false) in H. by rewrite (proj1 (finalStatus_locked p')) in H.
  - exact (proj2 (finalStatus_locked p')).
Qed.

Lemma failed_moves i ow db clock sv p rollback reason : refund_inv ow db -> settled db (rp_OrderID p) ->
  moves i ow ow db (finalizeFailedTx clock sv p rollback reason db).2.
Proof.
  intros Hi [_ Hs]. unfold finalizeFailedTx. cbv zeta.
  edestruct (updateRow_case clock (rp_OrderID p)) as [E|(o & Hr & Hg & E)]; rewrite E; cbn [fst snd];
    [apply quiet_moves; eauto with refunds|].
  change (1 =? 0)%Z with false. cbv iota. set (db1 := db <| rd_orders := _ |>).
  apply (status_pending db (rp_OrderID p)) in Hg; [|done].
  assert (Hend : forall db2, quiet db1 db2 -> moves i ow ow db db2).
  { intros db2 Hq. eapply (claim_moves i ow db db2 (rp_OrderID p)); [done|done|exact (qu_orders _ _ Hq)|exact (ri_id _ _ Hi _ _ Hr)|exact (qu_gateway _ _ Hq)| | |].
    - intros k Hk. by apply (qu_audit _ _ Hq).
    - intros _. by apply Hs.
    - done. }
  destruct (if rp_deductionHeld p && negb rollback then _ else _) as [db2|] eqn:E2; [|apply quiet_moves; eauto with refunds].
  assert (Hq2 : quiet db1 db2).
  { destruct (rp_deductionHeld p && negb rollback); [by eapply return_quiet|]. injection E2 as <-. apply quiet_refl. }
  destruct (if rollback then _ else _) as [db3|] eqn:E3; [|apply quiet_moves; eauto with refunds].
  assert (Hq3 : quiet db2 db3) by (destruct rollback; [by eapply quiet_audit_tx|injection E3 as <-; apply quiet_refl]).
  destruct (createPaymentAuditLogTx (rp_OrderID p) "REFUND_FAILED" db3) as [db4|] eqn:E4;
    [|apply quiet_moves; eauto with refunds].
  apply Hend. cbn [snd]. eapply quiet_trans; [exact Hq2|]. eapply quiet_trans; [exact Hq3|]. by eapply quiet_audit_tx.
Qed.

(** Every call whose demand is met keeps the invariant and teaches its caller. *)
Definition sound (i : nat) {R : Type} (c : refund_call R) (r : option R) (ow : owners) (db db' : refund_db) : Prop :=
  exists ow', moves i ow ow' db db' /\ learns i c r (ow, db) (ow', db').

Lemma sound_quiet i R (c : refund_call R) r ow db db' : refund_inv ow db -> quiet db db' ->
  (rely i (ow, db) (ow, db') -> learns i c r (ow, db) (ow, db')) -> sound i c r ow db db'.
Proof. intros Hi Hq Hl. exists ow. split; [by apply quiet_moves|]. by apply Hl, quiet_rely. Qed.

Lemma lost_sound i R (c : refund_call R) ow db : refund_inv ow db -> demand i c (ow, db) -> sound i c None ow db db.
Proof.
  intros Hi Hd. apply sound_quiet; [done|apply quiet_refl|]. intros Hr. destruct c; cbn in *; try done.
  destruct Hd as [H1 H2]. by split.
Qed.

Lemma refundStatus_trimmed oid db : TrimSpace (refundStatus oid db) = refundStatus oid db.
Proof. unfold refundStatus. by destruct (gw_status <$> _) as [[| |]|]. Qed.

Lemma exec_sound i R (c : refund_call R) clock sv ow db (lost : bool) :
  refund_inv ow db -> demand i c (ow, db) -> (lost = true -> may_fail LostReply c = true) ->
  let r := refund_exec clock sv c db in
  sound i c (if lost then None else Some r.1) ow db r.2.
Proof.
  intros Hi Hd Hlost. cbv zeta.
  destruct c; cbn [refund_exec fst snd]; cbn in Hd;
    try (apply sound_quiet; [done|apply quiet_refl|by intros]);
    try (apply sound_quiet; [done|by repeat case_match; auto with refunds|by intros]).
  - apply sound_quiet; [done|apply quiet_refl|]. intros Hr. split; [done|]. intros o Ho.
    destruct lost; [done|]. injection Ho as Ho. split; [by apply (ri_id _ _ Hi)|]. intros Hs. cbn. apply (ri_audit _ _ Hi). unfold status_of. by rewrite Ho, <- Hs.
  - (* CallRequested *) exists ow. split; [by apply requested_moves|].
    cbn. by apply (requested_moves (S i)); [|lia].
  - (* CallRefunding *) destruct (refunding_moves i ow db clock oid Hi) as [H0 (ow' & H1 & H2)]. destruct lost.
    + exists ow. by split.
    + exists ow'. split; [done|]. cbn. intros n [= <-]. exact H2.
  - (* CallRestored *) destruct Hd as [[Ho Hn] Hs].
    destruct (owner_write_moves i ow db clock oid (fun o => o <| po_Status := status |>)) as (ow' & H);
      [done|done|done| |done|by exists ow']. intros o H. cbn in H. rewrite H in Hs. done.
  - (* CallRefundOk *) destruct (owner_write_moves i ow db clock (rp_OrderID p)
      (fun o => o <| po_Status := finalStatus p |> <| po_RefundAmount := rp_RefundAmount p |>
                <| po_RefundReason := Some (rp_Reason p) |> <| po_RefundAt := Some now |>
                <| po_ForceRefund := rp_Force p |>)) as (ow' & H); [done|done|done| | |by exists ow'].
    + intros o. exact (proj2 (finalStatus_locked p)).
    + intros o H. change (refund_locked (finalStatus p) = false) in H. by rewrite (proj1 (finalStatus_locked p)) in H.
  - (* CallRefundFailed *) destruct Hd as [Ho Hn].
    destruct (owner_write_moves i ow db clock oid (fun o => o <| po_Status := OrderStatusRefundFailed |> <| po_FailedAt := Some now |>
                <| po_FailedReason := Some reason |>)) as (ow' & H); [done|done|done|done|done|by exists ow'].
  - (* GatewayRefund *) destruct Hd as [Ho Hn]. destruct lost; [by specialize (Hlost eq_refl)|].
    set (g := MkGatewayRefund oid amount (refundOutcome (rs_refund sv))). exists ow. split.
    + split; [by apply (append_inv ow db g i)|]. intros j Hj. by apply (append_rely ow db g i).
    + cbn [learns]. split; [done|]. cbn. intros Hfail. split; [done|]. unfold none_live. cbn [snd].
      rewrite (refundsOf_append oid db g). apply Forall_app. split; [done|].
      destruct (decide _); [|by apply Forall_nil]. apply Forall_singleton. unfold live. cbn. by rewrite Hfail.
  - (* QueryRefund *) apply sound_quiet; [done|apply quiet_refl|]. intros Hr. split; [done|]. intros resp Hresp Hs Ha.
    destruct lost; [done|]. destruct (rs_answers sv); [|done]. injection Hresp as <-. cbn in Hs. split; [done|].
    intros _. cbn. apply last_failed; [apply (ri_last _ _ Hi)|].
    by rewrite <- refundStatus_trimmed.
  - (* MarkPendingTx *) destruct (pending_moves i ow db clock p refundID) as (ow' & H); [done|done|by exists ow'].
  - (* FinalizeSuccessTx *) exists ow. split; [by apply success_moves|]. cbn. by apply (success_moves (S i)); [|lia].
  - (* FinalizeFailedTx *) exists ow. split; [by apply failed_moves|]. cbn. by apply (failed_moves (S i)); [| |lia].
Qed.

Lemma call_sound i R (c : refund_call R) clock sv f ow db :
  refund_inv ow db -> demand i c (ow, db) -> may_fail f c = true ->
  sound i c (perform (@refund_exec clock sv) f c db).1 ow db (perform (@refund_exec clock sv) f c db).2.
Proof.
  intros Hi Hd Hf. destruct f; cbn [perform fst snd].
  - by apply (exec_sound i R c clock sv ow db false).
  - by apply lost_sound.
  - by apply (exec_sound i R c clock sv ow db true).
Qed.

(** ** Programs that meet the demands of their calls *)

Fixpoint meets (i : nat) {A : Type} (p : rprog A) (Q : A -> owners * refund_db -> Prop) (s : owners * refund_db)
    : Prop :=
  match p with
  | Ret a => Q a s
  | Do c k => forall s1, rely i s s1 -> refund_inv s1.1 s1.2 ->
    demand i c s1 /\ forall r s2, learns i c r s1 s2 -> meets i (k r) Q s2
  end.

Lemma meets_bind i {A B : Type} (p : rprog A) (f : A -> rprog B) Q s :
  meets i p (fun a s => meets i (f a) Q s) s -> meets i (bind p f) Q s.
Proof.
  revert s. induction p as [a|R c k IH]; intros s H; [exact H|]. cbn. intros s1 E1 I1.
  destruct (H s1 E1 I1) as [H1 H2]. split; [done|]. intros r s2 L2. apply IH. by apply H2.
Qed.

Lemma meets_mono i {A : Type} (p : rprog A) (Q Q' : A -> owners * refund_db -> Prop) s :
  (forall a s, Q a s -> Q' a s) -> meets i p Q s -> meets i p Q' s.
Proof.
  intros HQ. revert s. induction p as [a|R c k IH]; intros s H; [by apply HQ|]. cbn in *. intros s1 E1 I1.
  destruct (H s1 E1 I1) as [H1 H2]. split; [done|]. intros r s2 L2. apply IH. by apply H2.
Qed.

Definition fine {A : Type} (_ : A) (_ : owners * refund_db) : Prop := True.

Lemma meets_rely i (p : rprog unit) s s' : rely i s s' -> meets i p fine s -> meets i p fine s'.
Proof.
  intros E H. destruct p as [a|R c k]; [done|]. cbn in *. intros s1 E1 I1. apply H; [|done]. by eapply rely_trans.
Qed.

(** ** Refund handlers *)

Abbreviation good i p s := (meets i p fine s).

(** A call without demand, of which nothing is kept in mind. *)
Lemma good_call i {A R : Type} (c : refund_call R) (k : option R -> rprog A) Q s :
  (forall s1, demand i c s1) -> (forall r s', meets i (k r) Q s') -> meets i (Do c k) Q s.
Proof. intros Hd H s1 E1 I1. split; [apply Hd|]. intros r s2 _. apply H. Qed.

(** A call without demand, after which the caller knows what it knew. *)
Lemma keep_call i {A R : Type} (c : refund_call R) (k : option R -> rprog A) Q (P : owners * refund_db -> Prop) s :
  (forall s s', rely i s s' -> P s -> P s') -> (forall s1, demand i c s1) ->
  (forall r s s', learns i c r s s' -> rely i s s') -> P s ->
  (forall r s', P s' -> meets i (k r) Q s') -> meets i (Do c k) Q s.
Proof.
  intros HP Hd Hl Hs H s1 E1 I1. split; [apply Hd|]. intros r s2 L2. apply H. eapply HP; [by eapply Hl|]. by eapply HP.
Qed.

Lemma restoredStatus_free p : refund_locked (restoredStatus p) = false.
Proof. unfold restoredStatus. by destruct (_ =s _). Qed.

(** The lock is given back with [CallRestored]. *)
Lemma restore_call i oid p {A : Type} (k : option Z -> rprog A) Q s : oid = rp_OrderID p ->
  owns_clean i oid s -> (forall r s', meets i (k r) Q s') -> meets i (Do (CallRestored oid (restoredStatus p)) k) Q s.
Proof.
  intros -> Hs H s1 E1 I1. split; [|intros; apply H]. split; [by eapply owns_clean_rely|apply restoredStatus_free].
Qed.

Lemma raudit_good i oid action operator {A : Type} (p : rprog A) Q s :
  (forall s', meets i p Q s') -> meets i (raudit oid action operator p) Q s.
Proof. intros H. apply good_call; [done|]. intros _. apply H. Qed.

Lemma raudit_keep i oid action operator {A : Type} (p : rprog A) Q (P : owners * refund_db -> Prop) s :
  (forall s s', rely i s s' -> P s -> P s') -> P s -> (forall s', P s' -> meets i p Q s') ->
  meets i (raudit oid action operator p) Q s.
Proof. intros HP Hs H. by apply (keep_call i _ _ _ P). Qed.

(** *** After the lock: [owns_clean] is kept until the provider is asked. *)

Lemma rollback_meets i p s : owns_clean i (rp_OrderID p) s ->
  meets i (RollbackRefund p) (fun _ s => owns_clean i (rp_OrderID p) s) s.
Proof.
  intros Hs. pose proof (fun s s' => owns_clean_rely i (rp_OrderID p) s s') as HP.
  assert (Hsub : forall s, owns_clean i (rp_OrderID p) s ->
    meets i (if deducts_subscription p then
      let! ok := returnRefundSubscription p in
      if ok then Ret true else raudit (rp_OrderID p) "REFUND_ROLLBACK_FAILED" "admin" (Ret false)
    else Ret true)%prog (fun _ s => owns_clean i (rp_OrderID p) s) s).
  { intros s' Hs'. destruct (deducts_subscription p); [|exact Hs']. apply meets_bind. unfold returnRefundSubscription.
    assert (Hend : forall (ok : bool) s, owns_clean i (rp_OrderID p) s ->
      meets i (if ok then Ret true else raudit (rp_OrderID p) "REFUND_ROLLBACK_FAILED" "admin" (Ret false))%prog
        (fun _ s => owns_clean i (rp_OrderID p) s) s).
    { intros [] s2 Hs2; [exact Hs2|]. by apply (raudit_keep i _ _ _ _ _ (owns_clean i (rp_OrderID p))). }
    destruct (rp_subscriptionRevoked p); apply (keep_call i _ _ _ (owns_clean i (rp_OrderID p))); try done;
      intros r s2 Hs2; by apply Hend. }
  unfold RollbackRefund. cbv zeta. destruct (deducts_balance p); [|by apply Hsub].
  apply (keep_call i _ _ _ (owns_clean i (rp_OrderID p))); try done. intros r s2 Hs2. destruct (yes r); [by apply Hsub|].
  by apply (raudit_keep i _ _ _ _ _ (owns_clean i (rp_OrderID p))).
Qed.

Lemma handleGwFail_good i p e s : owns_clean i (rp_OrderID p) s -> good i (handleGwFail message p e) s.
Proof.
  intros Hs. apply meets_bind. eapply meets_mono; [|by apply rollback_meets]. intros [] s1 Hs1; cbv beta.
  - apply (restore_call i (rp_OrderID p) p); [done|done|]. intros. by apply raudit_good.
  - apply (keep_call i _ _ _ (owns_clean i (rp_OrderID p))); try done; [intros ? ?; apply owns_clean_rely|].
    intros r s2 Hs2 s3 E3 I3. split; [by eapply owns_clean_rely|]. intros r3 s4 _. by apply raudit_good.
Qed.

(** What [gwRefund] leaves its caller with. *)
Definition after_gateway (i : nat) (oid : Z) (reply : RefundResponse + refund_error) (s : owners * refund_db) : Prop :=
  match reply with
  | inl resp => owns i oid s /\ validateRefundProviderResponse (Some resp) = None
  | inr _ => owns_clean i oid s
  end.

Lemma validated resp : validateRefundProviderResponse (Some resp) = None <->
  refundOutcome (Some resp, false) <> GatewayFailed.
Proof.
  unfold validateRefundProviderResponse, refundOutcome.
  destruct (TrimSpace (rf_Status resp) =s ProviderStatusPending), (TrimSpace (rf_Status resp) =s ProviderStatusSuccess),
    (TrimSpace (rf_Status resp) =s ProviderStatusRefunded), (TrimSpace (rf_Status resp) =s ProviderStatusFailed); cbn; done.
Qed.

Lemma gwRefund_meets i p s : owns_clean i (rp_OrderID p) s ->
  meets i (gwRefund unicode_upper unicode_fold p) (after_gateway i (rp_OrderID p)) s.
Proof.
  intros Hs. pose proof (fun s s' => owns_clean_rely i (rp_OrderID p) s s') as HP. unfold gwRefund. cbv zeta.
  destruct (is_empty (po_PaymentTradeNo (rp_Order p))).
  { apply (raudit_keep i _ _ _ _ _ (owns_clean i (rp_OrderID p))); [done|done|]. intros s' [Ho _]. by split. }
  apply (keep_call i _ _ _ (owns_clean i (rp_OrderID p))); try done. intros [prov|] s1 Hs1; [|exact Hs1].
  destruct (negb (validateProviderSnapshotMetadata _ _ _ _ _));
    [by apply (raudit_keep i _ _ _ _ _ (owns_clean i (rp_OrderID p)))|].
  intros s2 E2 I2. split; [by eapply owns_clean_rely|]. intros r s3 [Ho Hc].
  destruct r as [[resp failed]|]; [|by apply Hc].
  change (refundOutcome (resp, failed) = GatewayFailed -> owns_clean i (rp_OrderID p) s3) in Hc. destruct failed.
  - destruct resp as [resp|]; [|by apply Hc]. destruct (TrimSpace (rf_Status resp) =s ProviderStatusPending) eqn:Ep.
    + split; [done|]. apply String.eqb_eq in Ep. unfold validateRefundProviderResponse. by rewrite Ep.
    + apply Hc. unfold refundOutcome. cbv zeta. by rewrite Ep.
  - destruct resp as [resp|]; [|by apply Hc]. destruct (validateRefundProviderResponse (Some resp)) eqn:Ev.
    + apply Hc. destruct (refundOutcome (Some resp, false)) eqn:Eo; [| |done];
        exfalso; assert (validateRefundProviderResponse (Some resp) = None) by (apply validated; by rewrite Eo); congruence.
    + by split.
Qed.

Lemma finishRefund_good i p resp s : owns i (rp_OrderID p) s -> validateRefundProviderResponse (Some resp) = None ->
  good i (finishRefund message p resp) s.
Proof.
  intros Hs Hv. unfold finishRefund. rewrite Hv. cbv zeta.
  destruct ((TrimSpace (rf_Status resp) =s ProviderStatusSuccess) || (TrimSpace (rf_Status resp) =s ProviderStatusRefunded)) eqn:E1.
  - unfold markRefundOk. apply (keep_call i _ _ _ (owns i (rp_OrderID p))); try done; [intros ? ?; apply owns_rely|].
    intros r s1 Hs1 s2 E2 I2. split; [by eapply owns_rely|]. intros r2 s3 _. destruct r2 as [n|]; [|exact I].
    destruct (n =? 0)%Z; [exact I|]. by apply raudit_good.
  - destruct (TrimSpace (rf_Status resp) =s ProviderStatusPending) eqn:E2.
    + intros s2 E3 I2. split; [by eapply owns_rely|]. intros r2 s3 _. by destruct (yes r2).
    + exfalso. unfold validateRefundProviderResponse in Hv. cbv zeta in Hv. rewrite E1, E2 in Hv. cbn in Hv.
      by destruct (TrimSpace (rf_Status resp) =s ProviderStatusFailed).
Qed.

Lemma ExecuteRefund_good i p s : good i (ExecuteRefund unicode_upper unicode_fold message p) s.
Proof.
  pose proof (fun s s' => owns_clean_rely i (rp_OrderID p) s s') as HP.
  assert (Hgate : forall p' s, rp_OrderID p' = rp_OrderID p -> owns_clean i (rp_OrderID p) s ->
    good i (let! reply := gwRefund unicode_upper unicode_fold p' in
      match reply with inl resp => finishRefund message p' resp | inr e => handleGwFail message p' e end)%prog s).
  { intros p' s' Hid Hs. apply meets_bind. eapply meets_mono; [|apply gwRefund_meets; by rewrite Hid].
    intros [resp|e] s1 Hs1; cbv beta; [destruct Hs1; by apply finishRefund_good|by apply handleGwFail_good]. }
  assert (Hdays : forall p' s, rp_OrderID p' = rp_OrderID p -> owns_clean i (rp_OrderID p) s ->
    good i (deductDaysThen p' (fun p => let! reply := gwRefund unicode_upper unicode_fold p in
      match reply with inl resp => finishRefund message p resp | inr e => handleGwFail message p e end))%prog s).
  { intros p' s' Hid Hs. unfold deductDaysThen. destruct (negb (deducts_subscription p')); [by apply Hgate|].
    apply (keep_call i _ _ _ (owns_clean i (rp_OrderID p))); try done. intros r s1 Hs1.
    destruct (yes r); [by apply Hgate|]. apply (keep_call i _ _ _ (owns_clean i (rp_OrderID p))); try done.
    intros [[| |]|] s2 Hs2; [by apply Hgate| | |]; try (apply (restore_call i _ p'); [done|by rewrite Hid|done]).
    apply (keep_call i _ _ _ (owns_clean i (rp_OrderID p))); try done. intros r3 s3 Hs3.
    destruct (yes r3); [by apply Hgate|]. apply (restore_call i _ p'); [done|by rewrite Hid|done]. }
  unfold ExecuteRefund. intros s1 E1 I1. split; [exact I|]. intros r s2 L2. cbn in L2.
  destruct r as [n|]; [|exact I]. destruct (n =? 0)%Z eqn:En; [exact I|]. apply Z.eqb_neq in En.
  specialize (L2 n eq_refl En). unfold deductBalanceThen. destruct (negb (deducts_balance p)); [by apply Hdays|].
  apply (keep_call i _ _ _ (owns_clean i (rp_OrderID p))); try done. intros r3 s3 Hs3. destruct (yes r3); [by apply Hdays|].
  apply (keep_call i _ _ _ (owns_clean i (rp_OrderID p))); try done. intros r4 s4 Hs4. cbv zeta.
  destruct (default None r4) as [deducted|]; [|by apply (restore_call i _ p)].
  destruct (negb (rp_Force p) && flt deducted (rp_BalanceToDeduct p)); [|by apply Hdays].
  assert (Hgive : forall s, owns_clean i (rp_OrderID p) s ->
    good i (let* c := CallRestored (rp_OrderID p) (restoredStatus p) in
        match c with
        | Some n => if (n =? 0)%Z then Ret (Err RefRestoreStatus)
                    else Ret (Done (requireForce "user balance became insufficient for deduction, use force"))
        | None => Ret (Err RefRestoreStatus)
        end)%prog s).
  { intros s' Hs'. apply (restore_call i _ p); [done|done|]. intros r' s''. by repeat case_match. }
  destruct (flt fzero deducted); [|by apply Hgive]. apply (keep_call i _ _ _ (owns_clean i (rp_OrderID p))); try done.
  intros r5 s5 Hs5. destruct (yes r5); [by apply Hgive|]. by apply (restore_call i _ p).
Qed.

Lemma prepDeduct_good i o p force s (Q : _ -> owners * refund_db -> Prop) :
  (forall r s, Q r s) -> meets i (prepDeduct o p force) Q s.
Proof.
  intros HQ. unfold prepDeduct. destruct (po_OrderType o =s OrderTypeSubscription).
  - cbv zeta. destruct (po_SubscriptionGroupID o), (po_SubscriptionDays o); try apply HQ.
    apply good_call; [done|]. intros [[id|]|] s1; [apply HQ| |]; destruct force; apply HQ.
  - apply good_call; [done|]. intros [b|] s1; cbv zeta; [destruct (_ && _)|destruct force]; apply HQ.
Qed.

Lemma ProcessRefund_good i oid amt reason force deduct s :
  good i (ProcessRefund unicode_upper unicode_fold decimalRound decimalShare message oid amt reason force deduct) s.
Proof.
  apply meets_bind. unfold PrepareRefund.
  assert (Hend : forall (r : prepared) s, good i (match r with
    | Refused e => Ret (Err e) | Early r => Ret (Done r) | Plan p => ExecuteRefund unicode_upper unicode_fold message p end) s)
    by (intros [] s'; [apply ExecuteRefund_good|exact I|exact I]).
  apply good_call; [done|]. intros [[o|]|] s1; [|apply Hend..]. destruct (negb _); [apply Hend|].
  apply good_call; [done|]. intros [[inst|]|] s2; [|apply Hend..]. destruct (negb _); [apply Hend|].
  destruct (_ || _); [apply Hend|]. cbv zeta. destruct (flt _ (fsub _ _)); [apply Hend|].
  destruct deduct; [|apply Hend]. apply meets_bind. apply prepDeduct_good. intros [p|early] s3; apply Hend.
Qed.

(** Finalization: the knowledge that the order is marked pending, and, after a failure
    was reported, that no refund is live while it is. *)
Lemma settleRefund_good i oid plan resp s : rp_OrderID plan = oid ->
  (forall r, resp = Some r -> TrimSpace (rf_Status r) = ProviderStatusFailed -> settled s.2 oid) ->
  good i (settleRefund message oid plan resp) s.
Proof.
  intros <- Hk. unfold settleRefund. destruct resp as [r|]; [|exact I]. cbv zeta.
  destruct (TrimSpace (rf_Status r) =s ProviderStatusFailed) eqn:Ef.
  - apply String.eqb_eq in Ef. specialize (Hk r eq_refl Ef). unfold finalizeRefundFailed. cbv zeta.
    intros s1 E1 I1. pose proof (rl_settled _ _ _ E1 _ Hk) as Hk1. split; [done|]. intros r1 s2 L2. cbn in L2.
    destruct r1 as [[| | |]|]; try exact I. intros s3 E3 I3. split; [|intros r3 s4 _; by destruct r3 as [[| | |]|]].
    apply (rl_settled _ _ _ E3). by apply (rl_settled _ _ _ L2).
  - destruct (validateRefundProviderResponse (Some r)) eqn:Ev; [exact I|].
    destruct (_ || _) eqn:Eo.
    + apply good_call; [done|]. intros [[| |]|] s1; exact I.
    + destruct (TrimSpace (rf_Status r) =s ProviderStatusPending) eqn:Ep; [by apply raudit_good|].
      exfalso. unfold validateRefundProviderResponse in Ev. cbv zeta in Ev. rewrite Eo, Ep, Ef in Ev. done.
Qed.

Lemma QueryAndFinalizeRefund_good i oid s :
  good i (QueryAndFinalizeRefund unicode_upper unicode_fold decimalRound decimalShare message oid) s.
Proof.
  unfold QueryAndFinalizeRefund. intros s1 E1 I1. split; [exact I|]. intros r s2 [_ L2].
  destruct r as [[o|]|]; [|exact I|exact I]. destruct (L2 o eq_refl) as [Hid Ha].
  destruct (po_Status o =s OrderStatusRefundPending) eqn:Es; cbn [negb]; [|exact I]. apply String.eqb_eq in Es.
  specialize (Ha Es). set (P := fun s : owners * refund_db => is_Some (rd_audit s.2 !! (oid, "REFUND_PENDING"))).
  assert (HP : forall s s', rely i s s' -> P s -> P s') by (intros ? ? H; apply (rl_audit _ _ _ H)).
  apply (keep_call i _ _ _ P); try done. intros [prov|] s3 H3; [|exact I].
  destruct (negb (validateProviderSnapshotMetadata _ _ _ _ _)); [by apply raudit_good|].
  destruct (negb (rv_queries prov)); [exact I|].
  apply (keep_call i _ _ _ P); try done. intros [detail|] s4 H4; [|exact I]. cbv zeta.
  intros s5 E5 I5. split; [exact I|]. intros r6 s6 [R6 L6]. destruct r6 as [resp|]; [|exact I].
  assert (Hset : forall plan, rp_OrderID plan = oid -> good i (settleRefund message oid plan resp) s6).
  { intros plan Hp. apply settleRefund_good; [done|]. intros r -> Hf. apply (L6 r eq_refl Hf).
    apply (HP s5); [done|]. by apply (HP s4). }
  destruct (pd_DeductionHeld _); [by apply Hset|]. destruct (negb (pd_DeductionRollbackOK _)); [by apply Hset|].
  destruct (po_OrderType o =s OrderTypeSubscription) eqn:Et; [|by apply Hset].
  apply meets_bind. unfold prepDeduct. rewrite Et. cbv zeta.
  assert (Hplan : forall plan s, rp_OrderID plan = oid -> rely i s6 s -> good i (settleRefund message oid plan resp) s).
  { intros plan s' Hp Hr. apply settleRefund_good; [done|]. intros r -> Hf. apply (rl_settled _ _ _ Hr).
    apply (L6 r eq_refl Hf). apply (HP s5); [done|]. by apply (HP s4). }
  destruct (po_SubscriptionGroupID o), (po_SubscriptionDays o); try (apply Hplan; [done|apply rely_refl]).
  intros s7 E7 I7. split; [exact I|]. intros r8 s8 L8. cbn in L8. pose proof (rely_trans _ _ _ _ E7 L8) as R8.
  destruct r8 as [[id|]|]; by apply Hplan.
Qed.

Lemma RequestRefund_good i oid uid reason s (Q : option refund_error -> owners * refund_db -> Prop) :
  (forall r s, Q r s) -> meets i (RequestRefund oid uid reason) Q s.
Proof.
  intros HQ. apply meets_bind. unfold validateRefundRequest. apply good_call; [done|].
  intros [[o|]|] s1; [|apply HQ..]. destruct (negb (po_UserID o =? uid)%Z); [apply HQ|].
  destruct (negb (po_OrderType o =s _)); [apply HQ|]. destruct (negb (po_Status o =s _)); [apply HQ|].
  apply good_call; [done|]. intros [[inst|]|] s2; [|apply HQ..]. destruct (in_AllowUserRefund inst); [|apply HQ].
  apply good_call; [done|]. intros [b|] s3; [|apply HQ]. destruct (flt _ _); [apply HQ|].
  apply good_call; [done|]. intros r4 s4. apply good_call; [done|]. intros [n|] s5; [|apply HQ].
  destruct (n =? 0)%Z; [apply HQ|]. apply raudit_good. intros. apply HQ.
Qed.

Lemma refund_start_good i rq s : good i (refund_start rq) s.
Proof.
  destruct rq; cbn [refund_start]; apply meets_bind.
  - by apply RequestRefund_good.
  - eapply meets_mono; [|apply ProcessRefund_good]. done.
  - eapply meets_mono; [|apply QueryAndFinalizeRefund_good]. done.
Qed.

(** ** All reachable worlds *)

Definition refunds_ok (w : refund_world) : Prop :=
  exists ow, refund_inv ow (rw_db w) /\
    forall i p, rw_threads w !! i = Some p -> good i p (ow, rw_db w).

Lemma refund_step_ok w w' : refunds_ok w -> refund_step w w' -> refunds_ok w'.
Proof.
  intros (ow & Hi & Ht) Hs. destruct Hs as [w t Hle|w rq|w n g s Hn Hp|w oid o Hid Hl Hf|w i f sv R c k Hk Hf r].
  - by exists ow.
  - exists ow. split; [done|]. intros i p H. cbn in H. apply lookup_app_Some in H as [H|[_ H]]; [by apply Ht|].
    apply list_lookup_singleton_Some in H as [_ <-]. apply refund_start_good.
  - exists ow. split; [by apply settle_inv|]. intros i p H. eapply meets_rely; [by apply settle_rely|]. by apply Ht.
  - exists ow. assert (Hno : ow !! oid = None).
    { destruct (ow !! oid) as [j|] eqn:E; [|done]. apply (ri_owner _ _ Hi) in E. unfold locked in Hl. by rewrite E in Hl. }
    set (db' := rw_db w <| rd_orders := <[ oid := o ]> (rd_orders (rw_db w)) |>).
    assert (Hm : forall i, moves i ow ow (rw_db w) db').
    { intros i. eapply (unlocked_write i oid o); [done|done|done|done|done|done| |].
      - intros _. by apply (ri_free _ _ Hi).
      - intros H. by rewrite H in Hf. }
    split; [apply (Hm 0%nat)|]. intros i p H. eapply meets_rely; [|by apply Ht]. apply (Hm (S i)). lia.
  - destruct (Ht i _ Hk (ow, rw_db w) (rely_refl _ _) Hi) as [Hd Hcont].
    destruct (call_sound i R c (rw_clock w) sv f ow (rw_db w) Hi Hd Hf) as (ow' & [Hi' Hr] & Hlearn).
    exists ow'. split; [exact Hi'|]. intros j p H. cbn in H. destruct (decide (j = i)) as [->|Hne].
    + rewrite list_lookup_insert_eq in H by by eapply lookup_lt_Some. injection H as <-. by apply Hcont.
    + rewrite list_lookup_insert_ne in H by done. eapply meets_rely; [by apply Hr|]. by apply Ht.
Qed.

Lemma initial_refunds_ok t0 : refunds_ok (initial_refund t0).
Proof.
  exists ∅. split; [|done]. split; try done.
  - by left.
  - intros oid _. apply Forall_nil. done.
Qed.

Lemma refund_reachable_ok w : refund_reachable w -> refunds_ok w.
Proof.
  intros [t0 H]. generalize (initial_refunds_ok t0). induction H as [|w0 w1 w2 Hs _ IH]; [done|].
  intros Hw. apply IH. by eapply refund_step_ok.
Qed.


(** ** Refunds that run alone and without faults *)

Section Alone.
Context (clock : Z) (sv : refund_services) (Hrestore : rs_restore sv = true).

Abbreviation ralone := (alone (@refund_exec clock sv)).

(** The tables up to audit rows, pending details and refunds of providers. *)
Definition same_rows (db db' : refund_db) : Prop :=
  rd_orders db' = rd_orders db /\ rd_ledger db' = rd_ledger db.

Lemma writeAudit_same oid action operator db : same_rows db (writeAudit oid action operator db).2.
Proof. unfold writeAudit. by destruct (_ !! _). Qed.

Lemma raudit_run oid action operator {A : Type} (p : rprog A) db :
  ralone (raudit oid action operator p) db = ralone p (writeAudit oid action operator db).2.
Proof. done. Qed.

Lemma gwRefund_run p db : same_rows db (ralone (gwRefund unicode_upper unicode_fold p) db).2.
Proof.
  unfold gwRefund. cbv zeta. destruct (is_empty _); [rewrite raudit_run; apply writeAudit_same|].
  rewrite alone_do. cbn [refund_exec fst snd].
  destruct (negb (validateProviderSnapshotMetadata _ _ _ _ _)); [rewrite raudit_run; apply writeAudit_same|].
  rewrite alone_do. cbn [refund_exec fst snd]. destruct (rs_refund sv) as [resp []].
  - destruct resp as [resp|]; [destruct (_ =s _)|]; done.
  - destruct (validateRefundProviderResponse resp); [done|]. by destruct resp.
Qed.

Lemma status_after db oid o : rd_orders db !! oid = Some o -> status_of db oid = Some (po_Status o).
Proof. intros H. unfold status_of. by rewrite H. Qed.

Lemma updateRow_run oid f db o : rd_orders db !! oid = Some o ->
  updateRow clock oid (fun _ => true) f db =
  (1%Z, db <| rd_orders := <[ oid := f o <| po_UpdatedAt := clock |> ]> (rd_orders db) |>).
Proof. intros H. unfold updateRow. by rewrite H. Qed.

(** How a run leaves an order: what was written to the ledger, and whether the order is
    still in the hands of refunds. *)
Definition ends (oid : Z) (l : list (Z * adjustment)) (is_locked : bool) (db db' : refund_db) : Prop :=
  rd_ledger db' = rd_ledger db ++ l /\ locked db' oid = is_locked.

Lemma locked_after db oid o : rd_orders db !! oid = Some o -> locked db oid = refund_locked (po_Status o).
Proof. intros H. unfold locked. by rewrite (status_after _ _ _ H). Qed.

(** Write a status with [CallRestored] and end. *)
Lemma restore_run p db o {A : Type} (k : option Z -> rprog A) : rd_orders db !! rp_OrderID p = Some o ->
  (forall r db', same_rows db' (ralone (k r) db').2) ->
  ends (rp_OrderID p) [] false db (ralone (Do (CallRestored (rp_OrderID p) (restoredStatus p)) k) db).2.
Proof.
  intros Ho Hk. rewrite alone_do. cbn [refund_exec]. unfold UpdateRestored.
  rewrite (updateRow_run _ _ _ o Ho). cbn [fst snd]. set (db1 := db <| rd_orders := _ |>).
  destruct (Hk (Some 1%Z) db1) as [H1 H2]. split; [by rewrite H2, app_nil_r|].
  rewrite (locked_after _ _ (o <| po_Status := restoredStatus p |> <| po_UpdatedAt := clock |>)).
  - apply restoredStatus_free.
  - rewrite H1. apply lookup_insert_eq.
Qed.

Definition handed_back (p : RefundPlan) : list (Z * adjustment) :=
  if deducts_balance p then [(rp_OrderID p, Restored (rp_BalanceToDeduct p))] else [].

Lemma handleGwFail_run p e db o : rd_orders db !! rp_OrderID p = Some o -> deducts_subscription p = false ->
  ends (rp_OrderID p) (handed_back p) false db (ralone (handleGwFail message p e) db).2.
Proof.
  intros Ho Hsub. unfold handleGwFail. rewrite alone_bind. unfold RollbackRefund, handed_back. rewrite Hsub. cbv zeta.
  destruct (deducts_balance p).
  - rewrite alone_do. cbn [refund_exec fst snd]. rewrite Hrestore. cbn [yes default from_option id alone fst snd].
    unfold restoreStatus. destruct (restore_run p (adjust (rp_OrderID p) (Restored (rp_BalanceToDeduct p)) db) o
      (fun _ => raudit (rp_OrderID p) "REFUND_GATEWAY_FAILED" "admin"
        (Ret (Done (warned ("gateway failed: " +:+ message e +:+ ", rolled back")))))) as [H1 H2].
    + exact Ho.
    + intros r db'. rewrite raudit_run. apply writeAudit_same.
    + split; [|exact H2]. rewrite H1. cbn. by rewrite app_nil_r.
  - cbn [alone fst snd]. apply (restore_run p db o); [exact Ho|]. intros r db'. rewrite raudit_run. apply writeAudit_same.
Qed.

Lemma finishRefund_run p resp db o : rd_orders db !! rp_OrderID p = Some o ->
  po_Status o = OrderStatusRefunding -> validateRefundProviderResponse (Some resp) = None ->
  ends (rp_OrderID p) [] true db (ralone (finishRefund message p resp) db).2.
Proof.
  intros Ho Hst Hv. unfold finishRefund. rewrite Hv. cbv zeta.
  destruct ((TrimSpace (rf_Status resp) =s ProviderStatusSuccess) || (TrimSpace (rf_Status resp) =s ProviderStatusRefunded)) eqn:E1.
  - unfold markRefundOk. rewrite alone_do. cbn [refund_exec fst snd]. rewrite alone_do. cbn [refund_exec].
    unfold UpdateRefundOk. rewrite (updateRow_run _ _ _ o Ho). cbn [fst snd]. change (1 =? 0)%Z with false. cbv iota.
    rewrite raudit_run. cbn [alone fst snd]. set (db1 := db <| rd_orders := _ |>).
    destruct (writeAudit_same (rp_OrderID p) "REFUND_SUCCESS" "admin" db1) as [H1 H2]. split; [by rewrite H2, app_nil_r|].
    erewrite locked_after; [|rewrite H1; apply lookup_insert_eq]. exact (proj1 (finalStatus_locked p)).
  - destruct (TrimSpace (rf_Status resp) =s ProviderStatusPending) eqn:E2.
    + unfold markRefundPending. rewrite alone_do. cbn [refund_exec]. unfold markPendingTx. cbv zeta.
      rewrite (updateRow_run _ _ _ o Ho). cbn [fst snd]. change (1 =? 0)%Z with false. cbv iota.
      unfold createPaymentAuditLogTx, writeAudit. set (db1 := db <| rd_orders := _ |>).
      change (rd_audit db1) with (rd_audit db).
      destruct (rd_audit db !! (rp_OrderID p, "REFUND_PENDING")); cbn [fst snd yes default from_option id alone].
      * split; [by rewrite app_nil_r|]. rewrite (locked_after _ _ o Ho), Hst. done.
      * split; [by rewrite app_nil_r|]. erewrite locked_after; [|apply lookup_insert_eq]. done.
    + exfalso. unfold validateRefundProviderResponse in Hv. cbv zeta in Hv. rewrite E1, E2 in Hv. cbn in Hv.
      by destruct (TrimSpace (rf_Status resp) =s ProviderStatusFailed).
Qed.

Lemma gwRefund_valid p db resp : (ralone (gwRefund unicode_upper unicode_fold p) db).1 = inl resp ->
  validateRefundProviderResponse (Some resp) = None.
Proof.
  unfold gwRefund. cbv zeta. destruct (is_empty _); [rewrite raudit_run; cbn [alone fst]; by intros [= <-]|].
  rewrite alone_do. cbn [refund_exec fst snd].
  destruct (negb (validateProviderSnapshotMetadata _ _ _ _ _)); [by rewrite raudit_run|].
  rewrite alone_do. cbn [refund_exec fst snd]. destruct (rs_refund sv) as [r []].
  - destruct r as [r|]; [|done]. destruct (TrimSpace (rf_Status r) =s ProviderStatusPending) eqn:E; [|done].
    cbn [alone fst]. intros [= <-]. apply String.eqb_eq in E. unfold validateRefundProviderResponse. by rewrite E.
  - destruct (validateRefundProviderResponse r) eqn:E; [done|]. destruct r; [|done]. cbn [alone fst]. by intros [= <-].
Qed.

Abbreviation askGateway p := (let! reply := gwRefund unicode_upper unicode_fold p in
  match reply with inl resp => finishRefund message p resp | inr e => handleGwFail message p e end)%prog.

(** The provider is asked: the refund is on its way, or the deduction is returned. *)
Lemma askGateway_run p db o : rd_orders db !! rp_OrderID p = Some o -> po_Status o = OrderStatusRefunding ->
  deducts_subscription p = false ->
  ends (rp_OrderID p) [] true db (ralone (askGateway p) db).2 \/
  ends (rp_OrderID p) (handed_back p) false db (ralone (askGateway p) db).2.
Proof.
  intros Ho Hst Hsub. rewrite alone_bind. cbv zeta. destruct (gwRefund_run p db) as [H1 H2].
  pose proof (gwRefund_valid p db) as Hv. set (r := ralone (gwRefund _ _ p) db) in *.
  rewrite <- H1 in Ho. destruct r.1 as [resp|e].
  - left. destruct (finishRefund_run p resp r.2 o Ho Hst (Hv resp eq_refl)) as [K1 K2]. split; [|done]. by rewrite K1, H2.
  - right. destruct (handleGwFail_run p e r.2 o Ho Hsub) as [K1 K2]. split; [|done]. by rewrite K1, H2.
Qed.

(** What the balance of the user went through when the order ends as [is_locked] says. *)
Definition balanced (oid : Z) (l : list (Z * adjustment)) (is_locked : bool) : Prop :=
  l = [] \/
  (exists d, l = [(oid, Deducted d)] /\ (is_locked = true \/ flt fzero d = false)) \/
  (exists d, l = [(oid, Deducted d); (oid, Restored d)] /\ is_locked = false).

Lemma ends_after oid l l' b db db1 db' : rd_ledger db1 = rd_ledger db ++ l -> ends oid l' b db1 db' ->
  ends oid (l ++ l') b db db'.
Proof. intros H [H1 H2]. split; [|done]. by rewrite H1, H, app_assoc. Qed.

Lemma ExecuteRefund_run p db : rp_DeductionType p <> DeductionTypeSubscription ->
  exists l b, ends (rp_OrderID p) l b db (ralone (ExecuteRefund unicode_upper unicode_fold message p) db).2 /\
    balanced (rp_OrderID p) l b.
Proof.
  intros Hty. assert (Hsub : forall q, rp_DeductionType q = rp_DeductionType p -> deducts_subscription q = false).
  { intros q Hq. unfold deducts_subscription. rewrite Hq. apply String.eqb_neq in Hty. by rewrite Hty. }
  unfold ExecuteRefund. rewrite alone_do. cbn [refund_exec]. unfold UpdateRefunding.
  edestruct (updateRow_case clock (rp_OrderID p)) as [E|(o & Ho & Hg & E)]; rewrite E; cbn [fst snd].
  { change (0 =? 0)%Z with true. cbv iota. exists [], (locked db (rp_OrderID p)).
    split; [split; [by rewrite app_nil_r|done]|by left]. }
  change (1 =? 0)%Z with false. cbv iota. set (row := (o <| po_Status := OrderStatusRefunding |>) <| po_UpdatedAt := clock |>).
  set (db1 := db <| rd_orders := <[ rp_OrderID p := row ]> (rd_orders db) |>).
  assert (Hrow : rd_orders db1 !! rp_OrderID p = Some row) by apply lookup_insert_eq.
  assert (Hdays : forall q, rp_DeductionType q = rp_DeductionType p ->
    deductDaysThen q (fun p => askGateway p) = askGateway q).
  { intros q Hq. unfold deductDaysThen. by rewrite Hsub. }
  assert (Hask : forall q db2, rp_OrderID q = rp_OrderID p -> rp_DeductionType q = rp_DeductionType p ->
    rd_orders db2 = rd_orders db1 ->
    ends (rp_OrderID p) [] true db2 (ralone (askGateway q) db2).2 \/
    ends (rp_OrderID p) (handed_back q) false db2 (ralone (askGateway q) db2).2).
  { intros q db2 Hq1 Hq2 Hq3. rewrite <- Hq1. apply (askGateway_run q db2 row); [by rewrite Hq3, Hq1|done|by apply Hsub]. }
  assert (Hnone : forall q, rp_OrderID q = rp_OrderID p -> rp_DeductionType q = rp_DeductionType p ->
    deducts_balance q = false -> exists l b, ends (rp_OrderID p) l b db (ralone (askGateway q) db1).2 /\ balanced (rp_OrderID p) l b).
  { intros q Hq1 Hq2 Hd. destruct (Hask q db1 Hq1 Hq2 eq_refl) as [H|H]; (do 2 eexists; split; [exact H|]);
      unfold handed_back; rewrite ?Hd; by left. }
  unfold deductBalanceThen. destruct (deducts_balance p) eqn:Ed; cbn [negb]; [|rewrite Hdays by done; by apply Hnone].
  rewrite alone_do. cbn [refund_exec fst snd].
  destruct (auditExists _ _ _); cbn [yes default from_option id].
  { rewrite Hdays by done. apply Hnone; [done|done|]. unfold deducts_balance. cbn. by rewrite andb_false_r. }
  cbv zeta. rewrite alone_do. cbn [refund_exec fst snd].
  destruct (deductRefundBalance (rs_balance sv) (rp_BalanceToDeduct p) (negb (rp_Force p))) as [d|]; cbn [default from_option id]; cycle 1.
  { exists [], false. split; [|by left]. apply (restore_run p db1 row); [done|]. by intros. }
  set (db2 := adjust (rp_OrderID p) (Deducted d) db1).
  assert (H2 : rd_ledger db2 = rd_ledger db ++ [(rp_OrderID p, Deducted d)]) by done.
  destruct (negb (rp_Force p) && flt d (rp_BalanceToDeduct p)).
  - destruct (flt fzero d) eqn:Ez.
    + rewrite alone_do. cbn [refund_exec fst snd]. rewrite Hrestore. cbn [yes default from_option id].
      set (db3 := adjust (rp_OrderID p) (Restored d) db2). do 2 eexists. split.
      * eapply (ends_after _ [(rp_OrderID p, Deducted d); (rp_OrderID p, Restored d)] []); [|apply (restore_run p db3 row)].
        -- unfold db3, adjust. cbn. by rewrite <- app_assoc.
        -- exact Hrow.
        -- intros r db'. by repeat case_match.
      * right. right. exists d. done.
    + do 2 eexists. split.
      * eapply (ends_after _ [(rp_OrderID p, Deducted d)] []); [exact H2|apply (restore_run p db2 row); [exact Hrow|]].
        intros r db'. by repeat case_match.
      * right. left. exists d. auto.
  - rewrite Hdays by done. pose (q := p <| rp_BalanceToDeduct := d |>).
    destruct (Hask q db2 eq_refl eq_refl eq_refl) as [H|H];
      apply (ends_after _ _ _ _ _ _ _ H2) in H.
    + exists [(rp_OrderID p, Deducted d)], true. split; [exact H|]. right. left. exists d. auto.
    + exists ([(rp_OrderID p, Deducted d)] ++ handed_back q), false. split; [exact H|].
      unfold handed_back, deducts_balance.
      change (rp_DeductionType q) with (rp_DeductionType p). change (rp_BalanceToDeduct q) with d.
      change (rp_OrderID q) with (rp_OrderID p).
      unfold deducts_balance in Ed. apply andb_true_iff in Ed as [-> _]. cbn [andb].
      destruct (flt fzero d) eqn:Ez; [right; right|right; left]; exists d; auto.
Qed.
End Alone.

Lemma prepare_run clock sv db oid amt reason force deduct o :
  rd_orders db !! oid = Some o -> po_OrderType o <> OrderTypeSubscription ->
  let r := alone (@refund_exec clock sv)
    (PrepareRefund unicode_upper decimalRound decimalShare oid amt reason force deduct) db in
  r.2 = db /\ forall p, r.1 = Plan p -> rp_OrderID p = oid /\ rp_DeductionType p <> DeductionTypeSubscription.
Proof.
  intros Ho Ht. apply String.eqb_neq in Ht. cbv zeta. unfold PrepareRefund. rewrite alone_do. cbn [refund_exec fst snd].
  rewrite Ho. destruct (negb (status_in refundable o)); [done|]. rewrite alone_do. cbn [refund_exec fst snd].
  destruct (rs_instance sv) as [inst|]; [|done]. destruct (negb (in_RefundEnabled inst)); [done|].
  destruct (IsNaN amt || IsInf amt); [done|]. cbv zeta. destruct (flt _ (fsub _ _)); [done|].
  destruct deduct; [|split; [done|]; intros p [= <-]; done]. rewrite alone_bind. unfold prepDeduct. rewrite Ht.
  rewrite alone_do. cbn [refund_exec fst snd]. cbv zeta.
  destruct (flt _ _ && negb force); [done|]. split; [done|]. by intros p [= <-].
Qed.

(** C27. A refund of a balance order that is processed without faults leaves
    the user with nothing deducted when the order ends outside the refund statuses: either
    nothing positive was deducted, or exactly what was deducted has been returned; an order
    that ends refunded or pending has at most one deduction. *)
Theorem refund_conserves_balance clock sv db oid amt reason force deduct o :
  rs_restore sv = true -> rd_orders db !! oid = Some o -> po_OrderType o <> OrderTypeSubscription ->
  let db' := (alone (@refund_exec clock sv) (ProcessRefund unicode_upper unicode_fold decimalRound decimalShare message
    oid amt reason force deduct) db).2 in
  exists l, rd_ledger db' = rd_ledger db ++ l /\ balanced oid l (locked db' oid).
Proof.
  intros Hr Ho Ht. cbv zeta. unfold ProcessRefund. rewrite alone_bind.
  destruct (prepare_run clock sv db oid amt reason force deduct o Ho Ht) as [H1 H2]. cbv zeta. rewrite H1.
  destruct (alone _ _ _).1 as [p| |]; [|exists []; split; [by rewrite app_nil_r|by left]..].
  destruct (H2 p eq_refl) as [<- Hp].
  destruct (ExecuteRefund_run clock sv Hr p db Hp) as (l & b & [E1 E2] & Hb). exists l. by rewrite E2.
Qed.

(** ** Schedules that can be executed *)

Inductive refund_move :=
  | RStart (rq : refund_request)
  | RSettle (n : nat) (s : gateway_status)
  | RFulfil (o : PaymentOrder)
  | RCall (i : nat) (f : fault) (sv : refund_services).

Definition refund_play1 (w : refund_world) (m : refund_move) : option refund_world :=
  match m with
  | RStart rq => Some (w <| rw_threads := rw_threads w ++ [refund_start rq] |>)
  | RSettle n s =>
    match rd_gateway (rw_db w) !! n with
    | Some g => match gw_status g with
                | GatewayPending => Some (w <| rw_db := settle n g s (rw_db w) |>)
                | _ => None
                end
    | None => None
    end
  | RFulfil o =>
    if negb (locked (rw_db w) (po_ID o)) && negb (refund_locked (po_Status o))
    then Some (w <| rw_db := rw_db w <| rd_orders := <[ po_ID o := o ]> (rd_orders (rw_db w)) |> |>) else None
  | RCall i f sv =>
    match rw_threads w !! i with
    | Some (Do c k) =>
      if may_fail f c then
        let r := perform (@refund_exec (rw_clock w) sv) f c (rw_db w) in
        Some (w <| rw_db := r.2 |> <| rw_threads := <[ i := k r.1 ]> (rw_threads w) |>)
      else None
    | _ => None
    end
  end.

Fixpoint refund_play (ms : list refund_move) (w : refund_world) : option refund_world :=
  match ms with
  | [] => Some w
  | m :: ms => refund_play1 w m ≫= refund_play ms
  end.

Lemma refund_play1_sound w m w' : refund_play1 w m = Some w' -> refund_step w w'.
Proof.
  destruct m as [rq|n s|o|i f sv]; cbn [refund_play1].
  - intros [= <-]. constructor.
  - destruct (rd_gateway (rw_db w) !! n) as [g|] eqn:E; [|done]. destruct (gw_status g) eqn:Eg; [|done..].
    intros [= <-]. by constructor.
  - destruct (locked (rw_db w) (po_ID o)) eqn:El; [done|]. destruct (refund_locked (po_Status o)) eqn:Es; [done|].
    intros [= <-]. by constructor.
  - destruct (rw_threads w !! i) as [[|R c k]|] eqn:E; [done| |done]. destruct (may_fail f c) eqn:Ef; [|done].
    intros [= <-]. by constructor.
Qed.

Lemma refund_play_sound ms w w' : refund_play ms w = Some w' -> rtc refund_step w w'.
Proof.
  revert w. induction ms as [|m ms IH]; intros w; [by intros [= <-]|]. cbn [refund_play].
  destruct (refund_play1 w m) as [w1|] eqn:E; [|done]. intros H. eapply rtc_l; [by eapply refund_play1_sound|by apply IH].
Qed.
End Refunding.

(** ** Concrete runs *)

Abbreviation ascii_refund_play :=
  (refund_play (fun s => s) (fun _ _ => false) (fun x _ => x) (fun x _ _ _ => x) (fun _ => "failed")).
Abbreviation ascii_refund_reachable :=
  (refund_reachable (fun s => s) (fun _ _ => false) (fun x _ => x) (fun x _ _ _ => x) (fun _ => "failed")).

Definition refund_outcome (ms : list refund_move) : refund_world :=
  default (initial_refund 0) (ascii_refund_play ms (initial_refund 0)).

Lemma refund_outcome_reachable ms :
  (if ascii_refund_play ms (initial_refund 0) then true else false) = true -> ascii_refund_reachable (refund_outcome ms).
Proof.
  unfold refund_outcome. destruct (ascii_refund_play ms (initial_refund 0)) as [w|] eqn:E; [|done]. intros _.
  exists 0%Z. by eapply refund_play_sound.
Qed.

Definition ten : float64 := float_of_Z 10.

Definition completed_order : PaymentOrder :=
  MkPaymentOrder 1 7 ten fzero ten "PAY-1-0" "sub2_N1" "stripe" "T1" OrderTypeBalance OrderStatusCompleted
    (Some "1") (Some "stripe") ∅ None None (Some 0%Z) (Some 0%Z) None None fzero None None false None None None 1000 0 0.

(** A user with a balance of ten; the provider replies [reply]; balances can be restored or
    not. *)
Definition refund_env (reply : option RefundResponse * bool) (restore : bool) : refund_services :=
  MkRefundServices (Some (MkInstance true true)) ten None ExtendOk true true restore
    (MkRefundProvider "stripe" ∅ true) reply true "R".

Definition says (status : string) : option RefundResponse * bool := (Some (MkRefundResponse "R" status), false).

Definition rcalls (i n : nat) (sv : refund_services) : list refund_move := replicate n (RCall i Fine sv).

Definition ask : refund_request := ReqProcessRefund 1 ten "" false true.

Definition pending_env : refund_services := refund_env (says ProviderStatusPending) true.

(** A pending refund fails and is finalized; the order is refunded again, and the provider
    keeps that refund pending too. *)
Definition pending_twice : refund_world :=
  refund_outcome ([RFulfil completed_order; RStart ask] ++ rcalls 0 9 pending_env ++
    [RSettle 0 GatewayFailed; RStart (ReqFinalizeRefund 1)] ++ rcalls 1 5 pending_env ++
    [RStart ask] ++ rcalls 2 9 pending_env).

(** A refund fails and its deduction cannot be returned; the next one is kept pending and
    fails too. *)
Definition failed_twice : refund_world :=
  refund_outcome ([RFulfil completed_order; RStart ask] ++ rcalls 0 13 (refund_env (None, true) false) ++
    [RStart ask] ++ rcalls 1 8 pending_env ++
    [RSettle 1 GatewayFailed; RStart (ReqFinalizeRefund 1)] ++ rcalls 2 5 pending_env).

Abbreviation finalize_refund :=
  (QueryAndFinalizeRefund (fun s => s) (fun _ _ => false) (fun x _ => x) (fun x _ _ _ => x) (fun _ => "failed") 1).



Lemma refund_conserves_balance_witness : exists l : list (Z * adjustment),
  let db := MkRefundDb {[ 1%Z := completed_order ]} ∅ ∅ [] [] in
  let db' := (alone (@refund_exec 5 (refund_env (None, true) true))
    (ProcessRefund (fun s => s) (fun _ _ => false) (fun x _ => x) (fun x _ _ _ => x) (fun _ => "failed")
      1 ten "" false true) db).2 in
  rd_ledger db' = [(1%Z, Deducted ten); (1%Z, Restored ten)] /\
  rd_ledger db' = rd_ledger db ++ l /\ balanced 1 l (locked db' 1).
Proof.
  destruct (refund_conserves_balance (fun s => s) (fun _ _ => false) (fun x _ => x) (fun x _ _ _ => x)
    (fun _ => "failed") 5 (refund_env (None, true) true) (MkRefundDb {[ 1%Z := completed_order ]} ∅ ∅ [] [])
    1 ten "" false true completed_order) as (l & H); [reflexivity|vm_compute; reflexivity|vm_compute; discriminate|].
  exists l. cbv zeta. split; [vm_compute; reflexivity|exact H].
Defined.
