(* ===== verification/StreamCircuit.v ===== *)
(** * Quarantine of proxies that drop streams

    [service/openai_proxy_stream_circuit.go]: the process-local circuit breaker
    of proxies, and the local fallback counter of disconnecting accounts.  A
    [time.Time] is its number of nanoseconds since the zero time, so that
    [IsZero] is a test against 0; the methods that hold the mutex are single
    state transitions. *)

From S2P Require Import Prelude GoStrings.

Definition IsZero (t : Z) : bool := (t =? 0)%Z.
Definition zero_time : Z := 0.
Definition Second : Z := 1000000000.
Definition Minute : Z := 60000000000.

(** ** Settings *)

Definition defaultOpenAIProxyStreamFailureThreshold : Z := 2.
Definition defaultOpenAIProxyStreamFailureWindow : Z := Minute.
Definition defaultOpenAIProxyStreamQuarantineTTL : Z := (10 * Minute)%Z.
Definition defaultOpenAIProxyStreamCircuitMaxEntries : Z := 4096.
Definition defaultOpenAIProxyStreamFailureCollapse : Z := (3 * Second)%Z.
Definition openAIAccountStreamFailureWindow : Z := (2 * Minute)%Z.
Definition openAIAccountStreamFailureThreshold : Z := 2.

Record openAIProxyStreamCircuitSettings := MkSettings {
  cs_enabled : bool;
  cs_failureThreshold : Z;
  cs_failureWindow : Z;
  cs_quarantineTTL : Z;
  cs_collapseInterval : Z;
  cs_maxEntries : Z
}.

#[export] Instance eta_settings : Eta openAIProxyStreamCircuitSettings := fun r =>
  MkSettings (cs_enabled r) (cs_failureThreshold r) (cs_failureWindow r) (cs_quarantineTTL r)
    (cs_collapseInterval r) (cs_maxEntries r).

(** The section of the configuration the settings are read from. *)
Record circuitConfig := MkCircuitConfig {
  cc_Enabled : bool;
  cc_FailureThreshold : Z;
  cc_WindowSeconds : Z;
  cc_TTLSeconds : Z;
  cc_MaxEntries : Z
}.

Definition resolveOpenAIProxyStreamCircuitSettings (cfg : option circuitConfig)
    : openAIProxyStreamCircuitSettings :=
  let settings := MkSettings false defaultOpenAIProxyStreamFailureThreshold
    defaultOpenAIProxyStreamFailureWindow defaultOpenAIProxyStreamQuarantineTTL
    defaultOpenAIProxyStreamFailureCollapse defaultOpenAIProxyStreamCircuitMaxEntries in
  match cfg with
  | None => settings
  | Some cfg =>
    let s := settings <| cs_enabled := cc_Enabled cfg |> in
    let s := if (0 <? cc_FailureThreshold cfg)%Z
             then s <| cs_failureThreshold := cc_FailureThreshold cfg |> else s in
    let s := if (0 <? cc_WindowSeconds cfg)%Z
             then s <| cs_failureWindow := wrap64 (cc_WindowSeconds cfg * Second) |> else s in
    let s := if (0 <? cc_TTLSeconds cfg)%Z
             then s <| cs_quarantineTTL := wrap64 (cc_TTLSeconds cfg * Second) |> else s in
    if (0 <? cc_MaxEntries cfg)%Z then s <| cs_maxEntries := cc_MaxEntries cfg |> else s
  end.

(** ** State *)

Record openAIProxyStreamCircuitEntry := MkEntry {
  ce_failureCount : Z;
  ce_windowStart : Z;
  ce_blockedUntil : Z;
  ce_lastFailureAt : Z;
  ce_lastTouched : Z
}.

#[export] Instance eta_entry : Eta openAIProxyStreamCircuitEntry := fun r =>
  MkEntry (ce_failureCount r) (ce_windowStart r) (ce_blockedUntil r) (ce_lastFailureAt r)
    (ce_lastTouched r).

Definition zero_entry : openAIProxyStreamCircuitEntry := MkEntry 0 0 0 0 0.

(** The breaker; [c_blocked] is the snapshot readers load without the lock. *)
Record openAIProxyStreamCircuit := MkCircuit {
  c_settings : openAIProxyStreamCircuitSettings;
  c_entries : gmap Z openAIProxyStreamCircuitEntry;
  c_blocked : gmap Z Z
}.

#[export] Instance eta_circuit : Eta openAIProxyStreamCircuit := fun r =>
  MkCircuit (c_settings r) (c_entries r) (c_blocked r).

Definition newOpenAIProxyStreamCircuit (s : openAIProxyStreamCircuitSettings)
    : openAIProxyStreamCircuit :=
  let s := if (cs_failureThreshold s <=? 0)%Z
           then s <| cs_failureThreshold := defaultOpenAIProxyStreamFailureThreshold |> else s in
  let s := if (cs_failureWindow s <=? 0)%Z
           then s <| cs_failureWindow := defaultOpenAIProxyStreamFailureWindow |> else s in
  let s := if (cs_quarantineTTL s <=? 0)%Z
           then s <| cs_quarantineTTL := defaultOpenAIProxyStreamQuarantineTTL |> else s in
  let s := if (cs_maxEntries s <=? 0)%Z
           then s <| cs_maxEntries := defaultOpenAIProxyStreamCircuitMaxEntries |> else s in
  let s := if (cs_collapseInterval s <? 0)%Z then s <| cs_collapseInterval := 0%Z |> else s in
  MkCircuit s ∅ ∅.

(** The blocked proxies of a table of entries. *)
Definition blocked_of (entries : gmap Z openAIProxyStreamCircuitEntry) : gmap Z Z :=
  omap (fun e => if IsZero (ce_blockedUntil e) then None else Some (ce_blockedUntil e)) entries.

Definition publishLocked (c : openAIProxyStreamCircuit) : openAIProxyStreamCircuit :=
  c <| c_blocked := blocked_of (c_entries c) |>.

(** ** Operations *)

Definition size_entries (c : openAIProxyStreamCircuit) : Z := Z.of_nat (size (c_entries c)).

(** The entries the first sweep of [ensureCapacityLocked] deletes. *)
Definition removable (s : openAIProxyStreamCircuitSettings) (now : Z)
    (e : openAIProxyStreamCircuitEntry) : bool :=
  let stale := IsZero (ce_blockedUntil e) && (cs_failureWindow s <? now - ce_lastTouched e)%Z in
  let expired := negb (IsZero (ce_blockedUntil e)) && negb (now <? ce_blockedUntil e)%Z in
  stale || expired.

Definition sweep (s : openAIProxyStreamCircuitSettings) (now : Z)
    (m : gmap Z openAIProxyStreamCircuitEntry) : gmap Z openAIProxyStreamCircuitEntry :=
  filter (fun p => removable s now p.2 = false) m.

(** The loop that looks for the entry touched longest ago, over the entries in
    the order the map is ranged over. *)
Definition oldest_step (acc : Z * Z) (p : Z * openAIProxyStreamCircuitEntry) : Z * Z :=
  let '(oldestProxyID, oldest) := acc in
  if (oldestProxyID =? 0)%Z || (ce_lastTouched p.2 <? oldest)%Z
  then (p.1, ce_lastTouched p.2) else acc.

Section Circuit.
(** Go ranges over a map in an unspecified order. *)
Variable range_order : gmap Z openAIProxyStreamCircuitEntry ->
                       list (Z * openAIProxyStreamCircuitEntry).

Definition evictOldest (m : gmap Z openAIProxyStreamCircuitEntry)
    : gmap Z openAIProxyStreamCircuitEntry :=
  let '(oldestProxyID, _) := foldl oldest_step (0, zero_time)%Z (range_order m) in
  if (0 <? oldestProxyID)%Z then delete oldestProxyID m else m.

Definition ensureCapacityLocked (now : Z) (c : openAIProxyStreamCircuit)
    : openAIProxyStreamCircuit :=
  if (size_entries c <? cs_maxEntries (c_settings c))%Z then c else
  let c := c <| c_entries := sweep (c_settings c) now (c_entries c) |> in
  if (size_entries c <? cs_maxEntries (c_settings c))%Z then c else
  publishLocked (c <| c_entries := evictOldest (c_entries c) |>).

(** Whether the entry's failure window is over. *)
Definition window_over (s : openAIProxyStreamCircuitSettings) (now : Z)
    (e : openAIProxyStreamCircuitEntry) : bool :=
  IsZero (ce_windowStart e) || (now <? ce_windowStart e)%Z
  || (cs_failureWindow s <? now - ce_windowStart e)%Z.

Definition restart_window (now : Z) (e : openAIProxyStreamCircuitEntry)
    : openAIProxyStreamCircuitEntry :=
  e <| ce_failureCount := 0%Z |> <| ce_windowStart := now |>
    <| ce_blockedUntil := zero_time |> <| ce_lastFailureAt := zero_time |>.

Definition collapses (s : openAIProxyStreamCircuitSettings) (now : Z)
    (e : openAIProxyStreamCircuitEntry) : bool :=
  (0 <? cs_collapseInterval s)%Z && negb (IsZero (ce_lastFailureAt e))
  && ((0 <=? now - ce_lastFailureAt e) && (now - ce_lastFailureAt e <? cs_collapseInterval s))%Z.

(** [recordFailure]: whether the circuit tripped, and until when. *)
Definition recordFailure (proxyID now : Z) (c : openAIProxyStreamCircuit)
    : (bool * Z) * openAIProxyStreamCircuit :=
  if negb (cs_enabled (c_settings c)) || (proxyID <=? 0)%Z then ((false, zero_time), c) else
  let found := c_entries c !! proxyID in
  let entry := default zero_entry found in
  if bool_decide (is_Some found) && (now <? ce_blockedUntil entry)%Z then
    ((false, ce_blockedUntil entry),
     c <| c_entries := <[ proxyID := entry <| ce_lastTouched := now |> ]> (c_entries c) |>)
  else
  let c := if bool_decide (is_Some found) then c else ensureCapacityLocked now c in
  let entry := if window_over (c_settings c) now entry then restart_window now entry else entry in
  if collapses (c_settings c) now entry then
    ((false, zero_time),
     c <| c_entries := <[ proxyID := entry <| ce_lastTouched := now |> ]> (c_entries c) |>)
  else
  let entry := entry
    <| ce_failureCount := (ce_failureCount entry + 1)%Z |>
    <| ce_lastFailureAt := now |>
    <| ce_lastTouched := now |> in
  let tripped := (cs_failureThreshold (c_settings c) <=? ce_failureCount entry)%Z in
  let entry := if tripped
               then entry <| ce_blockedUntil := (now + cs_quarantineTTL (c_settings c))%Z |>
               else entry in
  ((tripped, ce_blockedUntil entry),
   publishLocked (c <| c_entries := <[ proxyID := entry ]> (c_entries c) |>)).

Definition recordTerminal (proxyID now : Z) (c : openAIProxyStreamCircuit)
    : openAIProxyStreamCircuit :=
  if negb (cs_enabled (c_settings c)) || (proxyID <=? 0)%Z then c else
  publishLocked
    match c_entries c !! proxyID with
    | Some entry =>
      if negb (now <? ce_blockedUntil entry)%Z
      then c <| c_entries := delete proxyID (c_entries c) |>
      else c <| c_entries := <[ proxyID := entry
             <| ce_failureCount := 0%Z |> <| ce_windowStart := zero_time |>
             <| ce_lastFailureAt := zero_time |> <| ce_lastTouched := now |> ]> (c_entries c) |>
    | None => c <| c_entries := delete proxyID (c_entries c) |>
    end.

Definition isBlocked (proxyID now : Z) (c : openAIProxyStreamCircuit) : bool :=
  if negb (cs_enabled (c_settings c)) || (proxyID <=? 0)%Z then false else
  match c_blocked c !! proxyID with
  | Some blockedUntil => (now <? blockedUntil)%Z
  | None => false
  end.

(** ** Outcomes of streams *)

(** [OpenAIStreamFailureClass]. *)
Definition OpenAIStreamFailureUpstreamDisconnect : string := "upstream_disconnect".
Definition OpenAIStreamFailureUpstreamError : string := "upstream_error".

(** The part of an account the circuit looks at. *)
Record circuitAccount := MkCircuitAccount {
  ca_ID : Z;
  ca_Platform : string;
  ca_ProxyID : option Z
}.

Definition PlatformOpenAI : string := "openai".

Definition openAIProxyStreamCircuitProxyID (account : option circuitAccount) : option Z :=
  match account with
  | None => None
  | Some a =>
    if negb (ca_Platform a =s PlatformOpenAI) then None else
    match ca_ProxyID a with
    | None => None
    | Some id => if (id <=? 0)%Z then None else Some id
    end
  end.

(** [streamErr]: no error, a context cancellation or deadline, any other. *)
Inductive stream_err := NoError | ContextDone | OtherError.

(** The circuit part of [recordOpenAIProxyStreamOutcome]; [c] is the enabled
    circuit [getOpenAIProxyStreamCircuit] returns, if any. *)
Definition recordOutcome (account : option circuitAccount) (class : string)
    (terminalSuccess : bool) (streamErr : stream_err) (now : Z)
    (c : option openAIProxyStreamCircuit) : option openAIProxyStreamCircuit :=
  match openAIProxyStreamCircuitProxyID account, c with
  | Some proxyID, Some c =>
    Some (if terminalSuccess then recordTerminal proxyID now c
          else if class =s OpenAIStreamFailureUpstreamError then recordTerminal proxyID now c
          else if negb (class =s OpenAIStreamFailureUpstreamDisconnect) then c
          else match streamErr with
               | ContextDone => c
               | _ => (recordFailure proxyID now c).2
               end)
  | _, _ => c
  end.

Definition isOpenAIProxyStreamQuarantined (account : option circuitAccount) (now : Z)
    (c : option openAIProxyStreamCircuit) : bool :=
  match openAIProxyStreamCircuitProxyID account, c with
  | Some proxyID, Some c => isBlocked proxyID now c
  | _, _ => false
  end.
End Circuit.

(** ** The local counter of disconnecting accounts *)

Record openAIAccountStreamDisconnectState := MkDisconnect {
  ds_count : Z;
  ds_start : Z;
  ds_blockedUntil : Z
}.

#[export] Instance eta_disconnect : Eta openAIAccountStreamDisconnectState := fun r =>
  MkDisconnect (ds_count r) (ds_start r) (ds_blockedUntil r).

Definition openAIStopSchedulingBridgeCooldown : Z := (2 * Minute)%Z.

(** The new state of an account: the value the compare-and-swap of
    [nextLocalOpenAIAccountStreamFailure] installs over the loaded one. *)
Definition nextDisconnectState (loaded : option openAIAccountStreamDisconnectState) (now : Z)
    : openAIAccountStreamDisconnectState :=
  let fresh := MkDisconnect 1 now zero_time in
  let state :=
    match loaded with
    | None => fresh
    | Some s =>
      if IsZero (ds_start s) || (now <? ds_start s)%Z
         || (openAIAccountStreamFailureWindow <=? now - ds_start s)%Z
      then fresh else s <| ds_count := (ds_count s + 1)%Z |>
    end in
  if (openAIAccountStreamFailureThreshold <=? ds_count state)%Z && IsZero (ds_blockedUntil state)
  then state <| ds_blockedUntil := (now + openAIStopSchedulingBridgeCooldown)%Z |>
  else state.

(** [nextLocalOpenAIAccountStreamFailure]: the loop repeats until its
    compare-and-swap succeeds, so a returning call is one atomic update. *)
Definition nextLocalOpenAIAccountStreamFailure (accountID now : Z)
    (m : gmap Z openAIAccountStreamDisconnectState)
    : (Z * Z) * gmap Z openAIAccountStreamDisconnectState :=
  let state := nextDisconnectState (m !! accountID) now in
  ((ds_count state, ds_blockedUntil state), <[ accountID := state ]> m).

(** [pruneLocalOpenAIAccountStreamDisconnectCounts] with the time of its last
    sweep. *)
Definition pruneDisconnects (now : Z)
    (st : Z * gmap Z openAIAccountStreamDisconnectState)
    : Z * gmap Z openAIAccountStreamDisconnectState :=
  let '(lastSweep, m) := st in
  if ((0 <? lastSweep) && (now - lastSweep <? Minute))%Z then st else
  (now, filter (fun p => (IsZero (ds_start p.2)
           || (openAIAccountStreamFailureWindow <? now - ds_start p.2)%Z) = false) m).
