(* ===== verification/StreamCircuitProofs.v ===== *)
(** * Stream circuit: proofs

    The table stays within its bound and in agreement with the published
    snapshot under any sequence of outcomes; circuits trip at the threshold,
    stay open for their quarantine, and the local account counter is not
    affected by its pruning. *)

From S2P Require Import Prelude GoStrings StreamCircuit.

(** ** The invariant *)

Record circuit_ok (c : openAIProxyStreamCircuit) : Prop := {
  co_max : (0 < cs_maxEntries (c_settings c))%Z;
  co_size : (size_entries c <= cs_maxEntries (c_settings c))%Z;
  co_keys : forall id e, c_entries c !! id = Some e -> (0 < id)%Z;
  co_snapshot : c_blocked c = blocked_of (c_entries c)
}.

Definition keys_pos (m : gmap Z openAIProxyStreamCircuitEntry) : Prop :=
  forall id e, m !! id = Some e -> (0 < id)%Z.

Lemma blocked_of_lookup m id :
  blocked_of m !! id
  = match m !! id with
    | Some e => if IsZero (ce_blockedUntil e) then None else Some (ce_blockedUntil e)
    | None => None
    end.
Proof. unfold blocked_of. rewrite lookup_omap. by destruct (m !! id). Qed.

(** Updating an entry without touching its quarantine. *)
Lemma blocked_of_touch m id e e' :
  m !! id = Some e -> ce_blockedUntil e' = ce_blockedUntil e ->
  blocked_of (<[ id := e' ]> m) = blocked_of m.
Proof.
  intros Hm He. apply map_eq. intros k. rewrite !blocked_of_lookup, lookup_insert.
  case_decide as Hd; [subst k|done]. by rewrite Hm, He.
Qed.

Lemma sweep_lookup s now m id e : sweep s now m !! id = Some e -> m !! id = Some e.
Proof. unfold sweep. intros H. by apply map_lookup_filter_Some in H as [? _]. Qed.

Lemma sweep_size s now m : size (sweep s now m) <= size m.
Proof. apply map_subseteq_size. apply map_filter_subseteq. Qed.

Lemma keys_pos_sweep s now m : keys_pos m -> keys_pos (sweep s now m).
Proof. intros H id e He. eapply H, sweep_lookup, He. Qed.

Section Order.
Context (range_order : gmap Z openAIProxyStreamCircuitEntry ->
                       list (Z * openAIProxyStreamCircuitEntry)).
(** Ranging over a map visits each entry once, in some order. *)
Context (Horder : forall m, range_order m ≡ₚ map_to_list m).

Lemma oldest_among l acc :
  (foldl oldest_step acc l).1 = acc.1 \/ (foldl oldest_step acc l).1 ∈ l.*1.
Proof using.
  revert acc; induction l as [|p l IH]; intros acc; [by left|]. cbn.
  destruct (IH (oldest_step acc p)) as [->|H]; [|right; by apply list_elem_of_further].
  unfold oldest_step. destruct acc as [o t]. case_test; [right; by apply list_elem_of_here|by left].
Qed.

(** Evicting from a non-empty table removes exactly one entry. *)
Lemma evictOldest_size m :
  keys_pos m -> m <> ∅ -> S (size (evictOldest range_order m)) = size m.
Proof using Horder.
  intros Hpos Hne. unfold evictOldest.
  assert (Hin : (foldl oldest_step (0, zero_time)%Z (range_order m)).1 ∈ (map_to_list m).*1).
  { rewrite <- Horder. destruct (range_order m) as [|p l] eqn:El.
    { pose proof (Horder m) as Hp. rewrite El in Hp. symmetry in Hp. apply Permutation_nil_r in Hp.
      apply map_to_list_empty_iff in Hp. done. }
    cbn. destruct (oldest_among l (p.1, ce_lastTouched p.2)) as [->|H];
      [apply list_elem_of_here|by apply list_elem_of_further]. }
  destruct (foldl _ _ _) as [o t]; cbn [fst] in Hin.
  apply list_elem_of_fmap in Hin as ([k e] & -> & Hin). cbn [fst].
  apply elem_of_map_to_list in Hin. rewrite (proj2 (Z.ltb_lt _ _) (Hpos _ _ Hin)).
  rewrite map_size_delete, Hin. assert (size m <> 0); [|lia].
  intros H0. by apply map_size_empty_inv in H0.
Qed.

Lemma evictOldest_lookup m id e :
  evictOldest range_order m !! id = Some e -> m !! id = Some e.
Proof using.
  unfold evictOldest. destruct (foldl _ _ _) as [o t]. case_test; [|done].
  intros H. by apply lookup_delete_Some in H as [_ H].
Qed.

(** After making room there is room for one more entry. *)
Lemma ensureCapacity_room now c :
  circuit_ok c ->
  let c' := ensureCapacityLocked range_order now c in
  c_settings c' = c_settings c /\ keys_pos (c_entries c') /\
  (size_entries c' < cs_maxEntries (c_settings c))%Z /\
  (forall id e, c_entries c' !! id = Some e -> c_entries c !! id = Some e).
Proof using Horder.
  intros [H1 H2 H3 H4]. cbn zeta. unfold ensureCapacityLocked.
  destruct (Z.ltb_spec (size_entries c) (cs_maxEntries (c_settings c))); [done|]. cbn zeta.
  set (m := sweep (c_settings c) now (c_entries c)).
  assert (Hm : keys_pos m) by (by apply keys_pos_sweep).
  unfold size_entries in *. cbn.
  destruct (Z.ltb_spec (Z.of_nat (size m)) (cs_maxEntries (c_settings c))).
  { split_and!; [done|done|done|]. intros id e. apply sweep_lookup. }
  pose proof (sweep_size (c_settings c) now (c_entries c)) as Hs. fold m in Hs.
  assert (Hne : m <> ∅) by (intros ->; rewrite map_size_empty in *; lia).
  pose proof (evictOldest_size m Hm Hne). split_and!; cbn; [done| |lia|].
  - intros id e He. eapply Hm, evictOldest_lookup, He.
  - intros id e He. eapply sweep_lookup, evictOldest_lookup, He.
Qed.

Lemma recordTerminal_ok proxyID now c :
  circuit_ok c -> circuit_ok (recordTerminal proxyID now c).
Proof using.
  intros [H1 H2 H3 H4]. unfold recordTerminal. case_test; [by split|].
  unfold size_entries in *.
  destruct (c_entries c !! proxyID) as [e|] eqn:He; [case_test|]; split; cbn; try done.
  - unfold size_entries. cbn. rewrite map_size_delete, He. unfold id. lia.
  - intros id e0 [_ H]%lookup_delete_Some. eauto.
  - unfold size_entries. cbn. rewrite map_size_insert, He. unfold id. lia.
  - intros id e0. rewrite lookup_insert. case_decide; [subst; eauto|eauto].
  - unfold size_entries. cbn. rewrite map_size_delete, He. unfold id. lia.
  - intros id e0 [_ H]%lookup_delete_Some. eauto.
Qed.

Lemma recordFailure_ok proxyID now c :
  circuit_ok c -> circuit_ok (recordFailure range_order proxyID now c).2.
Proof using Horder.
  intros Hok. pose proof Hok as [H1 H2 H3 H4]. unfold recordFailure.
  destruct (_ || _) eqn:Eg; [done|]. apply orb_false_iff in Eg as [_ Hid].
  apply Z.leb_gt in Hid. cbn zeta.
  destruct (c_entries c !! proxyID) as [e|] eqn:He.
  - rewrite bool_decide_true by eauto. change (default zero_entry (Some e)) with e. cbn [andb].
    destruct (now <? ce_blockedUntil e)%Z.
    { split; cbn; [done| | |].
      - unfold size_entries in *. cbn. rewrite map_size_insert, He. unfold id. lia.
      - intros id e0. rewrite lookup_insert. case_decide; [subst; eauto|eauto].
      - rewrite H4. symmetry. by eapply blocked_of_touch. }
    case_test.
    { split; cbn; [done| | |].
      - unfold size_entries in *. cbn. rewrite map_size_insert, He. unfold id. lia.
      - intros id e0. rewrite lookup_insert. case_decide; [subst; eauto|eauto].
      - rewrite H4. symmetry. eapply blocked_of_touch; [done|]. cbn.
        destruct (window_over _ _ _); [|done]. unfold collapses in E. cbn in E.
        by rewrite andb_false_r in E. }
    split; cbn; [done| | |done].
    + unfold size_entries in *. cbn. rewrite map_size_insert, He. unfold id. lia.
    + intros id e0. rewrite lookup_insert. case_decide; [by subst|eauto].
  - rewrite bool_decide_false by (by intros []).
    change (default zero_entry None) with zero_entry. cbn [andb].
    destruct (ensureCapacity_room now c Hok) as (R1 & R2 & R3 & R4).
    set (c' := ensureCapacityLocked range_order now c) in *.
    assert (Hw : window_over (c_settings c') now zero_entry = true) by done.
    rewrite Hw. assert (Hc : collapses (c_settings c') now (restart_window now zero_entry) = false).
    { unfold collapses. cbn. by rewrite andb_false_r. }
    rewrite Hc. split; cbn; [by rewrite R1| | |done].
    + unfold size_entries in *. cbn. rewrite map_size_insert, R1.
      destruct (c_entries c' !! proxyID); unfold id; lia.
    + intros id e0. rewrite lookup_insert. case_decide; [by subst|eauto].
Qed.

(** ** Sequences of outcomes *)

Inductive circuit_op := OpFailure (proxyID now : Z) | OpTerminal (proxyID now : Z).

Definition apply_op (c : openAIProxyStreamCircuit) (op : circuit_op) : openAIProxyStreamCircuit :=
  match op with
  | OpFailure id now => (recordFailure range_order id now c).2
  | OpTerminal id now => recordTerminal id now c
  end.

Lemma new_circuit_ok s : circuit_ok (newOpenAIProxyStreamCircuit s).
Proof using.
  unfold newOpenAIProxyStreamCircuit. cbn zeta. split; cbn.
  - repeat case_test; reflect_bool; cbn in *; try done; lia.
  - unfold size_entries. cbn. rewrite map_size_empty. repeat case_test; reflect_bool; cbn in *; try done; lia.
  - intros id e H. by rewrite lookup_empty in H.
  - done.
Qed.

Lemma ops_ok s ops : circuit_ok (foldl apply_op (newOpenAIProxyStreamCircuit s) ops).
Proof using Horder.
  induction ops as [|op ops IH] using rev_ind; [apply new_circuit_ok|].
  rewrite foldl_snoc. destruct op; [by apply recordFailure_ok|by apply recordTerminal_ok].
Qed.
End Order.

(** C29. Bounded and consistent: after any sequence of recorded failures and
    terminal events, for any settings and any map iteration order, the table
    has at most the configured number of entries, holds only positive proxy
    ids, and the snapshot that readers use without the lock is exactly the set
    of quarantines in the table. *)
Theorem circuit_bounded_and_published range_order s ops :
  (forall m, range_order m ≡ₚ map_to_list m) ->
  let c := foldl (apply_op range_order) (newOpenAIProxyStreamCircuit s) ops in
  (size_entries c <= cs_maxEntries (c_settings c))%Z /\
  (forall id e, c_entries c !! id = Some e -> (0 < id)%Z) /\
  c_blocked c = blocked_of (c_entries c).
Proof.
  intros Horder. cbn zeta. destruct (ops_ok range_order Horder s ops) as [_ H1 H2 H3]. done.
Qed.

Definition wit_settings : openAIProxyStreamCircuitSettings :=
  resolveOpenAIProxyStreamCircuitSettings (Some (MkCircuitConfig true 2 60 600 1)).

Definition wit_ops : list circuit_op :=
  [OpFailure 7 Second; OpFailure 8 (2 * Second)%Z; OpTerminal 9 (3 * Second)%Z].

Definition wit_circuit : openAIProxyStreamCircuit :=
  foldl (apply_op map_to_list) (newOpenAIProxyStreamCircuit wit_settings) wit_ops.

Lemma circuit_bounded_and_published_witness :
  size_entries wit_circuit = 1%Z /\ c_blocked wit_circuit = blocked_of (c_entries wit_circuit).
Proof.
  split; [vm_compute; reflexivity|].
  exact (proj2 (proj2 (circuit_bounded_and_published map_to_list wit_settings wit_ops
    (fun m => reflexivity (map_to_list m))))).
Defined.

(** ** Tripping *)

(** Failures of one proxy, one after the other: whether each one tripped. *)
Fixpoint failures (range_order : gmap Z openAIProxyStreamCircuitEntry ->
                                 list (Z * openAIProxyStreamCircuitEntry))
    (proxyID : Z) (times : list Z) (c : openAIProxyStreamCircuit)
    : list bool * openAIProxyStreamCircuit :=
  match times with
  | [] => ([], c)
  | t :: ts =>
    let '((tripped, _), c1) := recordFailure range_order proxyID t c in
    let '(rest, c2) := failures range_order proxyID ts c1 in
    (tripped :: rest, c2)
  end.

(** Each time is at least [gap] after the one before. *)
Fixpoint spaced (gap last : Z) (times : list Z) : Prop :=
  match times with
  | [] => True
  | t :: ts => (last + gap <= t)%Z /\ spaced gap t ts
  end.

Lemma last_default (l : list Z) a b : l <> [] -> List.last l a = List.last l b.
Proof. induction l as [|x [|y l] IH]; [done|done|]. intros _. by apply IH. Qed.

Section Tripping.
Context (range_order : gmap Z openAIProxyStreamCircuitEntry ->
                       list (Z * openAIProxyStreamCircuitEntry)).
Context (s : openAIProxyStreamCircuitSettings) (proxyID : Z).
Context (Henabled : cs_enabled s = true) (Hid : (0 < proxyID)%Z).

Lemma ensureCapacity_settings now c :
  c_settings (ensureCapacityLocked range_order now c) = c_settings c.
Proof using. unfold ensureCapacityLocked. repeat case_test; done. Qed.

Lemma guard_open c : c_settings c = s ->
  negb (cs_enabled (c_settings c)) || (proxyID <=? 0)%Z = false.
Proof using Henabled Hid. intros ->. rewrite Henabled. cbn. by apply Z.leb_gt. Qed.

(** The entry of a proxy that failed [k] times since [t0], last at [tl]. *)
Definition counting (c : openAIProxyStreamCircuit) (k t0 tl : Z) : Prop :=
  c_settings c = s /\ exists e, c_entries c !! proxyID = Some e /\
    ce_failureCount e = k /\ ce_windowStart e = t0 /\ ce_lastFailureAt e = tl /\
    ce_blockedUntil e = zero_time.

(** What the state looks like after the failure at [t]. *)
Definition after_failure (c : openAIProxyStreamCircuit) (k t0 t : Z) (tripped : bool) : Prop :=
  if tripped
  then c_settings c = s /\ c_blocked c !! proxyID = Some (t + cs_quarantineTTL s)%Z
  else counting c k t0 t.

Lemma record_outcome c e k t0 t :
  c_settings c = s -> (0 < t + cs_quarantineTTL s)%Z ->
  ce_failureCount e = (k - 1)%Z -> ce_windowStart e = t0 -> ce_blockedUntil e = zero_time ->
  let entry := e <| ce_failureCount := (ce_failureCount e + 1)%Z |>
    <| ce_lastFailureAt := t |> <| ce_lastTouched := t |> in
  let tripped := (cs_failureThreshold (c_settings c) <=? ce_failureCount entry)%Z in
  let entry := if tripped then entry <| ce_blockedUntil := (t + cs_quarantineTTL (c_settings c))%Z |>
               else entry in
  tripped = (cs_failureThreshold s <=? k)%Z /\
  after_failure (publishLocked (c <| c_entries := <[ proxyID := entry ]> (c_entries c) |>)) k t0 t
    (cs_failureThreshold s <=? k)%Z.
Proof using.
  intros Hs Hq E1 E2 E3. cbn zeta. rewrite Hs. cbn. rewrite E1, Z.sub_add. split; [done|].
  destruct (cs_failureThreshold s <=? k)%Z; cbn.
  - split; [done|]. rewrite blocked_of_lookup, lookup_insert_eq. cbn.
    unfold IsZero. by destruct (Z.eqb_spec (t + cs_quarantineTTL s) 0); [lia|].
  - split; [done|]. eexists. split; [apply lookup_insert_eq|]. done.
Qed.

Lemma first_failure c t :
  c_settings c = s -> c_entries c !! proxyID = None -> (0 < t)%Z -> (0 < t + cs_quarantineTTL s)%Z ->
  let r := recordFailure range_order proxyID t c in
  r.1.1 = (cs_failureThreshold s <=? 1)%Z /\
  after_failure r.2 1 t t (cs_failureThreshold s <=? 1)%Z.
Proof using Henabled Hid.
  intros Hs He Ht Hq. cbn zeta. unfold recordFailure. rewrite (guard_open c Hs), He.
  rewrite bool_decide_false by (by intros []).
  change (default zero_entry None) with zero_entry. cbn [andb]. cbn zeta.
  set (c' := ensureCapacityLocked range_order t c).
  assert (Hs' : c_settings c' = s) by (unfold c'; by rewrite ensureCapacity_settings).
  assert (Hw : window_over (c_settings c') t zero_entry = true) by done. rewrite Hw.
  assert (Hc : collapses (c_settings c') t (restart_window t zero_entry) = false).
  { unfold collapses. cbn. by rewrite andb_false_r. }
  rewrite Hc. by apply (record_outcome c' (restart_window t zero_entry) 1).
Qed.

Lemma later_failure c k t0 tl t :
  counting c k t0 tl -> (0 < t0)%Z -> (t0 <= tl)%Z -> (tl + cs_collapseInterval s <= t)%Z ->
  (tl <= t)%Z -> (t - t0 <= cs_failureWindow s)%Z -> (0 < t + cs_quarantineTTL s)%Z ->
  let r := recordFailure range_order proxyID t c in
  r.1.1 = (cs_failureThreshold s <=? k + 1)%Z /\
  after_failure r.2 (k + 1) t0 t (cs_failureThreshold s <=? k + 1)%Z.
Proof using Henabled Hid.
  intros (Hs & e & He & E1 & E2 & E3 & E4) H0 H1 Hgap Hle Hwin Hq. cbn zeta. unfold recordFailure.
  rewrite (guard_open c Hs), He. rewrite bool_decide_true by eauto.
  change (default zero_entry (Some e)) with e. cbn [andb]. rewrite E4.
  assert (Hz : (t <? zero_time)%Z = false) by (unfold zero_time; apply Z.ltb_ge; lia). rewrite Hz.
  assert (Hw : window_over (c_settings c) t e = false).
  { unfold window_over, IsZero. rewrite E2, Hs. rewrite !orb_false_iff, Z.eqb_neq, !Z.ltb_ge. lia. }
  cbn zeta. rewrite Hw.
  assert (Hc : collapses (c_settings c) t e = false).
  { unfold collapses. rewrite Hs, E3. apply andb_false_iff. right.
    apply andb_false_iff. right. apply Z.ltb_ge. lia. }
  rewrite Hc. apply record_outcome; try done. lia.
Qed.

(** The failures up to the threshold, from a count of [k]. *)
Lemma failures_to_threshold ts : forall c k t0 tl,
  counting c k t0 tl -> (0 < t0)%Z -> (t0 <= tl)%Z -> (0 <= cs_collapseInterval s)%Z ->
  (0 < cs_quarantineTTL s)%Z -> spaced (cs_collapseInterval s) tl ts ->
  Forall (fun t => t - t0 <= cs_failureWindow s)%Z ts ->
  (k < cs_failureThreshold s)%Z -> (k + Z.of_nat (length ts) = cs_failureThreshold s)%Z ->
  let r := failures range_order proxyID ts c in
  r.1 = replicate (length ts - 1) false ++ [true] /\ c_settings r.2 = s /\
  c_blocked r.2 !! proxyID = Some (List.last ts tl + cs_quarantineTTL s)%Z.
Proof using Henabled Hid.
  induction ts as [|t ts IH]; intros c k t0 tl Hc H0 H1 Hci Hq Hsp Hwin Hk Hlen; cbn in Hlen; [lia|].
  destruct Hsp as [Hgap Hsp]. apply Forall_cons in Hwin as [Hw1 Hw2].
  destruct (later_failure c k t0 tl t Hc H0 H1 Hgap ltac:(lia) Hw1 ltac:(lia)) as [Ht Haf].
  cbn [failures]. destruct (recordFailure range_order proxyID t c) as [[tripped until] c1].
  cbn [fst snd] in *. subst tripped.
  destruct ts as [|t' ts].
  - rewrite (proj2 (Z.leb_le _ _)) in * by (cbn in Hlen; lia). cbn. destruct Haf. done.
  - rewrite (proj2 (Z.leb_gt _ _)) in * by (cbn in Hlen; lia). cbn [after_failure] in Haf.
    destruct (IH c1 (k + 1)%Z t0 t Haf H0 ltac:(lia) Hci Hq Hsp Hw2 ltac:(cbn in Hlen; lia)
      ltac:(cbn [length] in *; lia)) as (R1 & R2 & R3).
    destruct (failures range_order proxyID (t' :: ts) c1) as [rest c2]. cbn [fst snd] in *.
    rewrite R1. split; [cbn; by rewrite Nat.sub_0_r|]. split; [done|].
    rewrite R3. by rewrite (last_default (t' :: ts) t tl).
Qed.
End Tripping.

(** The circuit trips at the threshold: for a proxy without a record, when
    as many failures as the threshold come within the window, each at least the
    collapse interval after the one before, exactly the last of them trips the
    circuit, and the proxy is then blocked until the quarantine after that
    failure has passed, and no longer. *)
Theorem circuit_trips_at_threshold range_order proxyID t0 ts c :
  cs_enabled (c_settings c) = true -> (0 < proxyID)%Z -> (0 < t0)%Z ->
  (0 <= cs_collapseInterval (c_settings c))%Z -> (0 < cs_quarantineTTL (c_settings c))%Z ->
  c_entries c !! proxyID = None ->
  spaced (cs_collapseInterval (c_settings c)) t0 ts ->
  Forall (fun t => t - t0 <= cs_failureWindow (c_settings c))%Z ts ->
  Z.of_nat (length (t0 :: ts)) = cs_failureThreshold (c_settings c) ->
  let r := failures range_order proxyID (t0 :: ts) c in
  r.1 = replicate (length ts) false ++ [true] /\
  forall t, isBlocked proxyID t r.2
            = (t <? List.last ts t0 + cs_quarantineTTL (c_settings c))%Z.
Proof.
  intros Hen Hid H0 Hci Hq He Hsp Hwin Hlen. cbn zeta.
  destruct (first_failure range_order (c_settings c) proxyID Hen Hid c t0 eq_refl He H0 ltac:(lia)) as [Ht Haf].
  cbn [failures]. destruct (recordFailure range_order proxyID t0 c) as [[tripped until] c1].
  cbn [fst snd] in *. subst tripped.
  assert (Hblock : forall c2 t u, c_settings c2 = c_settings c -> c_blocked c2 !! proxyID = Some u ->
    isBlocked proxyID t c2 = (t <? u)%Z).
  { intros c2 t u Hs Hb. unfold isBlocked.
    by rewrite (guard_open (c_settings c) proxyID Hen Hid c2 Hs), Hb. }
  destruct ts as [|t1 ts].
  - rewrite (proj2 (Z.leb_le _ _)) in * by (cbn in Hlen; lia). destruct Haf as [Hs Hb].
    cbn. split; [done|]. intros t. by apply Hblock.
  - rewrite (proj2 (Z.leb_gt _ _)) in * by (cbn in Hlen; lia). cbn [after_failure] in Haf.
    destruct (failures_to_threshold range_order (c_settings c) proxyID Hen Hid (t1 :: ts) c1 1 t0 t0
      Haf H0 ltac:(lia) Hci Hq Hsp Hwin ltac:(cbn in Hlen; lia) ltac:(cbn [length] in *; lia))
      as (R1 & R2 & R3).
    destruct (failures range_order proxyID (t1 :: ts) c1) as [rest c2]. cbn [fst snd] in *.
    rewrite R1. split; [cbn; by rewrite Nat.sub_0_r|]. intros t. by apply Hblock.
Qed.

(** ** Staying open *)

(** The quarantine of one proxy, as readers see it, is untouched. *)
Definition same_quarantine (proxyID : Z) (c c' : openAIProxyStreamCircuit) : Prop :=
  c_settings c' = c_settings c /\ c_blocked c' !! proxyID = c_blocked c !! proxyID.

Lemma same_quarantine_isBlocked proxyID c c' :
  same_quarantine proxyID c c' -> forall t, isBlocked proxyID t c' = isBlocked proxyID t c.
Proof. intros [H1 H2] t. unfold isBlocked. by rewrite H1, H2. Qed.

Lemma blocked_entry c proxyID now :
  circuit_ok c -> isBlocked proxyID now c = true ->
  exists e, c_entries c !! proxyID = Some e /\ (now <? ce_blockedUntil e)%Z = true /\
    IsZero (ce_blockedUntil e) = false.
Proof.
  intros Hok. unfold isBlocked. case_test; [done|]. rewrite (co_snapshot _ Hok), blocked_of_lookup.
  destruct (c_entries c !! proxyID) as [e|]; [|done]. destruct (IsZero _) eqn:Ez; [done|]. eauto.
Qed.

Lemma recordTerminal_quarantine c proxyID id now :
  circuit_ok c -> isBlocked proxyID now c = true ->
  same_quarantine proxyID c (recordTerminal id now c).
Proof.
  intros Hok Hb. destruct (blocked_entry _ _ _ Hok Hb) as (e & He & Hlt & Hz).
  unfold recordTerminal. case_test; [done|].
  assert (Hsnap : c_blocked c !! proxyID = Some (ce_blockedUntil e)).
  { rewrite (co_snapshot _ Hok), blocked_of_lookup, He, Hz. done. }
  destruct (decide (id = proxyID)) as [->|Hne].
  - rewrite He, Hlt. split; [done|]. cbn. rewrite Hsnap, blocked_of_lookup, lookup_insert_eq. cbn.
    by rewrite Hz.
  - split; [by destruct (c_entries c !! id); [case_test|]|]. rewrite Hsnap. cbn.
    destruct (c_entries c !! id); [case_test|]; cbn; rewrite blocked_of_lookup;
      rewrite ?lookup_delete_ne, ?lookup_insert_ne by done; by rewrite He, Hz.
Qed.

Lemma recordFailure_quarantine range_order c proxyID id now :
  circuit_ok c -> isBlocked proxyID now c = true ->
  (size_entries c < cs_maxEntries (c_settings c))%Z ->
  same_quarantine proxyID c (recordFailure range_order id now c).2.
Proof.
  intros Hok Hb Hroom. destruct (blocked_entry _ _ _ Hok Hb) as (e & He & Hlt & Hz).
  unfold recordFailure. case_test; [done|]. cbn zeta.
  assert (Hcap : ensureCapacityLocked range_order now c = c).
  { unfold ensureCapacityLocked. by rewrite (proj2 (Z.ltb_lt _ _) Hroom). }
  assert (Hsnap : c_blocked c !! proxyID = Some (ce_blockedUntil e)).
  { rewrite (co_snapshot _ Hok), blocked_of_lookup, He, Hz. done. }
  destruct (decide (id = proxyID)) as [->|Hne].
  - rewrite He. rewrite bool_decide_true by eauto. change (default zero_entry (Some e)) with e.
    cbn [andb]. rewrite Hlt. done.
  - rewrite Hcap. repeat case_test; (split; [done|]); cbn; try done.
    all: rewrite Hsnap, blocked_of_lookup, lookup_insert_ne by done; by rewrite He, Hz.
Qed.

(** Quarantine is not lifted early: while a proxy is blocked, a terminal
    event or a further failure, of this or another proxy, leaves the time until
    which it is blocked unchanged, as long as the table has room. *)
Theorem quarantine_not_lifted range_order s ops op proxyID now :
  (forall m, range_order m ≡ₚ map_to_list m) ->
  let c := foldl (apply_op range_order) (newOpenAIProxyStreamCircuit s) ops in
  (size_entries c < cs_maxEntries (c_settings c))%Z ->
  isBlocked proxyID now c = true ->
  (exists id, op = OpFailure id now \/ op = OpTerminal id now) ->
  forall t, isBlocked proxyID t (apply_op range_order c op) = isBlocked proxyID t c.
Proof.
  intros Horder c Hroom Hb [id [-> | ->]]; apply same_quarantine_isBlocked;
    pose proof (ops_ok range_order Horder s ops) as Hok.
  - by apply recordFailure_quarantine.
  - by apply recordTerminal_quarantine.
Qed.

(** ** The account counter *)

(** Pruning is invisible: the count and the block that a later disconnect
    of any account reports are the same whether or not the expired counters
    have been pruned in between. *)
Theorem prune_transparent accountID now now' lastSweep m :
  (now <= now')%Z ->
  (nextLocalOpenAIAccountStreamFailure accountID now' (pruneDisconnects now (lastSweep, m)).2).1
  = (nextLocalOpenAIAccountStreamFailure accountID now' m).1.
Proof.
  intros Hle. unfold nextLocalOpenAIAccountStreamFailure, pruneDisconnects. cbn [fst].
  case_test; [done|]. cbn [snd]. rewrite map_lookup_filter.
  destruct (m !! accountID) as [st|]; [|done]. cbn.
  case_guard as Hg; [done|]. cbn.
  assert (nextDisconnectState (Some st) now' = nextDisconnectState None now') as ->; [|done].
  unfold nextDisconnectState.
  assert (Hexp : IsZero (ds_start st) || (now' <? ds_start st)%Z
     || (openAIAccountStreamFailureWindow <=? now' - ds_start st)%Z = true); [|by rewrite Hexp].
  apply not_false_iff_true in Hg. apply orb_true_iff in Hg as [-> | Hg]; [done|].
  apply Z.ltb_lt in Hg. rewrite !orb_true_iff, Z.leb_le. right. lia.
Qed.

