(* ===== verification/Redis.v ===== *)
(** * The Redis server the gateway keeps its shared counters in

    Redis is not part of the repository: it is the parameter [RedisServer] of everything that
    talks to it.  What the code relies on is [documented], the documented reply and effect of
    each command used by the scripts and the client calls; a server is any store whose
    observable keyspace follows that table.  A Lua script is the sequence of its
    [redis.call]s, a failing call ends it, and [EVAL] runs it atomically at one instant
    ([eval]).  Time is the server's clock in milliseconds.

    Lua numbers are doubles: scores, lifetimes and limits are far below 2^53, where doubles
    are exact on integers. *)

From stdpp Require Import pretty.
From S2P Require Import Prelude GoStrings.

Open Scope Z_scope.

(** ** Keyspace *)

Inductive rvalue := RString (s : string) | RZset (z : gmap string Z).

#[export] Instance rvalue_eq_dec : EqDecision rvalue.
Proof. solve_decision. Defined.

(** A key's value and its deadline, when it has one. *)
Notation entry := (rvalue * option Z)%type.

Notation keyspace := (gmap string entry).

Definition unexpired (now : Z) (e : entry) : bool :=
  match e.2 with Some d => now <? d | None => true end.

(** What is left of a keyspace at an instant. *)
Definition elapse (now : Z) (ks : keyspace) : keyspace :=
  filter (fun p : string * entry => unexpired now p.2 = true) ks.

(** ** Commands *)

Inductive rcmd : Type -> Type :=
  | TIME : rcmd Z
  | ZADD (key : string) (score : Z) (member : string) : rcmd Z
  | ZREM (key member : string) : rcmd Z
  | ZSCORE (key member : string) : rcmd (option Z)
  | ZCARD (key : string) : rcmd Z
  | ZCOUNT_above (key : string) (low : Z) : rcmd Z
  | ZREMRANGEBYSCORE (key : string) (high : Z) : rcmd Z
  | EXPIRE (key : string) (seconds : Z) : rcmd Z
  | PEXPIRE (key : string) (milliseconds : Z) : rcmd Z
  | DEL (key : string) : rcmd Z
  | EXISTS (keys : list string) : rcmd Z
  | GET (key : string) : rcmd (option string)
  | SET_PX (key value : string) (milliseconds : Z) : rcmd unit
  | PTTL (key : string) : rcmd Z
  | INCR (key : string) : rcmd Z
  | DECR (key : string) : rcmd Z.

(** The sorted set under a key; a missing key is an empty set, a string is an error. *)
Definition zset_of (ks : keyspace) (key : string) : option (gmap string Z * option Z) :=
  match ks !! key with
  | None => Some (∅, None)
  | Some (RZset z, d) => Some (z, d)
  | Some (RString _, _) => None
  end.

(** A set that becomes empty loses its key. *)
Definition put_zset (key : string) (z : gmap string Z) (d : option Z) (ks : keyspace) : keyspace :=
  if decide (z = ∅) then delete key ks else <[key := (RZset z, d)]> ks.

Definition above (low : Z) (z : gmap string Z) : gmap string Z :=
  filter (fun p : string * Z => low < p.2) z.

Definition zsize (z : gmap string Z) : Z := Z.of_nat (size z).

(** [EXPIRE] with a deadline that has passed removes the key. *)
Definition set_deadline (now : Z) (key : string) (deadline : Z) (ks : keyspace) : Z * keyspace :=
  match ks !! key with
  | None => (0, ks)
  | Some (v, _) =>
    (1, if deadline <=? now then delete key ks else <[key := (v, Some deadline)]> ks)
  end.

(** The integer a string denotes for [INCR]: canonical decimal notation only. *)
Definition redis_int (s : string) : option Z :=
  match ParseInt s with
  | Some n => if pretty n =s s then Some n else None
  | None => None
  end.

Definition add_int (key : string) (delta : Z) (ks : keyspace) : option Z * keyspace :=
  let '(current, d) := match ks !! key with
                       | None => (Some 0, None)
                       | Some (RString s, d) => (redis_int s, d)
                       | Some (RZset _, d) => (None, d)
                       end in
  match current with
  | Some n =>
    if bool_decide (in_int64 (n + delta))
    then (Some (n + delta), <[key := (RString (pretty (n + delta)), d)]> ks)
    else (None, ks)
  | None => (None, ks)
  end.

(** The documented reply ([None] is an error) and effect of a command at an instant, on a
    keyspace without expired keys. *)
Definition documented {R : Type} (c : rcmd R) (now : Z) (ks : keyspace) : option R * keyspace :=
  match c with
  | TIME => (Some (now / 1000), ks)
  | ZADD key score member =>
    match zset_of ks key with
    | Some (z, d) =>
      (Some (if decide (is_Some (z !! member)) then 0 else 1), put_zset key (<[member := score]> z) d ks)
    | None => (None, ks)
    end
  | ZREM key member =>
    match zset_of ks key with
    | Some (z, d) =>
      (Some (if decide (is_Some (z !! member)) then 1 else 0), put_zset key (delete member z) d ks)
    | None => (None, ks)
    end
  | ZSCORE key member =>
    match zset_of ks key with Some (z, _) => (Some (z !! member), ks) | None => (None, ks) end
  | ZCARD key =>
    match zset_of ks key with Some (z, _) => (Some (zsize z), ks) | None => (None, ks) end
  | ZCOUNT_above key low =>
    match zset_of ks key with Some (z, _) => (Some (zsize (above low z)), ks) | None => (None, ks) end
  | ZREMRANGEBYSCORE key high =>
    match zset_of ks key with
    | Some (z, d) => (Some (zsize z - zsize (above high z)), put_zset key (above high z) d ks)
    | None => (None, ks)
    end
  | EXPIRE key seconds =>
    let r := set_deadline now key (now + seconds * 1000) ks in (Some r.1, r.2)
  | PEXPIRE key ms => let r := set_deadline now key (now + ms) ks in (Some r.1, r.2)
  | DEL key => (Some (if decide (is_Some (ks !! key)) then 1 else 0), delete key ks)
  | EXISTS keys =>
    (Some (Z.of_nat (length (filter (fun k => is_Some (ks !! k)) keys))), ks)
  | GET key =>
    match ks !! key with
    | None => (Some None, ks)
    | Some (RString s, _) => (Some (Some s), ks)
    | Some (RZset _, _) => (None, ks)
    end
  | SET_PX key value ms =>
    if ms <=? 0 then (None, ks) else (Some tt, <[key := (RString value, Some (now + ms))]> ks)
  | PTTL key =>
    (Some match ks !! key with None => -2 | Some (_, None) => -1 | Some (_, Some d) => d - now end, ks)
  | INCR key => add_int key 1 ks
  | DECR key => add_int key (-1) ks
  end.

(** ** Servers *)

Class RedisServer (store : Type) := {
  exec : forall {R : Type}, rcmd R -> Z -> store -> option R * store;
  peek : Z -> store -> keyspace;
  (** Keys go away at their deadline and otherwise stay. *)
  peek_later : forall s now later, now <= later -> peek later s = elapse later (peek now s);
  peek_alive : forall s now, elapse now (peek now s) = peek now s;
  exec_reply : forall {R : Type} (c : rcmd R) now s, (exec c now s).1 = (documented c now (peek now s)).1;
  exec_effect : forall {R : Type} (c : rcmd R) now s,
    peek now (exec c now s).2 = (documented c now (peek now s)).2
}.

(** ** Scripts *)

Inductive lua (A : Type) : Type :=
  | Done (a : A)
  | Raise
  | Call {R : Type} (c : rcmd R) (k : R -> lua A).

Arguments Done {A} a.
Arguments Raise {A}.
Arguments Call {A R} c k.

Fixpoint lua_bind {A B : Type} (f : A -> lua B) (p : lua A) : lua B :=
  match p with
  | Done a => f a
  | Raise => Raise
  | Call c k => Call c (fun r => lua_bind f (k r))
  end.

Declare Scope lua_scope.
Delimit Scope lua_scope with lua.
Bind Scope lua_scope with lua.
Notation "'local' x := c 'in' p" := (Call c (fun x => p))
  (at level 200, x name, c at level 100, p at level 200, right associativity) : lua_scope.
Notation "c ';^' p" := (Call c (fun _ => p))
  (at level 100, p at level 200, right associativity) : lua_scope.
Notation "'let^' x := q 'in' p" := (lua_bind (fun x => p) q)
  (at level 200, x name, q at level 100, p at level 200, right associativity) : lua_scope.

(** The arguments of a script: go-redis prints integers in decimal, [tonumber] reads them. *)
Inductive arg := AInt (z : Z) | AStr (s : string).

Definition tonumber (a : option arg) : option Z :=
  match a with
  | Some (AInt z) => Some z
  | Some (AStr s) => ParseInt s
  | None => None
  end.

Definition orRaise {A : Type} (o : option A) : lua A :=
  match o with Some a => Done a | None => Raise end.

(** [KEYS[i]], [tonumber(ARGV[i])] and [ARGV[i]] from 0; the calls always pass the
    arguments a script reads without a [nil] test. *)
Definition KEYS (keys : list string) (i : nat) : lua string := orRaise (keys !! i).
Definition ARGN (args : list arg) (i : nat) : lua Z := orRaise (tonumber (args !! i)).
Definition ARGS (args : list arg) (i : nat) : lua string :=
  match args !! i with
  | Some (AStr s) => Done s
  | Some (AInt z) => Done (pretty z)
  | None => Raise
  end.

(** [for ... do ... end] whose body returns ([Some]) or goes on ([None]). *)
Fixpoint lua_for {I A : Type} (body : I -> lua (option A)) (l : list I) (rest : lua A) : lua A :=
  match l with
  | [] => rest
  | i :: l => lua_bind (fun r => match r with
                                 | Some a => Done a
                                 | None => lua_for body l rest
                                 end) (body i)
  end.

(** A script against the table of documented effects, and on a server. *)
Fixpoint script {A : Type} (p : lua A) (now : Z) (ks : keyspace) : option A * keyspace :=
  match p with
  | Done a => (Some a, ks)
  | Raise => (None, ks)
  | Call c k =>
    match documented c now ks with
    | (Some r, ks') => script (k r) now ks'
    | (None, ks') => (None, ks')
    end
  end.

Fixpoint eval {store A : Type} `{RedisServer store} (p : lua A) (now : Z) (s : store)
    : option A * store :=
  match p with
  | Done a => (Some a, s)
  | Raise => (None, s)
  | Call c k =>
    match exec c now s with
    | (Some r, s') => eval (k r) now s'
    | (None, s') => (None, s')
    end
  end.

(** Everything a server shows of a script is what the documented effects give. *)
Lemma eval_script {store A : Type} `{RedisServer store} (p : lua A) now s :
  (eval p now s).1 = (script p now (peek now s)).1 /\
  peek now (eval p now s).2 = (script p now (peek now s)).2.
Proof.
  revert s. induction p as [a| |R c k IH]; intros s; [done..|]. cbn [eval script].
  pose proof (exec_reply c now s) as E1. pose proof (exec_effect c now s) as E2.
  destruct (exec c now s) as [[r|] s'], (documented c now (peek now s)) as [[r'|] ks'];
    cbn in E1, E2; simplify_eq; [|done]. apply IH.
Qed.

Lemma script_bind {A B : Type} (f : A -> lua B) p now ks :
  script (lua_bind f p) now ks =
    match script p now ks with
    | (Some a, ks') => script (f a) now ks'
    | (None, ks') => (None, ks')
    end.
Proof.
  revert ks. induction p as [a| |R c k IH]; intros ks; [done..|]. cbn.
  destruct (documented c now ks) as [[r|] ks']; [apply IH|done].
Qed.

(** ** A server

    The keyspace itself, cleaned on every access. *)

Lemma elapse_lookup now ks key e :
  elapse now ks !! key = Some e <-> ks !! key = Some e /\ unexpired now e = true.
Proof. exact (map_lookup_filter_Some _ _ _ _). Qed.

Lemma elapse_elapse now later ks : now <= later -> elapse later (elapse now ks) = elapse later ks.
Proof.
  intros Hle. apply map_eq. intros key. apply option_eq. intros e.
  rewrite !elapse_lookup. unfold unexpired. destruct e as [v [d|]]; cbn; [|tauto].
  rewrite !Z.ltb_lt. split; [tauto|]. intros [? ?]. repeat split; [done|lia|done].
Qed.

Definition alive (now : Z) (ks : keyspace) : Prop :=
  forall key e, ks !! key = Some e -> unexpired now e = true.

Lemma alive_elapse now ks : alive now ks -> elapse now ks = ks.
Proof.
  intros Ha. apply map_eq. intros key. apply option_eq. intros e. rewrite elapse_lookup.
  split; [tauto|]. intros E. split; [done|]. by eapply Ha.
Qed.

Lemma elapse_alive now ks : alive now (elapse now ks).
Proof. intros key e E. by apply elapse_lookup in E as [_ ?]. Qed.

Lemma alive_delete now key ks : alive now ks -> alive now (delete key ks).
Proof. intros Ha k e E. apply lookup_delete_Some in E as [_ E]. by eapply Ha. Qed.

Lemma alive_insert now key e ks : alive now ks -> unexpired now e = true -> alive now (<[key := e]> ks).
Proof.
  intros Ha He k e' E. apply lookup_insert_Some in E as [[_ <-]|[_ E]]; [done|]. by eapply Ha.
Qed.

Lemma alive_put_zset now key z z' d ks :
  alive now ks -> zset_of ks key = Some (z, d) -> alive now (put_zset key z' d ks).
Proof.
  intros Ha E. unfold put_zset. case_decide; [by apply alive_delete|]. apply alive_insert; [done|].
  unfold zset_of in E. destruct (ks !! key) as [[[s|z0] d0]|] eqn:Ek; simplify_eq; [|done].
  by apply Ha in Ek.
Qed.

Lemma alive_set_deadline now key deadline ks : alive now ks -> alive now (set_deadline now key deadline ks).2.
Proof.
  intros Ha. unfold set_deadline. destruct (ks !! key) as [[v d]|]; [|done]. cbn.
  destruct (deadline <=? now) eqn:E; [by apply alive_delete|]. apply alive_insert; [done|].
  unfold unexpired; cbn. lia.
Qed.

Lemma alive_add_int now key delta ks : alive now ks -> alive now (add_int key delta ks).2.
Proof.
  intros Ha. unfold add_int. destruct (ks !! key) as [[[s|z] d]|] eqn:Ek; cbn; [|done|].
  - destruct (redis_int s); [|done]. case_bool_decide; [|done]. cbn.
    apply alive_insert; [done|]. by apply Ha in Ek.
  - case_bool_decide; [|done]. by apply alive_insert.
Qed.

Lemma documented_alive {R : Type} (c : rcmd R) now ks : alive now ks -> alive now (documented c now ks).2.
Proof.
  intros Ha. destruct c; cbn; try done.
  1-6: destruct (zset_of ks key) as [[z d]|] eqn:E; cbn; try done; by eapply alive_put_zset.
  - by apply alive_set_deadline.
  - by apply alive_set_deadline.
  - by apply alive_delete.
  - by destruct (ks !! key) as [[[]]|].
  - destruct (milliseconds <=? 0) eqn:E; [done|]. apply alive_insert; [done|]. unfold unexpired; cbn. lia.
  - by apply alive_add_int.
  - by apply alive_add_int.
Qed.

#[export, refine] Instance keyspace_server : RedisServer keyspace := {
  exec R c now s := documented c now (elapse now s);
  peek := elapse
}.
Proof.
  - intros s now later Hle. by rewrite elapse_elapse.
  - intros s now. apply alive_elapse, elapse_alive.
  - done.
  - intros R c now s. apply alive_elapse, documented_alive, elapse_alive.
Defined.
