(* ===== verification/ConcurrencyScripts.v ===== *)
(** * Keys and Lua scripts of the concurrency cache

    [repository/concurrency_cache.go]: who holds a slot of an account, a user or an API key is
    a sorted set of request ids scored with the second of their last sign of life; leases of
    long-lived connections are kept apart in "live" sets.  Each script below is the text the
    Go file sends to Redis; the two scripts the file declares and never runs are left out. *)

From stdpp Require Import pretty.
From S2P Require Import Prelude GoStrings Redis.

Open Scope Z_scope.
Open Scope lua_scope.

(** ** Keys *)

Definition accountSlotKeyPrefix : string := "concurrency:account:".
Definition userSlotKeyPrefix : string := "concurrency:user:".
Definition apiKeySlotKeyPrefix : string := "concurrency:api_key:".
Definition liveAccountSlotKeyPrefix : string := "concurrency:live:account:".
Definition liveUserSlotKeyPrefix : string := "concurrency:live:user:".
Definition liveAPIKeySlotKeyPrefix : string := "concurrency:live:api_key:".
Definition liveLeaseTTLSeconds : Z := 60.
Definition waitQueueKeyPrefix : string := "concurrency:wait:".
Definition accountWaitKeyPrefix : string := "wait:account:".
Definition accountCooldownKeyPrefix : string := "cooldown:account:".
Definition openAIPoolCooldownKeyPrefix : string := "cooldown:openai_pool:".
Definition defaultSlotTTLMinutes : Z := 2.

Definition accountSlotKey (accountID : Z) : string := accountSlotKeyPrefix +:+ pretty accountID.
Definition userSlotKey (userID : Z) : string := userSlotKeyPrefix +:+ pretty userID.
Definition apiKeySlotKey (apiKeyID : Z) : string := apiKeySlotKeyPrefix +:+ pretty apiKeyID.
Definition liveAccountSlotKey (accountID : Z) : string := liveAccountSlotKeyPrefix +:+ pretty accountID.
Definition liveUserSlotKey (userID : Z) : string := liveUserSlotKeyPrefix +:+ pretty userID.
Definition liveAPIKeySlotKey (apiKeyID : Z) : string := liveAPIKeySlotKeyPrefix +:+ pretty apiKeyID.
Definition waitQueueKey (userID : Z) : string := waitQueueKeyPrefix +:+ pretty userID.
Definition accountWaitKey (accountID : Z) : string := accountWaitKeyPrefix +:+ pretty accountID.
Definition accountCooldownKey (accountID : Z) : string := accountCooldownKeyPrefix +:+ pretty accountID.
Definition accountRuntimeCooldownKey (accountID : Z) : string :=
  "cooldown:account_runtime:" +:+ pretty accountID.
Definition openAIPoolCooldownKey (accountID : Z) : string := openAIPoolCooldownKeyPrefix +:+ pretty accountID.

(** ** Slots *)

(** [ZADD key now requestID] and [EXPIRE key ttl], with what the script returns then. *)
Definition touch {A : Type} (key : string) (now ttl : Z) (member : string) (result : lua A) : lua A :=
  ZADD key now member ;^
  EXPIRE key ttl ;^
  result.

Definition acquireScript (keys : list string) (argv : list arg) : lua Z :=
  let^ key := KEYS keys 0 in
  let^ liveKey := KEYS keys 1 in
  let^ maxConcurrency := ARGN argv 0 in
  let^ ttl := ARGN argv 1 in
  let^ requestID := ARGS argv 2 in
  local now := TIME in
  let expireBefore := now - ttl in
  ZREMRANGEBYSCORE key expireBefore ;^
  ZREMRANGEBYSCORE liveKey (now - 60) ;^
  local exists_ := ZSCORE key requestID in
  match exists_ with
  | Some _ => touch key now ttl requestID (Done 1)
  | None =>
    local count := ZCARD key in
    local live := ZCARD liveKey in
    if count + live <? maxConcurrency then touch key now ttl requestID (Done 1) else Done 0
  end.

(** One round of the candidate loop, from the group of five keys that starts at [base]:
    the number the script returns, or [None] to try the next candidate. *)
Definition tryCandidate (keys : list string) (base : nat) (candidateIndex : Z)
    (maxConcurrency : option Z) (now ttl : Z) (requestID : string) : lua (option Z) :=
  let^ key := KEYS keys base in
  let^ liveKey := KEYS keys (base + 1) in
  let^ cooldownKey := KEYS keys (base + 2) in
  let^ poolKey := KEYS keys (base + 3) in
  let^ runtimeKey := KEYS keys (base + 4) in
  let expireBefore := now - ttl in
  match maxConcurrency with
  | None => Done None
  | Some maxConcurrency =>
    local cooling := EXISTS [cooldownKey; poolKey; runtimeKey] in
    if cooling =? 0 then
      if maxConcurrency <=? 0 then Done (Some candidateIndex) else
      local exists_ := ZSCORE key requestID in
      let count :=
        ZREMRANGEBYSCORE liveKey (now - 60) ;^
        local count := ZCOUNT_above key expireBefore in
        local live := ZCARD liveKey in
        if count + live <? maxConcurrency then touch key now ttl requestID (Done (Some candidateIndex))
        else Done None in
      match exists_ with
      | Some score =>
        if expireBefore <? score then touch key now ttl requestID (Done (Some candidateIndex))
        else ZREM key requestID ;^ count
      | None => count
      end
    else Done None
  end.

(** The candidates of [for i = first, #KEYS, 5]: their positions from 0. *)
Definition candidateGroups (first : nat) (keys : list string) : list nat :=
  seq 0 ((length keys - first + 4) / 5).

Definition acquireFirstAvailableAccountSlotScript (keys : list string) (argv : list arg) : lua Z :=
  let^ ttl := ARGN argv 0 in
  let^ requestID := ARGS argv 1 in
  local now := TIME in
  lua_for (fun i => tryCandidate keys (5 * i) (Z.of_nat i + 1) (tonumber (argv !! (i + 2)%nat)) now ttl requestID)
    (candidateGroups 0 keys)
    (Done 0).

Definition acquireFirstAvailableUserAccountSlotsScript (keys : list string) (argv : list arg) : lua Z :=
  let^ userKey := KEYS keys 0 in
  let^ userLiveKey := KEYS keys 1 in
  let^ ttl := ARGN argv 0 in
  let^ userMaxConcurrency := ARGN argv 1 in
  let^ userRequestID := ARGS argv 2 in
  let^ accountRequestID := ARGS argv 3 in
  local now := TIME in
  let expireBefore := now - ttl in
  let candidates :=
    lua_for (fun i => tryCandidate keys (2 + 5 * i) (Z.of_nat i + 1) (tonumber (argv !! (i + 4)%nat)) now ttl
               accountRequestID)
      (candidateGroups 2 keys)
      (ZREM userKey userRequestID ;^ Done 0) in
  let admitUser :=
    local userTotalCount := ZCARD userKey in
    let^ _ := (if userMaxConcurrency * 2 <? userTotalCount
               then ZREMRANGEBYSCORE userKey expireBefore ;^ Done tt else Done tt) in
    ZREMRANGEBYSCORE userLiveKey (now - 60) ;^
    local count := ZCOUNT_above userKey expireBefore in
    local live := ZCARD userLiveKey in
    let^ full := (if userMaxConcurrency <=? count + live then
                    ZREMRANGEBYSCORE userKey expireBefore ;^
                    local regular := ZCARD userKey in
                    local live := ZCARD userLiveKey in
                    Done (userMaxConcurrency <=? regular + live)
                  else Done false) in
    if full : bool then Done 0 else touch userKey now ttl userRequestID candidates in
  local userExists := ZSCORE userKey userRequestID in
  match userExists with
  | Some score =>
    if expireBefore <? score then touch userKey now ttl userRequestID candidates
    else ZREM userKey userRequestID ;^ admitUser
  | None => admitUser
  end.

(** Drop the expired members of a set, and the key with the last of them. *)
Definition sweepKey {A : Type} (key : string) (now ttl : Z) (k : Z -> lua A) : lua A :=
  local removed := ZREMRANGEBYSCORE key (now - ttl) in
  local left_ := ZCARD key in
  if left_ =? 0 then DEL key ;^ k removed else EXPIRE key ttl ;^ k removed.

Fixpoint sweepKeys (keys : list string) (now ttl removed : Z) : lua Z :=
  match keys with
  | [] => Done removed
  | key :: keys => sweepKey key now ttl (fun n => sweepKeys keys now ttl (removed + n))
  end.

Definition cleanupExpiredSlotKeysScript (keys : list string) (argv : list arg) : lua Z :=
  let^ ttl := ARGN argv 0 in
  local now := TIME in
  sweepKeys keys now ttl 0.

Definition cleanupExpiredSlotsScript (keys : list string) (argv : list arg) : lua Z :=
  let^ key := KEYS keys 0 in
  let^ ttl := ARGN argv 0 in
  local now := TIME in
  sweepKey key now ttl (fun _ => Done 1).

Definition getCountScript (keys : list string) (argv : list arg) : lua Z :=
  let^ key := KEYS keys 0 in
  let^ liveKey := KEYS keys 1 in
  let^ ttl := ARGN argv 0 in
  local now := TIME in
  let expireBefore := now - ttl in
  ZREMRANGEBYSCORE key expireBefore ;^
  ZREMRANGEBYSCORE liveKey (now - 60) ;^
  local count := ZCARD key in
  local live := ZCARD liveKey in
  Done (count + live).

(** ** Leases of live connections *)

Definition acquireLiveTenantLeaseScript (keys : list string) (argv : list arg) : lua Z :=
  let^ userRegular := KEYS keys 0 in
  let^ userLive := KEYS keys 1 in
  let^ apiLive := KEYS keys 2 in
  let^ userMax := ARGN argv 0 in
  let^ ttl := ARGN argv 1 in
  let^ leaseID := ARGS argv 2 in
  local now := TIME in
  let^ regularTTL := ARGN argv 3 in
  let claim :=
    ZADD userLive now leaseID ;^
    ZADD apiLive now leaseID ;^
    EXPIRE userLive ttl ;^
    EXPIRE apiLive ttl ;^
    Done 1 in
  ZREMRANGEBYSCORE userRegular (now - regularTTL) ;^
  ZREMRANGEBYSCORE userLive (now - ttl) ;^
  ZREMRANGEBYSCORE apiLive (now - ttl) ;^
  local held := ZSCORE userLive leaseID in
  match held with
  | Some _ =>
    local tracked := ZSCORE apiLive leaseID in
    match tracked with None => Done 0 | Some _ => claim end
  | None =>
    let^ allocated :=
      match keys !! 3%nat with
      | None => Done 0
      | Some escrowKey =>
        local v := GET escrowKey in
        orRaise (ParseInt (default "0" v))
      end in
    local regular := ZCARD userRegular in
    local live := ZCARD userLive in
    let current := regular + live + allocated in
    if ((0 <? userMax) && (userMax <=? current))%bool then Done 0 else claim
  end.

Definition acquireLiveAccountLeaseScript (keys : list string) (argv : list arg) : lua Z :=
  let^ regularKey := KEYS keys 0 in
  let^ liveKey := KEYS keys 1 in
  let^ accountMax := ARGN argv 0 in
  let^ ttl := ARGN argv 1 in
  let^ leaseID := ARGS argv 2 in
  let^ replacing := ARGN argv 3 in
  let^ regularTTL := ARGN argv 4 in
  local now := TIME in
  ZREMRANGEBYSCORE regularKey (now - regularTTL) ;^
  ZREMRANGEBYSCORE liveKey (now - ttl) ;^
  local held := ZSCORE liveKey leaseID in
  match held with
  | Some _ => touch liveKey now ttl leaseID (Done 1)
  | None =>
    let allowance := if replacing =? 1 then 1 else 0 in
    let claim := touch liveKey now ttl leaseID (Done 1) in
    if 0 <? accountMax then
      local regular := ZCARD regularKey in
      local live := ZCARD liveKey in
      if accountMax + allowance <=? regular + live then Done 0 else claim
    else claim
  end.

Fixpoint touchAll (keys : list string) (now ttl : Z) (member : string) : lua Z :=
  match keys with
  | [] => Done 1
  | key :: keys => touch key now ttl member (touchAll keys now ttl member)
  end.

Definition refreshLiveLeaseScript (keys : list string) (argv : list arg) : lua Z :=
  let^ ttl := ARGN argv 0 in
  let^ leaseID := ARGS argv 1 in
  local now := TIME in
  lua_for (fun key =>
      ZREMRANGEBYSCORE key (now - ttl) ;^
      local held := ZSCORE key leaseID in
      Done (match held with None => Some 0 | Some _ => None end))
    keys
    (touchAll keys now ttl leaseID).

(** ** Stats-only slots and renewals *)

Definition trackSlotScript (keys : list string) (argv : list arg) : lua Z :=
  let^ key := KEYS keys 0 in
  let^ ttl := ARGN argv 0 in
  let^ requestID := ARGS argv 1 in
  local now := TIME in
  let expireBefore := now - ttl in
  ZREMRANGEBYSCORE key expireBefore ;^
  touch key now ttl requestID (Done 1).

Definition refreshSlotScript (keys : list string) (argv : list arg) : lua Z :=
  let^ key := KEYS keys 0 in
  let^ requestID := ARGS argv 0 in
  let^ ttl := ARGN argv 1 in
  local held := ZSCORE key requestID in
  match held with
  | None => Done 0
  | Some _ =>
    local now := TIME in
    touch key now ttl requestID (Done 1)
  end.

Fixpoint refreshEach (keys : list string) (argv : list arg) (now ttl refreshed : Z) : lua Z :=
  match keys with
  | [] => Done refreshed
  | key :: keys =>
    let^ requestID := ARGS argv 0 in
    local held := ZSCORE key requestID in
    match held with
    | Some _ => touch key now ttl requestID (refreshEach keys (tail argv) now ttl (refreshed + 1))
    | None => refreshEach keys (tail argv) now ttl refreshed
    end
  end.

Definition refreshSlotsScript (keys : list string) (argv : list arg) : lua Z :=
  let^ ttl := ARGN argv 0 in
  local now := TIME in
  refreshEach keys (tail argv) now ttl 0.

(** ** Wait counters *)

(** The text is the same for users and accounts. *)
Definition incrementWaitScript (keys : list string) (argv : list arg) : lua Z :=
  let^ key := KEYS keys 0 in
  local stored := GET key in
  let^ current := match stored with None => Done 0 | Some s => orRaise (ParseInt s) end in
  let^ maxWait := ARGN argv 0 in
  if maxWait <=? current then Done 0 else
  INCR key ;^
  let^ ttl := ARGN argv 1 in
  EXPIRE key ttl ;^
  Done 1.

Definition incrementAccountWaitScript : list string -> list arg -> lua Z := incrementWaitScript.

Definition decrementWaitScript (keys : list string) (argv : list arg) : lua Z :=
  let^ key := KEYS keys 0 in
  local stored := GET key in
  match stored with
  | None => Done 1
  | Some s =>
    let^ current := orRaise (ParseInt s) in
    if 0 <? current then DECR key ;^ Done 1 else Done 1
  end.

(** ** Cooldowns

    A marker is ["g:"] and a generation, with ["p:"] before it on the shared legacy key when
    the pool owns it.  [tostring] of a Lua number prints all digits of an integer below
    10^14, the range generations stay in. *)

Definition generationMarker (generation : Z) : string := "g:" +:+ pretty generation.

Definition markerGeneration (s : string) : Z :=
  if str_take 2 s =s "g:" then default 0 (ParseInt (str_drop 2 s)) else 0.

Definition oldGenerationOf (current : option string) : Z :=
  match current with Some s => markerGeneration s | None => 0 end.

(** Copy a cooldown that lasts at least as long to the legacy key. *)
Definition mirrorToLegacy (owner legacy prefix : string) : lua Z :=
  local candidateTTL := PTTL owner in
  local legacyTTL := PTTL legacy in
  if ((0 <? candidateTTL) && negb (legacyTTL =? -1) && (legacyTTL <=? candidateTTL))%bool then
    local value := GET owner in
    SET_PX legacy (prefix +:+ default "" value) candidateTTL ;^ Done 1
  else Done 1.

Definition setOwnedAccountCooldownScript (keys : list string) (argv : list arg) : lua Z :=
  let^ generation := ARGN argv 0 in
  let^ ttl := ARGN argv 1 in
  let^ prefix := ARGS argv 2 in
  let^ owner := KEYS keys 0 in
  let^ legacy := KEYS keys 1 in
  local current := GET owner in
  let oldGeneration := oldGenerationOf current in
  let present := match current with Some _ => true | None => false end in
  let^ _ :=
    (if ((generation =? 0) && present && (0 <? oldGeneration))%bool then
       local oldTTL := PTTL owner in
       if ((0 <=? oldTTL) && (oldTTL <? ttl))%bool then PEXPIRE owner ttl ;^ Done tt else Done tt
     else if (negb present || (oldGeneration <=? generation))%bool then
       local oldTTL := PTTL owner in
       let ttl := if (present && (ttl <? oldTTL))%bool then oldTTL else ttl in
       SET_PX owner (generationMarker generation) ttl ;^ Done tt
     else Done tt) in
  mirrorToLegacy owner legacy prefix.

Definition clearOwnedAccountCooldownScript (keys : list string) (argv : list arg) : lua Z :=
  let^ generation := ARGN argv 0 in
  let^ own := ARGS argv 1 in
  let^ otherPrefix := ARGS argv 2 in
  let^ owner := KEYS keys 0 in
  let^ legacy := KEYS keys 1 in
  let^ other := KEYS keys 2 in
  local current := GET owner in
  let oldGeneration := oldGenerationOf current in
  let present := match current with Some _ => true | None => false end in
  if ((0 <? generation) && present && (generation <=? oldGeneration))%bool then Done 0 else
  DEL owner ;^
  local marker := GET legacy in
  let^ _ :=
    match marker with
    | None => Done tt
    | Some value =>
      let pooled := str_take 2 value =s "p:" in
      if (if own =s "p:" then pooled else negb pooled) then
        let value := if (pooled || (str_take 2 value =s "r:"))%bool then str_drop 2 value else value in
        if ((generation =? 0) || (markerGeneration value <? generation))%bool
        then DEL legacy ;^ Done tt else Done tt
      else Done tt
    end in
  mirrorToLegacy other legacy otherPrefix.
