(* ===== verification/ConcurrencyCache.v ===== *)
(** * The concurrency cache

    The methods of [concurrencyCache] ([repository/concurrency_cache.go]).  A method is a
    program that sends requests to Redis: a script run, a command, a MULTI/EXEC transaction, a
    page of SCAN or a look at the process clock.  Whether a request gets lost, what page a
    SCAN returns and what the clock says comes from outside ([weather]).  A Go [error] is
    [None]; the receiver and its client are those of [NewConcurrencyCache], not nil.  Durations
    are nanoseconds. *)

From stdpp Require Import pretty.
From S2P Require Import Prelude GoStrings Programs Redis ConcurrencyScripts.

Open Scope Z_scope.

(** ** Requests *)

Inductive lua_script :=
  | Acquire
  | AcquireFirstAvailableAccount
  | AcquireFirstAvailableUserAccount
  | CleanupExpiredSlotKeys
  | CleanupExpiredSlots
  | GetCount
  | AcquireLiveTenant
  | AcquireLiveAccount
  | RefreshLiveLease
  | TrackSlot
  | RefreshSlotOnce
  | RefreshSlotBatch
  | IncrementWait
  | IncrementAccountWait
  | DecrementWait
  | SetOwnedCooldown
  | ClearOwnedCooldown.

Definition text_of (sc : lua_script) : list string -> list arg -> lua Z :=
  match sc with
  | Acquire => acquireScript
  | AcquireFirstAvailableAccount => acquireFirstAvailableAccountSlotScript
  | AcquireFirstAvailableUserAccount => acquireFirstAvailableUserAccountSlotsScript
  | CleanupExpiredSlotKeys => cleanupExpiredSlotKeysScript
  | CleanupExpiredSlots => cleanupExpiredSlotsScript
  | GetCount => getCountScript
  | AcquireLiveTenant => acquireLiveTenantLeaseScript
  | AcquireLiveAccount => acquireLiveAccountLeaseScript
  | RefreshLiveLease => refreshLiveLeaseScript
  | TrackSlot => trackSlotScript
  | RefreshSlotOnce => refreshSlotScript
  | RefreshSlotBatch => refreshSlotsScript
  | IncrementWait => incrementWaitScript
  | IncrementAccountWait => incrementAccountWaitScript
  | DecrementWait => decrementWaitScript
  | SetOwnedCooldown => setOwnedAccountCooldownScript
  | ClearOwnedCooldown => clearOwnedAccountCooldownScript
  end.

Inductive request : Type -> Type :=
  | Run (sc : lua_script) (keys : list string) (args : list arg) : request Z
  | Command {R : Type} (c : rcmd R) : request R
  | Transaction (cs : list (rcmd Z)) : request unit
  | Scan (cursor : Z) (pattern : string) (count : Z) : request (list string * Z)
  | Clock : request Z.

(** What the environment decides about a request. *)
Record weather := MkWeather {
  w_fault : fault;
  w_page : list string * Z;
  w_clock : Z
}.

Definition calm : weather := MkWeather Fine ([], 0) 0.

Section Requests.
Context {store : Type} `{RedisServer store}.

(** MULTI/EXEC runs every command; [Exec] reports the first error. *)
Fixpoint transact (cs : list (rcmd Z)) (now : Z) (s : store) : option unit * store :=
  match cs with
  | [] => (Some tt, s)
  | c :: cs =>
    let '(r, s) := exec c now s in
    let '(rest, s) := transact cs now s in
    (match r with Some _ => rest | None => None end, s)
  end.

(** SCAN returns only keys that match; every pattern used is a prefix and a star. *)
Definition matches (pattern key : string) : bool := HasPrefix key (TrimSuffix pattern "*").

Definition serve (w : weather) {R : Type} (c : request R) (now : Z) (s : store) : option R * store :=
  match c with
  | Run sc keys args => eval (text_of sc keys args) now s
  | Command c => exec c now s
  | Transaction cs => transact cs now s
  | Scan _ pattern _ =>
    (Some (filter (fun key => matches pattern key = true) (w_page w).1, (w_page w).2), s)
  | Clock => (Some (w_clock w), s)
  end.

Definition answer (w : weather) {R : Type} (c : request R) (now : Z) (s : store) : option R * store :=
  match w_fault w with
  | Fine => serve w c now s
  | LostRequest => (None, s)
  | LostReply => (None, (serve w c now s).2)
  end.

(** A program on its own, at one instant and in calm weather. *)
Fixpoint atOnce {A : Type} (p : prog request A) (now : Z) (s : store) : A * store :=
  match p with
  | Ret a => (a, s)
  | Do c k => let '(r, s) := answer calm c now s in atOnce (k r) now s
  end.
End Requests.

(** ** Configuration *)

Record concurrencyCache := MkConcurrencyCache {
  slotTTLSeconds : Z;
  waitQueueTTLSeconds : Z
}.

Definition SlotTTL (c : concurrencyCache) : Z :=
  if slotTTLSeconds c <=? 0 then 0 else wrap64 (slotTTLSeconds c * 1000000000).

Definition NewConcurrencyCache (slotTTLMinutes waitQueueTTLSeconds : Z) : concurrencyCache :=
  let slotTTLMinutes := if slotTTLMinutes <=? 0 then defaultSlotTTLMinutes else slotTTLMinutes in
  let waitQueueTTLSeconds :=
    if waitQueueTTLSeconds <=? 0 then wrap64 (slotTTLMinutes * 60) else waitQueueTTLSeconds in
  MkConcurrencyCache (wrap64 (slotTTLMinutes * 60)) waitQueueTTLSeconds.

Record AccountSlotCandidate := MkAccountSlotCandidate {
  cand_AccountID : Z;
  cand_MaxConcurrency : Z;
  cand_Platform : string
}.

Record ConcurrencySlotRenewal := MkConcurrencySlotRenewal {
  renewal_Kind : string;
  renewal_EntityID : Z;
  renewal_RequestID : string
}.

Record LoadInfo := MkLoadInfo {
  load_ID : Z;
  load_CurrentConcurrency : Z;
  load_WaitingCount : Z;
  load_LoadRate : Z
}.

Section Methods.
Context (c : concurrencyCache).

Local Notation ttl := (AInt (slotTTLSeconds c)).

(** [result == 1] of a script that was run. *)
Definition runsToOne (sc : lua_script) (keys : list string) (args : list arg) : prog request (option bool) :=
  let* r := Run sc keys args in
  Ret (match r with Some n => Some (n =? 1) | None => None end).

(** A script of which only the error is looked at. *)
Definition runsFine (sc : lua_script) (keys : list string) (args : list arg) : prog request (option unit) :=
  let* r := Run sc keys args in
  Ret (match r with Some _ => Some tt | None => None end).

Definition commandFine {R : Type} (cmd : rcmd R) : prog request (option unit) :=
  let* r := Command cmd in
  Ret (match r with Some _ => Some tt | None => None end).

(** ** Account slots *)

Definition candidateKeys (accountID : Z) : list string :=
  [accountSlotKey accountID; liveAccountSlotKey accountID; accountCooldownKey accountID;
   openAIPoolCooldownKey accountID; accountRuntimeCooldownKey accountID].

Definition AcquireAccountSlot (accountID maxConcurrency : Z) (requestID : string) : prog request (option bool) :=
  runsToOne AcquireFirstAvailableAccount (candidateKeys accountID) [ttl; AStr requestID; AInt maxConcurrency].

(** The candidates that are submitted: those with a positive id. *)
Definition submitted (candidates : list AccountSlotCandidate) : list AccountSlotCandidate :=
  filter (fun cand => 0 < cand_AccountID cand) candidates.

(** [accountIDs[result-1]] when the result is the number of a candidate. *)
Definition selected (accountIDs : list Z) (result : option Z) : option (Z * bool) :=
  match result with
  | None => None
  | Some result =>
    if ((result <=? 0) || (Z.of_nat (length accountIDs) <? result))%bool then Some (0, false)
    else Some (default 0 (accountIDs !! Z.to_nat (result - 1)), true)
  end.

Definition AcquireFirstAvailableAccountSlot (candidates : list AccountSlotCandidate) (requestID : string)
    : prog request (option (Z * bool)) :=
  match submitted candidates with
  | [] => Ret (Some (0, false))
  | cands =>
    let* result := Run AcquireFirstAvailableAccount
      (cands ≫= fun cand => candidateKeys (cand_AccountID cand))
      (ttl :: AStr requestID :: map (fun cand => AInt (cand_MaxConcurrency cand)) cands) in
    Ret (selected (map cand_AccountID cands) result)
  end.

Definition AcquireFirstAvailableUserAccountSlots (userID userMaxConcurrency : Z)
    (candidates : list AccountSlotCandidate) (userRequestID accountRequestID : string)
    : prog request (option (Z * bool)) :=
  if ((userID <=? 0) || (userMaxConcurrency <=? 0))%bool then Ret (Some (0, false)) else
  match submitted candidates with
  | [] => Ret (Some (0, false))
  | cands =>
    let* result := Run AcquireFirstAvailableUserAccount
      (userSlotKey userID :: liveUserSlotKey userID ::
        (cands ≫= fun cand => candidateKeys (cand_AccountID cand)))
      (ttl :: AInt userMaxConcurrency :: AStr userRequestID :: AStr accountRequestID ::
        map (fun cand => AInt (cand_MaxConcurrency cand)) cands) in
    Ret (selected (map cand_AccountID cands) result)
  end.

Definition ReleaseAccountSlot (accountID : Z) (requestID : string) : prog request (option unit) :=
  commandFine (ZREM (accountSlotKey accountID) requestID).

Definition concurrencySlotKey (kind : string) (entityID : Z) : option string :=
  if kind =s "account" then Some (accountSlotKey entityID)
  else if kind =s "user" then Some (userSlotKey entityID)
  else if kind =s "api_key" then Some (apiKeySlotKey entityID)
  else None.

Definition RefreshSlot (kind : string) (entityID : Z) (requestID : string) : prog request (option unit) :=
  match concurrencySlotKey kind entityID with
  | None => Ret None
  | Some key => runsFine RefreshSlotOnce [key] [AStr requestID; ttl]
  end.

(** The renewals of a batch that are sent: known kind and non-empty request id. *)
Definition renewable (batch : list ConcurrencySlotRenewal) : list (string * string) :=
  omap (fun r => match concurrencySlotKey (renewal_Kind r) (renewal_EntityID r) with
                 | Some key => if is_empty (renewal_RequestID r) then None else Some (key, renewal_RequestID r)
                 | None => None
                 end) batch.

Fixpoint refreshBatches (batches : list (list ConcurrencySlotRenewal)) : prog request (option unit) :=
  match batches with
  | [] => Ret (Some tt)
  | batch :: batches =>
    match renewable batch with
    | [] => refreshBatches batches
    | pairs =>
      let* r := Run RefreshSlotBatch (map fst pairs) (ttl :: map (fun p => AStr p.2) pairs) in
      match r with
      | None => Ret None
      | Some _ => refreshBatches batches
      end
    end
  end.

(** [for start := 0; start < len(renewals); start += batchSize]; [fuel] bounds the rounds. *)
Fixpoint inBatches (fuel size : nat) (renewals : list ConcurrencySlotRenewal) : list (list ConcurrencySlotRenewal) :=
  match fuel, renewals with
  | S fuel, _ :: _ => take size renewals :: inBatches fuel size (drop size renewals)
  | _, _ => []
  end.

Definition RefreshSlots (renewals : list ConcurrencySlotRenewal) : prog request (option unit) :=
  refreshBatches (inBatches (length renewals) 512 renewals).

Definition GetAccountConcurrency (accountID : Z) : prog request (option Z) :=
  let* r := Run GetCount [accountSlotKey accountID; liveAccountSlotKey accountID] [ttl] in
  Ret r.

(** ** Pipelines

    The commands of a pipeline are executed in order but not atomically.  [Exec] returns the
    error of the first command that failed, and a missing key ([redis.Nil]) counts as one. *)

Inductive pipe_error := NilReply | OtherFailure.

Definition firstError (e : option pipe_error) (r : bool) : option pipe_error :=
  match e with Some e => Some e | None => if r then None else Some OtherFailure end.

Definition replied {A : Type} (r : option A) : bool := match r with Some _ => true | None => false end.

(** What one entity contributes: the number of its slots and, where it is read, its wait counter. *)
Record loadReply := MkLoadReply { reply_ID : Z; reply_Slots : Z; reply_Waiting : Z }.

Definition countEntity {A : Type} (slotKey liveKey : string) (waitKey : option string) (id now : Z)
    (e : option pipe_error) (k : loadReply -> option pipe_error -> prog request A) : prog request A :=
  let* r1 := Command (ZREMRANGEBYSCORE slotKey (now - slotTTLSeconds c)) in
  let* r2 := Command (ZREMRANGEBYSCORE liveKey (now - liveLeaseTTLSeconds)) in
  let* zcard := Command (ZCARD slotKey) in
  let* live := Command (ZCARD liveKey) in
  let e := firstError (firstError (firstError (firstError e (replied r1)) (replied r2)) (replied zcard)) (replied live) in
  let slots := default 0 zcard + default 0 live in
  match waitKey with
  | None => k (MkLoadReply id slots 0) e
  | Some waitKey =>
    let* waiting := Command (GET waitKey) in
    let e := match e, waiting with
             | Some e, _ => Some e
             | None, None => Some OtherFailure
             | None, Some None => Some NilReply
             | None, Some (Some _) => None
             end in
    let count := match waiting with Some (Some s) => default 0 (ParseInt s) | _ => 0 end in
    k (MkLoadReply id slots count) e
  end.

Fixpoint countEntities (slotKey liveKey : Z -> string) (waitKey : option (Z -> string)) (ids : list Z) (now : Z)
    (acc : list loadReply) (e : option pipe_error) : prog request (option (list loadReply)) :=
  match ids with
  | [] => Ret (match e with Some OtherFailure => None | _ => Some acc end)
  | id :: ids =>
    countEntity (slotKey id) (liveKey id) (match waitKey with Some f => Some (f id) | None => None end) id now e
      (fun r e => countEntities slotKey liveKey waitKey ids now (acc ++ [r]) e)
  end.

Definition countBatch (slotKey liveKey : Z -> string) (waitKey : option (Z -> string)) (ids : list Z)
    : prog request (option (list loadReply)) :=
  let* now := Command TIME in
  match now with
  | None => Ret None
  | Some now => countEntities slotKey liveKey waitKey ids now [] None
  end.

Definition slotCounts (replies : option (list loadReply)) : option (gmap Z Z) :=
  match replies with
  | None => None
  | Some l => Some (foldl (fun m r => <[reply_ID r := reply_Slots r]> m) ∅ l)
  end.

Definition GetAccountConcurrencyBatch (accountIDs : list Z) : prog request (option (gmap Z Z)) :=
  match accountIDs with
  | [] => Ret (Some ∅)
  | _ => let! l := countBatch accountSlotKey liveAccountSlotKey None accountIDs in Ret (slotCounts l)
  end.

Definition GetAPIKeyConcurrencyBatch (apiKeyIDs : list Z) : prog request (option (gmap Z Z)) :=
  match apiKeyIDs with
  | [] => Ret (Some ∅)
  | _ => let! l := countBatch apiKeySlotKey liveAPIKeySlotKey None apiKeyIDs in Ret (slotCounts l)
  end.

Definition loadRate (current waiting maxConcurrency : Z) : Z :=
  if 0 <? maxConcurrency then wrap64 (Z.quot (wrap64 (wrap64 (current + waiting) * 100)) maxConcurrency) else 0.

Definition loadInfos (limits : list (Z * Z)) (replies : option (list loadReply)) : option (gmap Z LoadInfo) :=
  match replies with
  | None => None
  | Some l =>
    Some (foldl (fun m '((id, maxConcurrency), r) =>
        <[id := MkLoadInfo id (reply_Slots r) (reply_Waiting r)
                  (loadRate (reply_Slots r) (reply_Waiting r) maxConcurrency)]> m) ∅ (zip limits l))
  end.

(** [limits]: the ids with their maximal concurrency. *)
Definition GetAccountsLoadBatch (limits : list (Z * Z)) : prog request (option (gmap Z LoadInfo)) :=
  match limits with
  | [] => Ret (Some ∅)
  | _ =>
    let! l := countBatch accountSlotKey liveAccountSlotKey (Some accountWaitKey) (map fst limits) in
    Ret (loadInfos limits l)
  end.

Definition GetUsersLoadBatch (limits : list (Z * Z)) : prog request (option (gmap Z LoadInfo)) :=
  match limits with
  | [] => Ret (Some ∅)
  | _ =>
    let! l := countBatch userSlotKey liveUserSlotKey (Some waitQueueKey) (map fst limits) in
    Ret (loadInfos limits l)
  end.

(** ** User and API key slots *)

Definition AcquireUserSlot (userID maxConcurrency : Z) (requestID : string) : prog request (option bool) :=
  runsToOne Acquire [userSlotKey userID; liveUserSlotKey userID] [AInt maxConcurrency; ttl; AStr requestID].

Definition ReleaseUserSlot (userID : Z) (requestID : string) : prog request (option unit) :=
  commandFine (ZREM (userSlotKey userID) requestID).

Definition GetUserConcurrency (userID : Z) : prog request (option Z) :=
  let* r := Run GetCount [userSlotKey userID; liveUserSlotKey userID] [ttl] in
  Ret r.

Definition TrackAPIKeySlot (apiKeyID : Z) (requestID : string) : prog request (option unit) :=
  runsFine TrackSlot [apiKeySlotKey apiKeyID] [ttl; AStr requestID].

Definition ReleaseAPIKeySlot (apiKeyID : Z) (requestID : string) : prog request (option unit) :=
  commandFine (ZREM (apiKeySlotKey apiKeyID) requestID).

(** ** Live leases *)

Definition acquireLiveTenantLease (userID userMax apiKeyID : Z) (leaseID escrowAllocatedKey : string)
    : prog request (option bool) :=
  if ((userID <=? 0) || (apiKeyID <=? 0) || is_empty leaseID)%bool then Ret (Some false) else
  let keys := [userSlotKey userID; liveUserSlotKey userID; liveAPIKeySlotKey apiKeyID] in
  let keys := if is_empty escrowAllocatedKey then keys else keys ++ [escrowAllocatedKey] in
  runsToOne AcquireLiveTenant keys [AInt userMax; AInt liveLeaseTTLSeconds; AStr leaseID; ttl].

Definition AcquireLiveTenantLease (userID userMax apiKeyID : Z) (leaseID : string) : prog request (option bool) :=
  acquireLiveTenantLease userID userMax apiKeyID leaseID "".

Definition AcquireLiveAccountLease (accountID accountMax : Z) (leaseID : string) (replacingRegularSlot : bool)
    : prog request (option bool) :=
  if ((accountID <=? 0) || is_empty leaseID)%bool then Ret (Some false) else
  let replacing := if replacingRegularSlot then 1 else 0 in
  runsToOne AcquireLiveAccount [accountSlotKey accountID; liveAccountSlotKey accountID]
    [AInt accountMax; AInt liveLeaseTTLSeconds; AStr leaseID; AInt replacing; ttl].

Definition RefreshLiveTenantLease (userID apiKeyID : Z) (leaseID : string) : prog request (option bool) :=
  if is_empty leaseID then Ret (Some false) else
  runsToOne RefreshLiveLease [liveUserSlotKey userID; liveAPIKeySlotKey apiKeyID]
    [AInt liveLeaseTTLSeconds; AStr leaseID].

Definition RefreshLiveAccountLease (accountID : Z) (leaseID : string) : prog request (option bool) :=
  if is_empty leaseID then Ret (Some false) else
  runsToOne RefreshLiveLease [liveAccountSlotKey accountID] [AInt liveLeaseTTLSeconds; AStr leaseID].

Definition ReleaseLiveTenantLease (userID apiKeyID : Z) (leaseID : string) : prog request (option unit) :=
  if is_empty leaseID then Ret (Some tt) else
  let* r := Transaction [ZREM (liveUserSlotKey userID) leaseID; ZREM (liveAPIKeySlotKey apiKeyID) leaseID] in
  Ret r.

Definition ReleaseLiveAccountLease (accountID : Z) (leaseID : string) : prog request (option unit) :=
  if is_empty leaseID then Ret (Some tt) else commandFine (ZREM (liveAccountSlotKey accountID) leaseID).

(** ** Wait counters *)

Definition IncrementWaitCount (userID maxWait : Z) : prog request (option bool) :=
  runsToOne IncrementWait [waitQueueKey userID] [AInt maxWait; AInt (waitQueueTTLSeconds c)].

Definition DecrementWaitCount (userID : Z) : prog request (option unit) :=
  runsFine DecrementWait [waitQueueKey userID] [].

Definition IncrementAccountWaitCount (accountID maxWait : Z) : prog request (option bool) :=
  runsToOne IncrementAccountWait [accountWaitKey accountID] [AInt maxWait; AInt (waitQueueTTLSeconds c)].

Definition DecrementAccountWaitCount (accountID : Z) : prog request (option unit) :=
  runsFine DecrementWait [accountWaitKey accountID] [].

Definition GetAccountWaitingCount (accountID : Z) : prog request (option Z) :=
  let* r := Command (GET (accountWaitKey accountID)) in
  Ret (match r with
       | None => None
       | Some None => Some 0
       | Some (Some s) => ParseInt s
       end).

(** ** Cooldowns *)

(** [ttl.Milliseconds()], at least one. *)
Definition ttlMillis (ttl : Z) : Z :=
  let ms := Z.quot ttl 1000000 in if ms <=? 0 then 1 else ms.

Definition SetAccountCooldownGeneration (accountID ttl generation : Z) : prog request (option unit) :=
  if ((accountID <=? 0) || (ttl <=? 0) || (generation <? 0))%bool then Ret (Some tt) else
  runsFine SetOwnedCooldown [accountRuntimeCooldownKey accountID; accountCooldownKey accountID]
    [AInt generation; AInt (ttlMillis ttl); AStr ""].

Definition SetAccountCooldown (accountID ttl : Z) : prog request (option unit) :=
  if ((accountID <=? 0) || (ttl <=? 0))%bool then Ret (Some tt) else
  SetAccountCooldownGeneration accountID ttl 0.

Definition runtimeCooldownKeys (accountID : Z) : list string :=
  [accountRuntimeCooldownKey accountID; accountCooldownKey accountID; openAIPoolCooldownKey accountID].

Definition poolCooldownKeys (accountID : Z) : list string :=
  [openAIPoolCooldownKey accountID; accountCooldownKey accountID; accountRuntimeCooldownKey accountID].

Definition ClearAccountCooldown (accountID : Z) : prog request (option unit) :=
  if accountID <=? 0 then Ret (Some tt) else
  runsFine ClearOwnedCooldown (runtimeCooldownKeys accountID) [AInt 0; AStr ""; AStr "p:"].

Definition ClearAccountCooldownBeforeGeneration (accountID generation : Z) : prog request (option unit) :=
  if ((accountID <=? 0) || (generation <=? 0))%bool then Ret (Some tt) else
  runsFine ClearOwnedCooldown (runtimeCooldownKeys accountID) [AInt generation; AStr ""; AStr "p:"].

Definition SetOpenAIPoolCooldownGeneration (accountID ttl generation : Z) : prog request (option unit) :=
  if ((accountID <=? 0) || (ttl <=? 0) || (generation <? 0))%bool then Ret (Some tt) else
  runsFine SetOwnedCooldown [openAIPoolCooldownKey accountID; accountCooldownKey accountID]
    [AInt generation; AInt (ttlMillis ttl); AStr "p:"].

Definition ClearOpenAIPoolCooldown (accountID : Z) : prog request (option unit) :=
  if accountID <=? 0 then Ret (Some tt) else
  runsFine ClearOwnedCooldown (poolCooldownKeys accountID) [AInt 0; AStr "p:"; AStr ""].

Definition ClearOpenAIPoolCooldownBeforeGeneration (accountID generation : Z) : prog request (option unit) :=
  if ((accountID <=? 0) || (generation <=? 0))%bool then Ret (Some tt) else
  runsFine ClearOwnedCooldown (poolCooldownKeys accountID) [AInt generation; AStr "p:"; AStr ""].

Definition parseCooldownGeneration (value : string) : Z :=
  let value := if ((2 <=? strlen value) && ((str_take 2 value =s "r:") || (str_take 2 value =s "p:")))%bool
               then str_drop 2 value else value in
  if ((2 <? strlen value) && (str_take 2 value =s "g:"))%bool
  then default 0 (ParseInt (str_drop 2 value)) else 0.

(** [time.Now().Add(ttl)] and the generation of a marker that is there. *)
Definition readCooldown (key : string) : prog request (option (option (Z * Z))) :=
  let* value := Command (GET key) in
  match value with
  | None => Ret None
  | Some None => Ret (Some None)
  | Some (Some value) =>
    let* ms := Command (PTTL key) in
    match ms with
    | None => Ret None
    | Some ms =>
      if ms <=? 0 then Ret (Some None) else
      let* now := Clock in
      Ret (Some (Some (wrap64 (default 0 now + ms * 1000000), parseCooldownGeneration value)))
    end
  end.

Definition GetAccountCooldown (accountID : Z) : prog request (option (option (Z * Z))) :=
  if accountID <=? 0 then Ret (Some None) else readCooldown (accountCooldownKey accountID).

Definition GetOpenAIPoolCooldown (accountID : Z) : prog request (option (option (Z * Z))) :=
  if accountID <=? 0 then Ret (Some None) else readCooldown (openAIPoolCooldownKey accountID).

(** ** Cleanup *)

Definition CleanupExpiredAccountSlots (accountID : Z) : prog request (option unit) :=
  runsFine CleanupExpiredSlots [accountSlotKey accountID] [ttl].

(** The SCAN loop runs until the cursor is 0 again; [fuel] bounds the number of pages. *)
Fixpoint cleanupPages (fuel : nat) (cursor : Z) (pattern : string) : prog request (option unit) :=
  match fuel with
  | O => Ret None
  | S fuel =>
    let* page := Scan cursor pattern 200 in
    match page with
    | None => Ret None
    | Some (keys, nextCursor) =>
      let next := if nextCursor =? 0 then Ret (Some tt) else cleanupPages fuel nextCursor pattern in
      match keys with
      | [] => next
      | _ =>
        let* r := Run CleanupExpiredSlotKeys keys [ttl] in
        match r with None => Ret None | Some _ => next end
      end
    end
  end.

Definition cleanupExpiredSlotKeysByPattern (fuel : nat) (pattern : string) : prog request (option unit) :=
  cleanupPages fuel 0 pattern.

Definition CleanupExpiredAccountSlotKeys (fuel : nat) : prog request (option unit) :=
  cleanupExpiredSlotKeysByPattern fuel (accountSlotKeyPrefix +:+ "*").

Fixpoint cleanupPatterns (fuel : nat) (patterns : list string) : prog request (option unit) :=
  match patterns with
  | [] => Ret (Some tt)
  | pattern :: patterns =>
    let! r := cleanupExpiredSlotKeysByPattern fuel pattern in
    match r with None => Ret None | Some _ => cleanupPatterns fuel patterns end
  end.

Definition CleanupStaleProcessSlots (fuel : nat) (activeRequestPrefix : string) : prog request (option unit) :=
  cleanupPatterns fuel
    [accountSlotKeyPrefix +:+ "*"; userSlotKeyPrefix +:+ "*"; apiKeySlotKeyPrefix +:+ "*"].
End Methods.
