(* ===== verification/ConcurrencyScriptsProofs.v ===== *)
(** * What the concurrency scripts do to the slots that count

    Only the members of a sorted set that are younger than its lifetime count as slots.
    [active] is that view; a script is characterised by what it returns and by what it does to
    the view, and it never fails on a well-formed keyspace ([yields] is total). *)

From Stdlib Require Import Ascii.
From stdpp Require Import pretty.
From S2P Require Import Prelude GoStrings GoStringsFacts Redis ConcurrencyScripts ConcurrencyCache.

Open Scope Z_scope.

(** ** Kinds of keys *)

Definition regular (key : string) : bool :=
  HasPrefix key accountSlotKeyPrefix || HasPrefix key userSlotKeyPrefix || HasPrefix key apiKeySlotKeyPrefix.

Definition live (key : string) : bool :=
  HasPrefix key liveAccountSlotKeyPrefix || HasPrefix key liveUserSlotKeyPrefix
  || HasPrefix key liveAPIKeySlotKeyPrefix.

Definition textual (key : string) : bool :=
  HasPrefix key waitQueueKeyPrefix || HasPrefix key accountWaitKeyPrefix || HasPrefix key "cooldown:".

(** How long a member of a set counts, in seconds. *)
Definition lifetime (ttl : Z) (key : string) : option Z :=
  if regular key then Some ttl else if live key then Some 60 else None.

(** Two prefixes of which none is a prefix of the other have no common extension. *)
Lemma prefixes_clash p q s :
  HasPrefix p q = false -> HasPrefix q p = false -> HasPrefix s p = true -> HasPrefix s q = false.
Proof.
  unfold HasPrefix. intros Hpq Hqp Hp. destruct (String.prefix q s) eqn:Hq; [exfalso|done].
  revert p q Hpq Hqp Hp Hq. induction s as [|a s IH]; intros [|b p] [|d q]; cbn; try done.
  destruct (ascii_dec b d), (ascii_dec d b), (ascii_dec b a), (ascii_dec d a); subst; try done. apply IH.
Qed.

Lemma HasPrefix_cooldown key :
  HasPrefix key "cooldown:account:" = true \/ HasPrefix key "cooldown:account_runtime:" = true \/
  HasPrefix key "cooldown:openai_pool:" = true -> HasPrefix key "cooldown:" = true.
Proof.
  intros [H|[H|H]]; apply HasPrefix_true_iff in H as [r ->]; apply HasPrefix_true_iff; by eexists.
Qed.

Lemma lifetime_not_textual ttl key T : lifetime ttl key = Some T -> textual key = false.
Proof.
  unfold lifetime, regular, live, textual. intros H.
  assert (exists p, HasPrefix key p = true /\
    HasPrefix p waitQueueKeyPrefix = false /\ HasPrefix waitQueueKeyPrefix p = false /\
    HasPrefix p accountWaitKeyPrefix = false /\ HasPrefix accountWaitKeyPrefix p = false /\
    HasPrefix p "cooldown:" = false /\ HasPrefix "cooldown:" p = false)
    as (p & Hp & ? & ? & ? & ? & ? & ?).
  { destruct (HasPrefix key accountSlotKeyPrefix) eqn:E1; [by eexists|].
    destruct (HasPrefix key userSlotKeyPrefix) eqn:E2; [by eexists|].
    destruct (HasPrefix key apiKeySlotKeyPrefix) eqn:E3; [by eexists|].
    destruct (HasPrefix key liveAccountSlotKeyPrefix) eqn:E4; [by eexists|].
    destruct (HasPrefix key liveUserSlotKeyPrefix) eqn:E5; [by eexists|].
    destruct (HasPrefix key liveAPIKeySlotKeyPrefix) eqn:E6; [by eexists|]. done. }
  by rewrite !(prefixes_clash p _ key) by done.
Qed.

Lemma live_not_regular key : live key = true -> regular key = false.
Proof.
  unfold live, regular. intros H.
  assert (exists p, HasPrefix key p = true /\
    HasPrefix p accountSlotKeyPrefix = false /\ HasPrefix accountSlotKeyPrefix p = false /\
    HasPrefix p userSlotKeyPrefix = false /\ HasPrefix userSlotKeyPrefix p = false /\
    HasPrefix p apiKeySlotKeyPrefix = false /\ HasPrefix apiKeySlotKeyPrefix p = false)
    as (p & Hp & ? & ? & ? & ? & ? & ?).
  { destruct (HasPrefix key liveAccountSlotKeyPrefix) eqn:E4; [by eexists|].
    destruct (HasPrefix key liveUserSlotKeyPrefix) eqn:E5; [by eexists|].
    destruct (HasPrefix key liveAPIKeySlotKeyPrefix) eqn:E6; [by eexists|]. done. }
  by rewrite !(prefixes_clash p _ key) by done.
Qed.

Lemma lifetime_regular ttl key : regular key = true -> lifetime ttl key = Some ttl.
Proof. unfold lifetime. by intros ->. Qed.

Lemma lifetime_live ttl key : live key = true -> lifetime ttl key = Some 60.
Proof. unfold lifetime. intros H. by rewrite (live_not_regular key H), H. Qed.

Lemma regular_account id : regular (accountSlotKey id) = true.
Proof. unfold regular, accountSlotKey. by rewrite HasPrefix_app. Qed.

Lemma regular_user id : regular (userSlotKey id) = true.
Proof. unfold regular, userSlotKey. by rewrite HasPrefix_app, orb_true_r. Qed.

Lemma regular_api_key id : regular (apiKeySlotKey id) = true.
Proof. unfold regular, apiKeySlotKey. by rewrite HasPrefix_app, orb_true_r. Qed.

Lemma live_account id : live (liveAccountSlotKey id) = true.
Proof. unfold live, liveAccountSlotKey. by rewrite HasPrefix_app. Qed.

Lemma live_user id : live (liveUserSlotKey id) = true.
Proof. unfold live, liveUserSlotKey. by rewrite HasPrefix_app, orb_true_r. Qed.

Lemma live_api_key id : live (liveAPIKeySlotKey id) = true.
Proof. unfold live, liveAPIKeySlotKey. by rewrite HasPrefix_app, orb_true_r. Qed.

Lemma textual_wait id : textual (waitQueueKey id) = true.
Proof. unfold textual, waitQueueKey. by rewrite HasPrefix_app. Qed.

Lemma textual_account_wait id : textual (accountWaitKey id) = true.
Proof. unfold textual, accountWaitKey. by rewrite HasPrefix_app, orb_true_r. Qed.

Lemma textual_cooldown id : textual (accountCooldownKey id) = true.
Proof.
  unfold textual. rewrite HasPrefix_cooldown, orb_true_r; [done|]. left. apply HasPrefix_app.
Qed.

Lemma textual_runtime id : textual (accountRuntimeCooldownKey id) = true.
Proof.
  unfold textual. rewrite HasPrefix_cooldown, orb_true_r; [done|]. right; left. apply HasPrefix_app.
Qed.

Lemma textual_pool id : textual (openAIPoolCooldownKey id) = true.
Proof.
  unfold textual. rewrite HasPrefix_cooldown, orb_true_r; [done|]. right; right. apply HasPrefix_app.
Qed.

Create HintDb keys.
#[export] Hint Resolve regular_account regular_user regular_api_key live_account live_user live_api_key
  textual_wait textual_account_wait textual_cooldown textual_runtime textual_pool
  lifetime_regular lifetime_live : keys.

(** ** The view of the slots *)

Definition slots (ks : keyspace) (key : string) : gmap string Z :=
  match ks !! key with Some (RZset z, _) => z | _ => ∅ end.

(** The members of a set of lifetime [T] that still count. *)
Definition active (T now : Z) (ks : keyspace) (key : string) : gmap string Z :=
  above (now / 1000 - T) (slots ks key).

Lemma above_lookup low z m sc : above low z !! m = Some sc <-> z !! m = Some sc /\ low < sc.
Proof. exact (map_lookup_filter_Some _ _ _ _). Qed.

Lemma above_above low high z : low <= high -> above high (above low z) = above high z.
Proof.
  intros Hle. apply map_eq. intros m. apply option_eq. intros sc. rewrite !above_lookup.
  split; [tauto|]. intros [? ?]. repeat split; [done|lia|done].
Qed.

Lemma above_insert low z m sc : low < sc -> above low (<[m := sc]> z) = <[m := sc]> (above low z).
Proof. intros H. unfold above. by rewrite map_filter_insert_True. Qed.

Lemma above_delete low z m : above low (delete m z) = delete m (above low z).
Proof. unfold above. by rewrite map_filter_delete. Qed.

Lemma above_stale low z m : above low z !! m = None -> above low (delete m z) = above low z.
Proof. intros H. rewrite above_delete. by apply delete_id. Qed.

Lemma above_empty low : above low ∅ = ∅.
Proof. unfold above. apply map_filter_empty. Qed.

Lemma zsize_insert_le z m sc : zsize (<[m := sc]> z) <= zsize z + 1.
Proof.
  unfold zsize. destruct (z !! m) as [x|] eqn:E.
  - rewrite map_size_insert_Some by (by eexists). lia.
  - rewrite map_size_insert_None by done. lia.
Qed.

Lemma zsize_insert_held z m sc : is_Some (z !! m) -> zsize (<[m := sc]> z) = zsize z.
Proof. intros H. unfold zsize. by rewrite map_size_insert_Some. Qed.

Lemma zsize_delete_le z m : zsize (delete m z) <= zsize z.
Proof.
  unfold zsize. destruct (z !! m) as [x|] eqn:E.
  - rewrite map_size_delete_Some by (by eexists). lia.
  - rewrite map_size_delete_None by done. lia.
Qed.

Lemma zsize_above_le low z : zsize (above low z) <= zsize z.
Proof.
  unfold zsize, above. apply inj_le. apply map_subseteq_size, map_filter_subseteq.
Qed.

(** ** Well-formed keyspaces

    Sets and strings are where they belong, no score lies in the future, and no key expires
    before a member of its set does. *)

Record set_ok (T now : Z) (ks : keyspace) (key : string) : Prop := {
  ok_type : forall s d, ks !! key <> Some (RString s, d);
  ok_past : forall m sc, slots ks key !! m = Some sc -> sc <= now / 1000;
  ok_deadline : forall z d, ks !! key = Some (RZset z, Some d) ->
    forall m sc, z !! m = Some sc -> (sc + T) * 1000 <= d
}.

Record wf (ttl now : Z) (ks : keyspace) : Prop := {
  wf_sets : forall key T, lifetime ttl key = Some T -> set_ok T now ks key;
  wf_texts : forall key z d, textual key = true -> ks !! key <> Some (RZset z, d)
}.

Lemma wf_empty ttl now : wf ttl now ∅.
Proof.
  split; [|done]. intros key T _. split; [done| |done]. by intros m sc E.
Qed.

Lemma slots_set_ok T now ks key : set_ok T now ks key -> exists d, zset_of ks key = Some (slots ks key, d).
Proof.
  intros [Ht _ _]. unfold zset_of, slots. destruct (ks !! key) as [[[s|z] d]|] eqn:E;
    [by edestruct Ht|by eexists..].
Qed.

Lemma slots_put key z d ks key' :
  slots (put_zset key z d ks) key' = if decide (key' = key) then z else slots ks key'.
Proof.
  unfold slots, put_zset. case_decide as Hz; case_decide as Hk; subst.
  - by rewrite lookup_delete_eq.
  - by rewrite lookup_delete_ne.
  - by rewrite lookup_insert_eq.
  - by rewrite lookup_insert_ne.
Qed.

Lemma put_zset_ne key z d ks key' : key' <> key -> put_zset key z d ks !! key' = ks !! key'.
Proof.
  intros Hk. unfold put_zset. case_decide; [by rewrite lookup_delete_ne|by rewrite lookup_insert_ne].
Qed.

(** Changing the set under one key of sets. *)
Lemma wf_change ttl now ks ks' key :
  wf ttl now ks -> textual key = false -> (forall T, lifetime ttl key = Some T -> set_ok T now ks' key) ->
  (forall key', key' <> key -> ks' !! key' = ks !! key') -> wf ttl now ks'.
Proof.
  intros [Hs Ht] Hk Hok Hne. split.
  - intros key' T HT. destruct (decide (key' = key)) as [->|Hd]; [by apply Hok|].
    destruct (Hs key' T HT) as [A B C]. pose proof (Hne key' Hd) as E.
    split; unfold slots in *; intros *; rewrite E; eauto.
  - intros key' z d Htx. destruct (decide (key' = key)) as [->|Hd]; [congruence|]. rewrite Hne by done. eauto.
Qed.

(** ** What a step does *)

(** Nothing that counts changes. *)
Record silent (ttl now : Z) (ks ks' : keyspace) : Prop := {
  silent_wf : wf ttl now ks';
  silent_active : forall key T, lifetime ttl key = Some T -> active T now ks' key = active T now ks key;
  silent_texts : forall key, textual key = true -> ks' !! key = ks !! key
}.

(** A member is given the current second under one key. *)
Record granted (ttl now : Z) (key m : string) (ks ks' : keyspace) : Prop := {
  granted_wf : wf ttl now ks';
  granted_active : forall key' T, lifetime ttl key' = Some T ->
    active T now ks' key' =
      if decide (key' = key) then <[m := now / 1000]> (active T now ks key') else active T now ks key';
  granted_texts : forall key', textual key' = true -> ks' !! key' = ks !! key'
}.

(** A member is taken out of one key. *)
Record released (ttl now : Z) (key m : string) (ks ks' : keyspace) : Prop := {
  released_wf : wf ttl now ks';
  released_active : forall key' T, lifetime ttl key' = Some T ->
    active T now ks' key' =
      if decide (key' = key) then delete m (active T now ks key') else active T now ks key';
  released_texts : forall key', textual key' = true -> ks' !! key' = ks !! key'
}.

Lemma silent_refl ttl now ks : wf ttl now ks -> silent ttl now ks ks.
Proof. by split. Qed.

Lemma silent_trans ttl now ks1 ks2 ks3 :
  silent ttl now ks1 ks2 -> silent ttl now ks2 ks3 -> silent ttl now ks1 ks3.
Proof.
  intros [A1 B1 C1] [A2 B2 C2]. split; [done| |].
  - intros key T HT. by rewrite B2, B1.
  - intros key Hk. by rewrite C2, C1.
Qed.

Lemma silent_granted ttl now key m ks1 ks2 ks3 :
  silent ttl now ks1 ks2 -> granted ttl now key m ks2 ks3 -> granted ttl now key m ks1 ks3.
Proof.
  intros [A1 B1 C1] [A2 B2 C2]. split; [done| |].
  - intros key' T HT. rewrite B2, B1 by done. done.
  - intros key' Hk. by rewrite C2, C1.
Qed.

Lemma granted_silent ttl now key m ks1 ks2 ks3 :
  granted ttl now key m ks1 ks2 -> silent ttl now ks2 ks3 -> granted ttl now key m ks1 ks3.
Proof.
  intros [A1 B1 C1] [A2 B2 C2]. split; [done| |].
  - intros key' T HT. by rewrite B2, B1.
  - intros key' Hk. by rewrite C2, C1.
Qed.

Lemma silent_released ttl now key m ks1 ks2 ks3 :
  silent ttl now ks1 ks2 -> released ttl now key m ks2 ks3 -> released ttl now key m ks1 ks3.
Proof.
  intros [A1 B1 C1] [A2 B2 C2]. split; [done| |].
  - intros key' T HT. rewrite B2, B1 by done. done.
  - intros key' Hk. by rewrite C2, C1.
Qed.

(** Taking back a slot that was just given to a member without one is no change. *)
Lemma granted_released ttl now key m ks1 ks2 ks3 :
  (forall T, lifetime ttl key = Some T -> active T now ks1 key !! m = None) ->
  granted ttl now key m ks1 ks2 -> released ttl now key m ks2 ks3 -> silent ttl now ks1 ks3.
Proof.
  intros Hm [A1 B1 C1] [A2 B2 C2]. split; [done| |].
  - intros key' T HT. rewrite B2, B1 by done. case_decide; [subst|done].
    apply delete_insert_id. by apply Hm.
  - intros key' Hk. by rewrite C2, C1.
Qed.

(** ** Rules *)

Definition yields {A : Type} (p : lua A) (now : Z) (ks : keyspace) (Q : A -> keyspace -> Prop) : Prop :=
  exists a ks', script p now ks = (Some a, ks') /\ Q a ks'.

Section Rules.
Context (ttl now : Z).

Local Notation second := (now / 1000).

Lemma yields_done {A : Type} (a : A) ks (Q : A -> keyspace -> Prop) : Q a ks -> yields (Done a) now ks Q.
Proof. intros H. by exists a, ks. Qed.

Lemma yields_bind {A B : Type} (f : A -> lua B) p ks Q (R : A -> keyspace -> Prop) :
  yields p now ks R -> (forall a ks', R a ks' -> yields (f a) now ks' Q) -> yields (lua_bind f p) now ks Q.
Proof.
  intros (a & ks' & E & HR) Hf. destruct (Hf a ks' HR) as (b & ks2 & E2 & HQ).
  exists b, ks2. by rewrite script_bind, E.
Qed.

Lemma yields_mono {A : Type} (p : lua A) ks (Q R : A -> keyspace -> Prop) :
  yields p now ks Q -> (forall a ks', Q a ks' -> R a ks') -> yields p now ks R.
Proof. intros (a & ks' & E & HQ) H. exists a, ks'. split; [done|by apply H]. Qed.

Lemma yields_call {A R : Type} (c : rcmd R) (k : R -> lua A) ks r ks' Q :
  documented c now ks = (Some r, ks') -> yields (k r) now ks' Q -> yields (Call c k) now ks Q.
Proof. intros E (a & ks2 & E2 & HQ). exists a, ks2. cbn [script]. by rewrite E. Qed.

Lemma yields_time {A : Type} (k : Z -> lua A) ks Q : yields (k second) now ks Q -> yields (Call TIME k) now ks Q.
Proof. by apply yields_call. Qed.

Lemma yields_zscore {A : Type} key T m (k : option Z -> lua A) ks Q :
  set_ok T now ks key -> yields (k (slots ks key !! m)) now ks Q -> yields (Call (ZSCORE key m) k) now ks Q.
Proof.
  intros Hok Hk. destruct (slots_set_ok _ _ _ _ Hok) as [d E]. eapply yields_call; [|done].
  cbn. by rewrite E.
Qed.

Lemma yields_zcard {A : Type} key T (k : Z -> lua A) ks Q :
  set_ok T now ks key -> yields (k (zsize (slots ks key))) now ks Q -> yields (Call (ZCARD key) k) now ks Q.
Proof.
  intros Hok Hk. destruct (slots_set_ok _ _ _ _ Hok) as [d E]. eapply yields_call; [|done].
  cbn. by rewrite E.
Qed.

Lemma yields_zcount {A : Type} key T low (k : Z -> lua A) ks Q :
  set_ok T now ks key -> yields (k (zsize (above low (slots ks key)))) now ks Q ->
  yields (Call (ZCOUNT_above key low) k) now ks Q.
Proof.
  intros Hok Hk. destruct (slots_set_ok _ _ _ _ Hok) as [d E]. eapply yields_call; [|done].
  cbn. by rewrite E.
Qed.

(** Narrowing the set under a key keeps the keyspace well formed. *)
Lemma narrowed T ks key z z' d :
  wf ttl now ks -> lifetime ttl key = Some T -> zset_of ks key = Some (z, d) -> z' ⊆ z ->
  wf ttl now (put_zset key z' d ks).
Proof.
  intros Hwf HT E Hsub. eapply (wf_change _ _ _ _ key Hwf);
    [by eapply lifetime_not_textual| |intros ? ?; by apply put_zset_ne].
  intros T' HT'. rewrite HT in HT'. simplify_eq. destruct (wf_sets _ _ _ Hwf key T' HT) as [A B C].
  assert (Hz : slots ks key = z).
  { unfold slots, zset_of in *. by destruct (ks !! key) as [[[]]|]; simplify_eq. }
  split.
  - intros s d'. unfold put_zset. case_decide; [by rewrite lookup_delete_eq|by rewrite lookup_insert_eq].
  - intros m sc. rewrite slots_put, decide_True by done. intros Hm. apply (B m). rewrite Hz.
    by eapply lookup_weaken.
  - intros z0 d0. unfold put_zset. case_decide; [by rewrite lookup_delete_eq|].
    rewrite lookup_insert_eq. intros E0 m sc Hm. simplify_eq.
    assert (ks !! key = Some (RZset (slots ks key), Some d0)) as E1.
    { unfold zset_of, slots in *. destruct (ks !! key) as [[[s|z1] d1]|]; simplify_eq. done. }
    eapply C; [exact E1|]. by eapply lookup_weaken.
Qed.

Lemma yields_sweep {A : Type} key T cutoff (k : Z -> lua A) ks Q :
  wf ttl now ks -> lifetime ttl key = Some T -> cutoff = second - T ->
  (forall n ks', silent ttl now ks ks' ->
    (forall key', slots ks' key' = if decide (key' = key) then active T now ks key else slots ks key') ->
    yields (k n) now ks' Q) ->
  yields (Call (ZREMRANGEBYSCORE key cutoff) k) now ks Q.
Proof.
  intros Hwf HT -> Hk. destruct (slots_set_ok _ _ _ _ (wf_sets _ _ _ Hwf key T HT)) as [d E].
  eapply yields_call; [cbn; by rewrite E|]. apply Hk; [split|].
  - eapply narrowed; [done..|]. apply map_filter_subseteq.
  - intros key' T' HT'. unfold active. rewrite slots_put. case_decide; [|done]. simplify_eq.
    by apply above_above.
  - intros key' Htx. apply put_zset_ne. intros ->. by rewrite (lifetime_not_textual _ _ _ HT) in Htx.
  - intros key'. by rewrite slots_put.
Qed.

Lemma yields_zrem {A : Type} key T m (k : Z -> lua A) ks Q :
  wf ttl now ks -> lifetime ttl key = Some T ->
  (forall n ks', released ttl now key m ks ks' ->
    (forall key', slots ks' key' = if decide (key' = key) then delete m (slots ks key) else slots ks key') ->
    yields (k n) now ks' Q) ->
  yields (Call (ZREM key m) k) now ks Q.
Proof.
  intros Hwf HT Hk. destruct (slots_set_ok _ _ _ _ (wf_sets _ _ _ Hwf key T HT)) as [d E].
  eapply yields_call; [cbn; by rewrite E|]. apply Hk; [split|].
  - eapply narrowed; [done..|]. apply delete_subseteq.
  - intros key' T' HT'. unfold active. rewrite slots_put. case_decide; [|done]. subst. apply above_delete.
  - intros key' Htx. apply put_zset_ne. intros ->. by rewrite (lifetime_not_textual _ _ _ HT) in Htx.
  - intros key'. by rewrite slots_put.
Qed.

Lemma released_stale key T m ks ks' :
  lifetime ttl key = Some T -> active T now ks key !! m = None ->
  released ttl now key m ks ks' -> silent ttl now ks ks'.
Proof.
  intros HT Hm [A B C]. split; [done| |done]. intros key' T' HT'. rewrite B by done.
  case_decide; [|done]. simplify_eq. by apply delete_id.
Qed.

(** [ZADD] and [EXPIRE] together. *)
Lemma yields_touch {A : Type} key T m (p : lua A) ks Q :
  0 < T -> wf ttl now ks -> lifetime ttl key = Some T ->
  (forall ks', granted ttl now key m ks ks' ->
    (forall key', slots ks' key' = if decide (key' = key) then <[m := second]> (slots ks key) else slots ks key') ->
    yields p now ks' Q) ->
  yields (touch key second T m p) now ks Q.
Proof.
  intros Hpos Hwf HT Hk. pose proof (wf_sets _ _ _ Hwf key T HT) as Hok.
  destruct (slots_set_ok _ _ _ _ Hok) as [d E]. unfold touch.
  eapply yields_call; [cbn; by rewrite E|].
  set (z := <[m := second]> (slots ks key)).
  assert (Hz : z <> ∅) by apply insert_non_empty.
  assert (Eput : put_zset key z d ks = <[key := (RZset z, d)]> ks) by (unfold put_zset; by rewrite decide_False).
  eapply yields_call.
  { cbn [documented]. unfold set_deadline. rewrite Eput, lookup_insert_eq.
    rewrite (proj2 (Z.leb_gt _ _)) by lia. cbn [fst snd]. by rewrite insert_insert_eq. }
  set (ks' := <[key := (RZset z, Some (now + T * 1000))]> ks).
  assert (Hsl : forall key', slots ks' key' = if decide (key' = key) then z else slots ks key').
  { intros key'. unfold slots, ks'. case_decide; [subst; by rewrite lookup_insert_eq|by rewrite lookup_insert_ne]. }
  assert (Hpast : forall m' sc, z !! m' = Some sc -> sc <= second).
  { intros m' sc Hm. apply lookup_insert_Some in Hm as [[_ <-]|[_ Hm]]; [done|]. by eapply ok_past. }
  apply Hk; [split|done].
  - eapply (wf_change _ _ _ _ key Hwf); [by eapply lifetime_not_textual| |].
    2: { intros key' Hne. unfold ks'. by rewrite lookup_insert_ne. }
    intros T' HT'. simplify_eq. split.
    + intros s d'. unfold ks'. by rewrite lookup_insert_eq.
    + intros m' sc. rewrite Hsl, decide_True by done. apply Hpast.
    + intros z0 d0. unfold ks'. rewrite lookup_insert_eq. intros E0 m' sc Hm. simplify_eq.
      apply Hpast in Hm. pose proof (Z.mul_div_le now 1000 ltac:(lia)). lia.
  - intros key' T' HT'. unfold active. rewrite Hsl. case_decide; [|done]. simplify_eq.
    apply above_insert. lia.
  - intros key' Htx. unfold ks'. rewrite lookup_insert_ne; [done|]. intros ->.
    by rewrite (lifetime_not_textual _ _ _ HT) in Htx.
Qed.

(** Loops: an invariant is kept by rounds that go on. *)
Lemma yields_for {I A : Type} (body : I -> lua (option A)) (l : list I) rest ks (Q : A -> keyspace -> Prop)
    (Inv : list I -> keyspace -> Prop) :
  Inv [] ks ->
  (forall done i ks', done ++ [i] `prefix_of` l -> Inv done ks' ->
    yields (body i) now ks' (fun r ks2 => match r with Some a => Q a ks2 | None => Inv (done ++ [i]) ks2 end)) ->
  (forall ks', Inv l ks' -> yields rest now ks' Q) ->
  yields (lua_for body l rest) now ks Q.
Proof.
  intros H0 Hbody Hrest.
  assert (forall todo done ks', done ++ todo = l -> Inv done ks' -> yields (lua_for body todo rest) now ks' Q)
    as Hgo; [|by apply (Hgo l [])].
  induction todo as [|i todo IH]; intros done ks' E HI; cbn [lua_for].
  - apply Hrest. by rewrite <- E, app_nil_r.
  - eapply yields_bind.
    { apply (Hbody done); [|done]. rewrite <- E. exists todo. by rewrite <- (assoc_L (++)). }
    intros [a|] ks2 H; [by apply yields_done|]. apply (IH (done ++ [i])); [|done].
    by rewrite <- (assoc_L (++)).
Qed.
End Rules.

(** ** Candidates *)

(** One of the account's three cooldown markers is there. *)
Definition cooling (ks : keyspace) (accountID : Z) : bool :=
  bool_decide (is_Some (ks !! accountCooldownKey accountID)) ||
  bool_decide (is_Some (ks !! openAIPoolCooldownKey accountID)) ||
  bool_decide (is_Some (ks !! accountRuntimeCooldownKey accountID)).

(** Slots in use: requests and live leases that count. *)
Definition inUse (ttl now : Z) (ks : keyspace) (key liveKey : string) : Z :=
  zsize (active ttl now ks key) + zsize (active 60 now ks liveKey).

(** The account can take the request: it is not cooling down, and it is unlimited, already
    serves the request or has a free slot. *)
Definition admissible (ttl now : Z) (ks : keyspace) (accountID maxConcurrency : Z) (requestID : string) : bool :=
  negb (cooling ks accountID) &&
  ((maxConcurrency <=? 0) ||
   bool_decide (is_Some (active ttl now ks (accountSlotKey accountID) !! requestID)) ||
   (inUse ttl now ks (accountSlotKey accountID) (liveAccountSlotKey accountID) <? maxConcurrency)).

(** What claiming the account does. *)
Definition claimed (ttl now accountID maxConcurrency : Z) (requestID : string) (ks ks' : keyspace) : Prop :=
  if maxConcurrency <=? 0 then silent ttl now ks ks'
  else granted ttl now (accountSlotKey accountID) requestID ks ks'.

Lemma exists_cooling ks accountID :
  (Z.of_nat (length (filter (fun k => is_Some (ks !! k))
     [accountCooldownKey accountID; openAIPoolCooldownKey accountID; accountRuntimeCooldownKey accountID]))
   =? 0) = negb (cooling ks accountID).
Proof. unfold cooling. rewrite !filter_cons. by repeat case_decide; repeat (case_bool_decide; try done). Qed.

Section Candidates.
Context (ttl now : Z) (Httl : 0 < ttl).

Lemma silent_cooling ks ks' accountID : silent ttl now ks ks' -> cooling ks' accountID = cooling ks accountID.
Proof. intros [_ _ C]. unfold cooling. by rewrite !C by auto with keys. Qed.

Lemma silent_inUse ks ks' key liveKey :
  silent ttl now ks ks' -> regular key = true -> live liveKey = true ->
  inUse ttl now ks' key liveKey = inUse ttl now ks key liveKey.
Proof. intros [_ B _] Hr Hl. unfold inUse. by rewrite !B by auto with keys. Qed.

Lemma silent_admissible ks ks' accountID max r :
  silent ttl now ks ks' -> admissible ttl now ks' accountID max r = admissible ttl now ks accountID max r.
Proof.
  intros Hs. unfold admissible. rewrite (silent_cooling _ _ _ Hs), (silent_inUse _ _ _ _ Hs) by auto with keys.
  by rewrite (silent_active _ _ _ _ Hs) by auto with keys.
Qed.

(** The part of a round after the request's own slot was looked at. *)
Lemma yields_count key liveKey max r (idx : Z) ks0 ks (Q : option Z -> keyspace -> Prop) :
  regular key = true -> live liveKey = true -> silent ttl now ks0 ks ->
  (forall ks', inUse ttl now ks0 key liveKey < max -> granted ttl now key r ks0 ks' -> Q (Some idx) ks') ->
  (forall ks', max <= inUse ttl now ks0 key liveKey -> silent ttl now ks0 ks' -> Q None ks') ->
  yields (Call (ZREMRANGEBYSCORE liveKey (now / 1000 - 60)) (fun _ =>
          Call (ZCOUNT_above key (now / 1000 - ttl)) (fun count =>
          Call (ZCARD liveKey) (fun live =>
          if count + live <? max then touch key (now / 1000) ttl r (Done (Some idx)) else Done None)))) now ks Q.
Proof.
  intros Hr Hl H0 Hyes Hno.
  eapply (yields_sweep ttl now liveKey 60); [apply H0|by apply lifetime_live|done|].
  intros n ks1 H1 Hsl. pose proof (silent_trans _ _ _ _ _ H0 H1) as H01. pose proof (silent_wf _ _ _ _ H01) as Hwf.
  eapply yields_zcount; [apply (wf_sets _ _ _ Hwf); by apply lifetime_regular|].
  eapply yields_zcard; [apply (wf_sets _ _ _ Hwf); by apply lifetime_live|].
  replace (above (now / 1000 - ttl) (slots ks1 key)) with (active ttl now ks0 key)
    by (symmetry; apply H01; by apply lifetime_regular).
  rewrite Hsl, decide_True by done. rewrite (silent_active _ _ _ _ H0) by (by apply lifetime_live).
  fold (inUse ttl now ks0 key liveKey). destruct (inUse ttl now ks0 key liveKey <? max) eqn:E; reflect_bool.
  - apply (yields_touch ttl); [done..|by apply lifetime_regular|]. intros ks2 H2 _. apply yields_done.
    apply Hyes; [done|]. by eapply silent_granted.
  - apply yields_done. by apply Hno.
Qed.

Lemma yields_tryCandidate keys base idx accountID max r ks :
  wf ttl now ks -> (forall j, (j < 5)%nat -> keys !! (base + j)%nat = candidateKeys accountID !! j) ->
  yields (tryCandidate keys base idx (Some max) (now / 1000) ttl r) now ks (fun res ks' =>
    if admissible ttl now ks accountID max r
    then res = Some idx /\ claimed ttl now accountID max r ks ks'
    else res = None /\ silent ttl now ks ks').
Proof.
  intros Hwf Hk. unfold tryCandidate, KEYS.
  rewrite <- (Nat.add_0_r base), (Hk 0%nat) by lia. rewrite Nat.add_0_r.
  rewrite (Hk 1%nat), (Hk 2%nat), (Hk 3%nat), (Hk 4%nat) by lia. cbn [candidateKeys lookup list_lookup orRaise lua_bind].
  pose proof (regular_account accountID) as Hr. pose proof (live_account accountID) as Hl.
  eapply yields_call; [reflexivity|]. rewrite exists_cooling.
  unfold admissible, claimed. destruct (cooling ks accountID); cbn [negb andb].
  { apply yields_done. split; [done|by apply silent_refl]. }
  destruct (max <=? 0) eqn:Emax; cbn [orb].
  { apply yields_done. split; [done|by apply silent_refl]. }
  pose proof (lifetime_regular ttl _ Hr) as HT.
  eapply yields_zscore; [by apply (wf_sets _ _ _ Hwf)|].
  assert (Hcount : forall ks', silent ttl now ks ks' -> active ttl now ks (accountSlotKey accountID) !! r = None ->
    yields (Call (ZREMRANGEBYSCORE (liveAccountSlotKey accountID) (now / 1000 - 60)) (fun _ =>
          Call (ZCOUNT_above (accountSlotKey accountID) (now / 1000 - ttl)) (fun count =>
          Call (ZCARD (liveAccountSlotKey accountID)) (fun live =>
          if count + live <? max then touch (accountSlotKey accountID) (now / 1000) ttl r (Done (Some idx))
          else Done None)))) now ks' (fun res ks' =>
      if bool_decide (is_Some (active ttl now ks (accountSlotKey accountID) !! r)) ||
        (inUse ttl now ks (accountSlotKey accountID) (liveAccountSlotKey accountID) <? max)
      then res = Some idx /\ granted ttl now (accountSlotKey accountID) r ks ks'
      else res = None /\ silent ttl now ks ks')).
  { intros ks' Hs Hnone. apply yields_count with (ks0 := ks); [done..| |].
    - intros ks2 Hlt Hg. by rewrite (proj2 (Z.ltb_lt _ _) Hlt), orb_true_r.
    - intros ks2 Hge Hg. rewrite (proj2 (Z.ltb_ge _ _) Hge), orb_false_r, Hnone.
      by rewrite bool_decide_eq_false_2 by (intros [? ?]; done). }
  destruct (slots ks (accountSlotKey accountID) !! r) as [sc|] eqn:Esc.
  - destruct (now / 1000 - ttl <? sc) eqn:Esc'; reflect_bool.
    + apply (yields_touch ttl); [done..|]. intros ks2 H2 _. apply yields_done.
      rewrite bool_decide_eq_true_2; [done|]. exists sc. unfold active. by apply above_lookup.
    + assert (Hnone : active ttl now ks (accountSlotKey accountID) !! r = None).
      { apply eq_None_ne_Some. intros x Hx. apply above_lookup in Hx as [Hx ?]. simplify_eq. lia. }
      eapply (yields_zrem ttl); [done..|]. intros n ks1 H1 _. apply Hcount; [|done].
      by eapply released_stale.
  - apply Hcount; [by apply silent_refl|].
    apply eq_None_ne_Some. intros x Hx. apply above_lookup in Hx as [Hx ?]. by simplify_eq.
Qed.
End Candidates.

(** ** The candidate loop *)

Lemma list_find_None_take {A : Type} (P : A -> Prop) `{!forall x, Decision (P x)} (l : list A) i x :
  Forall (fun y => ~ P y) (take i l) -> l !! i = Some x -> P x -> list_find P l = Some (i, x).
Proof.
  intros Hf Hx HP. apply list_find_Some. split_and!; [done..|].
  intros j y Hy Hlt. rewrite Forall_lookup in Hf. apply (Hf j). by rewrite lookup_take_lt.
Qed.

Section Loop.
Context (ttl now : Z) (Httl : 0 < ttl).

Definition fits (ks : keyspace) (requestID : string) (cand : AccountSlotCandidate) : Prop :=
  admissible ttl now ks (cand_AccountID cand) (cand_MaxConcurrency cand) requestID = true.

#[export] Instance fits_dec ks r cand : Decision (fits ks r cand).
Proof. unfold fits. apply _. Defined.

(** The first candidate, in the caller's order, that can take the request. *)
Definition firstFit (ks : keyspace) (requestID : string) (cands : list AccountSlotCandidate)
    : option (nat * AccountSlotCandidate) := list_find (fits ks requestID) cands.

Definition claimedBy (requestID : string) (cand : AccountSlotCandidate) (ks ks' : keyspace) : Prop :=
  claimed ttl now (cand_AccountID cand) (cand_MaxConcurrency cand) requestID ks ks'.

Lemma silent_claimedBy r cand ks1 ks2 ks3 :
  silent ttl now ks1 ks2 -> claimedBy r cand ks2 ks3 -> claimedBy r cand ks1 ks3.
Proof.
  unfold claimedBy, claimed. case_match; [apply silent_trans|apply silent_granted].
Qed.

Lemma yields_candidates keys (argv : list arg) (base n0 : nat) cands r ks0 ks rest (Q : Z -> keyspace -> Prop) :
  silent ttl now ks0 ks ->
  (forall i cand j, cands !! i = Some cand -> (j < 5)%nat ->
    keys !! (base + 5 * i + j)%nat = candidateKeys (cand_AccountID cand) !! j) ->
  (forall i cand, cands !! i = Some cand -> argv !! (i + n0)%nat = Some (AInt (cand_MaxConcurrency cand))) ->
  (forall i cand ks', firstFit ks0 r cands = Some (i, cand) -> claimedBy r cand ks0 ks' ->
    Q (Z.of_nat i + 1) ks') ->
  (forall ks', firstFit ks0 r cands = None -> silent ttl now ks0 ks' -> yields rest now ks' Q) ->
  yields (lua_for (fun i => tryCandidate keys (base + 5 * i) (Z.of_nat i + 1) (tonumber (argv !! (i + n0)%nat))
            (now / 1000) ttl r) (seq 0 (length cands)) rest) now ks Q.
Proof.
  intros Hs Hkeys Hargs Hyes Hno.
  apply yields_for with (Inv := fun done ks' =>
    silent ttl now ks0 ks' /\ Forall (fun cand => ~ fits ks0 r cand) (take (length done) cands)).
  - by split.
  - intros done i ks' [rest' Hpre] [Hs' Hf].
    assert (i = length done /\ (length done < length cands)%nat) as [-> Hlt].
    { assert (seq 0 (length cands) !! length done = Some i) as E.
      { rewrite Hpre, <- (assoc_L (++)). by apply list_lookup_middle. }
      apply lookup_seq in E. lia. }
    destruct (lookup_lt_is_Some_2 _ _ Hlt) as [cand Hc]. rewrite (Hargs _ _ Hc). cbn [tonumber].
    eapply yields_mono.
    { apply (yields_tryCandidate ttl now Httl _ _ _ (cand_AccountID cand)); [apply Hs'|].
      intros j Hj. by apply Hkeys. }
    intros res ks2. cbn beta. rewrite (silent_admissible ttl now _ _ _ _ _ Hs').
    case_match eqn:E; intros [-> H2].
    + apply (Hyes _ cand); [by apply list_find_None_take|]. by eapply silent_claimedBy.
    + split; [by eapply silent_trans|]. rewrite length_app. cbn [length]. rewrite Nat.add_1_r.
      rewrite (take_S_r _ _ cand) by done. apply Forall_app. split; [done|]. apply Forall_singleton.
      unfold fits. by rewrite E.
  - intros ks' [Hs' Hf]. apply Hno; [|done]. apply list_find_None.
    by rewrite length_seq, firstn_all in Hf.
Qed.

(** Positions of keys and arguments. *)
Lemma candidate_key_at pre (cands : list AccountSlotCandidate) i cand j :
  cands !! i = Some cand -> (j < 5)%nat ->
  (pre ++ (cands ≫= fun cand => candidateKeys (cand_AccountID cand))) !! (length pre + 5 * i + j)%nat =
    candidateKeys (cand_AccountID cand) !! j.
Proof.
  intros Hc Hj. rewrite lookup_app_r by lia.
  replace (length pre + 5 * i + j - length pre)%nat with (5 * i + j)%nat by lia.
  revert i Hc. induction cands as [|d cands IH]; intros i Hc; [done|]. cbn [mbind list_bind].
  destruct i as [|i]; [cbn in Hc; simplify_eq|].
  - rewrite lookup_app_l by (cbn; lia). done.
  - rewrite lookup_app_r by (cbn; lia). rewrite <- (IH i) by done. f_equal. cbn. lia.
Qed.

Lemma length_candidate_keys (cands : list AccountSlotCandidate) :
  length (cands ≫= fun cand => candidateKeys (cand_AccountID cand)) = (5 * length cands)%nat.
Proof. induction cands as [|d cands IH]; [done|]. cbn [mbind list_bind]. rewrite length_app, IH. cbn. lia. Qed.

Lemma candidate_groups pre (cands : list AccountSlotCandidate) :
  candidateGroups (length pre) (pre ++ (cands ≫= fun cand => candidateKeys (cand_AccountID cand))) =
    seq 0 (length cands).
Proof.
  unfold candidateGroups. rewrite length_app, length_candidate_keys. f_equal.
  replace (length pre + 5 * length cands - length pre + 4)%nat with (length cands * 5 + 4)%nat by lia.
  rewrite Nat.div_add_l by done. cbn. lia.
Qed.

Lemma candidate_arg pre (cands : list AccountSlotCandidate) i cand :
  cands !! i = Some cand ->
  (pre ++ map (fun cand => AInt (cand_MaxConcurrency cand)) cands) !! (i + length pre)%nat =
    Some (AInt (cand_MaxConcurrency cand)).
Proof.
  intros Hc. rewrite lookup_app_r by lia. replace (i + length pre - length pre)%nat with i by lia.
  change (((fun cand => AInt (cand_MaxConcurrency cand)) <$> cands) !! i = Some (AInt (cand_MaxConcurrency cand))).
  by rewrite list_lookup_fmap, Hc.
Qed.

(** ** The acquiring scripts *)

Lemma acquireFirst_yields cands r ks :
  wf ttl now ks ->
  yields (acquireFirstAvailableAccountSlotScript
      (cands ≫= fun cand => candidateKeys (cand_AccountID cand))
      (AInt ttl :: AStr r :: map (fun cand => AInt (cand_MaxConcurrency cand)) cands)) now ks (fun n ks' =>
    match firstFit ks r cands with
    | Some (i, cand) => n = Z.of_nat i + 1 /\ claimedBy r cand ks ks'
    | None => n = 0 /\ silent ttl now ks ks'
    end).
Proof.
  intros Hwf. unfold acquireFirstAvailableAccountSlotScript. cbn [ARGN ARGS lookup list_lookup tonumber orRaise lua_bind].
  apply yields_time. pose proof (candidate_groups [] cands) as Eg. cbn [app length] in Eg. rewrite Eg.
  apply (yields_candidates _ _ 0 2 cands r ks); [by apply silent_refl| | | |].
  - intros i cand j. apply (candidate_key_at []).
  - intros i cand. apply (candidate_arg [AInt ttl; AStr r]).
  - intros i cand ks' -> H. done.
  - intros ks' -> H. by apply yields_done.
Qed.

Lemma granted_admissible ks ks' key m accountID max r :
  granted ttl now key m ks ks' -> key <> accountSlotKey accountID -> live key = false ->
  admissible ttl now ks' accountID max r = admissible ttl now ks accountID max r.
Proof.
  intros [_ B C] Hne Hnl. unfold admissible, inUse, cooling. rewrite !C by auto with keys.
  rewrite !B by auto with keys. rewrite !decide_False; [done| |done].
  intros E. by rewrite <- E, live_account in Hnl.
Qed.

Lemma user_key_not_account u a : userSlotKey u <> accountSlotKey a.
Proof. discriminate. Qed.

Lemma regular_not_live key : regular key = true -> live key = false.
Proof. intros H. destruct (live key) eqn:E; [|done]. by rewrite live_not_regular in H. Qed.

Lemma granted_firstFit ks ks' u m r cands :
  granted ttl now (userSlotKey u) m ks ks' -> firstFit ks' r cands = firstFit ks r cands.
Proof.
  intros Hg. unfold firstFit. apply list_find_ext. intros x. unfold fits.
  rewrite (granted_admissible _ _ _ _ _ _ _ Hg); [done|apply user_key_not_account|].
  apply regular_not_live, regular_user.
Qed.

(** The user holds the slot already or has a free one. *)
Definition userFits (ks : keyspace) (userID userMax : Z) (requestID : string) : bool :=
  bool_decide (is_Some (active ttl now ks (userSlotKey userID) !! requestID)) ||
  (inUse ttl now ks (userSlotKey userID) (liveUserSlotKey userID) <? userMax).

(** Both slots, the user's first. *)
Definition bothClaimed (userID : Z) (userRequestID accountRequestID : string) (cand : AccountSlotCandidate)
    (ks ks' : keyspace) : Prop :=
  exists ks1, granted ttl now (userSlotKey userID) userRequestID ks ks1 /\ claimedBy accountRequestID cand ks1 ks'.

(** Admission of the user, from the point where it is known to hold no slot of the request. *)
Lemma yields_admitUser ks0 ks u max ur (p : lua Z) (Q : Z -> keyspace -> Prop) :
  silent ttl now ks0 ks ->
  (forall ks', inUse ttl now ks0 (userSlotKey u) (liveUserSlotKey u) < max ->
    granted ttl now (userSlotKey u) ur ks0 ks' -> yields p now ks' Q) ->
  (forall ks', max <= inUse ttl now ks0 (userSlotKey u) (liveUserSlotKey u) -> silent ttl now ks0 ks' -> Q 0 ks') ->
  yields (Call (ZCARD (userSlotKey u)) (fun userTotalCount =>
    lua_bind (fun _ =>
      Call (ZREMRANGEBYSCORE (liveUserSlotKey u) (now / 1000 - 60)) (fun _ =>
      Call (ZCOUNT_above (userSlotKey u) (now / 1000 - ttl)) (fun count =>
      Call (ZCARD (liveUserSlotKey u)) (fun live =>
      lua_bind (fun full : bool => if full then Done 0 else touch (userSlotKey u) (now / 1000) ttl ur p)
        (if max <=? count + live then
           Call (ZREMRANGEBYSCORE (userSlotKey u) (now / 1000 - ttl)) (fun _ =>
           Call (ZCARD (userSlotKey u)) (fun regular =>
           Call (ZCARD (liveUserSlotKey u)) (fun live => Done (max <=? regular + live))))
         else Done false)))))
      (if max * 2 <? userTotalCount
       then Call (ZREMRANGEBYSCORE (userSlotKey u) (now / 1000 - ttl)) (fun _ => Done tt) else Done tt)))
    now ks Q.
Proof.
  intros H0 Hyes Hno. pose proof (regular_user u) as Hr. pose proof (live_user u) as Hl.
  pose proof (lifetime_regular ttl _ Hr) as HR. pose proof (lifetime_live ttl _ Hl) as HL.
  eapply yields_zcard; [by apply (wf_sets _ _ _ (silent_wf _ _ _ _ H0))|].
  apply yields_bind with (R := fun _ ks' => silent ttl now ks0 ks').
  { case_match; [|by apply yields_done]. eapply (yields_sweep ttl); [apply H0|done..|].
    intros n ks1 H1 _. apply yields_done. by eapply silent_trans. }
  intros _ ks1 H1. eapply (yields_sweep ttl now _ 60); [apply H1|done..|]. intros n ks2 H2 Hsl.
  pose proof (silent_trans _ _ _ _ _ H1 H2) as H02. pose proof (silent_wf _ _ _ _ H02) as Hwf2.
  eapply yields_zcount; [by apply (wf_sets _ _ _ Hwf2)|]. eapply yields_zcard; [by apply (wf_sets _ _ _ Hwf2)|].
  fold (active ttl now ks2 (userSlotKey u)). rewrite (silent_active _ _ _ _ H02) by done.
  rewrite Hsl, decide_True by done. rewrite (silent_active _ _ _ _ H1) by done.
  fold (inUse ttl now ks0 (userSlotKey u) (liveUserSlotKey u)).
  set (used := inUse ttl now ks0 (userSlotKey u) (liveUserSlotKey u)) in *.
  apply yields_bind with (R := fun full ks' => silent ttl now ks0 ks' /\ full = (max <=? used)).
  - destruct (max <=? used) eqn:E; [|by apply yields_done]. eapply (yields_sweep ttl); [done..|].
    intros n3 ks3 H3 Hsl3. pose proof (silent_trans _ _ _ _ _ H02 H3) as H03.
    pose proof (silent_wf _ _ _ _ H03) as Hwf3. eapply yields_zcard; [by apply (wf_sets _ _ _ Hwf3)|].
    eapply yields_zcard; [by apply (wf_sets _ _ _ Hwf3)|]. apply yields_done. split; [done|].
    rewrite !Hsl3, decide_True by done. rewrite decide_False; [|discriminate].
    rewrite (silent_active _ _ _ _ H02) by done. rewrite Hsl, decide_True by done.
    rewrite (silent_active _ _ _ _ H1) by done. done.
  - intros full ks3 [H3 ->]. destruct (max <=? used) eqn:E; reflect_bool; [apply yields_done; by apply Hno|].
    apply (yields_touch ttl); [done|apply H3|done|]. intros ks4 H4 _. apply Hyes; [done|].
    by eapply silent_granted.
Qed.

Lemma acquireFirstUser_yields u max cands ur ar ks :
  wf ttl now ks ->
  yields (acquireFirstAvailableUserAccountSlotsScript
      (userSlotKey u :: liveUserSlotKey u :: (cands ≫= fun cand => candidateKeys (cand_AccountID cand)))
      (AInt ttl :: AInt max :: AStr ur :: AStr ar :: map (fun cand => AInt (cand_MaxConcurrency cand)) cands))
    now ks (fun n ks' =>
    match userFits ks u max ur, firstFit ks ar cands with
    | true, Some (i, cand) => n = Z.of_nat i + 1 /\ bothClaimed u ur ar cand ks ks'
    | true, None => n = 0 /\ released ttl now (userSlotKey u) ur ks ks'
    | false, _ => n = 0 /\ silent ttl now ks ks'
    end).
Proof.
  intros Hwf. unfold acquireFirstAvailableUserAccountSlotsScript, KEYS.
  cbn [ARGN ARGS lookup list_lookup tonumber orRaise lua_bind].
  apply yields_time. pose proof (candidate_groups [userSlotKey u; liveUserSlotKey u] cands) as Eg.
  cbn [app length] in Eg. rewrite Eg. clear Eg.
  pose proof (lifetime_regular ttl _ (regular_user u)) as HR.
  match goal with |- context [touch (userSlotKey u) _ _ ur ?p] => set (loop := p) end.
  assert (Hloop : forall ks1, userFits ks u max ur = true -> granted ttl now (userSlotKey u) ur ks ks1 ->
    yields loop now ks1 (fun n ks' =>
      match userFits ks u max ur, firstFit ks ar cands with
      | true, Some (i, cand) => n = Z.of_nat i + 1 /\ bothClaimed u ur ar cand ks ks'
      | true, None => n = 0 /\ released ttl now (userSlotKey u) ur ks ks'
      | false, _ => n = 0 /\ silent ttl now ks ks'
      end)).
  { intros ks1 -> Hg. apply (yields_candidates _ _ 2 4 cands ar ks1); [apply silent_refl, Hg| | | |].
    - intros i cand j. apply (candidate_key_at [userSlotKey u; liveUserSlotKey u]).
    - intros i cand. apply (candidate_arg [AInt ttl; AInt max; AStr ur; AStr ar]).
    - intros i cand ks' E Hc. rewrite (granted_firstFit _ _ _ _ _ _ Hg) in E. rewrite E. split; [done|]. by exists ks1.
    - intros ks' E Hs. rewrite (granted_firstFit _ _ _ _ _ _ Hg) in E. rewrite E.
      eapply (yields_zrem ttl); [apply Hs|done|]. intros n ks2 Hrel _. apply yields_done. split; [done|].
      destruct Hg as [A B C], (silent_released _ _ _ _ _ _ _ Hs Hrel) as [A' B' C']. split; [done| |].
      + intros key' T HT. rewrite B', B by done. case_decide; [|done]. by rewrite delete_insert_eq.
      + intros key' Htx. by rewrite C', C. }
  assert (Hadmit : forall ks1, silent ttl now ks ks1 -> active ttl now ks (userSlotKey u) !! ur = None ->
    forall Q, (forall ks', userFits ks u max ur = true -> granted ttl now (userSlotKey u) ur ks ks' -> yields loop now ks' Q) ->
    (forall ks', userFits ks u max ur = false -> silent ttl now ks ks' -> Q 0 ks') ->
    yields _ now ks1 Q) by
   (intros ks1 Hs Hnone Q HA HB; apply (yields_admitUser ks ks1 u max ur loop Q Hs);
    intros ks' Hu Hk; [apply HA|apply HB]; try exact Hk; unfold userFits; rewrite Hnone;
    rewrite bool_decide_eq_false_2 by (by intros [? ?]); [by apply Z.ltb_lt|by apply Z.ltb_ge]).
  eapply yields_zscore; [by apply (wf_sets _ _ _ Hwf)|].
  destruct (slots ks (userSlotKey u) !! ur) as [sc|] eqn:Esc.
  - destruct (now / 1000 - ttl <? sc) eqn:Elt; reflect_bool.
    + apply (yields_touch ttl); [done..|]. intros ks1 Hg _. apply Hloop; [|done].
      unfold userFits. rewrite bool_decide_eq_true_2; [done|]. exists sc. by apply above_lookup.
    + assert (Hnone : active ttl now ks (userSlotKey u) !! ur = None).
      { apply eq_None_ne_Some. intros x Hx. apply above_lookup in Hx as [Hx ?]. simplify_eq. lia. }
      eapply (yields_zrem ttl); [done..|]. intros n ks1 H1 _. apply Hadmit; [by eapply released_stale|done|exact Hloop|].
      intros ks' -> Hs. done.
  - apply Hadmit; [by apply silent_refl| |exact Hloop|by intros ks' -> Hs].
    apply eq_None_ne_Some. intros x Hx. apply above_lookup in Hx as [Hx ?]. by simplify_eq.
Qed.

(** ** User slots and counts *)

Lemma acquire_yields u max r ks :
  wf ttl now ks ->
  yields (acquireScript [userSlotKey u; liveUserSlotKey u] [AInt max; AInt ttl; AStr r]) now ks (fun n ks' =>
    if userFits ks u max r then n = 1 /\ granted ttl now (userSlotKey u) r ks ks'
    else n = 0 /\ silent ttl now ks ks').
Proof.
  intros Hwf. unfold acquireScript. cbn [KEYS ARGN ARGS lookup list_lookup tonumber orRaise lua_bind].
  pose proof (lifetime_regular ttl _ (regular_user u)) as HR. pose proof (lifetime_live ttl _ (live_user u)) as HL.
  apply yields_time. eapply (yields_sweep ttl); [done..|]. intros n1 ks1 H1 Hsl1.
  eapply (yields_sweep ttl now _ 60); [apply H1|done..|]. intros n2 ks2 H2 Hsl2.
  pose proof (silent_trans _ _ _ _ _ H1 H2) as H02. pose proof (silent_wf _ _ _ _ H02) as Hwf2.
  assert (E2 : slots ks2 (userSlotKey u) = active ttl now ks (userSlotKey u)).
  { rewrite Hsl2, decide_False by discriminate. by rewrite Hsl1, decide_True. }
  assert (E3 : slots ks2 (liveUserSlotKey u) = active 60 now ks (liveUserSlotKey u)).
  { rewrite Hsl2, decide_True by done. by apply H1. }
  eapply yields_zscore; [by apply (wf_sets _ _ _ Hwf2)|]. rewrite E2. unfold userFits.
  destruct (active ttl now ks (userSlotKey u) !! r) as [sc|] eqn:E.
  - rewrite bool_decide_eq_true_2 by (by eexists). apply (yields_touch ttl); [done..|]. intros ks3 H3 _.
    apply yields_done. split; [done|]. by eapply silent_granted.
  - rewrite bool_decide_eq_false_2 by (by intros [? ?]). cbn [orb].
    eapply yields_zcard; [by apply (wf_sets _ _ _ Hwf2)|]. eapply yields_zcard; [by apply (wf_sets _ _ _ Hwf2)|].
    rewrite E2, E3. fold (inUse ttl now ks (userSlotKey u) (liveUserSlotKey u)).
    case_match; [|by apply yields_done]. apply (yields_touch ttl); [done..|]. intros ks3 H3 _.
    apply yields_done. split; [done|]. by eapply silent_granted.
Qed.

Lemma getCount_yields key liveKey ks :
  wf ttl now ks -> regular key = true -> live liveKey = true ->
  yields (getCountScript [key; liveKey] [AInt ttl]) now ks (fun n ks' =>
    n = inUse ttl now ks key liveKey /\ silent ttl now ks ks').
Proof.
  intros Hwf Hr Hl. unfold getCountScript. cbn [KEYS ARGN ARGS lookup list_lookup tonumber orRaise lua_bind].
  pose proof (lifetime_regular ttl _ Hr) as HR. pose proof (lifetime_live ttl _ Hl) as HL.
  apply yields_time. eapply (yields_sweep ttl); [done..|]. intros n1 ks1 H1 Hsl1.
  eapply (yields_sweep ttl now _ 60); [apply H1|done..|]. intros n2 ks2 H2 Hsl2.
  pose proof (silent_trans _ _ _ _ _ H1 H2) as H02. pose proof (silent_wf _ _ _ _ H02) as Hwf2.
  assert (Hne : key <> liveKey) by (intros ->; by rewrite live_not_regular in Hr).
  eapply yields_zcard; [by apply (wf_sets _ _ _ Hwf2)|]. eapply yields_zcard; [by apply (wf_sets _ _ _ Hwf2)|].
  apply yields_done. split; [|done]. unfold inUse. rewrite !Hsl2, decide_False, decide_True by done.
  rewrite Hsl1, decide_True by done. by rewrite (silent_active _ _ _ _ H1).
Qed.

(** ** Cleanup *)

Lemma yields_expire {A : Type} key T (k : Z -> lua A) ks Q :
  0 < T -> wf ttl now ks -> lifetime ttl key = Some T ->
  (forall n ks', silent ttl now ks ks' -> (forall key', slots ks' key' = slots ks key') -> yields (k n) now ks' Q) ->
  yields (Call (EXPIRE key T) k) now ks Q.
Proof.
  intros Hpos Hwf HT Hk. pose proof (wf_sets _ _ _ Hwf key T HT) as Hok.
  destruct (ks !! key) as [[[s|z] d]|] eqn:E; [by destruct (ok_type _ _ _ _ Hok s d)| |].
  - eapply yields_call.
    { cbn. unfold set_deadline. rewrite E. cbn. by rewrite (proj2 (Z.leb_gt _ _)) by lia. }
    assert (Hsl : forall key', slots (<[key:=(RZset z, Some (now + T * 1000))]> ks) key' = slots ks key').
    { intros key'. unfold slots. destruct (decide (key' = key)) as [->|Hd];
        [by rewrite lookup_insert_eq, E|by rewrite lookup_insert_ne]. }
    apply Hk; [split|done].
    + eapply (wf_change _ _ _ _ key Hwf); [by eapply lifetime_not_textual| |].
      2: { intros key' Hne. by rewrite lookup_insert_ne. }
      intros T' HT'. simplify_eq. split.
      * intros s d'. by rewrite lookup_insert_eq.
      * intros m sc. rewrite Hsl. apply Hok.
      * intros z0 d0. rewrite lookup_insert_eq. intros E0 m sc Hm. simplify_eq.
        assert (sc <= now / 1000). { eapply ok_past; [done|]. unfold slots. by rewrite E. }
        pose proof (Z.mul_div_le now 1000 ltac:(lia)). lia.
    + intros key' T' HT'. unfold active. by rewrite Hsl.
    + intros key' Htx. rewrite lookup_insert_ne; [done|]. intros ->.
      by rewrite (lifetime_not_textual _ _ _ HT) in Htx.
  - eapply yields_call; [cbn; unfold set_deadline; by rewrite E|]. apply Hk; [by apply silent_refl|done].
Qed.

Lemma yields_del_empty {A : Type} key T (k : Z -> lua A) ks Q :
  wf ttl now ks -> lifetime ttl key = Some T -> slots ks key = ∅ ->
  (forall n ks', silent ttl now ks ks' -> yields (k n) now ks' Q) ->
  yields (Call (DEL key) k) now ks Q.
Proof.
  intros Hwf HT Hempty Hk. eapply yields_call; [reflexivity|].
  assert (Hsl : forall key', slots (delete key ks) key' = slots ks key').
  { intros key'. unfold slots at 1. destruct (decide (key' = key)) as [->|Hd];
      [by rewrite lookup_delete_eq|by rewrite lookup_delete_ne]. }
  apply Hk. split.
  - eapply (wf_change _ _ _ _ key Hwf); [by eapply lifetime_not_textual| |].
    2: { intros key' Hne. by rewrite lookup_delete_ne. }
    intros T' HT'. split.
    + intros s d. by rewrite lookup_delete_eq.
    + intros m sc. rewrite Hsl, Hempty. by rewrite lookup_empty.
    + intros z d. by rewrite lookup_delete_eq.
  - intros key' T' HT'. unfold active. by rewrite Hsl.
  - intros key' Htx. rewrite lookup_delete_ne; [done|]. intros ->.
    by rewrite (lifetime_not_textual _ _ _ HT) in Htx.
Qed.

Lemma yields_sweepKey {A : Type} key (k : Z -> lua A) ks0 ks Q :
  silent ttl now ks0 ks -> regular key = true ->
  (forall n ks', silent ttl now ks0 ks' -> yields (k n) now ks' Q) ->
  yields (sweepKey key (now / 1000) ttl k) now ks Q.
Proof.
  intros H0 Hr Hk. unfold sweepKey. pose proof (lifetime_regular ttl _ Hr) as HR.
  eapply (yields_sweep ttl); [apply H0|done..|]. intros n ks1 H1 _.
  pose proof (silent_trans _ _ _ _ _ H0 H1) as H01. pose proof (silent_wf _ _ _ _ H01) as Hwf.
  eapply yields_zcard; [by apply (wf_sets _ _ _ Hwf)|]. destruct (zsize (slots ks1 key) =? 0) eqn:E; reflect_bool.
  - eapply yields_del_empty; [done..| |].
    { apply map_size_empty_inv. unfold zsize in E. lia. }
    intros n2 ks2 H2. apply Hk. by eapply silent_trans.
  - eapply yields_expire; [done..|]. intros n2 ks2 H2 _. apply Hk. by eapply silent_trans.
Qed.

(** Cleaning up never touches a slot that counts. *)
Lemma cleanupKeys_yields keys ks :
  wf ttl now ks -> Forall (fun key => regular key = true) keys ->
  yields (cleanupExpiredSlotKeysScript keys [AInt ttl]) now ks (fun _ ks' => silent ttl now ks ks').
Proof.
  intros Hwf Hk. unfold cleanupExpiredSlotKeysScript. cbn [ARGN lookup list_lookup tonumber orRaise lua_bind].
  apply yields_time. assert (H0 : silent ttl now ks ks) by (by apply silent_refl).
  assert (forall keys removed ks1, silent ttl now ks ks1 -> Forall (fun key => regular key = true) keys ->
    yields (sweepKeys keys (now / 1000) ttl removed) now ks1 (fun _ ks' => silent ttl now ks ks')) as Hgo;
    [|by apply Hgo].
  clear keys Hk. induction keys as [|key keys IH]; intros removed ks1 H1 Hk; cbn [sweepKeys]; [by apply yields_done|].
  apply Forall_cons in Hk as [Hr Hk]. eapply yields_sweepKey; [done..|]. intros n ks2 H2. by apply IH.
Qed.

Lemma cleanupSlots_yields key ks :
  wf ttl now ks -> regular key = true ->
  yields (cleanupExpiredSlotsScript [key] [AInt ttl]) now ks (fun _ ks' => silent ttl now ks ks').
Proof.
  intros Hwf Hr. unfold cleanupExpiredSlotsScript. cbn [KEYS ARGN lookup list_lookup tonumber orRaise lua_bind].
  apply yields_time. eapply yields_sweepKey; [by apply silent_refl|done|]. intros n ks' H. by apply yields_done.
Qed.

Lemma track_yields key r ks :
  wf ttl now ks -> regular key = true ->
  yields (trackSlotScript [key] [AInt ttl; AStr r]) now ks (fun _ ks' => granted ttl now key r ks ks').
Proof.
  intros Hwf Hr. unfold trackSlotScript. cbn [KEYS ARGN ARGS lookup list_lookup tonumber orRaise lua_bind].
  pose proof (lifetime_regular ttl _ Hr) as HR.
  apply yields_time. eapply (yields_sweep ttl); [done..|]. intros n ks1 H1 _.
  apply (yields_touch ttl); [done|apply H1|done|]. intros ks2 H2 _. apply yields_done. by eapply silent_granted.
Qed.

(** ** Renewals *)

(** Every set keeps its holders; only their seconds may change. *)
Record sameHolders (ks ks' : keyspace) : Prop := {
  holders_wf : wf ttl now ks';
  holders_dom : forall key T, lifetime ttl key = Some T -> dom (active T now ks' key) = dom (active T now ks key);
  holders_texts : forall key, textual key = true -> ks' !! key = ks !! key
}.

Lemma silent_sameHolders ks ks' : silent ttl now ks ks' -> sameHolders ks ks'.
Proof. intros [A B C]. split; [done| |done]. intros key T HT. by rewrite B. Qed.

Lemma sameHolders_trans ks1 ks2 ks3 : sameHolders ks1 ks2 -> sameHolders ks2 ks3 -> sameHolders ks1 ks3.
Proof.
  intros [A B C] [A' B' C']. split; [done| |].
  - intros key T HT. by rewrite B', B.
  - intros key Htx. by rewrite C', C.
Qed.

Lemma granted_sameHolders ks ks' key T m :
  granted ttl now key m ks ks' -> lifetime ttl key = Some T -> is_Some (active T now ks key !! m) ->
  sameHolders ks ks'.
Proof.
  intros [A B C] HT Hm. split; [done| |done]. intros key' T' HT'. rewrite B by done. case_decide; [|done].
  simplify_eq. apply elem_of_dom in Hm. set_solver.
Qed.

Lemma sameHolders_size ks ks' key T :
  sameHolders ks ks' -> lifetime ttl key = Some T -> zsize (active T now ks' key) = zsize (active T now ks key).
Proof. intros H HT. unfold zsize. rewrite <- !size_dom. by rewrite (holders_dom _ _ H). Qed.

(** The renewal is for a slot that still counts, or that is gone. *)
Definition timely (ks : keyspace) (key m : string) : Prop :=
  forall T sc, lifetime ttl key = Some T -> slots ks key !! m = Some sc -> now / 1000 - T < sc.

Lemma refresh_yields key r ks :
  wf ttl now ks -> regular key = true -> timely ks key r ->
  yields (refreshSlotScript [key] [AStr r; AInt ttl]) now ks (fun n ks' =>
    sameHolders ks ks' /\ n = if decide (is_Some (active ttl now ks key !! r)) then 1 else 0).
Proof.
  intros Hwf Hr Ht. unfold refreshSlotScript. cbn [KEYS ARGN ARGS lookup list_lookup tonumber orRaise lua_bind].
  pose proof (lifetime_regular ttl _ Hr) as HR. eapply yields_zscore; [by apply (wf_sets _ _ _ Hwf)|].
  destruct (slots ks key !! r) as [sc|] eqn:E.
  - assert (Hact : is_Some (active ttl now ks key !! r)).
    { exists sc. apply above_lookup. split; [done|]. by eapply Ht. }
    apply yields_time. apply (yields_touch ttl); [done..|]. intros ks1 H1 _. apply yields_done.
    rewrite decide_True by done. split; [|done]. by eapply granted_sameHolders.
  - apply yields_done. split; [by apply silent_sameHolders, silent_refl|]. rewrite decide_False; [done|].
    intros [x Hx]. apply above_lookup in Hx as [Hx _]. by simplify_eq.
Qed.

Lemma refreshEach_yields pairs refreshed ks :
  wf ttl now ks -> Forall (fun p => regular p.1 = true /\ timely ks p.1 p.2) pairs ->
  yields (refreshEach (map fst pairs) (map (fun p => AStr p.2) pairs) (now / 1000) ttl refreshed) now ks
    (fun _ ks' => sameHolders ks ks').
Proof.
  intros Hwf. assert (H0 : sameHolders ks ks) by (by apply silent_sameHolders, silent_refl).
  assert (forall pairs refreshed ks1, sameHolders ks ks1 ->
    Forall (fun p => regular p.1 = true /\ timely ks1 p.1 p.2) pairs ->
    yields (refreshEach (map fst pairs) (map (fun p => AStr p.2) pairs) (now / 1000) ttl refreshed) now ks1
      (fun _ ks' => sameHolders ks ks')) as Hgo; [|by apply Hgo].
  clear pairs refreshed. induction pairs as [|[key r] pairs IH]; intros refreshed ks1 H1 Hp; cbn [map refreshEach];
    [by apply yields_done|].
  apply Forall_cons in Hp as [[Hr Ht] Hp]. cbn [fst snd] in *.
  cbn [ARGS lookup list_lookup lua_bind tail]. pose proof (lifetime_regular ttl _ Hr) as HR.
  pose proof (holders_wf _ _ H1) as Hwf1.
  eapply yields_zscore; [by apply (wf_sets _ _ _ Hwf1)|].
  destruct (slots ks1 key !! r) as [sc|] eqn:E; [|by apply IH].
  apply (yields_touch ttl); [done..|]. intros ks2 H2 Hsl. apply IH.
  - eapply sameHolders_trans; [done|]. eapply granted_sameHolders; [done..|].
    exists sc. apply above_lookup. split; [done|]. by eapply Ht.
  - eapply Forall_impl; [exact Hp|]. intros [key' r'] [Hr' Ht']. split; [done|]. cbn [fst snd] in *.
    intros T sc' HT. rewrite Hsl. case_decide as Hk; [|by apply Ht']. subst key'.
    rewrite lookup_insert_Some. intros [[_ <-]|[_ Hsc]]; [|by apply (Ht' T)]. rewrite HR in HT. simplify_eq. lia.
Qed.

Lemma refreshSlots_yields pairs ks :
  wf ttl now ks -> Forall (fun p => regular p.1 = true /\ timely ks p.1 p.2) pairs ->
  yields (refreshSlotsScript (map fst pairs) (AInt ttl :: map (fun p => AStr p.2) pairs)) now ks
    (fun _ ks' => sameHolders ks ks').
Proof.
  intros Hwf Hp. unfold refreshSlotsScript. cbn [ARGN lookup list_lookup tonumber orRaise lua_bind].
  apply yields_time. cbn [tail]. by apply refreshEach_yields.
Qed.

(** ** Live leases *)

(** Two sets are touched at once. *)
Lemma yields_touch_two a b m (p : lua Z) ks Q :
  wf ttl now ks -> live a = true -> live b = true -> a <> b ->
  (forall ks1 ks', granted ttl now a m ks ks1 -> granted ttl now b m ks1 ks' -> yields p now ks' Q) ->
  yields (Call (ZADD a (now / 1000) m) (fun _ => Call (ZADD b (now / 1000) m) (fun _ =>
          Call (EXPIRE a 60) (fun _ => Call (EXPIRE b 60) (fun _ => p))))) now ks Q.
Proof.
  intros Hwf Ha Hb Hne Hk. pose proof (lifetime_live ttl _ Ha) as HA. pose proof (lifetime_live ttl _ Hb) as HB.
  assert (Hboth : yields (touch a (now / 1000) 60 m (touch b (now / 1000) 60 m p)) now ks Q).
  { apply (yields_touch ttl); [lia|done..|]. intros ks1 H1 _.
    apply (yields_touch ttl); [lia|apply H1|done|]. intros ks2 H2 _. by eapply Hk. }
  destruct Hboth as (x & ks' & E & HQ). exists x, ks'. split; [|done]. rewrite <- E.
  destruct (slots_set_ok _ _ _ _ (wf_sets _ _ _ Hwf a 60 HA)) as [da Ea].
  destruct (slots_set_ok _ _ _ _ (wf_sets _ _ _ Hwf b 60 HB)) as [db Eb].
  assert (Hput : forall key z d ks, z <> ∅ -> put_zset key z d ks = <[key := (RZset z, d)]> ks).
  { intros. unfold put_zset. by rewrite decide_False. }
  assert (Hz : forall key e (ks : keyspace), key <> b -> zset_of (<[key := e]> ks) b = zset_of ks b).
  { intros. unfold zset_of. by rewrite lookup_insert_ne. }
  unfold touch. cbn [script documented]. rewrite Ea. cbn [script documented].
  rewrite !Hput by apply insert_non_empty. rewrite Hz by done. rewrite Eb.
  rewrite !Hput by apply insert_non_empty. unfold set_deadline.
  rewrite (lookup_insert_ne _ b a) by done. rewrite !lookup_insert_eq. cbn [fst snd].
  rewrite (proj2 (Z.leb_gt (now + 60 * 1000) now)) by lia.
  rewrite (lookup_insert_ne _ a b) by done. rewrite !lookup_insert_eq. cbn [fst snd].
  rewrite insert_insert_eq. rewrite Hz by done. rewrite Eb. cbn [script documented fst snd].
  rewrite Hput by apply insert_non_empty. rewrite lookup_insert_eq. cbn [fst snd].
  f_equal. apply map_eq. intros k. destruct (decide (k = a)) as [->|]; [|destruct (decide (k = b)) as [->|]];
    by simplify_map_eq.
Qed.

(** The lease may be taken: there is no limit or it is not reached. *)
Definition leaseFits (ks : keyspace) (key liveKey : string) (limit allowance : Z) : bool :=
  negb ((0 <? limit) && (limit + allowance <=? inUse ttl now ks key liveKey)).

Lemma acquireLiveTenant_yields u max a l ks :
  wf ttl now ks ->
  yields (acquireLiveTenantLeaseScript [userSlotKey u; liveUserSlotKey u; liveAPIKeySlotKey a]
            [AInt max; AInt 60; AStr l; AInt ttl]) now ks (fun n ks' =>
    let held := bool_decide (is_Some (active 60 now ks (liveUserSlotKey u) !! l)) in
    let tracked := bool_decide (is_Some (active 60 now ks (liveAPIKeySlotKey a) !! l)) in
    if if held then tracked else leaseFits ks (userSlotKey u) (liveUserSlotKey u) max 0
    then n = 1 /\ exists ks1, granted ttl now (liveUserSlotKey u) l ks ks1 /\ granted ttl now (liveAPIKeySlotKey a) l ks1 ks'
    else n = 0 /\ silent ttl now ks ks').
Proof.
  intros Hwf. unfold acquireLiveTenantLeaseScript. cbn [KEYS ARGN ARGS lookup list_lookup tonumber orRaise lua_bind].
  pose proof (lifetime_regular ttl _ (regular_user u)) as HR. pose proof (lifetime_live ttl _ (live_user u)) as HL.
  pose proof (lifetime_live ttl _ (live_api_key a)) as HA.
  apply yields_time. eapply (yields_sweep ttl); [done..|]. intros n1 ks1 H1 Hsl1.
  eapply (yields_sweep ttl now _ 60); [apply H1|done..|]. intros n2 ks2 H2 Hsl2.
  eapply (yields_sweep ttl now _ 60); [apply H2|done..|]. intros n3 ks3 H3 Hsl3.
  pose proof (silent_trans _ _ _ _ _ H1 H2) as H02. pose proof (silent_trans _ _ _ _ _ H02 H3) as H03.
  pose proof (silent_wf _ _ _ _ H03) as Hwf3.
  assert (E1 : slots ks3 (userSlotKey u) = active ttl now ks (userSlotKey u)).
  { rewrite Hsl3, decide_False, Hsl2, decide_False, Hsl1, decide_True by first [done|discriminate]. done. }
  assert (E2 : slots ks3 (liveUserSlotKey u) = active 60 now ks (liveUserSlotKey u)).
  { rewrite Hsl3, decide_False, Hsl2, decide_True by first [done|discriminate]. by apply H1. }
  assert (E3 : slots ks3 (liveAPIKeySlotKey a) = active 60 now ks (liveAPIKeySlotKey a)).
  { rewrite Hsl3, decide_True by done. by apply H02. }
  assert (Hclaim : forall Q : Z -> keyspace -> Prop, (forall ks' ks'', granted ttl now (liveUserSlotKey u) l ks ks' ->
      granted ttl now (liveAPIKeySlotKey a) l ks' ks'' -> Q 1 ks'') -> yields _ now ks3 Q) by
   (intros Q HQ; apply (yields_touch_two _ _ l (Done 1) ks3 Q Hwf3 (live_user u) (live_api_key a) ltac:(discriminate));
    intros ks4 ks5 H4 H5; apply yields_done; eapply HQ; [by eapply silent_granted|done]).
  eapply yields_zscore; [by apply (wf_sets _ _ _ Hwf3)|]. rewrite E2.
  destruct (active 60 now ks (liveUserSlotKey u) !! l) as [sc|] eqn:Eh; cbn zeta.
  - rewrite bool_decide_eq_true_2 by (by eexists).
    eapply yields_zscore; [by apply (wf_sets _ _ _ Hwf3)|]. rewrite E3.
    destruct (active 60 now ks (liveAPIKeySlotKey a) !! l) as [sc'|] eqn:Et.
    + rewrite bool_decide_eq_true_2 by (by eexists). apply Hclaim. eauto.
    + rewrite bool_decide_eq_false_2 by (by intros [? ?]). by apply yields_done.
  - rewrite bool_decide_eq_false_2 by (by intros [? ?]).
    eapply yields_zcard; [by apply (wf_sets _ _ _ Hwf3)|]. eapply yields_zcard; [by apply (wf_sets _ _ _ Hwf3)|].
    rewrite E1, E2. unfold leaseFits, inUse. rewrite !Z.add_0_r.
    destruct (_ && _); cbn [negb]; [by apply yields_done|]. apply Hclaim. eauto.
Qed.

Lemma acquireLiveAccount_yields acc max l (replacing : bool) ks :
  wf ttl now ks ->
  yields (acquireLiveAccountLeaseScript [accountSlotKey acc; liveAccountSlotKey acc]
            [AInt max; AInt 60; AStr l; AInt (if replacing then 1 else 0); AInt ttl]) now ks (fun n ks' =>
    if bool_decide (is_Some (active 60 now ks (liveAccountSlotKey acc) !! l)) ||
       leaseFits ks (accountSlotKey acc) (liveAccountSlotKey acc) max (if replacing then 1 else 0)
    then n = 1 /\ granted ttl now (liveAccountSlotKey acc) l ks ks'
    else n = 0 /\ silent ttl now ks ks').
Proof.
  intros Hwf. unfold acquireLiveAccountLeaseScript. cbn [KEYS ARGN ARGS lookup list_lookup tonumber orRaise lua_bind].
  pose proof (lifetime_regular ttl _ (regular_account acc)) as HR. pose proof (lifetime_live ttl _ (live_account acc)) as HL.
  apply yields_time. eapply (yields_sweep ttl); [done..|]. intros n1 ks1 H1 Hsl1.
  eapply (yields_sweep ttl now _ 60); [apply H1|done..|]. intros n2 ks2 H2 Hsl2.
  pose proof (silent_trans _ _ _ _ _ H1 H2) as H02. pose proof (silent_wf _ _ _ _ H02) as Hwf2.
  assert (E1 : slots ks2 (accountSlotKey acc) = active ttl now ks (accountSlotKey acc)).
  { rewrite Hsl2, decide_False, Hsl1, decide_True by first [done|discriminate]. done. }
  assert (E2 : slots ks2 (liveAccountSlotKey acc) = active 60 now ks (liveAccountSlotKey acc)).
  { rewrite Hsl2, decide_True by done. by apply H1. }
  assert (Htouch : forall P : Prop, P -> yields (touch (liveAccountSlotKey acc) (now / 1000) 60 l (Done 1)) now ks2
    (fun n ks' => n = 1 /\ granted ttl now (liveAccountSlotKey acc) l ks ks')).
  { intros _ _. apply (yields_touch ttl); [lia|done..|]. intros ks3 H3 _. apply yields_done.
    split; [done|]. by eapply silent_granted. }
  replace ((if replacing then 1 else 0) =? 1) with replacing by (by destruct replacing).
  eapply yields_zscore; [by apply (wf_sets _ _ _ Hwf2)|]. rewrite E2.
  destruct (active 60 now ks (liveAccountSlotKey acc) !! l) as [sc|] eqn:Eh.
  - rewrite bool_decide_eq_true_2 by (by eexists). by apply (Htouch True).
  - rewrite bool_decide_eq_false_2 by (by intros [? ?]). cbn [orb]. unfold leaseFits.
    destruct (0 <? max); cbn [andb]; [|by apply (Htouch True)].
    eapply yields_zcard; [by apply (wf_sets _ _ _ Hwf2)|]. eapply yields_zcard; [by apply (wf_sets _ _ _ Hwf2)|].
    rewrite E1, E2. fold (inUse ttl now ks (accountSlotKey acc) (liveAccountSlotKey acc)).
    destruct (_ <=? _); cbn [negb]; [by apply yields_done|by apply (Htouch True)].
Qed.

Lemma touchAll_yields keys l ks :
  wf ttl now ks -> Forall (fun key => live key = true /\ is_Some (active 60 now ks key !! l)) keys ->
  yields (touchAll keys (now / 1000) 60 l) now ks (fun n ks' => n = 1 /\ sameHolders ks ks').
Proof.
  intros Hwf. assert (H0 : sameHolders ks ks) by (by apply silent_sameHolders, silent_refl).
  assert (forall keys ks1, sameHolders ks ks1 -> Forall (fun key => live key = true /\ is_Some (active 60 now ks key !! l)) keys ->
    yields (touchAll keys (now / 1000) 60 l) now ks1 (fun n ks' => n = 1 /\ sameHolders ks ks')) as Hgo; [|by apply Hgo].
  clear keys. induction keys as [|key keys IH]; intros ks1 H1 Hk; cbn [touchAll]; [by apply yields_done|].
  apply Forall_cons in Hk as [[Hl Hm] Hk]. pose proof (lifetime_live ttl _ Hl) as HL.
  apply (yields_touch ttl); [lia|apply H1|done|]. intros ks2 H2 _. apply IH; [|done].
  eapply sameHolders_trans; [done|]. eapply granted_sameHolders; [done..|].
  apply elem_of_dom. rewrite (holders_dom _ _ H1) by done. by apply elem_of_dom.
Qed.

Lemma refreshLive_yields keys l ks :
  wf ttl now ks -> Forall (fun key => live key = true) keys ->
  yields (refreshLiveLeaseScript keys [AInt 60; AStr l]) now ks (fun n ks' =>
    sameHolders ks ks' /\
    n = if decide (Forall (fun key => is_Some (active 60 now ks key !! l)) keys) then 1 else 0).
Proof.
  intros Hwf Hl. unfold refreshLiveLeaseScript. cbn [ARGN ARGS lookup list_lookup tonumber orRaise lua_bind].
  apply yields_time. apply yields_for with (Inv := fun done ks' =>
    silent ttl now ks ks' /\ Forall (fun key => is_Some (active 60 now ks key !! l)) done).
  - split; [by apply silent_refl|done].
  - intros done key ks1 [rest Hpre] [H1 Hf].
    assert (HL : lifetime ttl key = Some 60).
    { apply lifetime_live. rewrite Hpre, !Forall_app, Forall_singleton in Hl. tauto. }
    eapply (yields_sweep ttl now _ 60); [apply H1|done..|]. intros n ks2 H2 Hsl.
    pose proof (silent_trans _ _ _ _ _ H1 H2) as H02.
    eapply yields_zscore; [by apply (wf_sets _ _ _ (silent_wf _ _ _ _ H02))|].
    rewrite Hsl, decide_True by done. rewrite (silent_active _ _ _ _ H1) by done.
    apply yields_done. destruct (active 60 now ks key !! l) as [sc|] eqn:E.
    + split; [done|]. apply Forall_app. split; [done|]. apply Forall_singleton. by eexists.
    + split; [by apply silent_sameHolders|]. rewrite decide_False; [done|].
      rewrite Hpre, !Forall_app, Forall_singleton, E. intros [[_ [? ?]] _]. done.
  - intros ks1 [H1 Hf]. rewrite decide_True by done. eapply yields_mono.
    + apply touchAll_yields; [apply H1|]. apply Forall_and. split; [done|].
      eapply Forall_impl; [apply Forall_and; split; [exact Hf|exact Hl]|]. intros key [Hm Hlk].
      by rewrite (silent_active _ _ _ _ H1) by (by apply lifetime_live).
    + intros n ks2 [-> H2]. split; [|done]. eapply sameHolders_trans; [by apply silent_sameHolders|done].
Qed.
End Loop.
