(* ===== verification/ConcurrencySafety.v ===== *)
(** * Nobody exceeds a concurrency limit

    Any number of processes call the methods of the concurrency cache, their requests to Redis
    interleave, get lost before or after they are executed, and time passes.  The slots in use
    of every user and account stay within the limits the calls were made with. *)

From Stdlib Require Import Ascii.
From stdpp Require Import pretty.
From S2P Require Import Prelude GoStrings Programs Redis ConcurrencyScripts ConcurrencyCache ConcurrencyScriptsProofs.

Open Scope Z_scope.

(** ** Scripts on counters and markers *)

(** The commands of a script write only keys of strings. *)
Definition textCommand {R : Type} (c : rcmd R) : Prop :=
  match c with
  | GET _ | PTTL _ | TIME | EXISTS _ => True
  | SET_PX key _ _ | DEL key | PEXPIRE key _ | EXPIRE key _ | INCR key | DECR key => textual key = true
  | _ => False
  end.

Fixpoint textScript {A : Type} (p : lua A) : Prop :=
  match p with
  | Done _ | Raise => True
  | Call c k => textCommand c /\ forall r, textScript (k r)
  end.

(** Strings may change, sets do not. *)
Record textsOnly (ttl now : Z) (ks ks' : keyspace) : Prop := {
  texts_wf : wf ttl now ks';
  texts_sets : forall key, textual key = false -> ks' !! key = ks !! key
}.

Lemma textScript_bind {A B : Type} (f : A -> lua B) p :
  textScript p -> (forall a, textScript (f a)) -> textScript (lua_bind f p).
Proof. induction p as [a| |R c k IH]; cbn; [auto..|]. intros [? ?] ?. split; auto. Qed.

Lemma textScript_orRaise {A : Type} (o : option A) : textScript (orRaise o).
Proof. by destruct o. Qed.

Lemma textScript_args keys args i : textScript (KEYS keys i) /\ textScript (ARGN args i) /\ textScript (ARGS args i).
Proof. unfold KEYS, ARGN, ARGS, orRaise. repeat case_match; done. Qed.

(** Writing strings under keys of strings. *)
Lemma textsOnly_write ttl now ks ks' key :
  wf ttl now ks -> textual key = true -> (forall z d, ks' !! key <> Some (RZset z, d)) ->
  (forall key', key' <> key -> ks' !! key' = ks !! key') -> textsOnly ttl now ks ks'.
Proof.
  intros Hwf Htx Hkey Hne. split.
  - split.
    + intros key' T HT. assert (key' <> key) as Hd
        by (intros ->; by rewrite (lifetime_not_textual _ _ _ HT) in Htx).
      destruct (wf_sets _ _ _ Hwf key' T HT) as [A B C]. pose proof (Hne key' Hd) as E.
      split; unfold slots in *; intros *; rewrite E; eauto.
    + intros key' z d Htx'. destruct (decide (key' = key)) as [->|Hd]; [done|].
      rewrite Hne by done. by apply Hwf.
  - intros key' Htx'. apply Hne. intros ->. congruence.
Qed.

Lemma documented_text {R : Type} (c : rcmd R) ttl now ks :
  textCommand c -> wf ttl now ks -> textsOnly ttl now ks (documented c now ks).2.
Proof.
  intros Hc Hwf. assert (H0 : textsOnly ttl now ks ks) by done.
  assert (Hdl : forall key d, textual key = true -> textsOnly ttl now ks (set_deadline now key d ks).2).
  { intros key d Htx. unfold set_deadline. destruct (ks !! key) as [[v d0]|] eqn:E; [|done]. cbn [snd].
    case_match; apply (textsOnly_write _ _ _ _ key); try done.
    - intros z d1. by rewrite lookup_delete_eq.
    - intros key' Hd. by rewrite lookup_delete_ne.
    - intros z d1. rewrite lookup_insert_eq. intros ?. simplify_eq. by destruct (wf_texts _ _ _ Hwf key z d0 Htx).
    - intros key' Hd. by rewrite lookup_insert_ne. }
  assert (Hint : forall key d, textual key = true -> textsOnly ttl now ks (add_int key d ks).2).
  { intros key d Htx. unfold add_int. destruct (ks !! key) as [[[s|z] d0]|] eqn:E; cbn; [|done|].
    1: destruct (redis_int s); [|done].
    all: case_bool_decide; [|done]; cbn [snd]; eapply (textsOnly_write _ _ _ _ key); try done; intros *;
      [by rewrite lookup_insert_eq|intros Hd; by rewrite lookup_insert_ne]. }
  destruct c; cbn in Hc; try done; cbn [documented fst snd]; try done.
  - by apply Hdl.
  - by apply Hdl.
  - apply (textsOnly_write _ _ _ _ key); try done; intros *; [by rewrite lookup_delete_eq|].
    intros Hd. by rewrite lookup_delete_ne.
  - by repeat case_match.
  - destruct (milliseconds <=? 0); [done|]. cbn [snd].
    apply (textsOnly_write _ _ _ _ key); try done; intros *; [by rewrite lookup_insert_eq|].
    intros Hd. by rewrite lookup_insert_ne.
  - by apply Hint.
  - by apply Hint.
Qed.

Lemma textsOnly_trans ttl now ks1 ks2 ks3 :
  textsOnly ttl now ks1 ks2 -> textsOnly ttl now ks2 ks3 -> textsOnly ttl now ks1 ks3.
Proof. intros [A B] [A' B']. split; [done|]. intros key Htx. by rewrite B', B. Qed.

Lemma script_text {A : Type} (p : lua A) ttl now ks :
  textScript p -> wf ttl now ks -> textsOnly ttl now ks (script p now ks).2.
Proof.
  revert ks. induction p as [a| |R c k IH]; intros ks Hp Hwf; [done..|]. destruct Hp as [Hc Hk]. cbn [script].
  pose proof (documented_text c ttl now ks Hc Hwf) as H1.
  destruct (documented c now ks) as [[r|] ks']; cbn [snd] in *; [|done].
  eapply textsOnly_trans; [done|]. apply IH; [done|apply H1].
Qed.

Ltac walk_text :=
  repeat match goal with
  | |- textScript (lua_bind _ _) => apply textScript_bind
  | |- textScript (orRaise _) => apply textScript_orRaise
  | |- textScript (Done _) => exact I
  | |- textScript (Call _ _) => split; [cbn; auto with keys|]
  | |- forall _, _ => intros ?
  | |- textScript (match ?x with _ => _ end) => destruct x
  end.

Lemma wait_texts key args :
  textual key = true -> textScript (incrementWaitScript [key] args) /\ textScript (decrementWaitScript [key] args).
Proof.
  intros Htx. unfold incrementWaitScript, decrementWaitScript. cbn [KEYS lookup list_lookup orRaise lua_bind].
  unfold ARGN. split; walk_text.
Qed.

Lemma mirror_texts owner legacy prefix : textual legacy = true -> textScript (mirrorToLegacy owner legacy prefix).
Proof. intros Htx. unfold mirrorToLegacy. cbv zeta. walk_text. Qed.

Lemma setOwned_texts owner legacy g t prefix :
  textual owner = true -> textual legacy = true ->
  textScript (setOwnedAccountCooldownScript [owner; legacy] [AInt g; AInt t; AStr prefix]).
Proof.
  intros Ho Hl. unfold setOwnedAccountCooldownScript. cbn [KEYS ARGN ARGS lookup list_lookup tonumber orRaise lua_bind].
  cbv zeta. split; [done|]. intros current. apply textScript_bind; [walk_text|]. intros _. by apply mirror_texts.
Qed.

Lemma clearOwned_texts owner legacy other g own prefix :
  textual owner = true -> textual legacy = true ->
  textScript (clearOwnedAccountCooldownScript [owner; legacy; other] [AInt g; AStr own; AStr prefix]).
Proof.
  intros Ho Hl. unfold clearOwnedAccountCooldownScript. cbn [KEYS ARGN ARGS lookup list_lookup tonumber orRaise lua_bind].
  cbv zeta. split; [done|]. intros current. destruct (_ && _ && _); [done|].
  split; [done|]. intros n. split; [done|]. intros marker. apply textScript_bind; [walk_text|]. intros _.
  by apply mirror_texts.
Qed.

(** ** Time *)

Lemma slots_elapse later ks key z d :
  elapse later ks !! key = Some (RZset z, d) -> ks !! key = Some (RZset z, d).
Proof. intros E. by apply elapse_lookup in E as [? _]. Qed.

(** The key of a set goes away only when none of its members counts any more. *)
Lemma active_elapse ttl now later ks key T :
  wf ttl now ks -> lifetime ttl key = Some T -> active T later (elapse later ks) key = active T later ks key.
Proof.
  intros Hwf HT. unfold active. destruct (wf_sets _ _ _ Hwf key T HT) as [A B C].
  unfold slots. destruct (ks !! key) as [[[s|z] d]|] eqn:E.
  - by destruct (A s d).
  - destruct (unexpired later (RZset z, d)) eqn:Ed.
    + by rewrite (proj2 (elapse_lookup later ks key _) (conj E Ed)).
    + assert (elapse later ks !! key = None) as ->.
      { apply eq_None_ne_Some. intros e He. apply elapse_lookup in He as [He1 He2].
        assert (e = (RZset z, d)) as -> by congruence. congruence. }
      destruct d as [d|]; [|done]. unfold unexpired in Ed. cbn in Ed. reflect_bool.
      symmetry. rewrite above_empty. apply map_eq. intros m. rewrite lookup_empty. apply eq_None_ne_Some. intros sc Hsc.
      apply above_lookup in Hsc as [Hsc Hlt]. specialize (C z d eq_refl m sc Hsc).
      assert (sc + T <= later / 1000) by (apply Z.div_le_lower_bound; lia). lia.
  - assert (elapse later ks !! key = None) as ->; [|done].
    apply eq_None_ne_Some. intros e He. apply elapse_lookup in He as [He1 _]. congruence.
Qed.

Lemma wf_elapse ttl now later ks : now <= later -> wf ttl now ks -> wf ttl later (elapse later ks).
Proof.
  intros Hle Hwf. pose proof (Z.div_le_mono now later 1000 ltac:(lia) Hle). split.
  - intros key T HT. destruct (wf_sets _ _ _ Hwf key T HT) as [A B C]. split.
    + intros s d E. apply elapse_lookup in E as [E _]. by apply A in E.
    + intros m sc. unfold slots. destruct (elapse later ks !! key) as [[[s|z] d]|] eqn:E; [by rewrite lookup_empty| |].
      * apply slots_elapse in E. intros Hm. specialize (B m sc). unfold slots in B. rewrite E in B.
        apply B in Hm. lia.
      * by rewrite lookup_empty.
    + intros z d E. apply slots_elapse in E. by apply C.
  - intros key z d Htx E. apply slots_elapse in E. by apply (wf_texts _ _ _ Hwf) in E.
Qed.

Lemma active_later_size T now later ks key :
  now <= later -> zsize (active T later ks key) <= zsize (active T now ks key).
Proof.
  intros Hle. pose proof (Z.div_le_mono now later 1000 ltac:(lia) Hle). unfold active.
  rewrite <- (above_above (now / 1000 - T) (later / 1000 - T)) by lia. apply zsize_above_le.
Qed.

(** ** Owners of slots *)

Inductive owner := User (id : Z) | Account (id : Z).

Definition slotKey (o : owner) : string :=
  match o with User id => userSlotKey id | Account id => accountSlotKey id end.

Definition leaseKey (o : owner) : string :=
  match o with User id => liveUserSlotKey id | Account id => liveAccountSlotKey id end.

Lemma regular_slotKey o : regular (slotKey o) = true.
Proof. destruct o; [apply regular_user|apply regular_account]. Qed.

Lemma live_leaseKey o : live (leaseKey o) = true.
Proof. destruct o; [apply live_user|apply live_account]. Qed.

#[export] Hint Resolve regular_slotKey live_leaseKey : keys.

Lemma slotKey_inj o o' : slotKey o = slotKey o' -> o = o'.
Proof.
  destruct o, o'; intros E; try discriminate; apply str_app_inv_head, (inj pretty) in E; by subst.
Qed.

Lemma leaseKey_inj o o' : leaseKey o = leaseKey o' -> o = o'.
Proof.
  destruct o, o'; intros E; try discriminate; apply str_app_inv_head, (inj pretty) in E; by subst.
Qed.

Lemma slotKey_leaseKey o o' : slotKey o <> leaseKey o'.
Proof. destruct o, o'; discriminate. Qed.

(** The slots an owner has in use at an instant. *)
Definition used (ttl now : Z) (ks : keyspace) (o : owner) : Z := inUse ttl now ks (slotKey o) (leaseKey o).

Section Limits.
Context (ttl : Z) (limit : owner -> Z) (Httl : 0 < ttl).

Definition within (now : Z) (ks : keyspace) : Prop := wf ttl now ks /\ forall o, used ttl now ks o <= limit o.

Lemma within_later now later ks : now <= later -> within now ks -> within later (elapse later ks).
Proof.
  intros Hle [Hwf Hb]. split; [by eapply wf_elapse|]. intros o. specialize (Hb o). unfold used, inUse in *.
  rewrite !(active_elapse _ _ _ _ _ _ Hwf) by auto with keys.
  pose proof (active_later_size ttl now later ks (slotKey o) Hle).
  pose proof (active_later_size 60 now later ks (leaseKey o) Hle). lia.
Qed.

Lemma within_holders now ks ks' : sameHolders ttl now ks ks' -> within now ks -> within now ks'.
Proof.
  intros H [_ Hb]. split; [apply H|]. intros o. specialize (Hb o). unfold used, inUse in *.
  by rewrite !(sameHolders_size _ _ _ _ _ _ H) by auto with keys.
Qed.

Lemma within_silent now ks ks' : silent ttl now ks ks' -> within now ks -> within now ks'.
Proof. intros H. by apply within_holders, silent_sameHolders. Qed.

Lemma within_texts now ks ks' : textsOnly ttl now ks ks' -> within now ks -> within now ks'.
Proof.
  intros [A B] [_ Hb]. split; [done|]. intros o. specialize (Hb o). unfold used, inUse, active, slots in *.
  rewrite !B; [done| |]; eapply (lifetime_not_textual ttl); auto with keys.
Qed.

Lemma within_released now key m ks ks' : released ttl now key m ks ks' -> within now ks -> within now ks'.
Proof.
  intros [A B C] [_ Hb]. split; [done|]. intros o. specialize (Hb o). unfold used, inUse in *.
  rewrite !B by auto with keys.
  pose proof (zsize_delete_le (active ttl now ks (slotKey o)) m).
  pose proof (zsize_delete_le (active 60 now ks (leaseKey o)) m). repeat case_decide; lia.
Qed.

(** A slot may be given to whoever holds it already or is below its limit. *)
Definition roomFor (now : Z) (ks : keyspace) (key m : string) : Prop :=
  forall o T, key = slotKey o \/ key = leaseKey o -> lifetime ttl key = Some T ->
    is_Some (active T now ks key !! m) \/ used ttl now ks o < limit o.

Lemma within_granted now key m ks ks' :
  granted ttl now key m ks ks' -> roomFor now ks key m -> within now ks -> within now ks'.
Proof.
  intros [A B C] Hroom [_ Hb]. split; [done|]. intros o. pose proof (Hb o) as Hbo. unfold used, inUse in *.
  rewrite !B by auto with keys.
  pose proof (zsize_insert_le (active ttl now ks (slotKey o)) m (now / 1000)).
  pose proof (zsize_insert_le (active 60 now ks (leaseKey o)) m (now / 1000)).
  case_decide as E1; [|case_decide as E2; [|done]].
  - rewrite decide_False by (intros E2; apply (slotKey_leaseKey o o); congruence). subst key.
    destruct (Hroom o ttl) as [Hh|Hlt]; [by left|auto with keys| |].
    + by rewrite zsize_insert_held.
    + unfold used, inUse in Hlt. lia.
  - subst key. destruct (Hroom o 60) as [Hh|Hlt]; [by right|auto with keys| |].
    + by rewrite zsize_insert_held.
    + unfold used, inUse in Hlt. lia.
Qed.

(** ** Scripts keep within the limits *)

Definition keeps {A : Type} (p : lua A) : Prop :=
  forall now ks, within now ks -> within now (script p now ks).2.

Lemma yields_keeps {A : Type} (p : lua A) (Q : Z -> keyspace -> A -> keyspace -> Prop) :
  (forall now ks, wf ttl now ks -> yields p now ks (Q now ks)) ->
  (forall now ks a ks', within now ks -> Q now ks a ks' -> within now ks') -> keeps p.
Proof.
  intros Hy HQ now ks Hw. destruct (Hy now ks (proj1 Hw)) as (a & ks' & E & H). rewrite E. by eapply HQ.
Qed.

Lemma textScript_keeps {A : Type} (p : lua A) : textScript p -> keeps p.
Proof. intros Hp now ks Hw. eapply within_texts; [by apply script_text, Hw|done]. Qed.

Lemma roomFor_slot now ks o m max :
  is_Some (active ttl now ks (slotKey o) !! m) \/ used ttl now ks o < max -> max <= limit o ->
  roomFor now ks (slotKey o) m.
Proof.
  intros H Hle o' T [E|E] HT.
  - apply slotKey_inj in E as <-. rewrite lifetime_regular in HT by auto with keys. simplify_eq.
    destruct H; [by left|right; lia].
  - by apply slotKey_leaseKey in E.
Qed.

Lemma roomFor_lease now ks o m max :
  is_Some (active 60 now ks (leaseKey o) !! m) \/ used ttl now ks o < max -> max <= limit o ->
  roomFor now ks (leaseKey o) m.
Proof.
  intros H Hle o' T [E|E] HT.
  - symmetry in E. by apply slotKey_leaseKey in E.
  - apply leaseKey_inj in E as <-. rewrite lifetime_live in HT by auto with keys. simplify_eq.
    destruct H; [by left|right; lia].
Qed.

(** A key that belongs to no user and no account has no limit. *)
Lemma roomFor_unowned now ks key m : (forall o, key <> slotKey o /\ key <> leaseKey o) -> roomFor now ks key m.
Proof. intros H o T [E|E] _; destruct (H o); done. Qed.

Definition candidatesWithin (cands : list AccountSlotCandidate) : Prop :=
  forall cand, cand ∈ cands -> cand_MaxConcurrency cand <= limit (Account (cand_AccountID cand)).

Lemma firstFit_room now ks ks1 r cands i cand :
  candidatesWithin cands -> firstFit ttl now ks r cands = Some (i, cand) ->
  claimedBy ttl now r cand ks ks1 -> within now ks -> within now ks1.
Proof.
  intros Hc E Hcl Hw. apply list_find_Some in E as (Hi & Hf & _). apply list_elem_of_lookup_2 in Hi.
  apply Hc in Hi. unfold claimedBy, claimed in Hcl. unfold fits, admissible in Hf.
  destruct (cand_MaxConcurrency cand <=? 0) eqn:E0; [by eapply within_silent|]. reflect_bool.
  eapply within_granted; [done| |done]. apply (roomFor_slot _ _ (Account _) _ (cand_MaxConcurrency cand)); [|done].
  rewrite orb_false_l in *. apply orb_true_iff in H0 as [H0|H0]; reflect_bool; [by left|by right].
Qed.

Lemma acquire_keeps u max r :
  max <= limit (User u) -> keeps (acquireScript [userSlotKey u; liveUserSlotKey u] [AInt max; AInt ttl; AStr r]).
Proof.
  intros Hmax. eapply yields_keeps; [intros; by apply acquire_yields|]. intros now ks n ks' Hw H. cbn beta in H.
  destruct (userFits ttl now ks u max r) eqn:E; destruct H as [_ H]; [|by eapply within_silent].
  eapply within_granted; [done| |done]. apply (roomFor_slot _ _ (User u) _ max); [|done].
  apply orb_true_iff in E as [E|E]; reflect_bool; [by left|by right].
Qed.

Lemma acquireFirst_keeps r cands :
  candidatesWithin cands ->
  keeps (acquireFirstAvailableAccountSlotScript (cands ≫= fun cand => candidateKeys (cand_AccountID cand))
      (AInt ttl :: AStr r :: map (fun cand => AInt (cand_MaxConcurrency cand)) cands)).
Proof.
  intros Hc. eapply yields_keeps; [intros; by apply acquireFirst_yields|]. intros now ks n ks' Hw H. cbn beta in H.
  destruct (firstFit ttl now ks r cands) as [[i cand]|] eqn:E; destruct H as [_ H];
    [by eapply firstFit_room|by eapply within_silent].
Qed.

Lemma acquireFirstUser_keeps u max ur ar cands :
  max <= limit (User u) -> candidatesWithin cands ->
  keeps (acquireFirstAvailableUserAccountSlotsScript
      (userSlotKey u :: liveUserSlotKey u :: (cands ≫= fun cand => candidateKeys (cand_AccountID cand)))
      (AInt ttl :: AInt max :: AStr ur :: AStr ar :: map (fun cand => AInt (cand_MaxConcurrency cand)) cands)).
Proof.
  intros Hmax Hc. eapply yields_keeps; [intros; by apply acquireFirstUser_yields|].
  intros now ks n ks' Hw H. cbn beta in H. destruct (userFits ttl now ks u max ur) eqn:E.
  - destruct (firstFit ttl now ks ar cands) as [[i cand]|] eqn:Ef; destruct H as [_ H]; [|by eapply within_released].
    destruct H as (ks1 & Hg & Hcl). eapply (firstFit_room now ks1); [done| |done|].
    + by rewrite (granted_firstFit ttl now _ _ _ _ _ _ Hg).
    + eapply within_granted; [done| |done]. apply (roomFor_slot _ _ (User u) _ max); [|done].
      apply orb_true_iff in E as [E|E]; reflect_bool; [by left|by right].
  - destruct H as [_ H]. by eapply within_silent.
Qed.

Lemma liveTenant_keeps u max a l :
  0 < max <= limit (User u) ->
  keeps (acquireLiveTenantLeaseScript [userSlotKey u; liveUserSlotKey u; liveAPIKeySlotKey a]
            [AInt max; AInt 60; AStr l; AInt ttl]).
Proof.
  intros Hmax. eapply yields_keeps; [intros; by apply acquireLiveTenant_yields|].
  intros now ks n ks' Hw H. cbn beta zeta in H.
  destruct (if bool_decide _ then _ else _) eqn:E; destruct H as [_ H]; [|by eapply within_silent].
  destruct H as (ks1 & H1 & H2). eapply within_granted; [done|by apply roomFor_unowned; intros []|].
  eapply within_granted; [done| |done]. apply (roomFor_lease _ _ (User u) _ max); [|lia].
  case_bool_decide; [by left|]. right. unfold leaseFits in E. unfold used. cbn [slotKey leaseKey].
  destruct (0 <? max) eqn:E0; reflect_bool; [|lia]. cbn [andb] in E. reflect_bool. lia.
Qed.

Lemma liveAccount_keeps acc max l (replacing : bool) :
  0 < max -> max + (if replacing then 1 else 0) <= limit (Account acc) ->
  keeps (acquireLiveAccountLeaseScript [accountSlotKey acc; liveAccountSlotKey acc]
            [AInt max; AInt 60; AStr l; AInt (if replacing then 1 else 0); AInt ttl]).
Proof.
  intros Hpos Hmax. eapply yields_keeps; [intros; by apply acquireLiveAccount_yields|].
  intros now ks n ks' Hw H. cbn beta in H.
  destruct (bool_decide _ || _) eqn:E; destruct H as [_ H]; [|by eapply within_silent].
  eapply within_granted; [done| |done].
  apply (roomFor_lease _ _ (Account acc) _ (max + (if replacing then 1 else 0))); [|done].
  apply orb_true_iff in E as [E|E]; reflect_bool; [by left|right]. unfold leaseFits in E. unfold used. cbn [slotKey leaseKey].
  destruct (0 <? max) eqn:E0; reflect_bool; [|lia]. cbn [andb] in E. reflect_bool. lia.
Qed.

Lemma refreshLive_keeps keys l :
  Forall (fun key => live key = true) keys -> keeps (refreshLiveLeaseScript keys [AInt 60; AStr l]).
Proof.
  intros Hl. eapply yields_keeps; [intros; by apply refreshLive_yields|].
  intros now ks n ks' Hw [H _]. by eapply within_holders.
Qed.

Lemma track_keeps a r : keeps (trackSlotScript [apiKeySlotKey a] [AInt ttl; AStr r]).
Proof.
  eapply yields_keeps; [intros; apply track_yields; auto with keys|]. intros now ks n ks' Hw H. cbn beta in H.
  eapply within_granted; [done|by apply roomFor_unowned; intros []|done].
Qed.

Lemma getCount_keeps key liveKey :
  regular key = true -> live liveKey = true -> keeps (getCountScript [key; liveKey] [AInt ttl]).
Proof.
  intros Hr Hl. eapply yields_keeps; [intros; by apply getCount_yields|].
  intros now ks n ks' Hw [_ H]. by eapply within_silent.
Qed.

Lemma cleanupKeys_keeps keys :
  Forall (fun key => regular key = true) keys -> keeps (cleanupExpiredSlotKeysScript keys [AInt ttl]).
Proof.
  intros Hr. eapply yields_keeps; [intros; by apply cleanupKeys_yields|].
  intros now ks n ks' Hw H. cbn beta in H. by eapply within_silent.
Qed.

Lemma cleanupSlots_keeps key : regular key = true -> keeps (cleanupExpiredSlotsScript [key] [AInt ttl]).
Proof.
  intros Hr. eapply yields_keeps; [intros; by apply cleanupSlots_yields|].
  intros now ks n ks' Hw H. cbn beta in H. by eapply within_silent.
Qed.

(** ** Requests and programs keep within the limits *)

Context {store : Type} `{RedisServer store}.

(** Renewals of regular slots come in time: before the slot they renew has run out. *)
Definition timelyRequest (now : Z) (ks : keyspace) {R : Type} (c : request R) : Prop :=
  match c with
  | Run RefreshSlotOnce keys args =>
    forall key r, keys !! 0%nat = Some key -> args !! 0%nat = Some (AStr r) -> timely ttl now ks key r
  | Run RefreshSlotBatch keys args =>
    forall i key r, keys !! i = Some key -> args !! S i = Some (AStr r) -> timely ttl now ks key r
  | _ => True
  end.

Definition keepsWithin {R : Type} (c : request R) (since : Z) : Prop :=
  forall w now (s : store), since <= now -> within now (peek now s) -> timelyRequest now (peek now s) c ->
    within now (peek now (serve w c now s).2).

(** Whatever the program asks from an instant on, and whatever it is answered, keeps within. *)
Fixpoint harmless {A : Type} (p : prog request A) (since : Z) : Prop :=
  match p with
  | Ret _ => True
  | Do c k =>
    keepsWithin c since /\ forall w now (s : store), since <= now -> harmless (k (answer w c now s).1) now
  end.

Lemma harmless_later {A : Type} (p : prog request A) since later :
  since <= later -> harmless p since -> harmless p later.
Proof.
  destruct p as [a|R c k]; [done|]. intros Hle [Hc Hk]. split.
  - intros w now s Hn. apply Hc. lia.
  - intros w now s Hn. apply Hk. lia.
Qed.

Lemma harmless_bind {A B : Type} (p : prog request A) (f : A -> prog request B) since :
  harmless p since -> (forall a now, since <= now -> harmless (f a) now) -> harmless (bind p f) since.
Proof.
  revert since. induction p as [a|R c k IH]; intros since Hp Hf; cbn [bind harmless] in *.
  - apply Hf. lia.
  - destruct Hp as [Hc Hk]. split; [done|]. intros w now s Hn. apply IH; [by apply Hk|].
    intros a now' Hn'. apply Hf. lia.
Qed.

Lemma run_keepsWithin sc keys args since :
  (forall now ks, since <= now -> within now ks -> timelyRequest now ks (Run sc keys args) ->
    within now (script (text_of sc keys args) now ks).2) ->
  keepsWithin (Run sc keys args) since.
Proof.
  intros Hk w now s Hn Hw Ht. cbn [serve]. rewrite (proj2 (eval_script _ _ _)). by apply Hk.
Qed.

Lemma keeps_keepsWithin sc keys args since : keeps (text_of sc keys args) -> keepsWithin (Run sc keys args) since.
Proof. intros Hk. apply run_keepsWithin. intros now ks _ Hw _. by apply Hk. Qed.

Lemma refreshOnce_keepsWithin key r since :
  regular key = true -> keepsWithin (Run RefreshSlotOnce [key] [AStr r; AInt ttl]) since.
Proof.
  intros Hr. apply run_keepsWithin. intros now ks _ Hw Ht.
  destruct (refresh_yields ttl now Httl key r ks (proj1 Hw) Hr) as (n & ks' & E & Hh & _).
  { by apply Ht. }
  cbn [text_of]. rewrite E. by eapply within_holders.
Qed.

Lemma refreshBatch_keepsWithin pairs since :
  Forall (fun p : string * string => regular p.1 = true) pairs ->
  keepsWithin (Run RefreshSlotBatch (map fst pairs) (AInt ttl :: map (fun p => AStr p.2) pairs)) since.
Proof.
  intros Hr. apply run_keepsWithin. intros now ks _ Hw Ht.
  destruct (refreshSlots_yields ttl now Httl pairs ks (proj1 Hw)) as (n & ks' & E & Hh).
  { apply Forall_lookup. intros i [key r] Hi. split; [exact (Forall_lookup_1 _ _ _ _ Hr Hi)|].
    apply (Ht i); cbn [lookup list_lookup];
      [change ((fst <$> pairs) !! i = Some key)|change (((fun p : string * string => AStr p.2) <$> pairs) !! i = Some (AStr r))];
      by rewrite list_lookup_fmap, Hi. }
  cbn [text_of]. rewrite E. by eapply within_holders.
Qed.

(** Commands of the client. *)
Lemma command_keepsWithin {R : Type} (c : rcmd R) since :
  (forall now ks, since <= now -> within now ks -> within now (documented c now ks).2) ->
  keepsWithin (Command c) since.
Proof. intros Hk w now s Hn Hw _. cbn [serve]. rewrite exec_effect. by apply Hk. Qed.

Lemma zrem_within now ks key T m :
  lifetime ttl key = Some T -> within now ks -> within now (documented (ZREM key m) now ks).2.
Proof.
  intros HT Hw. assert (yields (Call (ZREM key m) (fun n => Done n)) now ks (fun _ ks' => released ttl now key m ks ks'))
    as (n & ks' & E & Hrel).
  { eapply (yields_zrem ttl); [apply Hw|done|]. intros n ks' Hrel _. by apply yields_done. }
  cbn [script] in E. destruct (documented (ZREM key m) now ks) as [[r|] ks2]; simplify_eq; cbn [snd].
  by eapply within_released.
Qed.

Lemma zremrange_within now ks key T cutoff :
  lifetime ttl key = Some T -> cutoff <= now / 1000 - T -> within now ks ->
  within now (documented (ZREMRANGEBYSCORE key cutoff) now ks).2.
Proof.
  intros HT Hcut Hw. destruct (slots_set_ok _ _ _ _ (wf_sets _ _ _ (proj1 Hw) key T HT)) as [d E].
  cbn. rewrite E. cbn [snd]. eapply within_silent; [|done]. split.
  - eapply narrowed; [apply Hw|done|done|apply map_filter_subseteq].
  - intros key' T' HT'. unfold active. rewrite slots_put. case_decide; [|done]. simplify_eq.
    by apply above_above.
  - intros key' Htx. apply put_zset_ne. intros ->. by rewrite (lifetime_not_textual _ _ _ HT) in Htx.
Qed.

Lemma read_within {R : Type} (c : rcmd R) now ks :
  (forall ks', (documented c now ks').2 = ks') -> within now ks -> within now (documented c now ks).2.
Proof. intros ->. done. Qed.

(** ** The methods of the cache *)

Lemma concurrencySlotKey_regular kind id key : concurrencySlotKey kind id = Some key -> regular key = true.
Proof. unfold concurrencySlotKey. intros E. repeat case_match; simplify_eq; auto with keys. Qed.

Lemma renewable_regular batch : Forall (fun p => regular p.1 = true) (renewable batch).
Proof.
  apply Forall_forall. intros [key r] Hin. apply list_elem_of_omap in Hin as (renewal & _ & E).
  destruct (concurrencySlotKey _ _) as [key'|] eqn:Ek; [|done]. case_match; simplify_eq.
  by eapply concurrencySlotKey_regular.
Qed.

Context (c : concurrencyCache) (Hc : slotTTLSeconds c = ttl).

Lemma within_single acc max : max <= limit (Account acc) -> candidatesWithin [MkAccountSlotCandidate acc max ""].
Proof. intros Hm cand Hin. apply list_elem_of_singleton in Hin as ->. done. Qed.

Lemma within_submitted cands : candidatesWithin cands -> candidatesWithin (submitted cands).
Proof. intros Hw cand Hin. apply Hw. by apply list_elem_of_filter in Hin as [_ Hin]. Qed.

Lemma harmless_run {A : Type} sc keys args (f : option Z -> A) since :
  keepsWithin (Run sc keys args) since -> harmless (Do (Run sc keys args) (fun r => Ret (f r))) since.
Proof. intros Hk. split; [done|]. intros; exact I. Qed.

Lemma harmless_command {R A : Type} (cmd : rcmd R) (f : option R -> A) since :
  keepsWithin (Command cmd) since -> harmless (Do (Command cmd) (fun r => Ret (f r))) since.
Proof. intros Hk. split; [done|]. intros; exact I. Qed.

Lemma harmless_text {A : Type} sc keys args (f : option Z -> A) since :
  textScript (text_of sc keys args) -> harmless (Do (Run sc keys args) (fun r => Ret (f r))) since.
Proof. intros Ht. by apply harmless_run, keeps_keepsWithin, textScript_keeps. Qed.

Lemma AcquireAccountSlot_harmless acc max r since :
  max <= limit (Account acc) -> harmless (AcquireAccountSlot c acc max r) since.
Proof.
  intros Hm. apply harmless_run, keeps_keepsWithin. rewrite Hc.
  apply (acquireFirst_keeps r [MkAccountSlotCandidate acc max ""]). by apply within_single.
Qed.

Lemma AcquireFirstAvailable_harmless cands r since :
  candidatesWithin cands -> harmless (AcquireFirstAvailableAccountSlot c cands r) since.
Proof.
  intros Hw. apply within_submitted in Hw. unfold AcquireFirstAvailableAccountSlot.
  destruct (submitted cands); [done|]. apply harmless_run, keeps_keepsWithin. rewrite Hc. by apply acquireFirst_keeps.
Qed.

Lemma AcquireFirstAvailableUser_harmless u max cands ur ar since :
  max <= limit (User u) -> candidatesWithin cands ->
  harmless (AcquireFirstAvailableUserAccountSlots c u max cands ur ar) since.
Proof.
  intros Hm Hw. apply within_submitted in Hw. unfold AcquireFirstAvailableUserAccountSlots.
  destruct (_ || _); [done|]. destruct (submitted cands); [done|].
  apply harmless_run, keeps_keepsWithin. rewrite Hc. by apply acquireFirstUser_keeps.
Qed.

Lemma zrem_harmless key T m since :
  lifetime ttl key = Some T -> harmless (commandFine (ZREM key m)) since.
Proof. intros HT. apply harmless_command, command_keepsWithin. intros now ks _. by eapply zrem_within. Qed.

Lemma RefreshSlot_harmless kind id r since : harmless (RefreshSlot c kind id r) since.
Proof.
  unfold RefreshSlot. destruct (concurrencySlotKey kind id) as [key|] eqn:E; [|done].
  apply harmless_run. rewrite Hc. by eapply refreshOnce_keepsWithin, concurrencySlotKey_regular.
Qed.

Lemma RefreshSlots_harmless renewals since : harmless (RefreshSlots c renewals) since.
Proof.
  unfold RefreshSlots. generalize (inBatches (length renewals) 512 renewals). intros batches. revert since.
  induction batches as [|batch batches IH]; intros since; cbn [refreshBatches]; [done|].
  pose proof (renewable_regular batch) as Hr. destruct (renewable batch) as [|p pairs]; [apply IH|].
  split; [rewrite Hc; by apply refreshBatch_keepsWithin|]. intros w now s Hn. case_match; [apply IH|done].
Qed.

(** Counting sweeps with a cutoff from an earlier reading of the clock. *)
Lemma countEntities_harmless slotKeyOf liveKeyOf waitKeyOf ids (t0 : Z) acc e since :
  (forall id, regular (slotKeyOf id) = true) -> (forall id, live (liveKeyOf id) = true) -> t0 <= since / 1000 ->
  harmless (countEntities c slotKeyOf liveKeyOf waitKeyOf ids t0 acc e) since.
Proof.
  intros Hr Hl. revert acc e since. induction ids as [|id ids IH]; intros acc e since Ht; cbn [countEntities]; [done|].
  assert (Hmono : forall now, since <= now -> t0 <= now / 1000)
    by (intros now Hn; pose proof (Z.div_le_mono since now 1000 ltac:(lia) Hn); lia).
  unfold countEntity. split.
  { apply command_keepsWithin. intros now ks Hn. apply (zremrange_within _ _ _ ttl); [auto with keys|].
    specialize (Hmono now Hn). rewrite Hc. lia. }
  intros w1 n1 s1 Hn1. split.
  { apply command_keepsWithin. intros now ks Hn. apply (zremrange_within _ _ _ 60); [auto with keys|].
    specialize (Hmono now ltac:(lia)). unfold liveLeaseTTLSeconds. lia. }
  intros w2 n2 s2 Hn2. split.
  { apply command_keepsWithin. intros now ks _. apply read_within. intros ks'. cbn. by destruct (zset_of _ _) as [[]|]. }
  intros w3 n3 s3 Hn3. split.
  { apply command_keepsWithin. intros now ks _. apply read_within. intros ks'. cbn. by destruct (zset_of _ _) as [[]|]. }
  intros w4 n4 s4 Hn4. destruct waitKeyOf as [f|]; [|apply IH, Hmono; lia]. split.
  { apply command_keepsWithin. intros now ks _. apply read_within. intros ks'. cbn. by repeat case_match. }
  intros w5 n5 s5 Hn5. apply IH, Hmono. lia.
Qed.

Lemma countBatch_harmless slotKeyOf liveKeyOf waitKeyOf ids since :
  (forall id, regular (slotKeyOf id) = true) -> (forall id, live (liveKeyOf id) = true) ->
  harmless (countBatch c slotKeyOf liveKeyOf waitKeyOf ids) since.
Proof.
  intros Hr Hl. split; [apply command_keepsWithin; intros; by apply read_within|].
  intros w now s Hn. unfold answer. destruct (w_fault w); [|done..]. cbn [serve].
  pose proof (exec_reply TIME now s) as E. cbn in E. rewrite E. by apply countEntities_harmless.
Qed.

Lemma batch_harmless {A : Type} slotKeyOf liveKeyOf waitKeyOf (ids : list Z) (f : option (list loadReply) -> A) since :
  (forall id, regular (slotKeyOf id) = true) -> (forall id, live (liveKeyOf id) = true) ->
  harmless (bind (countBatch c slotKeyOf liveKeyOf waitKeyOf ids) (fun l => Ret (f l))) since.
Proof. intros Hr Hl. apply harmless_bind; [by apply countBatch_harmless|done]. Qed.

Lemma cleanupPages_harmless fuel cursor pattern since :
  (forall key, matches pattern key = true -> regular key = true) ->
  harmless (cleanupPages c fuel cursor pattern) since.
Proof.
  intros Hm. revert cursor since. induction fuel as [|fuel IH]; intros cursor since; cbn [cleanupPages]; [done|].
  split; [by intros w now s _ Hw _|]. intros w now s Hn. unfold answer.
  destruct (w_fault w); [|done..]. cbn [serve fst].
  set (keys := filter _ _). assert (Hkeys : Forall (fun key => regular key = true) keys).
  { apply Forall_forall. intros key Hin. apply Hm. by apply list_elem_of_filter in Hin as [? _]. }
  assert (Hnext : forall t, harmless (if (w_page w).2 =? 0 then Ret (Some tt) else cleanupPages c fuel (w_page w).2 pattern) t)
    by (intros t; case_match; [done|apply IH]).
  clearbody keys. destruct keys as [|key keys]; [apply Hnext|].
  split; [apply keeps_keepsWithin; rewrite Hc; by apply cleanupKeys_keeps|].
  intros w' now' s' Hn'. destruct (answer w' _ now' s').1 as [n|]; [apply Hnext|done].
Qed.

Lemma matches_regular pattern :
  pattern ∈ [accountSlotKeyPrefix +:+ "*"; userSlotKeyPrefix +:+ "*"; apiKeySlotKeyPrefix +:+ "*"] ->
  forall key, matches pattern key = true -> regular key = true.
Proof.
  intros Hp key. unfold matches, regular. rewrite !elem_of_cons, elem_of_nil in Hp.
  destruct Hp as [->|[->|[->|[]]]]; intros Hm;
    [replace (TrimSuffix (accountSlotKeyPrefix +:+ "*") "*") with accountSlotKeyPrefix in Hm by reflexivity
    |replace (TrimSuffix (userSlotKeyPrefix +:+ "*") "*") with userSlotKeyPrefix in Hm by reflexivity
    |replace (TrimSuffix (apiKeySlotKeyPrefix +:+ "*") "*") with apiKeySlotKeyPrefix in Hm by reflexivity];
    rewrite Hm; by rewrite ?orb_true_r.
Qed.

Lemma cleanupPatterns_harmless fuel patterns since :
  (forall p, p ∈ patterns -> forall key, matches p key = true -> regular key = true) ->
  harmless (cleanupPatterns c fuel patterns) since.
Proof.
  revert since. induction patterns as [|p patterns IH]; intros since Hp; cbn [cleanupPatterns]; [done|].
  apply harmless_bind; [apply cleanupPages_harmless, Hp; left|].
  intros r now Hn. case_match; [|done]. apply IH. intros q Hq. apply Hp. by right.
Qed.

Lemma cooldown_harmless {A : Type} sc keys args (b : bool) (a : A) (f : option Z -> A) since :
  textScript (text_of sc keys args) ->
  harmless (if b then Ret a else Do (Run sc keys args) (fun r => Ret (f r))) since.
Proof. intros Ht. destruct b; [done|]. by apply harmless_text. Qed.

Lemma readCooldown_harmless key since : harmless (readCooldown key) since.
Proof.
  split.
  { apply command_keepsWithin. intros now ks _. apply read_within. intros ks'. cbn. by repeat case_match. }
  intros w1 n1 s1 Hn1. destruct (answer _ _ _ _).1 as [[value|]|]; [|done..]. split.
  { apply command_keepsWithin. intros now ks _. by apply read_within. }
  intros w2 n2 s2 Hn2. destruct (answer _ _ _ _).1 as [ms|]; [|done]. case_match; [done|].
  split; [by intros w now s _ Hw _|done].
Qed.

Lemma transaction_keepsWithin cs since :
  Forall (fun cmd : rcmd Z => forall now ks, within now ks -> within now (documented cmd now ks).2) cs ->
  keepsWithin (Transaction cs) since.
Proof.
  intros Hcs w now s _ Hw _. cbn [serve]. revert s Hw. induction Hcs as [|cmd cs Hcmd Hcs IH]; intros s Hw; [done|].
  cbn [transact]. pose proof (exec_effect cmd now s) as E. destruct (exec cmd now s) as [r s1]. cbn [snd] in E.
  specialize (IH s1). rewrite E in IH. specialize (IH (Hcmd now _ Hw)).
  by destruct (transact cs now s1) as [r2 s2].
Qed.

(** A call of a method, its result set aside, with limits that are respected. *)
Definition discard {A : Type} (p : prog request A) : prog request unit := bind p (fun _ => Ret tt).

Inductive cacheCall : prog request unit -> Prop :=
  | call_AcquireAccountSlot acc max r :
    max <= limit (Account acc) -> cacheCall (discard (AcquireAccountSlot c acc max r))
  | call_AcquireFirstAvailableAccountSlot cands r :
    candidatesWithin cands -> cacheCall (discard (AcquireFirstAvailableAccountSlot c cands r))
  | call_AcquireFirstAvailableUserAccountSlots u max cands ur ar :
    max <= limit (User u) -> candidatesWithin cands ->
    cacheCall (discard (AcquireFirstAvailableUserAccountSlots c u max cands ur ar))
  | call_AcquireUserSlot u max r : max <= limit (User u) -> cacheCall (discard (AcquireUserSlot c u max r))
  | call_AcquireLiveTenantLease u max a l :
    0 < max <= limit (User u) -> cacheCall (discard (AcquireLiveTenantLease c u max a l))
  | call_AcquireLiveAccountLease acc max l (replacing : bool) :
    0 < max -> max + (if replacing then 1 else 0) <= limit (Account acc) ->
    cacheCall (discard (AcquireLiveAccountLease c acc max l replacing))
  | call_ReleaseAccountSlot acc r : cacheCall (discard (ReleaseAccountSlot acc r))
  | call_ReleaseUserSlot u r : cacheCall (discard (ReleaseUserSlot u r))
  | call_TrackAPIKeySlot a r : cacheCall (discard (TrackAPIKeySlot c a r))
  | call_ReleaseAPIKeySlot a r : cacheCall (discard (ReleaseAPIKeySlot a r))
  | call_RefreshSlot kind id r : cacheCall (discard (RefreshSlot c kind id r))
  | call_RefreshSlots renewals : cacheCall (discard (RefreshSlots c renewals))
  | call_RefreshLiveTenantLease u a l : cacheCall (discard (RefreshLiveTenantLease u a l))
  | call_RefreshLiveAccountLease acc l : cacheCall (discard (RefreshLiveAccountLease acc l))
  | call_ReleaseLiveTenantLease u a l : cacheCall (discard (ReleaseLiveTenantLease u a l))
  | call_ReleaseLiveAccountLease acc l : cacheCall (discard (ReleaseLiveAccountLease acc l))
  | call_GetAccountConcurrency acc : cacheCall (discard (GetAccountConcurrency c acc))
  | call_GetUserConcurrency u : cacheCall (discard (GetUserConcurrency c u))
  | call_GetAccountConcurrencyBatch ids : cacheCall (discard (GetAccountConcurrencyBatch c ids))
  | call_GetAPIKeyConcurrencyBatch ids : cacheCall (discard (GetAPIKeyConcurrencyBatch c ids))
  | call_GetAccountsLoadBatch limits : cacheCall (discard (GetAccountsLoadBatch c limits))
  | call_GetUsersLoadBatch limits : cacheCall (discard (GetUsersLoadBatch c limits))
  | call_IncrementWaitCount u max : cacheCall (discard (IncrementWaitCount c u max))
  | call_DecrementWaitCount u : cacheCall (discard (DecrementWaitCount u))
  | call_IncrementAccountWaitCount acc max : cacheCall (discard (IncrementAccountWaitCount c acc max))
  | call_DecrementAccountWaitCount acc : cacheCall (discard (DecrementAccountWaitCount acc))
  | call_GetAccountWaitingCount acc : cacheCall (discard (GetAccountWaitingCount acc))
  | call_SetAccountCooldown acc t : cacheCall (discard (SetAccountCooldown acc t))
  | call_SetAccountCooldownGeneration acc t g : cacheCall (discard (SetAccountCooldownGeneration acc t g))
  | call_ClearAccountCooldown acc : cacheCall (discard (ClearAccountCooldown acc))
  | call_ClearAccountCooldownBeforeGeneration acc g :
    cacheCall (discard (ClearAccountCooldownBeforeGeneration acc g))
  | call_SetOpenAIPoolCooldownGeneration acc t g : cacheCall (discard (SetOpenAIPoolCooldownGeneration acc t g))
  | call_ClearOpenAIPoolCooldown acc : cacheCall (discard (ClearOpenAIPoolCooldown acc))
  | call_ClearOpenAIPoolCooldownBeforeGeneration acc g :
    cacheCall (discard (ClearOpenAIPoolCooldownBeforeGeneration acc g))
  | call_GetAccountCooldown acc : cacheCall (discard (GetAccountCooldown acc))
  | call_GetOpenAIPoolCooldown acc : cacheCall (discard (GetOpenAIPoolCooldown acc))
  | call_CleanupExpiredAccountSlots acc : cacheCall (discard (CleanupExpiredAccountSlots c acc))
  | call_CleanupExpiredAccountSlotKeys fuel : cacheCall (discard (CleanupExpiredAccountSlotKeys c fuel))
  | call_CleanupStaleProcessSlots fuel prefix : cacheCall (discard (CleanupStaleProcessSlots c fuel prefix)).

Lemma SetAccountCooldownGeneration_harmless acc t g since : harmless (SetAccountCooldownGeneration acc t g) since.
Proof. apply cooldown_harmless, setOwned_texts; auto with keys. Qed.

Lemma lease_harmless {A : Type} sc keys args (b : bool) (a : A) (f : option Z -> A) since :
  keeps (text_of sc keys args) ->
  harmless (if b then Ret a else Do (Run sc keys args) (fun r => Ret (f r))) since.
Proof. intros Hk. destruct b; [done|]. by apply harmless_run, keeps_keepsWithin. Qed.

Lemma cacheCall_harmless p since : cacheCall p -> harmless p since.
Proof.
  intros Hp. destruct Hp; apply harmless_bind; try done.
  - by apply AcquireAccountSlot_harmless.
  - by apply AcquireFirstAvailable_harmless.
  - by apply AcquireFirstAvailableUser_harmless.
  - apply harmless_run, keeps_keepsWithin. rewrite Hc. by apply acquire_keeps.
  - apply lease_harmless. rewrite Hc. by apply liveTenant_keeps.
  - apply lease_harmless. rewrite Hc. by apply liveAccount_keeps.
  - apply (zrem_harmless _ ttl). auto with keys.
  - apply (zrem_harmless _ ttl). auto with keys.
  - apply harmless_run, keeps_keepsWithin. rewrite Hc. apply track_keeps.
  - apply (zrem_harmless _ ttl). auto with keys.
  - apply RefreshSlot_harmless.
  - apply RefreshSlots_harmless.
  - apply lease_harmless, refreshLive_keeps. repeat constructor; auto with keys.
  - apply lease_harmless, refreshLive_keeps. repeat constructor; auto with keys.
  - unfold ReleaseLiveTenantLease. destruct (is_empty l); [done|]. split; [|done].
    apply transaction_keepsWithin. constructor; [|constructor; [|constructor]]; intros now ks; apply (zrem_within _ _ _ 60); auto with keys.
  - unfold ReleaseLiveAccountLease. destruct (is_empty l); [done|]. apply (zrem_harmless _ 60). auto with keys.
  - apply (harmless_run _ _ _ (fun r => r)), keeps_keepsWithin. rewrite Hc. apply getCount_keeps; auto with keys.
  - apply (harmless_run _ _ _ (fun r => r)), keeps_keepsWithin. rewrite Hc. apply getCount_keeps; auto with keys.
  - destruct ids; [done|]. apply batch_harmless; intros; auto with keys.
  - destruct ids; [done|]. apply batch_harmless; intros; auto with keys.
  - destruct limits; [done|]. apply batch_harmless; intros; auto with keys.
  - destruct limits; [done|]. apply batch_harmless; intros; auto with keys.
  - apply harmless_text, wait_texts. auto with keys.
  - apply harmless_text, wait_texts. auto with keys.
  - apply harmless_text, wait_texts. auto with keys.
  - apply harmless_text, wait_texts. auto with keys.
  - apply harmless_command, command_keepsWithin. intros now ks _. apply read_within. intros ks'. cbn. by repeat case_match.
  - unfold SetAccountCooldown. destruct (_ || _); [done|]. apply SetAccountCooldownGeneration_harmless.
  - apply SetAccountCooldownGeneration_harmless.
  - apply cooldown_harmless, clearOwned_texts; auto with keys.
  - apply cooldown_harmless, clearOwned_texts; auto with keys.
  - apply cooldown_harmless, setOwned_texts; auto with keys.
  - apply cooldown_harmless, clearOwned_texts; auto with keys.
  - apply cooldown_harmless, clearOwned_texts; auto with keys.
  - unfold GetAccountCooldown. case_match; [done|]. apply readCooldown_harmless.
  - unfold GetOpenAIPoolCooldown. case_match; [done|]. apply readCooldown_harmless.
  - apply harmless_run, keeps_keepsWithin. rewrite Hc. apply cleanupSlots_keeps. auto with keys.
  - apply cleanupPages_harmless, matches_regular. set_solver.
  - apply cleanupPatterns_harmless. apply matches_regular.
Qed.

(** ** Processes *)

Record world := MkWorld {
  w_now : Z;
  w_store : store;
  w_threads : list (prog request unit)
}.

Inductive event :=
  | Tick (milliseconds : nat)
  | Start (p : prog request unit)
  | Go (thread : nat) (w : weather).

(** Time passes, a method is called, or a call that is under way gets its next request served. *)
Definition play (wd : world) (e : event) : world :=
  match e with
  | Tick ms => MkWorld (w_now wd + Z.of_nat ms) (w_store wd) (w_threads wd)
  | Start p => MkWorld (w_now wd) (w_store wd) (w_threads wd ++ [p])
  | Go i w =>
    match w_threads wd !! i with
    | Some (Do req k) =>
      let '(r, s) := answer w req (w_now wd) (w_store wd) in
      MkWorld (w_now wd) s (<[i := k r]> (w_threads wd))
    | _ => wd
    end
  end.

Definition nextTimely (now : Z) (ks : keyspace) (p : prog request unit) : Prop :=
  match p with Do req _ => timelyRequest now ks req | Ret _ => True end.

Definition onTime (wd : world) (e : event) : Prop :=
  match e with
  | Start p => cacheCall p
  | Go i _ =>
    match w_threads wd !! i with
    | Some p => nextTimely (w_now wd) (peek (w_now wd) (w_store wd)) p
    | None => True
    end
  | Tick _ => True
  end.

Fixpoint lawful (wd : world) (es : list event) : Prop :=
  match es with [] => True | e :: es => onTime wd e /\ lawful (play wd e) es end.

Definition sound (wd : world) : Prop :=
  within (w_now wd) (peek (w_now wd) (w_store wd)) /\ Forall (fun p => harmless p (w_now wd)) (w_threads wd).

Lemma play_keeps_sound wd e : sound wd -> onTime wd e -> sound (play wd e).
Proof.
  intros [Hw Ht] He. destruct e as [ms|p|i w]; cbn [play].
  - split; cbn.
    + rewrite (peek_later (w_store wd) (w_now wd)) by lia. eapply within_later; [|done]. lia.
    + eapply Forall_impl; [exact Ht|]. intros p Hp. eapply harmless_later; [|exact Hp]. lia.
  - split; [done|]. cbn. apply Forall_app. split; [done|]. apply Forall_singleton. by apply cacheCall_harmless.
  - cbn in He. destruct (w_threads wd !! i) as [[a|R req k]|] eqn:E; [by split| |by split].
    pose proof (Forall_lookup_1 _ _ _ _ Ht E) as [Hreq Hk].
    specialize (Hreq w (w_now wd) (w_store wd) (Z.le_refl _) Hw He).
    specialize (Hk w (w_now wd) (w_store wd) (Z.le_refl _)).
    assert (Hs : within (w_now wd) (peek (w_now wd) (answer w req (w_now wd) (w_store wd)).2))
      by (unfold answer; by destruct (w_fault w)).
    destruct (answer w req (w_now wd) (w_store wd)) as [r s]. split; [done|]. cbn. by apply Forall_insert.
Qed.

Lemma lawful_sound es wd : sound wd -> lawful wd es -> sound (foldl play wd es).
Proof.
  revert wd. induction es as [|e es IH]; intros wd Hs Hl; [done|]. destruct Hl as [He Hl].
  apply (IH (play wd e)); [by apply play_keeps_sound|done].
Qed.
End Limits.

Arguments MkWorld {store} _ _ _.
Arguments w_now {store} _.
Arguments w_store {store} _.
Arguments w_threads {store} _.


(** ** Concrete schedules *)

Definition oneMinute : concurrencyCache := NewConcurrencyCache 1 0.

Definition atMost (n : Z) (o : owner) : Z := n.

(** The first request of a thread is served at once. *)
Definition served (thread : nat) (p : prog request unit) : list event := [Start p; Go thread calm].

Definition aBusyUser : list event :=
  served 0 (discard (AcquireUserSlot oneMinute 1 1 "a")) ++
  served 1 (discard (AcquireUserSlot oneMinute 1 1 "b")) ++
  [Tick 30000] ++
  served 2 (discard (RefreshSlot oneMinute "user" 1 "a")) ++
  [Tick 45000] ++
  served 3 (discard (AcquireUserSlot oneMinute 1 1 "c")).


(** Three requests on an account for two: the first one's slot has run out and the third takes
    its place, but the set keeps the expired member and a late renewal revives it. *)
Definition aLateRenewal : list event :=
  served 0 (discard (AcquireAccountSlot oneMinute 1 2 "a")) ++
  [Tick 30000] ++
  served 1 (discard (AcquireAccountSlot oneMinute 1 2 "b")) ++
  [Tick 31000] ++
  served 2 (discard (AcquireAccountSlot oneMinute 1 2 "c")) ++
  served 3 (discard (RefreshSlot oneMinute "account" 1 "a")).

