(* ===== verification/ConcurrencyCacheProofs.v ===== *)
(** * What the methods of the concurrency cache promise

    Methods called on their own: which account is selected, what is claimed, what counts after
    a release, what waiting costs and how long a cooldown lasts. *)

From Stdlib Require Import Ascii.
From stdpp Require Import pretty.
From S2P Require Import Prelude GoStrings GoStringsFacts Programs Redis ConcurrencyScripts ConcurrencyCache ConcurrencyScriptsProofs ConcurrencySafety.

Open Scope Z_scope.

Section Methods.
Context {store : Type} `{RedisServer store} (c : concurrencyCache).

Local Notation ttl := (slotTTLSeconds c).

(** A script that was run, seen through its documented effects. *)
Lemma atOnce_run {A : Type} sc keys args (f : option Z -> A) now (s : store) :
  let r := atOnce (Do (Run sc keys args) (fun n => Ret (f n))) now s in
  r.1 = f (script (text_of sc keys args) now (peek now s)).1 /\
  peek now r.2 = (script (text_of sc keys args) now (peek now s)).2.
Proof.
  destruct (eval_script (text_of sc keys args) now s) as [E1 E2]. cbn. unfold answer. cbn.
  destruct (eval (text_of sc keys args) now s) as [n s']. cbn in *. by rewrite E1.
Qed.

Lemma atOnce_yields {A : Type} sc keys args (f : option Z -> A) now (s : store) (Q : Z -> keyspace -> Prop) :
  yields (text_of sc keys args) now (peek now s) Q ->
  let r := atOnce (Do (Run sc keys args) (fun n => Ret (f n))) now s in
  exists n, r.1 = f (Some n) /\ Q n (peek now r.2).
Proof.
  intros (n & ks' & E & HQ). destruct (atOnce_run sc keys args f now s) as [E1 E2]. rewrite E in E1, E2.
  exists n. by rewrite E2.
Qed.

Lemma atOnce_command {R A : Type} (cmd : rcmd R) (f : option R -> A) now (s : store) :
  let r := atOnce (Do (Command cmd) (fun n => Ret (f n))) now s in
  r.1 = f (documented cmd now (peek now s)).1 /\ peek now r.2 = (documented cmd now (peek now s)).2.
Proof.
  pose proof (exec_reply cmd now s) as E1. pose proof (exec_effect cmd now s) as E2. cbn. unfold answer. cbn.
  destruct (exec cmd now s) as [n s']. cbn in *. by rewrite E1.
Qed.

Lemma selected_first (cands : list AccountSlotCandidate) i cand :
  cands !! i = Some cand ->
  selected (map cand_AccountID cands) (Some (Z.of_nat i + 1)) = Some (cand_AccountID cand, true).
Proof.
  intros Hi. pose proof (lookup_lt_Some _ _ _ Hi). unfold selected. rewrite length_map.
  rewrite (proj2 (Z.leb_gt _ _)), (proj2 (Z.ltb_ge _ _)) by lia. cbn [orb].
  replace (Z.to_nat (Z.of_nat i + 1 - 1)) with i by lia.
  change ((Some (default 0 ((cand_AccountID <$> cands) !! i), true)) = Some (cand_AccountID cand, true)).
  by rewrite list_lookup_fmap, Hi.
Qed.

(** ** Selection *)

Lemma AcquireFirst_atOnce candidates r now (s : store) :
  0 < ttl -> wf ttl now (peek now s) ->
  let run := atOnce (AcquireFirstAvailableAccountSlot c candidates r) now s in
  match firstFit ttl now (peek now s) r (submitted candidates) with
  | Some (_, cand) =>
    run.1 = Some (cand_AccountID cand, true) /\ claimedBy ttl now r cand (peek now s) (peek now run.2)
  | None => run.1 = Some (0, false) /\ silent ttl now (peek now s) (peek now run.2)
  end.
Proof.
  intros Httl Hwf. unfold AcquireFirstAvailableAccountSlot.
  destruct (submitted candidates) as [|cand0 cands0] eqn:Es; [split; [done|by apply silent_refl]|].
  rewrite <- Es. clear Es. generalize (submitted candidates). clear cand0 cands0. intros cands.
  destruct (atOnce_yields AcquireFirstAvailableAccount _ _ (selected (map cand_AccountID cands)) now s _
    (acquireFirst_yields ttl now Httl cands r (peek now s) Hwf)) as (n & E & HQ). cbn zeta. rewrite E. clear E.
  destruct (firstFit ttl now (peek now s) r cands) as [[i cand]|] eqn:Ef; destruct HQ as [-> HQ]; [|done].
  split; [|done]. apply selected_first. by apply list_find_Some in Ef as [? _].
Qed.

Lemma AcquireFirstUser_atOnce u max candidates ur ar now (s : store) :
  0 < ttl -> 0 < u -> 0 < max -> wf ttl now (peek now s) -> submitted candidates <> [] ->
  let run := atOnce (AcquireFirstAvailableUserAccountSlots c u max candidates ur ar) now s in
  match userFits ttl now (peek now s) u max ur, firstFit ttl now (peek now s) ar (submitted candidates) with
  | true, Some (_, cand) =>
    run.1 = Some (cand_AccountID cand, true) /\ bothClaimed ttl now u ur ar cand (peek now s) (peek now run.2)
  | true, None => run.1 = Some (0, false) /\ released ttl now (userSlotKey u) ur (peek now s) (peek now run.2)
  | false, _ => run.1 = Some (0, false) /\ silent ttl now (peek now s) (peek now run.2)
  end.
Proof.
  intros Httl Hu Hmax Hwf Hne. unfold AcquireFirstAvailableUserAccountSlots.
  rewrite (proj2 (Z.leb_gt u 0)), (proj2 (Z.leb_gt max 0)) by lia. cbn [orb].
  destruct (submitted candidates) as [|cand0 cands0] eqn:Es; [done|].
  rewrite <- Es. clear Es Hne. generalize (submitted candidates). clear cand0 cands0. intros cands.
  destruct (atOnce_yields AcquireFirstAvailableUserAccount _ _ (selected (map cand_AccountID cands)) now s _
    (acquireFirstUser_yields ttl now Httl u max cands ur ar (peek now s) Hwf)) as (n & E & HQ). cbn zeta. rewrite E. clear E.
  destruct (userFits ttl now (peek now s) u max ur); [|by destruct HQ as [-> HQ]].
  destruct (firstFit ttl now (peek now s) ar cands) as [[i cand]|] eqn:Ef; destruct HQ as [-> HQ]; [|done].
  split; [|done]. apply selected_first. by apply list_find_Some in Ef as [? _].
Qed.

Lemma AcquireUserSlot_atOnce u max r now (s : store) :
  0 < ttl -> wf ttl now (peek now s) ->
  let run := atOnce (AcquireUserSlot c u max r) now s in
  run.1 = Some (userFits ttl now (peek now s) u max r) /\
  if userFits ttl now (peek now s) u max r
  then granted ttl now (userSlotKey u) r (peek now s) (peek now run.2)
  else silent ttl now (peek now s) (peek now run.2).
Proof.
  intros Httl Hwf.
  destruct (atOnce_yields Acquire _ _ (fun r => match r with Some n => Some (n =? 1) | None => None end) now s _
    (acquire_yields ttl now Httl u max r (peek now s) Hwf)) as (n & E & HQ).
  unfold AcquireUserSlot, runsToOne. cbn zeta. rewrite E. cbn [text_of] in HQ.
  destruct (userFits ttl now (peek now s) u max r); destruct HQ as [-> HQ]; done.
Qed.

Lemma ZREM_atOnce key T m now (s : store) :
  lifetime ttl key = Some T -> wf ttl now (peek now s) ->
  let run := atOnce (commandFine (ZREM key m)) now s in
  run.1 = Some tt /\ released ttl now key m (peek now s) (peek now run.2).
Proof.
  intros HT Hwf. assert (yields (Call (ZREM key m) (fun n => Done n)) now (peek now s) (fun _ ks' => released ttl now key m (peek now s) ks'))
    as (n & ks' & E & Hrel).
  { eapply (yields_zrem ttl); [done..|]. intros n ks' Hrel _. by apply yields_done. }
  destruct (atOnce_command (ZREM key m) (fun r => match r with Some _ => Some tt | None => None end) now s) as [E1 E2].
  unfold commandFine. cbn zeta. rewrite E1, E2. cbn [script] in E.
  destruct (documented (ZREM key m) now (peek now s)) as [[r|] ks2]; simplify_eq. done.
Qed.

(** ** Round trip *)

Lemma user_slot_round_trip u max r now (s : store) :
  0 < ttl -> wf ttl now (peek now s) -> active ttl now (peek now s) (userSlotKey u) !! r = None ->
  let s1 := (atOnce (AcquireUserSlot c u max r) now s).2 in
  let s2 := (atOnce (ReleaseUserSlot u r) now s1).2 in
  silent ttl now (peek now s) (peek now s2).
Proof.
  intros Httl Hwf Hfresh. cbv zeta. destruct (AcquireUserSlot_atOnce u max r now s Httl Hwf) as [_ HQ].
  set (s1 := (atOnce (AcquireUserSlot c u max r) now s).2) in *.
  assert (HT : lifetime ttl (userSlotKey u) = Some ttl) by auto with keys.
  assert (Hwf1 : wf ttl now (peek now s1)) by (destruct (userFits _ _ _ _ _ _); apply HQ).
  destruct (ZREM_atOnce (userSlotKey u) ttl r now s1 HT Hwf1) as [_ Hrel]. unfold ReleaseUserSlot.
  destruct (userFits ttl now (peek now s) u max r).
  - eapply granted_released; [|done..]. intros T HT'. rewrite HT in HT'. by simplify_eq.
  - eapply (released_stale ttl now (userSlotKey u) ttl r); [done| |by eapply silent_released].
    done.
Qed.

(** ** Cleanup *)

(** A program under the weather of each of its requests. *)
Fixpoint under {A : Type} (ws : list weather) (p : prog request A) (now : Z) (s : store) : A * store :=
  match p with
  | Ret a => (a, s)
  | Do req k =>
    let '(r, s) := answer (default calm (head ws)) req now s in
    under (tail ws) (k r) now s
  end.

Lemma under_bind {A B : Type} (p : prog request A) (f : A -> prog request B) ws now s :
  exists ws', under ws (bind p f) now s = under ws' (f (under ws p now s).1) now (under ws p now s).2.
Proof.
  revert ws s. induction p as [a|R req k IH]; intros ws s; cbn [bind under]; [by exists ws|].
  destruct (answer _ req now s) as [r s']. apply IH.
Qed.

(** Whatever pages SCAN returns and whatever gets lost, the slots that count stay. *)
Lemma cleanupPages_silent fuel cursor pattern ws now s :
  0 < ttl -> wf ttl now (peek now s) -> (forall key, matches pattern key = true -> regular key = true) ->
  silent ttl now (peek now s) (peek now (under ws (cleanupPages c fuel cursor pattern) now s).2).
Proof.
  intros Httl Hwf Hm. revert cursor ws s Hwf.
  induction fuel as [|fuel IH]; intros cursor ws s Hwf; cbn [cleanupPages under]; [by apply silent_refl|].
  set (w := default calm (head ws)). unfold answer at 1. destruct (w_fault w); [|by apply silent_refl..].
  cbn [serve]. destruct (w_page w) as [page next]. cbn [fst snd]. set (keys := filter _ _). assert (Hkeys : Forall (fun key => regular key = true) keys).
  { apply Forall_forall. intros key Hin. apply Hm. by apply list_elem_of_filter in Hin as [? _]. }
  clearbody keys. clearbody w. generalize (tail ws). clear ws. intros ws.
  assert (Hnext : forall ws s1, silent ttl now (peek now s) (peek now s1) ->
    silent ttl now (peek now s) (peek now (under ws (if next =? 0 then Ret (Some tt)
      else cleanupPages c fuel next pattern) now s1).2)).
  { intros ws1 s1 Hs. case_match; [done|]. eapply silent_trans; [done|]. apply IH. apply Hs. }
  destruct keys as [|key keys]; [by apply Hnext, silent_refl|]. cbn [under].
  destruct (cleanupKeys_yields ttl now Httl (key :: keys) (peek now s) Hwf Hkeys) as (n & ks' & E & Hs).
  destruct (eval_script (cleanupExpiredSlotKeysScript (key :: keys) [AInt ttl]) now s) as [E1 E2].
  rewrite E in E1, E2. unfold answer. cbn [serve text_of].
  destruct (eval (cleanupExpiredSlotKeysScript (key :: keys) [AInt ttl]) now s) as [n1 s1]. cbn [fst snd] in *. subst ks' n1.
  destruct (w_fault _); [by apply Hnext|by apply silent_refl|done].
Qed.

Lemma cleanupPatterns_silent fuel patterns ws now s :
  0 < ttl -> wf ttl now (peek now s) ->
  (forall p, p ∈ patterns -> forall key, matches p key = true -> regular key = true) ->
  silent ttl now (peek now s) (peek now (under ws (cleanupPatterns c fuel patterns) now s).2).
Proof.
  intros Httl. revert ws s. induction patterns as [|p patterns IH]; intros ws s Hwf Hp; cbn [cleanupPatterns];
    [by apply silent_refl|].
  destruct (under_bind (cleanupExpiredSlotKeysByPattern c fuel p)
    (fun r => match r with None => Ret None | Some _ => cleanupPatterns c fuel patterns end) ws now s) as [ws' E].
  rewrite E. clear E.
  pose proof (cleanupPages_silent fuel 0 p ws now s Httl Hwf (Hp p ltac:(left))) as H1.
  unfold cleanupExpiredSlotKeysByPattern. destruct (under ws (cleanupPages c fuel 0 p) now s) as [r s1]. cbn [fst snd] in *.
  destruct r; [|done]. eapply silent_trans; [done|]. apply IH; [apply H1|]. intros q Hq. apply Hp. by right.
Qed.

(** ** Wait counters *)

(** The number of waiting requests a counter shows. *)
Definition waiting (ks : keyspace) (key : string) : Z :=
  match ks !! key with Some (RString s, _) => default 0 (ParseInt s) | _ => 0 end.

Definition counter (ks : keyspace) (key : string) : Prop :=
  match ks !! key with
  | None => True
  | Some (RString s, _) => exists n, 0 <= n <= max_int64 /\ s = pretty n
  | Some (RZset _, _) => False
  end.

Lemma redis_int_pretty n : 0 <= n <= max_int64 -> redis_int (pretty n) = Some n.
Proof. intros Hn. unfold redis_int. by rewrite ParseInt_pretty, String.eqb_refl. Qed.

(** [INCR] and [DECR] on a counter. *)
Lemma add_int_counter ks key delta :
  counter ks key -> 0 <= waiting ks key + delta <= max_int64 ->
  exists d, add_int key delta ks =
    (Some (waiting ks key + delta), <[key := (RString (pretty (waiting ks key + delta)), d)]> ks).
Proof.
  unfold counter, waiting, add_int. intros Hc Hr. destruct (ks !! key) as [[[s|z] d]|]; [| |].
  - destruct Hc as (n & Hn & ->). rewrite redis_int_pretty, ParseInt_pretty in * by done. cbn in *.
    rewrite bool_decide_eq_true_2 by (unfold in_int64, min_int64; lia). by exists d.
  - done.
  - cbn in *. rewrite bool_decide_eq_true_2 by (unfold in_int64, min_int64; lia). by exists None.
Qed.

Lemma counter_get ks key now :
  counter ks key ->
  exists v, documented (GET key) now ks = (Some v, ks) /\
    match v with None => waiting ks key = 0 | Some s => ParseInt s = Some (waiting ks key) end /\ 0 <= waiting ks key.
Proof.
  unfold counter, waiting. cbn. destruct (ks !! key) as [[[s|z] d]|]; intros Hc; [|done|by exists None].
  destruct Hc as (n & Hn & ->). exists (Some (pretty n)). rewrite ParseInt_pretty by done. cbn. split_and!; [done..|lia].
Qed.

Lemma increment_yields key max waitTTL ks now :
  0 < waitTTL -> max <= max_int64 -> counter ks key ->
  yields (incrementWaitScript [key] [AInt max; AInt waitTTL]) now ks (fun n ks' =>
    counter ks' key /\ (forall key', key' <> key -> ks' !! key' = ks !! key') /\
    if waiting ks key <? max then n = 1 /\ waiting ks' key = waiting ks key + 1
    else n = 0 /\ waiting ks' key = waiting ks key).
Proof.
  intros Ht Hmax Hc. unfold incrementWaitScript. cbn [KEYS lookup list_lookup orRaise lua_bind].
  destruct (counter_get ks key now Hc) as (v & Ev & Hv & Hpos). eapply yields_call; [exact Ev|].
  apply yields_bind with (R := fun n ks' => n = waiting ks key /\ ks' = ks).
  { destruct v as [s|]; [rewrite Hv|]; apply yields_done; split; congruence. }
  intros n ks' [-> ->]. cbn [ARGN lookup list_lookup tonumber orRaise lua_bind].
  destruct (max <=? waiting ks key) eqn:E; reflect_bool.
  { apply yields_done. rewrite (proj2 (Z.ltb_ge _ _)) by lia. done. }
  rewrite (proj2 (Z.ltb_lt (waiting ks key) max)) by lia.
  destruct (add_int_counter ks key 1 Hc ltac:(lia)) as [d Ea]. eapply yields_call; [exact Ea|].
  eapply yields_call.
  { cbn [documented]. unfold set_deadline. rewrite lookup_insert_eq. rewrite (proj2 (Z.leb_gt _ _)) by lia.
    cbn [fst snd]. by rewrite insert_insert_eq. }
  apply yields_done. unfold counter, waiting. rewrite !lookup_insert_eq.
  assert (Hr : 0 <= waiting ks key + 1 <= max_int64) by lia. fold (waiting ks key).
  split_and!; [by eexists|intros key' Hne; by rewrite lookup_insert_ne|done|by rewrite ParseInt_pretty].
Qed.

Lemma decrement_yields key ks now :
  counter ks key ->
  yields (decrementWaitScript [key] []) now ks (fun n ks' =>
    counter ks' key /\ (forall key', key' <> key -> ks' !! key' = ks !! key') /\
    n = 1 /\ waiting ks' key = Z.max 0 (waiting ks key - 1)).
Proof.
  intros Hc. unfold decrementWaitScript. cbn [KEYS lookup list_lookup orRaise lua_bind].
  destruct (counter_get ks key now Hc) as (v & Ev & Hv & Hpos). eapply yields_call; [exact Ev|].
  destruct v as [s|]; [|apply yields_done; split_and!; [done..|lia]].
  rewrite Hv. cbn [orRaise lua_bind]. destruct (0 <? waiting ks key) eqn:E; reflect_bool.
  2: { apply yields_done. split_and!; [done..|lia]. }
  assert (waiting ks key <= max_int64) as Hle.
  { unfold waiting, counter in *. destruct (ks !! key) as [[[s'|z] d]|]; [|done|lia].
    destruct Hc as (n & Hn & ->). rewrite ParseInt_pretty by done. cbn. lia. }
  destruct (add_int_counter ks key (-1) Hc ltac:(lia)) as [d Ea]. eapply yields_call; [exact Ea|].
  apply yields_done. unfold counter, waiting. rewrite !lookup_insert_eq.
  assert (Hr : 0 <= waiting ks key + -1 <= max_int64) by lia. fold (waiting ks key).
  split_and!; [by eexists|intros key' Hne; by rewrite lookup_insert_ne|done|].
  rewrite ParseInt_pretty by done. cbn. lia.
Qed.

(** ** Cooldowns *)

(** The generation and the deadline of a cooldown marker. *)
Definition marker (ks : keyspace) (key : string) : option (Z * Z) :=
  match ks !! key with Some (RString s, Some d) => Some (markerGeneration s, d) | _ => None end.

(** The key is free or holds a string that expires. *)
Definition expiring (ks : keyspace) (key : string) : Prop :=
  match ks !! key with None => True | Some (RString _, Some _) => True | _ => False end.

(** What setting a cooldown makes of the marker: a marker of a newer generation stays, any other
    lasts at least as long as before and as asked for; generation 0 leaves the generation. *)
Definition setMarker (now generation ttl : Z) (old : option (Z * Z)) : Z * Z :=
  match old with
  | None => (generation, now + ttl)
  | Some (g, d) =>
    if ((generation =? 0) && (0 <? g))%bool then (g, Z.max d (now + ttl))
    else if g <=? generation then (generation, Z.max d (now + ttl))
    else (g, d)
  end.

Lemma markerGeneration_marker g : 0 <= g <= max_int64 -> markerGeneration (generationMarker g) = g.
Proof.
  intros Hg. unfold markerGeneration, generationMarker. cbn [String.append]. 
  change (str_take 2 (String "g" (String ":" (pretty g)))) with "g:".
  change (str_drop 2 (String "g" (String ":" (pretty g)))) with (str_drop 0 (pretty g)).
  rewrite str_drop_0, ParseInt_pretty by done. done.
Qed.

(** Mirroring writes the legacy key only. *)
Lemma mirror_yields owner legacy prefix (ks0 ks : keyspace) now :
  alive now ks -> expiring ks owner -> textual legacy = true -> legacy <> owner ->
  (forall z d, ks !! legacy <> Some (RZset z, d)) ->
  (forall key, key <> owner -> ks !! key = ks0 !! key) ->
  yields (mirrorToLegacy owner legacy prefix) now ks (fun _ ks' =>
    ks' !! owner = ks !! owner /\ forall key, key <> owner -> key <> legacy -> ks' !! key = ks0 !! key).
Proof.
  intros Ha Ho Hl Hne Hlz Hk. unfold mirrorToLegacy. eapply yields_call; [reflexivity|].
  eapply yields_call; [reflexivity|].
  match goal with |- context [if ?b then _ else _] => destruct b eqn:E end.
  - apply andb_true_iff in E as [[E _]%andb_true_iff _].
    unfold expiring in Ho. destruct (ks !! owner) as [[[v|z] [d|]]|] eqn:Eo; try done.
    eapply yields_call; [cbn; by rewrite Eo|]. reflect_bool.
    eapply yields_call; [cbn; by rewrite (proj2 (Z.leb_gt _ _)) by lia|]. apply yields_done. split.
    + by rewrite lookup_insert_ne.
    + intros key Hk1 Hk2. rewrite lookup_insert_ne by done. by apply Hk.
  - apply yields_done. split; [done|]. intros key Hk1 _. by apply Hk.
Qed.

Lemma setOwned_yields owner legacy g t prefix ks now ttl0 :
  alive now ks -> wf ttl0 now ks -> expiring ks owner -> textual owner = true -> textual legacy = true ->
  legacy <> owner -> 0 <= g <= max_int64 -> 0 < t ->
  yields (setOwnedAccountCooldownScript [owner; legacy] [AInt g; AInt t; AStr prefix]) now ks (fun _ ks' =>
    marker ks' owner = Some (setMarker now g t (marker ks owner)) /\
    forall key, key <> owner -> key <> legacy -> ks' !! key = ks !! key).
Proof.
  intros Ha Hwf Ho Hto Htl Hne Hg Ht. unfold setOwnedAccountCooldownScript.
  cbn [KEYS ARGN ARGS lookup list_lookup tonumber orRaise lua_bind].
  assert (Hget : documented (GET owner) now ks =
    (Some (match ks !! owner with Some (RString s, _) => Some s | _ => None end), ks)).
  { cbn. unfold expiring in Ho. by destruct (ks !! owner) as [[[] [|]]|]. }
  eapply yields_call; [exact Hget|]. cbv zeta.
  apply yields_bind with (R := fun _ ks' => exists v d, ks' = <[owner := (RString v, Some d)]> ks /\ now < d /\
    (markerGeneration v, d) = setMarker now g t (marker ks owner)).
  - unfold expiring, marker in *. destruct (ks !! owner) as [[[v|z] [d|]]|] eqn:Eo; try done; cbn [oldGenerationOf].
    + pose proof (Ha _ _ Eo) as Hd. unfold unexpired in Hd. cbn in Hd. reflect_bool. unfold setMarker.
      rewrite andb_true_r. destruct ((g =? 0) && (0 <? markerGeneration v))%bool eqn:E0.
      * eapply yields_call; [cbn; by rewrite Eo|]. rewrite (proj2 (Z.leb_le 0 (d - now))) by lia. cbn [andb].
        destruct (d - now <? t) eqn:Et; reflect_bool.
        -- eapply yields_call.
           { cbn. unfold set_deadline. rewrite Eo. cbn. by rewrite (proj2 (Z.leb_gt _ _)) by lia. }
           apply yields_done. exists v, (now + t). split_and!; [done|lia|f_equal; lia].
        -- apply yields_done. exists v, d. rewrite insert_id by done. split_and!; [done|lia|f_equal; lia].
      * cbn [negb orb]. destruct (markerGeneration v <=? g) eqn:Eg; reflect_bool.
        -- eapply yields_call; [cbn; by rewrite Eo|]. cbn [andb].
           eapply yields_call; [cbn [documented]; rewrite (proj2 (Z.leb_gt _ _)) by (case_match; lia); reflexivity|].
           apply yields_done. eexists _, _. split_and!; [done|case_match; lia|].
           rewrite markerGeneration_marker by done. f_equal. case_match; reflect_bool; lia.
        -- apply yields_done. exists v, d. by rewrite insert_id.
    + rewrite andb_false_r. cbn [andb negb orb]. eapply yields_call; [cbn; by rewrite Eo|].
      eapply yields_call; [cbn [documented]; rewrite (proj2 (Z.leb_gt _ _)) by lia; reflexivity|].
      apply yields_done. eexists _, _. split_and!; [done|lia|]. by rewrite markerGeneration_marker.
  - intros _ ks1 (v & d & -> & Hd & Hm). eapply yields_mono.
    + apply (mirror_yields owner legacy prefix ks); [| |done..| |].
      * apply alive_insert; [done|]. unfold unexpired. cbn. lia.
      * unfold expiring. by rewrite lookup_insert_eq.
      * intros z d'. rewrite lookup_insert_ne by done. by apply Hwf.
      * intros key Hk. by rewrite lookup_insert_ne.
    + intros n ks2 [E1 E2]. split; [|done]. unfold marker at 1. rewrite E1, lookup_insert_eq. by rewrite Hm.
Qed.

(** A clear for a generation that is not newer than the marker's does nothing. *)
Lemma clearOwned_older owner legacy other g own prefix ks now g0 d :
  0 < g <= g0 -> marker ks owner = Some (g0, d) ->
  script (clearOwnedAccountCooldownScript [owner; legacy; other] [AInt g; AStr own; AStr prefix]) now ks = (Some 0, ks).
Proof.
  intros Hg Hm. unfold marker in Hm. destruct (ks !! owner) as [[[v|z] [d'|]]|] eqn:Eo; try done. simplify_eq.
  unfold clearOwnedAccountCooldownScript. cbn [KEYS ARGN ARGS lookup list_lookup tonumber orRaise lua_bind script documented].
  rewrite Eo. cbn [oldGenerationOf]. rewrite (proj2 (Z.ltb_lt 0 g)), (proj2 (Z.leb_le _ _)) by lia. done.
Qed.

(** A marker keeps its account from being selected until its deadline. *)
Lemma marker_cooling ks accountID later key g d :
  key ∈ [accountCooldownKey accountID; openAIPoolCooldownKey accountID; accountRuntimeCooldownKey accountID] ->
  marker ks key = Some (g, d) -> later < d -> cooling (elapse later ks) accountID = true.
Proof.
  intros Hin Hm Hlt. unfold marker in Hm. destruct (ks !! key) as [[[v|z] [d'|]]|] eqn:Ek; try done. simplify_eq.
  assert (is_Some (elapse later ks !! key)) as Hs.
  { exists (RString v, Some d). apply elapse_lookup. split; [done|]. unfold unexpired. cbn. lia. }
  unfold cooling. rewrite !elem_of_cons, elem_of_nil in Hin.
  destruct Hin as [->|[->|[->|[]]]]; rewrite (bool_decide_eq_true_2 _ Hs); by rewrite ?orb_true_r.
Qed.

Lemma cooling_not_selected cands r now ks cand i :
  firstFit ttl now ks r cands = Some (i, cand) -> cooling ks (cand_AccountID cand) = false.
Proof.
  intros Hf. apply list_find_Some in Hf as (_ & Hf & _). unfold fits, admissible in Hf.
  by apply andb_true_iff in Hf as [Hf _]; apply negb_true_iff in Hf.
Qed.

Lemma script_unchanged {A : Type} (f : option Z -> A) sc keys args now (s : store) n :
  script (text_of sc keys args) now (peek now s) = (Some n, peek now s) ->
  peek now (atOnce (Do (Run sc keys args) (fun r => Ret (f r))) now s).2 = peek now s.
Proof. intros E. destruct (atOnce_run sc keys args f now s) as [_ E2]. by rewrite E2, E. Qed.

(** The marker is there after a set, and after clears for generations that are not newer. *)
Lemma cooldown_after_set accountID t g now (s : store) :
  0 < accountID -> 0 < t -> 0 <= g <= max_int64 -> wf ttl now (peek now s) ->
  expiring (peek now s) (accountRuntimeCooldownKey accountID) ->
  let s1 := (atOnce (SetAccountCooldownGeneration accountID t g) now s).2 in
  wf ttl now (peek now s1) /\
  marker (peek now s1) (accountRuntimeCooldownKey accountID) =
    Some (setMarker now g (ttlMillis t) (marker (peek now s) (accountRuntimeCooldownKey accountID))).
Proof.
  intros Hid Ht Hg Hwf Hexp. cbv zeta. unfold SetAccountCooldownGeneration.
  rewrite (proj2 (Z.leb_gt _ _) Hid), (proj2 (Z.leb_gt _ _) Ht), (proj2 (Z.ltb_ge g 0)) by lia. cbn [orb].
  assert (Htt : 0 < ttlMillis t) by (unfold ttlMillis; case_match; lia).
  pose proof (atOnce_run SetOwnedCooldown [accountRuntimeCooldownKey accountID; accountCooldownKey accountID]
    [AInt g; AInt (ttlMillis t); AStr ""] (fun r => match r with Some _ => Some tt | None => None end) now s) as [_ E].
  unfold runsFine. rewrite E. cbn [text_of]. split.
  - apply (texts_wf _ _ (peek now s)), script_text; [|done]. apply setOwned_texts; auto with keys.
  - destruct (setOwned_yields (accountRuntimeCooldownKey accountID) (accountCooldownKey accountID) g (ttlMillis t) ""
      (peek now s) now ttl) as (n & ks' & Es & Hm & _); try done; auto with keys; [|rewrite Es; exact Hm].
    intros key e Ek. rewrite <- (peek_alive s now) in Ek. by apply elapse_lookup in Ek as [_ ?].
Qed.

Lemma cooldown_after_clear accountID g g0 d now (s : store) :
  marker (peek now s) (accountRuntimeCooldownKey accountID) = Some (g0, d) -> g <= g0 ->
  peek now (atOnce (ClearAccountCooldownBeforeGeneration accountID g) now s).2 = peek now s.
Proof.
  intros Hm Hle. unfold ClearAccountCooldownBeforeGeneration. destruct (_ || _) eqn:E; [done|]. reflect_bool.
  unfold runsFine. eapply script_unchanged. cbn [text_of]. eapply clearOwned_older; [|exact Hm]. lia.
Qed.

Lemma AcquireAccountSlot_cooling accountID max r now (s : store) :
  0 < ttl -> wf ttl now (peek now s) -> cooling (peek now s) accountID = true ->
  (atOnce (AcquireAccountSlot c accountID max r) now s).1 = Some false.
Proof.
  intros Httl Hwf Hcool. unfold AcquireAccountSlot, runsToOne.
  destruct (atOnce_yields AcquireFirstAvailableAccount (candidateKeys accountID) [AInt ttl; AStr r; AInt max]
    (fun r => match r with Some n => Some (n =? 1) | None => None end) now s _
    (acquireFirst_yields ttl now Httl [MkAccountSlotCandidate accountID max ""] r (peek now s) Hwf)) as (n & E & HQ).
  rewrite E. destruct (firstFit ttl now (peek now s) r [MkAccountSlotCandidate accountID max ""]) as [[i cand]|] eqn:Ef.
  - pose proof (cooling_not_selected _ _ _ _ _ _ Ef) as Hc. apply list_find_Some in Ef as (Hi & _).
    destruct i; [|done]. cbn in Hi. simplify_eq. cbn in Hc. congruence.
  - destruct HQ as [-> _]. done.
Qed.
End Methods.

(** ** Properties *)

(** The candidates are tried in the caller's order: the account that is returned is the first
    one that is not cooling down and is unlimited, already serves the request or has a free
    slot; its slot is claimed (an unlimited account needs none) and nothing else that counts
    changes.  When no candidate fits nothing is claimed. *)
Theorem AcquireFirstAvailableAccountSlot_selects_first (store : Type) `{RedisServer store}
    (c : concurrencyCache) (candidates : list AccountSlotCandidate) (r : string) (now : Z) (s : store) :
  0 < slotTTLSeconds c -> wf (slotTTLSeconds c) now (peek now s) ->
  let run := atOnce (AcquireFirstAvailableAccountSlot c candidates r) now s in
  match firstFit (slotTTLSeconds c) now (peek now s) r (submitted candidates) with
  | Some (_, cand) =>
    run.1 = Some (cand_AccountID cand, true) /\
    claimedBy (slotTTLSeconds c) now r cand (peek now s) (peek now run.2)
  | None => run.1 = Some (0, false) /\ silent (slotTTLSeconds c) now (peek now s) (peek now run.2)
  end.
Proof. apply AcquireFirst_atOnce. Qed.

Definition twoCandidates : list AccountSlotCandidate :=
  [MkAccountSlotCandidate 1 1 ""; MkAccountSlotCandidate 2 1 ""].

(** C20. A user slot and an account slot are claimed together or not at all: when the user is below
    its limit and some candidate fits, both slots are claimed, of the first candidate that fits;
    otherwise nothing that counts changes, in particular no user slot is left behind. *)
Theorem AcquireFirstAvailableUserAccountSlots_all_or_nothing (store : Type) `{RedisServer store}
    (c : concurrencyCache) (u max : Z) (candidates : list AccountSlotCandidate) (ur ar : string) (now : Z) (s : store) :
  0 < slotTTLSeconds c -> 0 < u -> 0 < max -> wf (slotTTLSeconds c) now (peek now s) ->
  submitted candidates <> [] -> active (slotTTLSeconds c) now (peek now s) (userSlotKey u) !! ur = None ->
  let run := atOnce (AcquireFirstAvailableUserAccountSlots c u max candidates ur ar) now s in
  (exists i cand ks1,
    inUse (slotTTLSeconds c) now (peek now s) (userSlotKey u) (liveUserSlotKey u) < max /\
    firstFit (slotTTLSeconds c) now (peek now s) ar (submitted candidates) = Some (i, cand) /\
    run.1 = Some (cand_AccountID cand, true) /\
    granted (slotTTLSeconds c) now (userSlotKey u) ur (peek now s) ks1 /\
    claimedBy (slotTTLSeconds c) now ar cand ks1 (peek now run.2)) \/
  (run.1 = Some (0, false) /\ silent (slotTTLSeconds c) now (peek now s) (peek now run.2)).
Proof.
  intros Httl Hu Hmax Hwf Hne Hfresh.
  pose proof (AcquireFirstUser_atOnce c u max candidates ur ar now s Httl Hu Hmax Hwf Hne) as Hs. cbv zeta in *.
  destruct (userFits _ _ _ _ _ _) eqn:Eu; [|by right].
  destruct (firstFit _ _ _ _ _) as [[i cand]|] eqn:Ef; destruct Hs as [E1 E2].
  - left. destruct E2 as (ks1 & Hg & Hcl). exists i, cand, ks1. split_and!; try done.
    apply orb_true_iff in Eu as [Eu|Eu]; reflect_bool; [|done]. rewrite Hfresh in Eu. by destruct Eu.
  - right. split; [done|]. eapply released_stale; [|exact Hfresh|exact E2]. auto with keys.
Qed.

Lemma AcquireFirstAvailableUserAccountSlots_all_or_nothing_witness :
  let s := (atOnce (SetAccountCooldown 1 1000000000) 0 (∅ : keyspace)).2 in
  let run := atOnce (AcquireFirstAvailableUserAccountSlots oneMinute 7 1 [MkAccountSlotCandidate 1 1 ""] "u" "a") 0 s in
  run.1 = Some (0, false) /\ silent 60 0 (peek 0 s) (peek 0 run.2).
Proof.
  cbv zeta. set (s := (atOnce (SetAccountCooldown 1 1000000000) 0 (∅ : keyspace)).2).
  assert (Hwf : wf 60 0 (peek 0 s)).
  { by apply (cooldown_after_set (store := keyspace) oneMinute 1 1000000000 0 0 ∅). }
  destruct (AcquireFirstAvailableUserAccountSlots_all_or_nothing keyspace oneMinute 7 1
    [MkAccountSlotCandidate 1 1 ""] "u" "a" 0 s eq_refl eq_refl eq_refl Hwf) as [Hs|Hs]; [done|by vm_compute| |exact Hs].
  exfalso. destruct Hs as (i & cand & ks1 & _ & Hf & _). vm_compute in Hf. done.
Defined.

(** Startup cleanup is safe for the other replicas: whatever pages SCAN returns and whatever
    requests get lost, no slot that still counts is removed, whichever process it belongs to. *)
Theorem CleanupStaleProcessSlots_keeps_slots (store : Type) `{RedisServer store} (c : concurrencyCache)
    (fuel : nat) (prefix : string) (ws : list weather) (now : Z) (s : store) :
  0 < slotTTLSeconds c -> wf (slotTTLSeconds c) now (peek now s) ->
  silent (slotTTLSeconds c) now (peek now s)
    (peek now (under ws (CleanupStaleProcessSlots c fuel prefix) now s).2).
Proof. intros Httl Hwf. apply cleanupPatterns_silent; [done..|]. apply matches_regular. Qed.

(** The wait counter of a user is a bounded counter: an increment is accepted exactly when fewer
    than [maxWait] requests wait and then counts one more, a refused one changes nothing; a
    decrement counts one less and never goes below zero. *)
Theorem wait_count_is_a_bounded_counter (store : Type) `{RedisServer store} (c : concurrencyCache)
    (u maxWait now : Z) (s : store) :
  0 < waitQueueTTLSeconds c -> maxWait <= max_int64 -> counter (peek now s) (waitQueueKey u) ->
  let inc := atOnce (IncrementWaitCount c u maxWait) now s in
  let dec := atOnce (DecrementWaitCount u) now s in
  inc.1 = Some (waiting (peek now s) (waitQueueKey u) <? maxWait) /\
  waiting (peek now inc.2) (waitQueueKey u) =
    (if waiting (peek now s) (waitQueueKey u) <? maxWait then waiting (peek now s) (waitQueueKey u) + 1
     else waiting (peek now s) (waitQueueKey u)) /\
  counter (peek now inc.2) (waitQueueKey u) /\
  dec.1 = Some tt /\
  waiting (peek now dec.2) (waitQueueKey u) = Z.max 0 (waiting (peek now s) (waitQueueKey u) - 1) /\
  counter (peek now dec.2) (waitQueueKey u).
Proof.
  intros Ht Hmax Hc. cbv zeta.
  destruct (atOnce_yields IncrementWait _ _ (fun r => match r with Some n => Some (n =? 1) | None => None end) now s _
    (increment_yields (waitQueueKey u) maxWait (waitQueueTTLSeconds c) _ now Ht Hmax Hc)) as (n & E & Hc1 & _ & H1).
  destruct (atOnce_yields DecrementWait _ _ (fun r => match r with Some _ => Some tt | None => None end) now s _
    (decrement_yields (waitQueueKey u) _ now Hc)) as (m & E2 & Hc2 & _ & _ & H2).
  unfold IncrementWaitCount, DecrementWaitCount, runsToOne, runsFine. rewrite E, E2.
  destruct (_ <? maxWait); destruct H1 as [-> H1]; split_and!; done.
Qed.

(** A cooldown keeps its account out: after it is set, and after clears for generations that are
    not newer, the account cannot be acquired until the duration has passed, unless a marker of
    a newer generation was in charge already. *)
Theorem cooldown_keeps_account_out (store : Type) `{RedisServer store} (c : concurrencyCache)
    (accountID t g g' max : Z) (r : string) (now cleared later : Z) (s : store) :
  0 < slotTTLSeconds c -> 0 < accountID -> 0 < t -> 0 <= g < 10 ^ 14 -> g' <= g ->
  wf (slotTTLSeconds c) now (peek now s) -> expiring (peek now s) (accountRuntimeCooldownKey accountID) ->
  (forall g0 d, marker (peek now s) (accountRuntimeCooldownKey accountID) = Some (g0, d) -> g0 <= g) ->
  now <= cleared <= later -> later < now + ttlMillis t ->
  let s1 := (atOnce (SetAccountCooldownGeneration accountID t g) now s).2 in
  let s2 := (atOnce (ClearAccountCooldownBeforeGeneration accountID g') cleared s1).2 in
  (atOnce (AcquireAccountSlot c accountID max r) later s2).1 = Some false.
Proof.
  intros Httl Hid Ht Hg Hg' Hwf Hexp Hold Hle Hlt s1 s2.
  destruct (cooldown_after_set c accountID t g now s Hid Ht) as [Hwf1 Hm1]; [unfold max_int64; lia|done..|].
  fold s1 in Hwf1, Hm1.
  assert (exists d, marker (peek now s1) (accountRuntimeCooldownKey accountID) = Some (g, d) /\ now + ttlMillis t <= d)
    as (d & Hm & Hd).
  { rewrite Hm1. unfold setMarker. destruct (marker (peek now s) _) as [[g0 d0]|]; [|by eexists].
    specialize (Hold g0 d0 eq_refl). destruct ((g =? 0) && (0 <? g0))%bool eqn:E; [exfalso; reflect_bool; lia|].
    rewrite (proj2 (Z.leb_le g0 g)) by lia. eexists. split; [done|lia]. }
  assert (Hm2 : marker (elapse cleared (peek now s1)) (accountRuntimeCooldownKey accountID) = Some (g, d)).
  { unfold marker in *. destruct (peek now s1 !! _) as [[[v|z] [d'|]]|] eqn:Ek; try done. simplify_eq.
    rewrite (proj2 (elapse_lookup cleared (peek now s1) _ (RString v, Some d))); [done|].
    split; [done|]. unfold unexpired. cbn. lia. }
  assert (E2 : peek cleared s2 = elapse cleared (peek now s1)).
  { unfold s2. rewrite (cooldown_after_clear accountID g' g d); [apply peek_later; lia| |done].
    rewrite (peek_later s1 now) by lia. done. }
  apply AcquireAccountSlot_cooling; [done| |]; rewrite (peek_later s2 cleared), E2 by lia.
  - eapply wf_elapse; [|eapply wf_elapse; [|exact Hwf1]]; lia.
  - eapply marker_cooling; [|exact Hm2|lia]. set_solver.
Qed.

