(* ===== verification/ConcurrencyService.v ===== *)
(** * The concurrency service

    [service/concurrency_service.go] on top of the cache: request ids, the registry of slots
    that are renewed in the background, release functions with their retries, the wait queue
    that fails open, cooldowns by deadline and the short-lived cache of account loads.

    A process interleaves requests to Redis with changes of its own state, each of which is
    made under a mutex or with an atomic operation; it sleeps between release attempts.  The
    cache behind the service is the Redis cache, so the optional interfaces it implements are
    there.  Logging, metrics and contexts are left out. *)

From stdpp Require Import pretty.
From S2P Require Import Prelude GoStrings GoCrypto Programs Redis ConcurrencyScripts ConcurrencyCache.

Open Scope Z_scope.

(** ** State *)

Record slotRenewal := MkSlotRenewal {
  sr_kind : string;
  sr_entityID : Z;
  sr_requestID : string
}.

(** What a release function gives back. *)
Inductive slotOf := AccountSlot | UserSlot | APIKeySlot.

Record slotReleaseRetryJob := MkReleaseJob {
  job_kind : string;
  job_entityID : Z;
  job_requestID : string;
  job_release : slotOf
}.

Record cachedAccountLoadBatch := MkCachedLoad {
  cached_loadMap : gmap Z LoadInfo;
  cached_expiresAt : Z
}.

Record ConcurrencyService := MkConcurrencyService {
  cs_cache : option concurrencyCache;
  cs_renewals : gmap string slotRenewal;
  cs_releaseQueue : list slotReleaseRetryJob;
  cs_releaseStopped : bool;
  cs_cleanupDone : bool;
  cs_loadCacheTTL : Z;
  cs_loadCache : gmap string cachedAccountLoadBatch;
  requestIDPrefix : string;
  requestIDCounter : Z
}.

#[export] Instance eta_service : Eta ConcurrencyService := fun r =>
  MkConcurrencyService (cs_cache r) (cs_renewals r) (cs_releaseQueue r) (cs_releaseStopped r)
    (cs_cleanupDone r) (cs_loadCacheTTL r) (cs_loadCache r) (requestIDPrefix r) (requestIDCounter r).

(** ** Processes *)

Inductive proc (A : Type) : Type :=
  | Return (a : A)
  | Ask {R : Type} (r : request R) (k : option R -> proc A)
  | Atomically {R : Type} (f : ConcurrencyService -> R * ConcurrencyService) (k : R -> proc A)
  | Sleep (d : Z) (k : proc A)
  | NilDereference.

Arguments Return {A} a.
Arguments Ask {A R} r k.
Arguments Atomically {A R} f k.
Arguments Sleep {A} d k.
Arguments NilDereference {A}.

Fixpoint andThenDo {A B : Type} (p : proc A) (f : A -> proc B) : proc B :=
  match p with
  | Return a => f a
  | Ask r k => Ask r (fun x => andThenDo (k x) f)
  | Atomically g k => Atomically g (fun x => andThenDo (k x) f)
  | Sleep d k => Sleep d (andThenDo k f)
  | NilDereference => NilDereference
  end.

Fixpoint asking {A : Type} (p : prog request A) : proc A :=
  match p with
  | Ret a => Return a
  | Do r k => Ask r (fun x => asking (k x))
  end.

Declare Scope proc_scope.
Delimit Scope proc_scope with proc.
Bind Scope proc_scope with proc.
Open Scope proc_scope.
Notation "'do' x <- p 'in' q" := (andThenDo p (fun x => q))
  (at level 200, x name, p at level 100, q at level 200, right associativity) : proc_scope.
Notation "'atomic' x <- f 'in' q" := (Atomically f (fun x => q))
  (at level 200, x name, f at level 100, q at level 200, right associativity) : proc_scope.

(** A process under the weather of its requests; sleeping takes time. *)
Fixpoint runs {store A : Type} `{RedisServer store} (ws : list weather) (p : proc A) (now : Z)
    (svc : ConcurrencyService) (s : store) : option A * ConcurrencyService * store :=
  match p with
  | Return a => (Some a, svc, s)
  | Ask r k => let '(x, s) := answer (default calm (head ws)) r now s in runs (tail ws) (k x) now svc s
  | Atomically f k => let '(x, svc) := f svc in runs ws (k x) now svc s
  | Sleep d k => runs ws k (now + Z.quot d 1000000) svc s
  | NilDereference => (None, svc, s)
  end.

(** ** Request ids *)

(** [strconv.FormatUint(n, 36)]. *)
Definition digit36 (d : Z) : string :=
  String (mk_byte (if d <? 10 then 48 + d else 97 + (d - 10))) "".

Fixpoint format36 (fuel : nat) (n : Z) (acc : string) : string :=
  match fuel with
  | O => acc
  | S fuel =>
    let acc := digit36 (n mod 36) +:+ acc in
    if n <? 36 then acc else format36 fuel (n / 36) acc
  end.

(** 36^13 exceeds 2^64: thirteen digits are enough. *)
Definition FormatUint36 (n : Z) : string := format36 13 n "".

(** The prefix a process draws at its start: from eight random bytes or, when there are none to be
    had, from the clock and the process id; an unsigned 64-bit integer either way. *)
Definition initRequestIDPrefix (random : Z) : string := "r" +:+ FormatUint36 random.

Definition wrapU64 (z : Z) : Z := z mod 2 ^ 64.

Definition generateRequestID (svc : ConcurrencyService) : string * ConcurrencyService :=
  let seq := wrapU64 (requestIDCounter svc + 1) in
  (requestIDPrefix svc +:+ "-" +:+ FormatUint36 seq, svc <| requestIDCounter := seq |>).

(** ** Renewals *)

Definition registerSlotRenewal (key kind : string) (entityID : Z) (requestID : string) (svc : ConcurrencyService)
    : unit * ConcurrencyService :=
  if (is_empty key || is_empty kind || (entityID <=? 0) || is_empty requestID)%bool then (tt, svc)
  else (tt, svc <| cs_renewals := <[key := MkSlotRenewal kind entityID requestID]> (cs_renewals svc) |>).

Definition unregisterSlotRenewal (key : string) (svc : ConcurrencyService) : unit * ConcurrencyService :=
  if is_empty key then (tt, svc) else (tt, svc <| cs_renewals := delete key (cs_renewals svc) |>).

(** One tick of [runSlotRenewalLoop]: a snapshot of the registry goes to the cache. *)
Definition renewalTick : proc unit :=
  atomic snapshot <- (fun svc => ((cs_cache svc, map snd (map_to_list (cs_renewals svc))), svc)) in
  match snapshot.1 with
  | None => Return tt
  | Some c =>
    do _ <- asking (RefreshSlots c (map (fun r =>
        MkConcurrencySlotRenewal (sr_kind r) (sr_entityID r) (sr_requestID r)) snapshot.2)) in
    Return tt
  end.

(** ** Release *)

Definition slotReleaseMaxAttempts : nat := 3.
Definition slotReleaseInitialBackoff : Z := 50000000.
Definition slotReleaseRetryQueueSize : Z := 65536.

Definition releaseOp (what : slotOf) (entityID : Z) (requestID : string) : prog request (option unit) :=
  match what with
  | AccountSlot => ConcurrencyCache.ReleaseAccountSlot entityID requestID
  | UserSlot => ConcurrencyCache.ReleaseUserSlot entityID requestID
  | APIKeySlot => ConcurrencyCache.ReleaseAPIKeySlot entityID requestID
  end.

(** The job is dropped when the service stopped or the queue is full: the slot's TTL takes over. *)
Definition retryConcurrencySlotReleaseInBackground (job : slotReleaseRetryJob) (svc : ConcurrencyService)
    : unit * ConcurrencyService :=
  if cs_releaseStopped svc then (tt, svc)
  else if slotReleaseRetryQueueSize <=? Z.of_nat (length (cs_releaseQueue svc)) then (tt, svc)
  else (tt, svc <| cs_releaseQueue := cs_releaseQueue svc ++ [job] |>).

(** [attempts] that are left, with the pause before the next one. *)
Fixpoint releaseAttempts (attempts : nat) (backoff : Z) (job : slotReleaseRetryJob) : proc unit :=
  let handOver := atomic _ <- retryConcurrencySlotReleaseInBackground job in Return tt in
  match attempts with
  | O => handOver
  | S attempts =>
    do r <- asking (releaseOp (job_release job) (job_entityID job) (job_requestID job)) in
    match r with
    | Some _ => Return tt
    | None =>
      match attempts with
      | O => handOver
      | _ => Sleep backoff (releaseAttempts attempts (backoff * 2) job)
      end
    end
  end.

Definition retryConcurrencySlotRelease (job : slotReleaseRetryJob) : proc unit :=
  releaseAttempts slotReleaseMaxAttempts slotReleaseInitialBackoff job.

(** A release function: nothing to do, or a slot with its entry in the registry. *)
Inductive ReleaseFunc :=
  | NoRelease
  | ReleaseSlot (renewalKey : string) (job : slotReleaseRetryJob).

Definition callRelease (f : ReleaseFunc) : proc unit :=
  match f with
  | NoRelease => Return tt
  | ReleaseSlot renewalKey job =>
    atomic _ <- unregisterSlotRenewal renewalKey in
    retryConcurrencySlotRelease job
  end.

(** ** Acquiring *)

Record AcquireResult := MkAcquireResult {
  ar_Acquired : bool;
  ar_Release : option ReleaseFunc
}.

Record AccountSlotArbitrationResult := MkArbitration {
  arb_Acquired : bool;
  arb_AccountID : Z;
  arb_RequestID : string;
  arb_Release : option ReleaseFunc
}.

Record UserAccountSlotArbitrationResult := MkUserArbitration {
  ua_Acquired : bool;
  ua_AccountID : Z;
  ua_UserRequestID : string;
  ua_AccountRequestID : string;
  ua_Release : option ReleaseFunc;
  ua_UserRelease : option ReleaseFunc
}.

Definition renewalKeyOf (kind : string) (entityID : Z) (requestID : string) : string :=
  kind +:+ ":" +:+ pretty entityID +:+ ":" +:+ requestID.

Definition getCache (svc : ConcurrencyService) : option concurrencyCache * ConcurrencyService := (cs_cache svc, svc).

Definition AcquireAccountSlot (accountID maxConcurrency : Z) : proc (option AcquireResult) :=
  atomic cache <- getCache in
  match cache with
  | None =>
    if maxConcurrency <=? 0 then Return (Some (MkAcquireResult true (Some NoRelease))) else NilDereference
  | Some c =>
    atomic requestID <- generateRequestID in
    do acquired <- asking (ConcurrencyCache.AcquireAccountSlot c accountID maxConcurrency requestID) in
    match acquired with
    | None => Return None
    | Some false => Return (Some (MkAcquireResult false None))
    | Some true =>
      if maxConcurrency <=? 0 then Return (Some (MkAcquireResult true (Some NoRelease))) else
      let renewalKey := renewalKeyOf "account" accountID requestID in
      atomic _ <- registerSlotRenewal renewalKey "account" accountID requestID in
      Return (Some (MkAcquireResult true
        (Some (ReleaseSlot renewalKey (MkReleaseJob "account" accountID requestID AccountSlot)))))
    end
  end.

(** The limit of the candidate that was selected, the first with its id. *)
Definition selectedUnlimited (candidates : list AccountSlotCandidate) (accountID : Z) : bool :=
  match list_find (fun cand => cand_AccountID cand = accountID) candidates with
  | Some (_, cand) => cand_MaxConcurrency cand <=? 0
  | None => false
  end.

Definition AcquireFirstAvailableAccountSlot (candidates : list AccountSlotCandidate)
    : proc (option AccountSlotArbitrationResult) :=
  match candidates with
  | [] => Return (Some (MkArbitration false 0 "" None))
  | _ =>
    atomic cache <- getCache in
    match cache with
    | None =>
      Return (Some (match list_find (fun cand => 0 < cand_AccountID cand) candidates with
                    | Some (_, cand) => MkArbitration true (cand_AccountID cand) "" (Some NoRelease)
                    | None => MkArbitration false 0 "" None
                    end))
    | Some c =>
      atomic requestID <- generateRequestID in
      do r <- asking (ConcurrencyCache.AcquireFirstAvailableAccountSlot c candidates requestID) in
      match r with
      | None => Return None
      | Some (accountID, acquired) =>
        if (negb acquired || (accountID <=? 0))%bool then Return (Some (MkArbitration false 0 "" None)) else
        if selectedUnlimited candidates accountID
        then Return (Some (MkArbitration true accountID "" (Some NoRelease))) else
        let renewalKey := renewalKeyOf "account" accountID requestID in
        atomic _ <- registerSlotRenewal renewalKey "account" accountID requestID in
        Return (Some (MkArbitration true accountID requestID
          (Some (ReleaseSlot renewalKey (MkReleaseJob "arbitrated account" accountID requestID AccountSlot)))))
      end
    end
  end.

Definition accountOnly (r : option AccountSlotArbitrationResult) : option UserAccountSlotArbitrationResult :=
  match r with
  | None => None
  | Some r =>
    Some (MkUserArbitration (arb_Acquired r) (arb_AccountID r) "" (arb_RequestID r) (arb_Release r) (Some NoRelease))
  end.

Definition AcquireFirstAvailableUserAccountSlots (userID userMaxConcurrency : Z)
    (candidates : list AccountSlotCandidate) : proc (option UserAccountSlotArbitrationResult) :=
  match candidates with
  | [] => Return (Some (MkUserArbitration false 0 "" "" None None))
  | _ =>
    atomic cache <- getCache in
    match (if userMaxConcurrency <=? 0 then None else cache) with
    | None =>
      do r <- AcquireFirstAvailableAccountSlot candidates in
      Return (accountOnly r)
    | Some c =>
      atomic userRequestID <- generateRequestID in
      atomic accountRequestID <- generateRequestID in
      do r <- asking (ConcurrencyCache.AcquireFirstAvailableUserAccountSlots c userID userMaxConcurrency
                        candidates userRequestID accountRequestID) in
      match r with
      | None => Return None
      | Some (accountID, acquired) =>
        if (negb acquired || (accountID <=? 0))%bool
        then Return (Some (MkUserArbitration false 0 "" "" None None)) else
        let unlimited := selectedUnlimited candidates accountID in
        let userRenewalKey := renewalKeyOf "user" userID userRequestID in
        let accountRenewalKey := renewalKeyOf "account" accountID accountRequestID in
        atomic _ <- registerSlotRenewal userRenewalKey "user" userID userRequestID in
        atomic _ <- (fun svc => if unlimited then (tt, svc)
                                else registerSlotRenewal accountRenewalKey "account" accountID accountRequestID svc) in
        Return (Some (MkUserArbitration true accountID userRequestID accountRequestID
          (Some (if unlimited then NoRelease
                 else ReleaseSlot accountRenewalKey
                        (MkReleaseJob "arbitrated account" accountID accountRequestID AccountSlot)))
          (Some (ReleaseSlot userRenewalKey (MkReleaseJob "arbitrated user" userID userRequestID UserSlot)))))
      end
    end
  end.

Definition AcquireUserSlot (userID maxConcurrency : Z) : proc (option AcquireResult) :=
  if maxConcurrency <=? 0 then Return (Some (MkAcquireResult true (Some NoRelease))) else
  atomic requestID <- generateRequestID in
  atomic cache <- getCache in
  match cache with
  | None => NilDereference
  | Some c =>
    do acquired <- asking (ConcurrencyCache.AcquireUserSlot c userID maxConcurrency requestID) in
    match acquired with
    | None => Return None
    | Some false => Return (Some (MkAcquireResult false None))
    | Some true =>
      let renewalKey := renewalKeyOf "user" userID requestID in
      atomic _ <- registerSlotRenewal renewalKey "user" userID requestID in
      Return (Some (MkAcquireResult true
        (Some (ReleaseSlot renewalKey (MkReleaseJob "user" userID requestID UserSlot)))))
    end
  end.

Definition TrackAPIKeySlot (apiKeyID : Z) : proc ReleaseFunc :=
  atomic cache <- getCache in
  match cache with
  | None => Return NoRelease
  | Some c =>
    if apiKeyID <=? 0 then Return NoRelease else
    atomic requestID <- generateRequestID in
    do r <- asking (ConcurrencyCache.TrackAPIKeySlot c apiKeyID requestID) in
    match r with
    | None => Return NoRelease
    | Some _ =>
      let renewalKey := renewalKeyOf "api_key" apiKeyID requestID in
      atomic _ <- registerSlotRenewal renewalKey "api_key" apiKeyID requestID in
      Return (ReleaseSlot renewalKey (MkReleaseJob "api key" apiKeyID requestID APIKeySlot))
    end
  end.

(** ** Counts *)

Definition zeroAPIKeyConcurrencyMap (apiKeyIDs : list Z) : gmap Z Z :=
  foldl (fun m id => <[id := 0]> m) ∅ apiKeyIDs.

(** [for _, id := range ids { result[id] = counts[id] }]. *)
Definition copyCounts (ids : list Z) (counts result : gmap Z Z) : gmap Z Z :=
  foldl (fun m id => <[id := default 0 (counts !! id)]> m) result ids.

Definition GetAPIKeyConcurrencyBatch (apiKeyIDs : list Z) : proc (gmap Z Z) :=
  let result := zeroAPIKeyConcurrencyMap apiKeyIDs in
  match apiKeyIDs with
  | [] => Return result
  | _ =>
    atomic cache <- getCache in
    match cache with
    | None => Return result
    | Some c =>
      do counts <- asking (ConcurrencyCache.GetAPIKeyConcurrencyBatch c apiKeyIDs) in
      match counts with
      | None => Return result
      | Some counts => Return (copyCounts apiKeyIDs counts result)
      end
    end
  end.

Definition GetAccountConcurrencyBatch (accountIDs : list Z) : proc (option (gmap Z Z)) :=
  match accountIDs with
  | [] => Return (Some ∅)
  | _ =>
    atomic cache <- getCache in
    match cache with
    | None => Return (Some (zeroAPIKeyConcurrencyMap accountIDs))
    | Some c => asking (ConcurrencyCache.GetAccountConcurrencyBatch c accountIDs)
    end
  end.

(** ** Wait queue *)

(** A cache that is missing or fails lets the request wait. *)
Definition IncrementWaitCount (userID maxWait : Z) : proc bool :=
  atomic cache <- getCache in
  match cache with
  | None => Return true
  | Some c =>
    do r <- asking (ConcurrencyCache.IncrementWaitCount c userID maxWait) in
    Return (default true r)
  end.

Definition DecrementWaitCount (userID : Z) : proc unit :=
  atomic cache <- getCache in
  match cache with
  | None => Return tt
  | Some _ =>
    do _ <- asking (ConcurrencyCache.DecrementWaitCount userID) in
    Return tt
  end.

Definition IncrementAccountWaitCount (accountID maxWait : Z) : proc bool :=
  atomic cache <- getCache in
  match cache with
  | None => Return true
  | Some c =>
    do r <- asking (ConcurrencyCache.IncrementAccountWaitCount c accountID maxWait) in
    Return (default true r)
  end.

Definition DecrementAccountWaitCount (accountID : Z) : proc unit :=
  atomic cache <- getCache in
  match cache with
  | None => Return tt
  | Some _ =>
    do _ <- asking (ConcurrencyCache.DecrementAccountWaitCount accountID) in
    Return tt
  end.

Definition GetAccountWaitingCount (accountID : Z) : proc (option Z) :=
  atomic cache <- getCache in
  match cache with
  | None => Return (Some 0)
  | Some _ => asking (ConcurrencyCache.GetAccountWaitingCount accountID)
  end.

Definition defaultExtraWaitSlots : Z := 20.

Definition CalculateMaxWaitWithExtra (userConcurrency extra : Z) : Z :=
  let userConcurrency := if userConcurrency <=? 0 then 1 else userConcurrency in
  let extra := if extra <? 0 then 0 else extra in
  wrap64 (userConcurrency + extra).

Definition CalculateMaxWait (userConcurrency : Z) : Z :=
  CalculateMaxWaitWithExtra userConcurrency defaultExtraWaitSlots.

(** ** Cooldowns

    A deadline is the number of nanoseconds since the zero time; [time.Until] compares it with
    the process clock. *)

Definition withClock {A : Type} (k : Z -> proc A) : proc A :=
  Ask Clock (fun now => k (default 0 now)).

Definition ClearAccountCooldown (accountID : Z) : proc (option unit) :=
  atomic cache <- getCache in
  match cache with
  | None => Return (Some tt)
  | Some _ =>
    if accountID <=? 0 then Return (Some tt) else asking (ConcurrencyCache.ClearAccountCooldown accountID)
  end.

Definition SetAccountCooldown (accountID until : Z) : proc (option unit) :=
  atomic cache <- getCache in
  match cache with
  | None => Return (Some tt)
  | Some _ =>
    if ((accountID <=? 0) || (until =? 0))%bool then Return (Some tt) else
    withClock (fun now =>
      let ttl := until - now in
      if ttl <=? 0 then ClearAccountCooldown accountID
      else asking (ConcurrencyCache.SetAccountCooldown accountID ttl))
  end.

Definition ClearAccountCooldownBeforeGeneration (accountID generation : Z) : proc (option unit) :=
  atomic cache <- getCache in
  match cache with
  | None => Return (Some tt)
  | Some _ =>
    if ((accountID <=? 0) || (generation <=? 0))%bool then Return (Some tt)
    else asking (ConcurrencyCache.ClearAccountCooldownBeforeGeneration accountID generation)
  end.

Definition SetAccountCooldownGeneration (accountID until generation : Z) : proc (option unit) :=
  atomic cache <- getCache in
  match cache with
  | None => Return (Some tt)
  | Some _ =>
    if ((accountID <=? 0) || (generation <? 0))%bool then Return (Some tt) else
    withClock (fun now =>
      let ttl := until - now in
      if ttl <=? 0 then ClearAccountCooldownBeforeGeneration accountID (wrap64 (generation + 1))
      else asking (ConcurrencyCache.SetAccountCooldownGeneration accountID ttl generation))
  end.

Definition ClearOpenAIPoolCooldown (accountID : Z) : proc (option unit) :=
  atomic cache <- getCache in
  match cache with
  | None => Return (Some tt)
  | Some _ =>
    if accountID <=? 0 then Return (Some tt) else asking (ConcurrencyCache.ClearOpenAIPoolCooldown accountID)
  end.

Definition ClearOpenAIPoolCooldownBeforeGeneration (accountID generation : Z) : proc (option unit) :=
  atomic cache <- getCache in
  match cache with
  | None => Return (Some tt)
  | Some _ =>
    if ((accountID <=? 0) || (generation <=? 0))%bool then Return (Some tt)
    else asking (ConcurrencyCache.ClearOpenAIPoolCooldownBeforeGeneration accountID generation)
  end.

Definition SetOpenAIPoolCooldownGeneration (accountID until generation : Z) : proc (option unit) :=
  atomic cache <- getCache in
  match cache with
  | None => Return (Some tt)
  | Some _ =>
    if ((accountID <=? 0) || (generation <? 0))%bool then Return (Some tt) else
    withClock (fun now =>
      let ttl := until - now in
      if ttl <=? 0 then ClearOpenAIPoolCooldownBeforeGeneration accountID (wrap64 (generation + 1))
      else asking (ConcurrencyCache.SetOpenAIPoolCooldownGeneration accountID ttl generation))
  end.

Definition GetAccountCooldown (accountID : Z) : proc (option (option (Z * Z))) :=
  atomic cache <- getCache in
  match cache with
  | None => Return (Some None)
  | Some _ =>
    if accountID <=? 0 then Return (Some None) else asking (ConcurrencyCache.GetAccountCooldown accountID)
  end.

Definition GetOpenAIPoolCooldown (accountID : Z) : proc (option (option (Z * Z))) :=
  atomic cache <- getCache in
  match cache with
  | None => Return (Some None)
  | Some _ =>
    if accountID <=? 0 then Return (Some None) else asking (ConcurrencyCache.GetOpenAIPoolCooldown accountID)
  end.

(** ** Cleanup *)

(** The latch stays open until a cleanup went through. *)
Definition CleanupStaleProcessSlots (fuel : nat) : proc (option unit) :=
  atomic state <- (fun svc => ((cs_cache svc, cs_cleanupDone svc, requestIDPrefix svc), svc)) in
  match state with
  | (None, _, _) | (_, true, _) => Return (Some tt)
  | (Some c, false, prefix) =>
    do r <- asking (ConcurrencyCache.CleanupStaleProcessSlots c fuel prefix) in
    match r with
    | None => Return None
    | Some _ =>
      atomic _ <- (fun svc => (tt, svc <| cs_cleanupDone := true |>)) in
      Return (Some tt)
    end
  end.

Definition CleanupExpiredAccountSlots (accountID : Z) : proc (option unit) :=
  atomic cache <- getCache in
  match cache with
  | None => Return (Some tt)
  | Some c => asking (ConcurrencyCache.CleanupExpiredAccountSlots c accountID)
  end.

(** ** The cache of account loads *)

Definition maxAccountLoadBatchCacheEntries : Z := 256.

Definition SetAccountLoadBatchCacheTTL (ttl : Z) (svc : ConcurrencyService) : unit * ConcurrencyService :=
  let svc := svc <| cs_loadCacheTTL := ttl |> in
  (tt, if ttl <=? 0 then svc <| cs_loadCache := ∅ |> else svc).

(** The bytes of an unsigned integer, least significant first. *)
Fixpoint littleEndian (bytes : nat) (z : Z) : list Z :=
  match bytes with
  | O => []
  | S bytes => (z mod 256) :: littleEndian bytes (z / 256)
  end.

Definition accountLoadBatchCacheKey (accounts : list (Z * Z)) : string :=
  let buf := accounts ≫= fun '(id, maxConcurrency) =>
    littleEndian 8 (wrapU64 id) ++ littleEndian 8 (wrapU64 maxConcurrency) in
  pretty (Z.of_nat (length accounts)) +:+ ":" +:+ hex_encode (sha256 buf).

(** The entry is looked at again under the lock before it is dropped, so this is one step. *)
Definition getCachedAccountLoadBatch (key : string) (now : Z) (svc : ConcurrencyService)
    : option (gmap Z LoadInfo) * ConcurrencyService :=
  match cs_loadCache svc !! key with
  | None => (None, svc)
  | Some cached =>
    if cached_expiresAt cached <=? now
    then (None, svc <| cs_loadCache := delete key (cs_loadCache svc) |>)
    else (Some (cached_loadMap cached), svc)
  end.

(** Room is made by dropping what has expired, then arbitrary entries, here in the order of the
    map, until fewer than the maximum are left. *)
Definition makeRoom (now : Z) (m : gmap string cachedAccountLoadBatch) : gmap string cachedAccountLoadBatch :=
  if Z.of_nat (size m) <? maxAccountLoadBatchCacheEntries then m else
  let m := filter (fun p : string * cachedAccountLoadBatch => now < cached_expiresAt p.2) m in
  let excess := (size m + 1 - Z.to_nat maxAccountLoadBatchCacheEntries)%nat in
  foldr delete m (map fst (take excess (map_to_list m))).

Definition storeCachedAccountLoadBatch (key : string) (loadMap : gmap Z LoadInfo) (expiresAt now : Z)
    (svc : ConcurrencyService) : unit * ConcurrencyService :=
  (tt, svc <| cs_loadCache := <[key := MkCachedLoad loadMap expiresAt]> (makeRoom now (cs_loadCache svc)) |>).

(** [accounts]: the ids with their maximal concurrency.  Concurrent calls for the same batch share
    the fetch of the first one. *)
Definition getAccountsLoadBatch (accounts : list (Z * Z)) (allowCache : bool)
    : proc (option (gmap Z LoadInfo)) :=
  match accounts with
  | [] => Return (Some ∅)
  | _ =>
    atomic state <- (fun svc => ((cs_cache svc, cs_loadCacheTTL svc), svc)) in
    match state with
    | (None, _) => Return (Some ∅)
    | (Some c, ttl) =>
      if (negb allowCache || (ttl <=? 0))%bool then asking (ConcurrencyCache.GetAccountsLoadBatch c accounts) else
      let key := accountLoadBatchCacheKey accounts in
      withClock (fun now =>
        atomic cached <- getCachedAccountLoadBatch key now in
        match cached with
        | Some loadMap => Return (Some loadMap)
        | None =>
          withClock (fun now =>
            atomic cached <- getCachedAccountLoadBatch key now in
            match cached with
            | Some loadMap => Return (Some loadMap)
            | None =>
              do fetched <- asking (ConcurrencyCache.GetAccountsLoadBatch c accounts) in
              match fetched with
              | None => Return None
              | Some loadMap =>
                withClock (fun later =>
                  atomic _ <- storeCachedAccountLoadBatch key loadMap (now + ttl) later in
                  Return (Some loadMap))
              end
            end)
        end)
    end
  end.

Definition GetAccountsLoadBatch (accounts : list (Z * Z)) : proc (option (gmap Z LoadInfo)) :=
  getAccountsLoadBatch accounts true.

Definition GetAccountsLoadBatchFresh (accounts : list (Z * Z)) : proc (option (gmap Z LoadInfo)) :=
  getAccountsLoadBatch accounts false.

Definition GetUsersLoadBatch (users : list (Z * Z)) : proc (option (gmap Z LoadInfo)) :=
  atomic cache <- getCache in
  match cache with
  | None => Return (Some ∅)
  | Some c => asking (ConcurrencyCache.GetUsersLoadBatch c users)
  end.
