(* ===== verification/ConcurrencyServiceProofs.v ===== *)
(** * What the concurrency service promises

    Request ids are unique across processes, and a release function gives its slot back
    whatever happens to its requests. *)

From Stdlib Require Import Ascii.
From stdpp Require Import pretty.
From S2P Require Import Prelude GoStrings GoStringsFacts Programs Redis ConcurrencyScripts ConcurrencyCache ConcurrencyScriptsProofs ConcurrencySafety ConcurrencyCacheProofs ConcurrencyService.

Open Scope Z_scope.

(** ** Request ids *)

Definition value36 (c : ascii) : Z := if byte_of c <? 58 then byte_of c - 48 else byte_of c - 87.

Fixpoint parse36 (acc : Z) (s : string) : Z :=
  match s with
  | EmptyString => acc
  | String c s => parse36 (36 * acc + value36 c) s
  end.

Lemma digit36_value d : 0 <= d < 36 -> exists a, digit36 d = String a "" /\ value36 a = d /\ a <> "-"%char.
Proof.
  intros Hd. unfold digit36. eexists. split; [done|].
  assert (exists n, (n < 36)%nat /\ d = Z.of_nat n) as (n & Hn & ->) by (exists (Z.to_nat d); lia).
  clear Hd. do 36 (destruct n as [|n]; [by vm_compute|]). lia.
Qed.

Lemma format36_parse fuel n acc : 0 <= n < 36 ^ Z.of_nat fuel -> parse36 0 (format36 fuel n acc) = parse36 n acc.
Proof.
  revert n acc. induction fuel as [|fuel IH]; intros n acc Hn; [cbn in *; f_equal; lia|].
  pose proof (Z.mod_pos_bound n 36 ltac:(lia)) as Hm. pose proof (Z.div_mod n 36 ltac:(lia)) as Hd.
  cbn [format36]. destruct (digit36_value (n mod 36) Hm) as (a & -> & Ha & _).
  change (String a "" +:+ acc) with (String a acc). destruct (n <? 36) eqn:E; reflect_bool.
  - cbn [parse36]. by rewrite Ha, Z.mod_small by lia.
  - rewrite IH.
    + cbn [parse36]. rewrite Ha. f_equal. lia.
    + rewrite Nat2Z.inj_succ, Z.pow_succ_r in Hn by lia. split; [apply Z.div_pos; lia|].
      apply Z.div_lt_upper_bound; lia.
Qed.

Lemma FormatUint36_inj n m : 0 <= n < 2 ^ 64 -> 0 <= m < 2 ^ 64 -> FormatUint36 n = FormatUint36 m -> n = m.
Proof.
  intros Hn Hm E. assert (2 ^ 64 < 36 ^ Z.of_nat 13) by (by vm_compute).
  change (parse36 n "" = parse36 m ""). rewrite <- (format36_parse 13 n "") by lia. rewrite <- (format36_parse 13 m "") by lia.
  unfold FormatUint36 in E. by rewrite E.
Qed.

Definition notDash (a : ascii) : bool := negb (Ascii.eqb a "-").

Lemma format36_no_dash fuel n acc :
  0 <= n -> str_forall notDash acc = true -> str_forall notDash (format36 fuel n acc) = true.
Proof.
  revert n acc. induction fuel as [|fuel IH]; intros n acc Hn Hacc; [done|]. cbn [format36].
  destruct (digit36_value (n mod 36) (Z.mod_pos_bound n 36 ltac:(lia))) as (a & -> & _ & Ha).
  change (String a "" +:+ acc) with (String a acc).
  assert (Ha' : str_forall notDash (String a acc) = true).
  { cbn. rewrite Hacc, andb_true_r. unfold notDash. by apply negb_true_iff, Ascii.eqb_neq. }
  case_match; [done|]. apply IH; [apply Z.div_pos; lia|done].
Qed.

(** Texts without a dash before a dash are determined. *)
Lemma dash_split s1 s2 t1 t2 :
  str_forall notDash s1 = true -> str_forall notDash s2 = true ->
  s1 +:+ String "-" t1 = s2 +:+ String "-" t2 -> s1 = s2 /\ t1 = t2.
Proof.
  revert s2. induction s1 as [|a s1 IH]; intros [|b s2] H1 H2 He; cbn in *.
  - by injection He as ->.
  - injection He as <- _. by cbn in H2.
  - injection He as -> _. by cbn in H1.
  - injection He as -> He. apply andb_true_iff in H1 as [_ H1], H2 as [_ H2].
    destruct (IH s2 H1 H2 He) as [-> ->]. done.
Qed.

(** The state after [n] request ids. *)
Definition afterIDs (n : nat) (svc : ConcurrencyService) : ConcurrencyService :=
  Nat.iter n (fun svc => (generateRequestID svc).2) svc.

Lemma afterIDs_state n svc :
  0 <= requestIDCounter svc -> requestIDPrefix (afterIDs n svc) = requestIDPrefix svc /\
  (requestIDCounter svc + Z.of_nat n < 2 ^ 64 -> requestIDCounter (afterIDs n svc) = requestIDCounter svc + Z.of_nat n).
Proof.
  intros H0. induction n as [|n [IH1 IH2]]; [cbn; split; [done|lia]|]. split; [exact IH1|]. intros Hlt.
  change (wrapU64 (requestIDCounter (afterIDs n svc) + 1) = requestIDCounter svc + Z.of_nat (S n)).
  rewrite IH2 by lia. unfold wrapU64. rewrite Z.mod_small by lia. lia.
Qed.

(** Request ids are unique: two ids, the [n]-th and the [m]-th of two processes that drew [r1] and
    [r2] at their start, are equal only if they are the same id of processes that drew the same
    number.  So a release or a renewal never touches the slot of another request. *)
Theorem request_ids_unique (r1 r2 : Z) (svc1 svc2 : ConcurrencyService) (n m : nat) :
  0 <= r1 < 2 ^ 64 -> 0 <= r2 < 2 ^ 64 ->
  requestIDPrefix svc1 = initRequestIDPrefix r1 -> requestIDPrefix svc2 = initRequestIDPrefix r2 ->
  requestIDCounter svc1 = 0 -> requestIDCounter svc2 = 0 ->
  Z.of_nat n + 1 < 2 ^ 64 -> Z.of_nat m + 1 < 2 ^ 64 ->
  (generateRequestID (afterIDs n svc1)).1 = (generateRequestID (afterIDs m svc2)).1 -> r1 = r2 /\ n = m.
Proof.
  intros H1 H2 P1 P2 C1 C2 Hn Hm E.
  destruct (afterIDs_state n svc1) as [A1 B1]; [lia|]. destruct (afterIDs_state m svc2) as [A2 B2]; [lia|].
  unfold generateRequestID in E. cbn [fst] in E. rewrite A1, A2, B1, B2, P1, P2, C1, C2 in E by lia.
  unfold wrapU64 in E. rewrite !Z.mod_small in E by lia.
  assert (Hp : forall r, 0 <= r -> str_forall notDash (initRequestIDPrefix r) = true).
  { intros r Hr. unfold initRequestIDPrefix. change (str_forall notDash (FormatUint36 r) = true).
    by apply format36_no_dash. }
  change ("-" +:+ FormatUint36 (0 + Z.of_nat n + 1)) with (String "-" (FormatUint36 (0 + Z.of_nat n + 1))) in E.
  change ("-" +:+ FormatUint36 (0 + Z.of_nat m + 1)) with (String "-" (FormatUint36 (0 + Z.of_nat m + 1))) in E.
  apply dash_split in E as [E1 E2]; [|apply Hp; lia..].
  apply FormatUint36_inj in E2; [|lia..].
  unfold initRequestIDPrefix in E1. apply str_app_inv_head in E1. apply FormatUint36_inj in E1; [|done..].
  split; [done|lia].
Qed.

Definition freshService (random : Z) : ConcurrencyService :=
  MkConcurrencyService (Some oneMinute) ∅ [] false false 0 ∅ (initRequestIDPrefix random) 0.

(** ** Release *)

Section Release.
Context {store : Type} `{RedisServer store} (ttl : Z).

Definition jobKey (job : slotReleaseRetryJob) : string :=
  match job_release job with
  | AccountSlot => accountSlotKey (job_entityID job)
  | UserSlot => userSlotKey (job_entityID job)
  | APIKeySlot => apiKeySlotKey (job_entityID job)
  end.

Lemma regular_jobKey job : regular (jobKey job) = true.
Proof. unfold jobKey. destruct (job_release job); auto with keys. Qed.

Lemma releaseOp_command job :
  releaseOp (job_release job) (job_entityID job) (job_requestID job) =
    commandFine (ZREM (jobKey job) (job_requestID job)).
Proof. unfold releaseOp, jobKey. by destruct (job_release job). Qed.

(** The slot is gone from the server. *)
Definition freed (job : slotReleaseRetryJob) (now : Z) (s : store) : Prop :=
  forall later, now <= later -> slots (peek later s) (jobKey job) !! job_requestID job = None.

Lemma slots_elapse_None later ks key m : slots ks key !! m = None -> slots (elapse later ks) key !! m = None.
Proof.
  intros Hn. unfold slots. destruct (elapse later ks !! key) as [[[v|z] d]|] eqn:E; [done| |done].
  apply elapse_lookup in E as [E _]. unfold slots in Hn. by rewrite E in Hn.
Qed.

(** An attempt either reaches the server or changes nothing. *)
Lemma release_attempt job w now (s : store) :
  wf ttl now (peek now s) ->
  let '(r, s') := answer w (Command (ZREM (jobKey job) (job_requestID job))) now s in
  wf ttl now (peek now s') /\ (freed job now s' \/ (r = None /\ s' = s)).
Proof.
  intros Hwf. assert (HT : lifetime ttl (jobKey job) = Some ttl) by (apply lifetime_regular, regular_jobKey).
  assert (yields (Call (ZREM (jobKey job) (job_requestID job)) (fun n => Done n)) now (peek now s) (fun _ ks' =>
    wf ttl now ks' /\ slots ks' (jobKey job) !! job_requestID job = None)) as (n & ks' & E & Hw' & Hn).
  { eapply (yields_zrem ttl); [done..|]. intros n ks' Hrel Hsl. apply yields_done. split; [apply Hrel|].
    rewrite Hsl, decide_True by done. apply lookup_delete_eq. }
  pose proof (exec_effect (ZREM (jobKey job) (job_requestID job)) now s) as Ee.
  pose proof (exec_reply (ZREM (jobKey job) (job_requestID job)) now s) as Er. cbn [script] in E.
  destruct (documented (ZREM _ _) now (peek now s)) as [[r|] ks2] eqn:Ed; simplify_eq.
  unfold answer. cbn [serve]. destruct (exec (ZREM (jobKey job) (job_requestID job)) now s) as [r' s'].
  cbn [fst snd] in Ee, Er. subst.
  assert (Hf : freed job now s').
  { intros later Hle. rewrite (peek_later s' now) by done. by apply slots_elapse_None. }
  destruct (w_fault w); cbn; [by auto|by auto|by auto].
Qed.

(** What holds after the attempts: the slot is gone, or the job is in the queue. *)
Definition givenBack (job : slotReleaseRetryJob) (svc svc' : ConcurrencyService) (now : Z) (s' : store) : Prop :=
  cs_renewals svc' = cs_renewals svc /\
  ((exists t, now <= t /\ freed job t s') \/ cs_releaseQueue svc' = cs_releaseQueue svc ++ [job]).

Lemma releaseAttempts_give_back attempts backoff job ws now svc (s : store) :
  wf ttl now (peek now s) -> 0 <= backoff -> cs_releaseStopped svc = false ->
  Z.of_nat (length (cs_releaseQueue svc)) < slotReleaseRetryQueueSize ->
  exists svc' s', runs ws (releaseAttempts attempts backoff job) now svc s = (Some tt, svc', s') /\
    givenBack job svc svc' now s'.
Proof.
  intros Hwf Hb Hst Hq.
  assert (Hover : forall ws now (s : store), exists svc', runs ws (Atomically (retryConcurrencySlotReleaseInBackground job) (fun _ => Return tt)) now svc s =
    (Some tt, svc', s) /\ cs_renewals svc' = cs_renewals svc /\ cs_releaseQueue svc' = cs_releaseQueue svc ++ [job]).
  { intros ws0 now0 s0. cbn [runs]. unfold retryConcurrencySlotReleaseInBackground.
    rewrite Hst, (proj2 (Z.leb_gt _ _) Hq). by eexists. }
  revert ws now s backoff Hwf Hb. induction attempts as [|attempts IH]; intros ws now s backoff Hwf Hb; cbn [releaseAttempts].
  { destruct (Hover ws now s) as (svc' & E & H1 & H2). exists svc', s. split; [done|]. split; [done|by right]. }
  rewrite releaseOp_command. cbn [commandFine asking andThenDo runs].
  pose proof (release_attempt job (default calm (head ws)) now s Hwf) as Ha.
  destruct (answer _ _ now s) as [r s1]. destruct Ha as [Hwf1 Ha].
  destruct r as [n|].
  { exists svc, s1. split; [done|]. split; [done|]. left. destruct Ha as [Hf|[? _]]; [|done]. exists now. split; [lia|done]. }
  destruct attempts as [|attempts].
  { destruct (Hover (tail ws) now s1) as (svc' & E & H1 & H2). exists svc', s1. split; [done|]. split; [done|by right]. }
  cbn [runs]. set (now1 := now + backoff `quot` 1000000).
  assert (Hle : now <= now1) by (unfold now1; pose proof (Z.quot_pos backoff 1000000 ltac:(lia) ltac:(lia)); lia).
  destruct (IH (tail ws) now1 s1 (backoff * 2)) as (svc' & s' & E & H1 & H2).
  - rewrite (peek_later s1 now) by done. by eapply wf_elapse.
  - lia.
  - exists svc', s'. split; [exact E|]. split; [done|]. destruct H2 as [(t & Ht & Hf)|H2]; [|by right].
    left. exists t. split; [lia|done].
Qed.

Lemma callRelease_gives_back key job ws now svc (s : store) :
  wf ttl now (peek now s) -> cs_releaseStopped svc = false ->
  Z.of_nat (length (cs_releaseQueue svc)) < slotReleaseRetryQueueSize -> key <> "" ->
  exists svc' s', runs ws (callRelease (ReleaseSlot key job)) now svc s = (Some tt, svc', s') /\
    cs_renewals svc' = delete key (cs_renewals svc) /\
    ((exists t, now <= t /\ freed job t s') \/ cs_releaseQueue svc' = cs_releaseQueue svc ++ [job]).
Proof.
  intros Hwf Hst Hq Hk. cbn [callRelease runs]. unfold unregisterSlotRenewal.
  rewrite (proj2 (is_empty_false key) Hk).
  destruct (releaseAttempts_give_back slotReleaseMaxAttempts slotReleaseInitialBackoff job ws now
    (svc <| cs_renewals := delete key (cs_renewals svc) |>) s) as (svc' & s' & E & H1 & H2); [done..|].
  by exists svc', s'.
Qed.
End Release.


Definition lostAlways : list weather := [MkWeather LostRequest ([], 0) 0; MkWeather LostRequest ([], 0) 0; MkWeather LostRequest ([], 0) 0].


(** ** Acquiring and releasing *)

Lemma register_unregister key kind id r svc :
  cs_renewals svc !! key = None ->
  exists svc', registerSlotRenewal key kind id r svc = (tt, svc') /\ delete key (cs_renewals svc') = cs_renewals svc.
Proof.
  intros Hn. unfold registerSlotRenewal. case_match; eexists; split; try reflexivity; cbn;
    [by rewrite delete_id|by rewrite delete_insert_id].
Qed.

Section RoundTrip.
Context {store : Type} `{RedisServer store} (c : concurrencyCache).

Local Notation ttl := (slotTTLSeconds c).

Lemma runs_asking {A B : Type} (p : prog request A) (k : A -> proc B) now svc (s : store) :
  runs [] (andThenDo (asking p) k) now svc s = runs [] (k (atOnce p now s).1) now svc (atOnce p now s).2.
Proof.
  revert s. induction p as [a|R r k' IH]; intros s; cbn [asking andThenDo runs atOnce]; [done|].
  cbn [head default tail]. destruct (answer calm r now s) as [x s']. apply IH.
Qed.
End RoundTrip.

(** Acquiring a user slot and calling the release function it came with leaves everything that
    counts as it was, in Redis and in the registry, and a slot that is refused leaves no trace: there
    is no release function, nothing to renew and nothing in Redis. *)
Theorem AcquireUserSlot_release_round_trip (store : Type) `{RedisServer store} (c : concurrencyCache)
    (u max now : Z) (svc : ConcurrencyService) (s : store) :
  0 < slotTTLSeconds c -> 0 < max -> cs_cache svc = Some c -> wf (slotTTLSeconds c) now (peek now s) ->
  active (slotTTLSeconds c) now (peek now s) (userSlotKey u) !! (generateRequestID svc).1 = None ->
  cs_renewals svc !! renewalKeyOf "user" u (generateRequestID svc).1 = None ->
  exists svc1 s1 acquired,
    runs [] (AcquireUserSlot u max) now svc s =
      (Some (Some (MkAcquireResult acquired (if acquired
         then Some (ReleaseSlot (renewalKeyOf "user" u (generateRequestID svc).1)
                      (MkReleaseJob "user" u (generateRequestID svc).1 UserSlot))
         else None))), svc1, s1) /\
    acquired = (inUse (slotTTLSeconds c) now (peek now s) (userSlotKey u) (liveUserSlotKey u) <? max) /\
    if acquired then
      exists svc2 s2,
        runs [] (callRelease (ReleaseSlot (renewalKeyOf "user" u (generateRequestID svc).1)
                      (MkReleaseJob "user" u (generateRequestID svc).1 UserSlot))) now svc1 s1 =
          (Some tt, svc2, s2) /\
        silent (slotTTLSeconds c) now (peek now s) (peek now s2) /\ cs_renewals svc2 = cs_renewals svc
    else silent (slotTTLSeconds c) now (peek now s) (peek now s1) /\ cs_renewals svc1 = cs_renewals svc.
Proof.
  intros Httl Hmax Hc Hwf Hfresh Hreg. unfold AcquireUserSlot. rewrite (proj2 (Z.leb_gt max 0)) by lia.
  cbn [runs]. destruct (generateRequestID svc) as [rid svc0] eqn:Eg. cbn [fst] in *.
  assert (E0 : cs_cache svc0 = Some c /\ cs_renewals svc0 = cs_renewals svc)
    by (unfold generateRequestID in Eg; simplify_eq; done).
  destruct E0 as [Ec0 Er0]. unfold getCache. rewrite Ec0. rewrite runs_asking.
  pose proof (AcquireUserSlot_atOnce c u max rid now s Httl Hwf) as Ha. cbv zeta in Ha.
  pose proof (user_slot_round_trip c u max rid now s Httl Hwf Hfresh) as Hrt. cbv zeta in Hrt.
  set (s1 := (atOnce (ConcurrencyCache.AcquireUserSlot c u max rid) now s).2) in *. destruct Ha as [-> Ha].
  assert (Ef : userFits (slotTTLSeconds c) now (peek now s) u max rid =
    (inUse (slotTTLSeconds c) now (peek now s) (userSlotKey u) (liveUserSlotKey u) <? max)).
  { unfold userFits. rewrite Hfresh. by rewrite bool_decide_eq_false_2 by (by intros [? ?]). }
  rewrite Ef in *. clear Ef. destruct (inUse _ _ _ _ _ <? max).
  - cbn [runs].
    destruct (register_unregister (renewalKeyOf "user" u rid) "user" u rid svc0) as (svc1 & -> & Eun);
      [by rewrite Er0|].
    eexists _, _, true. split; [reflexivity|]. split; [done|].
    cbn [callRelease runs]. unfold unregisterSlotRenewal, retryConcurrencySlotRelease, slotReleaseMaxAttempts.
    change (is_empty (renewalKeyOf "user" u rid)) with false. cbv iota.
    cbn [releaseAttempts releaseOp job_release job_entityID job_requestID]. rewrite runs_asking.
    destruct (ZREM_atOnce c (userSlotKey u) (slotTTLSeconds c) rid now s1) as [Ez _]; [auto with keys|apply Ha|].
    unfold ReleaseUserSlot in *. rewrite Ez. eexists _, _. split; [reflexivity|]. split; [exact Hrt|].
    transitivity (cs_renewals svc0); [exact Eun|exact Er0].
  - eexists _, _, false. split; [reflexivity|]. split; [done|]. split; [exact Ha|exact Er0].
Qed.

