(* ===== verification/GoTime.v ===== *)
(** * Go's [time] package

    Instants are nanoseconds since the Unix epoch.  A [Location] is what the time zone
    database says of a zone: the offsets (in seconds east of UTC) and the instants (in
    Unix seconds) from which they are in force.  Civil times ("the wall clock shows") are
    counted in nanoseconds as if the zone were UTC, so that days are the multiples of
    [Day] and the calendar arithmetic of [time.Date] on days is addition. *)

From S2P Require Import Prelude.

#[local] Open Scope Z_scope.

Definition Microsecond : Z := 1000.
Definition Second : Z := 1000000000.
Definition Hour : Z := 3600 * Second.
Definition Day : Z := 24 * Hour.

(** [time.Time{}], the first instant of the year 1. *)
Definition zeroTime : Z := -62135596800 * Second.
Definition IsZero (t : Z) : bool := t =? zeroTime.

(** [t.Sub(u)] stops at the largest and the smallest [Duration]. *)
Definition Sub (t u : Z) : Z := Z.max min_int64 (Z.min max_int64 (t - u)).

Record Location := MkLocation {
  loc_first : Z;
  loc_transitions : list (Z * Z)
}.

Definition alpha : Z := min_int64.
Definition omega : Z := max_int64.

(** The offset in force at a Unix second, and the interval in which it is. *)
Fixpoint lookupFrom (offset start : Z) (rest : list (Z * Z)) (sec : Z) : Z * Z * Z :=
  match rest with
  | [] => (offset, start, omega)
  | (when, offset') :: rest' =>
    if sec <? when then (offset, start, when) else lookupFrom offset' when rest' sec
  end.

Definition lookup (l : Location) (sec : Z) : Z * Z * Z :=
  lookupFrom (loc_first l) alpha (loc_transitions l) sec.

(** What the wall clock shows at an instant. *)
Definition civil (l : Location) (t : Z) : Z := t + (lookup l (t / Second)).1.1 * Second.

(** [time.Date]: the instant at which the wall clock shows [u], with the choice that Go
    makes when there is none or more than one. *)
Definition Date (l : Location) (u : Z) : Z :=
  let unix := u / Second in
  let '(offset, start, end_) := lookup l unix in
  if offset =? 0 then u
  else
    let utc := unix - offset in
    let offset := if (utc <? start) || (end_ <=? utc) then (lookup l utc).1.1 else offset in
    u - offset * Second.

(** [t.AddDate(0, 0, days)]. *)
Definition AddDate (l : Location) (t days : Z) : Z := Date l (civil l t + days * Day).

(** Midnight of the day of [t]. *)
Definition midnight (l : Location) (t : Z) : Z := Date l (civil l t / Day * Day).

(** Zones without transitions: UTC, and those of countries that keep one offset. *)
Definition FixedZone (offset : Z) : Location := MkLocation offset [].
Definition UTC : Location := FixedZone 0.

(** Central European Time around the changes of 2026. *)
Example spring_forward :
  let berlin := MkLocation 3600 [(1774746000, 7200); (1792890000, 3600)] in
  let noon := 1774695600 * Second in
  AddDate berlin noon 1 = noon + 23 * Hour /\ midnight berlin noon = noon - 12 * Hour /\
  midnight berlin (AddDate berlin noon 1) = noon + 12 * Hour.
Proof. vm_compute. auto. Qed.

Section Fixed.
Context (offset : Z).

Lemma civil_fixed t : civil (FixedZone offset) t = t + offset * Second.
Proof. done. Qed.

Lemma Date_fixed u : Date (FixedZone offset) u = u - offset * Second.
Proof.
  unfold Date, lookup. cbn [FixedZone loc_first loc_transitions lookupFrom].
  destruct (Z.eqb_spec offset 0) as [->|]; [lia|]. by destruct (_ || _).
Qed.

Lemma AddDate_fixed t d : AddDate (FixedZone offset) t d = t + d * Day.
Proof. unfold AddDate. rewrite Date_fixed, civil_fixed. lia. Qed.

Lemma midnight_fixed t :
  midnight (FixedZone offset) t <= t < midnight (FixedZone offset) t + Day.
Proof.
  unfold midnight. rewrite Date_fixed, civil_fixed.
  pose proof (Z.div_mod (t + offset * Second) Day) as D.
  pose proof (Z.mod_pos_bound (t + offset * Second) Day) as B. unfold Day, Hour, Second in *. lia.
Qed.
End Fixed.

(** Wall clocks differ by whole seconds. *)
Lemma Date_whole l u : (Second | u) -> (Second | Date l u).
Proof.
  intros [k ->]. unfold Date. destruct (lookup _ _) as [[o s] e]. repeat case_match; [by exists k|..].
  all: eexists; rewrite <-Z.mul_sub_distr_r; reflexivity.
Qed.

Lemma midnight_whole l t : (Second | midnight l t).
Proof.
  apply Date_whole. exists (civil l t / Day * (24 * 3600)). unfold Day, Hour. lia.
Qed.

Lemma Sub_exact t u : in_int64 (t - u) -> Sub t u = t - u.
Proof. unfold Sub, in_int64. lia. Qed.
