(* ===== verification/Subscriptions.v ===== *)
(** * Subscriptions

    [service/user_subscription.go], [service/subscription_service.go] and
    [repository/user_subscription_repo.go]: terms of subscriptions, their daily, weekly
    and monthly quota windows, and the handlers that assign, renew, adjust, revoke,
    restore, reset and maintain them.

    A repository method is one SQL statement ([stmt]) or a few; a service method is a
    program over statements, transactions, the clock and the cache of active
    subscriptions, so that handlers interleave between statements.  Edges to users are
    not loaded, messages around wrapped errors are not kept, and log lines are omitted.
    The L1 cache answers with whatever was put in last or with nothing; [singleflight],
    which only lets concurrent readers share a result, is left out.  All times are in
    the one configured zone: it is [time.Local], and database sessions are opened with
    it. *)

From Stdlib Require Import SpecFloat.
From S2P Require Import Prelude GoStrings GoFloat GoTime Programs.

#[local] Open Scope Z_scope.

Definition SubscriptionStatusActive : string := "active".
Definition SubscriptionStatusExpired : string := "expired".
Definition SubscriptionStatusSuspended : string := "suspended".
Definition SubscriptionStatusRevoked : string := "revoked".
Definition SubscriptionTypeSubscription : string := "subscription".

(** 2099-12-31 23:59:59 UTC. *)
Definition MaxExpiresAt : Z := 4102444799 * Second.
Definition MaxValidityDays : Z := 36500.

Inductive sub_error :=
  | ErrSubscriptionNotFound
  | ErrSubscriptionExpired
  | ErrSubscriptionSuspended
  | ErrSubscriptionAlreadyExists
  | ErrSubscriptionAssignConflict (reason : string)
  | ErrSubscriptionNotRevoked
  | ErrSubscriptionRestoreConflict
  | ErrGroupNotSubscriptionType
  | ErrInvalidInput
  | ErrDailyLimitExceeded
  | ErrWeeklyLimitExceeded
  | ErrMonthlyLimitExceeded
  | ErrAdjustWouldExpire
  | ErrCannotShortenExpired
  | ErrGroupNotFound
  | ErrDatabase.

#[export] Instance sub_error_eq_dec : EqDecision sub_error.
Proof. solve_decision. Defined.

(** ** Data *)

(** The fields of a group that subscriptions use. *)
Record Group := MkGroup {
  g_ID : Z;
  g_Name : string;
  g_SubscriptionType : string;
  g_DailyLimitUSD : option float64;
  g_WeeklyLimitUSD : option float64;
  g_MonthlyLimitUSD : option float64
}.

Definition IsSubscriptionType (g : Group) : bool := g_SubscriptionType g =s SubscriptionTypeSubscription.

Definition hasLimit (limit : option float64) : bool :=
  match limit with Some l => flt fzero l | None => false end.

Definition HasDailyLimit (g : Group) : bool := hasLimit (g_DailyLimitUSD g).
Definition HasWeeklyLimit (g : Group) : bool := hasLimit (g_WeeklyLimitUSD g).
Definition HasMonthlyLimit (g : Group) : bool := hasLimit (g_MonthlyLimitUSD g).

Record UserSubscription := MkUserSubscription {
  sub_GeminiCachePending : float64;
  sub_GeminiCacheGeneration : Z;
  sub_ID : Z;
  sub_UserID : Z;
  sub_GroupID : Z;
  sub_StartsAt : Z;
  sub_ExpiresAt : Z;
  sub_Status : string;
  sub_DailyWindowStart : option Z;
  sub_WeeklyWindowStart : option Z;
  sub_MonthlyWindowStart : option Z;
  sub_DailyUsageUSD : float64;
  sub_WeeklyUsageUSD : float64;
  sub_MonthlyUsageUSD : float64;
  sub_AssignedBy : option Z;
  sub_AssignedAt : Z;
  sub_Notes : string;
  sub_CreatedAt : Z;
  sub_UpdatedAt : Z;
  sub_DeletedAt : option Z;
  sub_Group : option Group
}.

#[export] Instance eta_UserSubscription : Eta UserSubscription := fun r =>
  MkUserSubscription (sub_GeminiCachePending r) (sub_GeminiCacheGeneration r) (sub_ID r)
    (sub_UserID r) (sub_GroupID r) (sub_StartsAt r) (sub_ExpiresAt r) (sub_Status r)
    (sub_DailyWindowStart r) (sub_WeeklyWindowStart r) (sub_MonthlyWindowStart r)
    (sub_DailyUsageUSD r) (sub_WeeklyUsageUSD r) (sub_MonthlyUsageUSD r) (sub_AssignedBy r)
    (sub_AssignedAt r) (sub_Notes r) (sub_CreatedAt r) (sub_UpdatedAt r) (sub_DeletedAt r)
    (sub_Group r).

(** Go's zero value. *)
Definition emptySubscription : UserSubscription :=
  MkUserSubscription fzero 0 0 0 0 zeroTime zeroTime "" None None None fzero fzero fzero None
    zeroTime "" zeroTime zeroTime None None.

(** ** Quota windows ([user_subscription.go]) *)

Definition subscriptionDayDuration : Z := Day.

Section Windows.
Context (local : Location).

(** [timezone.StartOfDay] and the service's [startOfDay]. *)
Definition StartOfDay (t : Z) : Z := midnight local t.
Definition startOfDay (t : Z) : Z := midnight local t.

Definition IsActive (s : UserSubscription) (now : Z) : bool :=
  (sub_Status s =s SubscriptionStatusActive) && (now <? sub_ExpiresAt s).

Definition IsExpired (s : UserSubscription) (now : Z) : bool := sub_ExpiresAt s <? now.

Definition daysRemainingAt (s : UserSubscription) (now : Z) : Z :=
  let remaining := Sub (sub_ExpiresAt s) now in
  if remaining <=? 0 then 0
  else
    let days := Z.quot remaining subscriptionDayDuration in
    if negb (Z.rem remaining subscriptionDayDuration =? 0) then days + 1 else days.

Definition IsWindowActivated (s : UserSubscription) : bool :=
  bool_decide (sub_DailyWindowStart s <> None) || bool_decide (sub_WeeklyWindowStart s <> None)
  || bool_decide (sub_MonthlyWindowStart s <> None).

Definition oneTimeQuota (days : Z) (s : UserSubscription) : bool :=
  if IsZero (sub_StartsAt s) || IsZero (sub_ExpiresAt s) then false
  else negb (AddDate local (sub_StartsAt s) days <? sub_ExpiresAt s).

Definition HasOneTimeDailyQuota : UserSubscription -> bool := oneTimeQuota 1.
Definition HasOneTimeWeeklyQuota : UserSubscription -> bool := oneTimeQuota 7.
Definition HasOneTimeMonthlyQuota : UserSubscription -> bool := oneTimeQuota 30.

(** Where the windows of a subscription are counted from: windows that were started at
    midnight of the first day are counted from the start of the term. *)
Definition windowAnchor (s : UserSubscription) (previous : Z) : Z :=
  let legacyAnchor := startOfDay (sub_StartsAt s) in
  if (legacyAnchor <? sub_StartsAt s) && (previous =? legacyAnchor) then sub_StartsAt s else previous.

Definition automaticWindowStartAt (s : UserSubscription) (previous : option Z) (period now : Z)
    : option Z :=
  match previous with
  | None => None
  | Some previous =>
    let anchor := windowAnchor s previous in
    let next := anchor + period in
    if (now <? next) || negb (next <? sub_ExpiresAt s) then None
    else
      let periods := Z.quot (Sub now anchor) period in
      let lastPeriodBeforeExpiry := Z.quot (wrap64 (Sub (sub_ExpiresAt s) anchor - 1)) period in
      let periods := if lastPeriodBeforeExpiry <? periods then lastPeriodBeforeExpiry else periods in
      Some (anchor + wrap64 (periods * period))
  end.

Definition automaticDailyWindowStartAt (s : UserSubscription) (previous : option Z) (now : Z)
    : option Z :=
  match previous with
  | None => None
  | Some previous =>
    if HasOneTimeDailyQuota s then None
    else
      let anchor := windowAnchor s previous in
      let currentDay := StartOfDay now in
      if negb (anchor <? currentDay) || negb (currentDay <? sub_ExpiresAt s) then None
      else Some currentDay
  end.

Definition Week : Z := 7 * 24 * Hour.
Definition Month : Z := 30 * 24 * Hour.

Definition NeedsDailyResetAt (s : UserSubscription) (now : Z) : bool :=
  match sub_DailyWindowStart s with
  | None => false
  | Some _ =>
    if HasOneTimeDailyQuota s then false
    else bool_decide (automaticDailyWindowStartAt s (sub_DailyWindowStart s) now <> None)
  end.

Definition NeedsWeeklyResetAt (s : UserSubscription) (now : Z) : bool :=
  match sub_WeeklyWindowStart s with None => false | Some start => negb (now <? start + Week) end.

Definition NeedsMonthlyResetAt (s : UserSubscription) (now : Z) : bool :=
  match sub_MonthlyWindowStart s with None => false | Some start => negb (now <? start + Month) end.

Definition canAutomaticallyResetDailyAt (s : UserSubscription) (now : Z) : bool :=
  negb (HasOneTimeDailyQuota s)
  && bool_decide (automaticDailyWindowStartAt s (sub_DailyWindowStart s) now <> None).

Definition canAutomaticallyResetWeeklyAt (s : UserSubscription) (now : Z) : bool :=
  bool_decide (automaticWindowStartAt s (sub_WeeklyWindowStart s) Week now <> None).

Definition canAutomaticallyResetMonthlyAt (s : UserSubscription) (now : Z) : bool :=
  bool_decide (automaticWindowStartAt s (sub_MonthlyWindowStart s) Month now <> None).

Definition DailyResetTime (s : UserSubscription) : option Z :=
  match sub_DailyWindowStart s with
  | None => None
  | Some start =>
    if HasOneTimeDailyQuota s then Some (sub_ExpiresAt s)
    else Some (AddDate local (StartOfDay start) 1)
  end.

Definition WeeklyResetTime (s : UserSubscription) : option Z :=
  match sub_WeeklyWindowStart s with
  | None => None
  | Some start => if HasOneTimeWeeklyQuota s then Some (sub_ExpiresAt s) else Some (start + Week)
  end.

Definition MonthlyResetTime (s : UserSubscription) : option Z :=
  match sub_MonthlyWindowStart s with
  | None => None
  | Some start => if HasOneTimeMonthlyQuota s then Some (sub_ExpiresAt s) else Some (start + Month)
  end.

Definition checkLimit (limit : option float64) (usage additionalCost : float64) : bool :=
  if hasLimit limit then
    match limit with Some l => fle (fadd usage additionalCost) l | None => true end
  else true.

Definition CheckDailyLimit (s : UserSubscription) (group : Group) (additionalCost : float64) : bool :=
  checkLimit (g_DailyLimitUSD group) (sub_DailyUsageUSD s) additionalCost.
Definition CheckWeeklyLimit (s : UserSubscription) (group : Group) (additionalCost : float64) : bool :=
  checkLimit (g_WeeklyLimitUSD group) (sub_WeeklyUsageUSD s) additionalCost.
Definition CheckMonthlyLimit (s : UserSubscription) (group : Group) (additionalCost : float64) : bool :=
  checkLimit (g_MonthlyLimitUSD group) (sub_MonthlyUsageUSD s) additionalCost.

Definition CheckAllLimits (s : UserSubscription) (group : Group) (additionalCost : float64)
    : bool * bool * bool :=
  (CheckDailyLimit s group additionalCost, CheckWeeklyLimit s group additionalCost,
   CheckMonthlyLimit s group additionalCost).

Definition CacheOperationWindowStarts (s : UserSubscription) (now : Z) : Z * Z * Z :=
  let or_current (next start : option Z) := match next with Some t => Some t | None => start end in
  let orStart (start : option Z) :=
    default (if now <? sub_StartsAt s then now else sub_StartsAt s) start in
  (orStart (or_current (automaticDailyWindowStartAt s (sub_DailyWindowStart s) now) (sub_DailyWindowStart s)),
   orStart (or_current (automaticWindowStartAt s (sub_WeeklyWindowStart s) Week now) (sub_WeeklyWindowStart s)),
   orStart (or_current (automaticWindowStartAt s (sub_MonthlyWindowStart s) Month now) (sub_MonthlyWindowStart s))).
End Windows.

(** ** The table of subscriptions ([user_subscription_repo.go]) *)

(** What the repository relies on of PostgreSQL: a [timestamptz] keeps whole microseconds
    and a [decimal(20,10)] multiples of 10^-10 (the unit of [numeric] here).
    [numeric_of] is what such a column holds of a [float64], if it can. *)
Class Postgres := {
  stored : Z -> Z;
  numeric_of : float64 -> option Z;
  stored_whole t : (Microsecond | stored t);
  stored_exact t : (Microsecond | t) -> stored t = t;
  stored_shift t d : (Microsecond | d) -> stored (t + d) = stored t + d;
  stored_mono t u : t <= u -> stored t <= stored u;
  numeric_of_zero : numeric_of fzero = Some 0
}.

Notation numeric := Z (only parsing).

(** [strconv.ParseFloat] of the decimal representation, correctly rounded. *)
Definition float_of_numeric (n : numeric) : float64 :=
  match n with
  | Z0 => fzero
  | Zpos m => SFdiv 53 1024 (S754_finite false m 0) (S754_finite false 10000000000 0)
  | Zneg m => SFdiv 53 1024 (S754_finite true m 0) (S754_finite false 10000000000 0)
  end.

Definition fits_numeric (n : numeric) : bool := Z.abs n <? 10 ^ 20.

(** A row of [user_subscriptions]. *)
Record us_row := MkRow {
  us_GeminiCachePending : numeric;
  us_GeminiCacheGeneration : Z;
  us_ID : Z;
  us_UserID : Z;
  us_GroupID : Z;
  us_StartsAt : Z;
  us_ExpiresAt : Z;
  us_Status : string;
  us_DailyWindowStart : option Z;
  us_WeeklyWindowStart : option Z;
  us_MonthlyWindowStart : option Z;
  us_DailyUsageUsd : numeric;
  us_WeeklyUsageUsd : numeric;
  us_MonthlyUsageUsd : numeric;
  us_AssignedBy : option Z;
  us_AssignedAt : Z;
  us_Notes : option string;
  us_CreatedAt : Z;
  us_UpdatedAt : Z;
  us_DeletedAt : option Z
}.

#[export] Instance eta_us_row : Eta us_row := fun r =>
  MkRow (us_GeminiCachePending r) (us_GeminiCacheGeneration r) (us_ID r) (us_UserID r)
    (us_GroupID r) (us_StartsAt r) (us_ExpiresAt r) (us_Status r) (us_DailyWindowStart r)
    (us_WeeklyWindowStart r) (us_MonthlyWindowStart r) (us_DailyUsageUsd r)
    (us_WeeklyUsageUsd r) (us_MonthlyUsageUsd r) (us_AssignedBy r) (us_AssignedAt r)
    (us_Notes r) (us_CreatedAt r) (us_UpdatedAt r) (us_DeletedAt r).

#[export] Instance us_row_eq_dec : EqDecision us_row.
Proof. solve_decision. Defined.

(** The tables; a group carries whether it was deleted. *)
Record sdb := MkSdb {
  sd_users : gset Z;
  sd_groups : gmap Z (Group * bool);
  sd_subs : gmap Z us_row;
  sd_next : Z
}.

#[export] Instance eta_sdb : Eta sdb := fun d =>
  MkSdb (sd_users d) (sd_groups d) (sd_subs d) (sd_next d).

(** Queries leave out rows that are deleted ([SoftDeleteMixin]); updates do not. *)
Definition live (r : us_row) : bool := bool_decide (us_DeletedAt r = None).

Definition liveGroup (db : sdb) (id : Z) : option Group :=
  match (sd_groups db !! id : option (Group * bool)) with
  | Some (g, deleted) => if deleted then None else Some g
  | None => None
  end.

Inductive subscriptionWindow :=
  | subscriptionWindowDaily
  | subscriptionWindowWeekly
  | subscriptionWindowMonthly.

#[export] Instance subscriptionWindow_eq_dec : EqDecision subscriptionWindow.
Proof. solve_decision. Defined.

Definition windowStart (w : subscriptionWindow) (r : us_row) : option Z :=
  match w with
  | subscriptionWindowDaily => us_DailyWindowStart r
  | subscriptionWindowWeekly => us_WeeklyWindowStart r
  | subscriptionWindowMonthly => us_MonthlyWindowStart r
  end.

Definition windowUsage (w : subscriptionWindow) (r : us_row) : numeric :=
  match w with
  | subscriptionWindowDaily => us_DailyUsageUsd r
  | subscriptionWindowWeekly => us_WeeklyUsageUsd r
  | subscriptionWindowMonthly => us_MonthlyUsageUsd r
  end.

(** [SetDailyUsageUsd(0).SetDailyWindowStart(start)] and its like, [start] as stored. *)
Definition restartWindow (w : subscriptionWindow) (start : Z) (r : us_row) : us_row :=
  match w with
  | subscriptionWindowDaily => r <| us_DailyUsageUsd := 0 |> <| us_DailyWindowStart := Some start |>
  | subscriptionWindowWeekly => r <| us_WeeklyUsageUsd := 0 |> <| us_WeeklyWindowStart := Some start |>
  | subscriptionWindowMonthly => r <| us_MonthlyUsageUsd := 0 |> <| us_MonthlyWindowStart := Some start |>
  end.

(** [loadGroup]: the query asked for the edge to the group. *)
Definition userSubscriptionEntityToServiceWithStatusMapping (loadGroup : bool) (db : sdb) (m : us_row)
    (mapDeletedToRevoked : bool) : UserSubscription :=
  {| sub_GeminiCachePending := float_of_numeric (us_GeminiCachePending m);
     sub_GeminiCacheGeneration := us_GeminiCacheGeneration m;
     sub_ID := us_ID m;
     sub_UserID := us_UserID m;
     sub_GroupID := us_GroupID m;
     sub_StartsAt := us_StartsAt m;
     sub_ExpiresAt := us_ExpiresAt m;
     sub_Status := if mapDeletedToRevoked && negb (live m) then SubscriptionStatusRevoked else us_Status m;
     sub_DailyWindowStart := us_DailyWindowStart m;
     sub_WeeklyWindowStart := us_WeeklyWindowStart m;
     sub_MonthlyWindowStart := us_MonthlyWindowStart m;
     sub_DailyUsageUSD := float_of_numeric (us_DailyUsageUsd m);
     sub_WeeklyUsageUSD := float_of_numeric (us_WeeklyUsageUsd m);
     sub_MonthlyUsageUSD := float_of_numeric (us_MonthlyUsageUsd m);
     sub_AssignedBy := us_AssignedBy m;
     sub_AssignedAt := us_AssignedAt m;
     sub_Notes := default "" (us_Notes m);
     sub_CreatedAt := us_CreatedAt m;
     sub_UpdatedAt := us_UpdatedAt m;
     sub_DeletedAt := us_DeletedAt m;
     sub_Group := if loadGroup then liveGroup db (us_GroupID m) else None |}.

Definition userSubscriptionEntityToService (loadGroup : bool) (db : sdb) (m : us_row) : UserSubscription :=
  userSubscriptionEntityToServiceWithStatusMapping loadGroup db m true.

Definition userSubscriptionEntityToServicePreserveStatus (loadGroup : bool) (db : sdb) (m : us_row)
    : UserSubscription :=
  userSubscriptionEntityToServiceWithStatusMapping loadGroup db m false.

Inductive stmt : Type -> Type :=
  | GroupGetByID (id : Z) : stmt (sub_error + Group)
  | GetByID (id : Z) : stmt (sub_error + UserSubscription)
  | GetByIDForUpdate (id : Z) : stmt (sub_error + UserSubscription)
  | GetByIDIncludeDeleted (id : Z) : stmt (sub_error + UserSubscription)
  | GetByUserIDAndGroupID (userID groupID : Z) : stmt (sub_error + UserSubscription)
  | GetActiveByUserIDAndGroupID (userID groupID : Z) : stmt (sub_error + UserSubscription)
  | ListByUserID (userID : Z) : stmt (list UserSubscription)
  | ListActiveByUserID (userID : Z) : stmt (list UserSubscription)
  | ExistsByUserIDAndGroupID (userID groupID : Z) : stmt bool
  | ExistsByID (id : Z) : stmt bool
  | Create (sub : UserSubscription) : stmt (sub_error + UserSubscription)
  | Update (sub : UserSubscription) : stmt (sub_error + unit)
  | ExtendExpiry (id newExpiresAt : Z) : stmt (sub_error + unit)
  | UpdateStatus (id : Z) (status : string) : stmt (sub_error + unit)
  | UpdateNotes (id : Z) (notes : string) : stmt (sub_error + unit)
  | Delete (id : Z) : stmt unit
  | RestoreUpdate (id : Z) (restoredStatus : string) : stmt (sub_error + unit)
  | ActivateWindowsUpdate (id start : Z) : stmt Z
  | ResetUsageIfCurrentUpdate (w : subscriptionWindow) (id : Z) (expected : option Z) (start : Z) : stmt Z
  | ResetUsageWindows (id : Z) (resetDaily resetWeekly resetMonthly : bool) (start : Z)
    : stmt (sub_error + unit)
  | IncrementUsageUpdate (id : Z) (costUSD : float64) : stmt (sub_error + Z)
  | BatchUpdateExpiredStatus : stmt Z.

Section Statements.
Context `{Postgres} (now : Z).

Definition set_subs (db : sdb) (f : gmap Z us_row -> gmap Z us_row) : sdb :=
  db <| sd_subs := f (sd_subs db) |>.

(** [UpdateOneID(id)...Save]. *)
Definition updateOneID (id : Z) (f : us_row -> us_row) (db : sdb) : (sub_error + unit) * sdb :=
  match sd_subs db !! id with
  | None => (inl ErrSubscriptionNotFound, db)
  | Some r => (inr tt, set_subs db (<[ id := f r <| us_UpdatedAt := stored now |> ]>))
  end.

(** [Update().Where(IDEQ(id), p)...Save], which reports how many rows it changed. *)
Definition updateWhere (id : Z) (p : us_row -> bool) (f : us_row -> us_row) (db : sdb) : Z * sdb :=
  match sd_subs db !! id with
  | Some r => if p r then (1, set_subs db (<[ id := f r <| us_UpdatedAt := stored now |> ]>)) else (0, db)
  | None => (0, db)
  end.

Definition rowsWhere (db : sdb) (p : us_row -> bool) : list us_row :=
  List.filter p (map snd (map_to_list (sd_subs db))).

Definition ownedBy (userID groupID : Z) (r : us_row) : bool :=
  live r && (us_UserID r =? userID) && (us_GroupID r =? groupID).

Definition activeNow (r : us_row) : bool :=
  (us_Status r =s SubscriptionStatusActive) && (stored now <? us_ExpiresAt r).

(** [Only]: exactly one row. *)
Definition only (loadGroup : bool) (db : sdb) (rows : list us_row) : sub_error + UserSubscription :=
  match rows with
  | [] => inl ErrSubscriptionNotFound
  | [r] => inr (userSubscriptionEntityToService loadGroup db r)
  | _ => inl ErrDatabase
  end.

(** The partial unique index on (user, group) of rows that are not deleted. *)
Definition duplicate (db : sdb) (r : us_row) : bool :=
  live r && existsb (fun r' => ownedBy (us_UserID r) (us_GroupID r) r' && negb (us_ID r' =? us_ID r))
              (map snd (map_to_list (sd_subs db))).

(** [Order(Desc(created_at))]. *)
Fixpoint insertNewest (r : us_row) (rows : list us_row) : list us_row :=
  match rows with
  | [] => [r]
  | r' :: rest => if us_CreatedAt r' <? us_CreatedAt r then r :: rows else r' :: insertNewest r rest
  end.
Definition newestFirst (rows : list us_row) : list us_row := foldr insertNewest [] rows.

(** The row that [Create] inserts; [None] when a usage does not fit its column. *)
Definition createRow (db : sdb) (sub : UserSubscription) : option us_row :=
  match numeric_of (sub_DailyUsageUSD sub), numeric_of (sub_WeeklyUsageUSD sub),
        numeric_of (sub_MonthlyUsageUSD sub) with
  | Some d, Some w, Some m =>
    Some {| us_GeminiCachePending := 0;
            us_GeminiCacheGeneration := 0;
            us_ID := sd_next db;
            us_UserID := sub_UserID sub;
            us_GroupID := sub_GroupID sub;
            us_StartsAt := stored (if IsZero (sub_StartsAt sub) then now else sub_StartsAt sub);
            us_ExpiresAt := stored (sub_ExpiresAt sub);
            us_Status := if sub_Status sub =s "" then SubscriptionStatusActive else sub_Status sub;
            us_DailyWindowStart := option_map stored (sub_DailyWindowStart sub);
            us_WeeklyWindowStart := option_map stored (sub_WeeklyWindowStart sub);
            us_MonthlyWindowStart := option_map stored (sub_MonthlyWindowStart sub);
            us_DailyUsageUsd := d;
            us_WeeklyUsageUsd := w;
            us_MonthlyUsageUsd := m;
            us_AssignedBy := sub_AssignedBy sub;
            us_AssignedAt := stored (if IsZero (sub_AssignedAt sub) then now else sub_AssignedAt sub);
            us_Notes := Some (sub_Notes sub);
            us_CreatedAt := stored now;
            us_UpdatedAt := stored now;
            us_DeletedAt := None |}
  | _, _, _ => None
  end.

(** The foreign keys of a row. *)
Definition referenced (db : sdb) (r : us_row) : bool :=
  bool_decide (us_UserID r ∈ sd_users db) && bool_decide (sd_groups db !! us_GroupID r <> None)
  && match us_AssignedBy r with Some a => bool_decide (a ∈ sd_users db) | None => true end.

Definition createStmt (sub : UserSubscription) (db : sdb) : (sub_error + UserSubscription) * sdb :=
  let db' := db <| sd_next := sd_next db + 1 |> in
  match createRow db sub with
  | None => (inl ErrDatabase, db')
  | Some r =>
    if negb (referenced db r) then (inl ErrDatabase, db')
    else if duplicate db r then (inl ErrSubscriptionAlreadyExists, db')
    else (inr (sub <| sub_ID := us_ID r |> <| sub_CreatedAt := now |> <| sub_UpdatedAt := now |>),
          set_subs db' (<[ us_ID r := r ]>))
  end.

(** [SetNillable...] leaves the column as it is when there is no value. *)
Definition orKeep (new old : option Z) : option Z := match new with Some t => Some (stored t) | None => old end.

Definition updateRow (sub : UserSubscription) (r : us_row) : option us_row :=
  match numeric_of (sub_DailyUsageUSD sub), numeric_of (sub_WeeklyUsageUSD sub),
        numeric_of (sub_MonthlyUsageUSD sub) with
  | Some d, Some w, Some m =>
    Some (r <| us_UserID := sub_UserID sub |> <| us_GroupID := sub_GroupID sub |>
            <| us_StartsAt := stored (sub_StartsAt sub) |>
            <| us_ExpiresAt := stored (sub_ExpiresAt sub) |>
            <| us_Status := sub_Status sub |>
            <| us_DailyWindowStart := orKeep (sub_DailyWindowStart sub) (us_DailyWindowStart r) |>
            <| us_WeeklyWindowStart := orKeep (sub_WeeklyWindowStart sub) (us_WeeklyWindowStart r) |>
            <| us_MonthlyWindowStart := orKeep (sub_MonthlyWindowStart sub) (us_MonthlyWindowStart r) |>
            <| us_DailyUsageUsd := d |> <| us_WeeklyUsageUsd := w |> <| us_MonthlyUsageUsd := m |>
            <| us_AssignedBy := match sub_AssignedBy sub with Some a => Some a | None => us_AssignedBy r end |>
            <| us_AssignedAt := stored (sub_AssignedAt sub) |>
            <| us_Notes := Some (sub_Notes sub) |>
            <| us_UpdatedAt := stored now |>)
  | _, _, _ => None
  end.

Definition updateStmt (sub : UserSubscription) (db : sdb) : (sub_error + unit) * sdb :=
  match sd_subs db !! sub_ID sub with
  | None => (inl ErrSubscriptionNotFound, db)
  | Some r =>
    match updateRow sub r with
    | None => (inl ErrDatabase, db)
    | Some r' =>
      if negb (referenced db r') then (inl ErrDatabase, db)
      else if duplicate db r' then (inl ErrSubscriptionAlreadyExists, db)
      else (inr tt, set_subs db (<[ sub_ID sub := r' ]>))
    end
  end.

Definition restoreStmt (id : Z) (status : string) (db : sdb) : (sub_error + unit) * sdb :=
  match sd_subs db !! id with
  | None => (inl ErrSubscriptionNotFound, db)
  | Some r =>
    let r' := r <| us_Status := status |> <| us_DeletedAt := None |> <| us_UpdatedAt := stored now |> in
    if duplicate db r' then (inl ErrSubscriptionRestoreConflict, db)
    else (inr tt, set_subs db (<[ id := r' ]>))
  end.

(** [SET daily_usage_usd = daily_usage_usd + $1, ...]. *)
Definition addUsage (cost : numeric) (r : us_row) : us_row :=
  r <| us_DailyUsageUsd := us_DailyUsageUsd r + cost |>
    <| us_WeeklyUsageUsd := us_WeeklyUsageUsd r + cost |>
    <| us_MonthlyUsageUsd := us_MonthlyUsageUsd r + cost |>
    <| us_UpdatedAt := stored now |>.

Definition incrementStmt (id : Z) (costUSD : float64) (db : sdb) : (sub_error + Z) * sdb :=
  match numeric_of costUSD with
  | None => (inl ErrDatabase, db)
  | Some cost =>
    match sd_subs db !! id with
    | None => (inr 0, db)
    | Some r =>
      if negb (live r) || bool_decide (liveGroup db (us_GroupID r) = None) then (inr 0, db)
      else
        let r' := addUsage cost r in
        if fits_numeric (us_DailyUsageUsd r') && fits_numeric (us_WeeklyUsageUsd r')
           && fits_numeric (us_MonthlyUsageUsd r')
        then (inr 1, set_subs db (<[ id := r' ]>)) else (inl ErrDatabase, db)
    end
  end.

Definition expiredNow (r : us_row) : bool :=
  (us_Status r =s SubscriptionStatusActive) && (us_ExpiresAt r <=? stored now).

Definition batchExpireStmt (db : sdb) : Z * sdb :=
  (Z.of_nat (length (rowsWhere db expiredNow)),
   set_subs db (fmap (fun r => if expiredNow r
                               then r <| us_Status := SubscriptionStatusExpired |> <| us_UpdatedAt := stored now |>
                               else r))).

Definition resetWindows (resetDaily resetWeekly resetMonthly : bool) (start : Z) (r : us_row) : us_row :=
  let r := if resetDaily then restartWindow subscriptionWindowDaily start r else r in
  let r := if resetWeekly then restartWindow subscriptionWindowWeekly start r else r in
  if resetMonthly then restartWindow subscriptionWindowMonthly start r else r.

Definition activateWindows (start : Z) (r : us_row) : us_row :=
  r <| us_DailyWindowStart := Some start |> <| us_WeeklyWindowStart := Some start |>
    <| us_MonthlyWindowStart := Some start |>.

Definition notActivated (r : us_row) : bool :=
  bool_decide (us_DailyWindowStart r = None) && bool_decide (us_WeeklyWindowStart r = None)
  && bool_decide (us_MonthlyWindowStart r = None).

(** The row a query by ID answers with. *)
Definition liveRow (db : sdb) (id : Z) : option us_row :=
  match sd_subs db !! id with Some r => if live r then Some r else None | None => None end.

Definition byID (loadGroup : bool) (db : sdb) (id : Z) : sub_error + UserSubscription :=
  match liveRow db id with
  | Some r => inr (userSubscriptionEntityToService loadGroup db r)
  | None => inl ErrSubscriptionNotFound
  end.

Definition run_stmt {R : Type} (s : stmt R) (db : sdb) : R * sdb :=
  match s in stmt R return R * sdb with
  | GroupGetByID id =>
    (match liveGroup db id with Some g => inr g | None => inl ErrGroupNotFound end, db)
  | GetByID id => (byID true db id, db)
  | GetByIDForUpdate id => (byID false db id, db)
  | GetByIDIncludeDeleted id =>
    (match sd_subs db !! id with
     | Some r => inr (userSubscriptionEntityToServicePreserveStatus true db r)
     | None => inl ErrSubscriptionNotFound
     end, db)
  | GetByUserIDAndGroupID userID groupID =>
    (only true db (rowsWhere db (ownedBy userID groupID)), db)
  | GetActiveByUserIDAndGroupID userID groupID =>
    (only true db (rowsWhere db (fun r => ownedBy userID groupID r && activeNow r)), db)
  | ListByUserID userID =>
    (map (userSubscriptionEntityToService true db)
       (newestFirst (rowsWhere db (fun r => live r && (us_UserID r =? userID)))), db)
  | ListActiveByUserID userID =>
    (map (userSubscriptionEntityToService true db)
       (newestFirst (rowsWhere db (fun r => live r && (us_UserID r =? userID) && activeNow r))), db)
  | ExistsByUserIDAndGroupID userID groupID =>
    (existsb (ownedBy userID groupID) (map snd (map_to_list (sd_subs db))), db)
  | ExistsByID id => (bool_decide (liveRow db id <> None), db)
  | Create sub => createStmt sub db
  | Update sub => updateStmt sub db
  | ExtendExpiry id t => updateOneID id (fun r => r <| us_ExpiresAt := stored t |>) db
  | UpdateStatus id status => updateOneID id (fun r => r <| us_Status := status |>) db
  | UpdateNotes id notes => updateOneID id (fun r => r <| us_Notes := Some notes |>) db
  | Delete id =>
    (tt, (updateWhere id live (fun r => r <| us_DeletedAt := Some (stored now) |>) db).2)
  | RestoreUpdate id status => restoreStmt id status db
  | ActivateWindowsUpdate id start => updateWhere id notActivated (activateWindows (stored start)) db
  | ResetUsageIfCurrentUpdate w id expected start =>
    updateWhere id (fun r => bool_decide (windowStart w r = option_map stored expected))
      (restartWindow w (stored start)) db
  | ResetUsageWindows id d w m start => updateOneID id (resetWindows d w m (stored start)) db
  | IncrementUsageUpdate id costUSD => incrementStmt id costUSD db
  | BatchUpdateExpiredStatus => batchExpireStmt db
  end.
End Statements.

(** ** Service methods as programs *)

Inductive call : Type -> Type :=
  | Now : call Z
  | Begin : call unit
  | Commit : call unit
  | Rollback : call unit
  | Sql {R : Type} (s : stmt R) : call R
  | CacheGet (userID groupID : Z) : call (option UserSubscription)
  | CacheSet (userID groupID : Z) (sub : UserSubscription) : call unit
  | CacheDel (userID groupID : Z) : call unit
  | InvalidateBilling (userID groupID : Z) : call unit.

Notation prog := (Programs.prog call).
Notation outcome A := (sub_error + A)%type.

(** [if err != nil { return err }]. *)
Definition try {A B : Type} (p : prog (outcome A)) (f : A -> prog (outcome B)) : prog (outcome B) :=
  let! r := p in match r with inl e => Ret (inl e) | inr a => f a end.

Notation "'let?' r := p 'in' q" := (try p (fun r => q))
  (at level 200, r name, p at level 100, q at level 200, right associativity) : prog_scope.

Definition currentTime {A : Type} (f : Z -> prog A) : prog A :=
  let* t := Now in f (default 0 t).

(** A statement whose own result is no error, and one whose result may be one. *)
Definition query {R : Type} (s : stmt R) : prog (outcome R) :=
  let* r := Sql s in Ret (match r with Some a => inr a | None => inl ErrDatabase end).
Definition exec {R : Type} (s : stmt (outcome R)) : prog (outcome R) :=
  let* r := Sql s in Ret (match r with Some a => a | None => inl ErrDatabase end).

(** *** Repository methods of more than one statement *)

Definition translateConditionalWindowReset (id : Z) (affected : outcome Z) : prog (outcome unit) :=
  match affected with
  | inl e => Ret (inl e)
  | inr n =>
    if 0 <? n then Ret (inr tt)
    else
      let? exists_ := query (ExistsByID id) in
      Ret (if exists_ then inr tt else inl ErrSubscriptionNotFound)
  end.

Definition ActivateWindows (id start : Z) : prog (outcome unit) :=
  let! n := query (ActivateWindowsUpdate id start) in translateConditionalWindowReset id n.

Definition resetUsageIfCurrent (w : subscriptionWindow) (id : Z) (expected : option Z) (newWindowStart : Z)
    : prog (outcome unit) :=
  let! n := query (ResetUsageIfCurrentUpdate w id expected newWindowStart) in
  translateConditionalWindowReset id n.

Definition ResetDailyUsageIfCurrent := resetUsageIfCurrent subscriptionWindowDaily.
Definition ResetWeeklyUsageIfCurrent := resetUsageIfCurrent subscriptionWindowWeekly.
Definition ResetMonthlyUsageIfCurrent := resetUsageIfCurrent subscriptionWindowMonthly.

Definition IncrementUsage (id : Z) (costUSD : float64) : prog (outcome unit) :=
  let? affected := exec (IncrementUsageUpdate id costUSD) in
  Ret (if 0 <? affected then inr tt else inl ErrSubscriptionNotFound).

Definition Restore (id : Z) (restoredStatus : string) : prog (outcome UserSubscription) :=
  let? _u := exec (RestoreUpdate id restoredStatus) in
  exec (GetByID id).

(** *** Assignment and renewal *)

Record AssignSubscriptionInput := MkAssign {
  in_UserID : Z;
  in_GroupID : Z;
  in_ValidityDays : Z;
  in_AssignedBy : Z;
  in_Notes : string
}.

Definition normalizeAssignValidityDays (days : Z) : Z :=
  let days := if days <=? 0 then 30 else days in
  if MaxValidityDays <? days then MaxValidityDays else days.

Definition appendSubscriptionNotes (existingNotes newNotes : string) : string :=
  if newNotes =s "" then existingNotes
  else if existingNotes =s "" then newNotes
  else existingNotes +:+ String (Ascii.ascii_of_nat 10) newNotes.

Definition renewedSubscriptionTerm (existingSub : UserSubscription) (notes : string)
    (startsAt expiresAt : Z) : UserSubscription :=
  existingSub <| sub_StartsAt := startsAt |> <| sub_ExpiresAt := expiresAt |>
    <| sub_Status := SubscriptionStatusActive |>
    <| sub_DailyWindowStart := Some startsAt |>
    <| sub_WeeklyWindowStart := Some startsAt |>
    <| sub_MonthlyWindowStart := Some startsAt |>
    <| sub_DailyUsageUSD := fzero |> <| sub_WeeklyUsageUSD := fzero |> <| sub_MonthlyUsageUSD := fzero |>
    <| sub_Notes := appendSubscriptionNotes (sub_Notes existingSub) notes |>.

Definition capExpiry (t : Z) : Z := if MaxExpiresAt <? t then MaxExpiresAt else t.

(** Called outside a transaction; inside one, the caller's is used. *)
Definition withSubscriptionUpdateTx {A : Type} (fn : prog (outcome A)) : prog (outcome A) :=
  let* begun := Begin in
  match begun with
  | None => Ret (inl ErrDatabase)
  | Some _ =>
    let! r := fn in
    match r with
    | inl e => Rollback ;* Ret (inl e)
    | inr a =>
      let* committed := Commit in
      Ret (match committed with Some _ => inr a | None => inl ErrDatabase end)
    end
  end.

(** [InvalidateSubCache], then the billing cache (in the background or at once). *)
Definition invalidate (userID groupID : Z) : prog unit :=
  CacheDel userID groupID ;* InvalidateBilling userID groupID ;* Ret tt.

Section Service.
Context (local : Location).

(** The body of the transaction of [updateExistingSubscriptionTerm]; the repository locks the
    row ([GetByIDForUpdate]). *)
Definition renewInTx (subscriptionID validityDays : Z) (notes : string) : prog (outcome unit) :=
  let? existingSub := exec (GetByIDForUpdate subscriptionID) in
  currentTime (fun now =>
  let isExpired := negb (now <? sub_ExpiresAt existingSub) in
  let newExpiresAt :=
    if isExpired then AddDate local now validityDays
    else AddDate local (sub_ExpiresAt existingSub) validityDays in
  let newExpiresAt := capExpiry newExpiresAt in
  if isExpired then
    exec (Update (renewedSubscriptionTerm existingSub notes now newExpiresAt))
  else
    let? _e := exec (ExtendExpiry (sub_ID existingSub) newExpiresAt) in
    let? _s :=
      (if negb (sub_Status existingSub =s SubscriptionStatusActive)
       then exec (UpdateStatus (sub_ID existingSub) SubscriptionStatusActive) else Ret (inr tt)) in
    if negb (notes =s "")
    then exec (UpdateNotes (sub_ID existingSub) (appendSubscriptionNotes (sub_Notes existingSub) notes))
    else Ret (inr tt)).

Definition updateExistingSubscriptionTerm (subscriptionID validityDays : Z) (notes : string)
    : prog (outcome unit) :=
  withSubscriptionUpdateTx (renewInTx subscriptionID validityDays notes).

Definition newSubscription (input : AssignSubscriptionInput) (now : Z) : UserSubscription :=
  let expiresAt := capExpiry (AddDate local now (normalizeAssignValidityDays (in_ValidityDays input))) in
  emptySubscription <| sub_UserID := in_UserID input |> <| sub_GroupID := in_GroupID input |>
    <| sub_StartsAt := now |> <| sub_ExpiresAt := expiresAt |>
    <| sub_Status := SubscriptionStatusActive |> <| sub_AssignedAt := now |>
    <| sub_Notes := in_Notes input |> <| sub_CreatedAt := now |> <| sub_UpdatedAt := now |>
    <| sub_AssignedBy := if 0 <? in_AssignedBy input then Some (in_AssignedBy input) else None |>.

Definition createSubscription (input : AssignSubscriptionInput) : prog (outcome UserSubscription) :=
  currentTime (fun now =>
  let? sub := exec (Create (newSubscription input now)) in
  exec (GetByID (sub_ID sub))).

Definition AssignOrExtendSubscription (input : AssignSubscriptionInput)
    : prog (outcome (UserSubscription * bool)) :=
  let? group := exec (GroupGetByID (in_GroupID input)) in
  if negb (IsSubscriptionType group) then Ret (inl ErrGroupNotSubscriptionType)
  else
    let! existing := exec (GetByUserIDAndGroupID (in_UserID input) (in_GroupID input)) in
    let validityDays := normalizeAssignValidityDays (in_ValidityDays input) in
    match existing with
    | inr existingSub =>
      let? _t := updateExistingSubscriptionTerm (sub_ID existingSub) validityDays (in_Notes input) in
      let! _c := invalidate (in_UserID input) (in_GroupID input) in
      let? sub := exec (GetByID (sub_ID existingSub)) in
      Ret (inr (sub, true))
    | inl ErrSubscriptionNotFound =>
      let? sub := createSubscription input in
      let! _c := invalidate (in_UserID input) (in_GroupID input) in
      Ret (inr (sub, false))
    | inl e => Ret (inl e)
    end.

Definition detectAssignSemanticConflict (existing : UserSubscription) (input : AssignSubscriptionInput)
    : option string :=
  let normalizedDays := normalizeAssignValidityDays (in_ValidityDays input) in
  if negb (IsZero (sub_StartsAt existing))
     && negb (sub_ExpiresAt existing =? capExpiry (AddDate local (sub_StartsAt existing) normalizedDays))
  then Some "validity_days_mismatch"
  else if negb (TrimSpace (sub_Notes existing) =s TrimSpace (in_Notes input))
  then Some "notes_mismatch" else None.

Definition assignSubscriptionWithReuse (input : AssignSubscriptionInput)
    : prog (outcome (UserSubscription * bool)) :=
  let? group := exec (GroupGetByID (in_GroupID input)) in
  if negb (IsSubscriptionType group) then Ret (inl ErrGroupNotSubscriptionType)
  else
    let? exists_ := query (ExistsByUserIDAndGroupID (in_UserID input) (in_GroupID input)) in
    if exists_ then
      let? sub := exec (GetByUserIDAndGroupID (in_UserID input) (in_GroupID input)) in
      Ret (match detectAssignSemanticConflict sub input with
           | Some reason => inl (ErrSubscriptionAssignConflict reason)
           | None => inr (sub, true)
           end)
    else
      let? sub := createSubscription input in
      let! _c := invalidate (in_UserID input) (in_GroupID input) in
      Ret (inr (sub, false)).

Definition AssignSubscription (input : AssignSubscriptionInput) : prog (outcome UserSubscription) :=
  let? r := assignSubscriptionWithReuse input in Ret (inr r.1).

Record BulkAssignSubscriptionInput := MkBulkAssign {
  bulk_UserIDs : list Z;
  bulk_GroupID : Z;
  bulk_ValidityDays : Z;
  bulk_AssignedBy : Z;
  bulk_Notes : string
}.

Record BulkAssignResult := MkBulkResult {
  br_SuccessCount : Z;
  br_CreatedCount : Z;
  br_ReusedCount : Z;
  br_FailedCount : Z;
  br_Subscriptions : list UserSubscription;
  br_Errors : list (Z * sub_error);
  br_Statuses : gmap Z string
}.

#[export] Instance eta_BulkAssignResult : Eta BulkAssignResult := fun r =>
  MkBulkResult (br_SuccessCount r) (br_CreatedCount r) (br_ReusedCount r) (br_FailedCount r)
    (br_Subscriptions r) (br_Errors r) (br_Statuses r).

Definition bulkAccount (userID : Z) (r : outcome (UserSubscription * bool)) (result : BulkAssignResult)
    : BulkAssignResult :=
  match r with
  | inl e =>
    result <| br_FailedCount := br_FailedCount result + 1 |>
      <| br_Errors := br_Errors result ++ [(userID, e)] |>
      <| br_Statuses := <[ userID := "failed" ]> (br_Statuses result) |>
  | inr (sub, reused) =>
    let result := result <| br_SuccessCount := br_SuccessCount result + 1 |>
                    <| br_Subscriptions := br_Subscriptions result ++ [sub] |> in
    if (reused : bool) then
      result <| br_ReusedCount := br_ReusedCount result + 1 |>
        <| br_Statuses := <[ userID := "reused" ]> (br_Statuses result) |>
    else
      result <| br_CreatedCount := br_CreatedCount result + 1 |>
        <| br_Statuses := <[ userID := "created" ]> (br_Statuses result) |>
  end.

Fixpoint bulkAssignLoop (input : BulkAssignSubscriptionInput) (userIDs : list Z) (result : BulkAssignResult)
    : prog BulkAssignResult :=
  match userIDs with
  | [] => Ret result
  | userID :: rest =>
    let! r := assignSubscriptionWithReuse
                (MkAssign userID (bulk_GroupID input) (bulk_ValidityDays input) (bulk_AssignedBy input)
                   (bulk_Notes input)) in
    bulkAssignLoop input rest (bulkAccount userID r result)
  end.

Definition BulkAssignSubscription (input : BulkAssignSubscriptionInput) : prog BulkAssignResult :=
  bulkAssignLoop input (bulk_UserIDs input) (MkBulkResult 0 0 0 0 [] [] ∅).

(** *** Revocation and adjustment *)

Definition RevokeSubscription (subscriptionID : Z) : prog (outcome unit) :=
  let? sub := exec (GetByID subscriptionID) in
  let? _d := query (Delete subscriptionID) in
  let! _c := invalidate (sub_UserID sub) (sub_GroupID sub) in
  Ret (inr tt).

Definition RestoreSubscription (subscriptionID : Z) : prog (outcome UserSubscription) :=
  let? sub := exec (GetByIDIncludeDeleted subscriptionID) in
  if bool_decide (sub_DeletedAt sub = None) then Ret (inl ErrSubscriptionNotRevoked)
  else
    let? exists_ := query (ExistsByUserIDAndGroupID (sub_UserID sub) (sub_GroupID sub)) in
    if exists_ then Ret (inl ErrSubscriptionRestoreConflict)
    else
      currentTime (fun now =>
      let restoredStatus :=
        if (sub_Status sub =s SubscriptionStatusActive) && negb (now <? sub_ExpiresAt sub)
        then SubscriptionStatusExpired else sub_Status sub in
      let? restored := Restore subscriptionID restoredStatus in
      let! _c := invalidate (sub_UserID restored) (sub_GroupID restored) in
      Ret (inr restored)).

Definition clampDays (days : Z) : Z :=
  let days := if MaxValidityDays <? days then MaxValidityDays else days in
  if days <? - MaxValidityDays then - MaxValidityDays else days.

Definition extendInTx (subscriptionID days : Z) : prog (outcome UserSubscription) :=
  let? sub := exec (GetByIDForUpdate subscriptionID) in
  let days := clampDays days in
  currentTime (fun now =>
  let isExpired := negb (now <? sub_ExpiresAt sub) in
  if isExpired && (days <? 0) then Ret (inl ErrCannotShortenExpired)
  else
    let newExpiresAt :=
      if isExpired then AddDate local now days else AddDate local (sub_ExpiresAt sub) days in
    let newExpiresAt := capExpiry newExpiresAt in
    if negb (now <? newExpiresAt) then Ret (inl ErrAdjustWouldExpire)
    else
      let? _e := exec (ExtendExpiry subscriptionID newExpiresAt) in
      let? _s :=
        (if sub_Status sub =s SubscriptionStatusExpired
         then exec (UpdateStatus subscriptionID SubscriptionStatusActive) else Ret (inr tt)) in
      exec (GetByID subscriptionID)).

Definition ExtendSubscription (subscriptionID days : Z) : prog (outcome UserSubscription) :=
  let? sub := withSubscriptionUpdateTx (extendInTx subscriptionID days) in
  let! _c := invalidate (sub_UserID sub) (sub_GroupID sub) in
  Ret (inr sub).

(** The repository resets the windows that are asked for in one statement. *)
Definition AdminResetQuota (subscriptionID : Z) (resetDaily resetWeekly resetMonthly : bool)
    : prog (outcome UserSubscription) :=
  if negb resetDaily && negb resetWeekly && negb resetMonthly then Ret (inl ErrInvalidInput)
  else
    let? sub := exec (GetByID subscriptionID) in
    currentTime (fun windowStart =>
    let? _r := exec (ResetUsageWindows (sub_ID sub) resetDaily resetWeekly resetMonthly windowStart) in
    let! _c := invalidate (sub_UserID sub) (sub_GroupID sub) in
    exec (GetByID subscriptionID)).

(** *** Windows and limits *)

Definition checkAndActivateWindowAt (sub : UserSubscription) (now : Z) : prog (outcome unit) :=
  if IsWindowActivated sub then Ret (inr tt) else ActivateWindows (sub_ID sub) now.

Definition CheckAndActivateWindow (sub : UserSubscription) : prog (outcome unit) :=
  currentTime (fun now => checkAndActivateWindowAt sub now).

(** The repository has the conditional resets; the unconditional ones are for other adapters. *)
Definition resetSubscriptionWindow (window : subscriptionWindow) (id : Z) (expected : option Z) (next : Z)
    : prog (outcome unit) :=
  match window with
  | subscriptionWindowDaily => ResetDailyUsageIfCurrent id expected next
  | subscriptionWindowWeekly => ResetWeeklyUsageIfCurrent id expected next
  | subscriptionWindowMonthly => ResetMonthlyUsageIfCurrent id expected next
  end.

(** The window of a subscription in memory, restarted. *)
Definition restarted (window : subscriptionWindow) (start : Z) (sub : UserSubscription) : UserSubscription :=
  match window with
  | subscriptionWindowDaily =>
    sub <| sub_DailyWindowStart := Some start |> <| sub_DailyUsageUSD := fzero |>
  | subscriptionWindowWeekly =>
    sub <| sub_WeeklyWindowStart := Some start |> <| sub_WeeklyUsageUSD := fzero |>
  | subscriptionWindowMonthly =>
    sub <| sub_MonthlyWindowStart := Some start |> <| sub_MonthlyUsageUSD := fzero |>
  end.

(** One of the three blocks of [CheckAndResetWindows]; the flag is [needsInvalidateCache]. *)
Definition resetIfDue (window : subscriptionWindow) (expected next : option Z)
    (sub : UserSubscription) (needsInvalidateCache : bool) : prog (outcome (UserSubscription * bool)) :=
  match next with
  | None => Ret (inr (sub, needsInvalidateCache))
  | Some start =>
    let? _r := resetSubscriptionWindow window (sub_ID sub) expected start in
    Ret (inr (restarted window start sub, true))
  end.

Definition CheckAndResetWindows (sub : UserSubscription) : prog (outcome UserSubscription) :=
  currentTime (fun now =>
  let daily := automaticDailyWindowStartAt local sub (sub_DailyWindowStart sub) now in
  let? d := resetIfDue subscriptionWindowDaily (sub_DailyWindowStart sub)
              (if HasOneTimeDailyQuota local sub then None else daily) sub false in
  let? w := resetIfDue subscriptionWindowWeekly (sub_WeeklyWindowStart d.1)
              (automaticWindowStartAt local d.1 (sub_WeeklyWindowStart d.1) Week now) d.1 d.2 in
  let? m := resetIfDue subscriptionWindowMonthly (sub_MonthlyWindowStart w.1)
              (automaticWindowStartAt local w.1 (sub_MonthlyWindowStart w.1) Month now) w.1 w.2 in
  if (m.2 : bool) then
    let! _c := invalidate (sub_UserID sub) (sub_GroupID sub) in Ret (inr m.1)
  else Ret (inr m.1)).

Definition CheckUsageLimits (sub : UserSubscription) (group : Group) (additionalCost : float64)
    : option sub_error :=
  if negb (CheckDailyLimit sub group additionalCost) then Some ErrDailyLimitExceeded
  else if negb (CheckWeeklyLimit sub group additionalCost) then Some ErrWeeklyLimitExceeded
  else if negb (CheckMonthlyLimit sub group additionalCost) then Some ErrMonthlyLimitExceeded
  else None.

(** The subscription is changed in memory: usage of windows that are over counts as zero. *)
Definition correctUsage (sub : UserSubscription) (now : Z) : UserSubscription :=
  let sub := if canAutomaticallyResetDailyAt local sub now then sub <| sub_DailyUsageUSD := fzero |> else sub in
  let sub := if canAutomaticallyResetWeeklyAt local sub now then sub <| sub_WeeklyUsageUSD := fzero |> else sub in
  if canAutomaticallyResetMonthlyAt local sub now then sub <| sub_MonthlyUsageUSD := fzero |> else sub.

Definition ValidateAndCheckLimits (sub : UserSubscription) (group : Group) (now : Z)
    : bool * option sub_error * UserSubscription :=
  if sub_Status sub =s SubscriptionStatusExpired then (false, Some ErrSubscriptionExpired, sub)
  else if sub_Status sub =s SubscriptionStatusSuspended then (false, Some ErrSubscriptionSuspended, sub)
  else if negb (now <? sub_ExpiresAt sub) then (false, Some ErrSubscriptionExpired, sub)
  else
    let needsMaintenance :=
      canAutomaticallyResetDailyAt local sub now || canAutomaticallyResetWeeklyAt local sub now
      || canAutomaticallyResetMonthlyAt local sub now || negb (IsWindowActivated sub) in
    let sub := correctUsage sub now in
    (needsMaintenance, CheckUsageLimits sub group fzero, sub).

Definition doWindowMaintenance (sub : UserSubscription) : prog unit :=
  let! _a := (if negb (IsWindowActivated sub) then CheckAndActivateWindow sub else Ret (inr tt)) in
  let! _r := CheckAndResetWindows sub in
  CacheDel (sub_UserID sub) (sub_GroupID sub) ;* Ret tt.

Definition RecordUsage (subscriptionID : Z) (costUSD : float64) : prog (outcome unit) :=
  IncrementUsage subscriptionID costUSD.

Definition GetActiveSubscription (userID groupID : Z) : prog (outcome UserSubscription) :=
  let* hit := CacheGet userID groupID in
  match default None hit with
  | Some sub => Ret (inr sub)
  | None =>
    let? sub := exec (GetActiveByUserIDAndGroupID userID groupID) in
    CacheSet userID groupID sub ;* Ret (inr sub)
  end.

(** The part of [apiKeyAuthWithSubscription] that admits a request against a subscription:
    limits are checked in memory, windows are maintained afterwards. *)
Definition authorizeSubscription (userID groupID : Z) (group : Group) : prog (outcome UserSubscription) :=
  let? subscription := GetActiveSubscription userID groupID in
  currentTime (fun now =>
  let '(needsMaintenance, validateErr, subscription) := ValidateAndCheckLimits subscription group now in
  match validateErr with
  | Some e => Ret (inl e)
  | None =>
    if (needsMaintenance : bool) then
      let! _m := doWindowMaintenance subscription in Ret (inr subscription)
    else Ret (inr subscription)
  end).

Definition ValidateSubscription (sub : UserSubscription) : prog (outcome unit) :=
  if sub_Status sub =s SubscriptionStatusExpired then Ret (inl ErrSubscriptionExpired)
  else if sub_Status sub =s SubscriptionStatusSuspended then Ret (inl ErrSubscriptionSuspended)
  else
    currentTime (fun now =>
    if IsExpired sub now then
      let! _u := exec (UpdateStatus (sub_ID sub) SubscriptionStatusExpired) in
      Ret (inl ErrSubscriptionExpired)
    else Ret (inr tt)).

(** The sweep of [SubscriptionExpiryService.runOnce], without its reminders. *)
Definition runOnce : prog unit :=
  let! _n := query BatchUpdateExpiredStatus in Ret tt.

(** *** What clients are shown *)

Definition normalizeExpiredWindow (now : Z) (sub : UserSubscription) : UserSubscription :=
  let sub := if canAutomaticallyResetDailyAt local sub now
             then sub <| sub_DailyWindowStart := None |> <| sub_DailyUsageUSD := fzero |> else sub in
  let sub := if canAutomaticallyResetWeeklyAt local sub now
             then sub <| sub_WeeklyWindowStart := None |> <| sub_WeeklyUsageUSD := fzero |> else sub in
  if canAutomaticallyResetMonthlyAt local sub now
  then sub <| sub_MonthlyWindowStart := None |> <| sub_MonthlyUsageUSD := fzero |> else sub.

Definition normalizeExpiredWindowsAt (subs : list UserSubscription) (now : Z) : list UserSubscription :=
  map (normalizeExpiredWindow now) subs.

Definition normalizeSubscriptionStatus (subs : list UserSubscription) (now : Z) : list UserSubscription :=
  map (fun sub => if (sub_Status sub =s SubscriptionStatusActive) && negb (now <? sub_ExpiresAt sub)
                  then sub <| sub_Status := SubscriptionStatusExpired |> else sub) subs.

Definition ListUserSubscriptions (userID : Z) : prog (outcome (list UserSubscription)) :=
  let? subs := query (ListByUserID userID) in
  currentTime (fun now =>
  let subs := normalizeExpiredWindowsAt subs now in
  currentTime (fun now => Ret (inr (normalizeSubscriptionStatus subs now)))).

Definition ListActiveUserSubscriptions (userID : Z) : prog (outcome (list UserSubscription)) :=
  let? subs := query (ListActiveByUserID userID) in
  currentTime (fun now => Ret (inr (normalizeExpiredWindowsAt subs now))).

Record UsageWindowProgress := MkWindowProgress {
  wp_LimitUSD : float64;
  wp_UsedUSD : float64;
  wp_RemainingUSD : float64;
  wp_Percentage : float64;
  wp_WindowStart : Z;
  wp_ResetsAt : Z;
  wp_ResetsInSeconds : Z
}.

Record SubscriptionProgress := MkProgress {
  sp_ID : Z;
  sp_GroupName : string;
  sp_ExpiresAt : Z;
  sp_ExpiresInDays : Z;
  sp_Daily : option UsageWindowProgress;
  sp_Weekly : option UsageWindowProgress;
  sp_Monthly : option UsageWindowProgress
}.

(** [int64(d.Seconds())]. *)
Definition wholeSeconds (d : Z) : Z :=
  float_to_int (fadd (float_of_Z (Z.quot d Second)) (fdiv (float_of_Z (Z.rem d Second)) (float_of_Z Second))).

(** One of the three blocks of [calculateProgress]. *)
Definition windowProgress (limit : option float64) (start : option Z) (used : float64)
    (resetsAt : Z -> Z) (now : Z) : option UsageWindowProgress :=
  match limit, start with
  | Some l, Some start =>
    if hasLimit limit then
      let remaining := fsub l used in
      let percentage := fmul (fdiv used l) (float_of_Z 100) in
      let resetsIn := wholeSeconds (Sub (resetsAt start) now) in
      Some {| wp_LimitUSD := l;
              wp_UsedUSD := used;
              wp_RemainingUSD := if flt remaining fzero then fzero else remaining;
              wp_Percentage := if flt (float_of_Z 100) percentage then float_of_Z 100 else percentage;
              wp_WindowStart := start;
              wp_ResetsAt := resetsAt start;
              wp_ResetsInSeconds := if resetsIn <? 0 then 0 else resetsIn |}
    else None
  | _, _ => None
  end.

Definition calculateProgress (sub : UserSubscription) (group : Group) (now : Z) : SubscriptionProgress :=
  {| sp_ID := sub_ID sub;
     sp_GroupName := g_Name group;
     sp_ExpiresAt := sub_ExpiresAt sub;
     sp_ExpiresInDays := daysRemainingAt sub now;
     sp_Daily := windowProgress (g_DailyLimitUSD group) (sub_DailyWindowStart sub) (sub_DailyUsageUSD sub)
                   (fun start => default (start + 24 * Hour) (DailyResetTime local sub)) now;
     sp_Weekly := windowProgress (g_WeeklyLimitUSD group) (sub_WeeklyWindowStart sub) (sub_WeeklyUsageUSD sub)
                    (fun start => start + Week) now;
     sp_Monthly := windowProgress (g_MonthlyLimitUSD group) (sub_MonthlyWindowStart sub) (sub_MonthlyUsageUSD sub)
                     (fun start => start + Month) now |}.

Definition GetSubscriptionProgress (subscriptionID : Z) : prog (outcome SubscriptionProgress) :=
  let! found := exec (GetByID subscriptionID) in
  match found with
  | inl _ => Ret (inl ErrSubscriptionNotFound)
  | inr sub =>
    let? group := (match sub_Group sub with
                   | Some g => Ret (inr g)
                   | None => exec (GroupGetByID (sub_GroupID sub))
                   end) in
    currentTime (fun now => Ret (inr (calculateProgress sub group now)))
  end.

Definition GetUserSubscriptionsWithProgress (userID : Z) : prog (outcome (list SubscriptionProgress)) :=
  let? subs := query (ListActiveByUserID userID) in
  currentTime (fun now =>
  Ret (inr (omap (fun sub => option_map (fun g => calculateProgress sub g now) (sub_Group sub)) subs))).
End Service.
