(* ===== verification/SubscriptionsMachine.v ===== *)
(** * Subscription handlers at the same time

    Handlers run as threads, one call at a time.  A transaction keeps the rows it has
    written or selected for update with their uncommitted versions; other threads see the
    committed rows and wait before they write or lock such a row, as under PostgreSQL's
    read committed isolation.  A thread without a transaction commits each statement.
    Threads can lose requests and replies and can stop at any point, entries of the cache
    disappear at any time, and the clock does not go back.

    [wp] is the logic for threads: what a thread may rely on between its own calls is
    that its transaction and the committed versions of the rows it has locked stay as they
    are. *)

From S2P Require Import Prelude GoStrings GoFloat GoTime Programs Subscriptions.

#[local] Open Scope Z_scope.

Inductive sub_request :=
  | ReqAssign (input : AssignSubscriptionInput)
  | ReqAssignOrExtend (input : AssignSubscriptionInput)
  | ReqBulkAssign (input : BulkAssignSubscriptionInput)
  | ReqRevoke (id : Z)
  | ReqRestore (id : Z)
  | ReqExtend (id days : Z)
  | ReqAdminReset (id : Z) (resetDaily resetWeekly resetMonthly : bool)
  | ReqAuthorize (userID groupID : Z) (group : Group)
  | ReqRecordUsage (id : Z) (costUSD : float64)
  | ReqValidate (sub : UserSubscription)
  | ReqSweep.

(** A committed change of a row: who made it, what was replaced by what, and when. *)
Record commit := MkCommit {
  cm_request : sub_request;
  cm_id : Z;
  cm_old : option us_row;
  cm_new : us_row;
  cm_at : Z
}.

(** [sw_spent] and [sw_resets] count, for the theorems, what usage was recorded for a
    subscription and how often its quota was reset by hand or with a new term;
    [sw_commits] is the history of transactions. *)
Record sub_world := MkSubWorld {
  sw_clock : Z;
  sw_db : sdb;
  sw_cache : gmap (Z * Z) UserSubscription;
  sw_txs : gmap nat (gmap Z us_row);
  sw_threads : list (sub_request * prog unit);
  sw_spent : gmap Z Z;
  sw_resets : gmap Z Z;
  sw_commits : list commit
}.

#[export] Instance eta_sub_world : Eta sub_world := fun w =>
  MkSubWorld (sw_clock w) (sw_db w) (sw_cache w) (sw_txs w) (sw_threads w) (sw_spent w)
    (sw_resets w) (sw_commits w).

Notation rows w := (sd_subs (sw_db w)).

Section Machine.
Context `{Postgres} (local : Location).

Definition start (rq : sub_request) : prog unit :=
  match rq with
  | ReqAssign input => let! _r := AssignSubscription local input in Ret tt
  | ReqAssignOrExtend input => let! _r := AssignOrExtendSubscription local input in Ret tt
  | ReqBulkAssign input => let! _r := BulkAssignSubscription local input in Ret tt
  | ReqRevoke id => let! _r := RevokeSubscription id in Ret tt
  | ReqRestore id => let! _r := RestoreSubscription id in Ret tt
  | ReqExtend id days => let! _r := ExtendSubscription local id days in Ret tt
  | ReqAdminReset id d w m => let! _r := AdminResetQuota id d w m in Ret tt
  | ReqAuthorize u g group => let! _r := authorizeSubscription local u g group in Ret tt
  | ReqRecordUsage id cost => let! _r := RecordUsage id cost in Ret tt
  | ReqValidate sub => let! _r := ValidateSubscription sub in Ret tt
  | ReqSweep => runOnce
  end%prog.

(** ** Calls *)

(** The rows that a statement locks. *)
Definition locks (now : Z) {R : Type} (s : stmt R) (db : sdb) : gset Z :=
  match s with
  | GetByIDForUpdate id => if bool_decide (liveRow db id <> None) then {[ id ]} else ∅
  | Create _ => {[ sd_next db ]}
  | Update sub => {[ sub_ID sub ]}
  | ExtendExpiry id _ | UpdateStatus id _ | UpdateNotes id _ | Delete id | RestoreUpdate id _
  | ActivateWindowsUpdate id _ | ResetUsageIfCurrentUpdate _ id _ _ | ResetUsageWindows id _ _ _ _
  | IncrementUsageUpdate id _ => {[ id ]}
  | BatchUpdateExpiredStatus => dom (filter (fun e => expiredNow now e.2 = true) (sd_subs db))
  | _ => ∅
  end.

(** What thread [i] sees. *)
Definition view (i : nat) (w : sub_world) : sdb :=
  match sw_txs w !! i with
  | Some p => set_subs (sw_db w) (fun t => p ∪ t)
  | None => sw_db w
  end.

(** Some other thread has locked the row. *)
Definition locked (i : nat) (w : sub_world) (id : Z) : Prop :=
  exists j p, sw_txs w !! j = Some p /\ j <> i /\ is_Some (p !! id).

(** What the statement of a transaction leaves to be committed. *)
Definition pending (L : gset Z) (t p : gmap Z us_row) : gmap Z us_row :=
  filter (fun e => e.1 ∈ L) t ∪ p.

Definition after_stmt (i : nat) (L : gset Z) (db : sdb) (w : sub_world) : sub_world :=
  match sw_txs w !! i with
  | None => w <| sw_db := db |>
  | Some p =>
    w <| sw_txs := <[ i := pending L (sd_subs db) p ]> (sw_txs w) |>
      <| sw_db := sw_db w <| sd_next := sd_next db |> |>
  end.

Definition commitTx (i : nat) (w : sub_world) : sub_world :=
  match sw_txs w !! i with
  | None => w
  | Some p => w <| sw_db := set_subs (sw_db w) (fun t => p ∪ t) |> <| sw_txs := delete i (sw_txs w) |>
  end.

Definition rollbackTx (i : nat) (w : sub_world) : sub_world :=
  w <| sw_txs := delete i (sw_txs w) |>.

(** What a call of thread [i] answers and does. *)
Definition act (i : nat) {R : Type} (c : call R) (w : sub_world) : R * sub_world :=
  match c in call R return R * sub_world with
  | Now => (sw_clock w, w)
  | Begin => (tt, w <| sw_txs := <[ i := ∅ ]> (sw_txs w) |>)
  | Commit => (tt, commitTx i w)
  | Rollback => (tt, rollbackTx i w)
  | Sql s =>
    let r := run_stmt (sw_clock w) s (view i w) in
    (r.1, after_stmt i (locks (sw_clock w) s (view i w)) r.2 w)
  | CacheGet u g => (sw_cache w !! (u, g), w)
  | CacheSet u g sub => (tt, w <| sw_cache := <[ (u, g) := sub ]> (sw_cache w) |>)
  | CacheDel u g => (tt, w <| sw_cache := delete (u, g) (sw_cache w) |>)
  | InvalidateBilling _ _ => (tt, w)
  end.

(** A statement waits for the rows it locks. *)
Definition enabled (i : nat) {R : Type} (c : call R) (w : sub_world) : Prop :=
  match c with
  | Sql s => forall id, id ∈ locks (sw_clock w) s (view i w) -> ~ locked i w id
  | _ => True
  end.

(** Calls that can fail, and those that can have taken effect when they fail. *)
Definition fallible {R : Type} (c : call R) : bool :=
  match c with Begin | Commit | Sql _ => true | _ => false end.
Definition ambiguous {R : Type} (c : call R) : bool :=
  match c with Commit | Sql _ => true | _ => false end.

(** The answer of a call, whether it took effect, and what it leaves.  A transaction that
    could not be begun is not there, one whose commit was not received is rolled back. *)
Inductive answers (i : nat) {R : Type} (c : call R) (w : sub_world) : option R -> bool -> sub_world -> Prop :=
  | call_fine : enabled i c w -> answers i c w (Some (act i c w).1) true (act i c w).2
  | call_lost : fallible c = true ->
    answers i c w None false (match c with Commit => rollbackTx i w | _ => w end)
  | call_unanswered : ambiguous c = true -> enabled i c w -> answers i c w None true (act i c w).2.

(** ** Accounts kept for the theorems *)

Definition count (n : Z) (id : Z) (m : gmap Z Z) : gmap Z Z := <[ id := default 0 (m !! id) + n ]> m.

(** Usage that a statement records. *)
Definition spends {R : Type} (s : stmt R) (db : sdb) (now : Z) : option (Z * numeric) :=
  match s with
  | IncrementUsageUpdate id cost =>
    match (run_stmt now (IncrementUsageUpdate id cost) db).1, numeric_of cost with
    | inr 1, Some n => Some (id, n)
    | _, _ => None
    end
  | _ => None
  end.

(** Quotas that a statement of a thread without a transaction resets. *)
Definition resets {R : Type} (s : stmt R) : option Z :=
  match s with
  | ResetUsageWindows id _ _ _ _ => Some id
  | Update sub => Some (sub_ID sub)
  | _ => None
  end.

Definition quota (r : us_row) : list (option Z * numeric) :=
  [(us_DailyWindowStart r, us_DailyUsageUsd r); (us_WeeklyWindowStart r, us_WeeklyUsageUsd r);
   (us_MonthlyWindowStart r, us_MonthlyUsageUsd r)].

(** The rows of a transaction whose quota it changes. *)
Definition renewed (w : sub_world) (p : gmap Z us_row) : list Z :=
  map fst (List.filter (fun e => bool_decide (Some (quota e.2) <> option_map quota (rows w !! e.1)))
             (map_to_list p)).

Definition commits_of (rq : sub_request) (w : sub_world) (p : gmap Z us_row) : list commit :=
  map (fun e => MkCommit rq e.1 (rows w !! e.1) e.2 (sw_clock w)) (map_to_list p).

(** The accounts after call [c] of thread [i] in [w]; [done] is whether it took effect. *)
Definition book (i : nat) (rq : sub_request) {R : Type} (c : call R) (done : bool) (w w' : sub_world) : sub_world :=
  if negb done then w'
  else match c, sw_txs w !! i with
  | Commit, Some p =>
    w' <| sw_commits := sw_commits w ++ commits_of rq w p |>
       <| sw_resets := foldr (count 1) (sw_resets w) (renewed w p) |>
  | Sql s, None =>
    w' <| sw_spent := match spends s (sw_db w) (sw_clock w) with
                      | Some (id, n) => count n id (sw_spent w) | None => sw_spent w end |>
       <| sw_resets := match resets s with Some id => count 1 id (sw_resets w) | None => sw_resets w end |>
  | _, _ => w'
  end.

Definition continue_ (i : nat) (rq : sub_request) (p : prog unit) (w : sub_world) : sub_world :=
  w <| sw_threads := <[ i := (rq, p) ]> (sw_threads w) |>.

Inductive sub_step : sub_world -> sub_world -> Prop :=
  | step_tick w t : sw_clock w <= t -> sub_step w (w <| sw_clock := t |>)
  | step_start w rq : sub_step w (w <| sw_threads := sw_threads w ++ [(rq, start rq)] |>)
  | step_evict w u g : sub_step w (w <| sw_cache := delete (u, g) (sw_cache w) |>)
  | step_crash w i rq p :
    sw_threads w !! i = Some (rq, p) -> sub_step w (continue_ i rq (Ret tt) (rollbackTx i w))
  | step_call w i rq R (c : call R) k r done w' :
    sw_threads w !! i = Some (rq, Do c k) -> answers i c w r done w' ->
    sub_step w (continue_ i rq (k r) (book i rq c done w w')).

(** ** Tables in order *)

Notation whole t := (Microsecond | t) (only parsing).

Definition whole_opt (t : option Z) : Prop := forall x, t = Some x -> whole x.

Definition windows_whole (r : us_row) : Prop := forall win, whole_opt (windowStart win r).

Record row_ok (id : Z) (r : us_row) : Prop := MkRowOk {
  row_id : us_ID r = id;
  row_starts : whole (us_StartsAt r);
  row_expires : whole (us_ExpiresAt r);
  row_assigned : whole (us_AssignedAt r);
  row_windows : windows_whole r
}.

(** Every row is under its own identifier, which the sequence has already given out. *)
Definition table_ok (next : Z) (t : gmap Z us_row) : Prop :=
  map_Forall (fun id r => row_ok id r /\ id < next) t.

Notation db_ok db := (table_ok (sd_next db) (sd_subs db)).

Lemma table_ok_mono next next' t : next <= next' -> table_ok next t -> table_ok next' t.
Proof. intros L T id r E. destruct (T id r E). split; [done|lia]. Qed.

Lemma table_ok_insert next t id r : table_ok next t -> row_ok id r -> id < next -> table_ok next (<[ id := r ]> t).
Proof. intros T R L. by apply map_Forall_insert_2. Qed.

Lemma table_ok_union next t u : table_ok next t -> table_ok next u -> table_ok next (t ∪ u).
Proof. intros T U. by apply map_Forall_union_2. Qed.

Lemma stored_opt_whole t : whole_opt (option_map stored t).
Proof. intros x E. destruct t; simplify_eq/=. apply stored_whole. Qed.

Lemma restartWindow_ok id win t r : row_ok id r -> row_ok id (restartWindow win (stored t) r).
Proof.
  intros [I S E A W]. destruct win; (constructor; [done..|]); intros win' x X;
    destruct win'; cbn in X; simplify_eq; try apply stored_whole;
    first [by apply (W subscriptionWindowDaily)|by apply (W subscriptionWindowWeekly)
          |by apply (W subscriptionWindowMonthly)].
Qed.

Lemma row_ok_windows id r r' :
  row_ok id r -> us_ID r' = us_ID r -> whole (us_StartsAt r') -> whole (us_ExpiresAt r') ->
  whole (us_AssignedAt r') -> (forall win, windowStart win r' = windowStart win r) -> row_ok id r'.
Proof.
  intros [I S E A W] I' S' E' A' W'. constructor; [congruence|done..|]. intros win x. rewrite W'. apply W.
Qed.

#[local] Ltac row_solve :=
  first [ apply stored_whole | done
        | match goal with R : row_ok _ _ |- _ => by destruct R end ].

Lemma set_subs_next db f : sd_next (set_subs db f) = sd_next db.
Proof. done. Qed.

Lemma updateOneID_ok now id f db :
  (forall r, row_ok id r -> row_ok id (f r <| us_UpdatedAt := stored now |>)) ->
  db_ok db -> db_ok (updateOneID now id f db).2.
Proof.
  intros F T. unfold updateOneID. destruct (sd_subs db !! id) as [r|] eqn:E; [|done].
  destruct (T _ _ E). cbn. apply table_ok_insert; auto.
Qed.

Lemma updateWhere_ok now id p f db :
  (forall r, row_ok id r -> row_ok id (f r <| us_UpdatedAt := stored now |>)) ->
  db_ok db -> db_ok (updateWhere now id p f db).2.
Proof.
  intros F T. unfold updateWhere. destruct (sd_subs db !! id) as [r|] eqn:E; [|done].
  destruct (p r); [|done]. destruct (T _ _ E). cbn. apply table_ok_insert; auto.
Qed.

Lemma createRow_ok now db sub r : createRow now db sub = Some r -> row_ok (sd_next db) r.
Proof.
  unfold createRow. do 3 (destruct (numeric_of _); [|done]). intros; simplify_eq. constructor; cbn; try apply stored_whole; [done|].
  intros []; apply stored_opt_whole.
Qed.

Lemma orKeep_whole new old : whole_opt old -> whole_opt (orKeep new old).
Proof. intros W. destruct new; [|done]. intros x ?; simplify_eq/=. apply stored_whole. Qed.

Lemma updateRow_ok now id sub r r' : row_ok id r -> updateRow now sub r = Some r' -> row_ok id r'.
Proof.
  intros [I S E A W]. unfold updateRow. do 3 (destruct (numeric_of _); [|done]). intros; simplify_eq.
  constructor; cbn; try apply stored_whole; [done|].
  intros []; apply orKeep_whole;
    first [apply (W subscriptionWindowDaily)|apply (W subscriptionWindowWeekly)|apply (W subscriptionWindowMonthly)].
Qed.

Lemma resetWindows_ok id d w m t r : row_ok id r -> row_ok id (resetWindows d w m (stored t) r).
Proof. intros R. unfold resetWindows. destruct d, w, m; repeat apply restartWindow_ok; done. Qed.

Lemma activateWindows_ok id t r : row_ok id r -> row_ok id (activateWindows (stored t) r).
Proof.
  intros [I S E A W]. constructor; [done..|]. intros [] x X; cbn in X; simplify_eq; apply stored_whole.
Qed.

Lemma updatedAt_ok id r t : row_ok id r -> row_ok id (r <| us_UpdatedAt := t |>).
Proof. intros R. by apply (row_ok_windows id r); try row_solve; intros []. Qed.

Lemma createStmt_ok now sub db : db_ok db -> db_ok (createStmt now sub db).2.
Proof.
  intros T. assert (T' : table_ok (sd_next db + 1) (sd_subs db)) by (apply (table_ok_mono (sd_next db)); [lia|done]).
  unfold createStmt. destruct (createRow _ _ _) as [r|] eqn:E; [|done].
  destruct (negb _); [done|]. destruct (duplicate _ _); [done|].
  apply createRow_ok in E. cbn. rewrite (row_id _ _ E). apply table_ok_insert; [done..|lia].
Qed.

Lemma updateStmt_ok now sub db : db_ok db -> db_ok (updateStmt now sub db).2.
Proof.
  intros T. unfold updateStmt. destruct (sd_subs db !! sub_ID sub) as [r|] eqn:E; [|done].
  destruct (T _ _ E) as [R L]. destruct (updateRow _ _ _) as [r'|] eqn:U; [|done].
  apply (updateRow_ok _ _ _ _ _ R) in U.
  destruct (negb _); [done|]. destruct (duplicate _ _); [done|]. by apply table_ok_insert.
Qed.

Lemma restoreStmt_ok now id st db : db_ok db -> db_ok (restoreStmt now id st db).2.
Proof.
  intros T. unfold restoreStmt. destruct (sd_subs db !! id) as [r|] eqn:E; [|done].
  destruct (T _ _ E) as [R L]. cbn zeta. destruct (duplicate _ _); [done|].
  apply table_ok_insert; [done|by apply updatedAt_ok, (row_ok_windows id r); try row_solve; intros []|done].
Qed.

Lemma incrementStmt_ok now id cost db : db_ok db -> db_ok (incrementStmt now id cost db).2.
Proof.
  intros T. unfold incrementStmt. destruct (numeric_of cost) as [c|]; [|done].
  destruct (sd_subs db !! id) as [r|] eqn:E; [|done]. destruct (T _ _ E) as [R L].
  destruct (_ || _); [done|]. destruct (_ && _); [|done].
  apply table_ok_insert; [done|by apply updatedAt_ok, (row_ok_windows id r); try row_solve; intros []|done].
Qed.

Lemma batchExpireStmt_ok now db : db_ok db -> db_ok (batchExpireStmt now db).2.
Proof.
  intros T id r E. cbn in E. rewrite lookup_fmap in E.
  destruct (sd_subs db !! id) as [r0|] eqn:E0; simplify_eq/=. destruct (T _ _ E0) as [R L].
  split; [|done]. destruct (expiredNow _ _); [|done]. by apply updatedAt_ok, (row_ok_windows id r0); try row_solve; intros [].
Qed.

(** Every statement keeps the tables in order. *)
Lemma run_stmt_ok now {R : Type} (s : stmt R) db : db_ok db -> db_ok (run_stmt now s db).2.
Proof.
  intros T. destruct s; cbn; try done;
    first [ by apply createStmt_ok | by apply updateStmt_ok | by apply restoreStmt_ok
          | by apply incrementStmt_ok | by apply batchExpireStmt_ok
          | apply updateOneID_ok; [|done] | apply updateWhere_ok; [|done] ]; intros r ROk; apply updatedAt_ok.
  all: try (by apply (row_ok_windows _ r); try row_solve; intros []).
  - by apply activateWindows_ok.
  - by apply restartWindow_ok.
  - by apply resetWindows_ok.
Qed.

Lemma run_stmt_next now {R : Type} (s : stmt R) db : sd_next db <= sd_next (run_stmt now s db).2.
Proof.
  destruct s; cbn; try lia; unfold createStmt, updateStmt, restoreStmt, incrementStmt, updateOneID, updateWhere;
    cbn zeta; repeat first [case_match|cbn]; lia.
Qed.

(** A statement changes only rows that it locks. *)
Lemma run_stmt_frame now {R : Type} (s : stmt R) db id :
  db_ok db -> id ∉ locks now s db -> sd_subs (run_stmt now s db).2 !! id = sd_subs db !! id.
Proof.
  intros T N. destruct s; cbn in N |- *; try done.
  all: unfold createStmt, updateStmt, restoreStmt, incrementStmt, updateOneID, updateWhere; cbn zeta.
  all: try (repeat first [case_match|progress cbn]; try done; rewrite lookup_insert_ne; [done|set_solver]).
  - destruct (createRow _ _ _) eqn:E; [|done]. apply createRow_ok, row_id in E.
    destruct (negb _); [done|]. destruct (duplicate _ _); [done|]. cbn. rewrite E, lookup_insert_ne; [done|set_solver].
  - rewrite lookup_fmap. destruct (sd_subs db !! id) as [r|] eqn:E; [|done]. cbn.
    destruct (expiredNow now r) eqn:X; [|done]. destruct N. apply elem_of_dom. exists r.
    by apply map_lookup_filter_Some.
Qed.

(** ** Worlds in order *)

(** The windows of a subscription in memory come from the table. *)
Definition sound (sub : UserSubscription) : Prop :=
  whole_opt (sub_DailyWindowStart sub) /\ whole_opt (sub_WeeklyWindowStart sub)
  /\ whole_opt (sub_MonthlyWindowStart sub).

Record inv (w : sub_world) : Prop := MkInv {
  inv_table : db_ok (sw_db w);
  inv_pending i p : sw_txs w !! i = Some p -> table_ok (sd_next (sw_db w)) p;
  inv_disjoint i j p q id : i <> j -> sw_txs w !! i = Some p -> sw_txs w !! j = Some q ->
    is_Some (p !! id) -> q !! id = None
}.

Lemma inv_fields w w' : inv w -> sw_db w' = sw_db w -> sw_txs w' = sw_txs w -> inv w'.
Proof. intros [T P D] E1 E2. constructor; rewrite ?E1, ?E2; done. Qed.

Lemma view_ok i w : inv w -> db_ok (view i w).
Proof.
  intros [T P D]. unfold view. destruct (sw_txs w !! i) as [p|] eqn:E; [|done].
  apply table_ok_union; [by apply (P i)|done].
Qed.

Lemma view_next i w : sd_next (view i w) = sd_next (sw_db w).
Proof. unfold view. by destruct (sw_txs w !! i). Qed.

Lemma locked_spec i j w p id :
  sw_txs w !! j = Some p -> j <> i -> ~ locked i w id -> p !! id = None.
Proof.
  intros E N L. destruct (p !! id) eqn:X; [|done]. destruct L. exists j, p. by rewrite X.
Qed.

(** What the statement of thread [i] may do to the rows that [j] has locked: nothing. *)
Lemma stmt_frame i j w {R : Type} (s : stmt R) q id :
  inv w -> enabled i (Sql s) w -> i <> j -> sw_txs w !! j = Some q -> is_Some (q !! id) ->
  id ∉ locks (sw_clock w) s (view i w).
Proof.
  intros I En N E [r X] L. specialize (En id L).
  assert (q !! id = None) by (by eapply (locked_spec i j)). congruence.
Qed.

Lemma pending_lookup_ne L t p id : id ∉ L -> pending L t p !! id = p !! id.
Proof.
  intros N. unfold pending. rewrite lookup_union_r; [done|].
  apply map_lookup_filter_None. right. intros r _. done.
Qed.

Lemma pending_ok next L t p : table_ok next t -> table_ok next p -> table_ok next (pending L t p).
Proof.
  intros T P. apply table_ok_union; [|done]. intros id r E. apply map_lookup_filter_Some in E as [E _]. by apply T.
Qed.

Lemma act_inv i {R : Type} (c : call R) w : inv w -> enabled i c w -> inv (act i c w).2.
Proof.
  intros I En. pose proof (view_ok i w I) as V. pose proof I as [T P D].
  destruct c as [| | | |R s| | | |]; cbn [act snd]; try by apply (inv_fields w).
  - constructor; cbn; [done|..].
    + intros j p X. apply lookup_insert_Some in X as [[_ <-]|[_ X]]; [apply map_Forall_empty|by apply (P j)].
    + intros j k p q id N X Y [r Z]. apply lookup_insert_Some in X as [[_ <-]|[_ X]]; [done|].
      apply lookup_insert_Some in Y as [[_ <-]|[_ Y]]; [done|]. by apply (D j k p q).
  - unfold commitTx. destruct (sw_txs w !! i) as [p|] eqn:E; [|done]. constructor; cbn.
    + apply table_ok_union; [by apply (P i)|done].
    + intros j q X. apply lookup_delete_Some in X as [_ X]. by apply (P j).
    + intros j k q q' id N X Y. apply lookup_delete_Some in X as [_ X], Y as [_ Y]. by apply (D j k).
  - constructor; cbn; [done|..].
    + intros j q X. apply lookup_delete_Some in X as [_ X]. by apply (P j).
    + intros j k q q' id N X Y. apply lookup_delete_Some in X as [_ X], Y as [_ Y]. by apply (D j k).
  - pose proof (run_stmt_ok (sw_clock w) s _ V) as T'.
    pose proof (run_stmt_next (sw_clock w) s (view i w)) as L'. rewrite view_next in L'.
    set (r := run_stmt (sw_clock w) s (view i w)) in *. set (L := locks (sw_clock w) s (view i w)) in *.
    unfold after_stmt. destruct (sw_txs w !! i) as [p|] eqn:E; constructor; cbn.
    + by eapply table_ok_mono.
    + intros j q X. apply lookup_insert_Some in X as [[_ <-]|[_ X]].
      * apply pending_ok; [done|]. eapply table_ok_mono; [done|by apply (P i)].
      * eapply table_ok_mono; [done|by apply (P j)].
    + intros j k q q' id N X Y Z.
      apply lookup_insert_Some in X as [[<- <-]|[N1 X]], Y as [[<- <-]|[N2 Y]]; try done.
      * destruct (decide (is_Some (q' !! id))) as [S|S]; [|by apply eq_None_not_Some].
        rewrite pending_lookup_ne in Z by (by apply (stmt_frame i k w s q')).
        by apply (D i k p q').
      * rewrite pending_lookup_ne by (by apply (stmt_frame i j w s q)). by apply (D j i q p).
      * by apply (D j k q q').
    + done.
    + intros j q X. eapply table_ok_mono; [done|by apply (P j)].
    + done.
Qed.

(** ** What a thread relies on *)

Record rely (i : nat) (w w' : sub_world) : Prop := MkRely {
  rely_tx : sw_txs w' !! i = sw_txs w !! i;
  rely_rows p id : sw_txs w !! i = Some p -> is_Some (p !! id) -> rows w' !! id = rows w !! id;
  rely_clock : sw_clock w <= sw_clock w'
}.

Lemma thread_rely_refl i w : rely i w w.
Proof. by constructor. Qed.

Lemma thread_rely_trans i w1 w2 w3 : rely i w1 w2 -> rely i w2 w3 -> rely i w1 w3.
Proof.
  intros [T1 R1 C1] [T2 R2 C2]. constructor; [congruence| |lia].
  intros p id X Y. rewrite (R2 p id); [by eapply R1|congruence|done].
Qed.

Lemma rely_fields i w w' :
  sw_txs w' = sw_txs w -> sw_db w' = sw_db w -> sw_clock w <= sw_clock w' -> rely i w w'.
Proof. intros E1 E2 E3. constructor; [by rewrite E1|by rewrite E2|done]. Qed.

(** A call of one thread is a step that the others rely on. *)
Lemma act_rely i j {R : Type} (c : call R) w : inv w -> enabled i c w -> i <> j -> rely j w (act i c w).2.
Proof.
  intros I En N. destruct c as [| | | |R s| | | |]; cbn [act snd]; try by apply rely_fields.
  - constructor; cbn; [by rewrite lookup_insert_ne|done..].
  - unfold commitTx. destruct (sw_txs w !! i) as [p|] eqn:E; [|apply thread_rely_refl].
    constructor; cbn; [by rewrite lookup_delete_ne| |done].
    intros q id X Y. rewrite lookup_union_r; [done|]. destruct (p !! id) eqn:Z; [|done].
    assert (q !! id = None) by (by eapply (inv_disjoint w I i j)). destruct Y; congruence.
  - constructor; cbn; [by rewrite lookup_delete_ne|done..].
  - unfold after_stmt. destruct (sw_txs w !! i) as [p|] eqn:E; constructor; cbn; try done.
    + by rewrite lookup_insert_ne.
    + intros q id X Y. rewrite run_stmt_frame; [by unfold view; rewrite E|by apply view_ok|].
      by apply (stmt_frame i j w s q).
Qed.
End Machine.

Notation db_ok db := (table_ok (sd_next db) (sd_subs db)).
Notation whole t := (Microsecond | t) (only parsing).
