(* ===== verification/SubscriptionsProofs.v ===== *)
(** * Theorems about subscriptions

    Terms: renewals and adjustments that run at the same time are each computed from the
    row they replace.  Quotas: maintenance never discards usage of a current window, and
    the check in memory agrees with it.  Windows, assignment, revocation and restoring of
    single requests. *)

From Stdlib Require Import SpecFloat.
From S2P Require Import Prelude GoStrings GoFloat GoTime Programs Subscriptions SubscriptionsMachine.

#[local] Open Scope Z_scope.

(** ** Calls of a program

    [issues F P p]: every call of [p] satisfies [P], whatever the calls before it answered
    as long as the answers satisfy [F]. *)

Section Issues.
Context (F : forall R, call R -> option R -> Prop) (P : forall R, call R -> Prop).

Fixpoint issues {A : Type} (p : prog A) : Prop :=
  match p with
  | Ret _ => True
  | Do c k => P _ c /\ forall r, F _ c r -> issues (k r)
  end.

Lemma issues_bind {A B : Type} (p : prog A) (f : A -> prog B) :
  issues p -> (forall a, issues (f a)) -> issues (bind p f).
Proof.
  intros H1 H2. induction p as [a|R c k IH]; cbn in *; [done|]. destruct H1. split; auto.
Qed.

Lemma issues_try {A B : Type} (p : prog (outcome A)) (f : A -> prog (outcome B)) :
  issues p -> (forall a, issues (f a)) -> issues (try p f).
Proof. intros H1 H2. apply issues_bind; [done|]. intros [e|a]; [done|apply H2]. Qed.

Lemma issues_query {R : Type} (s : stmt R) : P _ (Sql s) -> issues (query s).
Proof. done. Qed.

Lemma issues_exec {R : Type} (s : stmt (outcome R)) : P _ (Sql s) -> issues (exec s).
Proof. done. Qed.

Lemma issues_now {A : Type} (f : Z -> prog A) : P _ Now -> (forall t, issues (f t)) -> issues (currentTime f).
Proof. intros H1 H2. split; [done|]. intros r _. apply H2. Qed.
End Issues.

(** What is known of answers: subscriptions come from the table. *)
Definition fits R (c : call R) : option R -> Prop :=
  match c in call R return option R -> Prop with
  | CacheGet _ _ => fun r => match r with Some (Some sub) => sound sub | _ => True end
  | Sql s =>
    match s in stmt R return option R -> Prop with
    | GetActiveByUserIDAndGroupID _ _ => fun r => match r with Some (inr sub) => sound sub | _ => True end
    | _ => fun _ => True
    end
  | _ => fun _ => True
  end.

(** Walk through a handler; the calls are left to [tac]. *)
Ltac walk_issues tac :=
  repeat match goal with
  | |- issues _ _ (Ret _) => exact I
  | |- issues _ _ (bind _ _) => apply issues_bind; [|intros ?]
  | |- issues _ _ (try _ _) => apply issues_try; [|intros ?]
  | |- issues _ _ (query _) => apply issues_query; tac
  | |- issues _ _ (exec _) => apply issues_exec; tac
  | |- issues _ _ (currentTime _) => apply issues_now; [tac|intros ?]
  | |- issues _ _ (Do _ _) => split; [tac|intros ? ?]
  | |- issues _ _ (let _ := _ in _) => cbv zeta
  | |- issues _ _ (if ?b then _ else _) => destruct b
  | |- issues _ _ (match ?x with _ => _ end) => destruct x
  end.

(** ** Transactions *)

Section Transactions.
Context `{Postgres} (local : Location).

(** The term after a renewal: an unexpired one is prolonged, an expired one begins anew. *)
Definition renewedRow (now days : Z) (notes : string) (old : us_row) : us_row :=
  if now <? us_ExpiresAt old then
    old <| us_ExpiresAt := stored (capExpiry (AddDate local (us_ExpiresAt old) days)) |>
        <| us_Status := SubscriptionStatusActive |>
        <| us_Notes := if notes =s "" then us_Notes old
                       else Some (appendSubscriptionNotes (default "" (us_Notes old)) notes) |>
  else
    old <| us_StartsAt := stored now |>
        <| us_ExpiresAt := stored (capExpiry (AddDate local now days)) |>
        <| us_Status := SubscriptionStatusActive |>
        <| us_DailyWindowStart := Some (stored now) |>
        <| us_WeeklyWindowStart := Some (stored now) |>
        <| us_MonthlyWindowStart := Some (stored now) |>
        <| us_DailyUsageUsd := 0 |> <| us_WeeklyUsageUsd := 0 |> <| us_MonthlyUsageUsd := 0 |>
        <| us_Notes := Some (appendSubscriptionNotes (default "" (us_Notes old)) notes) |>.

(** The term after an adjustment by [days]. *)
Definition adjustedRow (now days : Z) (old : us_row) : us_row :=
  old <| us_ExpiresAt := stored (capExpiry (AddDate local (Z.max now (us_ExpiresAt old)) days)) |>
      <| us_Status := if us_Status old =s SubscriptionStatusExpired then SubscriptionStatusActive else us_Status old |>.

(** A committed change is what its request makes of the row it replaced, at a time the
    request read from the clock. *)
Definition lawful (cm : commit) : Prop :=
  exists old now t, cm_old cm = Some old /\ us_DeletedAt old = None /\ now <= cm_at cm /\
  match cm_request cm with
  | ReqAssignOrExtend input =>
    cm_new cm = renewedRow now (normalizeAssignValidityDays (in_ValidityDays input)) (in_Notes input) old
                  <| us_UpdatedAt := t |>
  | ReqExtend id days =>
    cm_id cm = id /\ (us_ExpiresAt old <= now -> 0 <= days) /\
    now < capExpiry (AddDate local (Z.max now (us_ExpiresAt old)) (clampDays days)) /\
    cm_new cm = adjustedRow now (clampDays days) old <| us_UpdatedAt := t |>
  | _ => False
  end.

Definition commit_ok (rq : sub_request) (i : nat) {R : Type} (c : call R) (w : sub_world) : Prop :=
  match c, sw_txs w !! i with
  | Commit, Some p => Forall lawful (commits_of rq w p)
  | _, _ => True
  end.

Fixpoint wp (i : nat) (rq : sub_request) {A : Type} (p : prog A) (Q : A -> sub_world -> Prop) (w : sub_world) : Prop :=
  match p with
  | Ret a => Q a w
  | Do c k => forall w1, rely i w w1 -> inv w1 ->
      commit_ok rq i c w1 /\ forall r done w2, answers i c w1 r done w2 -> inv w2 -> wp i rq (k r) Q w2
  end.

Definition anything {A : Type} : A -> sub_world -> Prop := fun _ _ => True.

Context (i : nat) (rq : sub_request).

Lemma wp_rely {A : Type} (p : prog A) w w' : wp i rq p anything w -> rely i w w' -> wp i rq p anything w'.
Proof.
  destruct p as [a|R c k]; [done|]. intros W R1 w1 R2 I1. apply W; [by eapply thread_rely_trans|done].
Qed.

Lemma tx_wp_bind {A B : Type} (p : prog A) (f : A -> prog B) Q w :
  wp i rq p (fun a => wp i rq (f a) Q) w -> wp i rq (bind p f) Q w.
Proof.
  revert w. induction p as [a|R c k IH]; intros w W; [done|]. intros w1 R1 I1.
  destruct (W w1 R1 I1) as [C W']. split; [done|]. intros r done w2 An I2. eapply IH, W'; done.
Qed.

Lemma tx_wp_mono {A : Type} (p : prog A) (Q Q' : A -> sub_world -> Prop) w :
  (forall a w', Q a w' -> Q' a w') -> wp i rq p Q w -> wp i rq p Q' w.
Proof.
  intros M. revert w. induction p as [a|R c k IH]; intros w W; [by apply M|]. intros w1 R1 I1.
  destruct (W w1 R1 I1) as [C W']. split; [done|]. intros r done w2 An I2. eapply IH, W'; done.
Qed.

Lemma wp_try {A B : Type} (p : prog (outcome A)) (f : A -> prog (outcome B)) Q w :
  wp i rq p (fun r w' => match r with inl e => Q (inl e) w' | inr a => wp i rq (f a) Q w' end) w ->
  wp i rq (try p f) Q w.
Proof. intros W. apply tx_wp_bind. eapply tx_wp_mono; [|done]. by intros [e|a] w'. Qed.

Lemma wp_now {A : Type} (f : Z -> prog A) Q w :
  (forall w1, rely i w w1 -> inv w1 -> wp i rq (f (sw_clock w1)) Q w1) -> wp i rq (currentTime f) Q w.
Proof.
  intros W w1 R1 I1. split; [done|]. intros r done w2 An I2. inversion An; subst; try done. by apply W.
Qed.

(** Handlers without transactions have nothing to answer for. *)
Definition not_commit R (c : call R) : Prop := match c with Commit => False | _ => True end.

Notation commit_free p := (issues (fun _ _ _ => True) not_commit p).

Lemma wp_quiet {A : Type} (p : prog A) (Q : A -> sub_world -> Prop) w :
  commit_free p -> (forall a w', Q a w') -> wp i rq p Q w.
Proof.
  intros F M. revert w. induction p as [a|R c k IH]; intros w; [by apply M|]. intros w1 R1 I1.
  destruct F as [N F]. split; [by destruct c|]. intros r done w2 An I2. apply IH. by apply F.
Qed.

(** The transaction is open, and has not touched a row yet or only [id]. *)
Definition opened (w : sub_world) : Prop := sw_txs w !! i = Some ∅.
Definition holding (id : Z) (old new : us_row) (w : sub_world) : Prop :=
  sw_txs w !! i = Some {[ id := new ]} /\ rows w !! id = Some old.

Lemma opened_rely w w' : opened w -> rely i w w' -> opened w'.
Proof. intros O R. unfold opened. by rewrite (rely_tx _ _ _ R). Qed.

Lemma holding_rely id old new w w' : holding id old new w -> rely i w w' -> holding id old new w'.
Proof.
  intros [T C] R. split; [by rewrite (rely_tx _ _ _ R)|]. rewrite (rely_rows _ _ _ R _ id T); [done|].
  by rewrite lookup_singleton_eq.
Qed.

Lemma pending_single id t p r :
  t !! id = Some r -> (forall k, k <> id -> p !! k = None) -> pending {[ id ]} t p = {[ id := r ]}.
Proof.
  intros E N. apply map_eq. intros k. destruct (decide (k = id)) as [->|D].
  - rewrite lookup_singleton_eq. apply lookup_union_Some_l, map_lookup_filter_Some. cbn. set_solver.
  - rewrite lookup_singleton_ne by done. rewrite pending_lookup_ne by set_solver. by apply N.
Qed.

Lemma view_holding id old new w : holding id old new w -> sd_subs (view i w) !! id = Some new.
Proof.
  intros [T C]. unfold view. rewrite T. cbn. apply lookup_union_Some_l, lookup_singleton_eq.
Qed.

Lemma after_stmt_holding id old new new' db w :
  holding id old new w -> sd_subs db !! id = Some new' ->
  holding id old new' (after_stmt i {[ id ]} db w).
Proof.
  intros [T C] E. unfold after_stmt. rewrite T. split; cbn; [|done].
  rewrite lookup_insert_eq. f_equal. apply pending_single; [done|].
  intros k N. by apply lookup_singleton_ne.
Qed.

Lemma after_stmt_clock L db w : sw_clock (after_stmt i L db w) = sw_clock w.
Proof. unfold after_stmt. by destruct (sw_txs w !! i). Qed.

Section Rules.
Context {A : Type} (Q : outcome A -> sub_world -> Prop).
Hypothesis failure : forall e w, Q (inl e) w.

(** A statement that answers with a result: failures are covered by [failure]. *)
Lemma wp_exec_stmt (s : stmt (outcome A)) w :
  (forall w1, rely i w w1 -> inv w1 ->
    match (run_stmt (sw_clock w1) s (view i w1)).1 with
    | inl _ => True
    | inr a => Q (inr a) (after_stmt i (locks (sw_clock w1) s (view i w1))
                           (run_stmt (sw_clock w1) s (view i w1)).2 w1)
    end) -> wp i rq (exec s) Q w.
Proof.
  intros W w1 R1 I1. split; [done|]. intros r done w2 An I2. specialize (W w1 R1 I1).
  inversion An; subst; cbn [wp]; try apply failure. cbn in *.
  destruct (run_stmt (sw_clock w1) s (view i w1)).1; [apply failure|done].
Qed.
End Rules.

(** [SELECT ... FOR UPDATE]. *)
Lemma wp_lock id Q w :
  opened w -> (forall e w', Q (inl e) w') ->
  (forall w' db old, holding id old old w' -> us_DeletedAt old = None -> row_ok id old ->
    sw_clock w <= sw_clock w' -> Q (inr (userSubscriptionEntityToService false db old)) w') ->
  wp i rq (exec (GetByIDForUpdate id)) Q w.
Proof.
  intros O F K. apply wp_exec_stmt; [done|]. intros w1 R1 I1.
  pose proof (opened_rely _ _ O R1) as O1. pose proof (view_ok i w1 I1) as V.
  assert (E : sd_subs (view i w1) = rows w1) by (unfold view; rewrite O1; cbn; by rewrite (left_id_L ∅ (∪))).
  cbn. unfold byID, liveRow. rewrite E. destruct (rows w1 !! id) as [r|] eqn:X; [|done].
  rewrite <-E in X. destruct (V _ _ X) as [ROk _]. rewrite E in X.
  unfold live. case_bool_decide as D; [|done]. apply K; [|done..|].
  - rewrite bool_decide_true by done. unfold after_stmt. rewrite O1. split; cbn; [|done].
    rewrite lookup_insert_eq. f_equal. apply pending_single; [by rewrite E|]. intros; apply lookup_empty.
  - rewrite after_stmt_clock. apply R1.
Qed.

(** An update of the row that is held. *)
Lemma wp_update id f (s : stmt (outcome unit)) old new Q w :
  (forall now db, run_stmt now s db = updateOneID now id f db) ->
  (forall now db, locks now s db = {[ id ]}) ->
  holding id old new w -> (forall e w', Q (inl e) w') ->
  (forall w' t, holding id old (f new <| us_UpdatedAt := t |>) w' -> sw_clock w <= sw_clock w' -> Q (inr tt) w') ->
  wp i rq (exec s) Q w.
Proof.
  intros S L O F K. apply wp_exec_stmt; [done|]. intros w1 R1 I1.
  pose proof (holding_rely _ _ _ _ _ O R1) as O1. rewrite S, L. unfold updateOneID.
  rewrite (view_holding _ _ _ _ O1). cbn [fst snd]. eapply K.
  - eapply after_stmt_holding; [done|]. cbn. apply lookup_insert_eq.
  - rewrite after_stmt_clock. apply R1.
Qed.

(** Replacing the term of the row that is held. *)
Lemma wp_replace sub old new Q w :
  holding (sub_ID sub) old new w -> (forall e w', Q (inl e) w') ->
  (forall w' t new', updateRow t sub new = Some new' -> holding (sub_ID sub) old new' w' ->
    sw_clock w <= sw_clock w' -> Q (inr tt) w') ->
  wp i rq (exec (Update sub)) Q w.
Proof.
  intros O F K. apply wp_exec_stmt; [done|]. intros w1 R1 I1.
  pose proof (holding_rely _ _ _ _ _ O R1) as O1. cbn. unfold updateStmt.
  rewrite (view_holding _ _ _ _ O1). destruct (updateRow _ _ _) as [new'|] eqn:U; [|done].
  destruct (negb _); [done|]. destruct (duplicate _ _); [done|]. cbn [fst snd]. eapply K; [done|..].
  - eapply after_stmt_holding; [done|]. cbn. apply lookup_insert_eq.
  - rewrite after_stmt_clock. apply R1.
Qed.

(** The transaction can be committed now or later. *)
Definition committable (w : sub_world) : Prop :=
  exists id old new, holding id old new w /\
  forall at_, sw_clock w <= at_ -> lawful (MkCommit rq id (Some old) new at_).

Lemma committable_ok w w1 : committable w -> rely i w w1 -> commit_ok rq i Commit w1.
Proof.
  intros (id & old & new & O & L) R. pose proof (holding_rely _ _ _ _ _ O R) as [T C].
  unfold commit_ok. rewrite T. unfold commits_of. rewrite map_to_list_singleton. cbn.
  apply Forall_singleton. rewrite C. apply L, R.
Qed.

Lemma wp_tx {A : Type} (fn : prog (outcome A)) Q w :
  (forall w1, opened w1 -> wp i rq fn (fun r w' => match r with inr _ => committable w' | inl _ => True end) w1) ->
  (forall r w', Q r w') -> wp i rq (withSubscriptionUpdateTx fn) Q w.
Proof.
  intros B M w1 R1 I1. split; [done|]. intros r done w2 An I2. inversion An; subst; try apply M.
  apply tx_wp_bind. eapply tx_wp_mono; [|apply B].
  - intros [e|a] w3 C w4 R4 I4.
    + split; [done|]. intros; apply M.
    + split; [by eapply committable_ok|]. intros; apply M.
  - unfold opened. cbn. apply lookup_insert_eq.
Qed.
End Transactions.

(** Records that are built by many updates, compared by value. *)
Ltac row_eq :=
  cbv beta iota delta
    [field_update us_GeminiCachePending us_GeminiCacheGeneration us_ID us_UserID us_GroupID
     us_StartsAt us_ExpiresAt us_Status us_DailyWindowStart us_WeeklyWindowStart
     us_MonthlyWindowStart us_DailyUsageUsd us_WeeklyUsageUsd us_MonthlyUsageUsd us_AssignedBy
     us_AssignedAt us_Notes us_CreatedAt us_UpdatedAt us_DeletedAt];
  reflexivity.

Section Handlers.
Context `{Postgres} (local : Location) (i : nat).

Notation post rq := (fun r w' => match r with inr _ => committable local i rq w' | inl _ => True end).

Lemma entity_live db r : us_DeletedAt r = None ->
  userSubscriptionEntityToService false db r = userSubscriptionEntityToServicePreserveStatus false db r.
Proof. intros D. unfold userSubscriptionEntityToService, userSubscriptionEntityToServicePreserveStatus,
  userSubscriptionEntityToServiceWithStatusMapping, live. by rewrite bool_decide_true. Qed.

(** What is written for a new term. *)
Lemma updateRow_renewed t db old notes now expiresAt new id :
  row_ok id old -> us_DeletedAt old = None ->
  updateRow t (renewedSubscriptionTerm (userSubscriptionEntityToService false db old) notes now expiresAt) old
    = Some new ->
  exists u, new = old <| us_StartsAt := stored now |> <| us_ExpiresAt := stored expiresAt |>
    <| us_Status := SubscriptionStatusActive |>
    <| us_DailyWindowStart := Some (stored now) |> <| us_WeeklyWindowStart := Some (stored now) |>
    <| us_MonthlyWindowStart := Some (stored now) |>
    <| us_DailyUsageUsd := 0 |> <| us_WeeklyUsageUsd := 0 |> <| us_MonthlyUsageUsd := 0 |>
    <| us_Notes := Some (appendSubscriptionNotes (default "" (us_Notes old)) notes) |> <| us_UpdatedAt := u |>.
Proof.
  intros R D. pose proof (stored_exact _ (row_assigned _ _ R)) as E. unfold updateRow. cbn.
  rewrite numeric_of_zero. intros [= <-]. exists (stored t). rewrite E. destruct old as [? ? ? ? ? ? ? ? ? ? ? ? ? ? [] ? ? ? ? ?]; row_eq.
Qed.

Lemma renewInTx_ok input id w :
  opened i w ->
  wp local i (ReqAssignOrExtend input)
    (renewInTx local id (normalizeAssignValidityDays (in_ValidityDays input)) (in_Notes input))
    (post (ReqAssignOrExtend input)) w.
Proof.
  intros O. set (rq := ReqAssignOrExtend input). set (days := normalizeAssignValidityDays _).
  apply wp_try, wp_lock; [done..|]. intros w1 db old O1 D ROk _.
  apply wp_now. intros w2 R2 I2. pose proof (holding_rely _ _ _ _ _ _ O1 R2) as O2.
  set (now := sw_clock w2). cbn [sub_ExpiresAt userSubscriptionEntityToService userSubscriptionEntityToServiceWithStatusMapping].
  assert (Final : forall w3 new, holding i id old new w3 -> now <= sw_clock w3 ->
    (exists u, new = renewedRow local now days (in_Notes input) old <| us_UpdatedAt := u |>) ->
    committable local i rq w3).
  { intros w3 new O3 L3 [u E]. exists id, old, new. split; [done|]. intros at_ L. exists old, now, u.
    cbn. repeat split; [done..|lia|done]. }
  unfold renewedRow in Final. destruct (now <? us_ExpiresAt old); cbn [negb].
  - change (sub_ID (userSubscriptionEntityToService false db old)) with (us_ID old).
    rewrite (row_id _ _ ROk). apply wp_try. eapply wp_update; [done..|]. intros w3 t3 O3 L3.
    assert (T : forall w4 st t4, st = SubscriptionStatusActive ->
      holding i id old (old <| us_ExpiresAt := stored (capExpiry (AddDate local (us_ExpiresAt old) days)) |>
        <| us_Status := st |> <| us_UpdatedAt := t4 |>) w4 -> now <= sw_clock w4 ->
      wp local i rq (if negb (in_Notes input =s "")
        then exec (UpdateNotes id (appendSubscriptionNotes (default "" (us_Notes old)) (in_Notes input)))
        else Ret (inr tt)) (post rq) w4).
    { intros w4 st t4 -> O4 L4. destruct (in_Notes input =s ""); cbn [negb].
      - eapply Final; [done..|]. exists t4. destruct old; row_eq.
      - eapply wp_update; [done..|]. intros w5 t5 O5 L5. eapply Final; [done|lia|]. exists t5. destruct old; row_eq. }
    apply wp_try. rewrite (entity_live db old D).
    cbn [sub_Status sub_Notes userSubscriptionEntityToServicePreserveStatus userSubscriptionEntityToServiceWithStatusMapping andb].
    destruct (us_Status old =s SubscriptionStatusActive) eqn:S; cbn [negb].
    + apply String.eqb_eq in S. eapply (T w3 (us_Status old)); [done| |lia]. by destruct old.
    + eapply wp_update; [done..|]. intros w4 t4 O4 L4. eapply (T w4 _ t4); [done| |lia]. by destruct old.
  - eapply wp_replace; [by cbn; rewrite (row_id _ _ ROk)|done|]. intros w3 t new U O3 L3.
    apply (updateRow_renewed _ _ _ _ _ _ _ id) in U as [u ->]; [|done..].
    eapply Final; [cbn in O3; rewrite (row_id _ _ ROk) in O3; done|lia|]. by exists u.
Qed.

Lemma extendInTx_ok id days w :
  opened i w -> wp local i (ReqExtend id days) (extendInTx local id days) (post (ReqExtend id days)) w.
Proof.
  intros O. set (rq := ReqExtend id days).
  apply wp_try, wp_lock; [done..|]. intros w1 db old O1 D ROk _. cbv zeta. set (n := clampDays days).
  apply wp_now. intros w2 R2 I2. pose proof (holding_rely _ _ _ _ _ _ O1 R2) as O2.
  set (now := sw_clock w2). rewrite (entity_live db old D).
  cbn [sub_ExpiresAt sub_Status userSubscriptionEntityToServicePreserveStatus userSubscriptionEntityToServiceWithStatusMapping andb].
  destruct (negb (now <? us_ExpiresAt old) && (n <? 0)) eqn:Short; [done|].
  set (e := capExpiry (AddDate local (Z.max now (us_ExpiresAt old)) n)).
  replace (capExpiry _) with e by (subst e; destruct (Z.ltb_spec now (us_ExpiresAt old)); cbn [negb]; repeat f_equal; lia).
  destruct (Z.ltb_spec now e) as [L|]; cbn [negb]; [|done].
  assert (Final : forall w3 new, holding i id old new w3 -> now <= sw_clock w3 ->
    (exists u, new = adjustedRow local now n old <| us_UpdatedAt := u |>) -> committable local i rq w3).
  { intros w3 new O3 L3 [u E]. exists id, old, new. split; [done|]. intros at_ La. exists old, now, u.
    cbn. split_and!; [done|done|lia|done| |done|done].
    intros X. rewrite (proj2 (Z.ltb_ge now (us_ExpiresAt old)) X) in Short. cbn in Short. subst n.
    unfold clampDays, MaxValidityDays in Short. repeat case_match; lia. }
  unfold adjustedRow in Final. fold e in Final.
  assert (T : forall w4 new, holding i id old new w4 -> committable local i rq w4 ->
    wp local i rq (exec (GetByID id)) (post rq) w4).
  { intros w4 new O4 (id' & old' & new' & O4' & C). apply wp_exec_stmt; [done|]. intros w5 R5 I5.
    cbn. destruct (byID _ _ _); [done|]. exists id', old', new'.
    assert (P5 : pending ∅ (sd_subs (view i w5)) {[ id' := new' ]} = {[ id' := new' ]}).
    { apply map_eq. intros k. by rewrite pending_lookup_ne by set_solver. }
    pose proof (holding_rely _ _ _ _ _ _ O4' R5) as [X Y]. unfold after_stmt. rewrite X. split.
    - split; cbn; [|done]. by rewrite P5, lookup_insert_eq.
    - cbn. intros at_ La. apply C. destruct R5. lia. }
  apply wp_try. eapply wp_update; [done..|]. intros w3 t3 O3 L3. apply wp_try.
  destruct (us_Status old =s SubscriptionStatusExpired) eqn:S.
  - eapply wp_update; [done..|]. intros w4 t4 O4 L4. eapply T; [done|]. eapply Final; [done|lia|].
    exists t4. destruct old; row_eq.
  - eapply T; [done|]. eapply Final; [done|lia|]. exists t3. destruct old; row_eq.
Qed.

(** Handlers other than renewal and adjustment do not commit transactions. *)
Ltac quiet := walk_issues ltac:(exact I).

Lemma AssignOrExtend_ok input w :
  wp local i (ReqAssignOrExtend input) (AssignOrExtendSubscription local input) anything w.
Proof.
  apply wp_try. eapply wp_quiet; [quiet|]. intros [e|g] w1; [done|].
  destruct (negb _); [done|]. apply tx_wp_bind. eapply wp_quiet; [quiet|]. intros [e|sub] w2; cbv zeta.
  - apply wp_quiet; [|done]. destruct e; quiet; unfold createSubscription, invalidate; quiet.
  - apply wp_try, wp_tx; [intros; by apply renewInTx_ok|]. intros [e|[]] w3; [done|].
    apply wp_quiet; [|done]. unfold invalidate. quiet.
Qed.

Lemma Extend_ok id days w : wp local i (ReqExtend id days) (ExtendSubscription local id days) anything w.
Proof.
  apply wp_try, wp_tx; [intros; by apply extendInTx_ok|]. intros [e|sub] w3; [done|].
  apply wp_quiet; [|done]. unfold invalidate. quiet.
Qed.

Lemma assignWithReuse_quiet input :
  issues (fun _ _ _ => True) not_commit (assignSubscriptionWithReuse local input).
Proof. unfold assignSubscriptionWithReuse, createSubscription, invalidate. quiet. Qed.

Lemma bulkAssignLoop_quiet input ids result :
  issues (fun _ _ _ => True) not_commit (bulkAssignLoop local input ids result).
Proof.
  revert result. induction ids as [|u ids IH]; intros result; [done|]. cbn [bulkAssignLoop].
  apply issues_bind; [apply assignWithReuse_quiet|]. intros r. apply IH.
Qed.

Lemma maintenance_quiet sub : issues (fun _ _ _ => True) not_commit (doWindowMaintenance local sub).
Proof.
  unfold doWindowMaintenance, CheckAndActivateWindow, checkAndActivateWindowAt, CheckAndResetWindows, resetIfDue,
    resetSubscriptionWindow, ResetDailyUsageIfCurrent, ResetWeeklyUsageIfCurrent, ResetMonthlyUsageIfCurrent,
    resetUsageIfCurrent, ActivateWindows, translateConditionalWindowReset, invalidate. quiet.
Qed.

Lemma start_ok rq w : wp local i rq (start local rq) anything w.
Proof.
  destruct rq; cbn [start].
  2: { apply tx_wp_bind. eapply tx_wp_mono; [|apply AssignOrExtend_ok]. done. }
  5: { apply tx_wp_bind. eapply tx_wp_mono; [|apply Extend_ok]. done. }
  all: apply wp_quiet; [|done]; try apply issues_bind; try done.
  - apply issues_try; [apply assignWithReuse_quiet|done].
  - apply bulkAssignLoop_quiet.
  - unfold RevokeSubscription, invalidate. quiet.
  - unfold RestoreSubscription, Restore, invalidate. quiet.
  - unfold AdminResetQuota, invalidate. quiet.
  - unfold authorizeSubscription, GetActiveSubscription. quiet; apply maintenance_quiet.
  - unfold RecordUsage, IncrementUsage. quiet.
  - unfold ValidateSubscription. quiet.
Qed.
End Handlers.

(** ** Boundaries of windows *)

Section Boundaries.
Context (local : Location) (s : UserSubscription).

Lemma windowAnchor_later p : p <= windowAnchor local s p.
Proof. unfold windowAnchor. destruct (_ && _) eqn:E; [|lia]. apply andb_true_iff in E as []. lia. Qed.

(** [automaticWindowStartAt] in terms of how many periods have passed. *)
Lemma automaticWindow_eq p period now :
  0 < period < max_int64 ->
  automaticWindowStartAt local s (Some p) period now =
    let a := windowAnchor local s p in
    if (now <? a + period) || negb (a + period <? sub_ExpiresAt s) then None
    else Some (a + Z.min (Z.min max_int64 (now - a) / period)
                     ((Z.min max_int64 (sub_ExpiresAt s - a) - 1) / period) * period).
Proof.
  intros Pp. unfold automaticWindowStartAt. cbv zeta. set (a := windowAnchor local s p).
  destruct (Z.ltb_spec now (a + period)) as [|L1]; [done|].
  destruct (Z.ltb_spec (a + period) (sub_ExpiresAt s)) as [L2|]; [|done]. cbn [negb orb].
  assert (M : 0 < max_int64) by done. assert (M' : min_int64 < 0) by done.
  unfold Sub. rewrite !(Z.max_r min_int64) by lia. rewrite (wrap64_id (Z.min max_int64 (sub_ExpiresAt s - a) - 1)) by (unfold in_int64; lia).
  rewrite !Z.quot_div_nonneg by lia.
  set (x := Z.min max_int64 (now - a) / period). set (y := (Z.min max_int64 (sub_ExpiresAt s - a) - 1) / period).
  assert (X : 0 <= x * period <= max_int64).
  { subst x. pose proof (Z.mul_div_le (Z.min max_int64 (now - a)) period ltac:(lia)).
    pose proof (Z.div_pos (Z.min max_int64 (now - a)) period ltac:(lia) ltac:(lia)). nia. }
  f_equal. f_equal. destruct (Z.ltb_spec y x) as [L|L].
  - rewrite (Z.min_r x y) by lia. rewrite wrap64_id; [done|]. split; [|nia].
    pose proof (Z.div_pos (Z.min max_int64 (sub_ExpiresAt s - a) - 1) period ltac:(lia) ltac:(lia)). subst y. nia.
  - rewrite (Z.min_l x y) by lia. rewrite wrap64_id; [done|]. unfold in_int64. lia.
Qed.

(** A new window starts at least a period after the one it follows. *)
Lemma automaticWindow_later p period now w :
  0 < period < max_int64 -> automaticWindowStartAt local s (Some p) period now = Some w -> p + period <= w.
Proof.
  intros Pp. rewrite automaticWindow_eq by done. cbv zeta. pose proof (windowAnchor_later p) as A.
  set (a := windowAnchor local s p) in *.
  destruct (Z.ltb_spec now (a + period)) as [|L1]; [done|].
  destruct (Z.ltb_spec (a + period) (sub_ExpiresAt s)) as [L2|]; [|done]. cbn [negb orb]. intros [= <-].
  assert (1 <= Z.min max_int64 (now - a) / period) by (apply Z.div_le_lower_bound; lia).
  assert (1 <= (Z.min max_int64 (sub_ExpiresAt s - a) - 1) / period) by (apply Z.div_le_lower_bound; lia).
  nia.
Qed.

(** A new daily window starts at a midnight after the one it follows. *)
Lemma automaticDaily_later p now w :
  automaticDailyWindowStartAt local s (Some p) now = Some w ->
  w = StartOfDay local now /\ p < w < sub_ExpiresAt s.
Proof.
  unfold automaticDailyWindowStartAt. pose proof (windowAnchor_later p).
  destruct (HasOneTimeDailyQuota local s); [done|]. destruct (_ || _) eqn:E; [done|]. intros [= <-].
  apply orb_false_iff in E as [E1 E2]. apply negb_false_iff in E1, E2. split; [done|]. lia.
Qed.

(** C23. A weekly or monthly window rolls over exactly when a later boundary of it (the start
    it is counted from plus a whole number of periods) has been reached that lies before the
    end of the subscription, and then to the last such boundary: windows keep their alignment
    however long a subscription was not used, and none starts at or after its end.  Times are
    within the range of a [Duration] of each other. *)
Theorem automaticWindowStartAt_latest_boundary p period now :
  let a := windowAnchor local s p in
  0 < period < max_int64 -> now - a <= max_int64 -> sub_ExpiresAt s - a <= max_int64 ->
  match automaticWindowStartAt local s (Some p) period now with
  | None => forall k, 1 <= k -> ~ (a + k * period <= now /\ a + k * period < sub_ExpiresAt s)
  | Some w =>
    exists k, 1 <= k /\ w = a + k * period /\ w <= now /\ w < sub_ExpiresAt s /\
    forall j, a + j * period <= now -> a + j * period < sub_ExpiresAt s -> j <= k
  end.
Proof.
  intros a Pp N E. rewrite automaticWindow_eq by done. cbv zeta. fold a.
  destruct (Z.ltb_spec now (a + period)) as [|L1]; [intros k K []; nia|].
  destruct (Z.ltb_spec (a + period) (sub_ExpiresAt s)) as [L2|]; cbn [negb orb]; [|intros k K []; nia].
  rewrite !(Z.min_r max_int64) by lia.
  set (x := (now - a) / period). set (y := (sub_ExpiresAt s - a - 1) / period).
  pose proof (Z.mul_div_le (now - a) period ltac:(lia)) as X. fold x in X.
  pose proof (Z.mul_div_le (sub_ExpiresAt s - a - 1) period ltac:(lia)) as Y. fold y in Y.
  exists (Z.min x y). split_and!; [|done|nia|nia|].
  - apply Z.min_glb; apply Z.div_le_lower_bound; lia.
  - intros j J1 J2. apply Z.min_glb; apply Z.div_le_lower_bound; lia.
Qed.
End Boundaries.

Lemma automaticWindowStartAt_latest_boundary_witness :
  let s := emptySubscription <| sub_StartsAt := 0 |> <| sub_ExpiresAt := 30 * Day |> in
  automaticWindowStartAt UTC s (Some 0) Week (22 * Day) = Some (21 * Day) /\
  exists k, 1 <= k /\ 21 * Day = 0 + k * Week /\ 21 * Day <= 22 * Day /\ 21 * Day < 30 * Day /\
  forall j, 0 + j * Week <= 22 * Day -> 0 + j * Week < 30 * Day -> j <= k.
Proof.
  intros s. assert (E : automaticWindowStartAt UTC s (Some 0) Week (22 * Day) = Some (21 * Day)) by reflexivity.
  split; [exact E|]. pose proof (automaticWindowStartAt_latest_boundary UTC s 0 Week (22 * Day)) as T.
  cbv zeta in T. rewrite E in T. change (windowAnchor UTC s 0) with 0 in T.
  change (sub_ExpiresAt s) with (30 * Day) in T. apply T; [split|..]; vm_compute; first [reflexivity|discriminate].
Defined.

(** ** Maintenance calls *)

Section Polite.
Context `{Postgres} (local : Location).

(** What handlers put into the cache comes from the table, and the resets they ask for move
    a window forward. *)
Definition polite R (c : call R) : Prop :=
  match c with
  | CacheSet _ _ sub => sound sub
  | Sql (ResetUsageIfCurrentUpdate _ _ (Some p) start) => stored p < stored start
  | _ => True
  end.

Ltac behaved := walk_issues ltac:(exact I).

Lemma stored_later p t : p + Microsecond <= t -> stored p < stored t.
Proof.
  intros L. pose proof (stored_mono _ _ L) as M. rewrite stored_shift in M by apply Z.divide_refl.
  unfold Microsecond in M. lia.
Qed.

Lemma stored_midnight p t : whole_opt (Some p) -> p < midnight local t -> stored p < stored (midnight local t).
Proof.
  intros Wp L. rewrite (stored_exact p) by (by apply Wp). rewrite stored_exact; [done|].
  eapply Z.divide_trans; [|apply midnight_whole]. by exists 1000000.
Qed.

Lemma resetIfDue_polite win expected next sub b :
  (forall p t, expected = Some p -> next = Some t -> stored p < stored t) ->
  issues fits polite (resetIfDue win expected next sub b).
Proof.
  intros L. unfold resetIfDue. destruct next as [t|]; [|done]. apply issues_try; [|done].
  assert (X : issues fits polite (resetUsageIfCurrent win (sub_ID sub) expected t)).
  { apply issues_bind.
    - apply issues_query. destruct expected as [p|]; cbn; [by apply L|done].
    - intros n. unfold translateConditionalWindowReset. behaved. }
  by destruct win.
Qed.

Lemma automatic_polite s win period now b :
  Microsecond <= period < max_int64 ->
  forall start, issues fits polite
    (resetIfDue win start (automaticWindowStartAt local s start period now) s b).
Proof.
  intros Pp start. apply resetIfDue_polite. intros p t -> E. apply stored_later.
  apply automaticWindow_later in E; unfold Microsecond in *; lia.
Qed.

Lemma Week_range : Microsecond <= Week < max_int64.
Proof. split; [vm_compute; discriminate|reflexivity]. Qed.
Lemma Month_range : Microsecond <= Month < max_int64.
Proof. split; [vm_compute; discriminate|reflexivity]. Qed.

Lemma CheckAndResetWindows_polite sub : sound sub -> issues fits polite (CheckAndResetWindows local sub).
Proof.
  intros (Sd & _ & _). apply issues_now; [done|]. intros now. cbv zeta. apply issues_try; [|intros d].
  - apply resetIfDue_polite. intros p t E1 E2. destruct (HasOneTimeDailyQuota local sub); [done|].
    rewrite E1 in E2. apply automaticDaily_later in E2 as [-> L]. rewrite E1 in Sd. apply stored_midnight; [done|apply L].
  - apply issues_try; [apply automatic_polite, Week_range|intros w].
    apply issues_try; [apply automatic_polite, Month_range|intros m].
    unfold invalidate. behaved.
Qed.

Lemma maintenance_polite sub : sound sub -> issues fits polite (doWindowMaintenance local sub).
Proof.
  intros S. unfold doWindowMaintenance. apply issues_bind; [|intros _].
  - unfold CheckAndActivateWindow, checkAndActivateWindowAt, ActivateWindows, translateConditionalWindowReset. behaved.
  - apply issues_bind; [by apply CheckAndResetWindows_polite|intros _]. behaved.
Qed.

Lemma correctUsage_sound sub now : sound sub -> sound (correctUsage local sub now).
Proof. intros S. unfold correctUsage. repeat case_match; done. Qed.

Lemma authorize_polite u g group : issues fits polite (authorizeSubscription local u g group).
Proof.
  assert (V : forall sub, sound sub -> issues fits polite
    (currentTime (fun now =>
      let '(needsMaintenance, validateErr, subscription) := ValidateAndCheckLimits local sub group now in
      match validateErr with
      | Some e => Ret (inl e)
      | None => if (needsMaintenance : bool) then
                  let! _m := doWindowMaintenance local subscription in Ret (inr subscription)
                else Ret (inr subscription)
      end))).
  { intros sub S. apply issues_now; [done|]. intros now. unfold ValidateAndCheckLimits.
    do 2 (destruct (_ =s _); [done|]). destruct (negb (now <? _)); [done|]. cbv zeta.
    destruct (CheckUsageLimits _ _ _); [done|]. destruct (_ || _); [|done]. apply issues_bind; [|done]. by apply maintenance_polite, correctUsage_sound. }
  unfold authorizeSubscription, try, GetActiveSubscription. cbn [bind].
  split; [done|]. intros [[sub|]|] F; cbn [default]; [by apply V|..].
  all: split; [done|]; intros [[e|sub]|] F'; cbn [bind]; try done.
  all: split; [done|]; intros _ _; by apply V.
Qed.

Lemma assignWithReuse_polite input : issues fits polite (assignSubscriptionWithReuse local input).
Proof. unfold assignSubscriptionWithReuse, createSubscription, invalidate. behaved. Qed.

Lemma bulkAssignLoop_polite input ids result : issues fits polite (bulkAssignLoop local input ids result).
Proof.
  revert result. induction ids as [|u ids IH]; intros result; [done|]. cbn [bulkAssignLoop].
  apply issues_bind; [apply assignWithReuse_polite|]. intros r. apply IH.
Qed.

Lemma tx_polite {A : Type} (fn : prog (outcome A)) :
  issues fits polite fn -> issues fits polite (withSubscriptionUpdateTx fn).
Proof. intros F. unfold withSubscriptionUpdateTx. behaved. done. Qed.

Lemma start_polite rq : issues fits polite (start local rq).
Proof.
  destruct rq; cbn [start]; try apply issues_bind; try done.
  - apply issues_try; [apply assignWithReuse_polite|done].
  - unfold AssignOrExtendSubscription, updateExistingSubscriptionTerm, createSubscription, invalidate, renewInTx.
    behaved; apply tx_polite; behaved.
  - apply bulkAssignLoop_polite.
  - unfold RevokeSubscription, invalidate. behaved.
  - unfold RestoreSubscription, Restore, invalidate. behaved.
  - unfold ExtendSubscription, invalidate, extendInTx. behaved; apply tx_polite; behaved.
  - unfold AdminResetQuota, invalidate. behaved.
  - apply authorize_polite.
  - unfold RecordUsage, IncrementUsage. behaved.
  - unfold ValidateSubscription. behaved.
Qed.
End Polite.


(** ** Reachable worlds *)

Section Reachable.
Context `{Postgres} (local : Location).

Definition cache_ok (w : sub_world) : Prop := map_Forall (fun _ sub => sound sub) (sw_cache w).

(** The gateway starts on a table in order, with no handler running. *)
Definition initial_sub (w : sub_world) : Prop :=
  db_ok (sw_db w) /\ sw_cache w = ∅ /\ sw_txs w = ∅ /\ sw_threads w = [] /\ sw_commits w = [].

Definition sub_reachable (w : sub_world) : Prop :=
  exists w0, initial_sub w0 /\ rtc (sub_step local) w0 w.

Record world_ok (w : sub_world) : Prop := MkWorldOk {
  ok_inv : inv w;
  ok_cache : cache_ok w;
  ok_threads i rq p : sw_threads w !! i = Some (rq, p) ->
    wp local i rq p anything w /\ issues fits polite p;
  ok_commits : Forall (lawful local) (sw_commits w)
}.

Lemma answers_inv i {R : Type} (c : call R) w r done w' : inv w -> answers i c w r done w' -> inv w'.
Proof.
  intros I An. destruct An; [by apply act_inv| |by apply act_inv].
  destruct c; try done. by apply (act_inv i Rollback).
Qed.

Lemma answers_rely i j {R : Type} (c : call R) w r done w' :
  inv w -> i <> j -> answers i c w r done w' -> rely j w w'.
Proof.
  intros I N An. destruct An; [by apply act_rely| |by apply act_rely].
  destruct c; try apply thread_rely_refl. by apply (act_rely i j Rollback).
Qed.

Lemma rows_sound db r :
  db_ok db -> (exists id, sd_subs db !! id = Some r) -> forall b, sound (userSubscriptionEntityToService b db r).
Proof.
  intros T [id E] b. destruct (T _ _ E) as [[_ _ _ _ W] _].
  split; [apply (W subscriptionWindowDaily)|split; [apply (W subscriptionWindowWeekly)|apply (W subscriptionWindowMonthly)]].
Qed.

Lemma rowsWhere_in db f r : In r (rowsWhere db f) -> exists id, sd_subs db !! id = Some r.
Proof.
  intros X. apply filter_In in X as [X _]. apply in_map_iff in X as ([id r'] & <- & X).
  exists id. by apply elem_of_map_to_list, list_elem_of_In.
Qed.

Lemma answers_fits i {R : Type} (c : call R) w r done w' :
  inv w -> cache_ok w -> answers i c w r done w' -> fits R c r.
Proof.
  intros I C An. destruct c as [| | | |R s| | | |]; try done.
  - destruct s; try done. cbn. inversion An; subst; try done. cbn.
    destruct (rowsWhere _ _) as [|x [|]] eqn:X; cbn; try done.
    apply rows_sound; [by apply view_ok|]. eapply rowsWhere_in. rewrite X. by left.
  - cbn. inversion An; subst; try done. cbn. destruct (sw_cache w !! _) as [sub|] eqn:X; [|done]. by apply (C _ _ X).
Qed.

Lemma answers_cache i {R : Type} (c : call R) w r done w' :
  cache_ok w -> polite R c -> answers i c w r done w' -> cache_ok w'.
Proof.
  intros C Po An. assert (A : cache_ok (act i c w).2).
  { destruct c; cbn; try done.
    - unfold commitTx. by destruct (sw_txs w !! i).
    - unfold after_stmt. by destruct (sw_txs w !! i).
    - by apply map_Forall_insert_2.
    - by apply map_Forall_delete. }
  destruct An; try done. by destruct c.
Qed.

Lemma answers_clock i {R : Type} (c : call R) w r done w' :
  answers i c w r done w' -> sw_clock w' = sw_clock w /\ sw_threads w' = sw_threads w /\
    sw_commits w' = sw_commits w /\ sw_spent w' = sw_spent w /\ sw_resets w' = sw_resets w.
Proof.
  intros An. assert (A : sw_clock (act i c w).2 = sw_clock w /\ sw_threads (act i c w).2 = sw_threads w /\
    sw_commits (act i c w).2 = sw_commits w /\ sw_spent (act i c w).2 = sw_spent w
    /\ sw_resets (act i c w).2 = sw_resets w).
  { destruct c; cbn; try done.
    - unfold commitTx. by destruct (sw_txs w !! i).
    - unfold after_stmt. by destruct (sw_txs w !! i). }
  destruct An; try done. by destruct c.
Qed.

Lemma book_same i rq {R : Type} (c : call R) done w w' :
  let w2 := book i rq c done w w' in
  sw_clock w2 = sw_clock w' /\ sw_db w2 = sw_db w' /\ sw_cache w2 = sw_cache w' /\ sw_txs w2 = sw_txs w'
  /\ sw_threads w2 = sw_threads w'.
Proof. unfold book. destruct (negb done); [done|]. destruct c, (sw_txs w !! i); done. Qed.

Lemma book_commits i rq {R : Type} (c : call R) done w w' :
  commit_ok local rq i c w -> Forall (lawful local) (sw_commits w) -> sw_commits w' = sw_commits w ->
  Forall (lawful local) (sw_commits (book i rq c done w w')).
Proof.
  intros K F E. unfold book. unfold commit_ok in K. destruct (negb done); [by rewrite E|].
  destruct c, (sw_txs w !! i); cbn; rewrite ?E; try done. by apply Forall_app.
Qed.

Lemma step_world_ok w w' : world_ok w -> sub_step local w w' -> world_ok w'.
Proof.
  intros [I C T L] St. destruct St as [w t Lt|w rq|w u g|w i rq p E|w i rq R c k r done w' E An].
  - constructor; [by apply (inv_fields w)|done| |done]. intros i rq p E. destruct (T _ _ _ E) as [W P].
    split; [|done]. eapply wp_rely; [done|]. by apply rely_fields.
  - constructor; [by apply (inv_fields w)|done| |done]. intros i rq' p E. cbn in E.
    apply lookup_app_Some in E as [E|[_ E]].
    + destruct (T _ _ _ E) as [W P]. split; [|done]. eapply wp_rely; [done|]. by apply rely_fields.
    + apply list_lookup_singleton_Some in E as [_ [= <- <-]]. split; [apply start_ok|apply start_polite].
  - constructor; [by apply (inv_fields w)|by apply map_Forall_delete| |done]. intros i rq p E.
    destruct (T _ _ _ E) as [W P]. split; [|done]. eapply wp_rely; [done|]. by apply rely_fields.
  - constructor; [|done| |done].
    + apply (inv_fields (rollbackTx i w)); [by apply (act_inv i Rollback)|done..].
    + intros j rq' q E'. cbn in E'. destruct (decide (i = j)) as [->|N].
      * rewrite list_lookup_insert_eq in E' by (by eapply lookup_lt_Some). by simplify_eq.
      * rewrite list_lookup_insert_ne in E' by done. destruct (T _ _ _ E') as [W P]. split; [|done].
        eapply wp_rely; [done|]. eapply thread_rely_trans; [by apply (act_rely i j Rollback)|by apply rely_fields].
  - destruct (T _ _ _ E) as [W [Po P]]. destruct (W w (thread_rely_refl i w) I) as [K W'].
    pose proof (answers_inv _ _ _ _ _ _ I An) as I'. destruct (answers_clock _ _ _ _ _ _ An) as (A1 & A2 & A3 & _).
    destruct (book_same i rq c done w w') as (B1 & B2 & B3 & B4 & B5).
    assert (Sm : forall j, rely j w' (continue_ i rq (k r) (book i rq c done w w'))).
    { intros j. apply rely_fields; cbn; [done|done|by rewrite B1]. }
    constructor.
    + by apply (inv_fields w').
    + unfold cache_ok. cbn. rewrite B3. by eapply answers_cache.
    + intros j rq' q E'. cbn in E'. rewrite B5, A2 in E'. destruct (decide (i = j)) as [->|N].
      * rewrite list_lookup_insert_eq in E' by (by eapply lookup_lt_Some). simplify_eq. split.
        -- eapply wp_rely; [|apply Sm]. by eapply W'.
        -- apply P. eapply answers_fits; [exact I|exact C|exact An].
      * rewrite list_lookup_insert_ne in E' by done. destruct (T _ _ _ E') as [Wj Pj]. split; [|done].
        eapply wp_rely; [done|]. eapply thread_rely_trans; [by eapply answers_rely|apply Sm].
    + cbn. by apply book_commits.
Qed.

Lemma initial_world_ok w : initial_sub w -> world_ok w.
Proof.
  intros (T & C & X & Th & L). constructor.
  - constructor; [done|..]; rewrite X.
    + intros i p Y. by rewrite lookup_empty in Y.
    + intros i j p q id _ Y. by rewrite lookup_empty in Y.
  - unfold cache_ok. rewrite C. apply map_Forall_empty.
  - by intros i rq p; rewrite Th.
  - by rewrite L.
Qed.

Lemma subs_reachable_ok w : sub_reachable w -> world_ok w.
Proof.
  intros (w0 & I & S). apply initial_world_ok in I. induction S as [|w1 w2 w3 S1 S2 IH]; [done|].
  apply IH. by eapply step_world_ok.
Qed.
End Reachable.

(** ** Usage is not lost *)

Section Usage.
Context `{Postgres} (local : Location).

Definition spent (w : sub_world) (id : Z) : Z := default 0 (sw_spent w !! id).
Definition manual (w : sub_world) (id : Z) : Z := default 0 (sw_resets w !! id).

(** Windows that have not started come before those that have. *)
Definition earlier (a b : option Z) : Prop :=
  match a, b with None, _ => True | Some x, Some y => x <= y | Some _, None => False end.

Lemma earlier_refl a : earlier a a.
Proof. destruct a; cbn; [lia|done]. Qed.

Lemma earlier_trans a b c : earlier a b -> earlier b c -> earlier a c.
Proof. destruct a, b, c; cbn; try done; lia. Qed.

Lemma earlier_antisym a b : earlier a b -> earlier b a -> a = b.
Proof. destruct a, b; cbn; try done. intros. f_equal. lia. Qed.

(** [r'] is what became of [r] after [n] was recorded: the window was kept with its usage or
    it moved on. *)
Definition moved_on (win : subscriptionWindow) (n : Z) (r r' : us_row) : Prop :=
  earlier (windowStart win r) (windowStart win r') /\
  (windowStart win r = windowStart win r' -> windowUsage win r' = windowUsage win r + n).

Lemma moved_on_same win r r' :
  windowStart win r' = windowStart win r -> windowUsage win r' = windowUsage win r -> moved_on win 0 r r'.
Proof. intros E1 E2. split; [rewrite E1; apply earlier_refl|]. rewrite E2. lia. Qed.

Definition recorded (o : option (Z * numeric)) (id : Z) : Z :=
  match o with Some (id', n) => if id' =? id then n else 0 | None => 0 end.

Lemma updateOneID_moved now id f db k r win :
  (forall x, windowStart win (f x) = windowStart win x /\ windowUsage win (f x) = windowUsage win x) ->
  sd_subs db !! k = Some r ->
  exists r', sd_subs (updateOneID now id f db).2 !! k = Some r' /\ moved_on win 0 r r'.
Proof.
  intros F E. unfold updateOneID. destruct (sd_subs db !! id) as [x|] eqn:X; [|eauto using moved_on_same].
  cbn. destruct (decide (id = k)) as [->|N].
  - rewrite lookup_insert_eq. eexists. split; [done|]. simplify_eq. destruct (F r) as [F1 F2].
    apply moved_on_same; [rewrite <-F1|rewrite <-F2]; by destruct win.
  - rewrite lookup_insert_ne by done. eauto using moved_on_same.
Qed.

Lemma updateWhere_moved now id p f db k r win :
  (forall x, p x = true -> moved_on win 0 x (f x)) -> sd_subs db !! k = Some r ->
  exists r', sd_subs (updateWhere now id p f db).2 !! k = Some r' /\ moved_on win 0 r r'.
Proof.
  intros F E. unfold updateWhere. destruct (sd_subs db !! id) as [x|] eqn:X; [|eauto using moved_on_same].
  destruct (p x) eqn:Px; [|eauto using moved_on_same]. cbn. destruct (decide (id = k)) as [->|N].
  - rewrite lookup_insert_eq. eexists. split; [done|]. simplify_eq. specialize (F r Px).
    by destruct win.
  - rewrite lookup_insert_ne by done. eauto using moved_on_same.
Qed.

Lemma restart_moved win win' t r :
  (win' = win -> exists p, windowStart win r = Some p /\ p < t) \/ (win' = win -> windowStart win r = None) ->
  moved_on win 0 r (restartWindow win' t r).
Proof.
  intros M. destruct (decide (win' = win)) as [->|N].
  - assert (E : windowStart win (restartWindow win t r) = Some t) by (by destruct win).
    unfold moved_on. rewrite E. destruct M as [M|M].
    + destruct (M eq_refl) as (p & -> & L). cbn. split; [lia|]. intros [= ->]. lia.
    + rewrite (M eq_refl). done.
  - apply moved_on_same; by destruct win, win'.
Qed.

Lemma increment_moved now id cost db k r win :
  sd_subs db !! k = Some r ->
  exists r', sd_subs (incrementStmt now id cost db).2 !! k = Some r' /\
    moved_on win (recorded (spends (IncrementUsageUpdate id cost) db now) k) r r'.
Proof.
  intros E. cbn. unfold incrementStmt. destruct (numeric_of cost) as [n|]; [|cbn; eauto using moved_on_same].
  destruct (sd_subs db !! id) as [x|] eqn:X; [|cbn; eauto using moved_on_same].
  destruct (_ || _); [cbn; eauto using moved_on_same|]. cbv zeta.
  destruct (_ && _); [|cbn; eauto using moved_on_same]. cbn.
  destruct (Z.eqb_spec id k) as [->|N].
  - rewrite lookup_insert_eq. eexists. split; [done|]. simplify_eq.
    split; [destruct win; apply earlier_refl|by destruct win].
  - rewrite lookup_insert_ne by done. eauto using moved_on_same.
Qed.

(** A statement outside a transaction. *)
Lemma stmt_moved now {R : Type} (s : stmt R) db k r win :
  db_ok db -> polite _ (Sql s) -> sd_subs db !! k = Some r ->
  exists r', sd_subs (run_stmt now s db).2 !! k = Some r' /\
    (resets s <> Some k -> moved_on win (recorded (spends s db now) k) r r').
Proof.
  intros T Po E.
  assert (Fix : forall (t : gmap Z us_row) (n : Z), (exists r', t !! k = Some r' /\ moved_on win n r r') ->
    exists r', t !! k = Some r' /\ (resets s <> Some k -> moved_on win n r r')) by (intros t n (r' & ? & ?); eauto).
  destruct s; cbn [run_stmt snd spends recorded] in *; try (by apply Fix; eauto using moved_on_same).
  all: try (apply Fix, updateOneID_moved; [by intros x; destruct win|done]).
  all: try (by apply Fix, increment_moved).
  - apply Fix. unfold createStmt. destruct (createRow _ _ _) as [x|] eqn:X; [|eauto using moved_on_same].
    destruct (negb _); [eauto using moved_on_same|]. destruct (duplicate _ _); [eauto using moved_on_same|].
    cbn. apply createRow_ok, row_id in X. rewrite X. rewrite lookup_insert_ne; [eauto using moved_on_same|].
    destruct (T _ _ E). lia.
  - unfold updateStmt. destruct (sd_subs db !! sub_ID sub) as [x|] eqn:X; [|eauto using moved_on_same].
    destruct (updateRow _ _ _); [|eauto using moved_on_same]. destruct (negb _); [eauto using moved_on_same|].
    destruct (duplicate _ _); [eauto using moved_on_same|]. cbn. destruct (decide (sub_ID sub = k)) as [->|N].
    + rewrite lookup_insert_eq. by eexists.
    + rewrite lookup_insert_ne by done. eauto using moved_on_same.
  - apply Fix, updateWhere_moved; [|done]. intros x _. by apply moved_on_same; destruct win.
  - apply Fix. unfold restoreStmt. destruct (sd_subs db !! id) as [x|] eqn:X; [|eauto using moved_on_same].
    cbv zeta. destruct (duplicate _ _); [eauto using moved_on_same|]. cbn. destruct (decide (id = k)) as [->|N].
    + rewrite lookup_insert_eq. eexists. split; [done|]. simplify_eq. by apply moved_on_same; destruct win.
    + rewrite lookup_insert_ne by done. eauto using moved_on_same.
  - apply Fix, updateWhere_moved; [|done]. intros x Nx. unfold notActivated in Nx.
    apply andb_true_iff in Nx as [[N1%bool_decide_eq_true N2%bool_decide_eq_true]%andb_true_iff N3%bool_decide_eq_true].
    unfold moved_on. destruct win; cbn; rewrite ?N1, ?N2, ?N3; done.
  - apply Fix, updateWhere_moved; [|done]. intros x Cx%bool_decide_eq_true. apply restart_moved.
    destruct expected as [p|]; cbn in Cx, Po; [left|right]; intros <-; [|done]. by exists (stored p).
  - unfold updateOneID. destruct (sd_subs db !! id) as [x|] eqn:X; [|eauto using moved_on_same]. cbn.
    destruct (decide (id = k)) as [->|N]; [rewrite lookup_insert_eq; by eexists|].
    rewrite lookup_insert_ne by done. eauto using moved_on_same.
  - apply Fix. cbn. rewrite lookup_fmap, E. cbn. eexists. split; [done|].
    destruct (expiredNow now r); by apply moved_on_same; destruct win.
Qed.

(** What happened to the quota of a subscription from one world to a later one. *)
Definition accounts (win : subscriptionWindow) (id : Z) (w w' : sub_world) : Prop :=
  forall r, rows w !! id = Some r -> exists r', rows w' !! id = Some r' /\ manual w id <= manual w' id /\
  (manual w id = manual w' id -> moved_on win (spent w' id - spent w id) r r').

Lemma accounts_same win id w w' :
  sw_db w' = sw_db w -> sw_spent w' = sw_spent w -> sw_resets w' = sw_resets w -> accounts win id w w'.
Proof.
  intros E1 E2 E3 r E. exists r. unfold manual, spent. rewrite E1, E2, E3. split; [done|]. split; [lia|].
  intros _. rewrite Z.sub_diag. by apply moved_on_same.
Qed.

Lemma moved_on_trans win m n r1 r2 r3 :
  moved_on win m r1 r2 -> moved_on win n r2 r3 -> moved_on win (m + n) r1 r3.
Proof.
  intros [E1 U1] [E2 U2]. split; [by eapply earlier_trans|]. intros E.
  assert (X : windowStart win r1 = windowStart win r2).
  { apply earlier_antisym; [done|]. by rewrite E. }
  rewrite U2, U1 by congruence. lia.
Qed.

Lemma accounts_trans win id w1 w2 w3 : accounts win id w1 w2 -> accounts win id w2 w3 -> accounts win id w1 w3.
Proof.
  intros A1 A2 r E. destruct (A1 r E) as (r2 & E2 & M2 & K2). destruct (A2 r2 E2) as (r3 & E3 & M3 & K3).
  exists r3. split; [done|]. split; [lia|]. intros M.
  replace (spent w3 id - spent w1 id) with ((spent w2 id - spent w1 id) + (spent w3 id - spent w2 id)) by lia.
  eapply moved_on_trans; [apply K2|apply K3]; lia.
Qed.

Lemma count_lookup n id m k : default 0 (count n id m !! k) = default 0 (m !! k) + (if id =? k then n else 0).
Proof.
  unfold count. destruct (Z.eqb_spec id k) as [->|N]; [by rewrite lookup_insert_eq|].
  rewrite lookup_insert_ne by done. lia.
Qed.

Lemma counts_lookup ids m k :
  default 0 (m !! k) <= default 0 (foldr (count 1) m ids !! k) /\
  (In k ids -> default 0 (m !! k) < default 0 (foldr (count 1) m ids !! k)).
Proof.
  induction ids as [|id ids [I1 I2]]; [split; [cbn; lia|done]|]. cbn [foldr]. rewrite count_lookup. split.
  - destruct (id =? k); lia.
  - intros [->|I]; [rewrite Z.eqb_refl; lia|]. specialize (I2 I). destruct (id =? k); lia.
Qed.

Lemma quota_window win r r' :
  quota r = quota r' -> windowStart win r' = windowStart win r /\ windowUsage win r' = windowUsage win r.
Proof. intros [= ? ? ? ? ? ?]. by destruct win. Qed.

(** Committing a transaction. *)
Lemma commit_accounts i rq w win id :
  accounts win id w (book i rq Commit true w (commitTx i w)).
Proof.
  unfold book, commitTx. cbn. destruct (sw_txs w !! i) as [p|] eqn:X; [|by apply accounts_same].
  intros r E. unfold manual, spent. cbn. destruct (counts_lookup (renewed w p) (sw_resets w) id) as [M1 M2].
  destruct (p !! id) as [r'|] eqn:Y.
  - exists r'. split; [by apply lookup_union_Some_l|]. split; [done|]. intros M.
    rewrite Z.sub_diag. destruct (decide (quota r = quota r')) as [Q|Q].
    + by apply moved_on_same; apply quota_window.
    + exfalso. assert (I : In id (renewed w p)); [|specialize (M2 I); lia].
      apply in_map_iff. exists (id, r'). split; [done|]. apply filter_In. split.
      * by apply list_elem_of_In, elem_of_map_to_list.
      * cbn. apply bool_decide_eq_true. rewrite E. cbn. congruence.
  - exists r. split; [by rewrite lookup_union_r|]. split; [done|]. intros _. rewrite Z.sub_diag. by apply moved_on_same.
Qed.

(** A statement. *)
Lemma sql_accounts i rq {R : Type} (s : stmt R) w win id :
  inv w -> polite _ (Sql s) -> accounts win id w (book i rq (Sql s) true w (act i (Sql s) w).2).
Proof.
  intros I Po. cbn. unfold book, after_stmt, view. cbn. destruct (sw_txs w !! i) as [p|] eqn:X; cbn.
  - intros r E. exists r. unfold manual, spent. cbn. split; [done|]. split; [lia|].
    intros _. rewrite Z.sub_diag. by apply moved_on_same.
  - intros r E. destruct (stmt_moved (sw_clock w) s (sw_db w) id r win (inv_table _ I) Po E) as (r' & E' & M).
    exists r'. unfold manual, spent. cbn. split; [done|].
    assert (Sp : default 0 ((match spends s (sw_db w) (sw_clock w) with
              | Some (id', n) => count n id' (sw_spent w) | None => sw_spent w end) !! id)
              - default 0 (sw_spent w !! id) = recorded (spends s (sw_db w) (sw_clock w)) id).
    { destruct (spends _ _ _) as [[id' n]|]; cbn; [rewrite count_lookup|]; lia. }
    rewrite Sp. destruct (resets s) as [id'|]; [|split; [lia|by intros _; apply M]].
    rewrite count_lookup. destruct (Z.eqb_spec id' id) as [->|N]; split; try lia. intros _. apply M. congruence.
Qed.

Lemma answers_accounts i rq {R : Type} (c : call R) w r done w' win id :
  inv w -> polite _ c -> answers i c w r done w' -> accounts win id w (book i rq c done w w').
Proof.
  intros I Po An.
  assert (A : accounts win id w (book i rq c true w (act i c w).2)).
  { destruct c; try by apply accounts_same.
    - apply commit_accounts.
    - by apply sql_accounts. }
  destruct An as [En|Fa|Am En]; [done| |done]. by destruct c; apply accounts_same.
Qed.

Lemma step_accounts w w' win id : world_ok local w -> sub_step local w w' -> accounts win id w w'.
Proof.
  intros O St. destruct St as [w t Lt|w rq|w u g|w i rq p E|w i rq R c k r done w' E An];
    try by apply accounts_same.
  destruct (ok_threads _ _ O _ _ _ E) as [_ [Po _]].
  eapply accounts_trans; [by eapply answers_accounts; [apply (ok_inv _ _ O)|..]|by apply accounts_same].
Qed.

Lemma steps_accounts w w' win id : world_ok local w -> rtc (sub_step local) w w' -> accounts win id w w'.
Proof.
  intros O S. induction S as [w|w1 w2 w3 S1 S2 IH]; [by apply accounts_same|].
  eapply accounts_trans; [by apply step_accounts|]. apply IH. by eapply step_world_ok.
Qed.

(** C13. Recorded usage is not lost.  Whatever handlers run at the same time (requests whose
    maintenance works on outdated copies, usage records, renewals, adjustments, sweeps, with
    lost calls and crashes), as long as the quota of a subscription is not reset by hand or by
    a new term, each of its windows only moves forward, and while a window stays the same its
    usage is what it was plus everything recorded since: no maintenance run clears a window
    that another one has already moved on. *)
Theorem usage_is_not_lost w w' win id r :
  sub_reachable local w -> rtc (sub_step local) w w' -> rows w !! id = Some r -> manual w' id = manual w id ->
  exists r', rows w' !! id = Some r' /\ earlier (windowStart win r) (windowStart win r') /\
  (windowStart win r' = windowStart win r -> windowUsage win r' = windowUsage win r + (spent w' id - spent w id)).
Proof.
  intros Re S E M. destruct (steps_accounts w w' win id (subs_reachable_ok _ _ Re) S r E) as (r' & E' & _ & K).
  exists r'. split; [done|]. destruct (K (eq_sym M)) as [K1 K2]. split; [done|]. intros X. by apply K2.
Qed.

(** C12. Renewals and adjustments of a subscription add up: every transaction that was
    committed replaced a row by exactly what its request makes of that very row (the expiry
    prolonged by its days, or a new term from the time it read for an expired subscription,
    never past the year 2099), however many of them ran at the same time and whatever calls
    were lost; no renewal is computed from a row that another one has replaced since. *)
Theorem renewals_are_serialized w cm :
  sub_reachable local w -> cm ∈ sw_commits w -> lawful local cm.
Proof. intros Re X. by eapply Forall_forall; [apply (ok_commits _ _ (subs_reachable_ok _ _ Re))|]. Qed.
End Usage.

(** ** Runs of the machine

    [play] makes the moves that are possible and skips the others. *)

Inductive move :=
  | Tick (t : Z)
  | Serve (rq : sub_request)
  | Go (i : nat)
  | Lose (i : nat).

Section Play.
Context `{Postgres} (local : Location).

Definition enabledb (i : nat) {R : Type} (c : call R) (w : sub_world) : bool :=
  match c with
  | Sql s =>
    forallb (fun e => Nat.eqb e.1 i
                      || forallb (fun id => bool_decide (e.2 !! id = None)) (elements (locks (sw_clock w) s (view i w))))
      (map_to_list (sw_txs w))
  | _ => true
  end.

Lemma enabledb_sound i {R : Type} (c : call R) w : enabledb i c w = true -> enabled i c w.
Proof.
  destruct c; cbn; try done. intros F id L (j & p & E & N & [r X]). rewrite forallb_forall in F.
  specialize (F (j, p)). cbn in F.
  assert (Y : Nat.eqb j i || forallb (fun id => bool_decide (p !! id = None)) (elements (locks (sw_clock w) s (view i w))) = true).
  { apply F, list_elem_of_In, elem_of_map_to_list, E. }
  destruct (Nat.eqb_spec j i); [done|]. cbn in Y. rewrite forallb_forall in Y.
  specialize (Y id ltac:(by apply list_elem_of_In, elem_of_elements)). apply bool_decide_eq_true in Y. congruence.
Qed.

Definition play1 (w : sub_world) (m : move) : sub_world :=
  match m with
  | Tick t => if sw_clock w <=? t then w <| sw_clock := t |> else w
  | Serve rq => w <| sw_threads := sw_threads w ++ [(rq, start local rq)] |>
  | Go i =>
    match sw_threads w !! i with
    | Some (rq, Do c k) =>
      if enabledb i c w then
        let a := act i c w in continue_ i rq (k (Some a.1)) (book i rq c true w a.2)
      else w
    | _ => w
    end
  | Lose i =>
    match sw_threads w !! i with
    | Some (rq, Do c k) =>
      if fallible c then continue_ i rq (k None) (book i rq c false w (match c with Commit => rollbackTx i w | _ => w end))
      else w
    | _ => w
    end
  end.

Definition play (ms : list move) (w : sub_world) : sub_world := foldl play1 w ms.

Lemma play1_steps w m : rtc (sub_step local) w (play1 w m).
Proof.
  destruct m as [t|rq|i|i]; cbn [play1].
  - destruct (Z.leb_spec (sw_clock w) t); [|done]. by apply rtc_once, step_tick.
  - apply rtc_once, step_start.
  - destruct (sw_threads w !! i) as [[rq [|R c k]]|] eqn:E; try done. destruct (enabledb i c w) eqn:En; [|done].
    apply rtc_once. eapply (step_call local w i rq R c k); [done|]. apply call_fine. by apply enabledb_sound.
  - destruct (sw_threads w !! i) as [[rq [|R c k]]|] eqn:E; try done. destruct (fallible c) eqn:Fa; [|done].
    apply rtc_once. eapply (step_call local w i rq R c k); [done|]. by apply call_lost.
Qed.

Lemma play_steps ms w : rtc (sub_step local) w (play ms w).
Proof.
  revert w. induction ms as [|m ms IH]; intros w; [done|]. cbn. eapply rtc_trans; [apply play1_steps|apply IH].
Qed.
End Play.

(** A database that cuts timestamps and decimals off. *)
Definition cut_numeric (x : float64) : option Z :=
  match x with
  | S754_zero _ => Some 0
  | S754_finite s m e =>
    let v := if 0 <=? e then Zpos m * 2 ^ e * 10 ^ 10 else Zpos m * 10 ^ 10 / 2 ^ (- e) in
    if fits_numeric v then Some (if s then - v else v) else None
  | _ => None
  end.

Lemma cut_shift t d : (Microsecond | d) -> (t + d) / Microsecond * Microsecond = t / Microsecond * Microsecond + d.
Proof. intros [k ->]. rewrite Z.div_add by done. lia. Qed.

#[export] Instance cutting_postgres : Postgres.
Proof.
  refine {| stored t := t / Microsecond * Microsecond; numeric_of := cut_numeric |}.
  - intros t. by exists (t / Microsecond).
  - intros t [k ->]. by rewrite Z.div_mul.
  - intros t d D. by apply cut_shift.
  - intros t u L. apply Z.mul_le_mono_nonneg_r; [done|]. by apply Z.div_le_mono.
  - done.
Defined.

(** A table with one user, one group and one subscription, at the start of day [d]. *)
Definition sample_group : Group := MkGroup 7 "pro" SubscriptionTypeSubscription None (Some (float_of_Z 10)) None.
Definition sample_row : us_row :=
  {| us_GeminiCachePending := 0; us_GeminiCacheGeneration := 0; us_ID := 1; us_UserID := 5; us_GroupID := 7;
     us_StartsAt := 0; us_ExpiresAt := 30 * Day; us_Status := SubscriptionStatusActive;
     us_DailyWindowStart := Some 0; us_WeeklyWindowStart := Some 0; us_MonthlyWindowStart := Some 0;
     us_DailyUsageUsd := 30000000000; us_WeeklyUsageUsd := 30000000000; us_MonthlyUsageUsd := 30000000000;
     us_AssignedBy := None; us_AssignedAt := 0; us_Notes := None; us_CreatedAt := 0; us_UpdatedAt := 0;
     us_DeletedAt := None |}.
Definition sample_db : sdb := MkSdb {[ 5 ]} {[ 7 := (sample_group, false) ]} {[ 1 := sample_row ]} 2.
Definition sample_world (t : Z) : sub_world := MkSubWorld t sample_db ∅ ∅ [] ∅ ∅ [].

Lemma sample_table : db_ok sample_db.
Proof.
  apply map_Forall_singleton. split; [|done]. constructor; try done; try (by apply Z.divide_0_r).
  - exists (30 * 86400 * 1000000). reflexivity.
  - intros [] x [= <-]; apply Z.divide_0_r.
Qed.

Lemma sample_initial t : initial_sub (sample_world t).
Proof. split; [apply sample_table|done]. Qed.

Lemma played t ms : sub_reachable UTC (play UTC ms (sample_world t)).
Proof. exists (sample_world t). split; [apply sample_initial|apply play_steps]. Qed.

(** Two renewals that begin before either of them has locked the row. *)
Definition two_renewals : list move :=
  [Serve (ReqAssignOrExtend (MkAssign 5 7 10 0 "a")); Serve (ReqAssignOrExtend (MkAssign 5 7 20 0 "b"));
   Go 0; Go 1; Go 0; Go 1; Go 0; Go 1; Go 0; Go 1] ++ repeat (Go 0) 9 ++ repeat (Go 1) 10.

Lemma renewals_are_serialized_witness :
  let w := play UTC two_renewals (sample_world Day) in
  map (fun cm => us_ExpiresAt (cm_new cm) / Day) (sw_commits w) = [40; 60] /\
  forall cm, cm ∈ sw_commits w -> lawful UTC cm.
Proof.
  intros w. split; [vm_compute; reflexivity|]. intros cm X. apply (renewals_are_serialized UTC w cm); [apply played|exact X].
Defined.

(** Two requests find the windows over; the second one maintains them after the first one
    has and usage was recorded. *)
Definition two_maintenances : list move :=
  [Serve (ReqAuthorize 5 7 sample_group); Serve (ReqAuthorize 5 7 sample_group)] ++ repeat (Go 0) 3 ++ repeat (Go 1) 3
  ++ repeat (Go 0) 6.
Definition usage_between : list move :=
  [Serve (ReqRecordUsage 1 (float_of_Z 2)); Go 2] ++ repeat (Go 1) 10.

Definition maintained_world : sub_world := play UTC two_maintenances (sample_world (8 * Day + 5 * Hour)).
Definition used_world : sub_world := play UTC usage_between maintained_world.
Definition maintained_row : us_row := default sample_row (rows maintained_world !! 1).
Definition used_row : us_row := default sample_row (rows used_world !! 1).

Lemma sample_windows :
  rows maintained_world !! 1 = Some maintained_row /\ rows used_world !! 1 = Some used_row /\
  manual used_world 1 = manual maintained_world 1 /\ spent used_world 1 - spent maintained_world 1 = 20000000000 /\
  windowStart subscriptionWindowWeekly maintained_row = Some Week /\
  windowStart subscriptionWindowWeekly used_row = Some Week /\
  windowUsage subscriptionWindowWeekly maintained_row = 0.
Proof. vm_compute. repeat split. Qed.

Lemma usage_is_not_lost_witness :
  rows maintained_world !! 1 = Some maintained_row /\ rows used_world !! 1 = Some used_row /\
  windowStart subscriptionWindowWeekly maintained_row = Some Week /\
  windowUsage subscriptionWindowWeekly maintained_row = 0 /\
  windowUsage subscriptionWindowWeekly used_row = 20000000000.
Proof.
  destruct sample_windows as (E & E' & M & U & S & S' & U0). split; [exact E|]. split; [exact E'|].
  split; [exact S|]. split; [exact U0|].
  destruct (usage_is_not_lost UTC maintained_world used_world subscriptionWindowWeekly 1 maintained_row
              (played _ _) (play_steps UTC _ _) E M) as (r' & Er & _ & K).
  assert (X : r' = used_row) by congruence. rewrite X in K. rewrite K, U0, U; [reflexivity|congruence].
Defined.
