(* ===== verification/SubscriptionsSequential.v ===== *)
(** * Single subscription handlers

    Handlers that run alone and without faults: the check of limits in memory against the
    maintenance of the table, assignment, revocation and restoring. *)

From Stdlib Require Import SpecFloat.
From S2P Require Import Prelude GoStrings GoFloat GoTime Programs Subscriptions SubscriptionsMachine SubscriptionsProofs.

#[local] Open Scope Z_scope.

Section Solo.
Context `{Postgres} (local : Location).

Definition solo {A : Type} (p : prog A) (w : sub_world) : A * sub_world := alone (fun R c => act 0 c) p w.

(** No transaction is open. *)
Definition quietly (w : sub_world) : Prop := sw_txs w = ∅.

Lemma solo_bind {A B : Type} (p : prog A) (f : A -> prog B) w :
  solo (bind p f) w = solo (f (solo p w).1) (solo p w).2.
Proof. unfold solo. by rewrite alone_bind. Qed.

Lemma solo_try {A B : Type} (p : prog (outcome A)) (f : A -> prog (outcome B)) w :
  solo (try p f) w =
    match (solo p w).1 with inl e => (inl e, (solo p w).2) | inr a => solo (f a) (solo p w).2 end.
Proof. unfold try. rewrite solo_bind. by destruct (solo p w).1. Qed.

Lemma solo_query {R : Type} (s : stmt R) w :
  quietly w -> solo (query s) w =
    (inr (run_stmt (sw_clock w) s (sw_db w)).1, w <| sw_db := (run_stmt (sw_clock w) s (sw_db w)).2 |>).
Proof. intros Q. unfold solo, query, after_stmt, view. cbn. unfold view, after_stmt. rewrite Q. done. Qed.

Lemma solo_exec {R : Type} (s : stmt (outcome R)) w :
  quietly w -> solo (exec s) w =
    ((run_stmt (sw_clock w) s (sw_db w)).1, w <| sw_db := (run_stmt (sw_clock w) s (sw_db w)).2 |>).
Proof. intros Q. unfold solo, exec. cbn. unfold view, after_stmt. rewrite Q. done. Qed.

Lemma solo_now {A : Type} (f : Z -> prog A) w : solo (currentTime f) w = solo (f (sw_clock w)) w.
Proof. done. Qed.

Lemma solo_ret {A : Type} (a : A) w : solo (Ret a) w = (a, w).
Proof. done. Qed.

(** The database changes, everything else but the cache stays. *)
Definition only_db (w : sub_world) (db : sdb) (w' : sub_world) : Prop :=
  sw_db w' = db /\ sw_clock w' = sw_clock w /\ sw_txs w' = sw_txs w.

Lemma invalidate_solo u g w : exists w', solo (invalidate u g) w = (tt, w') /\ only_db w (sw_db w) w'.
Proof. eexists. split; [reflexivity|]. done. Qed.

(** ** Maintenance *)

Definition due (win : subscriptionWindow) (sub : UserSubscription) (now : Z) : option Z :=
  match win with
  | subscriptionWindowDaily =>
    if HasOneTimeDailyQuota local sub then None
    else automaticDailyWindowStartAt local sub (sub_DailyWindowStart sub) now
  | subscriptionWindowWeekly => automaticWindowStartAt local sub (sub_WeeklyWindowStart sub) Week now
  | subscriptionWindowMonthly => automaticWindowStartAt local sub (sub_MonthlyWindowStart sub) Month now
  end.

Definition memStart (win : subscriptionWindow) (sub : UserSubscription) : option Z :=
  match win with
  | subscriptionWindowDaily => sub_DailyWindowStart sub
  | subscriptionWindowWeekly => sub_WeeklyWindowStart sub
  | subscriptionWindowMonthly => sub_MonthlyWindowStart sub
  end.

(** The row after one window was restarted if it was due. *)
Definition restartDue (win : subscriptionWindow) (next : option Z) (now : Z) (r : us_row) : us_row :=
  match next with
  | Some t => restartWindow win (stored t) r <| us_UpdatedAt := stored now |>
  | None => r
  end.

Definition put (db : sdb) (id : Z) (r : us_row) : sdb := set_subs db (<[ id := r ]>).

Lemma put_put db id r r' : put (put db id r) id r' = put db id r'.
Proof. destruct db. unfold put, set_subs, field_update. cbn. by rewrite insert_insert_eq. Qed.

Lemma put_same db id r : sd_subs db !! id = Some r -> put db id r = db.
Proof. intros E. destruct db. unfold put, set_subs, field_update. cbn in *. by rewrite insert_id. Qed.

Lemma put_lookup db id r : sd_subs (put db id r) !! id = Some r.
Proof. cbn. apply lookup_insert_eq. Qed.

Lemma reset_solo win expected next sub b w r :
  quietly w -> rows w !! sub_ID sub = Some r -> windowStart win r = expected -> whole_opt expected ->
  exists w', solo (resetIfDue win expected next sub b) w =
      (inr (match next with Some t => restarted win t sub | None => sub end,
            match next with Some _ => true | None => b end), w') /\
    only_db w (put (sw_db w) (sub_ID sub) (restartDue win next (sw_clock w) r)) w'.
Proof.
  intros Q E S W. unfold resetIfDue. destruct next as [t|]; cbn [restartDue].
  - rewrite solo_try.
    assert (X : solo (resetUsageIfCurrent win (sub_ID sub) expected t) w =
      (inr tt, w <| sw_db := put (sw_db w) (sub_ID sub)
         (restartWindow win (stored t) r <| us_UpdatedAt := stored (sw_clock w) |>) |>)).
    { unfold resetUsageIfCurrent. rewrite solo_bind, solo_query by done. cbn. unfold updateWhere. rewrite E.
      rewrite bool_decide_true; [done|]. rewrite S. destruct expected as [x|]; [|done].
      cbn. f_equal. symmetry. apply stored_exact. by apply W. }
    replace (solo (resetSubscriptionWindow win (sub_ID sub) expected t) w) with
      (solo (resetUsageIfCurrent win (sub_ID sub) expected t) w) by (by destruct win).
    rewrite X. cbn [fst snd]. rewrite solo_ret. eexists. split; [reflexivity|]. done.
  - rewrite solo_ret. eexists. split; [reflexivity|]. by rewrite put_same.
Qed.

Lemma quietly_only w db w' : quietly w -> only_db w db w' -> quietly w'.
Proof. intros Q (_ & _ & E). unfold quietly. by rewrite E. Qed.

Lemma restartDue_start win win' next now r :
  win' <> win -> windowStart win (restartDue win' next now r) = windowStart win r.
Proof. intros N. destruct next; [|done]. by destruct win, win'. Qed.

Lemma restartDue_whole win next now r : windows_whole r -> windows_whole (restartDue win next now r).
Proof.
  intros W. destruct next as [t|]; [|done]. intros win'. destruct (decide (win = win')) as [->|N].
  - intros x X. assert (x = stored t) as -> by (destruct win'; cbn in X; congruence). apply stored_whole.
  - rewrite (restartDue_start win' win (Some t)) by done. apply W.
Qed.

(** The row after the windows that are due were restarted. *)
Definition restartedRow (sub : UserSubscription) (now : Z) (r : us_row) : us_row :=
  restartDue subscriptionWindowMonthly (due subscriptionWindowMonthly sub now) now
    (restartDue subscriptionWindowWeekly (due subscriptionWindowWeekly sub now) now
       (restartDue subscriptionWindowDaily (due subscriptionWindowDaily sub now) now r)).

(** The subscription in memory shows the row. *)
Definition shows (sub : UserSubscription) (r : us_row) : Prop :=
  (forall win, memStart win sub = windowStart win r) /\ windows_whole r.

(** The blocks of [CheckAndResetWindows]. *)
Definition block (now : Z) (win : subscriptionWindow) (x : UserSubscription * bool)
    : prog (outcome (UserSubscription * bool)) :=
  resetIfDue win (memStart win x.1) (due win x.1 now) x.1 x.2.

Lemma CheckAndResetWindows_blocks sub :
  CheckAndResetWindows local sub = currentTime (fun now =>
    let? d := block now subscriptionWindowDaily (sub, false) in
    let? v := block now subscriptionWindowWeekly d in
    let? m := block now subscriptionWindowMonthly v in
    if (m.2 : bool) then let! _c := invalidate (sub_UserID sub) (sub_GroupID sub) in Ret (inr m.1)
    else Ret (inr m.1)).
Proof. reflexivity. Qed.

Lemma block_solo win x w r :
  quietly w -> rows w !! sub_ID x.1 = Some r -> memStart win x.1 = windowStart win r -> windows_whole r ->
  exists x' w', solo (block (sw_clock w) win x) w = (inr x', w') /\
    only_db w (put (sw_db w) (sub_ID x.1) (restartDue win (due win x.1 (sw_clock w)) (sw_clock w) r)) w' /\
    sub_ID x'.1 = sub_ID x.1 /\
    forall win', win' <> win -> memStart win' x'.1 = memStart win' x.1
                            /\ due win' x'.1 (sw_clock w) = due win' x.1 (sw_clock w).
Proof.
  intros Q E M W. destruct (reset_solo win (memStart win x.1) (due win x.1 (sw_clock w)) x.1 x.2 w r)
    as (w' & X & O); [done|done|done|rewrite M; apply W|].
  eexists _, w'. split; [exact X|]. split; [done|]. destruct x as [s b]. cbn [fst snd].
  destruct (due win s (sw_clock w)); cbn; [|done]. split; [by destruct win|].
  intros win' N. destruct s, win, win'; try done.
Qed.

Lemma CheckAndResetWindows_solo sub w r :
  quietly w -> rows w !! sub_ID sub = Some r -> shows sub r ->
  exists o w', solo (CheckAndResetWindows local sub) w = (o, w') /\
    only_db w (put (sw_db w) (sub_ID sub) (restartedRow sub (sw_clock w) r)) w'.
Proof.
  intros Q E [M W]. rewrite CheckAndResetWindows_blocks, solo_now, solo_try.
  destruct (block_solo subscriptionWindowDaily (sub, false) w r) as (x1 & w1 & X1 & (D1 & C1 & T1) & I1 & N1);
    [done|done|apply M|done|]. rewrite X1. cbn [fst snd] in *. rewrite solo_try.
  set (r1 := restartDue subscriptionWindowDaily (due subscriptionWindowDaily sub (sw_clock w)) (sw_clock w) r) in *.
  destruct (N1 subscriptionWindowWeekly) as [M2 U2]; [done|]. destruct (N1 subscriptionWindowMonthly) as [M3 U3]; [done|].
  assert (W1 : windows_whole r1) by (by apply restartDue_whole).
  rewrite <-C1.
  destruct (block_solo subscriptionWindowWeekly x1 w1 r1) as (x2 & w2 & X2 & (D2 & C2 & T2) & I2 & N2).
  { unfold quietly. by rewrite T1. }
  { rewrite I1, D1. apply put_lookup. }
  { rewrite M2, M. unfold r1. by rewrite restartDue_start. }
  { done. }
  rewrite X2. cbn [fst snd]. rewrite solo_try. rewrite C1, U2, I1, D1, put_put in D2.
  set (r2 := restartDue subscriptionWindowWeekly (due subscriptionWindowWeekly sub (sw_clock w)) (sw_clock w) r1) in *.
  destruct (N2 subscriptionWindowMonthly) as [M4 U4]; [done|].
  assert (W2 : windows_whole r2) by (by apply restartDue_whole).
  rewrite <-C2.
  destruct (block_solo subscriptionWindowMonthly x2 w2 r2) as (x3 & w3 & X3 & (D3 & C3 & T3) & I3 & N3).
  { unfold quietly. by rewrite T2, T1. }
  { rewrite I2, I1, D2. apply put_lookup. }
  { rewrite M4, M3, M. unfold r2, r1. by rewrite !restartDue_start. }
  { done. }
  rewrite X3. cbn [fst snd]. rewrite C2, U4, C1, U3, I2, I1, D2, put_put in D3.
  assert (O : only_db w (put (sw_db w) (sub_ID sub) (restartedRow sub (sw_clock w) r)) w3) by (split; [done|split; congruence]).
  rewrite C2, C1. destruct x3.2; [|eexists _, w3; split; [reflexivity|exact O]].
  destruct (invalidate_solo (sub_UserID sub) (sub_GroupID sub) w3) as (w4 & X4 & (D4 & C4 & T4)).
  rewrite solo_bind, X4, solo_ret. eexists _, w4. split; [reflexivity|].
  destruct O as (O1 & O2 & O3). split; [congruence|split; congruence].
Qed.

(** The row after maintenance. *)
Definition maintainedRow (sub : UserSubscription) (now : Z) (r : us_row) : us_row :=
  if IsWindowActivated sub then restartedRow sub now r
  else activateWindows (stored now) r <| us_UpdatedAt := stored now |>.

Lemma not_activated sub : IsWindowActivated sub = false -> forall win, memStart win sub = None.
Proof.
  unfold IsWindowActivated. rewrite !orb_false_iff, !bool_decide_eq_false. intros [[D W] M] win.
  destruct win; cbn; apply dec_stable; tauto.
Qed.

Lemma not_due win sub now : memStart win sub = None -> due win sub now = None.
Proof. intros E. destruct win; cbn in *; rewrite E; [by destruct (HasOneTimeDailyQuota local sub)|done|done]. Qed.

Lemma block_idle now win x w : memStart win x.1 = None -> solo (block now win x) w = (inr x, w).
Proof. intros N. unfold block. rewrite not_due by done. by destruct x. Qed.

Lemma restartedRow_idle sub now r : (forall win, due win sub now = None) -> restartedRow sub now r = r.
Proof. intros N. unfold restartedRow. by rewrite !N. Qed.

Lemma maintenance_solo sub w r :
  quietly w -> rows w !! sub_ID sub = Some r -> shows sub r ->
  exists w', solo (doWindowMaintenance local sub) w = (tt, w') /\
    only_db w (put (sw_db w) (sub_ID sub) (maintainedRow sub (sw_clock w) r)) w'.
Proof.
  intros Q E Sh. unfold doWindowMaintenance, maintainedRow. rewrite solo_bind.
  destruct (IsWindowActivated sub) eqn:A; cbn [negb].
  - rewrite solo_ret. cbn [fst snd]. rewrite solo_bind.
    destruct (CheckAndResetWindows_solo sub w r Q E Sh) as (o & w1 & X & O). rewrite X. cbn [fst snd].
    eexists. split; [reflexivity|]. exact O.
  - pose proof (not_activated _ A) as N.
    assert (X : solo (CheckAndActivateWindow sub) w = (inr tt, w <| sw_db := put (sw_db w) (sub_ID sub)
        (activateWindows (stored (sw_clock w)) r <| us_UpdatedAt := stored (sw_clock w) |>) |>)).
    { unfold CheckAndActivateWindow. rewrite solo_now. unfold checkAndActivateWindowAt. rewrite A.
      unfold ActivateWindows. rewrite solo_bind, solo_query by done. cbn. unfold updateWhere. rewrite E.
      replace (notActivated r) with true; [done|]. destruct Sh as [M _]. unfold notActivated.
      pose proof (N subscriptionWindowDaily) as N1. pose proof (N subscriptionWindowWeekly) as N2.
      pose proof (N subscriptionWindowMonthly) as N3. rewrite M in N1, N2, N3. cbn in N1, N2, N3.
      by rewrite !bool_decide_true. }
    rewrite X. cbn [fst snd]. rewrite solo_bind.
    assert (Y : forall w1, solo (CheckAndResetWindows local sub) w1 = (inr sub, w1)).
    { intros w1. rewrite CheckAndResetWindows_blocks, solo_now.
      do 3 (rewrite solo_try, block_idle by apply N; cbn [fst snd]). done. }
    rewrite Y. eexists. split; [reflexivity|]. done.
Qed.

Lemma restartDue_usage win win' next now r :
  windowUsage win (restartDue win' next now r) =
    if bool_decide (win' = win) then match next with Some _ => 0 | None => windowUsage win r end
    else windowUsage win r.
Proof. destruct next, win, win'; done. Qed.

Lemma restartDue_newStart win next now r :
  windowStart win (restartDue win next now r) = match next with Some t => Some (stored t) | None => windowStart win r end.
Proof. destruct next, win; done. Qed.

Lemma maintained_usage sub now r win :
  windowUsage win (maintainedRow sub now r) =
    match due win sub now with Some _ => 0 | None => windowUsage win r end.
Proof.
  unfold maintainedRow. destruct (IsWindowActivated sub) eqn:A.
  - unfold restartedRow. rewrite !restartDue_usage. by destruct win.
  - rewrite not_due by (by apply not_activated). by destruct win.
Qed.

Lemma maintained_start sub now r win :
  windowStart win (maintainedRow sub now r) =
    if IsWindowActivated sub then match due win sub now with Some t => Some (stored t) | None => windowStart win r end
    else Some (stored now).
Proof.
  unfold maintainedRow. destruct (IsWindowActivated sub) eqn:A; [|by destruct win].
  unfold restartedRow. destruct win; rewrite ?restartDue_newStart, ?restartDue_start by done;
    rewrite ?restartDue_newStart, ?restartDue_start by done; rewrite ?restartDue_newStart; done.
Qed.

Lemma maintained_term sub now r :
  us_ID (maintainedRow sub now r) = us_ID r /\ us_StartsAt (maintainedRow sub now r) = us_StartsAt r /\
  us_ExpiresAt (maintainedRow sub now r) = us_ExpiresAt r /\ us_Status (maintainedRow sub now r) = us_Status r /\
  us_DeletedAt (maintainedRow sub now r) = us_DeletedAt r.
Proof.
  unfold maintainedRow, restartedRow, restartDue. destruct (IsWindowActivated sub); [|done].
  by destruct (due _ _ _), (due _ _ _), (due _ _ _).
Qed.

Lemma canReset_due sub now :
  canAutomaticallyResetDailyAt local sub now = bool_decide (due subscriptionWindowDaily sub now <> None) /\
  canAutomaticallyResetWeeklyAt local sub now = bool_decide (due subscriptionWindowWeekly sub now <> None) /\
  canAutomaticallyResetMonthlyAt local sub now = bool_decide (due subscriptionWindowMonthly sub now <> None).
Proof.
  split; [|done]. unfold canAutomaticallyResetDailyAt. cbn. destruct (HasOneTimeDailyQuota local sub); [|done].
  symmetry. apply bool_decide_eq_false. intros []. done.
Qed.

(** The subscription as it is read from the table. *)
Definition read (b : bool) (db : sdb) (r : us_row) : UserSubscription := userSubscriptionEntityToService b db r.

Lemma read_shows b db r : windows_whole r -> shows (read b db r) r.
Proof. intros W. by split; [intros []|]. Qed.

Lemma due_read win b db r now :
  due win (read b db r) now =
    let s := emptySubscription <| sub_StartsAt := us_StartsAt r |> <| sub_ExpiresAt := us_ExpiresAt r |> in
    match win with
    | subscriptionWindowDaily =>
      if HasOneTimeDailyQuota local s then None else automaticDailyWindowStartAt local s (windowStart win r) now
    | subscriptionWindowWeekly => automaticWindowStartAt local s (windowStart win r) Week now
    | subscriptionWindowMonthly => automaticWindowStartAt local s (windowStart win r) Month now
    end.
Proof. by destruct win. Qed.

Lemma stored_now_close t : t < stored t + Microsecond.
Proof.
  pose proof (Z.div_mod t Microsecond ltac:(done)) as D. pose proof (Z.mod_pos_bound t Microsecond ltac:(done)) as M.
  assert (L : stored (Microsecond * (t / Microsecond)) <= stored t) by (apply stored_mono; lia).
  rewrite stored_exact in L by (by exists (t / Microsecond); lia). lia.
Qed.

(** Windows that were just started or restarted are not due again at once. *)
Lemma fresh_not_due s period t now :
  0 < period < max_int64 -> now < t + period -> automaticWindowStartAt local s (Some t) period now = None.
Proof.
  intros Pp L. rewrite automaticWindow_eq by done. cbv zeta. pose proof (windowAnchor_later local s t).
  rewrite (proj2 (Z.ltb_lt now _)); [done|lia].
Qed.

Lemma rolled_not_due s period p t now :
  0 < period < max_int64 -> now - p <= max_int64 -> sub_ExpiresAt s - p <= max_int64 ->
  automaticWindowStartAt local s (Some p) period now = Some t ->
  automaticWindowStartAt local s (Some t) period now = None.
Proof.
  intros Pp L1 L2. rewrite !automaticWindow_eq by done. cbv zeta. pose proof (windowAnchor_later local s p) as A1.
  set (a := windowAnchor local s p) in *. destruct (_ || _) eqn:E; [done|]. intros [= <-].
  apply orb_false_iff in E as [E1 E2%negb_false_iff].
  rewrite !(Z.min_r max_int64) by lia. set (x := (now - a) / period). set (y := (sub_ExpiresAt s - a - 1) / period).
  set (t := a + Z.min x y * period). pose proof (windowAnchor_later local s t) as A2.
  destruct (Z.ltb_spec now (windowAnchor local s t + period)) as [|G1]; [done|].
  destruct (Z.ltb_spec (windowAnchor local s t + period) (sub_ExpiresAt s)) as [G2|]; [|done]. exfalso.
  assert (Z.min x y + 1 <= x) by (apply Z.div_le_lower_bound; lia).
  assert (Z.min x y + 1 <= y) by (apply Z.div_le_lower_bound; lia). lia.
Qed.

Lemma due_whole win b db r now t : whole (us_StartsAt r) -> windows_whole r -> due win (read b db r) now = Some t -> stored t = t.
Proof.
  intros Ws W. rewrite due_read. cbv zeta. set (s := emptySubscription <| sub_StartsAt := us_StartsAt r |> <| sub_ExpiresAt := us_ExpiresAt r |>).
  assert (K : forall period, whole period -> 0 < period < max_int64 ->
    automaticWindowStartAt local s (windowStart win r) period now = Some t -> stored t = t).
  { intros period Wp Pp. destruct (windowStart win r) as [p|] eqn:E; [|done]. rewrite automaticWindow_eq by done.
    cbv zeta. destruct (_ || _); [done|]. intros [= <-]. apply stored_exact, Z.divide_add_r.
    - unfold windowAnchor. destruct (_ && _); [done|]. by apply (W win).
    - by apply Z.divide_mul_r. }
  destruct win.
  - destruct (HasOneTimeDailyQuota local s); [done|].
    destruct (windowStart subscriptionWindowDaily r) as [p|]; [|done]. intros X.
    apply automaticDaily_later in X as [-> _]. apply stored_exact.
    eapply Z.divide_trans; [|apply midnight_whole]. by exists 1000000.
  - apply K; [by exists (7 * 86400 * 1000000)|]. pose proof Week_range. unfold Microsecond in *. lia.
  - apply K; [by exists (30 * 86400 * 1000000)|]. pose proof Month_range. unfold Microsecond in *. lia.
Qed.

(** The windows began less than the longest [Duration] (292 years) before the end of the term. *)
Definition term_in_range (r : us_row) : Prop :=
  forall win p, windowStart win r = Some p -> us_ExpiresAt r - p <= max_int64.

Lemma daily_not_due s t now : StartOfDay local now <= t -> automaticDailyWindowStartAt local s (Some t) now = None.
Proof.
  intros L. unfold automaticDailyWindowStartAt. destruct (HasOneTimeDailyQuota local s); [done|].
  pose proof (windowAnchor_later local s t). rewrite (proj2 (Z.ltb_ge _ (StartOfDay local now))); [done|lia].
Qed.

Lemma maintained_settled b db r now b' db' win :
  row_ok (us_ID r) r -> term_in_range r -> now <= us_ExpiresAt r -> midnight local now <= now ->
  due win (read b' db' (maintainedRow (read b db r) now r)) now = None.
Proof.
  intros [_ Ws _ _ W] Ra L Mi. rewrite due_read. cbv zeta.
  destruct (maintained_term (read b db r) now r) as (_ & -> & -> & _). rewrite maintained_start.
  pose proof Week_range as Wr. pose proof Month_range as Mr.
  destruct (IsWindowActivated (read b db r)).
  - destruct (due win (read b db r) now) as [t|] eqn:Du.
    + rewrite (due_whole _ _ _ _ _ _ Ws W Du). rewrite due_read in Du. cbv zeta in Du.
      destruct (windowStart win r) as [p|] eqn:E; [|by destruct win; [destruct (HasOneTimeDailyQuota local _)|..]].
      specialize (Ra win p E). destruct win.
      * destruct (HasOneTimeDailyQuota local _); [done|]. apply automaticDaily_later in Du as [-> _].
        by apply daily_not_due.
      * apply (rolled_not_due _ _ p) in Du; [done|unfold Microsecond in *; lia|lia|cbn; lia].
      * apply (rolled_not_due _ _ p) in Du; [done|unfold Microsecond in *; lia|lia|cbn; lia].
    + by rewrite due_read in Du.
  - pose proof (stored_now_close now) as C. destruct win.
    + destruct (HasOneTimeDailyQuota local _); [done|]. apply daily_not_due. unfold StartOfDay.
      rewrite <-(stored_exact (midnight local now)); [by apply stored_mono|].
      eapply Z.divide_trans; [|apply midnight_whole]. by exists 1000000.
    + apply fresh_not_due; unfold Microsecond in *; lia.
    + apply fresh_not_due; unfold Microsecond in *; lia.
Qed.

Lemma correctUsage_usage b db r now b' db' :
  let sub := read b db r in
  let m := read b' db' (maintainedRow sub now r) in
  sub_DailyUsageUSD (correctUsage local sub now) = sub_DailyUsageUSD m /\
  sub_WeeklyUsageUSD (correctUsage local sub now) = sub_WeeklyUsageUSD m /\
  sub_MonthlyUsageUSD (correctUsage local sub now) = sub_MonthlyUsageUSD m.
Proof.
  intros sub m.
  assert (U : forall win, windowUsage win (maintainedRow sub now r) =
    match due win sub now with Some _ => 0 | None => windowUsage win r end) by apply maintained_usage.
  pose proof (U subscriptionWindowDaily) as U1. pose proof (U subscriptionWindowWeekly) as U2.
  pose proof (U subscriptionWindowMonthly) as U3. cbn [windowUsage] in U1, U2, U3.
  subst m. cbn [read userSubscriptionEntityToService userSubscriptionEntityToServiceWithStatusMapping
    sub_DailyUsageUSD sub_WeeklyUsageUSD sub_MonthlyUsageUSD]. rewrite U1, U2, U3.
  assert (C : correctUsage local sub now =
    let s := if bool_decide (due subscriptionWindowDaily sub now <> None) then sub <| sub_DailyUsageUSD := fzero |> else sub in
    let s := if bool_decide (due subscriptionWindowWeekly sub now <> None) then s <| sub_WeeklyUsageUSD := fzero |> else s in
    if bool_decide (due subscriptionWindowMonthly sub now <> None) then s <| sub_MonthlyUsageUSD := fzero |> else s).
  { destruct (canReset_due sub now) as (<- & <- & <-). unfold correctUsage.
    destruct (canAutomaticallyResetDailyAt local sub now); cbv zeta;
      match goal with |- context [canAutomaticallyResetWeeklyAt local ?x now] =>
        change (canAutomaticallyResetWeeklyAt local x now) with (canAutomaticallyResetWeeklyAt local sub now) end;
      destruct (canAutomaticallyResetWeeklyAt local sub now);
      match goal with |- context [canAutomaticallyResetMonthlyAt local ?x now] =>
        change (canAutomaticallyResetMonthlyAt local x now) with (canAutomaticallyResetMonthlyAt local sub now) end;
      by destruct (canAutomaticallyResetMonthlyAt local sub now). }
  rewrite C. cbv zeta. destruct (due subscriptionWindowDaily sub now), (due subscriptionWindowWeekly sub now),
    (due subscriptionWindowMonthly sub now); done.
Qed.

Lemma CheckUsageLimits_usage s s' group cost :
  sub_DailyUsageUSD s = sub_DailyUsageUSD s' -> sub_WeeklyUsageUSD s = sub_WeeklyUsageUSD s' ->
  sub_MonthlyUsageUSD s = sub_MonthlyUsageUSD s' -> CheckUsageLimits s group cost = CheckUsageLimits s' group cost.
Proof.
  intros E1 E2 E3. unfold CheckUsageLimits, CheckDailyLimit, CheckWeeklyLimit, CheckMonthlyLimit. by rewrite E1, E2, E3.
Qed.

(** Correcting usage in memory changes nothing else. *)
Lemma correctUsage_windows sub now :
  sub_ID (correctUsage local sub now) = sub_ID sub /\
  IsWindowActivated (correctUsage local sub now) = IsWindowActivated sub /\
  (forall win, memStart win (correctUsage local sub now) = memStart win sub) /\
  (forall win t, due win (correctUsage local sub now) t = due win sub t).
Proof.
  unfold correctUsage. cbv zeta.
  destruct (canAutomaticallyResetDailyAt local _ _), (canAutomaticallyResetWeeklyAt local _ _),
    (canAutomaticallyResetMonthlyAt local _ _); (split; [reflexivity|split; [reflexivity|split]]); by intros [].
Qed.

Lemma maintainedRow_correct sub now r : maintainedRow (correctUsage local sub now) now r = maintainedRow sub now r.
Proof.
  destruct (correctUsage_windows sub now) as (_ & A & _ & D). unfold maintainedRow, restartedRow. by rewrite A, !D.
Qed.

Lemma Validate_active b db r group now :
  us_DeletedAt r = None -> us_Status r = SubscriptionStatusActive -> now < us_ExpiresAt r ->
  let sub := read b db r in
  ValidateAndCheckLimits local sub group now =
    (bool_decide (due subscriptionWindowDaily sub now <> None) || bool_decide (due subscriptionWindowWeekly sub now <> None)
     || bool_decide (due subscriptionWindowMonthly sub now <> None) || negb (IsWindowActivated sub),
     CheckUsageLimits (correctUsage local sub now) group fzero, correctUsage local sub now).
Proof.
  intros D S L sub. unfold ValidateAndCheckLimits.
  assert (St : sub_Status sub = SubscriptionStatusActive).
  { subst sub. cbn. unfold live. by rewrite bool_decide_true. }
  rewrite St. cbn [String.eqb]. replace (SubscriptionStatusActive =s SubscriptionStatusExpired) with false by done.
  replace (SubscriptionStatusActive =s SubscriptionStatusSuspended) with false by done.
  replace (now <? sub_ExpiresAt sub) with true by (symmetry; by apply Z.ltb_lt). cbn [negb].
  destruct (canReset_due sub now) as (-> & -> & ->). done.
Qed.

Lemma activated_spec s : IsWindowActivated s = true <-> exists win, memStart win s <> None.
Proof.
  unfold IsWindowActivated. rewrite !orb_true_iff, !bool_decide_eq_true. split.
  - intros [[D|W]|M]; [by exists subscriptionWindowDaily|by exists subscriptionWindowWeekly|by exists subscriptionWindowMonthly].
  - intros [[] N]; tauto.
Qed.

Lemma maintained_activated b db b' db' r now :
  IsWindowActivated (read b' db' (maintainedRow (read b db r) now r)) = true.
Proof.
  apply activated_spec. set (sub := read b db r).
  assert (M : forall win, memStart win (read b' db' (maintainedRow sub now r)) = windowStart win (maintainedRow sub now r))
    by (by intros []).
  destruct (IsWindowActivated sub) eqn:A.
  - pose proof A as [win N]%activated_spec. exists win. rewrite M, maintained_start, A.
    destruct (due win sub now); [done|]. intros X. apply N. by destruct win.
  - exists subscriptionWindowDaily. by rewrite M, maintained_start, A.
Qed.

Lemma correctUsage_idle sub now : (forall win, due win sub now = None) -> correctUsage local sub now = sub.
Proof.
  intros N. destruct (canReset_due sub now) as (C1 & C2 & C3).
  rewrite N, bool_decide_false in C1, C2, C3 by (intros []; done).
  unfold correctUsage. by rewrite C1, C2, C3.
Qed.

(** C22. The limits that a request is checked against in memory are those of the table: for an
    active subscription, the verdict of [ValidateAndCheckLimits] on the row as it is read is
    the verdict of [CheckUsageLimits] on the row after its windows have been maintained; when
    it asks for no maintenance, maintenance would change nothing; and after maintenance the
    same check at the same time asks for none and gives the same verdict. *)
Theorem limits_in_memory_agree w r group b :
  quietly w -> db_ok (sw_db w) -> rows w !! us_ID r = Some r -> us_DeletedAt r = None ->
  us_Status r = SubscriptionStatusActive -> sw_clock w < us_ExpiresAt r -> term_in_range r ->
  midnight local (sw_clock w) <= sw_clock w ->
  let v := ValidateAndCheckLimits local (read b (sw_db w) r) group (sw_clock w) in
  let w' := (solo (doWindowMaintenance local v.2) w).2 in
  exists r', rows w' !! us_ID r = Some r' /\
    CheckUsageLimits (read b (sw_db w') r') group fzero = v.1.2 /\
    (v.1.1 = false -> sw_db w' = sw_db w) /\
    let v' := ValidateAndCheckLimits local (read b (sw_db w') r') group (sw_clock w) in
    v'.1 = (false, v.1.2).
Proof.
  intros Q T E D S L Ra Mi. destruct (T _ _ E) as [ROk _]. cbv zeta. set (now := sw_clock w) in *.
  rewrite (Validate_active b (sw_db w) r group now D S L). cbn [fst snd]. set (sub := read b (sw_db w) r).
  set (r' := maintainedRow sub now r).
  destruct (correctUsage_windows sub now) as (Ci & _ & Cm & _).
  destruct (maintenance_solo (correctUsage local sub now) w r) as (w' & X & (Db & _)); [done|by rewrite Ci| |].
  { split; [|apply ROk]. intros win. rewrite Cm. by destruct win. }
  rewrite X. cbn [snd]. rewrite Ci, maintainedRow_correct in Db. fold now r' in Db. change (sub_ID sub) with (us_ID r) in Db.
  exists r'. rewrite Db. split; [apply put_lookup|].
  destruct (maintained_term sub now r) as (I' & _ & E' & S' & D'). fold r' in I', E', S', D'.
  destruct (correctUsage_usage b (sw_db w) r now b (put (sw_db w) (us_ID r) r')) as (U1 & U2 & U3).
  assert (V : CheckUsageLimits (read b (put (sw_db w) (us_ID r) r') r') group fzero =
              CheckUsageLimits (correctUsage local sub now) group fzero) by (by apply CheckUsageLimits_usage).
  split; [done|]. split.
  - intros N. rewrite !orb_false_iff, !bool_decide_eq_false in N. destruct N as [[[N1 N2] N3] A%negb_false_iff].
    assert (r' = r) as ->; [|by apply put_same]. subst r'. unfold maintainedRow. rewrite A.
    apply restartedRow_idle. intros []; apply dec_stable; tauto.
  - rewrite Validate_active by congruence. cbn [fst].
    assert (Se : forall win, due win (read b (put (sw_db w) (us_ID r) r') r') now = None).
    { intros win. apply maintained_settled; [done|done|lia|done]. }
    rewrite !Se. f_equal.
    + rewrite !bool_decide_false by (intros []; done). cbn. apply negb_false_iff, maintained_activated.
    + by rewrite correctUsage_idle.
Qed.
End Solo.

(** ** Assignment *)

Section Assign.
Context `{Postgres} (offset : Z).

Notation local := (FixedZone offset).

Lemma capExpiry_stored t : stored (capExpiry t) = capExpiry (stored t).
Proof.
  assert (M : stored MaxExpiresAt = MaxExpiresAt) by (apply stored_exact; by exists 4102444799000000).
  unfold capExpiry. destruct (Z.ltb_spec MaxExpiresAt t) as [L|L].
  - pose proof (stored_mono MaxExpiresAt t ltac:(lia)) as X. rewrite M in *. destruct (Z.ltb_spec MaxExpiresAt (stored t)); lia.
  - pose proof (stored_mono t MaxExpiresAt L) as X. rewrite M in X. destruct (Z.ltb_spec MaxExpiresAt (stored t)); lia.
Qed.

(** The expiry that is stored is the one computed from the start that is stored. *)
Lemma stored_expiry now days :
  stored (capExpiry (AddDate local now days)) = capExpiry (AddDate local (stored now) days).
Proof.
  rewrite capExpiry_stored, !AddDate_fixed, stored_shift; [done|].
  apply Z.divide_mul_r. by exists 86400000000.
Qed.

Lemma filter_permutation {A : Type} (f : A -> bool) l l' : l ≡ₚ l' -> List.filter f l ≡ₚ List.filter f l'.
Proof.
  induction 1 as [|x l l' P IH|x y l|l1 l2 l3 P1 IH1 P2 IH2]; cbn; [done|..].
  - destruct (f x); [by constructor|done].
  - destruct (f x), (f y); try done. apply perm_swap.
  - by transitivity (List.filter f l2).
Qed.

Lemma rowsWhere_insert db id r f :
  sd_subs db !! id = None -> f r = true -> rowsWhere db f = [] ->
  rowsWhere (put db id r) f = [r].
Proof.
  intros N F E. unfold rowsWhere in *. cbn.
  assert (P : List.filter f (map snd (map_to_list (<[id:=r]> (sd_subs db)))) ≡ₚ [r]).
  { etransitivity; [apply filter_permutation, Permutation_map, (map_to_list_insert (sd_subs db) id r N)|].
    cbn. by rewrite F, E. }
  by apply Permutation_sym, Permutation_length_1_inv in P.
Qed.

Lemma rowsWhere_nil db f : existsb f (map snd (map_to_list (sd_subs db))) = false -> rowsWhere db f = [].
Proof.
  unfold rowsWhere. induction (map snd _) as [|r l IH]; [done|]. cbn. intros [E1 E2]%orb_false_iff. rewrite E1. by apply IH.
Qed.

Lemma existsb_rowsWhere db f r l : rowsWhere db f = r :: l -> existsb f (map snd (map_to_list (sd_subs db))) = true.
Proof.
  unfold rowsWhere. intros E. apply existsb_exists. exists r. apply filter_In. rewrite E. by left.
Qed.

(** What a successful assignment of a new subscription leaves. *)
Definition assigned (input : AssignSubscriptionInput) (db db' : sdb) (r : us_row) : Prop :=
  sd_subs db' = <[ us_ID r := r ]> (sd_subs db) /\ sd_groups db' = sd_groups db /\
  us_UserID r = in_UserID input /\ us_GroupID r = in_GroupID input /\ us_DeletedAt r = None /\
  us_Notes r = Some (in_Notes input) /\
  us_ExpiresAt r = capExpiry (AddDate local (us_StartsAt r) (normalizeAssignValidityDays (in_ValidityDays input))).

Lemma createRow_assigned now db input r :
  createRow now db (newSubscription local input now) = Some r ->
  us_ID r = sd_next db /\ us_UserID r = in_UserID input /\ us_GroupID r = in_GroupID input /\ us_DeletedAt r = None /\
  us_Notes r = Some (in_Notes input) /\
  us_ExpiresAt r = capExpiry (AddDate local (us_StartsAt r) (normalizeAssignValidityDays (in_ValidityDays input))).
Proof.
  unfold createRow, newSubscription. cbn [sub_DailyUsageUSD sub_WeeklyUsageUSD sub_MonthlyUsageUSD emptySubscription field_update].
  rewrite numeric_of_zero. intros [= <-]. do 5 (split; [reflexivity|]).
  transitivity (stored (capExpiry (AddDate local now (normalizeAssignValidityDays (in_ValidityDays input))))); [reflexivity|].
  rewrite stored_expiry. cbn [us_StartsAt sub_StartsAt field_update]. by destruct (IsZero now).
Qed.

Lemma create_solo input w sub w1 :
  quietly w -> db_ok (sw_db w) -> solo (createSubscription local input) w = (inr sub, w1) ->
  exists r, assigned input (sw_db w) (sw_db w1) r /\ rows w !! us_ID r = None /\
    sub = read true (sw_db w1) r /\ sw_txs w1 = sw_txs w.
Proof.
  intros Q T. unfold createSubscription. rewrite solo_now, solo_try, solo_exec by done. cbn [run_stmt fst snd].
  unfold createStmt. destruct (createRow _ _ _) as [r|] eqn:C; [|done].
  destruct (negb (referenced _ _)); [done|]. destruct (duplicate _ _); [done|]. cbn [fst snd].
  apply createRow_assigned in C as (I & U & G & D & N & X).
  rewrite solo_exec by done. cbn. unfold byID, liveRow. cbn. rewrite lookup_insert_eq. unfold live. rewrite D. cbn.
  intros [= <- <-]. exists r. cbn. split; [done|]. split; [|done].
  rewrite I. destruct (rows w !! sd_next (sw_db w)) as [x|] eqn:Y; [|done]. destruct (T _ _ Y). lia.
Qed.

Lemma same_db w : w <| sw_db := sw_db w |> = w.
Proof. by destruct w. Qed.

(** Assigning what is already there. *)
Lemma reuse_solo input db w g r :
  quietly w -> sw_db w = db -> liveGroup db (in_GroupID input) = Some g -> IsSubscriptionType g = true ->
  rowsWhere db (ownedBy (in_UserID input) (in_GroupID input)) = [r] ->
  detectAssignSemanticConflict local (read true db r) input = None ->
  solo (assignSubscriptionWithReuse local input) w = (inr (read true db r, true), w).
Proof.
  intros Q <- G S E C. unfold assignSubscriptionWithReuse.
  rewrite solo_try, solo_exec by done. cbn [run_stmt fst snd]. rewrite same_db, G, S. cbn [negb].
  rewrite solo_try, solo_query by done. cbn [run_stmt fst snd]. rewrite same_db, (existsb_rowsWhere _ _ _ _ E).
  rewrite solo_try, solo_exec by done. cbn [run_stmt fst snd]. rewrite same_db, E. cbn [only].
  fold (read true (sw_db w) r). by rewrite C, solo_ret.
Qed.

Lemma assigned_no_conflict input db db' r :
  assigned input db db' r -> detectAssignSemanticConflict local (read true db' r) input = None.
Proof.
  intros (_ & _ & _ & _ & _ & N & X). unfold detectAssignSemanticConflict.
  cbn [read userSubscriptionEntityToService userSubscriptionEntityToServiceWithStatusMapping sub_StartsAt sub_ExpiresAt sub_Notes].
  rewrite X, Z.eqb_refl, N, andb_false_r. cbn. by rewrite String.eqb_refl.
Qed.

(** C28. Assigning a subscription is idempotent: after a successful assignment, the same
    request at any later time finds the subscription, reports it as reused, returns it as it
    was returned before and leaves the tables alone (in a zone with a fixed offset, such as
    the default one).  The term that is compared is the one that was stored, although the
    database keeps only microseconds. *)
Theorem assignment_is_idempotent input w sub reused w1 t :
  quietly w -> db_ok (sw_db w) ->
  solo (assignSubscriptionWithReuse local input) w = (inr (sub, reused), w1) ->
  solo (assignSubscriptionWithReuse local input) (w1 <| sw_clock := t |>) =
    (inr (sub, true), w1 <| sw_clock := t |>).
Proof.
  intros Q T. unfold assignSubscriptionWithReuse at 1.
  rewrite solo_try, solo_exec by done. cbn [run_stmt fst snd]. rewrite same_db.
  destruct (liveGroup (sw_db w) (in_GroupID input)) as [g|] eqn:G; [|done].
  destruct (IsSubscriptionType g) eqn:S; [|done]. cbn [negb].
  rewrite solo_try, solo_query by done. cbn [run_stmt fst snd]. rewrite same_db.
  destruct (existsb _ _) eqn:Ex.
  - rewrite solo_try, solo_exec by done. cbn [run_stmt fst snd]. rewrite same_db.
    destruct (rowsWhere _ _) as [|r [|]] eqn:E; [done| |done]. cbn [only]. fold (read true (sw_db w) r). rewrite solo_ret.
    destruct (detectAssignSemanticConflict _ _ _) eqn:C; [done|]. intros [= <- <- <-].
    by apply (reuse_solo input (sw_db w) _ g).
  - rewrite solo_try. destruct (solo (createSubscription local input) w) as [[e|s] w2] eqn:Cr; [done|]. cbn [fst snd].
    apply create_solo in Cr as (r & A & Fr & -> & T2); [|done..].
    rewrite solo_bind. cbn [solo]. destruct (invalidate_solo (in_UserID input) (in_GroupID input) w2) as (w3 & X & (D3 & C3 & T3)).
    rewrite X, solo_ret. cbn [fst snd]. intros [= <- <- <-].
    pose proof (assigned_no_conflict _ _ _ _ A) as NC. destruct A as (Su & Gr & U & Gi & D & _).
    apply (reuse_solo input (sw_db w2) _ g); [|done| |done| |done].
    + unfold quietly. cbn. by rewrite T3, T2.
    + unfold liveGroup in *. by rewrite Gr.
    + replace (rowsWhere (sw_db w2) _) with (rowsWhere (put (sw_db w) (us_ID r) r) (ownedBy (in_UserID input) (in_GroupID input))).
      * apply rowsWhere_insert; [done| |by apply rowsWhere_nil].
        unfold ownedBy, live. rewrite D, U, Gi, !Z.eqb_refl. done.
      * unfold rowsWhere. by rewrite Su.
Qed.
End Assign.

(** ** Revocation *)

Section Revoke.
Context `{Postgres}.

(** The row after it was revoked and restored at [t]. *)
Definition restoredRow (t : Z) (r : us_row) : us_row :=
  r <| us_Status := if (us_Status r =s SubscriptionStatusActive) && negb (t <? us_ExpiresAt r)
                    then SubscriptionStatusExpired else us_Status r |>
    <| us_UpdatedAt := stored t |>.

Lemma existsb_rows (f : us_row -> bool) (m : gmap Z us_row) :
  existsb f (map snd (map_to_list m)) = true -> exists k x, m !! k = Some x /\ f x = true.
Proof.
  intros (x & I & F)%existsb_exists. apply in_map_iff in I as ([k x'] & <- & I). exists k, x'.
  split; [by apply elem_of_map_to_list, list_elem_of_In|done].
Qed.

Lemma revoke_solo id w r :
  quietly w -> rows w !! id = Some r -> us_DeletedAt r = None ->
  exists w1, solo (RevokeSubscription id) w = (inr tt, w1) /\
    only_db w (put (sw_db w) id (r <| us_DeletedAt := Some (stored (sw_clock w)) |> <| us_UpdatedAt := stored (sw_clock w) |>)) w1.
Proof.
  intros Q E D. unfold RevokeSubscription. rewrite solo_try, solo_exec by done. cbn [run_stmt fst snd].
  rewrite same_db. unfold byID, liveRow. rewrite E. unfold live. rewrite D, bool_decide_true by done.
  rewrite solo_try, solo_query by done. cbn [run_stmt fst snd]. unfold updateWhere, live. rewrite E, D, bool_decide_true by done.
  cbn [fst snd]. rewrite solo_bind. eexists. split; [reflexivity|]. done.
Qed.

(** Restoring a revoked row, when no other subscription has taken its place. *)
Lemma restore_solo id w gone r :
  quietly w -> rows w !! id = Some gone ->
  (exists a b, gone = r <| us_DeletedAt := Some a |> <| us_UpdatedAt := b |>) -> us_DeletedAt r = None ->
  (forall k x, rows w !! k = Some x -> ownedBy (us_UserID r) (us_GroupID r) x = false) ->
  exists w2, solo (RestoreSubscription id) w = (inr (read true (sw_db w2) (restoredRow (sw_clock w) r)), w2) /\
    rows w2 = <[ id := restoredRow (sw_clock w) r ]> (rows w).
Proof.
  intros Q E (a & b & ->) D Un. set (t := sw_clock w) in *. set (gone := r <| us_DeletedAt := _ |> <| us_UpdatedAt := _ |>) in *.
  assert (No : forall f, (forall x, f x = true -> ownedBy (us_UserID r) (us_GroupID r) x = true) ->
    existsb f (map snd (map_to_list (rows w))) = false).
  { intros f F. apply Bool.not_true_iff_false. intros (k & x & Ix & Fx)%existsb_rows.
    apply F in Fx. by rewrite (Un k x Ix) in Fx. }
  unfold RestoreSubscription. rewrite solo_try, solo_exec by done. cbn [run_stmt fst snd]. rewrite E, same_db.
  set (sub := userSubscriptionEntityToServicePreserveStatus true (sw_db w) gone).
  change (sub_DeletedAt sub) with (Some a). rewrite bool_decide_false by done.
  rewrite solo_try, solo_query by done. cbn [run_stmt fst snd]. rewrite same_db, No by done.
  rewrite solo_now. cbv zeta. fold t.
  change (sub_Status sub) with (us_Status r). change (sub_ExpiresAt sub) with (us_ExpiresAt r).
  set (st := if _ && _ then _ else _). rewrite solo_try. unfold Restore. rewrite solo_try, solo_exec by done.
  cbn [run_stmt fst snd]. unfold restoreStmt. rewrite E. cbv zeta. fold t.
  replace (gone <| us_Status := st |> <| us_DeletedAt := None |> <| us_UpdatedAt := stored t |>) with (restoredRow t r)
    by (subst gone; unfold restoredRow; fold st; destruct r; cbn in D; subst; row_eq).
  unfold duplicate. rewrite No by (by intros x [? _]%andb_true_iff). rewrite andb_false_r. cbn [fst snd].
  rewrite solo_exec by done. cbn [run_stmt fst snd]. unfold byID, liveRow.
  set (db2 := set_subs (sw_db w) (<[id:=restoredRow t r]>)). change (sw_db (w <| sw_db := db2 |>)) with db2.
  replace (sd_subs db2 !! id) with (Some (restoredRow t r)) by (symmetry; apply put_lookup).
  replace (live (restoredRow t r)) with true by (unfold live; cbn; by rewrite D). cbn [fst snd].
  rewrite solo_bind. set (w2 := w <| sw_db := db2 |> <| sw_db := db2 |>).
  destruct (invalidate_solo (us_UserID r) (us_GroupID r) w2) as (w3 & Y & (D3 & _)).
  change (sub_UserID _) with (us_UserID r). change (sub_GroupID _) with (us_GroupID r).
  rewrite Y, solo_ret. exists w3. rewrite D3. split; reflexivity.
Qed.

(** Revoking a subscription and restoring it later is a round trip: the revoked
    subscription is not found in between, and restoring it gives back the row as it was, with
    its term, windows and usage, except that a term that has ended meanwhile is marked
    expired.  No other row changes.  The user has no other subscription of the group. *)
Theorem revoked_subscription_is_restored id w r t :
  quietly w -> rows w !! id = Some r -> us_DeletedAt r = None ->
  (forall id' r', rows w !! id' = Some r' -> ownedBy (us_UserID r) (us_GroupID r) r' = true -> id' = id) ->
  exists w1 w2, solo (RevokeSubscription id) w = (inr tt, w1) /\
    (solo (exec (GetByID id)) w1).1 = inl ErrSubscriptionNotFound /\
    solo (RestoreSubscription id) (w1 <| sw_clock := t |>) = (inr (read true (sw_db w2) (restoredRow t r)), w2) /\
    rows w2 = <[ id := restoredRow t r ]> (rows w).
Proof.
  intros Q E D Un. destruct (revoke_solo id w r Q E D) as (w1 & X & (D1 & C1 & T1)).
  assert (Q1 : quietly w1) by (unfold quietly; by rewrite T1).
  destruct (restore_solo id (w1 <| sw_clock := t |>)
    (r <| us_DeletedAt := Some (stored (sw_clock w)) |> <| us_UpdatedAt := stored (sw_clock w) |>) r)
    as (w2 & Y & Z); [done|cbn; rewrite D1; apply put_lookup|by eexists _, _|done| |].
  { intros k x Ix. cbn in Ix. rewrite D1 in Ix. cbn in Ix. apply Bool.not_true_iff_false. intros O.
    apply lookup_insert_Some in Ix as [[_ <-]|[N Ix]]; [done|]. by apply N, eq_sym, (Un k x). }
  exists w1, w2. split; [done|]. split; [|split; [done|]].
  - rewrite solo_exec by done. cbn. unfold byID, liveRow. rewrite D1, put_lookup. done.
  - rewrite Z. cbn. rewrite D1. apply insert_insert_eq.
Qed.
End Revoke.

(** ** Witnesses *)

Definition strict_group : Group := MkGroup 7 "pro" SubscriptionTypeSubscription None (Some (float_of_Z 2)) None.

(** On the second day, with 3 dollars used and 2 dollars a week allowed; in the second week. *)
Lemma limits_in_memory_agree_witness :
  let later := sample_world (8 * Day) in
  (ValidateAndCheckLimits UTC (read true sample_db sample_row) strict_group Day).1 = (true, Some ErrWeeklyLimitExceeded) /\
  (ValidateAndCheckLimits UTC (read true sample_db sample_row) strict_group (8 * Day)).1 = (true, None) /\
  exists r', rows (solo (doWindowMaintenance UTC
      (ValidateAndCheckLimits UTC (read true sample_db sample_row) strict_group (8 * Day)).2) later).2 !! 1 = Some r' /\
    us_WeeklyUsageUsd r' = 0.
Proof.
  intros later. split; [vm_compute; reflexivity|]. split; [vm_compute; reflexivity|].
  destruct (limits_in_memory_agree UTC later sample_row strict_group true) as (r' & E & _).
  - reflexivity.
  - exact sample_table.
  - reflexivity.
  - reflexivity.
  - reflexivity.
  - reflexivity.
  - intros [] p X; vm_compute in X; injection X as <-; vm_compute; discriminate.
  - vm_compute. discriminate.
  - exists r'. split; [exact E|]. vm_compute in E. injection E as <-. vm_compute. reflexivity.
Defined.

Definition fresh_input : AssignSubscriptionInput := MkAssign 5 7 45 0 "gift".
Definition fresh_world : sub_world :=
  MkSubWorld 1234567 (MkSdb {[ 5 ]} {[ 7 := (sample_group, false) ]} ∅ 1) ∅ ∅ [] ∅ ∅ [].

Lemma assignment_is_idempotent_witness :
  exists sub w1, solo (assignSubscriptionWithReuse (FixedZone 28800) fresh_input) fresh_world = (inr (sub, false), w1) /\
  sub_ExpiresAt sub = 1234000 + 45 * Day /\
  solo (assignSubscriptionWithReuse (FixedZone 28800) fresh_input) (w1 <| sw_clock := Day |>) =
    (inr (sub, true), w1 <| sw_clock := Day |>).
Proof.
  eexists _, _. split; [vm_compute; reflexivity|]. split; [reflexivity|].
  apply (assignment_is_idempotent 28800 fresh_input fresh_world _ false).
  - reflexivity.
  - apply map_Forall_empty.
  - vm_compute. reflexivity.
Defined.

