(* ===== verification/Transactions.v ===== *)
(** * Handlers over a database with transactions

    A machine in which handlers run as threads, one call at a time, over tables kept by
    PostgreSQL at its default isolation level.  A table entry has a key; a transaction
    keeps the uncommitted versions of the entries it has written.  A statement reads the
    committed entries under the thread's own uncommitted ones, and waits while another
    transaction has written an entry that it writes.  A thread without a transaction commits
    each statement.  [NOW()] is the time at which the transaction began.

    Requests and replies can be lost, threads can stop at any point (their transaction is
    rolled back), other parts of the program change entries that nobody is writing, and the
    clock does not go back.

    [wp] is the logic for such threads.  Between two of its calls a thread may rely on: its
    transaction, and the committed versions of the entries it has written, stay as they are. *)

From S2P Require Import Prelude Programs.

#[local] Open Scope Z_scope.

(** What the machine needs to know of a database: what a statement answers (nothing if it
    is rejected), what it changes, and a set of keys outside which it changes nothing. *)
Class Database (K V : Type) `{Countable K} (stmt : Type -> Type) := {
  exec_stmt : forall R, Z -> stmt R -> gmap K V -> option (R * gmap K V);
  writes : forall R, Z -> stmt R -> gmap K V -> gset K;
  exec_frame R now (s : stmt R) t r t' k :
    exec_stmt R now s t = Some (r, t') -> k ∉ writes R now s t -> t' !! k = t !! k
}.

Arguments exec_stmt {K V _ _ stmt _ R} now s t.
Arguments writes {K V _ _ stmt _ R} now s t.

(** Calls of a handler.  [o] says what a transaction is for; [xcall] are calls to anything but
    the database, whose replies are not known. *)
Inductive call (O : Type) (stmt xcall : Type -> Type) : Type -> Type :=
  | Now : call O stmt xcall Z
  | Begin (o : O) : call O stmt xcall unit
  | Commit : call O stmt xcall unit
  | Rollback : call O stmt xcall unit
  | Sql {R : Type} (s : stmt R) : call O stmt xcall R
  | Ext {R : Type} (x : xcall R) : call O stmt xcall R.

Arguments Now {O stmt xcall}.
Arguments Begin {O stmt xcall} o.
Arguments Commit {O stmt xcall}.
Arguments Rollback {O stmt xcall}.
Arguments Sql {O stmt xcall R} s.
Arguments Ext {O stmt xcall R} x.

Section Machine.
Context {K V : Type} `{Countable K} {O : Type} {stmt xcall : Type -> Type} `{!Database K V stmt}.

Notation table := (gmap K V).
Notation call := (call O stmt xcall).
Notation prog := (prog call).

Record transaction := MkTx {
  tx_op : O;
  tx_at : Z;
  tx_rows : table
}.

(** A change of the committed tables. *)
Inductive label :=
  | ByTx (o : O) (at_ : Z)
  | ByStmt {R : Type} (s : stmt R) (at_ : Z)
  | ByOthers.

Record event := MkEvent {
  ev_label : label;
  ev_before : table;
  ev_after : table
}.

Record world := MkWorld {
  w_clock : Z;
  w_table : table;
  w_txs : gmap nat transaction;
  w_threads : list (prog unit);
  w_trace : list event
}.

#[export] Instance eta_transaction : Eta transaction := fun t => MkTx (tx_op t) (tx_at t) (tx_rows t).
#[export] Instance eta_world : Eta world := fun w =>
  MkWorld (w_clock w) (w_table w) (w_txs w) (w_threads w) (w_trace w).

(** ** Calls *)

(** What thread [i] sees, and what [NOW()] is for it. *)
Definition view (i : nat) (w : world) : table :=
  match w_txs w !! i with Some t => tx_rows t ∪ w_table w | None => w_table w end.

Definition dbnow (i : nat) (w : world) : Z :=
  match w_txs w !! i with Some t => tx_at t | None => w_clock w end.

Definition written (j : nat) (w : world) (k : K) : Prop :=
  exists t, w_txs w !! j = Some t /\ is_Some (tx_rows t !! k).

(** The entries of [t] with a key in [L], over [p]. *)
Definition overlay (L : gset K) (t p : table) : table := filter (fun e => e.1 ∈ L) t ∪ p.

Definition publish (l : label) (t : table) (w : world) : world :=
  w <| w_trace := w_trace w ++ [MkEvent l (w_table w) t] |> <| w_table := t |>.

Definition after_stmt (i : nat) {R : Type} (s : stmt R) (t : table) (w : world) : world :=
  match w_txs w !! i with
  | None => publish (ByStmt s (w_clock w)) t w
  | Some x => w <| w_txs := <[ i := x <| tx_rows := overlay (writes (dbnow i w) s (view i w)) t (tx_rows x) |> ]> (w_txs w) |>
  end.

Definition rollbackTx (i : nat) (w : world) : world := w <| w_txs := delete i (w_txs w) |>.

Definition commitTx (i : nat) (w : world) : world :=
  match w_txs w !! i with
  | None => w
  | Some x => rollbackTx i (publish (ByTx (tx_op x) (tx_at x)) (tx_rows x ∪ w_table w) w)
  end.

Definition run_sql (i : nat) {R : Type} (s : stmt R) (w : world) : option R * world :=
  match exec_stmt (dbnow i w) s (view i w) with
  | Some (r, t) => (Some r, after_stmt i s t w)
  | None => (None, w)
  end.

(** A statement waits for other transactions that have written what it writes. *)
Definition enabled (i : nat) {R : Type} (s : stmt R) (w : world) : Prop :=
  forall j k, j <> i -> written j w k -> k ∉ writes (dbnow i w) s (view i w).

(** What a call of thread [i] answers and leaves. *)
Definition answers (i : nat) {R : Type} (c : call R) (w : world) : option R -> world -> Prop :=
  match c in Transactions.call _ _ _ R return option R -> world -> Prop with
  | Now => fun r w' => r = Some (w_clock w) /\ w' = w
  | Begin o => fun r w' =>
    (r = Some tt /\ w' = w <| w_txs := <[ i := MkTx o (w_clock w) ∅ ]> (w_txs w) |>) \/ (r = None /\ w' = w)
  | Commit => fun r w' =>
    (r = Some tt /\ w' = commitTx i w) \/ (r = None /\ w' = rollbackTx i w) \/ (r = None /\ w' = commitTx i w)
  | Rollback => fun r w' => r = Some tt /\ w' = rollbackTx i w
  | Sql s => fun r w' =>
    (enabled i s w /\ r = (run_sql i s w).1 /\ w' = (run_sql i s w).2) \/ (r = None /\ w' = w)
    \/ (enabled i s w /\ r = None /\ w' = (run_sql i s w).2)
  | Ext x => fun _ w' => w' = w
  end.

Definition continue_ (i : nat) (p : prog unit) (w : world) : world :=
  w <| w_threads := <[ i := p ]> (w_threads w) |>.

Section Steps.
Context (handler : table -> prog unit -> Prop) (outside : table -> table -> Prop).

Inductive step : world -> world -> Prop :=
  | step_tick w t : w_clock w <= t -> step w (w <| w_clock := t |>)
  | step_start w p : handler (w_table w) p -> step w (w <| w_threads := w_threads w ++ [p] |>)
  | step_outside w t :
    outside (w_table w) t -> (forall j k, written j w k -> t !! k = w_table w !! k) ->
    step w (publish ByOthers t w)
  | step_crash w i p :
    w_threads w !! i = Some p -> step w (continue_ i (Ret tt) (rollbackTx i w))
  | step_call w i R (c : call R) k r w' :
    w_threads w !! i = Some (Do c k) -> answers i c w r w' -> step w (continue_ i (k r) w').
End Steps.

(** ** Worlds in order *)

(** No entry is written by two transactions. *)
Definition inv (w : world) : Prop :=
  forall i j k, i <> j -> written i w k -> ~ written j w k.

Lemma inv_txs w w' : inv w -> w_txs w' = w_txs w -> inv w'.
Proof. intros I E i j k N [t [X1 X2]] [u [Y1 Y2]]. rewrite E in *. apply (I i j k N); [by exists t|by exists u]. Qed.

Lemma written_insert i x j w k :
  written j (w <| w_txs := <[ i := x ]> (w_txs w) |>) k <->
  (j = i /\ is_Some (tx_rows x !! k)) \/ (j <> i /\ written j w k).
Proof.
  unfold written. cbn. split.
  - intros [t [X1 X2]]. apply lookup_insert_Some in X1 as [[-> ->]|[N X1]]; [by left|]. right. eauto.
  - intros [[-> S]|[N [t [X1 X2]]]]; [exists x; by rewrite lookup_insert_eq|]. exists t. by rewrite lookup_insert_ne.
Qed.

Lemma written_delete i j w k : written j (rollbackTx i w) k <-> j <> i /\ written j w k.
Proof.
  unfold written, rollbackTx. cbn. split.
  - intros [t [X1 X2]]. apply lookup_delete_Some in X1 as [N X1]. split; [done|eauto].
  - intros [N [t [X1 X2]]]. exists t. by rewrite lookup_delete_ne.
Qed.

Lemma written_publish l t j w k : written j (publish l t w) k <-> written j w k.
Proof. done. Qed.

Lemma inv_rollback i w : inv w -> inv (rollbackTx i w).
Proof. intros I j l k N. rewrite !written_delete. intros [? ?] [? ?]. by apply (I j l k). Qed.

Lemma inv_commit i w : inv w -> inv (commitTx i w).
Proof. intros I. unfold commitTx. destruct (w_txs w !! i); [|done]. by apply inv_rollback, (inv_txs w). Qed.

Lemma overlay_lookup_ne L t p k : k ∉ L -> overlay L t p !! k = p !! k.
Proof.
  intros N. unfold overlay. rewrite lookup_union_r; [done|]. apply map_lookup_filter_None. right. intros v _. done.
Qed.

Lemma overlay_lookup L t p k v : k ∈ L -> t !! k = Some v -> overlay L t p !! k = Some v.
Proof. intros N E. apply lookup_union_Some_l, map_lookup_filter_Some. done. Qed.

Lemma inv_sql i {R : Type} (s : stmt R) w : inv w -> enabled i s w -> inv (run_sql i s w).2.
Proof.
  intros I En. unfold run_sql. destruct (exec_stmt _ _ _) as [[r t]|]; [|done]. cbn. unfold after_stmt.
  destruct (w_txs w !! i) as [x|] eqn:X; [|by apply (inv_txs w)].
  assert (G : forall l k, l <> i -> written l w k ->
     is_Some (overlay (writes (dbnow i w) s (view i w)) t (tx_rows x) !! k) -> False).
  { intros l k N W S. rewrite overlay_lookup_ne in S by (by eapply En). apply (I l i k N W). by exists x. }
  intros j l k N. rewrite !written_insert. cbn.
  intros [[-> S]|[Nj W]] [[-> S']|[Nl W']]; [done|by apply (G l k)|by apply (G j k)|by apply (I j l k)].
Qed.

(** ** Plans

    Which entries a transaction has written and what is known of each, given the committed
    version. *)

Definition plan : Type := K -> option (option V -> V -> Prop).

Definition follows (st : plan) (rows t : table) : Prop := forall k,
  match st k with None => rows !! k = None | Some R => exists v, rows !! k = Some v /\ R (t !! k) v end.

Definition untouched : plan := fun _ => None.

Definition amend (st : plan) (k : K) (R : option V -> V -> Prop) : plan := fun k' =>
  if decide (k' = k) then Some R else st k'.

Lemma follows_untouched t : follows untouched ∅ t.
Proof. intros k. apply lookup_empty. Qed.

(** What the thread sees of an entry. *)
Lemma follows_view st rows t k :
  follows st rows t ->
  match st k with
  | None => (rows ∪ t) !! k = t !! k
  | Some R => exists v, (rows ∪ t) !! k = Some v /\ R (t !! k) v
  end.
Proof.
  intros F. specialize (F k). destruct (st k) as [R|].
  - destruct F as (v & X & Y). exists v. split; [|done]. by apply lookup_union_Some_l.
  - by rewrite lookup_union_r.
Qed.

Lemma follows_amend st rows t t' k v (R : option V -> V -> Prop) :
  follows st rows t -> t' !! k = Some v -> R (t !! k) v ->
  follows (amend st k R) (overlay {[ k ]} t' rows) t.
Proof.
  intros F E Rv k'. unfold amend. destruct (decide (k' = k)) as [->|N].
  - exists v. split; [|done]. apply overlay_lookup; [set_solver|done].
  - rewrite overlay_lookup_ne by set_solver. apply F.
Qed.

Lemma overlay_nothing t rows : overlay ∅ t rows = rows.
Proof. apply map_eq. intros k. by rewrite overlay_lookup_ne by set_solver. Qed.

(** ** What a thread relies on *)

Section Logic.
Context (keeps : table -> table -> Prop) (outside : table -> table -> Prop).
Context (lawful : O -> Z -> table -> table -> Prop) (quiet : forall R, stmt R -> Prop).
Hypothesis keeps_refl : forall t, keeps t t.
Hypothesis keeps_trans : forall t u v, keeps t u -> keeps u v -> keeps t v.
Hypothesis keeps_outside : forall t u, outside t u -> keeps t u.
Hypothesis keeps_lawful : forall o at_ t u, lawful o at_ t u -> keeps t u.
Hypothesis keeps_quiet : forall R at_ (s : stmt R) t r u,
  quiet R s -> exec_stmt at_ s t = Some (r, u) -> keeps t u.

Record rely (i : nat) (w w' : world) : Prop := MkRely {
  rely_tx : w_txs w' !! i = w_txs w !! i;
  rely_rows k : written i w k -> w_table w' !! k = w_table w !! k;
  rely_keeps : keeps (w_table w) (w_table w');
  rely_clock : w_clock w <= w_clock w'
}.

Lemma tx_rely_refl i w : rely i w w.
Proof. constructor; auto. lia. Qed.

Lemma rely_written i w w' k : rely i w w' -> written i w k -> written i w' k.
Proof. intros [T _ _ _] [t [E S]]. exists t. by rewrite T. Qed.

Lemma tx_rely_trans i w1 w2 w3 : rely i w1 w2 -> rely i w2 w3 -> rely i w1 w3.
Proof.
  intros R1 R2. pose proof R1 as [T1 W1 K1 C1]. pose proof R2 as [T2 W2 K2 C2].
  constructor; [congruence| |eauto|lia]. intros k X. rewrite W2; [by apply W1|by eapply rely_written].
Qed.

(** What thread [i] answers for when it makes a call. *)
Definition call_ok (i : nat) {R : Type} (c : call R) (w : world) : Prop :=
  match c, w_txs w !! i with
  | Commit, Some x => lawful (tx_op x) (tx_at x) (w_table w) (tx_rows x ∪ w_table w)
  | Sql s, None => quiet _ s
  | _, _ => True
  end.

Lemma rely_other i j w x :
  i <> j -> rely j w (w <| w_txs := <[ i := x ]> (w_txs w) |>).
Proof. intros N. constructor; cbn; [by rewrite lookup_insert_ne|auto..|lia]. Qed.

Lemma rely_rollback i j w : i <> j -> rely j w (rollbackTx i w).
Proof. intros N. constructor; cbn; [by rewrite lookup_delete_ne|auto..|lia]. Qed.

Lemma rely_publish j w l t :
  keeps (w_table w) t -> (forall k, written j w k -> t !! k = w_table w !! k) -> rely j w (publish l t w).
Proof. intros K1 W. constructor; cbn; auto. lia. Qed.

Lemma rely_commit i j w : inv w -> call_ok i Commit w -> i <> j -> rely j w (commitTx i w).
Proof.
  intros I Ok N. unfold call_ok in Ok. unfold commitTx. destruct (w_txs w !! i) as [x|] eqn:X; [|apply tx_rely_refl].
  eapply tx_rely_trans; [|by apply rely_rollback]. apply rely_publish; [by eapply keeps_lawful|].
  intros k W. rewrite lookup_union_r; [done|]. destruct (tx_rows x !! k) eqn:E; [|done].
  destruct (I i j k N); [|done]. exists x. by rewrite E.
Qed.

Lemma rely_sql i j {R : Type} (s : stmt R) w :
  call_ok i (Sql s) w -> enabled i s w -> i <> j -> rely j w (run_sql i s w).2.
Proof.
  intros Ok En N. unfold run_sql. destruct (exec_stmt _ _ _) as [[r t]|] eqn:E; [|apply tx_rely_refl].
  cbn. unfold after_stmt. cbn in Ok. destruct (w_txs w !! i) as [x|] eqn:X; [by apply rely_other|].
  apply rely_publish.
  - unfold view in E. rewrite X in E. by eapply keeps_quiet.
  - intros k W. apply (exec_frame _ _ _ _ _ _ k) in E; [|by eapply En].
    rewrite E. unfold view. by rewrite X.
Qed.

(** A call of one thread is a step that the others rely on. *)
Lemma tx_answers_rely i j {R : Type} (c : call R) w r w' :
  inv w -> call_ok i c w -> answers i c w r w' -> i <> j -> rely j w w'.
Proof.
  intros I Ok An N.
  destruct c; cbn in An; destruct_and?; destruct_or?; destruct_and?; subst;
    first [apply tx_rely_refl|by apply rely_other|by apply rely_commit|by apply rely_rollback|by apply rely_sql].
Qed.

Lemma tx_answers_inv i {R : Type} (c : call R) w r w' : inv w -> answers i c w r w' -> inv w'.
Proof.
  intros I An. destruct c; cbn in An; destruct_and?; destruct_or?; destruct_and?; subst;
    try first [done|by apply inv_commit|by apply inv_rollback|by apply inv_sql].
  intros j l k N. rewrite !written_insert. cbn. intros [[-> S]|[Nj W]] [[-> S']|[Nl W']]; try done.
  - by destruct S.
  - by destruct S'.
  - by apply (I j l k).
Qed.

(** ** The logic *)

Fixpoint wp (i : nat) {A : Type} (p : prog A) (Q : A -> world -> Prop) (w : world) : Prop :=
  match p with
  | Ret a => Q a w
  | Do c k => forall w1, rely i w w1 -> inv w1 ->
      call_ok i c w1 /\ forall r w2, answers i c w1 r w2 -> inv w2 -> wp i (k r) Q w2
  end.

Definition anything {A : Type} : A -> world -> Prop := fun _ _ => True.

Section Rules.
Context (i : nat).

Lemma tx_wp_rely {A : Type} (p : prog A) w w' : wp i p anything w -> rely i w w' -> wp i p anything w'.
Proof. destruct p as [a|R c k]; [done|]. intros W R1 w1 R2 I1. apply W; [by eapply tx_rely_trans|done]. Qed.

Lemma tx_bind {A B : Type} (p : prog A) (f : A -> prog B) Q w :
  wp i p (fun a => wp i (f a) Q) w -> wp i (bind p f) Q w.
Proof.
  revert w. induction p as [a|R c k IH]; intros w W; [done|]. intros w1 R1 I1.
  destruct (W w1 R1 I1) as [C W']. split; [done|]. intros r w2 An I2. eapply IH, W'; done.
Qed.

Lemma tx_mono {A : Type} (p : prog A) (Q Q' : A -> world -> Prop) w :
  (forall a w', Q a w' -> Q' a w') -> wp i p Q w -> wp i p Q' w.
Proof.
  intros M. revert w. induction p as [a|R c k IH]; intros w W; [by apply M|]. intros w1 R1 I1.
  destruct (W w1 R1 I1) as [C W']. split; [done|]. intros r w2 An I2. eapply IH, W'; done.
Qed.
End Rules.

(** ** Rules

    A thread is [idle] between transactions and follows a [plan] within one; [t0] are tables
    that the committed ones still keep. *)

Definition idle (i : nat) (t0 : table) (w : world) : Prop :=
  w_txs w !! i = None /\ keeps t0 (w_table w).

Definition in_tx (i : nat) (t0 : table) (o : O) (at_ : Z) (st : plan) (w : world) : Prop :=
  exists rows, w_txs w !! i = Some (MkTx o at_ rows) /\ follows st rows (w_table w) /\ keeps t0 (w_table w).

Lemma idle_rely i t0 w w' : idle i t0 w -> rely i w w' -> idle i t0 w'.
Proof. intros [E Kp] R. split; [by rewrite (rely_tx _ _ _ R)|]. eapply keeps_trans; [done|apply R]. Qed.

Lemma in_tx_rely i t0 o at_ st w w' : in_tx i t0 o at_ st w -> rely i w w' -> in_tx i t0 o at_ st w'.
Proof.
  intros (rows & E & F & Kp) R. exists rows. split; [by rewrite (rely_tx _ _ _ R)|].
  split; [|eapply keeps_trans; [done|apply R]]. intros k. specialize (F k).
  destruct (st k) as [P|]; [|done]. destruct F as (v & X & Y). exists v. split; [done|].
  rewrite (rely_rows _ _ _ R k); [done|]. exists (MkTx o at_ rows). split; [done|]. cbn. by rewrite X.
Qed.

Section Rules.
Context (i : nat) (t0 : table) {A : Type} (Q : A -> world -> Prop).

(** A statement outside of a transaction; when it answers, it has run. *)
Lemma tx_quiet {R : Type} (s : stmt R) (k : option R -> prog A) w :
  idle i t0 w -> quiet R s ->
  (forall r w', idle i t0 w' ->
     (forall x, r = Some x -> exists now t, keeps t0 t /\ exec_stmt now s t = Some (x, w_table w')) -> wp i (k r) Q w') ->
  wp i (Do (Sql s) k) Q w.
Proof.
  intros Id Qt W w1 R1 I1. pose proof (idle_rely _ _ _ _ Id R1) as Id1. pose proof Id1 as [E Kp].
  split; [by cbn; rewrite E|]. intros r w2 An I2. cbn in An. unfold run_sql, view, dbnow in An. rewrite E in An.
  destruct (exec_stmt (w_clock w1) s (w_table w1)) as [[r0 t]|] eqn:X; cbn in An.
  - unfold after_stmt in An. rewrite E in An.
    assert (Id2 : idle i t0 (publish (ByStmt s (w_clock w1)) t w1)).
    { split; cbn; [done|]. eapply keeps_trans; [done|by eapply keeps_quiet]. }
    destruct_or?; destruct_and?; subst; apply W; try done. intros x [= <-]. by exists (w_clock w1), (w_table w1).
  - destruct_or?; destruct_and?; subst; apply W; done.
Qed.

Lemma wp_begin o (k : option unit -> prog A) w :
  idle i t0 w -> (forall w', idle i t0 w' -> wp i (k None) Q w') ->
  (forall at_ w', in_tx i t0 o at_ untouched w' -> wp i (k (Some tt)) Q w') -> wp i (Do (Begin o) k) Q w.
Proof.
  intros Id W1 W2 w1 R1 I1. pose proof (idle_rely _ _ _ _ Id R1) as Id1.
  split; [done|]. intros r w2 An I2. cbn in An. destruct_or?; destruct_and?; subst; [|by apply W1].
  eapply (W2 (w_clock w1)). exists ∅. cbn. rewrite lookup_insert_eq. split; [done|].
  split; [apply follows_untouched|apply Id1].
Qed.

Lemma wp_rollback (k : option unit -> prog A) w :
  keeps t0 (w_table w) -> (forall w', idle i t0 w' -> wp i (k (Some tt)) Q w') -> wp i (Do Rollback k) Q w.
Proof.
  intros Kp W w1 R1 I1. split; [done|]. intros r w2 An I2. cbn in An. destruct_and?; subst. apply W.
  split; cbn; [apply lookup_delete_eq|]. eapply keeps_trans; [done|apply R1].
Qed.

Lemma wp_commit o at_ st (k : option unit -> prog A) w :
  in_tx i t0 o at_ st w ->
  (forall rows t, follows st rows t -> keeps t0 t -> lawful o at_ t (rows ∪ t)) ->
  (forall r w', idle i t0 w' -> wp i (k r) Q w') -> wp i (Do Commit k) Q w.
Proof.
  intros Tx L W w1 R1 I1. pose proof (in_tx_rely _ _ _ _ _ _ _ Tx R1) as (rows & E & F & Kp).
  split; [by cbn; rewrite E; apply L|]. intros r w2 An I2. apply W.
  assert (Id2 : idle i t0 (commitTx i w1)).
  { unfold commitTx. rewrite E. split; cbn; [apply lookup_delete_eq|].
    eapply keeps_trans; [done|]. eapply keeps_lawful. by apply L. }
  cbn in An. destruct_or?; destruct_and?; subst; try done. split; cbn; [apply lookup_delete_eq|done].
Qed.

(** A statement of a transaction.  When there is no answer nothing is known but that the
    committed tables are as before. *)
Lemma wp_sql o at_ st {R : Type} (s : stmt R) (k : option R -> prog A) w :
  in_tx i t0 o at_ st w -> (forall w', keeps t0 (w_table w') -> wp i (k None) Q w') ->
  (forall w' rows r t', follows st rows (w_table w') -> keeps t0 (w_table w') ->
    exec_stmt at_ s (rows ∪ w_table w') = Some (r, t') ->
    w_txs w' !! i = Some (MkTx o at_ (overlay (writes at_ s (rows ∪ w_table w')) t' rows)) ->
    wp i (k (Some r)) Q w') -> wp i (Do (Sql s) k) Q w.
Proof.
  intros Tx W1 W2 w1 R1 I1. pose proof (in_tx_rely _ _ _ _ _ _ _ Tx R1) as (rows & E & F & Kp).
  split; [by cbn; rewrite E|]. intros r w2 An I2. cbn in An. unfold run_sql, view, dbnow in An. rewrite E in An. cbn in An.
  destruct (exec_stmt at_ s (rows ∪ w_table w1)) as [[r0 t']|] eqn:X; cbn in An.
  - unfold after_stmt, view, dbnow in An. rewrite E in An. cbn in An.
    destruct_or?; destruct_and?; subst; [|by apply W1..].
    apply (W2 _ rows r0 t'); cbn; try done. by rewrite lookup_insert_eq.
  - destruct_or?; destruct_and?; subst; by apply W1.
Qed.

Lemma wp_ext {R : Type} (x : xcall R) (k : option R -> prog A) w :
  idle i t0 w -> (forall r w', idle i t0 w' -> wp i (k r) Q w') -> wp i (Do (Ext x) k) Q w.
Proof.
  intros Id W w1 R1 I1. pose proof (idle_rely _ _ _ _ Id R1). split; [done|]. intros r w2 An I2. cbn in An. subst. by apply W.
Qed.

Lemma wp_clock (P : world -> Prop) (k : option Z -> prog A) w :
  (forall w', rely i w w' -> P w') -> (forall t w', P w' -> wp i (k (Some t)) Q w') -> wp i (Do Now k) Q w.
Proof. intros Id W w1 R1 I1. split; [done|]. intros r w2 An I2. cbn in An. destruct_and?; subst. apply W. by apply Id. Qed.
End Rules.

(** ** Soundness *)

(** A change of the committed tables that some thread, or the rest of the program, has
    answered for. *)
Definition event_ok (e : event) : Prop :=
  match ev_label e with
  | ByTx o at_ => lawful o at_ (ev_before e) (ev_after e)
  | ByStmt s at_ => quiet _ s /\ exists r, exec_stmt at_ s (ev_before e) = Some (r, ev_after e)
  | ByOthers => outside (ev_before e) (ev_after e)
  end.

(** Each change starts from the tables that the one before left. *)
Inductive chain : table -> list event -> table -> Prop :=
  | chain_nil t : chain t [] t
  | chain_snoc t l e : chain t l (ev_before e) -> chain t (l ++ [e]) (ev_after e).

Context (handler : table -> prog unit -> Prop).
Hypothesis handlers_ok : forall i p w, handler (w_table w) p -> w_txs w !! i = None -> wp i p anything w.

Record good (t0 : table) (w : world) : Prop := MkGood {
  good_inv : inv w;
  good_txs i : is_Some (w_txs w !! i) -> (i < length (w_threads w))%nat;
  good_threads i p : w_threads w !! i = Some p -> wp i p anything w;
  good_trace : Forall event_ok (w_trace w);
  good_chain : chain t0 (w_trace w) (w_table w)
}.

Lemma publish_trace t0 l t w :
  Forall event_ok (w_trace w) -> chain t0 (w_trace w) (w_table w) -> event_ok (MkEvent l (w_table w) t) ->
  Forall event_ok (w_trace (publish l t w)) /\ chain t0 (w_trace (publish l t w)) (w_table (publish l t w)).
Proof.
  intros F C E. split; cbn; [by apply Forall_app_2, Forall_singleton|].
  by apply (chain_snoc t0 (w_trace w) (MkEvent l (w_table w) t)).
Qed.

Lemma commit_trace t0 i w :
  Forall event_ok (w_trace w) -> chain t0 (w_trace w) (w_table w) -> call_ok i Commit w ->
  Forall event_ok (w_trace (commitTx i w)) /\ chain t0 (w_trace (commitTx i w)) (w_table (commitTx i w)).
Proof.
  intros F C Ok. unfold commitTx. unfold call_ok in Ok. destruct (w_txs w !! i) as [x|]; [|done].
  by apply (publish_trace t0).
Qed.

Lemma sql_trace t0 i {R : Type} (s : stmt R) w :
  Forall event_ok (w_trace w) -> chain t0 (w_trace w) (w_table w) -> call_ok i (Sql s) w ->
  Forall event_ok (w_trace (run_sql i s w).2) /\ chain t0 (w_trace (run_sql i s w).2) (w_table (run_sql i s w).2).
Proof.
  intros F C Ok. unfold run_sql. destruct (exec_stmt _ _ _) as [[r t]|] eqn:E; [|done]. cbn in *.
  unfold after_stmt, view, dbnow in *. destruct (w_txs w !! i) as [x|]; [done|].
  apply (publish_trace t0); [done..|]. split; [done|]. by exists r.
Qed.

Lemma answers_trace t0 i {R : Type} (c : call R) w r w' :
  Forall event_ok (w_trace w) -> chain t0 (w_trace w) (w_table w) -> call_ok i c w -> answers i c w r w' ->
  Forall event_ok (w_trace w') /\ chain t0 (w_trace w') (w_table w').
Proof.
  intros F C Ok An. destruct c; cbn in An; destruct_and?; destruct_or?; destruct_and?; subst;
    first [done|by apply commit_trace|by apply sql_trace].
Qed.

Lemma answers_threads i {R : Type} (c : call R) w r w' :
  answers i c w r w' -> w_threads w' = w_threads w /\ forall j, j <> i -> w_txs w' !! j = w_txs w !! j.
Proof.
  intros An. destruct c; cbn in An; destruct_and?; destruct_or?; destruct_and?; subst; cbn;
    (split; [try done|intros j N; try done]);
    unfold run_sql, after_stmt, commitTx; repeat case_match; cbn; try done;
    first [by rewrite lookup_insert_ne|by rewrite lookup_delete_ne].
Qed.

(** A thread keeps its specification when the others move. *)
Lemma threads_keep i w w' p0 :
  (forall j p, w_threads w !! j = Some p -> wp j p anything w) ->
  (forall j, j <> i -> rely j w w') -> w_threads w' = <[ i := p0 ]> (w_threads w) ->
  (w_threads w !! i = None \/ wp i p0 anything w') ->
  forall j p, w_threads w' !! j = Some p -> wp j p anything w'.
Proof.
  intros T R E P j p X. rewrite E in X. destruct (decide (j = i)) as [->|N].
  - destruct P as [P|P].
    + rewrite list_insert_ge in X by (by apply lookup_ge_None_1). congruence.
    + apply list_lookup_insert_Some in X as [(_ & <- & _)|[? ?]]; done.
  - rewrite list_lookup_insert_ne in X by done. eapply tx_wp_rely; [by apply T|by apply R].
Qed.

Lemma good_step t0 w w' : good t0 w -> step handler outside w w' -> good t0 w'.
Proof.
  intros G St. pose proof G as [I X T F C]. destruct St as [w t L|w p Hp|w t Ot Wr|w i p E|w i R c k r w' E An].
  - constructor; cbn; try done. intros i p E. eapply tx_wp_rely; [by apply T|].
    constructor; cbn; auto.
  - constructor; cbn; try done.
    + intros i S. rewrite length_app. specialize (X i S). cbn. lia.
    + intros i q E. apply lookup_app_Some in E as [E|[L E]].
      * eapply tx_wp_rely; [by apply T|]. constructor; cbn; auto. lia.
      * apply list_lookup_singleton_Some in E as [E <-]. apply handlers_ok; [done|]. cbn.
        destruct (w_txs w !! i) eqn:Y; [|done]. assert (i < length (w_threads w))%nat by (apply X; by rewrite Y). lia.
  - destruct (publish_trace t0 ByOthers t w F C) as [F' C']; [done|].
    constructor; try done. intros i p E. eapply tx_wp_rely; [by apply T|].
    apply rely_publish; [by apply keeps_outside|]. intros k W. by apply (Wr i).
  - constructor; cbn; try done.
    + apply (inv_txs (rollbackTx i w)); [by apply inv_rollback|done].
    + intros j [y S]. apply lookup_delete_Some in S as [_ S]. rewrite length_insert. apply X. by rewrite S.
    + apply (threads_keep i w (continue_ i (Ret tt) (rollbackTx i w)) (Ret tt)); [done| |done|by right].
      intros j N. eapply tx_rely_trans; [by apply (rely_rollback i j)|]. constructor; cbn; auto. lia.
  - destruct (T i _ E w (tx_rely_refl i w) I) as [Ok W].
    destruct (answers_trace t0 i c w r w' F C Ok An) as [F' C'].
    destruct (answers_threads i c w r w' An) as [Th Tx]. pose proof (tx_answers_inv i c w r w' I An) as I'.
    assert (Rl : rely i w' (continue_ i (k r) w')) by (constructor; cbn; auto; lia).
    constructor; cbn; try done.
    + intros j S. rewrite length_insert, Th. destruct (decide (j = i)) as [->|N]; [by eapply lookup_lt_Some|].
      rewrite Tx in S by done. by apply X.
    + apply (threads_keep i w (continue_ i (k r) w') (k r)); [done| |cbn; by rewrite Th|right; eapply tx_wp_rely; [by apply W|done]].
      intros j N. eapply tx_rely_trans; [by eapply tx_answers_rely|]. constructor; cbn; auto. lia.
Qed.

(** Every change of the committed tables in a run is one that its author answers for. *)
Lemma reachable_good t0 clock w :
  rtc (step handler outside) (MkWorld clock t0 ∅ [] []) w -> good t0 w.
Proof.
  apply (rtc_ind_r (good t0)); [|by intros; eapply good_step].
  constructor; cbn; try done; [|by intros i [x S]|constructor]. intros i j k _ [t [S _]]. done.
Qed.
End Logic.

(** Changes are only added. *)
Lemma answers_prefix i {R : Type} (c : call R) w r w' : answers i c w r w' -> w_trace w `prefix_of` w_trace w'.
Proof.
  intros An. destruct c; cbn in An; destruct_and?; destruct_or?; destruct_and?; subst; try done;
    unfold run_sql, after_stmt, commitTx; repeat case_match; cbn; try done; by apply prefix_app_r.
Qed.

Lemma step_prefix handler outside w w' : step handler outside w w' -> w_trace w `prefix_of` w_trace w'.
Proof.
  destruct 1 as [w t L|w p Hp|w t Ot Wr|w i p E|w i R c k r w' E An]; cbn; try done; [by apply prefix_app_r|].
  by eapply answers_prefix.
Qed.

Lemma steps_prefix handler outside w w' : rtc (step handler outside) w w' -> w_trace w `prefix_of` w_trace w'.
Proof. induction 1; [done|]. etrans; [by eapply step_prefix|done]. Qed.

(** ** Playing a schedule *)

(** What becomes of a call: it is answered, it never arrives, or its answer is lost. *)
Inductive delivery := Answered | Unsent | Unanswered.

Definition enabledb (i : nat) {R : Type} (s : stmt R) (w : world) : bool :=
  forallb (fun e : nat * transaction => (e.1 =? i)%nat ||
    forallb (fun r : K * V => negb (bool_decide (r.1 ∈ writes (dbnow i w) s (view i w)))) (map_to_list (tx_rows e.2)))
    (map_to_list (w_txs w)).

Section Play.
Context (reply : forall R, xcall R -> option R).

Definition play_call (i : nat) (d : delivery) (w : world) {R : Type} (c : call R) (k : option R -> prog unit) : option world :=
  match c in Transactions.call _ _ _ R return (option R -> prog unit) -> option world with
  | Now => fun k => Some (continue_ i (k (Some (w_clock w))) w)
  | Begin o => fun k =>
    match d with
    | Answered => Some (continue_ i (k (Some tt)) (w <| w_txs := <[ i := MkTx o (w_clock w) ∅ ]> (w_txs w) |>))
    | _ => Some (continue_ i (k None) w)
    end
  | Commit => fun k =>
    match d with
    | Answered => Some (continue_ i (k (Some tt)) (commitTx i w))
    | Unsent => Some (continue_ i (k None) (rollbackTx i w))
    | Unanswered => Some (continue_ i (k None) (commitTx i w))
    end
  | Rollback => fun k => Some (continue_ i (k (Some tt)) (rollbackTx i w))
  | Sql s => fun k =>
    match d with
    | Unsent => Some (continue_ i (k None) w)
    | _ =>
      if enabledb i s w then
        let '(r, w') := run_sql i s w in
        Some (continue_ i (k (match d with Answered => r | _ => None end)) w')
      else None
    end
  | Ext x => fun k => Some (continue_ i (k (reply _ x)) w)
  end k.

Lemma tx_enabledb_sound i {R : Type} (s : stmt R) w : enabledb i s w = true -> enabled i s w.
Proof.
  unfold enabledb. rewrite forallb_forall. intros F j k N [t [E [v Ev]]] X.
  assert (In : List.In (j, t) (map_to_list (w_txs w))) by (by apply list_elem_of_In, elem_of_map_to_list).
  specialize (F (j, t) In). cbn in F. apply orb_true_iff in F as [F|F]; [apply Nat.eqb_eq in F; by subst|].
  rewrite forallb_forall in F. assert (In' : List.In (k, v) (map_to_list (tx_rows t))) by (by apply list_elem_of_In, elem_of_map_to_list).
  specialize (F (k, v) In'). cbn in F. rewrite bool_decide_true in F by done. done.
Qed.

Lemma play_call_sound i d w {R : Type} (c : call R) k w' :
  play_call i d w c k = Some w' -> exists r w2, answers i c w r w2 /\ w' = continue_ i (k r) w2.
Proof.
  destruct c; cbn; intros E.
  - simplify_eq. eauto.
  - destruct d; simplify_eq; eexists _, _; (split; [|done]); auto.
  - destruct d; simplify_eq; eexists _, _; (split; [|done]); auto.
  - simplify_eq. eauto.
  - assert (S : forall d', d' = Answered \/ d' = Unanswered ->
      (if enabledb i s w then let '(r, w') := run_sql i s w in
         Some (continue_ i (k (match d' with Answered => r | _ => None end)) w') else None) = Some w' ->
      exists r w2, ((enabled i s w /\ r = (run_sql i s w).1 /\ w2 = (run_sql i s w).2) \/ (r = None /\ w2 = w)
        \/ (enabled i s w /\ r = None /\ w2 = (run_sql i s w).2)) /\ w' = continue_ i (k r) w2).
    { intros d' D E'. destruct (enabledb i s w) eqn:En; [|done]. apply tx_enabledb_sound in En.
      destruct (run_sql i s w) as [r w1] eqn:Rs. destruct D as [-> | ->]; simplify_eq; eexists _, _; (split; [|done]); auto. }
    destruct d; [by apply (S Answered); auto| |by apply (S Unanswered); auto]. simplify_eq. eexists _, _. split; [|done]. auto.
  - simplify_eq. eauto.
Qed.

Definition play_step (i : nat) (d : delivery) (w : world) : option world :=
  match w_threads w !! i with
  | Some (Do c k) => play_call i d w c k
  | _ => None
  end.

Lemma play_step_sound handler outside i d w w' : play_step i d w = Some w' -> step handler outside w w'.
Proof.
  unfold play_step. destruct (w_threads w !! i) as [[|R c k]|] eqn:E; try done. intros P.
  destruct (play_call_sound i d w c k w' P) as (r & w2 & An & ->). by eapply step_call.
Qed.
End Play.

(** ** A program that runs alone

    While no other transaction is open, and with every call answered. *)

Definition solo_call (i : nat) {R : Type} (c : call R) (w : world) : option R * world :=
  match c in Transactions.call _ _ _ R return option R * world with
  | Now => (Some (w_clock w), w)
  | Begin o => (Some tt, w <| w_txs := <[ i := MkTx o (w_clock w) ∅ ]> (w_txs w) |>)
  | Commit => (Some tt, commitTx i w)
  | Rollback => (Some tt, rollbackTx i w)
  | Sql s => run_sql i s w
  | Ext _ => (None, w)
  end.

Fixpoint solo (i : nat) {A : Type} (p : prog A) (w : world) : A * world :=
  match p with
  | Ret a => (a, w)
  | Do c k => let r := solo_call i c w in solo i (k r.1) r.2
  end.

Lemma tx_solo_bind i {A B : Type} (p : prog A) (f : A -> prog B) w :
  solo i (bind p f) w = let r := solo i p w in solo i (f r.1) r.2.
Proof. revert w. induction p as [a|R c k IH]; intros w; [done|]. apply IH. Qed.

Definition others_idle (i : nat) (w : world) : Prop := forall j, j <> i -> w_txs w !! j = None.

Lemma solo_call_answers i {R : Type} (c : call R) w :
  others_idle i w -> answers i c w (solo_call i c w).1 (solo_call i c w).2.
Proof.
  intros Id. assert (En : forall R (s : stmt R), enabled i s w).
  { intros R' s j k N [x [E _]]. rewrite Id in E by done. done. }
  destruct c; cbn; auto.
Qed.

Lemma solo_call_threads i {R : Type} (c : call R) w th :
  solo_call i c (w <| w_threads := th |>) = ((solo_call i c w).1, (solo_call i c w).2 <| w_threads := th |>).
Proof.
  destruct c; cbn; try done.
  - unfold commitTx. cbn. by destruct (w_txs w !! i).
  - unfold run_sql, after_stmt, view, dbnow. cbn. destruct (w_txs w !! i); destruct (exec_stmt _ _ _) as [[]|]; done.
Qed.

Lemma solo_threads i {A : Type} (p : prog A) w : w_threads (solo i p w).2 = w_threads w.
Proof.
  revert w. induction p as [a|R c k IH]; intros w; [done|]. cbn. rewrite IH.
  destruct c; cbn; try done.
  - unfold commitTx. by destruct (w_txs w !! i).
  - unfold run_sql, after_stmt. destruct (exec_stmt _ _ _) as [[]|]; [|done]. by destruct (w_txs w !! i).
Qed.

Lemma solo_steps handler outside i {A : Type} (p : prog A) (f : A -> prog unit) w :
  others_idle i w -> (i < length (w_threads w))%nat ->
  rtc (step handler outside) (continue_ i (bind p f) w) (continue_ i (f (solo i p w).1) (solo i p w).2).
Proof.
  revert w. induction p as [a|R c k IH]; intros w Id L; [apply rtc_refl|]. cbn.
  pose proof (solo_call_answers i c w Id) as An. destruct (answers_threads _ _ _ _ _ An) as [Th Tx].
  eapply rtc_l; [|apply IH; [intros j N; rewrite Tx by done; by apply Id|by rewrite Th]].
  set (q := Do c (fun r => bind (k r) f)).
  assert (E : continue_ i (bind (k (solo_call i c w).1) f) (solo_call i c w).2
    = continue_ i (bind (k (solo_call i c (continue_ i q w)).1) f) (solo_call i c (continue_ i q w)).2).
  { assert (S : solo_call i c (continue_ i q w) = ((solo_call i c w).1, continue_ i q (solo_call i c w).2))
      by (unfold continue_; by rewrite solo_call_threads, Th).
    rewrite S. unfold continue_. cbn. by rewrite list_insert_insert_eq. }
  rewrite E. apply (step_call handler outside (continue_ i q w) i R c (fun r => bind (k r) f));
    [by apply list_lookup_insert_eq|]. by apply solo_call_answers.
Qed.

(** A thread is added, runs and ends. *)
Definition attend {A : Type} (p : prog A) (w : world) : A * world :=
  solo (length (w_threads w)) p (w <| w_threads := w_threads w ++ [Ret tt] |>).

Lemma attend_steps (handler : table -> prog unit -> Prop) outside {A : Type} (p : prog A) w :
  w_txs w = ∅ -> handler (w_table w) (bind p (fun _ => Ret tt)) -> rtc (step handler outside) w (attend p w).2.
Proof.
  intros Id Hp. set (i := length (w_threads w)). set (w1 := w <| w_threads := w_threads w ++ [Ret tt] |>).
  assert (Th : w_threads w1 !! i = Some (Ret tt)) by (by apply list_lookup_middle).
  assert (L : (i < length (w_threads w1))%nat) by (by eapply lookup_lt_Some).
  eapply rtc_l; [by apply step_start|].
  assert (E1 : w <| w_threads := w_threads w ++ [bind p (fun _ => Ret tt)] |> = continue_ i (bind p (fun _ => Ret tt)) w1).
  { unfold continue_, w1. cbn. by rewrite (insert_app_r_alt _ _ i), Nat.sub_diag by done. }
  assert (E2 : (attend p w).2 = continue_ i (Ret tt) (solo i p w1).2).
  { unfold attend. fold i w1. pose proof (solo_threads i p w1) as St.
    destruct (solo i p w1) as [a [cl tb tx th tr]]. cbn in *. subst th. unfold continue_. cbn.
    by rewrite list_insert_id. }
  rewrite E1, E2. apply (solo_steps handler outside i p (fun _ => Ret tt)); [|done]. intros j _. cbn. by rewrite Id.
Qed.
End Machine.
