(* ===== verification/BillingTables.v ===== *)
(** * The tables of usage billing

    The rows that [usage_billing_repo.go], [dashboard_aggregation_repo.go] and
    [batch_image_repo.go] read and write, and their SQL statements.

    PostgreSQL computes with exact decimals and rounds when a column is written.  An
    [amount] is a decimal in units of 10^-324, the last digit that the shortest
    representation of a [float64] can have; columns hold multiples of 10^-8
    ([users.balance], [users.frozen_balance] and the quotas of [api_keys]) or of 10^-10
    ([user_subscriptions], [batch_image_jobs]).  Quotas in [accounts.extra] are JSON numbers
    and are not rounded.

    The entries of [usage_billing_dedup] and [usage_billing_dedup_archive] for the same
    request are one row here, [claim_row].  Rows that nothing modelled reads (events, items,
    the scheduler's outbox) are not kept; the statements that write them can fail like any
    other.  Statements with a parameter that is not a finite number are rejected. *)

From Stdlib Require Import SpecFloat.
From S2P Require Import Prelude GoStrings GoFloat GoTime Programs Subscriptions Transactions.

#[local] Open Scope Z_scope.

(** ** Decimals *)

Notation amount := Z (only parsing).
Notation money8 := Z (only parsing).
Notation money10 := Z (only parsing).

Definition unit8 : amount := 10 ^ 316.
Definition unit10 : amount := 10 ^ 314.

(** Rounding to a multiple of [u], half away from zero. *)
Definition roundTo (u x : Z) : Z :=
  if 0 <=? x then (2 * x + u) / (2 * u) else - ((2 * - x + u) / (2 * u)).

(** What a column of type [decimal(20, s)] holds of a value, if it fits. *)
Definition column (u : amount) (x : amount) : option Z :=
  let n := roundTo u x in if Z.abs n <? 10 ^ 20 then Some n else None.

(** A quotient, correctly rounded: how the text of a decimal is read as a [float64]. *)
Definition float_ratio (n : Z) (d : positive) : float64 :=
  match n with
  | Z0 => fzero
  | Zpos m => SFdiv 53 1024 (S754_finite false m 0) (S754_finite false d 0)
  | Zneg m => SFdiv 53 1024 (S754_finite true m 0) (S754_finite false d 0)
  end.

Definition float8 (n : money8) : float64 := float_ratio n 100000000.
Definition float10 (n : money10) : float64 := float_ratio n 10000000000.
Definition float_of_amount (a : amount) : float64 := float_ratio a (Z.to_pos (10 ^ 324)).

(** What the statements rely on: [decimal_of], the decimal that PostgreSQL reads from the
    text that the driver sends for a [float64]; the time zone database ([at_zone] is
    [t AT TIME ZONE z], [of_zone] its converse); and the order in which a table is scanned. *)
Class PgEnv := {
  decimal_of : float64 -> option amount;
  at_zone : string -> Z -> Z;
  of_zone : string -> Z -> Z;
  scan : list (string * Z) -> list (string * Z);
  decimal_pos f a : flt fzero f = true -> decimal_of f = Some a -> 0 < a;
  decimal_nonpos f a : flt fzero f = false -> decimal_of f = Some a -> a <= 0;
  decimal_number f : IsNaN f = true -> decimal_of f = None;
  scan_perm l : scan l ≡ₚ l
}.

(** ** Rows *)

Record user_row := MkUser {
  u_balance : money8;
  u_frozen_balance : money8;
  u_deleted_at : option Z
}.

Record key_row := MkKey {
  k_status : string;
  k_quota : money8;
  k_quota_used : money8;
  k_usage_5h : money8;
  k_usage_1d : money8;
  k_usage_7d : money8;
  k_window_5h_start : option Z;
  k_window_1d_start : option Z;
  k_window_7d_start : option Z;
  k_deleted_at : option Z
}.

(** The quota of an account for a period, in [accounts.extra]. *)
Record period_quota := MkPeriod {
  q_limit : option amount;
  q_used : option amount;
  q_start : option Z;
  q_reset_mode : option string;
  q_reset_at : option Z;
  q_reset_hour : option Z
}.

Record account_row := MkAccount {
  ac_quota_used : option amount;
  ac_quota_limit : option amount;
  ac_daily : period_quota;
  ac_weekly : period_quota;
  ac_weekly_reset_day : option Z;
  ac_reset_timezone : option string;
  ac_deleted_at : option Z
}.

Record usub_row := MkUSub {
  s_group_id : Z;
  s_daily_usage_usd : money10;
  s_weekly_usage_usd : money10;
  s_monthly_usage_usd : money10;
  s_deleted_at : option Z
}.

(** Fingerprint and [created_at] in [usage_billing_dedup], fingerprint in the archive. *)
Record claim_row := MkClaim {
  cl_hot : option (string * Z);
  cl_archived : option string
}.

(** A row of [batch_image_jobs], without labels, links to other batches, the parts of the
    price, and the marks of downloads and of deleted inputs. *)
Record BatchImageJob := MkJob {
  j_ID : Z;
  j_BatchID : string;
  j_UserID : Z;
  j_APIKeyID : option Z;
  j_AccountID : option Z;
  j_Provider : string;
  j_Model : string;
  j_Status : string;
  j_ProviderJobName : option string;
  j_ProviderInputRef : option string;
  j_ProviderOutputRef : option string;
  j_GCSInputURI : option string;
  j_GCSOutputURI : option string;
  j_ItemCount : Z;
  j_SuccessCount : Z;
  j_FailCount : Z;
  j_EstimatedCost : money10;
  j_HoldAmount : option money10;
  j_ActualCost : option money10;
  j_BillableUnitPrice : money10;
  j_PricingSnapshotVersion : Z;
  j_HoldID : option string;
  j_IdempotencyKey : option string;
  j_RequestHash : option string;
  j_ManifestHash : option string;
  j_RetryCount : Z;
  j_Version : Z;
  j_OutputExpiresAt : option Z;
  j_OutputDeletedAt : option Z;
  j_UserDeletedAt : option Z;
  j_LastErrorCode : option string;
  j_LastErrorMessage : option string;
  j_UpdatedAt : Z;
  j_SubmittedAt : option Z;
  j_StartedAt : option Z;
  j_FinishedAt : option Z;
  j_SettledAt : option Z
}.

#[export] Instance eta_user_row : Eta user_row := fun r => MkUser (u_balance r) (u_frozen_balance r) (u_deleted_at r).
#[export] Instance eta_key_row : Eta key_row := fun r =>
  MkKey (k_status r) (k_quota r) (k_quota_used r) (k_usage_5h r) (k_usage_1d r) (k_usage_7d r)
    (k_window_5h_start r) (k_window_1d_start r) (k_window_7d_start r) (k_deleted_at r).
#[export] Instance eta_period_quota : Eta period_quota := fun r =>
  MkPeriod (q_limit r) (q_used r) (q_start r) (q_reset_mode r) (q_reset_at r) (q_reset_hour r).
#[export] Instance eta_account_row : Eta account_row := fun r =>
  MkAccount (ac_quota_used r) (ac_quota_limit r) (ac_daily r) (ac_weekly r) (ac_weekly_reset_day r)
    (ac_reset_timezone r) (ac_deleted_at r).
#[export] Instance eta_usub_row : Eta usub_row := fun r =>
  MkUSub (s_group_id r) (s_daily_usage_usd r) (s_weekly_usage_usd r) (s_monthly_usage_usd r) (s_deleted_at r).
#[export] Instance eta_BatchImageJob : Eta BatchImageJob := fun r =>
  MkJob (j_ID r) (j_BatchID r) (j_UserID r) (j_APIKeyID r) (j_AccountID r) (j_Provider r) (j_Model r)
    (j_Status r) (j_ProviderJobName r) (j_ProviderInputRef r) (j_ProviderOutputRef r)
    (j_GCSInputURI r) (j_GCSOutputURI r) (j_ItemCount r) (j_SuccessCount r) (j_FailCount r)
    (j_EstimatedCost r) (j_HoldAmount r) (j_ActualCost r) (j_BillableUnitPrice r)
    (j_PricingSnapshotVersion r) (j_HoldID r) (j_IdempotencyKey r) (j_RequestHash r)
    (j_ManifestHash r) (j_RetryCount r) (j_Version r) (j_OutputExpiresAt r) (j_OutputDeletedAt r)
    (j_UserDeletedAt r) (j_LastErrorCode r) (j_LastErrorMessage r) (j_UpdatedAt r)
    (j_SubmittedAt r) (j_StartedAt r) (j_FinishedAt r) (j_SettledAt r).

Inductive bkey :=
  | KUser (id : Z)
  | KKey (id : Z)
  | KAccount (id : Z)
  | KSub (id : Z)
  | KGroup (id : Z)
  | KClaim (request : string * Z)
  | KJob (batchID : string).

Inductive brow :=
  | RUser (u : user_row)
  | RKey (k : key_row)
  | RAccount (a : account_row)
  | RSub (s : usub_row)
  | RGroup (deleted_at : option Z)
  | RClaim (c : claim_row)
  | RJob (j : BatchImageJob).

#[export] Instance bkey_eq_dec : EqDecision bkey.
Proof. solve_decision. Defined.

#[export] Instance bkey_countable : Countable bkey.
Proof.
  refine (inj_countable'
    (fun k => match k with
     | KUser i => inl (0, i) | KKey i => inl (1, i) | KAccount i => inl (2, i) | KSub i => inl (3, i)
     | KGroup i => inl (4, i) | KClaim c => inr (inl c) | KJob b => inr (inr b) end)
    (fun c => match c with
     | inl (0, i) => KUser i | inl (1, i) => KKey i | inl (2, i) => KAccount i | inl (3, i) => KSub i
     | inl (_, i) => KGroup i | inr (inl c) => KClaim c | inr (inr b) => KJob b end) _).
  by intros [].
Defined.

Notation tables := (gmap bkey brow).

Definition user_at (t : tables) (id : Z) : option user_row :=
  match t !! KUser id with Some (RUser u) => Some u | _ => None end.
Definition key_at (t : tables) (id : Z) : option key_row :=
  match t !! KKey id with Some (RKey k) => Some k | _ => None end.
Definition account_at (t : tables) (id : Z) : option account_row :=
  match t !! KAccount id with Some (RAccount a) => Some a | _ => None end.
Definition usub_at (t : tables) (id : Z) : option usub_row :=
  match t !! KSub id with Some (RSub s) => Some s | _ => None end.
Definition live_group (t : tables) (id : Z) : bool :=
  match t !! KGroup id with Some (RGroup None) => true | _ => false end.
Definition claim_at (t : tables) (c : string * Z) : claim_row :=
  match t !! KClaim c with Some (RClaim r) => r | _ => MkClaim None None end.
Definition job_at (t : tables) (b : string) : option BatchImageJob :=
  match t !! KJob b with Some (RJob j) => Some j | _ => None end.

(** [WHERE id = $1 AND deleted_at IS NULL]. *)
Definition live_user (t : tables) (id : Z) : option user_row :=
  match user_at t id with Some u => if decide (u_deleted_at u = None) then Some u else None | None => None end.
Definition live_key (t : tables) (id : Z) : option key_row :=
  match key_at t id with Some k => if decide (k_deleted_at k = None) then Some k else None | None => None end.
Definition live_account (t : tables) (id : Z) : option account_row :=
  match account_at t id with Some a => if decide (ac_deleted_at a = None) then Some a else None | None => None end.

(** ** Statements on users *)

Section Statements.
Context `{Postgres} `{PgEnv}.

Notation answer R := (option (R * tables)) (only parsing).

Definition set_user (t : tables) (id : Z) (u : user_row) : tables := <[ KUser id := RUser u ]> t.

(** [balance = balance - $1], in [deductUsageBillingBalance] with and without the condition
    [balance >= $1]. *)
Definition deductStmt (guarded : bool) (cost : float64) (id : Z) (t : tables) : answer (option float64) :=
  a ← decimal_of cost;
  match live_user t id with
  | None => Some (None, t)
  | Some u =>
    if guarded && (u_balance u * unit8 <? a) then Some (None, t)
    else
      balance ← column unit8 (u_balance u * unit8 - a);
      Some (Some (float8 balance), set_user t id (u <| u_balance := balance |>))
  end.

Definition moveStmt (guard : user_row -> bool) (dbalance dfrozen : amount) (id : Z) (t : tables)
    : answer (option (float64 * float64)) :=
  match live_user t id with
  | None => Some (None, t)
  | Some u =>
    if negb (guard u) then Some (None, t)
    else
      balance ← column unit8 (u_balance u * unit8 + dbalance);
      frozen ← column unit8 (u_frozen_balance u * unit8 + dfrozen);
      Some (Some (float8 balance, float8 frozen),
            set_user t id (u <| u_balance := balance |> <| u_frozen_balance := frozen |>))
  end.

Definition reserveStmt (hold : float64) (id : Z) (t : tables) : answer (option (float64 * float64)) :=
  h ← decimal_of hold;
  moveStmt (fun u => h <=? u_balance u * unit8) (- h) h id t.

Definition captureStmt (hold actual : float64) (id : Z) (t : tables) : answer (option (float64 * float64)) :=
  h ← decimal_of hold;
  a ← decimal_of actual;
  moveStmt (fun u => h <=? u_frozen_balance u * unit8)
    ((if a <? h then h - a else 0) - (if h <? a then a - h else 0)) (- h) id t.

Definition releaseStmt (hold : float64) (id : Z) (t : tables) : answer (option (float64 * float64)) :=
  h ← decimal_of hold;
  moveStmt (fun u => h <=? u_frozen_balance u * unit8) h (- h) id t.

(** ** Statements on API keys *)

Definition StatusAPIKeyActive : string := "active".
Definition StatusAPIKeyQuotaExhausted : string := "quota_exhausted".

(** The key after [cost], and whether the cost exhausted its quota. *)
Definition bumpKeyQuota (a : amount) (k : key_row) : option (bool * key_row) :=
  used ← column unit8 (k_quota_used k * unit8 + a);
  let crosses := (0 <? k_quota k) && (k_status k =s StatusAPIKeyActive) && (k_quota_used k <? k_quota k)
                 && (k_quota k * unit8 <=? k_quota_used k * unit8 + a) in
  let exhausted := (0 <? k_quota k) && (k_quota k <=? used) && (used * unit8 - a <? k_quota k * unit8) in
  Some (exhausted,
        k <| k_quota_used := used |>
          <| k_status := if crosses then StatusAPIKeyQuotaExhausted else k_status k |>).

Definition keyQuotaStmt (cost : float64) (id : Z) (t : tables) : answer (option bool) :=
  a ← decimal_of cost;
  match live_key t id with
  | None => Some (None, t)
  | Some k => r ← bumpKeyQuota a k; Some (Some r.1, <[ KKey id := RKey r.2 ]> t)
  end.

(** A window of usage: expired or not yet begun, and what is counted in it. *)
Definition windowOver (length now : Z) (start : option Z) : bool :=
  match start with Some s => s + length <=? now | None => false end.

Definition windowUsage (length now : Z) (start : option Z) (usage : money8) (a : amount) : option money8 :=
  column unit8 (if windowOver length now start then a else usage * unit8 + a).

Definition windowStart' (length now begin : Z) (start : option Z) : option Z :=
  match start with
  | None => Some begin
  | Some s => if s + length <=? now then Some begin else Some s
  end.

Context (local : Location).

Definition bumpKeyRate (now : Z) (a : amount) (k : key_row) : option key_row :=
  u5 ← windowUsage (5 * Hour) now (k_window_5h_start k) (k_usage_5h k) a;
  u1 ← windowUsage (24 * Hour) now (k_window_1d_start k) (k_usage_1d k) a;
  u7 ← windowUsage (7 * Day) now (k_window_7d_start k) (k_usage_7d k) a;
  Some (k <| k_usage_5h := u5 |> <| k_usage_1d := u1 |> <| k_usage_7d := u7 |>
    <| k_window_5h_start := windowStart' (5 * Hour) now now (k_window_5h_start k) |>
    <| k_window_1d_start := windowStart' (24 * Hour) now (midnight local now) (k_window_1d_start k) |>
    <| k_window_7d_start := windowStart' (7 * Day) now (midnight local now) (k_window_7d_start k) |>).

Definition keyRateStmt (now : Z) (cost : float64) (id : Z) (t : tables) : answer Z :=
  a ← decimal_of cost;
  match live_key t id with
  | None => Some (0, t)
  | Some k => k' ← bumpKeyRate (stored now) a k; Some (1, <[ KKey id := RKey k' ]> t)
  end.

(** ** Statements on accounts *)

Definition fixedMode (q : period_quota) : bool := default "rolling" (q_reset_mode q) =s "fixed".

(** [dailyExpiredExpr] and [weeklyExpiredExpr]. *)
Definition periodExpired (length now : Z) (q : period_quota) : bool :=
  if fixedMode q then default 0 (q_reset_at q) <=? now else default 0 (q_start q) + length <=? now.

Definition resetZone (a : account_row) : string := default "UTC" (ac_reset_timezone a).

(** The reset hour of the day of [now] in the account's zone, [days] later. *)
Definition resetPoint (a : account_row) (q : period_quota) (now days : Z) : Z :=
  of_zone (resetZone a)
    (at_zone (resetZone a) now / Day * Day + default 0 (q_reset_hour q) * Hour + days * Day).

(** [to_char(..., 'HH24:MI:SS')] leaves out fractions of a second. *)
Definition wholeSecond (t : Z) : Z := t / Second * Second.

Definition nextDailyResetAt (a : account_row) (now : Z) : option Z :=
  let q := ac_daily a in
  if fixedMode q then
    Some (wholeSecond (if resetPoint a q now 0 <=? now then resetPoint a q now 1 else resetPoint a q now 0))
  else None.

(** [EXTRACT(DOW ...)]: the epoch was a Thursday. *)
Definition weekday (civilTime : Z) : Z := (civilTime / Day + 4) mod 7.

Definition nextWeeklyResetAt (a : account_row) (now : Z) : option Z :=
  let q := ac_weekly a in
  if fixedMode q then
    let daysForward :=
      Z.rem (default 1 (ac_weekly_reset_day a) - weekday (at_zone (resetZone a) now) + 7) 7 in
    Some (wholeSecond
      (if (daysForward =? 0) && (resetPoint a q now 0 <=? now) then resetPoint a q now 7
       else resetPoint a q now daysForward))
  else None.

Definition bumpPeriod (length now : Z) (next : option Z) (a : amount) (q : period_quota) : period_quota :=
  if 0 <? default 0 (q_limit q) then
    let expired := periodExpired length now q in
    q <| q_used := Some (if expired then a else default 0 (q_used q) + a) |>
      <| q_start := Some (if expired then now else default now (q_start q)) |>
      <| q_reset_at := if expired then match next with Some r => Some r | None => q_reset_at q end else q_reset_at q |>
  else q.

Record AccountQuotaState := MkQuotaState {
  TotalUsed : float64;
  TotalLimit : float64;
  DailyUsed : float64;
  DailyLimit : float64;
  WeeklyUsed : float64;
  WeeklyLimit : float64
}.

Definition quotaState (a : account_row) : AccountQuotaState :=
  let num (x : option amount) := float_of_amount (default 0 x) in
  MkQuotaState (num (ac_quota_used a)) (num (ac_quota_limit a)) (num (q_used (ac_daily a)))
    (num (q_limit (ac_daily a))) (num (q_used (ac_weekly a))) (num (q_limit (ac_weekly a))).

Definition bumpAccount (now : Z) (a : amount) (acc : account_row) : account_row :=
  acc <| ac_quota_used := Some (default 0 (ac_quota_used acc) + a) |>
    <| ac_daily := bumpPeriod (24 * Hour) now (nextDailyResetAt acc now) a (ac_daily acc) |>
    <| ac_weekly := bumpPeriod (168 * Hour) now (nextWeeklyResetAt acc now) a (ac_weekly acc) |>.

Definition accountQuotaStmt (now : Z) (cost : float64) (id : Z) (t : tables) : answer (option AccountQuotaState) :=
  a ← decimal_of cost;
  match live_account t id with
  | None => Some (None, t)
  | Some acc =>
    let acc' := bumpAccount (stored now) a acc in
    Some (Some (quotaState acc'), <[ KAccount id := RAccount acc' ]> t)
  end.

(** ** Statements on subscriptions and claims *)

Definition bumpSubscription (a : amount) (s : usub_row) : option usub_row :=
  d ← column unit10 (s_daily_usage_usd s * unit10 + a);
  w ← column unit10 (s_weekly_usage_usd s * unit10 + a);
  m ← column unit10 (s_monthly_usage_usd s * unit10 + a);
  Some (s <| s_daily_usage_usd := d |> <| s_weekly_usage_usd := w |> <| s_monthly_usage_usd := m |>).

Definition subscriptionStmt (cost : float64) (id : Z) (t : tables) : answer Z :=
  a ← decimal_of cost;
  match usub_at t id with
  | Some s =>
    if bool_decide (s_deleted_at s = None) && live_group t (s_group_id s) then
      s' ← bumpSubscription a s; Some (1, <[ KSub id := RSub s' ]> t)
    else Some (0, t)
  | None => Some (0, t)
  end.

(** [VARCHAR(n)] counts characters. *)
Definition varchar (n : Z) (s : string) : bool := Z.of_nat (length (runes s)) <=? n.

Definition insertClaimStmt (now : Z) (c : string * Z) (fp : string) (t : tables) : answer bool :=
  if negb (varchar 255 c.1 && varchar 64 fp) then None
  else match cl_hot (claim_at t c) with
  | Some _ => Some (false, t)
  | None => Some (true, <[ KClaim c := RClaim (MkClaim (Some (fp, stored now)) (cl_archived (claim_at t c))) ]> t)
  end.

(** The claims that are older than [cutoff], as they are scanned. *)
Definition old_claims (cutoff : Z) (t : tables) : list (string * Z) :=
  scan (omap (fun e => match e with
               | (KClaim c, RClaim (MkClaim (Some (_, created)) _)) => if created <? cutoff then Some c else None
               | _ => None end) (map_to_list t)).

(** Moved to the archive, if it is not there already. *)
Definition archiveClaim (c : string * Z) (t : tables) : tables :=
  let r := claim_at t c in
  match cl_hot r with
  | Some (fp, _) =>
    <[ KClaim c := RClaim (MkClaim None (Some (default fp (cl_archived r)))) ]> t
  | None => t
  end.

Definition archiveStmt (cutoff : Z) (limit : nat) (t : tables) : answer Z :=
  let victims := take limit (old_claims (stored cutoff) t) in
  Some (Z.of_nat (length victims), foldr archiveClaim t victims).

(** ** Statements on batch image jobs *)

Definition BatchImageJobStatusCreated : string := "created".
Definition BatchImageJobStatusUploading : string := "uploading".
Definition BatchImageJobStatusSubmitted : string := "submitted".
Definition BatchImageJobStatusRunning : string := "running".
Definition BatchImageJobStatusIndexing : string := "indexing".
Definition BatchImageJobStatusSettling : string := "settling".
Definition BatchImageJobStatusCompleted : string := "completed".
Definition BatchImageJobStatusFailed : string := "failed".
Definition BatchImageJobStatusCancelled : string := "cancelled".
Definition BatchImageJobStatusOutputDeleted : string := "output_deleted".

Record CreateBatchImageJobParams := MkCreateJob {
  cj_BatchID : string;
  cj_UserID : Z;
  cj_APIKeyID : option Z;
  cj_AccountID : option Z;
  cj_Provider : string;
  cj_Model : string;
  cj_Status : string;
  cj_ItemCount : Z;
  cj_EstimatedCost : float64;
  cj_HoldAmount : option float64;
  cj_BillableUnitPrice : float64;
  cj_PricingSnapshotVersion : Z;
  cj_HoldID : option string;
  cj_IdempotencyKey : option string;
  cj_RequestHash : option string
}.

Definition cost10 (f : float64) : option money10 := a ← decimal_of f; column unit10 a.

Definition optCost10 (f : option float64) : option (option money10) :=
  match f with Some f => Some <$> cost10 f | None => Some None end.

Definition set_job (t : tables) (j : BatchImageJob) : tables := <[ KJob (j_BatchID j) := RJob j ]> t.

(** [INSERT INTO batch_image_jobs], with the identifier that the sequence gave; [inl] if the
    batch is already there. *)
Definition insertJobStmt (now id : Z) (p : CreateBatchImageJobParams) (t : tables) : answer (unit + BatchImageJob) :=
  estimated ← cost10 (cj_EstimatedCost p);
  hold ← optCost10 (cj_HoldAmount p);
  price ← cost10 (cj_BillableUnitPrice p);
  let j := MkJob id (cj_BatchID p) (cj_UserID p) (cj_APIKeyID p) (cj_AccountID p) (cj_Provider p) (cj_Model p)
    (cj_Status p) None None None None None (cj_ItemCount p) 0 0 estimated hold None price
    (cj_PricingSnapshotVersion p) (cj_HoldID p) (cj_IdempotencyKey p) (cj_RequestHash p) None 0 0 None None None
    None None (stored now) None None None None in
  match t !! KJob (cj_BatchID p) with
  | Some _ => Some (inl tt, t)
  | None => Some (inr j, set_job t j)
  end.

(** [UPDATE batch_image_jobs SET ... WHERE batch_id = $1 AND ...] *)
Definition updateJobStmt (bid : string) (p : BatchImageJob -> bool) (f : BatchImageJob -> BatchImageJob)
    (t : tables) : answer Z :=
  match job_at t bid with
  | Some j => if p j then Some (1, <[ KJob bid := RJob (f j) ]> t) else Some (0, t)
  | None => Some (0, t)
  end.

Definition or_set {A : Type} (old : option A) (new : A) : option A :=
  match old with None => Some new | Some _ => old end.

Definition nullif (s : string) : option string := if s =s "" then None else Some s.

Definition unsubmitted (j : BatchImageJob) : bool :=
  (j_Status j =s "created") || (j_Status j =s "uploading").

Definition transitionJob (toStatus : string) (now : Z) (code message : option string) (j : BatchImageJob) : BatchImageJob :=
  let now := stored now in
  let into s := toStatus =s s in
  j <| j_Status := toStatus |>
    <| j_Version := j_Version j + 1 |>
    <| j_UpdatedAt := now |>
    <| j_LastErrorCode := if into "failed" then code else j_LastErrorCode j |>
    <| j_LastErrorMessage := if into "failed" then message else j_LastErrorMessage j |>
    <| j_SubmittedAt := if into "submitted" then or_set (j_SubmittedAt j) now else j_SubmittedAt j |>
    <| j_StartedAt := if into "running" then or_set (j_StartedAt j) now else j_StartedAt j |>
    <| j_FinishedAt := if into "completed" || into "failed" || into "cancelled" then or_set (j_FinishedAt j) now else j_FinishedAt j |>
    <| j_SettledAt := if into "completed" then or_set (j_SettledAt j) now else j_SettledAt j |>
    <| j_OutputDeletedAt := if into "output_deleted" then or_set (j_OutputDeletedAt j) now else j_OutputDeletedAt j |>.

Definition failStaleJob (now : Z) (code message : string) (j : BatchImageJob) : BatchImageJob :=
  j <| j_Status := "failed" |> <| j_LastErrorCode := Some code |> <| j_LastErrorMessage := Some message |>
    <| j_FinishedAt := or_set (j_FinishedAt j) (stored now) |> <| j_UpdatedAt := stored now |>
    <| j_Version := j_Version j + 1 |>.

Definition submitFailureJob (now : Z) (code message : string) (markFailed : bool) (j : BatchImageJob) : BatchImageJob :=
  let status := if markFailed then "failed" else j_Status j in
  j <| j_Status := status |> <| j_LastErrorCode := Some code |> <| j_LastErrorMessage := Some message |>
    <| j_FinishedAt := if status =s "failed" then or_set (j_FinishedAt j) (stored now) else j_FinishedAt j |>
    <| j_UpdatedAt := stored now |> <| j_Version := j_Version j + 1 |>.

Record ProviderSubmitParams := MkProviderSubmit {
  ps_ProviderJobName : string;
  ps_ProviderInputRef : string;
  ps_ProviderOutputRef : string;
  ps_GCSInputURI : string;
  ps_GCSOutputURI : string
}.

Definition providerSubmitJob (now : Z) (p : ProviderSubmitParams) (j : BatchImageJob) : BatchImageJob :=
  j <| j_Status := "submitted" |> <| j_ProviderJobName := Some (ps_ProviderJobName p) |>
    <| j_ProviderInputRef := nullif (ps_ProviderInputRef p) |> <| j_ProviderOutputRef := nullif (ps_ProviderOutputRef p) |>
    <| j_GCSInputURI := nullif (ps_GCSInputURI p) |> <| j_GCSOutputURI := nullif (ps_GCSOutputURI p) |>
    <| j_SubmittedAt := or_set (j_SubmittedAt j) (stored now) |> <| j_UpdatedAt := stored now |>
    <| j_Version := j_Version j + 1 |>.

Definition settleJob (now expires : Z) (cost : money10) (manifest : string) (j : BatchImageJob) : BatchImageJob :=
  j <| j_Status := "completed" |> <| j_ActualCost := Some cost |> <| j_ManifestHash := Some manifest |>
    <| j_SettledAt := or_set (j_SettledAt j) (stored now) |> <| j_FinishedAt := or_set (j_FinishedAt j) (stored now) |>
    <| j_OutputExpiresAt := or_set (j_OutputExpiresAt j) (stored expires) |> <| j_UpdatedAt := stored now |>
    <| j_Version := j_Version j + 1 |>.

(** The unique index on [manifest_hash]. *)
Definition manifestTaken (t : tables) (bid manifest : string) : bool :=
  negb (manifest =s "") &&
  existsb (fun e => match e with
           | (KJob b, RJob j) => negb (b =s bid) && bool_decide (j_ManifestHash j = Some manifest)
           | _ => false end) (map_to_list t).

Definition settleStmt (now expires : Z) (cost : float64) (bid manifest : string) (t : tables) : answer Z :=
  c ← cost10 cost;
  if manifestTaken t bid manifest then None
  else updateJobStmt bid
    (fun j => (j_Status j =s "settling") &&
      match j_ManifestHash j with None => true | Some m => (m =s "") || (m =s manifest) end)
    (settleJob now expires c manifest) t.

Definition settlementFailedStmt (now : Z) (bid code message : string) (t : tables) : answer (option Z) :=
  match job_at t bid with
  | Some j => Some (Some (j_RetryCount j + 1),
      <[ KJob bid := RJob (j <| j_LastErrorCode := Some code |> <| j_LastErrorMessage := Some message |>
                             <| j_RetryCount := j_RetryCount j + 1 |> <| j_UpdatedAt := stored now |>) ]> t)
  | None => Some (None, t)
  end.

Definition all_jobs (t : tables) : list BatchImageJob :=
  omap (fun e => match e with (KJob _, RJob j) => Some j | _ => None end) (map_to_list t).

(** [ORDER BY id DESC LIMIT 1]. *)
Definition newest (l : list BatchImageJob) : option BatchImageJob :=
  foldr (fun j best => match best with Some b => if j_ID b <? j_ID j then Some j else best | None => Some j end) None l.

Definition staleJob (cutoff : Z) (j : BatchImageJob) : bool :=
  unsubmitted j && bool_decide (j_ProviderJobName j = None) && (j_UpdatedAt j <=? stored cutoff).

(** [ORDER BY updated_at ASC, id ASC]. *)
Definition earlier (a b : BatchImageJob) : bool :=
  (j_UpdatedAt a <? j_UpdatedAt b) || ((j_UpdatedAt a =? j_UpdatedAt b) && (j_ID a <=? j_ID b)).

Fixpoint insertBy (j : BatchImageJob) (l : list BatchImageJob) : list BatchImageJob :=
  match l with [] => [j] | b :: l' => if earlier j b then j :: l else b :: insertBy j l' end.

Definition staleJobs (cutoff : Z) (limit : nat) (t : tables) : list BatchImageJob :=
  take limit (foldr insertBy []
    (List.filter (fun j => staleJob cutoff j && (0 <? default (j_EstimatedCost j) (j_HoldAmount j))) (all_jobs t))).
End Statements.

(** ** The database *)

Inductive bstmt : Type -> Type :=
  | InsertDedup (request : string * Z) (fingerprint : string) : bstmt bool
  | SelectDedup (request : string * Z) : bstmt (option string)
  | SelectArchive (request : string * Z) : bstmt (option string)
  | ArchiveBatch (cutoff : Z) (limit : nat) : bstmt Z
  | UpdateSubscriptionUsage (cost : float64) (id : Z) : bstmt Z
  | DeductBalance (guarded : bool) (cost : float64) (userID : Z) : bstmt (option float64)
  | ReserveBalance (hold : float64) (userID : Z) : bstmt (option (float64 * float64))
  | CaptureBalance (hold actual : float64) (userID : Z) : bstmt (option (float64 * float64))
  | ReleaseBalance (hold : float64) (userID : Z) : bstmt (option (float64 * float64))
  | SelectUser (userID : Z) : bstmt bool
  | UpdateKeyQuota (cost : float64) (keyID : Z) : bstmt (option bool)
  | UpdateKeyRateLimit (cost : float64) (keyID : Z) : bstmt Z
  | UpdateAccountQuota (cost : float64) (accountID : Z) : bstmt (option AccountQuotaState)
  | InsertOutbox (accountID : Z) : bstmt unit
  | InsertJob (id : Z) (p : CreateBatchImageJobParams) : bstmt (unit + BatchImageJob)
  | GetJob (batchID : string) : bstmt (option BatchImageJob)
  | GetJobForOwner (batchID : string) (userID apiKeyID : Z) : bstmt (option BatchImageJob)
  | GetJobByKey (userID apiKeyID : Z) (key : string) : bstmt (option BatchImageJob)
  | ListStaleJobs (cutoff : Z) (limit : nat) : bstmt (list BatchImageJob)
  | LockJob (batchID : string) : bstmt (option string)
  | TransitionJob (batchID toStatus : string) (now : Z) (code message : option string) : bstmt Z
  | TouchJob (batchID : string) (now : Z) : bstmt Z
  | FailStaleJob (batchID : string) (now cutoff : Z) (code message : string) : bstmt Z
  | SetOutputRef (batchID ref : string) (now : Z) : bstmt Z
  | SubmitJob (batchID : string) (now : Z) (p : ProviderSubmitParams) : bstmt Z
  | RecordSubmitFailure (batchID : string) (now : Z) (code message : string) (markFailed : bool) : bstmt Z
  | SettleJob (batchID : string) (now expires : Z) (cost : float64) (manifest : string) : bstmt Z
  | SettlementFailed (batchID : string) (now : Z) (code message : string) : bstmt (option Z)
  | SetCounts (batchID : string) (now success fail : Z) : bstmt Z
  | HideJob (batchID : string) (userID apiKeyID now : Z) : bstmt Z
  | WriteItems (batchID : string) : bstmt unit
  | InsertEvent (batchID eventType : string) : bstmt unit.

(** Inversion of a statement that has answered. *)
Ltac answered :=
  repeat first
  [ progress cbn in *
  | match goal with
    | X : Some _ = Some _ |- _ => injection X as <- <-
    | X : None = Some _ |- _ => discriminate X
    | X : mbind _ ?o = Some _ |- _ => destruct o eqn:?; cbn in X; [|discriminate X]
    | X : match ?o with _ => _ end = Some _ |- _ => destruct o eqn:?; cbn in X
    | X : (if ?o then _ else _) = Some _ |- _ => destruct o eqn:?; cbn in X
    end ].

Section Database.
Context `{Postgres} `{PgEnv} (local : Location).

Definition terminal (j : BatchImageJob) : bool :=
  (j_Status j =s "completed") || (j_Status j =s "failed") || (j_Status j =s "cancelled") || (j_Status j =s "output_deleted").

Definition owned (userID apiKeyID : Z) (j : BatchImageJob) : bool :=
  (j_UserID j =? userID) && bool_decide (j_APIKeyID j = Some apiKeyID).

Definition visible (userID apiKeyID : Z) (j : BatchImageJob) : bool :=
  owned userID apiKeyID j && bool_decide (j_UserDeletedAt j = None).

Definition run_bstmt {R : Type} (now : Z) (s : bstmt R) (t : tables) : option (R * tables) :=
  match s in bstmt R return option (R * tables) with
  | InsertDedup c fp => insertClaimStmt now c fp t
  | SelectDedup c => Some (fst <$> cl_hot (claim_at t c), t)
  | SelectArchive c => Some (cl_archived (claim_at t c), t)
  | ArchiveBatch cutoff limit => archiveStmt cutoff limit t
  | UpdateSubscriptionUsage cost id => subscriptionStmt cost id t
  | DeductBalance guarded cost id => deductStmt guarded cost id t
  | ReserveBalance hold id => reserveStmt hold id t
  | CaptureBalance hold actual id => captureStmt hold actual id t
  | ReleaseBalance hold id => releaseStmt hold id t
  | SelectUser id => Some (bool_decide (live_user t id <> None), t)
  | UpdateKeyQuota cost id => keyQuotaStmt cost id t
  | UpdateKeyRateLimit cost id => keyRateStmt local now cost id t
  | UpdateAccountQuota cost id => accountQuotaStmt now cost id t
  | InsertOutbox _ | WriteItems _ | InsertEvent _ _ => Some (tt, t)
  | InsertJob id p => insertJobStmt now id p t
  | GetJob b => Some (job_at t b, t)
  | GetJobForOwner b u k => Some (match job_at t b with Some j => if visible u k j then Some j else None | None => None end, t)
  | GetJobByKey u k key =>
    Some (newest (List.filter (fun j => owned u k j && bool_decide (j_IdempotencyKey j = Some key)) (all_jobs t)), t)
  | ListStaleJobs cutoff limit => Some (staleJobs cutoff limit t, t)
  | LockJob b => Some (j_Status <$> job_at t b, t)
  | TransitionJob b st now code msg => updateJobStmt b (fun _ => true) (transitionJob st now code msg) t
  | TouchJob b now => updateJobStmt b unsubmitted (fun j => j <| j_UpdatedAt := stored now |>) t
  | FailStaleJob b now cutoff code msg => updateJobStmt b (staleJob cutoff) (failStaleJob now code msg) t
  | SetOutputRef b ref now =>
    updateJobStmt b (fun _ => true) (fun j => j <| j_ProviderOutputRef := Some ref |> <| j_UpdatedAt := stored now |>) t
  | SubmitJob b now p => updateJobStmt b (fun _ => true) (providerSubmitJob now p) t
  | RecordSubmitFailure b now code msg f => updateJobStmt b (fun _ => true) (submitFailureJob now code msg f) t
  | SettleJob b now expires cost manifest => settleStmt now expires cost b manifest t
  | SettlementFailed b now code msg => settlementFailedStmt now b code msg t
  | SetCounts b now success fail =>
    updateJobStmt b (fun _ => true)
      (fun j => j <| j_SuccessCount := success |> <| j_FailCount := fail |> <| j_UpdatedAt := stored now |>) t
  | HideJob b u k now =>
    updateJobStmt b (fun j => visible u k j && terminal j)
      (fun j => j <| j_UserDeletedAt := Some (stored now) |> <| j_UpdatedAt := stored now |>) t
  end.

(** The entry that a statement on one row writes: the row if it was found. *)
Definition hits {R : Type} (hit : R -> bool) (k : bkey) (o : option (R * tables)) : gset bkey :=
  match o with Some (r, _) => if hit r then {[ k ]} else ∅ | None => ∅ end.

Definition found {A : Type} (r : option A) : bool := match r with Some _ => true | None => false end.

Definition bwrites {R : Type} (now : Z) (s : bstmt R) (t : tables) : gset bkey :=
  let touched {R : Type} (k : bkey) (s : bstmt R) (hit : R -> bool) := hits hit k (run_bstmt now s t) in
  let affected b (s : bstmt Z) := touched (KJob b) s (Z.eqb 1) in
  match s with
  | InsertDedup c fp => touched (KClaim c) (InsertDedup c fp) (fun b => b)
  | ArchiveBatch cutoff limit => list_to_set (KClaim <$> take limit (old_claims (stored cutoff) t))
  | UpdateSubscriptionUsage cost id => touched (KSub id) (UpdateSubscriptionUsage cost id) (Z.eqb 1)
  | DeductBalance g cost id => touched (KUser id) (DeductBalance g cost id) found
  | ReserveBalance hold id => touched (KUser id) (ReserveBalance hold id) found
  | CaptureBalance hold actual id => touched (KUser id) (CaptureBalance hold actual id) found
  | ReleaseBalance hold id => touched (KUser id) (ReleaseBalance hold id) found
  | UpdateKeyQuota cost id => touched (KKey id) (UpdateKeyQuota cost id) found
  | UpdateKeyRateLimit cost id => touched (KKey id) (UpdateKeyRateLimit cost id) (Z.eqb 1)
  | UpdateAccountQuota cost id => touched (KAccount id) (UpdateAccountQuota cost id) found
  | InsertJob id p => touched (KJob (cj_BatchID p)) (InsertJob id p) (fun r => match r with inr _ => true | inl _ => false end)
  | LockJob b => touched (KJob b) (LockJob b) found
  | TransitionJob b st n c m => affected b (TransitionJob b st n c m)
  | TouchJob b n => affected b (TouchJob b n)
  | FailStaleJob b n cut c m => affected b (FailStaleJob b n cut c m)
  | SetOutputRef b r n => affected b (SetOutputRef b r n)
  | SubmitJob b n p => affected b (SubmitJob b n p)
  | RecordSubmitFailure b n c m f => affected b (RecordSubmitFailure b n c m f)
  | SettleJob b n e c m => affected b (SettleJob b n e c m)
  | SettlementFailed b n c m => touched (KJob b) (SettlementFailed b n c m) found
  | SetCounts b n x y => affected b (SetCounts b n x y)
  | HideJob b u k n => affected b (HideJob b u k n)
  | _ => ∅
  end.

Lemma archiveClaim_ne c t k : k <> KClaim c -> archiveClaim c t !! k = t !! k.
Proof. intros N. unfold archiveClaim. repeat case_match; [|done]. by rewrite lookup_insert_ne. Qed.

Lemma archive_frame l t k : k ∉ list_to_set (C := gset bkey) (KClaim <$> l) -> foldr archiveClaim t l !! k = t !! k.
Proof.
  induction l as [|c l IH]; [done|]. cbn. intros N. rewrite archiveClaim_ne by set_solver. apply IH. set_solver.
Qed.

Lemma run_bstmt_frame R now (s : bstmt R) t r t' k :
  run_bstmt now s t = Some (r, t') -> k ∉ bwrites now s t -> t' !! k = t !! k.
Proof.
  intros E N. destruct s; cbn [run_bstmt bwrites] in *; try (by injection E as <- <-); unfold hits in N.
  all: try (rewrite E in N).
  all: try (unfold insertClaimStmt, subscriptionStmt, deductStmt, reserveStmt, captureStmt, releaseStmt, moveStmt,
    keyQuotaStmt, keyRateStmt, accountQuotaStmt, insertJobStmt, settleStmt, settlementFailedStmt, updateJobStmt,
    set_user, set_job in E; answered; try done; rewrite lookup_insert_ne; [done|set_solver]).
  unfold archiveStmt in E. answered. by apply archive_frame.
Qed.

#[export] Instance billing_database : Database bkey brow bstmt := {
  exec_stmt := @run_bstmt;
  writes := @bwrites;
  exec_frame := run_bstmt_frame
}.
End Database.
