(* ===== verification/UsageBilling.v ===== *)
(** * Usage billing

    [service/usage_billing.go], [repository/usage_billing_repo.go], the retention of claims in
    [repository/dashboard_aggregation_repo.go] and [service/batch_image_billing_hold.go].

    A billable request is applied in one transaction: it claims its (request, API key) pair
    and charges the subscription, the balance, the quotas of the key and of the account.  The
    cost of a batch of images is held back first and captured or released later, each step in
    such a transaction. *)

From Stdlib Require Import SpecFloat.
From stdpp Require Import pretty.
From S2P Require Import Prelude GoStrings GoFloat GoTime GoCrypto Programs Transactions BillingTables.

#[local] Open Scope Z_scope.

Inductive bill_error :=
  | ErrUsageBillingRequestIDRequired
  | ErrUsageBillingRequestConflict
  | ErrSubscriptionNotFound
  | ErrUserNotFound
  | ErrAccountNotFound
  | ErrBatchImageInsufficientBalance
  | ErrBatchImageSettlementCostExceedsHold
  | ErrFrozenBalanceInsufficient
  | ErrDatabase.

#[export] Instance bill_error_eq_dec : EqDecision bill_error.
Proof. solve_decision. Defined.

(** ** Numbers *)

(** [math.Round]: half away from zero. *)
Definition fround (x : float64) : float64 :=
  match x with
  | S754_finite s m e =>
    if 0 <=? e then x
    else
      let n := (2 * Zpos m + 2 ^ (- e)) / (2 * 2 ^ (- e)) in
      if n =? 0 then S754_zero s else binary_normalize 53 1024 (if s then - n else n) 0 s
  | _ => x
  end.

Definition ten10 : float64 := float_of_Z 10000000000.

Definition quantizeUsageBillingAmount (value : float64) : float64 :=
  if IsNaN value || IsInf value || feq value fzero then value
  else fdiv (fround (fmul value ten10)) ten10.

Fixpoint zeros (n : nat) : string := match n with O => "" | S n => "0" +:+ zeros n end.

Definition padded (n : nat) (s : string) : string := zeros (n - String.length s) +:+ s.

(** [%0.10f]: ten decimals of the exact value, half to even. *)
Definition fixed10 (x : float64) : string :=
  let digits (s : bool) (num den : Z) : string :=
    let q := num * 10 ^ 10 / den in
    let r := (num * 10 ^ 10) mod den in
    let q := if (den <? 2 * r) || ((2 * r =? den) && Z.odd q) then q + 1 else q in
    (if s then "-" else "") +:+ pretty (q / 10 ^ 10) +:+ "." +:+ padded 10 (pretty (q mod 10 ^ 10)) in
  match x with
  | S754_nan => "NaN"
  | S754_infinity s => if s then "-Inf" else "+Inf"
  | S754_zero s => digits s 0 1
  | S754_finite s m e => if 0 <=? e then digits s (Zpos m * 2 ^ e) 1 else digits s (Zpos m) (2 ^ (- e))
  end.

Example fixed10_cases :
  fixed10 (fdiv (float_of_Z 1) (float_of_Z 3)) = "0.3333333333" /\
  fixed10 (float_of_Z (-12)) = "-12.0000000000" /\ fixed10 fzero = "0.0000000000" /\
  quantizeUsageBillingAmount (fdiv (float_of_Z 1) (float_of_Z 3)) = fdiv (float_of_Z 3333333333) ten10 /\
  fround (fdiv (float_of_Z (-5)) (float_of_Z 2)) = float_of_Z (-3).
Proof. vm_compute. auto 6. Qed.

(** ** Commands *)

Record UsageBillingCommand := MkCommand {
  RequestID : string;
  APIKeyID : Z;
  RequestFingerprint : string;
  RequestPayloadHash : string;
  UserID : Z;
  AccountID : Z;
  SubscriptionID : option Z;
  AccountType : string;
  AccountPlatform : string;
  Model : string;
  ServiceTier : string;
  ReasoningEffort : string;
  BillingType : Z;
  InputTokens : Z;
  OutputTokens : Z;
  CacheCreationTokens : Z;
  CacheReadTokens : Z;
  ImageCount : Z;
  MediaType : string;
  BalanceCost : float64;
  SubscriptionCost : float64;
  APIKeyQuotaCost : float64;
  APIKeyRateLimitCost : float64;
  AccountQuotaCost : float64
}.

#[export] Instance eta_UsageBillingCommand : Eta UsageBillingCommand := fun c =>
  MkCommand (RequestID c) (APIKeyID c) (RequestFingerprint c) (RequestPayloadHash c) (UserID c) (AccountID c)
    (SubscriptionID c) (AccountType c) (AccountPlatform c) (Model c) (ServiceTier c) (ReasoningEffort c)
    (BillingType c) (InputTokens c) (OutputTokens c) (CacheCreationTokens c) (CacheReadTokens c)
    (ImageCount c) (MediaType c) (BalanceCost c) (SubscriptionCost c) (APIKeyQuotaCost c)
    (APIKeyRateLimitCost c) (AccountQuotaCost c).

Fixpoint sepBy (l : list string) : string :=
  match l with [] => "" | [s] => s | s :: l => s +:+ "|" +:+ sepBy l end.

Definition valueOrZero (v : option Z) : Z := default 0 v.

(** The payload hash is appended when there is one. *)
Definition withPayloadHash (raw payloadHash : string) : string :=
  if TrimSpace payloadHash =s "" then raw else raw +:+ "|" +:+ TrimSpace payloadHash.

Definition fingerprintText (c : UsageBillingCommand) : string :=
  withPayloadHash
    (sepBy [pretty (UserID c); pretty (AccountID c); pretty (APIKeyID c); TrimSpace (AccountType c);
            TrimSpace (Model c); TrimSpace (ServiceTier c); TrimSpace (ReasoningEffort c);
            pretty (BillingType c); pretty (InputTokens c); pretty (OutputTokens c);
            pretty (CacheCreationTokens c); pretty (CacheReadTokens c); pretty (ImageCount c);
            TrimSpace (MediaType c); pretty (valueOrZero (SubscriptionID c)); fixed10 (BalanceCost c);
            fixed10 (SubscriptionCost c); fixed10 (APIKeyQuotaCost c); fixed10 (APIKeyRateLimitCost c);
            fixed10 (AccountQuotaCost c)])
    (RequestPayloadHash c).

Definition buildUsageBillingFingerprint (c : UsageBillingCommand) : string := sha256_hex (fingerprintText c).

Definition Normalize (c : UsageBillingCommand) : UsageBillingCommand :=
  let c := c <| RequestID := TrimSpace (RequestID c) |>
             <| BalanceCost := quantizeUsageBillingAmount (BalanceCost c) |>
             <| SubscriptionCost := quantizeUsageBillingAmount (SubscriptionCost c) |>
             <| APIKeyQuotaCost := quantizeUsageBillingAmount (APIKeyQuotaCost c) |>
             <| APIKeyRateLimitCost := quantizeUsageBillingAmount (APIKeyRateLimitCost c) |>
             <| AccountQuotaCost := quantizeUsageBillingAmount (AccountQuotaCost c) |> in
  if TrimSpace (RequestFingerprint c) =s ""
  then c <| RequestFingerprint := buildUsageBillingFingerprint c |> else c.

Definition HashUsageRequestPayload (payload : string) : string :=
  if payload =s "" then "" else sha256_hex payload.

Record BatchImageBalanceHoldCommand := MkHoldCommand {
  h_RequestID : string;
  h_APIKeyID : Z;
  h_RequestFingerprint : string;
  h_RequestPayloadHash : string;
  h_UserID : Z;
  h_BatchID : string;
  h_HoldAmount : float64;
  h_ActualAmount : float64
}.

#[export] Instance eta_HoldCommand : Eta BatchImageBalanceHoldCommand := fun c =>
  MkHoldCommand (h_RequestID c) (h_APIKeyID c) (h_RequestFingerprint c) (h_RequestPayloadHash c)
    (h_UserID c) (h_BatchID c) (h_HoldAmount c) (h_ActualAmount c).

Definition buildBatchImageBalanceHoldFingerprint (c : BatchImageBalanceHoldCommand) : string :=
  sha256_hex (withPayloadHash
    (sepBy [pretty (h_UserID c); pretty (h_APIKeyID c); TrimSpace (h_BatchID c); fixed10 (h_HoldAmount c);
            fixed10 (h_ActualAmount c)])
    (h_RequestPayloadHash c)).

Definition NormalizeHold (c : BatchImageBalanceHoldCommand) : BatchImageBalanceHoldCommand :=
  let c := c <| h_RequestID := TrimSpace (h_RequestID c) |> <| h_BatchID := TrimSpace (h_BatchID c) |> in
  if TrimSpace (h_RequestFingerprint c) =s ""
  then c <| h_RequestFingerprint := buildBatchImageBalanceHoldFingerprint c |> else c.

Record UsageBillingApplyResult := MkApplyResult {
  Applied : bool;
  APIKeyQuotaExhausted : bool;
  NewBalance : option float64;
  BalanceOverdrafted : bool;
  QuotaState : option AccountQuotaState
}.

#[export] Instance eta_ApplyResult : Eta UsageBillingApplyResult := fun r =>
  MkApplyResult (Applied r) (APIKeyQuotaExhausted r) (NewBalance r) (BalanceOverdrafted r) (QuotaState r).

Record BatchImageBalanceHoldResult := MkHoldResult {
  hr_Applied : bool;
  hr_NewBalance : option float64;
  hr_FrozenBalance : option float64
}.

Definition notApplied : UsageBillingApplyResult := MkApplyResult false false None false None.
Definition emptyHoldResult : BatchImageBalanceHoldResult := MkHoldResult false None None.

(** ** Programs *)

(** What a transaction is for. *)
Inductive bill_op :=
  | OpApply (cmd : UsageBillingCommand)
  | OpReserve (cmd : BatchImageBalanceHoldCommand)
  | OpCapture (cmd : BatchImageBalanceHoldCommand)
  | OpRelease (cmd : BatchImageBalanceHoldCommand)
  | OpJob (batchID : string).

Record BatchProviderStatus := MkProviderStatus {
  st_InternalState : string;
  st_ProviderOutputRef : string;
  st_ErrorCode : string;
  st_ErrorMessage : string
}.

Record BatchProviderJob := MkProviderJob {
  pj_ProviderJobName : string;
  pj_ProviderInputRef : string;
  pj_ProviderOutputRef : string
}.

Inductive index_error := IndexOutputMissing | IndexDuplicateCustomID | IndexFailed.

(** Calls to other services; any of them can fail. *)
Inductive bext : Type -> Type :=
  | UnitPrice (batchID : string) : bext float64
  | NextJobID : bext Z
  | ProviderSubmit (batchID : string) : bext (string + BatchProviderJob)
  | ProviderGet (batchID : string) : bext (option BatchProviderStatus)
  | ProviderCancel (batchID : string) : bext unit
  | ProviderCleanup (batchID : string) : bext unit
  | ReadResult (batchID : string) : bext (index_error + Z * Z)
  | Enqueue (batchID : string) : bext unit.

Notation bcall := (call bill_op bstmt bext).
Notation bprog := (prog bcall).
Notation outcome A := (bill_error + A)%type.

Definition exec {R A : Type} (s : bstmt R) (k : R -> bprog (outcome A)) : bprog (outcome A) :=
  let* r := Sql s in match r with Some r => k r | None => Ret (inl ErrDatabase) end.

Definition try {A B : Type} (p : bprog (outcome A)) (f : A -> bprog (outcome B)) : bprog (outcome B) :=
  let! r := p in match r with inl e => Ret (inl e) | inr a => f a end.

(** [true] if the request is new. *)
Definition claimUsageBillingRequest (requestID : string) (apiKeyID : Z) (requestFingerprint : string)
    : bprog (outcome bool) :=
  exec (InsertDedup (requestID, apiKeyID) requestFingerprint) (fun inserted =>
  if inserted then
    exec (SelectArchive (requestID, apiKeyID)) (fun archived =>
    match archived with
    | Some fp =>
      if negb (TrimSpace fp =s TrimSpace requestFingerprint) then Ret (inl ErrUsageBillingRequestConflict)
      else Ret (inr false)
    | None => Ret (inr true)
    end)
  else
    exec (SelectDedup (requestID, apiKeyID)) (fun existing =>
    match existing with
    | None => Ret (inl ErrDatabase)
    | Some fp =>
      if negb (TrimSpace fp =s TrimSpace requestFingerprint) then Ret (inl ErrUsageBillingRequestConflict)
      else Ret (inr false)
    end)).

Definition claimUsageBillingKey (cmd : UsageBillingCommand) : bprog (outcome bool) :=
  claimUsageBillingRequest (RequestID cmd) (APIKeyID cmd) (RequestFingerprint cmd).

(** [BeginTx], a claim, the work if the claim is new, and [Commit]; the deferred [Rollback]
    ends the transaction in every other case. *)
Definition claimedTx {A : Type} (o : bill_op) (claim : bprog (outcome bool)) (skipped : A)
    (work : bprog (outcome A)) : bprog (outcome A) :=
  let* b := Begin o in
  match b with
  | None => Ret (inl ErrDatabase)
  | Some _ =>
    let! applied := claim in
    match applied with
    | inl e => Rollback ;* Ret (inl e)
    | inr false => Rollback ;* Ret (inr skipped)
    | inr true =>
      let! r := work in
      match r with
      | inl e => Rollback ;* Ret (inl e)
      | inr a =>
        let* c := Commit in
        match c with Some _ => Ret (inr a) | None => Rollback ;* Ret (inl ErrDatabase) end
      end
    end
  end.

Definition incrementUsageBillingSubscription (subscriptionID : Z) (costUSD : float64) : bprog (outcome unit) :=
  exec (UpdateSubscriptionUsage costUSD subscriptionID) (fun affected =>
  if 0 <? affected then Ret (inr tt) else Ret (inl ErrSubscriptionNotFound)).

Definition deductUsageBillingBalance (userID : Z) (cost : float64) : bprog (outcome (float64 * bool)) :=
  exec (DeductBalance true cost userID) (fun r =>
  match r with
  | Some newBalance => Ret (inr (newBalance, true))
  | None =>
    exec (DeductBalance false cost userID) (fun r =>
    match r with Some newBalance => Ret (inr (newBalance, false)) | None => Ret (inl ErrUserNotFound) end)
  end).

(** [None] is [ErrAPIKeyNotFound], which the caller passes over. *)
Definition incrementUsageBillingAPIKeyQuota (apiKeyID : Z) (cost : float64) : bprog (outcome (option bool)) :=
  exec (UpdateKeyQuota cost apiKeyID) (fun exhausted => Ret (inr exhausted)).

Definition incrementUsageBillingAPIKeyRateLimit (apiKeyID : Z) (cost : float64) : bprog (outcome (option unit)) :=
  exec (UpdateKeyRateLimit cost apiKeyID) (fun affected =>
  if affected =? 0 then Ret (inr None) else Ret (inr (Some tt))).

Definition crossed (used limit cost : float64) : bool :=
  flt fzero limit && fle limit used && flt (fsub used cost) limit.

Definition incrementUsageBillingAccountQuota (accountID : Z) (cost : float64) : bprog (outcome AccountQuotaState) :=
  exec (UpdateAccountQuota cost accountID) (fun r =>
  match r with
  | None => Ret (inl ErrAccountNotFound)
  | Some state =>
    if crossed (TotalUsed state) (TotalLimit state) cost || crossed (DailyUsed state) (DailyLimit state) cost
       || crossed (WeeklyUsed state) (WeeklyLimit state) cost
    then exec (InsertOutbox accountID) (fun _ => Ret (inr state))
    else Ret (inr state)
  end).

Section Effects.
Context (unicode_lower : string -> string).

Definition AccountSupportsQuota (platform accountType : string) : bool :=
  (accountType =s "apikey") || (accountType =s "bedrock")
  || ((platform =s "gemini") && (accountType =s "service_account")).

Definition applyUsageBillingEffects (cmd : UsageBillingCommand) : bprog (outcome UsageBillingApplyResult) :=
  let result := MkApplyResult true false None false None in
  try (match SubscriptionID cmd with
       | Some id => if flt fzero (SubscriptionCost cmd)
                    then incrementUsageBillingSubscription id (SubscriptionCost cmd) else Ret (inr tt)
       | None => Ret (inr tt)
       end) (fun _ =>
  try (if flt fzero (BalanceCost cmd) then
         try (deductUsageBillingBalance (UserID cmd) (BalanceCost cmd)) (fun r =>
         Ret (inr (result <| NewBalance := Some r.1 |> <| BalanceOverdrafted := negb r.2 |>)))
       else Ret (inr result)) (fun result =>
  try (if flt fzero (APIKeyQuotaCost cmd) then
         try (incrementUsageBillingAPIKeyQuota (APIKeyID cmd) (APIKeyQuotaCost cmd)) (fun r =>
         Ret (inr (match r with Some exhausted => result <| APIKeyQuotaExhausted := exhausted |> | None => result end)))
       else Ret (inr result)) (fun result =>
  try (if flt fzero (APIKeyRateLimitCost cmd) then
         incrementUsageBillingAPIKeyRateLimit (APIKeyID cmd) (APIKeyRateLimitCost cmd)
       else Ret (inr None)) (fun _ =>
  if flt fzero (AccountQuotaCost cmd)
     && AccountSupportsQuota (AccountPlatform cmd) (ToLower unicode_lower (AccountType cmd)) then
    try (incrementUsageBillingAccountQuota (AccountID cmd) (AccountQuotaCost cmd)) (fun state =>
    Ret (inr (result <| QuotaState := Some state |>)))
  else Ret (inr result))))).

Definition Apply (cmd : UsageBillingCommand) : bprog (outcome UsageBillingApplyResult) :=
  let cmd := Normalize cmd in
  if RequestID cmd =s "" then Ret (inl ErrUsageBillingRequestIDRequired)
  else claimedTx (OpApply cmd) (claimUsageBillingKey cmd) notApplied (applyUsageBillingEffects cmd).
End Effects.

(** ** Holds *)

Definition userExistsForBilling (userID : Z) : bprog (outcome bool) :=
  exec (SelectUser userID) (fun exists_ => Ret (inr exists_)).

(** What follows an update of a balance that found no row. *)
Definition balanceMoved (r : option (float64 * float64)) (userID : Z) (otherwise : bill_error)
    : bprog (outcome BatchImageBalanceHoldResult) :=
  match r with
  | Some (balance, frozen) => Ret (inr (MkHoldResult false (Some balance) (Some frozen)))
  | None =>
    try (userExistsForBilling userID) (fun exists_ =>
    if negb exists_ then Ret (inl ErrUserNotFound) else Ret (inl otherwise))
  end.

Definition reserveUsageBillingBatchImageBalance (cmd : BatchImageBalanceHoldCommand)
    : bprog (outcome BatchImageBalanceHoldResult) :=
  if fle (h_HoldAmount cmd) fzero then Ret (inr emptyHoldResult)
  else exec (ReserveBalance (h_HoldAmount cmd) (h_UserID cmd)) (fun r =>
       balanceMoved r (h_UserID cmd) ErrBatchImageInsufficientBalance).

(** The constant [0.00000001]. *)
Definition epsilon8 : float64 := fdiv (float_of_Z 1) (float_of_Z 100000000).

Definition captureUsageBillingBatchImageBalance (cmd : BatchImageBalanceHoldCommand)
    : bprog (outcome BatchImageBalanceHoldResult) :=
  if fle (h_HoldAmount cmd) fzero && fle (h_ActualAmount cmd) fzero then Ret (inr emptyHoldResult)
  else if flt epsilon8 (fsub (h_ActualAmount cmd) (h_HoldAmount cmd))
  then Ret (inl ErrBatchImageSettlementCostExceedsHold)
  else exec (CaptureBalance (h_HoldAmount cmd) (h_ActualAmount cmd) (h_UserID cmd)) (fun r =>
       balanceMoved r (h_UserID cmd) ErrFrozenBalanceInsufficient).

Definition BatchImageHoldRequestID (batchID : string) : string := "batch_image_hold:" +:+ TrimSpace batchID.
Definition BatchImageCaptureRequestID (batchID : string) : string := "batch_image_capture:" +:+ TrimSpace batchID.
Definition BatchImageReleaseRequestID (batchID : string) : string := "batch_image_release:" +:+ TrimSpace batchID.

Definition batchImageHoldClaimExists (holdRequestID : string) (apiKeyID : Z) : bprog (outcome bool) :=
  exec (SelectDedup (holdRequestID, apiKeyID)) (fun r =>
  match r with
  | Some _ => Ret (inr true)
  | None => exec (SelectArchive (holdRequestID, apiKeyID)) (fun r => Ret (inr (bool_decide (r <> None))))
  end).

Definition releaseUsageBillingBatchImageBalance (cmd : BatchImageBalanceHoldCommand)
    : bprog (outcome BatchImageBalanceHoldResult) :=
  if fle (h_HoldAmount cmd) fzero then Ret (inr emptyHoldResult)
  else
    try (batchImageHoldClaimExists (BatchImageHoldRequestID (h_BatchID cmd)) (h_APIKeyID cmd)) (fun held =>
    if negb held then Ret (inr emptyHoldResult)
    else exec (ReleaseBalance (h_HoldAmount cmd) (h_UserID cmd)) (fun r =>
         balanceMoved r (h_UserID cmd) ErrFrozenBalanceInsufficient)).

Definition applyBatchImageBalanceHold (o : BatchImageBalanceHoldCommand -> bill_op)
    (apply : BatchImageBalanceHoldCommand -> bprog (outcome BatchImageBalanceHoldResult))
    (cmd : BatchImageBalanceHoldCommand) : bprog (outcome BatchImageBalanceHoldResult) :=
  let cmd := NormalizeHold cmd in
  if h_RequestID cmd =s "" then Ret (inl ErrUsageBillingRequestIDRequired)
  else claimedTx (o cmd) (claimUsageBillingRequest (h_RequestID cmd) (h_APIKeyID cmd) (h_RequestFingerprint cmd))
    emptyHoldResult
    (try (apply cmd) (fun r => Ret (inr (MkHoldResult true (hr_NewBalance r) (hr_FrozenBalance r))))).

Definition ReserveBatchImageBalance : BatchImageBalanceHoldCommand -> bprog (outcome BatchImageBalanceHoldResult) :=
  applyBatchImageBalanceHold OpReserve reserveUsageBillingBatchImageBalance.
Definition CaptureBatchImageBalance : BatchImageBalanceHoldCommand -> bprog (outcome BatchImageBalanceHoldResult) :=
  applyBatchImageBalanceHold OpCapture captureUsageBillingBatchImageBalance.
Definition ReleaseBatchImageBalance : BatchImageBalanceHoldCommand -> bprog (outcome BatchImageBalanceHoldResult) :=
  applyBatchImageBalanceHold OpRelease releaseUsageBillingBatchImageBalance.

(** ** Retention of claims *)

Definition usageBillingDedupCleanupBatchSize : nat := 10000.

(** [fuel] bounds the rounds ([None] when it runs out); the loop ends with the first batch
    that is not full. *)
Fixpoint cleanupRounds (fuel : nat) (size : nat) (cutoff : Z) : bprog (option (outcome unit)) :=
  match fuel with
  | O => Ret None
  | S fuel =>
    let* r := Sql (ArchiveBatch cutoff size) in
    match r with
    | None => Ret (Some (inl ErrDatabase))
    | Some affected =>
      if affected <? Z.of_nat size then Ret (Some (inr tt)) else cleanupRounds fuel size cutoff
    end
  end.

Definition CleanupUsageBillingDedup (fuel : nat) (cutoff : Z) : bprog (option (outcome unit)) :=
  cleanupRounds fuel usageBillingDedupCleanupBatchSize cutoff.
