(* ===== verification/BatchImages.v ===== *)
(** * Batches of images

    [service/batch_image.go], [batch_image_billing_hold.go], [batch_image_settlement.go],
    [batch_image_billing_recovery.go], the job methods of [repository/batch_image_repo.go],
    [Process] of [batch_image_processor.go] and [Submit] and [Cancel] of
    [batch_image_public.go]: how a batch goes from submission to settlement, and what happens
    to the balance that was held back for it.

    The provider, the queue, the price list and the reader of results are calls with unknown
    replies.  Best-effort writes that nothing modelled reads (usage log, invalidation of the
    authentication cache, log lines) are left out, as are the texts of errors and of events. *)

From Stdlib Require Import SpecFloat.
From stdpp Require Import pretty.
From S2P Require Import Prelude GoStrings GoFloat GoTime GoCrypto Programs Transactions BillingTables UsageBilling.

#[local] Open Scope Z_scope.

Inductive job_error :=
  | ErrBatchImageJobNotFound
  | ErrBatchImageJobExists
  | ErrBatchImageInvalidProvider
  | ErrBatchImageInvalidTransition
  | ErrBatchImageIndexStateConflict
  | ErrBatchImageIndexOutputMissing
  | ErrBatchImageDuplicateCustomID
  | ErrBatchImageIndexParseFailed
  | ErrBatchImageSettlementInvalidStatus
  | ErrBatchImageSettlementManifestConflict
  | ErrBatchImageSettlementPricingMissing
  | ErrBatchImageSettlementBillingFailed
  | ErrBatchImageAlreadySettled
  | ErrBatchImageSettlementMissingAPIKeyID
  | ErrBatchImageSettlementMissingAccountID
  | ErrBatchImageSettlementInvalidCounts
  | ErrSettlementCostExceedsHold
  | ErrBatchImageBillingHoldFailed
  | ErrInsufficientBalance
  | ErrBatchImageProviderSubmitFailed
  | ErrBatchImageProviderRefused (reason : string)
  | ErrBatchImageQueueFailed
  | ErrBatchImageIdempotencyConflict
  | ErrBatchImageCancelFailed
  | ErrBatchImageUnsupportedProvider
  | ErrBatchImageMissingAccountID
  | ErrBatchImageMissingProviderJobName
  | ErrBatchImageRecordDeleteNotReady
  | ErrStorage.

#[export] Instance job_error_eq_dec : EqDecision job_error.
Proof. solve_decision. Defined.

Notation result A := (job_error + A)%type.

Definition query {R A : Type} (s : bstmt R) (k : R -> bprog (result A)) : bprog (result A) :=
  let* r := Sql s in match r with Some r => k r | None => Ret (inl ErrStorage) end.

Definition andThen {A B : Type} (p : bprog (result A)) (f : A -> bprog (result B)) : bprog (result B) :=
  let! r := p in match r with inl e => Ret (inl e) | inr a => f a end.

(** [time.Now()]. *)
Definition timeNow {A : Type} (k : Z -> bprog A) : bprog A := let* t := Now in k (default 0 t).

Definition batchImageDerefString (v : option string) : string := default "" (TrimSpace <$> v).

Definition batchImageOptionalStringPtr (v : string) : option string :=
  if TrimSpace v =s "" then None else Some (TrimSpace v).

Definition truncateBatchImageMessage (message : string) (limit : Z) : string :=
  let message := TrimSpace message in
  if (limit <=? 0) || (strlen message <=? limit) then message else str_take (Z.to_nat limit) message.

Definition batchImageMaxErrorMessageLength : Z := 1000.

(** ** Statuses ([batch_image.go]) *)

Definition IsSupportedBatchImageProvider (provider : string) : bool :=
  (provider =s "gemini_api") || (provider =s "vertex").

Definition IsTerminalBatchImageJobStatus (status : string) : bool :=
  (status =s BatchImageJobStatusCompleted) || (status =s BatchImageJobStatusFailed)
  || (status =s BatchImageJobStatusCancelled) || (status =s BatchImageJobStatusOutputDeleted).

Definition allowedTransitions : list (string * list string) :=
  [(BatchImageJobStatusCreated,
     [BatchImageJobStatusUploading; BatchImageJobStatusSubmitted; BatchImageJobStatusCancelled]);
   (BatchImageJobStatusUploading, [BatchImageJobStatusSubmitted; BatchImageJobStatusCancelled]);
   (BatchImageJobStatusSubmitted,
     [BatchImageJobStatusRunning; BatchImageJobStatusIndexing; BatchImageJobStatusFailed; BatchImageJobStatusCancelled]);
   (BatchImageJobStatusRunning,
     [BatchImageJobStatusRunning; BatchImageJobStatusIndexing; BatchImageJobStatusFailed; BatchImageJobStatusCancelled]);
   (BatchImageJobStatusIndexing, [BatchImageJobStatusSettling; BatchImageJobStatusFailed]);
   (BatchImageJobStatusSettling, [BatchImageJobStatusCompleted])].

Definition CanTransitionBatchImageJob (from to : string) : bool :=
  if (from =s "") || (to =s "") then false
  else if IsTerminalBatchImageJobStatus from then
    (to =s BatchImageJobStatusOutputDeleted) && negb (from =s BatchImageJobStatusOutputDeleted)
    && ((from =s BatchImageJobStatusCompleted) || (from =s BatchImageJobStatusFailed)
        || (from =s BatchImageJobStatusCancelled))
  else if to =s BatchImageJobStatusFailed then true
  else existsb (fun e => (e.1 =s from) && existsb (String.eqb to) e.2) allowedTransitions.

Definition isBatchImageProcessorDoneStatus (status : string) : bool :=
  if status =s BatchImageJobStatusSettling then true else IsTerminalBatchImageJobStatus status.

(** ** The repository ([batch_image_repo.go]) *)

(** A transaction of the repository; [Rollback] is deferred. *)
Definition jobTx {A : Type} (batchID : string) (work : bprog (result A)) : bprog (result A) :=
  let* b := Begin (OpJob batchID) in
  match b with
  | None => Ret (inl ErrStorage)
  | Some _ =>
    let! r := work in
    match r with
    | inl e => Rollback ;* Ret (inl e)
    | inr a =>
      let* c := Commit in
      match c with Some _ => Rollback ;* Ret (inr a) | None => Rollback ;* Ret (inl ErrStorage) end
    end
  end.

Definition appendBatchImageEvent (batchID eventType : string) : bprog (result unit) :=
  query (InsertEvent batchID eventType) (fun _ => Ret (inr tt)).

Definition CreateBatchImageJob (params : CreateBatchImageJobParams) : bprog (result BatchImageJob) :=
  if negb (IsSupportedBatchImageProvider (cj_Provider params)) then Ret (inl ErrBatchImageInvalidProvider)
  else
    let* id := Ext NextJobID in
    match id with
    | None => Ret (inl ErrStorage)
    | Some id =>
      query (InsertJob id params) (fun r =>
      match r with inl _ => Ret (inl ErrBatchImageJobExists) | inr j => Ret (inr j) end)
    end.

Definition orNotFound {A : Type} (r : option A) : bprog (result A) :=
  match r with Some a => Ret (inr a) | None => Ret (inl ErrBatchImageJobNotFound) end.

Definition GetBatchImageJobByBatchID (batchID : string) : bprog (result BatchImageJob) :=
  query (GetJob batchID) orNotFound.

Definition GetBatchImageJobByIdempotencyKey (userID apiKeyID : Z) (key : string) : bprog (result BatchImageJob) :=
  query (GetJobByKey userID apiKeyID key) orNotFound.

Definition GetBatchImageJobByBatchIDForOwner (userID apiKeyID : Z) (batchID : string) : bprog (result BatchImageJob) :=
  query (GetJobForOwner batchID userID apiKeyID) orNotFound.

Definition TransitionBatchImageJobStatus (batchID toStatus eventType : string) (code message : option string)
    : bprog (result unit) :=
  jobTx batchID
    (query (LockJob batchID) (fun current =>
     match current with
     | None => Ret (inl ErrBatchImageJobNotFound)
     | Some current =>
       if negb (CanTransitionBatchImageJob current toStatus) then Ret (inl ErrBatchImageInvalidTransition)
       else
         timeNow (fun now =>
         query (TransitionJob batchID toStatus now code message) (fun _ =>
         appendBatchImageEvent batchID eventType))
     end)).

Definition TouchBatchImageJobSubmitting (batchID : string) : bprog (result unit) :=
  timeNow (fun now => query (TouchJob batchID now) (fun _ => Ret (inr tt))).

(** Whether the job was failed, and the error. *)
Definition FailStaleUnsubmittedBatchImageJob (batchID : string) (cutoff : Z) (code message : string)
    : bprog (bool * option job_error) :=
  timeNow (fun now =>
  let* r := Sql (FailStaleJob batchID now cutoff code message) in
  match r with
  | None => Ret (false, Some ErrStorage)
  | Some affected =>
    if affected =? 0 then Ret (false, None)
    else
      let! e := appendBatchImageEvent batchID "billing_hold_recovery_failed_unsubmitted" in
      Ret (true, match e with inl e => Some e | inr _ => None end)
  end).

Definition UpdateBatchImageJobProviderOutputRef (batchID ref : string) : bprog (result unit) :=
  timeNow (fun now =>
  query (SetOutputRef batchID ref now) (fun affected =>
  if affected =? 0 then Ret (inl ErrBatchImageJobNotFound) else Ret (inr tt))).

Definition UpdateBatchImageJobProviderSubmit (batchID : string) (params : ProviderSubmitParams) : bprog (result unit) :=
  jobTx batchID
    (query (LockJob batchID) (fun current =>
     match current with
     | None => Ret (inl ErrBatchImageJobNotFound)
     | Some current =>
       if negb (CanTransitionBatchImageJob current BatchImageJobStatusSubmitted)
       then Ret (inl ErrBatchImageInvalidTransition)
       else
         timeNow (fun now =>
         query (SubmitJob batchID now params) (fun _ =>
         appendBatchImageEvent batchID "provider_submitted"))
     end)).

Definition RecordBatchImageJobSubmitFailure (batchID code message : string) (markFailed : bool) : bprog (result unit) :=
  timeNow (fun now =>
  query (RecordSubmitFailure batchID now code message markFailed) (fun _ =>
  appendBatchImageEvent batchID (if markFailed then "submit_failed" else "queue_failed"))).

Definition MarkBatchImageJobSettled (batchID : string) (actualCost : float64) (manifestHash : string)
    (now outputExpiresAt : Z) : bprog (result unit) :=
  jobTx batchID
    (query (SettleJob batchID now outputExpiresAt actualCost manifestHash) (fun affected =>
     if affected =? 0 then
       query (GetJob batchID) (fun job =>
       match job with
       | None => Ret (inl ErrBatchImageJobNotFound)
       | Some job =>
         if negb (j_Status job =s BatchImageJobStatusSettling) then
           if j_Status job =s BatchImageJobStatusCompleted then Ret (inl ErrBatchImageAlreadySettled)
           else Ret (inl ErrBatchImageSettlementInvalidStatus)
         else Ret (inl ErrBatchImageSettlementManifestConflict)
       end)
     else appendBatchImageEvent batchID "settlement_completed")).

Definition SetBatchImageJobSettlementFailed (batchID code message : string) : bprog (result Z) :=
  timeNow (fun now =>
  query (SettlementFailed batchID now code message) (fun r =>
  match r with
  | None => Ret (inl ErrBatchImageJobNotFound)
  | Some retryCount => andThen (appendBatchImageEvent batchID "settlement_failed") (fun _ => Ret (inr retryCount))
  end)).

Definition BulkCreateBatchImageItems (batchID : string) : bprog (result unit) :=
  jobTx batchID (query (WriteItems batchID) (fun _ => Ret (inr tt))).

Definition ReplaceBatchImageItemsForJob (batchID : string) (successCount failCount : Z) : bprog (result unit) :=
  jobTx batchID
    (query (LockJob batchID) (fun status =>
     match status with
     | None => Ret (inl ErrBatchImageJobNotFound)
     | Some status =>
       if negb (status =s BatchImageJobStatusIndexing) then Ret (inl ErrBatchImageIndexStateConflict)
       else
         query (WriteItems batchID) (fun _ =>
         timeNow (fun now =>
         query (SetCounts batchID now successCount failCount) (fun _ => Ret (inr tt))))
     end)).

Definition MarkBatchImageJobUserDeleted (userID apiKeyID : Z) (batchID : string) : bprog (result unit) :=
  timeNow (fun now =>
  query (HideJob batchID userID apiKeyID now) (fun affected =>
  if affected =? 0 then Ret (inl ErrBatchImageRecordDeleteNotReady)
  else appendBatchImageEvent batchID "user_record_deleted")).

(** ** Holds ([batch_image_billing_hold.go]) *)

Definition HoldAmount (job : BatchImageJob) : float64 :=
  match j_HoldAmount job with Some h => float10 h | None => float10 (j_EstimatedCost job) end.

Definition buildBatchImageHoldCommand (job : BatchImageJob) (requestID : string) (actualAmount : float64)
    (payloadHash : string) : result BatchImageBalanceHoldCommand :=
  match j_APIKeyID job with
  | Some apiKeyID =>
    if apiKeyID <=? 0 then inl ErrBatchImageSettlementMissingAPIKeyID
    else
      let holdAmount := HoldAmount job in
      let holdAmount := if flt holdAmount fzero then fzero else holdAmount in
      let actualAmount := if flt actualAmount fzero then fzero else actualAmount in
      inr (MkHoldCommand requestID apiKeyID "" (TrimSpace payloadHash) (j_UserID job) (j_BatchID job)
             holdAmount actualAmount)
  | None => inl ErrBatchImageSettlementMissingAPIKeyID
  end.

Definition reserveBatchImageBalanceHold (job : BatchImageJob) (payloadHash : string) : bprog (result unit) :=
  match buildBatchImageHoldCommand job (BatchImageHoldRequestID (j_BatchID job)) fzero payloadHash with
  | inl e => Ret (inl e)
  | inr cmd =>
    if fle (h_HoldAmount cmd) fzero then Ret (inr tt)
    else
      let! r := ReserveBatchImageBalance cmd in
      match r with
      | inl ErrBatchImageInsufficientBalance => Ret (inl ErrInsufficientBalance)
      | inl _ => Ret (inl ErrBatchImageBillingHoldFailed)
      | inr _ => Ret (inr tt)
      end
  end.

Definition captureBatchImageBalanceHold (job : BatchImageJob) (actualAmount : float64) (payloadHash : string)
    : bprog (result unit) :=
  match buildBatchImageHoldCommand job (BatchImageCaptureRequestID (j_BatchID job)) actualAmount payloadHash with
  | inl e => Ret (inl e)
  | inr cmd =>
    let! r := CaptureBatchImageBalance cmd in
    match r with inl _ => Ret (inl ErrBatchImageSettlementBillingFailed) | inr _ => Ret (inr tt) end
  end.

Definition releaseBatchImageBalanceHold (job : BatchImageJob) (payloadHash : string) : bprog (result unit) :=
  match buildBatchImageHoldCommand job (BatchImageReleaseRequestID (j_BatchID job)) fzero payloadHash with
  | inl e => Ret (inl e)
  | inr cmd =>
    if fle (h_HoldAmount cmd) fzero then Ret (inr tt)
    else
      let! r := ReleaseBatchImageBalance cmd in
      match r with
      | inl ErrUsageBillingRequestConflict => Ret (inr tt)
      | inl _ => Ret (inl ErrBatchImageBillingHoldFailed)
      | inr _ => Ret (inr tt)
      end
  end.

(** ** Settlement ([batch_image_settlement.go]) *)

Definition batchImageSettlementMaxRetries : Z := 5.
Definition batchImageCostEpsilon : float64 := epsilon8.

Record BatchImageSettlementResult := MkSettlement {
  sr_BatchID : string;
  sr_SuccessCount : Z;
  sr_FailCount : Z;
  sr_ActualCost : float64;
  sr_ManifestHash : string;
  sr_RequestID : string;
  sr_AlreadySettled : bool
}.

#[export] Instance eta_Settlement : Eta BatchImageSettlementResult := fun r =>
  MkSettlement (sr_BatchID r) (sr_SuccessCount r) (sr_FailCount r) (sr_ActualCost r) (sr_ManifestHash r)
    (sr_RequestID r) (sr_AlreadySettled r).

Fixpoint joinNul (l : list string) : string :=
  match l with [] => "" | [s] => s | s :: l => s +:+ String Ascii.zero (joinNul l) end.

Definition BuildBatchImageSettlementManifestHash (job : BatchImageJob) : string :=
  sha256_hex (joinNul
    [TrimSpace (j_BatchID job); TrimSpace (j_Provider job); TrimSpace (j_Model job);
     batchImageDerefString (j_ProviderJobName job); batchImageDerefString (j_ProviderOutputRef job);
     pretty (j_SuccessCount job); pretty (j_FailCount job); pretty (j_ItemCount job)]).

Definition isBatchImageSettlementRetryExhausted (job : BatchImageJob) : bool :=
  (j_Status job =s BatchImageJobStatusSettling) && (batchImageSettlementMaxRetries <=? j_RetryCount job)
  && HasPrefix (batchImageDerefString (j_LastErrorCode job)) "SETTLEMENT_".

Section Service.
(** Texts of errors, and the retention of outputs in the configuration (in hours). *)
Context (errorText : job_error -> string) (retentionHours : Z).

Definition cut (message : string) : string := truncateBatchImageMessage message batchImageMaxErrorMessageLength.

Definition failExhaustedSettlement (job : BatchImageJob) (message : string) : bprog job_error :=
  let! r := releaseBatchImageBalanceHold job (batchImageDerefString (j_RequestHash job)) in
  match r with
  | inl e =>
    let! _r := SetBatchImageJobSettlementFailed (j_BatchID job) "SETTLEMENT_RELEASE_FAILED" (cut (errorText e)) in
    Ret ErrBatchImageSettlementBillingFailed
  | inr _ =>
    let msg := TrimSpace message in
    let msg := if msg =s "" then "settlement billing retry limit reached" else msg in
    let! r := TransitionBatchImageJobStatus (j_BatchID job) BatchImageJobStatusFailed "settlement_retry_exhausted"
                (Some "SETTLEMENT_BILLING_RETRY_EXHAUSTED") (Some msg) in
    match r with inl e => Ret e | inr _ => Ret ErrBatchImageSettlementBillingFailed end
  end.

(** [Some e]: the caller returns [e]. *)
Definition recordSettlementFailure (job : BatchImageJob) (code message : string) : bprog (option job_error) :=
  let! r := SetBatchImageJobSettlementFailed (j_BatchID job) code (cut message) in
  match r with
  | inl _ => Ret None
  | inr retryCount =>
    if batchImageSettlementMaxRetries <=? retryCount then
      let! e := failExhaustedSettlement (job <| j_RetryCount := retryCount |> <| j_LastErrorCode := Some code |>) message in
      Ret (Some e)
    else Ret None
  end.

(** A recorded failure, and the error that is returned for it. *)
Definition failSettlement {A : Type} (job : BatchImageJob) (code message : string) (e : job_error) : bprog (result A) :=
  let! r := recordSettlementFailure job code message in
  match r with Some e' => Ret (inl e') | None => Ret (inl e) end.

Definition settlementUnitPrice (job : BatchImageJob) : bprog (result float64) :=
  if 1 <=? j_PricingSnapshotVersion job then
    let price := float10 (j_BillableUnitPrice job) in
    if flt price fzero then Ret (inl ErrBatchImageSettlementPricingMissing) else Ret (inr price)
  else
    let* r := Ext (UnitPrice (j_BatchID job)) in
    match r with Some price => Ret (inr price) | None => Ret (inl ErrBatchImageSettlementPricingMissing) end.

Definition outputRetentionAfterTerminal : Z :=
  if 0 <? retentionHours then retentionHours * Hour else 72 * Hour.

(** Capturing the hold and closing the job. *)
Definition settleCaptured (job : BatchImageJob) (settled : BatchImageSettlementResult) (actualCost : float64)
    (manifestHash : string) : bprog (result BatchImageSettlementResult) :=
  let! r := captureBatchImageBalanceHold job actualCost manifestHash in
  match r with
  | inl e => failSettlement job "SETTLEMENT_BILLING_FAILED" (cut (errorText e)) e
  | inr _ =>
    timeNow (fun now =>
    andThen (MarkBatchImageJobSettled (j_BatchID job) actualCost manifestHash now (now + outputRetentionAfterTerminal))
      (fun _ => Ret (inr settled)))
  end.

Definition Settle (batchID : string) : bprog (result BatchImageSettlementResult) :=
  andThen (GetBatchImageJobByBatchID batchID) (fun job =>
  let manifestHash := BuildBatchImageSettlementManifestHash job in
  let settled := MkSettlement (j_BatchID job) (j_SuccessCount job) (j_FailCount job)
    (match j_ActualCost job with Some c => float10 c | None => fzero end) manifestHash
    (BatchImageCaptureRequestID (j_BatchID job)) false in
  if j_Status job =s BatchImageJobStatusCompleted then Ret (inr (settled <| sr_AlreadySettled := true |>))
  else if negb (j_Status job =s BatchImageJobStatusSettling) then Ret (inl ErrBatchImageSettlementInvalidStatus)
  else if default 0 (j_APIKeyID job) <=? 0 then Ret (inl ErrBatchImageSettlementMissingAPIKeyID)
  else if default 0 (j_AccountID job) <=? 0 then Ret (inl ErrBatchImageSettlementMissingAccountID)
  else if isBatchImageSettlementRetryExhausted job then
    let! e := failExhaustedSettlement job
      ("settlement retry limit reached: " +:+ batchImageDerefString (j_LastErrorCode job)) in
    Ret (inl e)
  else if (j_SuccessCount job <? 0) || (j_FailCount job <? 0) || (j_ItemCount job <? 0)
          || (j_ItemCount job <? wrap64 (j_SuccessCount job + j_FailCount job)) then
    failSettlement job "SETTLEMENT_INVALID_COUNTS"
      ("success=" +:+ pretty (j_SuccessCount job) +:+ " fail=" +:+ pretty (j_FailCount job)
       +:+ " item_count=" +:+ pretty (j_ItemCount job)) ErrBatchImageSettlementInvalidCounts
  else if negb (TrimSpace (batchImageDerefString (j_ManifestHash job)) =s "")
          && negb (batchImageDerefString (j_ManifestHash job) =s manifestHash) then
    failSettlement job "SETTLEMENT_MANIFEST_CONFLICT" "manifest hash conflict" ErrBatchImageSettlementManifestConflict
  else
    let! price := settlementUnitPrice job in
    let price := match price with
                 | inr p => if flt p fzero then inl ErrBatchImageSettlementPricingMissing else inr p
                 | inl e => inl e end in
    match price with
    | inl e => failSettlement job "SETTLEMENT_PRICING_MISSING" (errorText e) e
    | inr unitPrice =>
      let actualCost := fmul (float_of_Z (j_SuccessCount job)) unitPrice in
      let holdAmount := HoldAmount job in
      if flt batchImageCostEpsilon (fsub actualCost holdAmount) then
        failSettlement job "SETTLEMENT_COST_EXCEEDS_HOLD"
          ("actual cost " +:+ fixed10 actualCost +:+ " exceeds held amount " +:+ fixed10 holdAmount)
          ErrSettlementCostExceedsHold
      else settleCaptured job (settled <| sr_ActualCost := actualCost |>) actualCost manifestHash
    end).

(** ** Recovery of holds that were never used ([batch_image_billing_recovery.go]) *)

Definition staleMessage : string := "batch image submission did not reach provider before recovery cutoff".

(** How many holds were released, and the last error. *)
Fixpoint releaseStale (cutoff : Z) (jobs : list BatchImageJob) (released : Z) (lastErr : option job_error)
    : bprog (Z * option job_error) :=
  match jobs with
  | [] => Ret (released, lastErr)
  | job :: jobs =>
    let! r := FailStaleUnsubmittedBatchImageJob (j_BatchID job) cutoff "SUBMIT_STALE_BEFORE_PROVIDER" staleMessage in
    let '(applied, err) := r in
    if negb applied then
      releaseStale cutoff jobs released (match err with Some e => Some e | None => lastErr end)
    else
      let! rel := releaseBatchImageBalanceHold (job <| j_Status := BatchImageJobStatusFailed |>)
                  (batchImageDerefString (j_RequestHash job)) in
      match rel with
      | inl e => Ext (Enqueue (j_BatchID job)) ;* releaseStale cutoff jobs released (Some e)
      | inr _ => releaseStale cutoff jobs (released + 1) lastErr
      end
  end.

Definition ReleaseStaleUnsubmittedOnce (staleAfter limit : Z) : bprog (result (Z * option job_error)) :=
  let staleAfter := if staleAfter <=? 0 then 10 * 60 * Second else staleAfter in
  let limit := if limit <=? 0 then 100 else limit in
  let limit := if 1000 <? limit then 100 else limit in
  timeNow (fun now =>
  let cutoff := now - staleAfter in
  query (ListStaleJobs cutoff (Z.to_nat limit)) (fun jobs =>
  let! r := releaseStale cutoff jobs 0 None in
  Ret (inr r))).

(** ** Processing ([batch_image_processor.go]) *)

(** Whether the job is finished, or when to come back: [None] for the default delay. *)
Inductive process_result := Terminal | RequeueAfter (delay : option Z).

Definition releaseTerminalHold (job : BatchImageJob) : bprog (result unit) :=
  if negb (j_Status job =s BatchImageJobStatusFailed) && negb (j_Status job =s BatchImageJobStatusCancelled)
  then Ret (inr tt)
  else releaseBatchImageBalanceHold job (batchImageDerefString (j_RequestHash job)).

Definition terminalHoldReleased (job : BatchImageJob) : bprog (result process_result) :=
  andThen (releaseTerminalHold job) (fun _ => Ret (inr Terminal)).

(** [BatchImageResultIndexer.Index]: reading the provider's result, then replacing the items. *)
Definition Index (job : BatchImageJob) : bprog (result (Z * Z)) :=
  let* r := Ext (ReadResult (j_BatchID job)) in
  match r with
  | None => Ret (inl ErrStorage)
  | Some (inl IndexOutputMissing) => Ret (inl ErrBatchImageIndexOutputMissing)
  | Some (inl IndexDuplicateCustomID) => Ret (inl ErrBatchImageDuplicateCustomID)
  | Some (inl IndexFailed) => Ret (inl ErrBatchImageIndexParseFailed)
  | Some (inr (success, fail)) =>
    andThen (ReplaceBatchImageItemsForJob (j_BatchID job) success fail) (fun _ => Ret (inr (success, fail)))
  end.

Definition indexAndSettle (job : BatchImageJob) : bprog (result process_result) :=
  let! r := Index job in
  match r with
  | inl ErrBatchImageIndexOutputMissing => Ret (inl ErrBatchImageIndexOutputMissing)
  | inl ErrBatchImageIndexStateConflict => Ret (inr (RequeueAfter (Some 1000000)))
  | inl e =>
    let code := match e with ErrBatchImageDuplicateCustomID => "DUPLICATE_CUSTOM_ID_IN_OUTPUT"
                | _ => "INDEX_PARSE_FAILED" end in
    andThen (TransitionBatchImageJobStatus (j_BatchID job) BatchImageJobStatusFailed "indexing_failed"
               (Some code) (batchImageOptionalStringPtr (cut (errorText e)))) (fun _ =>
    terminalHoldReleased (job <| j_Status := BatchImageJobStatusFailed |>))
  | inr _ =>
    andThen (TransitionBatchImageJobStatus (j_BatchID job) BatchImageJobStatusSettling "indexing_completed" None None)
      (fun _ => Ret (inr (RequeueAfter (Some 1000000))))
  end.

Definition persistProviderOutputRef (job : BatchImageJob) (ref : string) : bprog (result BatchImageJob) :=
  let ref := TrimSpace ref in
  if (ref =s "") || (batchImageDerefString (j_ProviderOutputRef job) =s ref) then Ret (inr job)
  else andThen (UpdateBatchImageJobProviderOutputRef (j_BatchID job) ref) (fun _ =>
       Ret (inr (job <| j_ProviderOutputRef := Some ref |>))).

Definition providerFailed (job : BatchImageJob) (st : BatchProviderStatus) : bprog (result process_result) :=
  let code := TrimSpace (st_ErrorCode st) in
  let code := if (code =s "") && (st_InternalState st =s "expired") then "PROVIDER_BATCH_EXPIRED" else code in
  let code := if code =s "" then "PROVIDER_BATCH_FAILED" else code in
  andThen (TransitionBatchImageJobStatus (j_BatchID job) BatchImageJobStatusFailed "job_failed"
             (Some code) (batchImageOptionalStringPtr (cut (st_ErrorMessage st)))) (fun _ =>
  terminalHoldReleased (job <| j_Status := BatchImageJobStatusFailed |>)).

(** The switch on the provider's state. *)
Definition processStatus (job : BatchImageJob) (st : BatchProviderStatus) : bprog (result process_result) :=
  let state := st_InternalState st in
  if state =s "queued" then Ret (inr (RequeueAfter None))
  else if state =s "running" then
    if negb (j_Status job =s BatchImageJobStatusRunning) then
      andThen (TransitionBatchImageJobStatus (j_BatchID job) BatchImageJobStatusRunning "provider_status_checked" None None)
        (fun _ => Ret (inr (RequeueAfter None)))
    else Ret (inr (RequeueAfter None))
  else if state =s "succeeded" then
    if negb (j_Status job =s BatchImageJobStatusIndexing) then
      andThen (TransitionBatchImageJobStatus (j_BatchID job) BatchImageJobStatusIndexing "indexing_started" None None)
        (fun _ => indexAndSettle (job <| j_Status := BatchImageJobStatusIndexing |>))
    else indexAndSettle job
  else if (state =s "failed") || (state =s "expired") then providerFailed job st
  else if state =s "cancelled" then
    andThen (TransitionBatchImageJobStatus (j_BatchID job) BatchImageJobStatusCancelled "job_failed" None None) (fun _ =>
    terminalHoldReleased (job <| j_Status := BatchImageJobStatusCancelled |>))
  else Ret (inr (RequeueAfter None)).

(** [BatchImageProviderProcessor.Process]; accounts and providers are taken to be there. *)
Definition ProcessProvider (batchID : string) : bprog (result process_result) :=
  andThen (GetBatchImageJobByBatchID batchID) (fun job =>
  if isBatchImageProcessorDoneStatus (j_Status job) then terminalHoldReleased job
  else if negb (IsSupportedBatchImageProvider (j_Provider job)) then Ret (inl ErrBatchImageUnsupportedProvider)
  else if default 0 (j_AccountID job) <=? 0 then Ret (inl ErrBatchImageMissingAccountID)
  else if batchImageDerefString (j_ProviderJobName job) =s "" then Ret (inl ErrBatchImageMissingProviderJobName)
  else if j_Status job =s BatchImageJobStatusIndexing then indexAndSettle job
  else
    let* st := Ext (ProviderGet batchID) in
    match st with
    | None => Ret (inr (RequeueAfter (Some (60 * Second))))
    | Some None => Ret (inr (RequeueAfter None))
    | Some (Some st) =>
      andThen (persistProviderOutputRef job (st_ProviderOutputRef st)) (fun job => processStatus job st)
    end).

(** [BatchImagePipelineProcessor.Process]. *)
Definition Process (batchID : string) : bprog (result process_result) :=
  andThen (GetBatchImageJobByBatchID batchID) (fun job =>
  if j_Status job =s BatchImageJobStatusSettling then
    let! r := Settle batchID in
    match r with
    | inr _ => Ret (inr Terminal)
    | inl ErrBatchImageSettlementBillingFailed =>
      let! updated := GetBatchImageJobByBatchID batchID in
      match updated with
      | inr updated =>
        if IsTerminalBatchImageJobStatus (j_Status updated) then Ret (inr Terminal)
        else Ret (inr (RequeueAfter (Some (60 * Second))))
      | inl _ => Ret (inr (RequeueAfter (Some (60 * Second))))
      end
    | inl e => Ret (inl e)
    end
  else ProcessProvider batchID).

(** ** Submission and cancellation ([batch_image_public.go]) *)

Definition enqueueBillingRetry (batchID : string) : bprog unit :=
  let* r := Ext (Enqueue batchID) in
  match r with
  | Some _ => Ret tt
  | None => let! _r := appendBatchImageEvent batchID "billing_retry_enqueue_failed" in Ret tt
  end.

Definition Cancel (userID apiKeyID : Z) (batchID : string) : bprog (result BatchImageJob) :=
  andThen (GetBatchImageJobByBatchIDForOwner userID apiKeyID batchID) (fun job =>
  let release (k : bprog (result BatchImageJob)) : bprog (result BatchImageJob) :=
    let! r := releaseBatchImageBalanceHold job (batchImageDerefString (j_RequestHash job)) in
    match r with
    | inl _ => let! _u := enqueueBillingRetry (j_BatchID job) in Ret (inl ErrBatchImageCancelFailed)
    | inr _ => k
    end in
  if isBatchImageProcessorDoneStatus (j_Status job) then
    if (j_Status job =s BatchImageJobStatusFailed) || (j_Status job =s BatchImageJobStatusCancelled)
    then release (Ret (inr job)) else Ret (inr job)
  else if negb (batchImageDerefString (j_ProviderJobName job) =s "") then
    if negb (IsSupportedBatchImageProvider (j_Provider job)) then Ret (inl ErrBatchImageUnsupportedProvider)
    else if bool_decide (j_AccountID job = None) then Ret (inl ErrBatchImageCancelFailed)
    else
      let* c := Ext (ProviderCancel (j_BatchID job)) in
      match c with
      | None => Ret (inl ErrBatchImageCancelFailed)
      | Some _ =>
        let! _e := appendBatchImageEvent (j_BatchID job) "job_cancel_requested" in
        let* q := Ext (Enqueue (j_BatchID job)) in
        match q with
        | None => Ret (inl ErrBatchImageCancelFailed)
        | Some _ => GetBatchImageJobByBatchIDForOwner userID apiKeyID batchID
        end
      end
  else
    andThen (TransitionBatchImageJobStatus (j_BatchID job) BatchImageJobStatusCancelled "job_cancelled" None None) (fun _ =>
    release (GetBatchImageJobByBatchIDForOwner userID apiKeyID batchID))).

(** A validated submission with the account that was selected, the price snapshot and the
    new identifier. *)
Record submission := MkSubmission {
  sub_UserID : Z;
  sub_APIKeyID : Z;
  sub_AccountID : Z;
  sub_Provider : string;
  sub_Model : string;
  sub_ItemCount : Z;
  sub_RequestHash : string;
  sub_IdempotencyKey : string;
  sub_BatchID : string;
  sub_EstimatedCost : float64;
  sub_HoldAmount : float64;
  sub_BillableUnitPrice : float64
}.

Definition jobParams (s : submission) : CreateBatchImageJobParams :=
  MkCreateJob (sub_BatchID s) (sub_UserID s) (Some (sub_APIKeyID s)) (Some (sub_AccountID s)) (sub_Provider s)
    (sub_Model s) BatchImageJobStatusCreated (sub_ItemCount s) (sub_EstimatedCost s) (Some (sub_HoldAmount s))
    (sub_BillableUnitPrice s) 1 (Some (BatchImageHoldRequestID (sub_BatchID s)))
    (batchImageOptionalStringPtr (sub_IdempotencyKey s)) (Some (sub_RequestHash s)).

Definition hidePreUpstreamSubmitFailure (s : submission) (job : BatchImageJob) : bprog unit :=
  if bool_decide (j_ProviderJobName job <> None) then Ret tt
  else let! _r := MarkBatchImageJobUserDeleted (sub_UserID s) (sub_APIKeyID s) (j_BatchID job) in Ret tt.

Definition releaseFailedSubmitHold (job : BatchImageJob) (requestHash : string) : bprog (result unit) :=
  let! r := releaseBatchImageBalanceHold job requestHash in
  match r with
  | inl e =>
    let! _r := RecordBatchImageJobSubmitFailure (j_BatchID job) "BILLING_RELEASE_FAILED" (errorText e) true in
    let! _u := enqueueBillingRetry (j_BatchID job) in
    Ret (inl ErrBatchImageBillingHoldFailed)
  | inr _ => Ret (inr tt)
  end.

(** Failing the job and hiding it from its owner. *)
Definition abandon {A : Type} (s : submission) (job : BatchImageJob) (code message : string) (e : job_error)
    : bprog (result A) :=
  let! _r := RecordBatchImageJobSubmitFailure (j_BatchID job) code message true in
  let! _u := hidePreUpstreamSubmitFailure s job in
  Ret (inl e).

Definition releaseAndAbandon {A : Type} (s : submission) (job : BatchImageJob) (code message : string) (e : job_error)
    : bprog (result A) :=
  andThen (releaseFailedSubmitHold job (sub_RequestHash s)) (fun _ => abandon s job code message e).

Definition enqueueSubmitted (batchID : string) (k : bprog (result BatchImageJob)) : bprog (result BatchImageJob) :=
  let* q := Ext (Enqueue batchID) in
  match q with
  | Some _ => k
  | None =>
    let! _r := RecordBatchImageJobSubmitFailure batchID "QUEUE_FAILED" (errorText ErrBatchImageQueueFailed) false in
    Ret (inl ErrBatchImageQueueFailed)
  end.

Definition abortOrphanProviderJob (batchID : string) : bprog unit :=
  Ext (ProviderCancel batchID) ;* Ext (ProviderCleanup batchID) ;*
  (let! _r := appendBatchImageEvent batchID "provider_job_aborted_after_submit" in Ret tt).

Definition batchImageGCSRef (provider ref : string) : string :=
  if (provider =s "vertex") && HasPrefix (TrimSpace ref) "gs://" then TrimSpace ref else "".

Definition batchImageProviderSubmitRecordCode (reason : string) : string :=
  if (TrimSpace reason =s "") || (TrimSpace reason =s "BATCH_IMAGE_PROVIDER_SUBMIT_FAILED")
  then "PROVIDER_SUBMIT_FAILED" else TrimSpace reason.

(** From the submission to the provider on. *)
Definition submitToProvider (s : submission) (job : BatchImageJob) : bprog (result BatchImageJob) :=
  let* p := Ext (ProviderSubmit (j_BatchID job)) in
  match p with
  | None => releaseAndAbandon s job "PROVIDER_SUBMIT_FAILED" (errorText ErrBatchImageProviderSubmitFailed)
              ErrBatchImageProviderSubmitFailed
  | Some (inl reason) =>
    releaseAndAbandon s job (batchImageProviderSubmitRecordCode reason) (errorText (ErrBatchImageProviderRefused reason))
      (ErrBatchImageProviderRefused reason)
  | Some (inr pj) =>
    if TrimSpace (pj_ProviderJobName pj) =s "" then
      releaseAndAbandon s job "PROVIDER_SUBMIT_FAILED" "provider job name missing" ErrBatchImageProviderSubmitFailed
    else
      let! r := UpdateBatchImageJobProviderSubmit (j_BatchID job)
        (MkProviderSubmit (pj_ProviderJobName pj) (pj_ProviderInputRef pj) (pj_ProviderOutputRef pj)
           (batchImageGCSRef (sub_Provider s) (pj_ProviderInputRef pj))
           (batchImageGCSRef (sub_Provider s) (pj_ProviderOutputRef pj))) in
      match r with
      | inl e => let! _u := abortOrphanProviderJob (j_BatchID job) in Ret (inl e)
      | inr _ => enqueueSubmitted (j_BatchID job) (GetBatchImageJobByBatchID (j_BatchID job))
      end
  end.

(** From the creation of the job on. *)
Definition submitNew (s : submission) : bprog (result BatchImageJob) :=
  andThen (CreateBatchImageJob (jobParams s)) (fun job =>
  let! held := reserveBatchImageBalanceHold job (sub_RequestHash s) in
  match held with
  | inl e =>
    abandon s job (match e with ErrInsufficientBalance => "INSUFFICIENT_BALANCE" | _ => "BILLING_HOLD_FAILED" end)
      (errorText e) e
  | inr _ =>
    let! items := BulkCreateBatchImageItems (j_BatchID job) in
    match items with
    | inl e => releaseAndAbandon s job "ITEM_CREATE_FAILED" (errorText e) ErrBatchImageQueueFailed
    | inr _ =>
      let! up := TransitionBatchImageJobStatus (j_BatchID job) BatchImageJobStatusUploading "upload_started" None None in
      match up with
      | inl e =>
        andThen (releaseFailedSubmitHold job (sub_RequestHash s)) (fun _ =>
        match e with
        | ErrBatchImageInvalidTransition => Ret (inl e)
        | _ => abandon s job "UPLOAD_TRANSITION_FAILED" (errorText e) e
        end)
      | inr _ => submitToProvider s (job <| j_Status := BatchImageJobStatusUploading |>)
      end
    end
  end).

Definition Submit (s : submission) : bprog (result BatchImageJob) :=
  let key := TrimSpace (sub_IdempotencyKey s) in
  if key =s "" then submitNew s
  else
    let! existing := GetBatchImageJobByIdempotencyKey (sub_UserID s) (sub_APIKeyID s) key in
    match existing with
    | inr existing =>
      if negb (batchImageDerefString (j_RequestHash existing) =s sub_RequestHash s)
      then Ret (inl ErrBatchImageIdempotencyConflict)
      else if j_Status existing =s BatchImageJobStatusSubmitted then
        enqueueSubmitted (j_BatchID existing) (Ret (inr existing))
      else Ret (inr existing)
    | inl ErrBatchImageJobNotFound => submitNew s
    | inl e => Ret (inl e)
    end.
End Service.
