(* ===== verification/BillingSpec.v ===== *)
(** * Theorems about usage billing

    Every committed change of the tables is one of a few atomic operations, whatever runs at
    the same time and whatever fails: a billable request is charged completely or not at
    all, and at most once; balances are accounted for; jobs move along the allowed
    transitions. *)

From Stdlib Require Import SpecFloat.
From stdpp Require Import pretty.
From S2P Require Import Prelude GoStrings GoStringsFacts GoFloat GoTime GoCrypto Programs Transactions BillingTables UsageBilling BatchImages.

#[local] Open Scope Z_scope.

(** ** Rounding *)

Lemma unit8_pos : 0 < unit8.
Proof. by apply Z.pow_pos_nonneg. Qed.

Lemma roundTo_bound u x : 0 < u -> 2 * Z.abs (u * roundTo u x - x) <= u.
Proof.
  intros U. unfold roundTo. case_test.
  - pose proof (Z.div_mod (2 * x + u) (2 * u)) as D. pose proof (Z.mod_pos_bound (2 * x + u) (2 * u)). nia.
  - pose proof (Z.div_mod (2 * - x + u) (2 * u)) as D. pose proof (Z.mod_pos_bound (2 * - x + u) (2 * u)). nia.
Qed.

Lemma roundTo_exact u n : 0 < u -> roundTo u (u * n) = n.
Proof. intros U. pose proof (roundTo_bound u (u * n) U). nia. Qed.

Lemma roundTo_nonneg u x : 0 < u -> 0 <= x -> 0 <= roundTo u x.
Proof. intros U X. pose proof (roundTo_bound u x U). nia. Qed.

Lemma column_Some u x n : column u x = Some n -> n = roundTo u x.
Proof. unfold column. by case_test; intros; simplify_eq. Qed.

#[global] Opaque unit8 unit10.

(** ** What operations do

    [effect o at_ k old new]: operation [o], in a transaction that began at [at_], may leave
    [new] where it found [old] under key [k]. *)

Section Effects.
Context `{Subscriptions.Postgres} `{PgEnv} (local : Location) (unicode_lower : string -> string).

Definition claimed (t : tables) (c : string * Z) : Prop :=
  cl_hot (claim_at t c) <> None \/ cl_archived (claim_at t c) <> None.

(** The request that a transaction claims. *)
Definition request_of (o : bill_op) : option (string * Z) :=
  match o with
  | OpApply cmd => Some (RequestID cmd, APIKeyID cmd)
  | OpReserve cmd | OpCapture cmd | OpRelease cmd => Some (h_RequestID cmd, h_APIKeyID cmd)
  | OpJob _ => None
  end.

Definition fingerprint_of (o : bill_op) : string :=
  match o with
  | OpApply cmd => RequestFingerprint cmd
  | OpReserve cmd | OpCapture cmd | OpRelease cmd => h_RequestFingerprint cmd
  | OpJob _ => ""
  end.

Definition asClaim (r : option brow) : claim_row := match r with Some (RClaim c) => c | _ => MkClaim None None end.

(** A new claim: neither recent nor in the archive before. *)
Definition claims (fp : string) (at_ : Z) (old new : option brow) : Prop :=
  asClaim old = MkClaim None None /\
  new = Some (RClaim (MkClaim (Some (fp, Subscriptions.stored at_)) None)).

(** A user who is not deleted has [d] added to the balance and [f] to the frozen balance,
    both rounded to the digits of the columns. *)
Definition moved (d f : amount) (old new : option brow) : Prop :=
  exists u b z, old = Some (RUser u) /\ u_deleted_at u = None /\
    column unit8 (u_balance u * unit8 + d) = Some b /\
    (if f =? 0 then z = u_frozen_balance u else column unit8 (u_frozen_balance u * unit8 + f) = Some z) /\
    new = Some (RUser (u <| u_balance := b |> <| u_frozen_balance := z |>)).

(** The money that an operation moves: whose it is, and what is added to the balance and to
    the frozen balance. *)
Definition moves (o : bill_op) : option (Z * amount * amount) :=
  match o with
  | OpApply cmd =>
    if flt fzero (BalanceCost cmd) then a ← decimal_of (BalanceCost cmd); Some (UserID cmd, - a, 0) else None
  | OpReserve cmd =>
    if fle (h_HoldAmount cmd) fzero then None
    else h ← decimal_of (h_HoldAmount cmd); Some (h_UserID cmd, - h, h)
  | OpCapture cmd =>
    if fle (h_HoldAmount cmd) fzero && fle (h_ActualAmount cmd) fzero then None
    else h ← decimal_of (h_HoldAmount cmd); a ← decimal_of (h_ActualAmount cmd); Some (h_UserID cmd, h - a, - h)
  | OpRelease cmd =>
    if fle (h_HoldAmount cmd) fzero then None
    else h ← decimal_of (h_HoldAmount cmd); Some (h_UserID cmd, h, - h)
  | OpJob _ => None
  end.

(** What the user must have: the hold in the balance when it is reserved, in the frozen
    balance when it is captured or released. *)
Definition covered (o : bill_op) (old : option brow) : Prop :=
  match old, o with
  | Some (RUser u), OpReserve cmd => forall h, decimal_of (h_HoldAmount cmd) = Some h -> h <= u_balance u * unit8
  | Some (RUser u), (OpCapture cmd | OpRelease cmd) =>
    forall h, decimal_of (h_HoldAmount cmd) = Some h -> h <= u_frozen_balance u * unit8
  | _, _ => True
  end.

(** A release of a hold that was never reserved moves nothing. *)
Definition skippable (o : bill_op) : bool := match o with OpRelease _ => true | _ => false end.

Definition user_effect (o : bill_op) (id : Z) (old new : option brow) : Prop :=
  match moves o with
  | Some (uid, d, f) =>
    if uid =? id then (moved d f old new /\ covered o old) \/ (skippable o = true /\ new = old) else new = old
  | None => new = old
  end.

Definition sub_charged (cost : float64) (old new : option brow) : Prop :=
  exists s s' a, old = Some (RSub s) /\ s_deleted_at s = None /\ decimal_of cost = Some a /\
    bumpSubscription a s = Some s' /\ new = Some (RSub s').

Definition sub_effect (o : bill_op) (id : Z) (old new : option brow) : Prop :=
  match o with
  | OpApply cmd =>
    if bool_decide (SubscriptionID cmd = Some id) && flt fzero (SubscriptionCost cmd)
    then sub_charged (SubscriptionCost cmd) old new else new = old
  | _ => new = old
  end.

(** The quota and the windows of a key are charged unless the key is deleted. *)
Definition quota_charged (cost : float64) (k k' : key_row) : Prop :=
  if flt fzero cost then exists a e, decimal_of cost = Some a /\ bumpKeyQuota a k = Some (e, k') else k' = k.
Definition rate_charged (cost : float64) (now : Z) (k k' : key_row) : Prop :=
  if flt fzero cost then exists a, decimal_of cost = Some a /\ bumpKeyRate local now a k = Some k' else k' = k.

Definition key_charged (cmd : UsageBillingCommand) (at_ : Z) (old new : option brow) : Prop :=
  exists k, old = Some (RKey k) /\
    if decide (k_deleted_at k = None) then
      exists k1 k2, quota_charged (APIKeyQuotaCost cmd) k k1 /\
        rate_charged (APIKeyRateLimitCost cmd) (Subscriptions.stored at_) k1 k2 /\ new = Some (RKey k2)
    else new = old.

Definition key_effect (o : bill_op) (at_ : Z) (id : Z) (old new : option brow) : Prop :=
  match o with
  | OpApply cmd => if APIKeyID cmd =? id then key_charged cmd at_ old new else new = old
  | _ => new = old
  end.

Definition account_charged (cost : float64) (now : Z) (old new : option brow) : Prop :=
  exists acc a, old = Some (RAccount acc) /\ ac_deleted_at acc = None /\ decimal_of cost = Some a /\
    new = Some (RAccount (bumpAccount now a acc)).

Definition charges_account (cmd : UsageBillingCommand) : bool :=
  flt fzero (AccountQuotaCost cmd)
  && AccountSupportsQuota (AccountPlatform cmd) (ToLower unicode_lower (AccountType cmd)).

Definition account_effect (o : bill_op) (at_ : Z) (id : Z) (old new : option brow) : Prop :=
  match o with
  | OpApply cmd =>
    if (AccountID cmd =? id) && charges_account cmd
    then account_charged (AccountQuotaCost cmd) (Subscriptions.stored at_) old new else new = old
  | _ => new = old
  end.

(** What identifies a batch and what it costs. *)
Definition batch_terms (j : BatchImageJob) :=
  (j_BatchID j, j_UserID j, j_APIKeyID j, j_AccountID j, j_Provider j, j_Model j, j_ItemCount j,
   j_EstimatedCost j, j_HoldAmount j, j_BillableUnitPrice j, j_PricingSnapshotVersion j, j_HoldID j,
   j_IdempotencyKey j, j_RequestHash j).

Definition job_moved (old new : option brow) : Prop :=
  new = old \/
  exists j j', old = Some (RJob j) /\ new = Some (RJob j') /\ batch_terms j' = batch_terms j /\
    (j_Status j' = j_Status j \/ CanTransitionBatchImageJob (j_Status j) (j_Status j') = true).

Definition job_effect (o : bill_op) (b : string) (old new : option brow) : Prop :=
  match o with OpJob b' => if b =s b' then job_moved old new else new = old | _ => new = old end.

Definition effect (o : bill_op) (at_ : Z) (k : bkey) (old new : option brow) : Prop :=
  match k with
  | KClaim c => if decide (request_of o = Some c) then claims (fingerprint_of o) at_ old new else new = old
  | KUser id => user_effect o id old new
  | KSub id => sub_effect o id old new
  | KKey id => key_effect o at_ id old new
  | KAccount id => account_effect o at_ id old new
  | KGroup _ => new = old
  | KJob b => job_effect o b old new
  end.

(** A release that moves money is for a hold whose reservation was claimed. *)
Definition held_before (o : bill_op) (t t' : tables) : Prop :=
  match o with
  | OpRelease cmd => t' !! KUser (h_UserID cmd) <> t !! KUser (h_UserID cmd) ->
    claimed t' (BatchImageHoldRequestID (h_BatchID cmd), h_APIKeyID cmd)
  | _ => True
  end.

(** The terms on which a batch was submitted are those of every hold for it. *)
Definition terms_of (j : BatchImageJob) (cmd : BatchImageBalanceHoldCommand) : Prop :=
  h_UserID cmd = j_UserID j /\ j_APIKeyID j = Some (h_APIKeyID cmd) /\ h_BatchID cmd = TrimSpace (j_BatchID j) /\
  h_HoldAmount cmd = (if flt (HoldAmount j) fzero then fzero else HoldAmount j).

Definition hold_of (o : bill_op) (j : BatchImageJob) : Prop :=
  match o with
  | OpReserve cmd => terms_of j cmd /\ h_RequestID cmd = TrimSpace (BatchImageHoldRequestID (j_BatchID j))
  | OpCapture cmd => terms_of j cmd /\ h_RequestID cmd = TrimSpace (BatchImageCaptureRequestID (j_BatchID j))
  | OpRelease cmd => terms_of j cmd /\ h_RequestID cmd = TrimSpace (BatchImageReleaseRequestID (j_BatchID j))
  | _ => True
  end.

Definition is_hold (o : bill_op) : bool :=
  match o with OpReserve _ | OpCapture _ | OpRelease _ => true | _ => false end.

Definition known (t : tables) (o : bill_op) : Prop :=
  is_hold o = true -> exists b j, job_at t b = Some j /\ hold_of o j.

(** No more is captured than was held, up to the tolerance of the code. *)
Definition capped (o : bill_op) : Prop :=
  match o with
  | OpCapture cmd => fle (h_HoldAmount cmd) fzero && fle (h_ActualAmount cmd) fzero = true
                     \/ flt epsilon8 (fsub (h_ActualAmount cmd) (h_HoldAmount cmd)) = false
  | _ => True
  end.

Definition lawful (o : bill_op) (at_ : Z) (t t' : tables) : Prop :=
  (forall k, effect o at_ k (t !! k) (t' !! k)) /\ held_before o t t' /\ known t o /\ capped o.

(** ** What the rest of the program does *)

(** Keys are not dropped from the table, and deleted keys stay deleted. *)
Definition keys_kept (t t' : tables) : Prop := forall id k, key_at t id = Some k ->
  exists k', key_at t' id = Some k' /\ (k_deleted_at k <> None -> k_deleted_at k' <> None).

(** Other parts of the program do not touch claims, move jobs along allowed transitions, and
    do not make frozen balances negative. *)
Definition outside (t t' : tables) : Prop :=
  (forall c, t' !! KClaim c = t !! KClaim c) /\ keys_kept t t' /\
  (forall b, job_moved (t !! KJob b) (t' !! KJob b)) /\
  (forall id u', user_at t' id = Some u' -> 0 <= u_frozen_balance u' \/
     exists u, user_at t id = Some u /\ u_frozen_balance u' = u_frozen_balance u).

(** Jobs stay, on their terms. *)
Definition jobs_kept (t t' : tables) : Prop := forall b j, job_at t b = Some j ->
  exists j', job_at t' b = Some j' /\ batch_terms j' = batch_terms j.

(** What stays: claims, keys and the terms of jobs. *)
Definition keeps (t t' : tables) : Prop :=
  (forall c, claimed t c -> claimed t' c) /\ keys_kept t t' /\ jobs_kept t t'.

(** Statements that are committed one by one. *)
Definition quiet R (s : bstmt R) : Prop :=
  match s with
  | InsertJob _ p => TrimSpace (cj_BatchID p) = cj_BatchID p
  | InsertDedup _ _ | UpdateSubscriptionUsage _ _ | DeductBalance _ _ _ | ReserveBalance _ _ | CaptureBalance _ _ _
  | ReleaseBalance _ _ | UpdateKeyQuota _ _ | UpdateKeyRateLimit _ _ | UpdateAccountQuota _ _
  | TransitionJob _ _ _ _ _ | SubmitJob _ _ _ | SettleJob _ _ _ _ _ | SetCounts _ _ _ _ => False
  | _ => True
  end.

Lemma keys_kept_refl t : keys_kept t t.
Proof. intros id k E. eauto. Qed.

Lemma keys_kept_trans t u v : keys_kept t u -> keys_kept u v -> keys_kept t v.
Proof.
  intros H1 H2 id k E. destruct (H1 _ _ E) as (k1 & E1 & D1). destruct (H2 _ _ E1) as (k2 & E2 & D2). eauto.
Qed.

Lemma keys_kept_same t t' : (forall id, t' !! KKey id = t !! KKey id) -> keys_kept t t'.
Proof. intros E id k. unfold key_at. rewrite <-(E id). intros; eauto. Qed.

Lemma claimed_same t t' c : t' !! KClaim c = t !! KClaim c -> claimed t c -> claimed t' c.
Proof. unfold claimed, claim_at. by intros ->. Qed.

Lemma jobs_kept_refl t : jobs_kept t t.
Proof. intros b j E. eauto. Qed.

Lemma jobs_kept_trans t u v : jobs_kept t u -> jobs_kept u v -> jobs_kept t v.
Proof.
  intros H1 H2 b j E. destruct (H1 _ _ E) as (j1 & E1 & T1). destruct (H2 _ _ E1) as (j2 & E2 & T2).
  exists j2. split; [done|congruence].
Qed.

Lemma job_at_Some (t : tables) b j : job_at t b = Some j <-> t !! KJob b = Some (RJob j).
Proof. unfold job_at. split; [|by intros ->]. repeat case_match; intros; by simplify_eq. Qed.

Lemma moved_jobs_kept t u : (forall b, job_moved (t !! KJob b) (u !! KJob b)) -> jobs_kept t u.
Proof.
  intros M b j E%job_at_Some. destruct (M b) as [Same|(j0 & j' & Old & New & T & _)].
  - exists j. split; [apply job_at_Some; congruence|done].
  - rewrite Old in E. injection E as ->. exists j'. by rewrite job_at_Some.
Qed.

Lemma keeps_refl t : keeps t t.
Proof. split; [done|]. split; [apply keys_kept_refl|apply jobs_kept_refl]. Qed.

Lemma keeps_trans t u v : keeps t u -> keeps u v -> keeps t v.
Proof.
  intros (C1 & K1 & J1) (C2 & K2 & J2). split; [auto|]. split; [by eapply keys_kept_trans|by eapply jobs_kept_trans].
Qed.

Lemma keeps_outside t u : outside t u -> keeps t u.
Proof. intros (C & K & J & _). split; [|split; [done|by apply moved_jobs_kept]]. intros c. by apply claimed_same. Qed.

(** ** Terms *)

Lemma hold_of_terms o j j' : batch_terms j' = batch_terms j -> hold_of o j -> hold_of o j'.
Proof.
  unfold batch_terms. intros E. injection E as Eb Eu Ek _ _ _ _ E1 E2 _ _ _ _ _.
  unfold hold_of, terms_of, HoldAmount. by rewrite Eb, Eu, Ek, E1, E2.
Qed.

Lemma known_keeps t t' o : keeps t t' -> known t o -> known t' o.
Proof.
  intros (_ & _ & Jk) Kn Hd. destruct (Kn Hd) as (b & j & E & Ho). destruct (Jk _ _ E) as (j' & E' & T).
  exists b, j'. split; [done|]. by eapply hold_of_terms.
Qed.

Lemma bumpKeyQuota_deleted a k e k' : bumpKeyQuota a k = Some (e, k') -> k_deleted_at k' = k_deleted_at k.
Proof. unfold bumpKeyQuota. destruct (column _ _); intros; simplify_eq/=. done. Qed.

Lemma keeps_lawful o at_ t u : lawful o at_ t u -> keeps t u.
Proof.
  intros [E _]. split; [|split].
  - intros c C. specialize (E (KClaim c)). cbn in E. case_decide; [|by apply (claimed_same t)].
    destruct E as [_ E]. left. unfold claim_at. by rewrite E.
  - intros id k X. specialize (E (KKey id)). cbn in E. unfold key_at in X |- *.
    assert (Same : u !! KKey id = t !! KKey id -> exists k',
      match u !! KKey id with Some (RKey k) => Some k | _ => None end = Some k'
      /\ (k_deleted_at k <> None -> k_deleted_at k' <> None)) by (intros ->; eauto).
    unfold key_effect in E. destruct o; try by apply Same.
    case_test; [|by apply Same]. destruct E as (k0 & Y & E). rewrite Y in X. simplify_eq.
    destruct (decide (k_deleted_at k = None)); [|by apply Same].
    destruct E as (k1 & k2 & _ & _ & ->). eauto.
  - apply moved_jobs_kept. intros b. specialize (E (KJob b)). cbn in E. unfold job_effect in E.
    destruct o; try by left. case_test; [done|by left].
Qed.

Lemma archiveClaim_claimed c0 t c : claimed t c -> claimed (archiveClaim c0 t) c.
Proof.
  intros C. destruct (decide (c = c0)) as [->|N].
  - unfold archiveClaim. destruct (cl_hot (claim_at t c0)) as [[fp cr]|] eqn:E; [|done].
    right. unfold claim_at. by rewrite lookup_insert_eq.
  - apply (claimed_same t); [|done]. apply archiveClaim_ne. congruence.
Qed.

Lemma foldr_archive_claimed l t c : claimed t c -> claimed (foldr archiveClaim t l) c.
Proof. intros C. induction l; [done|]. by apply archiveClaim_claimed. Qed.

(** Statements that are committed one by one change claims and jobs only. *)
Lemma quiet_writes R (s : bstmt R) now t k :
  quiet R s -> k ∈ bwrites local now s t -> match k with KClaim _ | KJob _ => True | _ => False end.
Proof.
  intros Qt E. destruct s; try done; cbn in E; unfold hits in E; repeat case_match; try done; try set_solver.
  all: apply elem_of_list_to_set, list_elem_of_fmap in E as (c & E & _); done.
Qed.

Lemma quiet_frame R at_ (s : bstmt R) t r u k :
  quiet R s -> run_bstmt local at_ s t = Some (r, u) ->
  match k with KClaim _ | KJob _ => True | _ => u !! k = t !! k end.
Proof.
  intros Qt E. pose proof (quiet_writes R s at_ t k Qt) as W.
  destruct k; try done; eapply run_bstmt_frame; try done; intros X; by apply W.
Qed.

Lemma quiet_claims R at_ (s : bstmt R) t r u c :
  quiet R s -> run_bstmt local at_ s t = Some (r, u) -> claimed t c -> claimed u c.
Proof.
  intros Qt E C. destruct (decide (KClaim c ∈ bwrites local at_ s t)) as [W|W].
  - destruct s; try done; cbn in W; unfold hits in W; repeat case_match; try set_solver.
    all: cbn in E; unfold archiveStmt in E; simplify_eq; by apply foldr_archive_claimed.
  - apply (claimed_same t); [|done]. by eapply run_bstmt_frame.
Qed.

(** They leave the terms of jobs as they are. *)
Lemma updateJob_kept bid p f (t t' : tables) r :
  (forall j, batch_terms (f j) = batch_terms j) -> updateJobStmt bid p f t = Some (r, t') -> jobs_kept t t'.
Proof.
  intros T E b j X. unfold updateJobStmt in E. destruct (job_at t bid) as [j0|] eqn:J0; [|simplify_eq; eauto].
  destruct (p j0); simplify_eq; [|eauto]. destruct (decide (b = bid)) as [->|N].
  - exists (f j0). split; [apply job_at_Some, lookup_insert_eq|]. rewrite T. congruence.
  - exists j. split; [|done]. apply job_at_Some. rewrite lookup_insert_ne by congruence. by apply job_at_Some.
Qed.

Lemma same_jobs_kept t t' : (forall b, t' !! KJob b = t !! KJob b) -> jobs_kept t t'.
Proof. intros E b j X. exists j. split; [|done]. apply job_at_Some. rewrite E. by apply job_at_Some. Qed.

Lemma quiet_jobs R at_ (s : bstmt R) t r u :
  quiet R s -> run_bstmt local at_ s t = Some (r, u) -> jobs_kept t u.
Proof.
  intros Qt E. destruct s; try done; cbn in E; try (by injection E as <- <-; apply jobs_kept_refl);
    try (eapply updateJob_kept; [|exact E]; intros; done).
  - apply same_jobs_kept. intros b. eapply (run_bstmt_frame local _ at_ (ArchiveBatch cutoff limit)); [exact E|].
    cbn. intros X. apply elem_of_list_to_set, list_elem_of_fmap in X as (c & X & _). done.
  - unfold insertJobStmt in E. destruct (cost10 (cj_EstimatedCost p)); cbn in E; [|discriminate E].
    destruct (optCost10 _); cbn in E; [|discriminate E]. destruct (cost10 _); cbn in E; [|discriminate E].
    destruct (t !! KJob _) eqn:X; [simplify_eq; apply jobs_kept_refl|].
    simplify_eq. intros b j Y%job_at_Some. exists j. split; [|done]. apply job_at_Some. unfold set_job.
    rewrite lookup_insert_ne; [done|]. cbn. intros [= Eb]. rewrite Eb in X. congruence.
  - unfold settlementFailedStmt in E. destruct (job_at t batchID) as [j0|] eqn:J0; simplify_eq; [|apply jobs_kept_refl].
    intros b j X. destruct (decide (b = batchID)) as [->|N].
    + eexists. split; [apply job_at_Some, lookup_insert_eq|]. rewrite J0 in X. by injection X as <-.
    + exists j. split; [|done]. apply job_at_Some. rewrite lookup_insert_ne by congruence. by apply job_at_Some.
Qed.

Lemma keeps_quiet R at_ (s : bstmt R) t r u :
  quiet R s -> run_bstmt local at_ s t = Some (r, u) -> keeps t u.
Proof.
  intros Qt E. split; [intros c; by eapply quiet_claims|]. split; [|by eapply quiet_jobs].
  apply keys_kept_same. intros id. by apply (quiet_frame R at_ s t r u (KKey id)).
Qed.
End Effects.
