(* ===== verification/UsageBillingProofs.v ===== *)
(** * Transactions of usage billing *)

From Stdlib Require Import SpecFloat.
From stdpp Require Import pretty.
From S2P Require Import Prelude GoStrings GoStringsFacts GoFloat GoTime GoCrypto Programs Transactions BillingTables UsageBilling BatchImages BillingSpec.

#[local] Open Scope Z_scope.

(** ** Transactions *)

Section Transactions.
Context `{Subscriptions.Postgres} `{PgEnv} (local : Location) (unicode_lower : string -> string).

#[local] Existing Instance billing_database.
#[local] Instance db : Database bkey brow bstmt := billing_database local.

Notation lawful := (lawful local unicode_lower).
Notation effect := (effect local unicode_lower).
Notation idle := (idle keeps).
Notation in_tx := (in_tx keeps).
Notation wp := (wp keeps lawful quiet).
Notation world := (@world bkey brow _ _ bill_op bstmt bext).
Notation stored := Subscriptions.stored.
Notation plan := (@plan bkey brow).

Lemma quiet_keeps R at_ (s : bstmt R) (t : tables) r u : quiet R s -> exec_stmt at_ s t = Some (r, u) -> keeps t u.
Proof. apply keeps_quiet. Qed.

Context (i : nat).

(** A statement of a transaction that writes one row or none. *)
Lemma wp_row_sql t1 o at_ st {R A : Type} (s : bstmt R) (k : option R -> bprog A) Q (w : world)
    key (hit : R -> bool) (Rel : option brow -> brow -> Prop) :
  in_tx i t1 o at_ st w ->
  (forall w', keeps t1 (w_table w') -> wp i (k None) Q w') ->
  (forall rows t r t', follows st rows t -> keeps t1 t -> run_bstmt local at_ s (rows ∪ t) = Some (r, t') ->
    bwrites local at_ s (rows ∪ t) = (if hit r then {[ key ]} else ∅) /\
    (hit r = true -> exists v, t' !! key = Some v /\ Rel (t !! key) v)) ->
  (forall r w', hit r = true -> in_tx i t1 o at_ (amend st key Rel) w' -> wp i (k (Some r)) Q w') ->
  (forall r w' rows t', hit r = false -> in_tx i t1 o at_ st w' -> follows st rows (w_table w') ->
    keeps t1 (w_table w') -> run_bstmt local at_ s (rows ∪ w_table w') = Some (r, t') -> wp i (k (Some r)) Q w') ->
  wp i (Do (Sql s) k) Q w.
Proof.
  intros Tx F B W1 W2. eapply (wp_sql keeps lawful quiet); [by apply keeps_trans|done|done|].
  intros w' rows r t' Fo Kp E X. cbn in E, X. destruct (B rows (w_table w') r t' Fo Kp E) as [Wr V].
  rewrite Wr in X. destruct (hit r) eqn:Hr.
  - apply W1; [done|]. destruct (V eq_refl) as (v & Y & Z). eexists. split; [done|]. split; [|done].
    by eapply follows_amend.
  - rewrite overlay_nothing in X. apply (W2 r w' rows t'); try done. by exists rows.
Qed.

(** One that only reads. *)
Lemma wp_read_sql t1 o at_ st {R A : Type} (s : bstmt R) (k : option R -> bprog A) Q (w : world) :
  in_tx i t1 o at_ st w -> (forall t, bwrites local at_ s t = ∅) ->
  (forall w', keeps t1 (w_table w') -> wp i (k None) Q w') ->
  (forall r w' rows t', in_tx i t1 o at_ st w' -> w_txs w' !! i = Some (MkTx o at_ rows) -> follows st rows (w_table w') ->
    run_bstmt local at_ s (rows ∪ w_table w') = Some (r, t') -> wp i (k (Some r)) Q w') ->
  wp i (Do (Sql s) k) Q w.
Proof.
  intros Tx Wr F W. eapply (wp_sql keeps lawful quiet); [by apply keeps_trans|done|done|].
  intros w' rows r t' Fo Kp E X. cbn in E, X. rewrite Wr, overlay_nothing in X.
  apply (W r w' rows t'); try done. by exists rows.
Qed.

Lemma wp_row t1 o at_ st {R A : Type} (s : bstmt R) (k : R -> bprog (outcome A)) Q (w : world)
    key (hit : R -> bool) (Rel : option brow -> brow -> Prop) :
  in_tx i t1 o at_ st w ->
  (forall e w', keeps t1 (w_table w') -> Q (inl e) w') ->
  (forall rows t r t', follows st rows t -> keeps t1 t -> run_bstmt local at_ s (rows ∪ t) = Some (r, t') ->
    bwrites local at_ s (rows ∪ t) = (if hit r then {[ key ]} else ∅) /\
    (hit r = true -> exists v, t' !! key = Some v /\ Rel (t !! key) v)) ->
  (forall r w', hit r = true -> in_tx i t1 o at_ (amend st key Rel) w' -> wp i (k r) Q w') ->
  (forall r w' rows t', hit r = false -> in_tx i t1 o at_ st w' -> follows st rows (w_table w') ->
    keeps t1 (w_table w') -> run_bstmt local at_ s (rows ∪ w_table w') = Some (r, t') -> wp i (k r) Q w') ->
  wp i (exec s k) Q w.
Proof. intros Tx F B W1 W2. eapply wp_row_sql; [done| |done|done|done]. intros. by apply F. Qed.

Lemma wp_read t1 o at_ st {R A : Type} (s : bstmt R) (k : R -> bprog (outcome A)) Q (w : world) :
  in_tx i t1 o at_ st w -> (forall t, bwrites local at_ s t = ∅) ->
  (forall e w', keeps t1 (w_table w') -> Q (inl e) w') ->
  (forall r w' rows t', in_tx i t1 o at_ st w' -> w_txs w' !! i = Some (MkTx o at_ rows) -> follows st rows (w_table w') ->
    run_bstmt local at_ s (rows ∪ w_table w') = Some (r, t') -> wp i (k r) Q w') ->
  wp i (exec s k) Q w.
Proof. intros Tx Wr F W. eapply wp_read_sql; [done|done| |done]. intros. by apply F. Qed.

Lemma follows_refine (st : plan) (rows t : tables) k (R R' : option brow -> brow -> Prop) :
  follows st rows t -> st k = Some R -> (forall v, rows !! k = Some v -> R (t !! k) v -> R' (t !! k) v) ->
  follows (amend st k R') rows t.
Proof.
  intros F E I k'. unfold amend. destruct (decide (k' = k)) as [->|N]; [|apply F].
  specialize (F k). rewrite E in F. destruct F as (v & X & Y). eauto.
Qed.

Lemma in_tx_refine t1 o at_ (st' : plan) (w : world) rows :
  w_txs w !! i = Some (MkTx o at_ rows) -> keeps t1 (w_table w) -> follows st' rows (w_table w) -> in_tx i t1 o at_ st' w.
Proof. intros E Kp F. by exists rows. Qed.

Lemma in_tx_keeps t1 o at_ st (w : world) : in_tx i t1 o at_ st w -> keeps t1 (w_table w).
Proof. by intros (rows & _ & _ & Kp). Qed.

(** ** The claim *)

Definition claim_plan (c : string * Z) (fp : string) (at_ : Z) : plan :=
  amend untouched (KClaim c) (fun old v => claims fp at_ old (Some v)).

Lemma claim_at_view (st : plan) (rows t : tables) c :
  follows st rows t -> st (KClaim c) = None -> claim_at (rows ∪ t) c = asClaim (t !! KClaim c).
Proof.
  intros F E. pose proof (follows_view st rows t (KClaim c) F) as V. rewrite E in V.
  unfold claim_at, asClaim. by rewrite V.
Qed.

Lemma wp_claim t1 o at_ rid ak fp (w : world) :
  in_tx i t1 o at_ untouched w ->
  wp i (claimUsageBillingRequest rid ak fp)
    (fun r w' => match r with
     | inr true => in_tx i t1 o at_ (claim_plan (rid, ak) fp at_) w'
     | _ => keeps t1 (w_table w') end) w.
Proof.
  intros Tx. set (c := (rid, ak)).
  set (fresh := fun (old : option brow) v => cl_hot (asClaim old) = None /\
    v = RClaim (MkClaim (Some (fp, stored at_)) (cl_archived (asClaim old)))).
  eapply (wp_row t1 o at_ untouched (InsertDedup c fp) _ _ w (KClaim c) (fun b => b) fresh); [done|done|..].
  - intros rows t r t' F Kp E. split; [cbn in *; unfold hits; by rewrite E|]. intros ->.
    cbn in E. unfold insertClaimStmt in E. rewrite (claim_at_view untouched rows t c F eq_refl) in E.
    destruct (negb _); [done|]. destruct (cl_hot _) eqn:Ch; simplify_eq.
    eexists. split; [apply lookup_insert_eq|]. done.
  - intros r w1 -> Tx1.
    eapply (wp_read t1 o at_ _ (SelectArchive c)); [done|done|done|].
    intros r w2 rows t' Tx2 X F E. cbn in E. injection E as <- <-.
    pose proof (follows_view _ rows (w_table w2) (KClaim c) F) as V. unfold amend at 1 in V.
    rewrite decide_True in V by done. destruct V as (v & Y & [Ch ->]).
    assert (Cl : claim_at (rows ∪ w_table w2) c
      = MkClaim (Some (fp, stored at_)) (cl_archived (asClaim (w_table w2 !! KClaim c)))).
    { unfold claim_at. by rewrite Y. }
    rewrite Cl. cbn. destruct (cl_archived _) as [afp|] eqn:Ca.
    + destruct (negb _); by eapply in_tx_keeps.
    + cbn. apply (in_tx_refine t1 o at_ _ w2 rows); [done|by eapply in_tx_keeps|].
      assert (F' : follows (amend (amend untouched (KClaim c) fresh) (KClaim c) (fun old v => claims fp at_ old (Some v))) rows (w_table w2)).
      { eapply follows_refine; [done|unfold amend; by rewrite decide_True|]. intros v Yv [_ ->].
        split; [|by rewrite Ca]. destruct (asClaim _) as [h a]. cbn in *. by subst. }
      intros k. specialize (F' k). unfold claim_plan, amend in *. by destruct (decide _).
  - intros r w1 rows t' -> Tx1 F Kp E.
    eapply (wp_read t1 o at_ _ (SelectDedup c)); [done|done|done|].
    intros r w2 rows2 t2 Tx2 X F2 E2. cbn. destruct r as [fp'|]; [|by eapply in_tx_keeps].
    destruct (negb _); by eapply in_tx_keeps.
Qed.

(** ** A transaction with a claim *)

(** The transaction can be committed now or later. *)
Definition committable (t0 : tables) (o : bill_op) (w : world) : Prop :=
  exists t1 at_ st, in_tx i t1 o at_ st w /\ keeps t0 t1 /\
    forall rows t, follows st rows t -> keeps t1 t -> lawful o at_ t (rows ∪ t).

Definition post {E A : Type} (t0 : tables) (o : bill_op) : E + A -> world -> Prop := fun r w' =>
  match r with inl _ => keeps t0 (w_table w') | inr _ => committable t0 o w' end.

Lemma wp_abort {A : Type} t0 (a : A) (w : world) :
  keeps t0 (w_table w) -> wp i (Rollback ;* Ret a) (fun _ w' => idle i t0 w') w.
Proof. intros Kp. eapply (wp_rollback keeps lawful quiet); [apply keeps_trans|done|]. done. Qed.

Lemma wp_claimedTx {A : Type} t0 o rid ak fp (skipped : A) (work : bprog (outcome A)) (w : world) :
  idle i t0 w ->
  (forall at_ w', in_tx i t0 o at_ (claim_plan (rid, ak) fp at_) w' -> wp i work (post t0 o) w') ->
  wp i (claimedTx o (claimUsageBillingRequest rid ak fp) skipped work) (fun _ w' => idle i t0 w') w.
Proof.
  intros Id W. eapply (wp_begin keeps lawful quiet); [apply keeps_trans|done|done|].
  intros at_ w1 Tx. apply tx_bind. eapply tx_mono; [|by apply (wp_claim t0 o at_)].
  intros [e|[]] w2 P; [by apply wp_abort| |by apply wp_abort].
  apply tx_bind. eapply tx_mono; [|by apply (W at_)].
  intros [e|a] w3 P3; [by apply wp_abort|]. destruct P3 as (t1 & at' & st & Tx' & Kp & L).
  assert (Tr : forall (w' : world), idle i t1 w' -> idle i t0 w').
  { intros w' [E K1]. split; [done|by eapply keeps_trans]. }
  eapply (wp_commit keeps lawful quiet keeps_trans (keeps_lawful local unicode_lower) i t1); [done|done|].
  intros [[]|] w4 Id4; [by apply Tr|]. apply wp_abort. by apply Tr.
Qed.

Lemma plan_lawful o at_ (st : plan) (rows t : tables) :
  follows st rows t ->
  (forall k, match st k with
   | None => effect o at_ k (t !! k) (t !! k)
   | Some R => forall v, R (t !! k) v -> effect o at_ k (t !! k) (Some v) end) ->
  forall k, effect o at_ k (t !! k) ((rows ∪ t) !! k).
Proof.
  intros F E k. specialize (E k). pose proof (follows_view st rows t k F) as V. destruct (st k) as [R|].
  - destruct V as (v & -> & Rv). by apply E.
  - by rewrite V.
Qed.

(** ** Holds *)

Lemma live_user_spec (st : plan) (rows t : tables) id u :
  follows st rows t -> st (KUser id) = None -> live_user (rows ∪ t) id = Some u ->
  t !! KUser id = Some (RUser u) /\ u_deleted_at u = None.
Proof.
  intros F N E. pose proof (follows_view st rows t (KUser id) F) as V. rewrite N in V.
  unfold live_user, user_at in E. rewrite V in E. destruct (t !! KUser id) as [[]|]; try done.
  case_decide; by simplify_eq.
Qed.

Lemma column_back n m : column unit8 (n * unit8 + 0) = Some m -> m = n.
Proof. intros E. apply column_Some in E. rewrite E, Z.add_0_r, Z.mul_comm. apply roundTo_exact, unit8_pos. Qed.

Lemma move_spec (st : plan) (rows t t' : tables) guard d f id r :
  follows st rows t -> st (KUser id) = None -> moveStmt guard d f id (rows ∪ t) = Some (r, t') -> found r = true ->
  exists v, t' !! KUser id = Some v /\ moved d f (t !! KUser id) (Some v) /\
    exists u, t !! KUser id = Some (RUser u) /\ guard u = true.
Proof.
  intros F N E Fd. unfold moveStmt in E. destruct (live_user _ _) as [u|] eqn:L; [|by simplify_eq].
  destruct (live_user_spec st rows t id u F N L) as [X D].
  destruct (guard u) eqn:G; cbn in E; [|by simplify_eq].
  destruct (column unit8 (u_balance u * unit8 + d)) as [b|] eqn:B; [cbn in E|done].
  destruct (column unit8 (u_frozen_balance u * unit8 + f)) as [z|] eqn:Zc; [cbn in E|done]. simplify_eq.
  eexists. split; [apply lookup_insert_eq|]. split; [|eauto]. exists u, b, z. rewrite X.
  split; [done|]. split; [done|]. split; [done|]. split; [|done]. destruct (Z.eqb_spec f 0) as [->|]; [by apply column_back|done].
Qed.

(** Operations of a hold. *)
Definition hold_op (o : bill_op) (cmd : BatchImageBalanceHoldCommand) : Prop :=
  o = OpReserve cmd \/ o = OpCapture cmd \/ o = OpRelease cmd.

Notation request cmd := (h_RequestID cmd, h_APIKeyID cmd).
Notation hold_plan cmd at_ := (claim_plan (request cmd) (h_RequestFingerprint cmd) at_).

Lemma hold_others o cmd at_ k old :
  hold_op o cmd -> match k with KClaim _ | KUser _ => True | _ => effect o at_ k old old end.
Proof. intros [->|[->| ->]]; by destruct k. Qed.

Lemma hold_claim o cmd at_ c old new :
  hold_op o cmd ->
  effect o at_ (KClaim c) old new
  = if decide (c = request cmd) then claims (h_RequestFingerprint cmd) at_ old new else new = old.
Proof.
  intros [->|[->| ->]]; cbn; (destruct (decide (c = request cmd)) as [->|N];
    [by rewrite decide_True|rewrite decide_False; [done|congruence]]).
Qed.

(** Nothing was moved. *)
Lemma hold_unmoved t0 o cmd at_ (w : world) :
  hold_op o cmd -> (forall id old, user_effect o id old old) -> known t0 o -> capped o ->
  in_tx i t0 o at_ (hold_plan cmd at_) w -> committable t0 o w.
Proof.
  intros Ho Us Kn Cp Tx. exists t0, at_, (hold_plan cmd at_). split; [done|]. split; [apply keeps_refl|].
  intros rows t F Kp. split; [|split; [|split; [by eapply known_keeps|done]]].
  - apply (plan_lawful o at_ (hold_plan cmd at_)); [done|]. intros k. unfold claim_plan, amend, untouched.
    destruct (decide (k = KClaim (request cmd))) as [->|N].
    + intros v C. rewrite (hold_claim o cmd) by done. by rewrite decide_True.
    + pose proof (hold_others o cmd at_ k (t !! k) Ho) as E. destruct k; try done; [apply Us|].
      rewrite (hold_claim o cmd) by done. rewrite decide_False; [done|congruence].
  - pose proof (follows_view _ rows t (KUser (h_UserID cmd)) F) as V. cbn in V.
    destruct Ho as [->|[->| ->]]; cbn; try done.
Qed.

Lemma wp_moves t0 o cmd at_ d f (s : bstmt (option (float64 * float64))) guard Q (w : world)
    (k : option (float64 * float64) -> bprog (outcome BatchImageBalanceHoldResult)) :
  hold_op o cmd -> moves o = Some (h_UserID cmd, d, f) ->
  (forall t, run_bstmt local at_ s t = moveStmt guard d f (h_UserID cmd) t) ->
  (forall t, bwrites local at_ s t = hits found (KUser (h_UserID cmd)) (run_bstmt local at_ s t)) ->
  (forall u, guard u = true -> covered o (Some (RUser u))) -> known t0 o -> capped o ->
  match o with OpRelease _ =>
    claimed t0 (BatchImageHoldRequestID (h_BatchID cmd), h_APIKeyID cmd)
    \/ (BatchImageHoldRequestID (h_BatchID cmd), h_APIKeyID cmd) = request cmd | _ => True end ->
  in_tx i t0 o at_ (hold_plan cmd at_) w ->
  (forall e w', keeps t0 (w_table w') -> Q (inl e) w') ->
  (forall r w', committable t0 o w' -> wp i (k (Some r)) Q w') ->
  (forall st w', in_tx i t0 o at_ st w' -> wp i (k None) Q w') ->
  wp i (exec s k) Q w.
Proof.
  intros Ho Mv Run Wr Cov Kn Cp Held Tx Fl W1 W2.
  set (Rel := fun (old : option brow) v => moved d f old (Some v) /\ covered o old).
  eapply (wp_row t0 o at_ _ s k Q w (KUser (h_UserID cmd)) found Rel); [done|done|..].
  - intros rows t r t' F Kp E. split; [rewrite Wr, E; done|]. intros Fd. rewrite Run in E.
    destruct (move_spec _ rows t t' guard d f (h_UserID cmd) r F eq_refl E Fd) as (v & X & M & u & U & G).
    exists v. split; [done|]. split; [done|]. rewrite U. by apply Cov.
  - intros r w' Fd Tx'. destruct r as [r|]; [|done]. apply W1.
    exists t0, at_, (amend (hold_plan cmd at_) (KUser (h_UserID cmd)) Rel). split; [done|]. split; [apply keeps_refl|].
    intros rows t F Kp. split; [|split; [|split; [by eapply known_keeps|done]]].
    + apply (plan_lawful o at_ _ rows t F). intros key. unfold amend, claim_plan, untouched.
      destruct (decide (key = KUser (h_UserID cmd))) as [->|N].
      * intros v [M C]. cbn. unfold user_effect. rewrite Mv, Z.eqb_refl. by left.
      * unfold amend. destruct (decide (key = KClaim (request cmd))) as [->|N'].
        -- intros v C. rewrite (hold_claim o cmd) by done. by rewrite decide_True.
        -- pose proof (hold_others o cmd at_ key (t !! key) Ho) as E. destruct key; try done.
           ++ cbn. unfold user_effect. rewrite Mv. by destruct (Z.eqb_spec (h_UserID cmd) id) as [<-|].
           ++ rewrite (hold_claim o cmd) by done. rewrite decide_False; [done|congruence].
    + destruct o as [?|?|?|cmd0|?]; try done. assert (cmd0 = cmd) as -> by (destruct Ho as [?|[?|?]]; congruence).
      unfold held_before. intros _.
      destruct Held as [Cl| ->].
      * destruct Kp as [Cl' _]. apply Cl' in Cl. revert Cl. unfold claimed.
        pose proof (follows_view _ rows t (KClaim (BatchImageHoldRequestID (h_BatchID cmd), h_APIKeyID cmd)) F) as V.
        unfold amend, claim_plan, untouched in V. rewrite decide_False in V by done. unfold amend in V.
        destruct (decide _) as [Eq|Ne].
        -- destruct V as (v & V & [_ Cv]). simplify_eq. intros _. left. unfold claim_at. by rewrite V.
        -- unfold claim_at. by rewrite V.
      * pose proof (follows_view _ rows t (KClaim (request cmd)) F) as V.
        unfold amend, claim_plan in V. rewrite decide_False in V by done. unfold amend in V. rewrite decide_True in V by done.
        destruct V as (v & V & [_ Cv]). simplify_eq. left. unfold claim_at. by rewrite V.
  - intros r w' rows t' Fd Tx' F Kp E. destruct r; [done|]. by eapply W2.
Qed.

Lemma wp_orElse {A B : Type} (p : bprog (outcome A)) (f : A -> bprog (outcome B)) Q (w : world) :
  wp i p (fun r w' => match r with inl e => Q (inl e) w' | inr a => wp i (f a) Q w' end) w -> wp i (try p f) Q w.
Proof. intros W. apply tx_bind. eapply tx_mono; [|done]. by intros [e|a] w'. Qed.

Lemma in_tx_rebase t0 o at_ st (w : world) : in_tx i t0 o at_ st w -> in_tx i (w_table w) o at_ st w.
Proof. intros (rows & E & F & _). exists rows. split; [done|]. split; [done|apply keeps_refl]. Qed.

Lemma post_rebase {E A : Type} t0 t1 o (r : E + A) (w : world) : keeps t0 t1 -> post t1 o r w -> post t0 o r w.
Proof.
  intros Kp. destruct r as [e|a]; cbn; [by apply keeps_trans|].
  intros (t2 & at_ & st & Tx & K2 & L). exists t2, at_, st. split; [done|]. split; [by eapply keeps_trans|done].
Qed.

Lemma wp_balanceMoved_none t0 o at_ st uid err (w : world) :
  in_tx i t0 o at_ st w -> wp i (balanceMoved None uid err) (post t0 o) w.
Proof.
  intros Tx. apply wp_orElse. eapply (wp_read t0 o at_ _ (SelectUser uid)); [done|done|done|].
  intros r w' rows t' Tx' X F E. cbn. destruct (negb r); cbn; by eapply in_tx_keeps.
Qed.

(** A statement that PostgreSQL rejects. *)
Lemma wp_rejected t1 o at_ st {R A : Type} (s : bstmt R) (k : R -> bprog (outcome A)) Q (w : world) :
  in_tx i t1 o at_ st w -> (forall e w', keeps t1 (w_table w') -> Q (inl e) w') ->
  (forall t, run_bstmt local at_ s t = None) -> wp i (exec s k) Q w.
Proof.
  intros Tx F N. eapply (wp_sql keeps lawful quiet); [by apply keeps_trans|done|by intros; apply F|].
  intros w' rows r t' _ _ E. cbn in E. by rewrite N in E.
Qed.

Lemma wp_reserveWork t0 cmd at_ (w : world) :
  known t0 (OpReserve cmd) -> in_tx i t0 (OpReserve cmd) at_ (hold_plan cmd at_) w ->
  wp i (reserveUsageBillingBatchImageBalance cmd) (post t0 (OpReserve cmd)) w.
Proof.
  intros Kn Tx. unfold reserveUsageBillingBatchImageBalance. destruct (fle _ _) eqn:L.
  { cbn. eapply hold_unmoved; [by left| |done..]. intros id old. unfold user_effect. cbn. by rewrite L. }
  destruct (decimal_of (h_HoldAmount cmd)) as [h|] eqn:D.
  - eapply (wp_moves t0 _ cmd at_ (- h) h _ (fun u => h <=? u_balance u * unit8)); try done.
    + by left.
    + cbn. by rewrite L, D.
    + intros t. cbn. unfold reserveStmt. by rewrite D.
    + intros u G. cbn. intros h' E. simplify_eq. lia.
    + intros [b z] w' C. done.
    + intros st w' Tx'. by eapply wp_balanceMoved_none.
  - eapply wp_rejected; [done|done|]. intros t. cbn. unfold reserveStmt. by rewrite D.
Qed.

Lemma wp_captureWork t0 cmd at_ (w : world) :
  known t0 (OpCapture cmd) -> in_tx i t0 (OpCapture cmd) at_ (hold_plan cmd at_) w ->
  wp i (captureUsageBillingBatchImageBalance cmd) (post t0 (OpCapture cmd)) w.
Proof.
  intros Kn Tx. unfold captureUsageBillingBatchImageBalance. destruct (_ && _) eqn:L.
  { cbn. eapply hold_unmoved; [by right; left| |done|by left|done]. intros id old. unfold user_effect. cbn. by rewrite L. }
  destruct (flt _ _) eqn:Cp; [cbn; by eapply in_tx_keeps|].
  destruct (decimal_of (h_HoldAmount cmd)) as [h|] eqn:D; [destruct (decimal_of (h_ActualAmount cmd)) as [a|] eqn:D'|].
  - eapply (wp_moves t0 _ cmd at_ (h - a) (- h) _ (fun u => h <=? u_frozen_balance u * unit8)); try done.
    + by right; left.
    + cbn. by rewrite L, D, D'.
    + intros t. cbn. unfold captureStmt. rewrite D, D'. cbn. f_equal. repeat case_test; lia.
    + intros u G. cbn. intros h' E. simplify_eq. lia.
    + by right.
    + intros [b z] w' C. done.
    + intros st w' Tx'. by eapply wp_balanceMoved_none.
  - eapply wp_rejected; [done|done|]. intros t. cbn. unfold captureStmt. rewrite D. cbn. by rewrite D'.
  - eapply wp_rejected; [done|done|]. intros t. cbn. unfold captureStmt. by rewrite D.
Qed.

(** Whether the claim of a hold is there. *)
Lemma wp_held t0 o cmd at_ rid ak (w : world) :
  in_tx i t0 o at_ (hold_plan cmd at_) w ->
  wp i (batchImageHoldClaimExists rid ak)
    (fun r w' => match r with
     | inl _ => keeps t0 (w_table w')
     | inr held => in_tx i t0 o at_ (hold_plan cmd at_) w' /\
         (held = true -> claimed (w_table w') (rid, ak) \/ (rid, ak) = request cmd) end) w.
Proof.
  intros Tx.
  assert (See : forall rows t, follows (hold_plan cmd at_) rows t ->
    (rid, ak) = request cmd \/ claim_at (rows ∪ t) (rid, ak) = claim_at t (rid, ak)).
  { intros rows t F. pose proof (follows_view _ rows t (KClaim (rid, ak)) F) as V. unfold claim_plan, amend in V.
    destruct (decide _) as [E|N]; [left; congruence|right]. unfold claim_at. by rewrite V. }
  eapply (wp_read t0 o at_ _ (SelectDedup (rid, ak))); [done|done|done|].
  intros r w1 rows t' Tx1 X F E. cbn in E. injection E as <- <-.
  destruct (cl_hot (claim_at (rows ∪ w_table w1) (rid, ak))) as [[fp cr]|] eqn:Ch; cbn.
  - split; [done|]. intros _. destruct (See _ _ F) as [?|C]; [by right|left]. left. rewrite <-C, Ch. done.
  - eapply (wp_read t0 o at_ _ (SelectArchive (rid, ak))); [done|done|done|].
    intros r w2 rows2 t2 Tx2 X2 F2 E2. cbn in E2. injection E2 as <- <-. cbn. split; [done|].
    intros B. apply bool_decide_eq_true in B. destruct (See _ _ F2) as [?|C]; [by right|left]. right. by rewrite <-C.
Qed.

Lemma wp_releaseWork t0 cmd at_ (w : world) :
  known t0 (OpRelease cmd) -> in_tx i t0 (OpRelease cmd) at_ (hold_plan cmd at_) w ->
  wp i (releaseUsageBillingBatchImageBalance cmd) (post t0 (OpRelease cmd)) w.
Proof.
  intros Kn Tx. unfold releaseUsageBillingBatchImageBalance. destruct (fle _ _) eqn:L.
  { cbn. eapply hold_unmoved; [by right; right| |done..]. intros id old. unfold user_effect. cbn. by rewrite L. }
  apply wp_orElse. eapply tx_mono; [|by apply (wp_held t0 (OpRelease cmd) cmd at_)].
  intros [e|held] w1 P; [done|]. destruct P as [Tx1 Hd]. destruct held; cbn [negb]; cycle 1.
  { cbn. eapply hold_unmoved; [by right; right| |done..]. intros id old. unfold user_effect. cbn. rewrite L.
    destruct (decimal_of _); cbn; [|done]. case_test; [by right|done]. }
  pose proof (in_tx_keeps _ _ _ _ _ Tx1) as Kp. pose proof (known_keeps _ _ _ Kp Kn) as Kn1. apply in_tx_rebase in Tx1.
  apply (tx_mono keeps lawful quiet i _ (post (w_table w1) (OpRelease cmd))); [intros r w'; by apply post_rebase|].
  destruct (decimal_of (h_HoldAmount cmd)) as [h|] eqn:D.
  - eapply (wp_moves (w_table w1) _ cmd at_ h (- h) _ (fun u => h <=? u_frozen_balance u * unit8)); try done.
    + by right; right.
    + cbn. by rewrite L, D.
    + intros t. cbn. unfold releaseStmt. by rewrite D.
    + intros u G. cbn. intros h' E. simplify_eq. lia.
    + by apply Hd.
    + intros [b z] w' C. done.
    + intros st w' Tx'. by eapply wp_balanceMoved_none.
  - eapply wp_rejected; [done|done|]. intros t. cbn. unfold releaseStmt. by rewrite D.
Qed.

(** The three operations leave no transaction behind. *)
Lemma wp_hold o (apply_ : BatchImageBalanceHoldCommand -> bprog (outcome BatchImageBalanceHoldResult)) t0 cmd (w : world) :
  (forall cmd at_ (w : world), known t0 (o cmd) -> in_tx i t0 (o cmd) at_ (hold_plan cmd at_) w ->
     wp i (apply_ cmd) (post t0 (o cmd)) w) ->
  known t0 (o (NormalizeHold cmd)) ->
  idle i t0 w -> wp i (applyBatchImageBalanceHold o apply_ cmd) (fun _ w' => idle i t0 w') w.
Proof.
  intros W Kn Id. unfold applyBatchImageBalanceHold. set (c := NormalizeHold cmd). destruct (_ =s _); [done|].
  apply wp_claimedTx; [done|]. intros at_ w' Tx. apply wp_orElse. eapply tx_mono; [|by apply (W c at_)]. by intros [e|r] w2.
Qed.

(** ** Applying a charge

    [staged t0 l w]: the entries of [l] are still to be written; all others are as the
    operation leaves them. *)

Section Charge.
Context (cmd : UsageBillingCommand) (at_ : Z).
Notation o := (OpApply cmd).

Definition fit (t1 : tables) (st : plan) (k : bkey) : Prop := forall t, keeps t1 t ->
  match st k with
  | None => effect o at_ k (t !! k) (t !! k)
  | Some R => forall v, R (t !! k) v -> effect o at_ k (t !! k) (Some v)
  end.

Definition staged (t0 : tables) (l : list bkey) (w : world) : Prop :=
  exists t1 st, in_tx i t1 o at_ st w /\ keeps t0 t1 /\
    forall k, if decide (k ∈ l) then st k = None else fit t1 st k.

Lemma fit_later t1 t2 st k : keeps t1 t2 -> fit t1 st k -> fit t2 st k.
Proof. intros Kp F t K2. apply F. by eapply keeps_trans. Qed.

Lemma fit_amend t1 st k k' R : k' <> k -> fit t1 st k' -> fit t1 (amend st k R) k'.
Proof. intros N F t Kp. unfold amend. rewrite decide_False by done. by apply F. Qed.

Lemma staged_keeps t0 l (w : world) : staged t0 l w -> keeps t0 (w_table w).
Proof. intros (t1 & st & Tx & Kp & _). eapply keeps_trans; [done|]. by eapply in_tx_keeps. Qed.

Lemma staged_done t0 (w : world) : staged t0 [] w -> committable t0 o w.
Proof.
  intros (t1 & st & Tx & Kp & F). exists t1, at_, st. split; [done|]. split; [done|].
  intros rows t Fo K1. split; [|by repeat split]. apply (plan_lawful o at_ st); [done|]. intros k.
  specialize (F k). rewrite decide_False in F by set_solver. by apply F.
Qed.

(** Nothing to do for an entry. *)
Lemma staged_skip t0 k l (w : world) :
  staged t0 (k :: l) w -> (k ∈ l \/ forall t, keeps t0 t -> effect o at_ k (t !! k) (t !! k)) -> staged t0 l w.
Proof.
  intros (t1 & st & Tx & Kp & F) E. exists t1, st. split; [done|]. split; [done|].
  intros k'. specialize (F k'). destruct (decide (k' ∈ l)) as [In|Out].
  - rewrite decide_True in F by set_solver. done.
  - destruct (decide (k' = k)) as [->|N]; [|rewrite decide_False in F by set_solver; done].
    rewrite decide_True in F by set_solver. destruct E as [?|E]; [done|].
    intros t K1. rewrite F. apply E. by eapply keeps_trans.
Qed.

(** An entry is written. *)
Lemma staged_amend t0 t1 st k l (R : option brow -> brow -> Prop) (w : world) :
  k ∉ l -> keeps t0 t1 -> in_tx i t1 o at_ (amend st k R) w ->
  (forall k', if decide (k' ∈ k :: l) then st k' = None else fit t1 st k') ->
  (forall t v, keeps t1 t -> R (t !! k) v -> effect o at_ k (t !! k) (Some v)) -> staged t0 l w.
Proof.
  intros Nk Kp Tx F E. exists t1, (amend st k R). split; [done|]. split; [done|].
  intros k'. specialize (F k'). destruct (decide (k' = k)) as [->|N].
  - rewrite decide_False by done. intros t K1. unfold amend. rewrite decide_True by done. intros v. by apply E.
  - destruct (decide (k' ∈ l)) as [In|Out].
    + rewrite decide_True in F by set_solver. unfold amend. by rewrite decide_False.
    + rewrite decide_False in F by set_solver. by apply fit_amend.
Qed.

(** A statement that writes the next entry if it finds it. *)
Lemma wp_stage t0 k l {R A : Type} (s : bstmt R) (cont : R -> bprog (outcome A)) Q (hit : R -> bool) (w : world) :
  k ∉ l -> staged t0 (k :: l) w ->
  (forall e w', keeps t0 (w_table w') -> Q (inl e) w') ->
  (forall (rows t : tables) r t', (rows ∪ t) !! k = t !! k -> keeps t0 t -> run_bstmt local at_ s (rows ∪ t) = Some (r, t') ->
    bwrites local at_ s (rows ∪ t) = (if hit r then {[ k ]} else ∅) /\
    (hit r = true -> exists v, t' !! k = Some v /\ effect o at_ k (t !! k) (Some v))) ->
  (forall r w', hit r = true -> staged t0 l w' -> wp i (cont r) Q w') ->
  (forall r w' rows t', hit r = false -> staged t0 (k :: l) w' -> (rows ∪ w_table w') !! k = w_table w' !! k ->
     run_bstmt local at_ s (rows ∪ w_table w') = Some (r, t') -> wp i (cont r) Q w') ->
  wp i (exec s cont) Q w.
Proof.
  intros Nk (t1 & st & Tx & Kp & F) Fl B W1 W2.
  assert (N : st k = None) by (specialize (F k); rewrite decide_True in F by set_solver; done).
  assert (V : forall rows t, follows st rows t -> (rows ∪ t) !! k = t !! k).
  { intros rows t Fo. pose proof (follows_view st rows t k Fo) as V. by rewrite N in V. }
  eapply (wp_row t1 o at_ st s cont Q w k hit (fun old v => effect o at_ k old (Some v))); [done|..].
  - intros e w' K1. apply Fl. by eapply keeps_trans.
  - intros rows t r t' Fo K1 E. apply (B rows t r t'); [by apply V|by eapply keeps_trans|done].
  - intros r w' Hr Tx'. apply W1; [done|]. eapply staged_amend; try done.
  - intros r w' rows t' Hr Tx' Fo K1 E. apply (W2 r w' rows t'); try done; [|by apply V]. exists t1, st. done.
Qed.

Lemma found_writes {R : Type} (s : bstmt R) (hit : R -> bool) k (t : tables) r t' :
  run_bstmt local at_ s t = Some (r, t') ->
  bwrites local at_ s t = hits hit k (run_bstmt local at_ s t) -> bwrites local at_ s t = if hit r then {[ k ]} else ∅.
Proof. intros E W. by rewrite W, E. Qed.

(** What is left of an outcome. *)
Definition next {A : Type} (t0 : tables) (l : list bkey) : outcome A -> world -> Prop := fun r w' =>
  match r with inl _ => keeps t0 (w_table w') | inr _ => staged t0 l w' end.

Lemma wp_subscription t0 id l (w : world) :
  SubscriptionID cmd = Some id -> flt fzero (SubscriptionCost cmd) = true -> KSub id ∉ l -> staged t0 (KSub id :: l) w ->
  wp i (incrementUsageBillingSubscription id (SubscriptionCost cmd)) (next t0 l) w.
Proof.
  intros Si Fc Nk Sg. eapply (wp_stage t0 (KSub id) l _ _ _ (Z.eqb 1)); [done|done|done|..].
  - intros rows t r t' V K1 E. split; [by eapply found_writes|]. intros Hr.
    cbn in E. unfold subscriptionStmt, usub_at in E. rewrite V in E.
    destruct (decimal_of _) as [a|] eqn:Da; [cbn in E|done].
    destruct (t !! KSub id) as [[| | |s| | |]|] eqn:Ts; try (by simplify_eq).
    destruct (bool_decide _ && _) eqn:Lv; [|by simplify_eq].
    apply andb_true_iff in Lv as [D%bool_decide_eq_true _].
    destruct (bumpSubscription a s) as [s'|] eqn:Bs; [cbn in E|done]. simplify_eq.
    exists (RSub s'). split; [apply lookup_insert_eq|]. cbn. rewrite Si, bool_decide_true, Fc by done. cbn.
    exists s, s', a. done.
  - intros r w' Hr Sg'. assert (r = 1) as -> by lia. done.
  - intros r w' rows t' Hr Sg' V E. assert (r = 0) as ->; [|by eapply staged_keeps].
    cbn in E. unfold subscriptionStmt in E. destruct (decimal_of _); [cbn in E|done].
    repeat (case_match; cbn in E; simplify_eq; try done). destruct (bumpSubscription _ _); by simplify_eq/=.
Qed.

Lemma deduct_spec guarded a id (rows t t' : tables) r :
  (rows ∪ t) !! KUser id = t !! KUser id -> decimal_of (BalanceCost cmd) = Some a ->
  deductStmt guarded (BalanceCost cmd) id (rows ∪ t) = Some (r, t') -> found r = true ->
  exists v, t' !! KUser id = Some v /\ moved (- a) 0 (t !! KUser id) (Some v).
Proof.
  intros V Da E Fd. unfold deductStmt in E. rewrite Da in E. cbn in E. unfold live_user, user_at in E. rewrite V in E.
  destruct (t !! KUser id) as [[u| | | | | |]|] eqn:Tu; try (by simplify_eq).
  destruct (decide _) as [D|]; [|by simplify_eq].
  destruct (guarded && _); [by simplify_eq|].
  destruct (column _ _) as [b|] eqn:C; [cbn in E|done]. simplify_eq.
  eexists. split; [apply lookup_insert_eq|]. exists u, b, (u_frozen_balance u). by rewrite Z.add_opp_r, C.
Qed.

Lemma wp_balance t0 l (w : world) :
  flt fzero (BalanceCost cmd) = true -> KUser (UserID cmd) ∉ l -> staged t0 (KUser (UserID cmd) :: l) w ->
  wp i (deductUsageBillingBalance (UserID cmd) (BalanceCost cmd)) (next t0 l) w.
Proof.
  intros Fc Nk Sg.
  assert (St : forall g (rows t : tables) r t',
    (rows ∪ t) !! KUser (UserID cmd) = t !! KUser (UserID cmd) ->
    run_bstmt local at_ (DeductBalance g (BalanceCost cmd) (UserID cmd)) (rows ∪ t) = Some (r, t') ->
    bwrites local at_ (DeductBalance g (BalanceCost cmd) (UserID cmd)) (rows ∪ t)
      = (if found r then {[ KUser (UserID cmd) ]} else ∅) /\
    (found r = true -> exists v, t' !! KUser (UserID cmd) = Some v /\
       effect o at_ (KUser (UserID cmd)) (t !! KUser (UserID cmd)) (Some v))).
  { intros g rows t r t' V E. split; [by eapply found_writes|]. intros Hr.
    destruct (decimal_of (BalanceCost cmd)) as [a|] eqn:Da; [|cbn in E; unfold deductStmt in E; by rewrite Da in E].
    destruct (deduct_spec g a (UserID cmd) rows t t' r V Da E Hr) as (v & X & M). exists v. split; [done|].
    cbn. unfold user_effect. cbn. rewrite Fc, Da. cbn. rewrite Z.eqb_refl. left. split; [done|].
    by destruct (t !! _) as [[]|]. }
  eapply (wp_stage t0 _ l _ _ _ found); [done|done|done|..].
  - intros rows t r t' V K1. by apply St.
  - intros [b|] w' Hr Sg'; done.
  - intros [b|] w' rows t' Hr Sg' V E; [done|].
    eapply (wp_stage t0 _ l _ _ _ found); [done|done|done|..].
    + intros rows' t r t2 V' K1. by apply St.
    + intros [b|] w2 Hr' Sg2; done.
    + intros [b|] w2 rows2 t2 Hr' Sg2 V2 E2; [done|]. by eapply staged_keeps.
Qed.

Lemma wp_account t0 l (w : world) :
  charges_account unicode_lower cmd = true -> KAccount (AccountID cmd) ∉ l -> staged t0 (KAccount (AccountID cmd) :: l) w ->
  wp i (incrementUsageBillingAccountQuota (AccountID cmd) (AccountQuotaCost cmd)) (next t0 l) w.
Proof.
  intros Fc Nk Sg. eapply (wp_stage t0 _ l _ _ _ found); [done|done|done|..].
  - intros rows t r t' V K1 E. split; [by eapply found_writes|]. intros Hr.
    cbn in E. unfold accountQuotaStmt, live_account, account_at in E. rewrite V in E.
    destruct (decimal_of _) as [a|] eqn:Da; [cbn in E|done].
    destruct (t !! KAccount _) as [[| |acc| | | |]|] eqn:Ta; try (by simplify_eq).
    destruct (decide _) as [D|]; [|by simplify_eq]. simplify_eq.
    eexists. split; [apply lookup_insert_eq|]. cbn. rewrite Z.eqb_refl, Fc. cbn. exists acc, a. done.
  - intros [state|] w' Hr Sg'; [|done]. destruct (_ || _); [|done].
    destruct Sg' as (t1 & st & Tx & Kp & F).
    eapply (wp_read t1 o at_ st (InsertOutbox (AccountID cmd))); [done|done|..].
    + intros e w2 K1. by eapply keeps_trans.
    + intros r w2 rows t' Tx2 _ _ _. by exists t1, st.
  - intros [state|] w' rows t' Hr Sg' V E; [done|]. by eapply staged_keeps.
Qed.

(** ** The key *)

Notation key := (KKey (APIKeyID cmd)).

Definition gone (t : tables) : Prop := exists k, key_at t (APIKeyID cmd) = Some k /\ k_deleted_at k <> None.

Lemma gone_keeps t t' : gone t -> keeps t t' -> gone t'.
Proof. intros (k & E & D) (_ & Kk & _). destruct (Kk _ _ E) as (k' & E' & D'). exists k'. auto. Qed.

Lemma key_at_Some (t : tables) id k : key_at t id = Some k -> t !! KKey id = Some (RKey k).
Proof. unfold key_at. repeat case_match; intros; by simplify_eq. Qed.

Lemma gone_effect t : gone t -> effect o at_ key (t !! key) (t !! key).
Proof.
  intros (k & E%key_at_Some & D). cbn. rewrite Z.eqb_refl. exists k. split; [done|]. by rewrite decide_False.
Qed.

(** After the charge of the quota. *)
Definition half_charged (old : option brow) (v : brow) : Prop :=
  exists k k1, old = Some (RKey k) /\ k_deleted_at k = None /\ k_deleted_at k1 = None /\
    quota_charged (APIKeyQuotaCost cmd) k k1 /\ v = RKey k1.

Definition half (t0 : tables) (l : list bkey) (w : world) : Prop :=
  exists t1 st, in_tx i t1 o at_ st w /\ keeps t0 t1 /\
    (forall k, k <> key -> if decide (k ∈ l) then st k = None else fit t1 st k) /\
    match st key with
    | Some R => R = half_charged
    | None => flt fzero (APIKeyQuotaCost cmd) = false \/ gone t1
    end.

Section Key.
Context (t0 : tables) (l : list bkey).
Context (there : is_Some (key_at t0 (APIKeyID cmd))) (later : key ∉ l).

(** A key that is not there to be charged was deleted. *)
Lemma absent_gone (t : tables) : keeps t0 t -> live_key t (APIKeyID cmd) = None -> gone t.
Proof.
  intros (_ & Kk & _). destruct there as [k Ek]. destruct (Kk _ _ Ek) as (k' & E' & _).
  unfold live_key. rewrite E'. case_decide; [done|]. intros _. by exists k'.
Qed.

Lemma live_key_view (rows t : tables) id : (rows ∪ t) !! KKey id = t !! KKey id -> live_key (rows ∪ t) id = live_key t id.
Proof. intros V. unfold live_key, key_at. by rewrite V. Qed.

Lemma live_key_Some (t : tables) id k : live_key t id = Some k -> t !! KKey id = Some (RKey k) /\ k_deleted_at k = None.
Proof.
  unfold live_key. destruct (key_at t id) eqn:E; [|done]. apply key_at_Some in E. case_decide; [|done]. intros; by simplify_eq.
Qed.

Lemma staged_half (w : world) : flt fzero (APIKeyQuotaCost cmd) = false -> staged t0 (key :: l) w -> half t0 l w.
Proof.
  intros Fc (t1 & st & Tx & Kp & F). exists t1, st. split; [done|]. split; [done|]. split.
  - intros k N. specialize (F k). destruct (decide (k ∈ l)); [rewrite decide_True in F by set_solver; done|].
    rewrite decide_False in F by set_solver. done.
  - specialize (F key). rewrite decide_True in F by set_solver. rewrite F. by left.
Qed.

Lemma others_later t1 t2 (st : plan) : keeps t1 t2 ->
  (forall k, k <> key -> if decide (k ∈ l) then st k = None else fit t1 st k) ->
  (forall k, k <> key -> if decide (k ∈ l) then st k = None else fit t2 st k).
Proof. intros Kp F k N. specialize (F k N). case_decide; [done|]. by eapply fit_later. Qed.

Lemma others_amend t1 (st : plan) R :
  (forall k, k <> key -> if decide (k ∈ l) then st k = None else fit t1 st k) ->
  (forall k, k <> key -> if decide (k ∈ l) then amend st key R k = None else fit t1 (amend st key R) k).
Proof.
  intros F k N. specialize (F k N). case_decide; [unfold amend; by rewrite decide_False|]. by apply fit_amend.
Qed.

Lemma others_staged (w : world) t1 st :
  in_tx i t1 o at_ st w -> keeps t0 t1 ->
  (forall k, k <> key -> if decide (k ∈ l) then st k = None else fit t1 st k) -> fit t1 st key -> staged t0 l w.
Proof.
  intros Tx Kp F Fk. exists t1, st. split; [done|]. split; [done|]. intros k.
  destruct (decide (k = key)) as [->|N]; [by rewrite decide_False|by apply F].
Qed.

Lemma in_tx_now t1 st (w : world) : keeps t0 t1 -> in_tx i t1 o at_ st w ->
  in_tx i (w_table w) o at_ st w /\ keeps t0 (w_table w) /\ keeps t1 (w_table w).
Proof.
  intros Kp Tx. pose proof (in_tx_keeps _ _ _ _ _ Tx). split; [by eapply in_tx_rebase|]. split; [by eapply keeps_trans|done].
Qed.

Lemma wp_quota (w : world) :
  flt fzero (APIKeyQuotaCost cmd) = true -> staged t0 (key :: l) w ->
  wp i (incrementUsageBillingAPIKeyQuota (APIKeyID cmd) (APIKeyQuotaCost cmd))
    (fun r w' => match r with inl _ => keeps t0 (w_table w') | inr _ => half t0 l w' end) w.
Proof.
  intros Fc (t1 & st & Tx & Kp & F).
  assert (N : st key = None) by (specialize (F key); rewrite decide_True in F by set_solver; done).
  assert (Fo : forall k, k <> key -> if decide (k ∈ l) then st k = None else fit t1 st k).
  { intros k Nk. specialize (F k). destruct (decide (k ∈ l)); [rewrite decide_True in F by set_solver; done|].
    rewrite decide_False in F by set_solver. done. }
  assert (V : forall rows t, follows st rows t -> (rows ∪ t) !! key = t !! key).
  { intros rows t Fl. pose proof (follows_view st rows t key Fl) as V. by rewrite N in V. }
  eapply (wp_row t1 o at_ st _ _ _ w key found half_charged); [done|..].
  - intros e w' K1. by eapply keeps_trans.
  - intros rows t r t' Fl K1 E. split; [by eapply found_writes|]. intros Hr. cbn in E. unfold keyQuotaStmt in E.
    rewrite live_key_view in E by (by apply V). destruct (decimal_of _) as [a|] eqn:Da; [cbn in E|done].
    destruct (live_key t _) as [k|] eqn:Lk; [|by simplify_eq]. apply live_key_Some in Lk as [Ek D].
    destruct (bumpKeyQuota a k) as [[e k1]|] eqn:B; [cbn in E|done]. simplify_eq.
    exists (RKey k1). split; [apply lookup_insert_eq|]. rewrite Ek. exists k, k1.
    pose proof (bumpKeyQuota_deleted _ _ _ _ B). split; [done|]. split; [done|]. split; [congruence|].
    split; [|done]. unfold quota_charged. rewrite Fc. by exists a, e.
  - intros r w' Hr Tx'. cbn. exists t1, (amend st key half_charged). split; [done|]. split; [done|].
    split; [by apply others_amend|]. unfold amend. by rewrite decide_True.
  - intros r w' rows t' Hr Tx' Fl K1 E. cbn. destruct (in_tx_now t1 st w' Kp Tx') as (Tx2 & K2 & K3).
    exists (w_table w'), st. split; [done|]. split; [done|]. split; [by eapply others_later|]. rewrite N. right.
    apply absent_gone; [done|]. cbn in E. unfold keyQuotaStmt in E. rewrite live_key_view in E by (by apply V).
    destruct (decimal_of _); [cbn in E|done]. destruct (live_key _ _) as [k|]; [|done].
    destruct (bumpKeyQuota _ _); by simplify_eq/=.
Qed.

(** Without a charge for the windows, half is all. *)
Lemma half_staged (w : world) : flt fzero (APIKeyRateLimitCost cmd) = false -> half t0 l w -> staged t0 l w.
Proof.
  intros Fr (t1 & st & Tx & Kp & F & Hk). eapply others_staged; [done..|]. intros t K1.
  destruct (st key) as [R|]; [subst R|destruct Hk as [Fc|G]].
  - intros v (k & k1 & Ek & D & _ & Qc & ->). cbn. rewrite Z.eqb_refl. exists k. split; [done|].
    rewrite decide_True by done. exists k1, k1. split; [done|]. split; [|done]. unfold rate_charged. by rewrite Fr.
  - destruct there as [k0 Ek0]. destruct (keeps_trans _ _ _ Kp K1) as (_ & Kk & _).
    destruct (Kk _ _ Ek0) as (k & Ek%key_at_Some & _). cbn. rewrite Z.eqb_refl. exists k. split; [done|].
    case_decide; [|done]. exists k, k. unfold quota_charged, rate_charged. rewrite Fc, Fr. done.
  - apply gone_effect. by eapply gone_keeps.
Qed.

Lemma rate_spec (t t' : tables) r :
  keyRateStmt local at_ (APIKeyRateLimitCost cmd) (APIKeyID cmd) t = Some (r, t') ->
  (r = 0 /\ live_key t (APIKeyID cmd) = None) \/
  (r = 1 /\ exists k k2 a, live_key t (APIKeyID cmd) = Some k /\ decimal_of (APIKeyRateLimitCost cmd) = Some a /\
     bumpKeyRate local (stored at_) a k = Some k2 /\ t' !! key = Some (RKey k2)).
Proof.
  unfold keyRateStmt. destruct (decimal_of _) as [a|]; [cbn|done]. destruct (live_key t _) as [k|]; [|intros; simplify_eq; auto].
  destruct (bumpKeyRate _ _ _ _) as [k2|] eqn:B; [cbn|done]. intros; simplify_eq. right. split; [done|].
  exists k, k2, a. rewrite B, lookup_insert_eq. done.
Qed.

Lemma wp_rate (w : world) :
  flt fzero (APIKeyRateLimitCost cmd) = true -> half t0 l w ->
  wp i (incrementUsageBillingAPIKeyRateLimit (APIKeyID cmd) (APIKeyRateLimitCost cmd)) (next t0 l) w.
Proof.
  intros Fr (t1 & st & Tx & Kp & F & Hk).
  (* what the statement finds *)
  assert (See : forall (rows t : tables) k, follows st rows t -> keeps t1 t -> live_key (rows ∪ t) (APIKeyID cmd) = Some k ->
    exists k0, t !! key = Some (RKey k0) /\ k_deleted_at k0 = None /\ quota_charged (APIKeyQuotaCost cmd) k0 k).
  { intros rows t k Fl K1 [Lk D]%live_key_Some. pose proof (follows_view st rows t key Fl) as V.
    destruct (st key) as [R|]; [subst R|destruct Hk as [Fc|G]].
    - destruct V as (v & X & k0 & k1 & E0 & D0 & D1 & Qc & ->). rewrite X in Lk. simplify_eq. by exists k0.
    - rewrite V in Lk. exists k. split; [done|]. split; [done|]. unfold quota_charged. by rewrite Fc.
    - rewrite V in Lk. destruct (gone_keeps _ _ G K1) as (k' & Ek%key_at_Some & D'). congruence. }
  eapply (wp_row t1 o at_ st _ _ _ w key (Z.eqb 1) (fun old v => key_charged local cmd at_ old (Some v))); [done|..].
  - intros e w' K1. by eapply keeps_trans.
  - intros rows t r t' Fl K1 E. split; [by eapply found_writes|]. intros Hr. cbn in E.
    destruct (rate_spec _ _ _ E) as [[-> _]|(-> & k & k2 & a & Lk & Da & B & X)]; [done|].
    destruct (See rows t k Fl K1 Lk) as (k0 & E0 & D0 & Qc). exists (RKey k2). split; [done|].
    exists k0. split; [done|]. rewrite decide_True by done. exists k, k2. split; [done|]. split; [|done].
    unfold rate_charged. rewrite Fr. by exists a.
  - intros r w' Hr Tx'. assert (r = 1) as -> by lia. cbn.
    eapply others_staged; [done|done|by apply others_amend|]. intros t K1. unfold amend. rewrite decide_True by done.
    intros v. cbn. by rewrite Z.eqb_refl.
  - intros r w' rows t' Hr Tx' Fl K1 E. cbn in E.
    destruct (rate_spec _ _ _ E) as [[-> Lk]|(-> & _)]; [|done]. cbn.
    destruct (in_tx_now t1 st w' Kp Tx') as (Tx2 & K2 & K3).
    eapply others_staged; [done|done|by eapply others_later|]. intros t K4.
    pose proof (follows_view st rows (w_table w') key Fl) as V. destruct (st key) as [R|]; [subst R|].
    + destruct V as (v & X & k0 & k1 & E0 & D0 & D1 & Qc & ->). unfold live_key, key_at in Lk. rewrite X in Lk.
      by rewrite decide_True in Lk.
    + apply gone_effect. eapply gone_keeps; [|done]. apply absent_gone; [done|]. by rewrite <-(live_key_view rows).
Qed.
End Key.

(** ** The whole charge *)

Notation todo := [KUser (UserID cmd); key; KAccount (AccountID cmd)].

Definition subscription_entry : list bkey := match SubscriptionID cmd with Some id => [KSub id] | None => [] end.

Lemma staged_start t0 (w : world) :
  in_tx i t0 o at_ (claim_plan (RequestID cmd, APIKeyID cmd) (RequestFingerprint cmd) at_) w ->
  staged t0 (subscription_entry ++ todo) w.
Proof.
  intros Tx. exists t0, (claim_plan (RequestID cmd, APIKeyID cmd) (RequestFingerprint cmd) at_).
  split; [done|]. split; [apply keeps_refl|]. intros k. unfold subscription_entry, claim_plan, amend, untouched.
  destruct (decide (k ∈ _)) as [In|Out]; [rewrite decide_False; [done|intros ->; destruct (SubscriptionID cmd); set_solver]|].
  intros t Kp. destruct (decide (k = _)) as [->|N].
  - intros v C. cbn. by rewrite decide_True.
  - destruct k as [id|id|id|id|id|c|b]; try done.
    + assert (UserID cmd <> id) by (intros <-; destruct (SubscriptionID cmd); set_solver).
      cbn. unfold user_effect. cbn. destruct (flt _ _); [|done]. destruct (decimal_of _); [|done]. cbn.
      by destruct (Z.eqb_spec (UserID cmd) id).
    + cbn. destruct (Z.eqb_spec (APIKeyID cmd) id) as [<-|]; [destruct (SubscriptionID cmd); set_solver|done].
    + cbn. destruct (Z.eqb_spec (AccountID cmd) id) as [<-|]; [destruct (SubscriptionID cmd); set_solver|done].
    + cbn. destruct (bool_decide _) eqn:B; [|done]. apply bool_decide_eq_true in B. rewrite B in Out. set_solver.
    + cbn. rewrite decide_False; [done|congruence].
Qed.

Lemma wp_effects t0 (w : world) :
  is_Some (key_at t0 (APIKeyID cmd)) ->
  in_tx i t0 o at_ (claim_plan (RequestID cmd, APIKeyID cmd) (RequestFingerprint cmd) at_) w ->
  wp i (applyUsageBillingEffects unicode_lower cmd) (post t0 o) w.
Proof.
  intros Kn Sg%staged_start. apply wp_orElse.
  apply (tx_mono keeps lawful quiet i _ (next t0 todo)).
  2:{ unfold subscription_entry in Sg. destruct (SubscriptionID cmd) as [id|] eqn:Si; [|done].
      destruct (flt fzero _) eqn:Fc; [apply (wp_subscription t0 id todo); [done..|set_solver|done]|].
      cbn. eapply staged_skip; [done|]. right. intros t _. cbn. by rewrite Fc, andb_false_r. }
  intros [e|[]] w1 Sg1; [done|]. cbn in Sg1. apply wp_orElse.
  apply (tx_mono keeps lawful quiet i _ (next t0 [key; KAccount (AccountID cmd)])).
  2:{ destruct (flt fzero (BalanceCost cmd)) eqn:Fc.
      - apply wp_orElse. eapply tx_mono; [|apply (wp_balance t0 [key; KAccount (AccountID cmd)]); [done|set_solver|done]]. by intros [e|r] w2 P.
      - cbn. eapply staged_skip; [done|]. right. intros t _. cbn. unfold user_effect. cbn. by rewrite Fc. }
  intros [e|r1] w2 Sg2; [done|]. cbn in Sg2. apply wp_orElse.
  apply (tx_mono keeps lawful quiet i _
    (fun r w' => match r with inl _ => keeps t0 (w_table w') | inr _ => half t0 [KAccount (AccountID cmd)] w' end)).
  2:{ destruct (flt fzero (APIKeyQuotaCost cmd)) eqn:Fc; [|apply staged_half; first [done|set_solver]].
      apply wp_orElse. eapply tx_mono; [|apply (wp_quota t0 [KAccount (AccountID cmd)]); first [done|set_solver]]. by intros [e|r] w3 P. }
  intros [e|r2] w3 Sg3; [done|]. apply wp_orElse.
  apply (tx_mono keeps lawful quiet i _ (next t0 [KAccount (AccountID cmd)])).
  2:{ destruct (flt fzero (APIKeyRateLimitCost cmd)) eqn:Fc; [apply wp_rate; first [done|set_solver]|].
      cbn. apply half_staged; first [done|set_solver]. }
  intros [e|r3] w4 Sg4; [done|]. cbn in Sg4.
  destruct (flt fzero (AccountQuotaCost cmd) && _) eqn:Fc.
  - apply wp_orElse. eapply tx_mono; [|apply (wp_account t0 []); [done|set_solver|done]].
    intros [e|s] w5 P; [done|]. by apply staged_done.
  - cbn. apply staged_done. eapply staged_skip; [done|]. right. intros t _. cbn. unfold charges_account.
    by rewrite Fc, andb_false_r.
Qed.
End Charge.

Lemma wp_Apply t0 cmd (w : world) :
  is_Some (key_at t0 (APIKeyID cmd)) -> idle i t0 w -> wp i (Apply unicode_lower cmd) (fun _ w' => idle i t0 w') w.
Proof.
  intros Kn Id. unfold Apply. set (c := Normalize cmd). destruct (_ =s _); [done|].
  apply wp_claimedTx; [done|]. intros at_ w' Tx. apply (wp_effects c at_); [|done].
  unfold c, Normalize. by destruct (_ =s _).
Qed.
End Transactions.
