(* ===== verification/BatchImagesProofs.v ===== *)
(** * Jobs and the programs around holds

    Every program of [BatchImages.v] leaves the tables by transactions that [lawful] allows and
    by statements that [quiet] allows. *)

From Stdlib Require Import SpecFloat.
From stdpp Require Import pretty.
From S2P Require Import Prelude GoStrings GoStringsFacts GoFloat GoTime GoCrypto Programs Transactions BillingTables UsageBilling BatchImages BillingSpec UsageBillingProofs.

#[local] Open Scope Z_scope.

Section Jobs.
Context `{Subscriptions.Postgres} `{PgEnv} (local : Location) (unicode_lower : string -> string).

#[local] Existing Instance billing_database.
#[local] Instance db : Database bkey brow bstmt := billing_database local.

Notation lawful := (lawful local unicode_lower).
Notation effect := (effect local unicode_lower).
Notation idle := (idle keeps).
Notation in_tx := (in_tx keeps).
Notation wp := (wp keeps lawful quiet).
Notation world := (@world bkey brow _ _ bill_op bstmt bext).
Notation stored := Subscriptions.stored.
Notation plan := (@plan bkey brow).
Notation committable := (committable local unicode_lower).
Notation post := (post local unicode_lower).

Context (i : nat).

(** ** Transactions on a job *)

Section Job.
Context (b : string) (at_ : Z).
Notation o := (OpJob b).

(** The plan of the transaction: nothing, or the job. *)
Definition job_plan (R : option (option brow -> brow -> Prop)) : plan :=
  match R with None => untouched | Some R => amend untouched (KJob b) R end.

Lemma job_committable t0 R (w : world) :
  in_tx i t0 o at_ (job_plan R) w ->
  (forall P old v, R = Some P -> P old v -> job_moved old (Some v)) -> committable i t0 o w.
Proof.
  intros Tx Ok. exists t0, at_, (job_plan R). split; [done|]. split; [apply keeps_refl|].
  intros rows t F _. split; [|by repeat split]. apply (plan_lawful local unicode_lower o at_ (job_plan R)); [done|].
  intros k. unfold job_plan. destruct R as [P|].
  - unfold amend, untouched. destruct (decide (k = KJob b)) as [->|N].
    + intros v Pv. cbn. unfold BillingSpec.job_effect. rewrite String.eqb_refl. by eapply Ok.
    + destruct k; try done. cbn. destruct (String.eqb_spec batchID b) as [->|]; [done|done].
  - cbn. destruct k; try done. cbn. destruct (String.eqb_spec batchID b) as [->|]; [by left|done].
Qed.

Definition locked (status : string) (old : option brow) (v : brow) : Prop :=
  exists j, old = Some (RJob j) /\ v = RJob j /\ j_Status j = status.

Lemma wp_lockJob t0 {A : Type} (k : option string -> bprog (result A)) Q (w : world) :
  in_tx i t0 o at_ untouched w -> (forall e w', keeps t0 (w_table w') -> Q (inl e) w') ->
  (forall status w', in_tx i t0 o at_ (job_plan (Some (locked status))) w' -> wp i (k (Some status)) Q w') ->
  (forall w', in_tx i t0 o at_ untouched w' -> wp i (k None) Q w') -> wp i (query (LockJob b) k) Q w.
Proof.
  intros Tx F W1 W2. eapply (wp_sql keeps lawful quiet); [by apply keeps_trans|done|intros; by apply F|].
  intros w' rows r t' Fo Kp E X. cbn in E, X. injection E as <- <-.
  pose proof (follows_view untouched rows (w_table w') (KJob b) Fo) as V. cbn in V.
  assert (J : job_at (rows ∪ w_table w') b = job_at (w_table w') b) by (unfold job_at; by rewrite V).
  destruct (job_at (w_table w') b) as [j|] eqn:Jt; rewrite J in X |- *; cbn in X.
  - apply W1. eexists. split; [done|]. split; [|done].
    assert (Tj : w_table w' !! KJob b = Some (RJob j)) by (revert Jt; unfold job_at; repeat case_match; intros; by simplify_eq).
    eapply follows_amend; [done|by rewrite V|]. by exists j.
  - rewrite overlay_nothing in X. apply W2. by exists rows.
Qed.

(** An update of the job that was locked. *)
Lemma wp_updateJob t0 {A : Type} status (s : bstmt Z) f (k : Z -> bprog (result A)) Q (w : world) :
  in_tx i t0 o at_ (job_plan (Some (locked status))) w ->
  (forall t, run_bstmt local at_ s t = updateJobStmt b (fun _ => true) f t) ->
  (forall t, bwrites local at_ s t = hits (Z.eqb 1) (KJob b) (run_bstmt local at_ s t)) ->
  (forall j, j_Status j = status -> job_moved (Some (RJob j)) (Some (RJob (f j)))) ->
  (forall e w', keeps t0 (w_table w') -> Q (inl e) w') ->
  (forall w', in_tx i t0 o at_ (job_plan (Some (fun old v => job_moved old (Some v)))) w' -> wp i (k 1) Q w') ->
  wp i (query s k) Q w.
Proof.
  intros Tx Run Wr Mv F W.
  assert (Two : forall st R R', (st : plan) = amend untouched (KJob b) R -> forall rows t,
    follows (amend st (KJob b) R') rows t -> follows (amend untouched (KJob b) R') rows t).
  { intros st R R' -> rows t Fo k'. specialize (Fo k'). unfold amend in *. by destruct (decide _). }
  assert (Hit : forall rows t r t', follows (job_plan (Some (locked status))) rows t ->
    run_bstmt local at_ s (rows ∪ t) = Some (r, t') -> r = 1 /\ exists v, t' !! KJob b = Some v /\ job_moved (t !! KJob b) (Some v)).
  { intros rows t r t' Fo E. pose proof (follows_view _ rows t (KJob b) Fo) as V. cbn in V. unfold amend in V.
    rewrite decide_True in V by done. destruct V as (v & X & j & Y & -> & Z). rewrite Run in E.
    unfold updateJobStmt, job_at in E. rewrite X in E. injection E as <- <-. split; [done|].
    eexists. split; [apply lookup_insert_eq|]. rewrite Y. by apply Mv. }
  eapply (wp_row_sql local unicode_lower i t0 o at_ _ s _ Q w (KJob b) (Z.eqb 1) (fun old v => job_moved old (Some v))); [done|..].
  - intros w' Kp. by apply F.
  - intros rows t r t' Fo Kp E. split; [by rewrite Wr, E|]. intros _. by eapply Hit.
  - intros r w' Hr (rows & Tx' & Fo & Kp). assert (r = 1) as -> by lia. apply W. exists rows. split; [done|].
    split; [|done]. by eapply Two.
  - intros r w' rows t' Hr Tx' Fo Kp E. destruct (Hit _ _ _ _ Fo E) as [-> _]. done.
Qed.

(** A statement of the transaction that changes nothing that is kept. *)
Lemma wp_event t0 {A : Type} R (s : bstmt unit) (k : unit -> bprog (result A)) Q (w : world) :
  in_tx i t0 o at_ (job_plan R) w -> (forall t, bwrites local at_ s t = ∅) ->
  (forall e w', keeps t0 (w_table w') -> Q (inl e) w') ->
  (forall w', in_tx i t0 o at_ (job_plan R) w' -> wp i (k tt) Q w') -> wp i (query s k) Q w.
Proof.
  intros Tx Wr F W. eapply wp_read_sql; [done|done|intros; by apply F|].
  intros [] w' rows t' Tx' _ _ _. by apply W.
Qed.

Lemma wp_jobNow t0 st {A : Type} (k : Z -> bprog A) Q (w : world) :
  in_tx i t0 o at_ st w -> (forall t w', in_tx i t0 o at_ st w' -> wp i (k t) Q w') -> wp i (timeNow k) Q w.
Proof.
  intros Tx W. eapply (wp_clock keeps lawful quiet i _ (in_tx i t0 o at_ st)); [|by intros; apply W].
  intros w' R. eapply in_tx_rely; [apply keeps_trans|done|done].
Qed.
End Job.

Lemma wp_jobTx {A : Type} b t0 (work : bprog (result A)) (w : world) :
  idle i t0 w ->
  (forall at_ w', in_tx i t0 (OpJob b) at_ untouched w' -> wp i work (post i t0 (OpJob b)) w') ->
  wp i (jobTx b work) (fun _ w' => idle i t0 w') w.
Proof.
  intros Id W. eapply (wp_begin keeps lawful quiet); [apply keeps_trans|done|done|].
  intros at_ w1 Tx. apply tx_bind. eapply tx_mono; [|by apply (W at_)].
  intros [e|a] w2 P; [by apply (wp_abort local unicode_lower)|].
  destruct P as (t1 & at' & st & Tx' & Kp & L).
  eapply (wp_commit keeps lawful quiet keeps_trans (keeps_lawful local unicode_lower) i t1); [done|done|].
  intros r w4 Id4. assert (keeps t0 (w_table w4)) by (destruct Id4; by eapply keeps_trans).
  destruct r; by apply (wp_abort local unicode_lower).
Qed.

(** ** Programs that leave no transaction behind *)

Definition tidy (t0 : tables) {A : Type} (p : bprog A) : Prop :=
  forall w, idle i t0 w -> wp i p (fun _ w' => idle i t0 w') w.

(** The terms of a job that the program has read are in the table. *)
Definition job_known (t : tables) (job : BatchImageJob) : Prop :=
  exists b j, job_at t b = Some j /\ batch_terms j = batch_terms job.

Lemma idle_later t0 t1 (w : world) : keeps t0 t1 -> idle i t1 w -> idle i t0 w.
Proof. intros Kp [E K1]. split; [done|by eapply keeps_trans]. Qed.

Lemma idle_now t0 (w : world) : idle i t0 w -> idle i (w_table w) w /\ keeps t0 (w_table w).
Proof. intros [E Kp]. split; [split; [done|apply keeps_refl]|done]. Qed.

Lemma quiet_keeps_now R at_ (s : bstmt R) (t : tables) r u : quiet R s -> exec_stmt at_ s t = Some (r, u) -> keeps t u.
Proof. apply keeps_quiet. Qed.

Section Tidy.
Context (t0 : tables).

Lemma tidy_ret {A : Type} (a : A) : tidy t0 (Ret a).
Proof. by intros w Id. Qed.

Lemma tidy_bind {A B : Type} (p : bprog A) (f : A -> bprog B) :
  tidy t0 p -> (forall a, tidy t0 (f a)) -> tidy t0 (bind p f).
Proof. intros T1 T2 w Id. apply tx_bind. eapply tx_mono; [|by apply T1]. intros a w' Id'. by apply T2. Qed.

(** What a statement has answered is known afterwards. *)
Lemma tidy_sql_known {R A : Type} (s : bstmt R) (k : option R -> bprog A) (P : tables -> R -> Prop) :
  quiet R s -> (forall now t r t', run_bstmt local now s t = Some (r, t') -> P t' r) ->
  (forall t1 r, keeps t0 t1 -> P t1 r -> tidy t1 (k (Some r))) -> tidy t0 (k None) -> tidy t0 (Do (Sql s) k).
Proof.
  intros Qt Ps T1 T2 w Id. eapply (tx_quiet keeps lawful quiet keeps_trans quiet_keeps_now); [done|done|].
  intros [r|] w' Id' Ans; [|by apply T2]. destruct (Ans r eq_refl) as (now & t & _ & E).
  destruct (idle_now t0 w' Id') as [Id2 Kp]. eapply tx_mono; [|apply (T1 (w_table w')); [done|exact (Ps _ _ _ _ E)|done]].
  intros a w2. by apply idle_later.
Qed.

Lemma tidy_sql {R A : Type} (s : bstmt R) (k : option R -> bprog A) :
  quiet R s -> (forall r, tidy t0 (k r)) -> tidy t0 (Do (Sql s) k).
Proof.
  intros Qt T w Id. eapply (tx_quiet keeps lawful quiet keeps_trans quiet_keeps_now); [done|done|].
  intros r w' Id' _. by apply T.
Qed.

Lemma tidy_ext {R A : Type} (x : bext R) (k : option R -> bprog A) : (forall r, tidy t0 (k r)) -> tidy t0 (Do (Ext x) k).
Proof. intros T w Id. eapply (wp_ext keeps lawful quiet keeps_trans); [done|]. intros r w' Id'. by apply T. Qed.

Lemma tidy_now {A : Type} (k : Z -> bprog A) : (forall t, tidy t0 (k t)) -> tidy t0 (timeNow k).
Proof.
  intros T w Id. eapply (wp_clock keeps lawful quiet i _ (idle i t0)); [|intros t w' Id'; by apply T].
  intros w' R. eapply idle_rely; [apply keeps_trans|done|done].
Qed.

Lemma tidy_query {R A : Type} (s : bstmt R) (k : R -> bprog (result A)) :
  quiet R s -> (forall r, tidy t0 (k r)) -> tidy t0 (query s k).
Proof. intros Qt T. apply tidy_sql; [done|]. intros [r|]; [done|apply tidy_ret]. Qed.

Lemma tidy_query_known {R A : Type} (s : bstmt R) (k : R -> bprog (result A)) (P : tables -> R -> Prop) :
  quiet R s -> (forall now t r t', run_bstmt local now s t = Some (r, t') -> P t' r) ->
  (forall t1 r, keeps t0 t1 -> P t1 r -> tidy t1 (k r)) -> tidy t0 (query s k).
Proof. intros Qt Ps T. apply (tidy_sql_known s _ P); [done|done|done|apply tidy_ret]. Qed.

Lemma tidy_andThen_query {R A B : Type} (s : bstmt R) (k : R -> bprog (result A)) (f : A -> bprog (result B))
    (P : tables -> R -> Prop) :
  quiet R s -> (forall now t r t', run_bstmt local now s t = Some (r, t') -> P t' r) ->
  (forall t1 r, keeps t0 t1 -> P t1 r -> tidy t1 (andThen (k r) f)) -> tidy t0 (andThen (query s k) f).
Proof.
  intros Qt Ps T.
  apply (tidy_sql_known s (fun r => andThen (match r with Some r => k r | None => Ret (inl ErrStorage) end) f) P);
    [done|done|done|apply tidy_ret].
Qed.

Lemma tidy_andThen {A B : Type} (p : bprog (result A)) (f : A -> bprog (result B)) :
  tidy t0 p -> (forall a, tidy t0 (f a)) -> tidy t0 (andThen p f).
Proof. intros T1 T2. apply tidy_bind; [done|]. intros [e|a]; [apply tidy_ret|done]. Qed.
End Tidy.

Create HintDb tidy discriminated.
Hint Constants Opaque : tidy.
Hint Resolve tidy_ret tidy_sql tidy_ext tidy_now tidy_query : tidy.

(** The programs are followed to their calls. *)
Ltac tidy :=
  repeat first
  [ progress intros
  | match goal with
    | |- tidy _ (match ?x with _ => _ end) => destruct x
    | |- tidy _ (if ?x then _ else _) => destruct x
    | |- tidy _ (let _ := _ in _) => cbv zeta
    end
  | exact I
  | assumption
  | solve [eauto 2 with tidy nocore]
  | apply tidy_now | apply tidy_query | apply tidy_andThen | apply tidy_bind | apply tidy_sql | apply tidy_ext ].

(** ** The repository *)

Lemma transition_moved st now code msg j :
  CanTransitionBatchImageJob (j_Status j) st = true ->
  job_moved (Some (RJob j)) (Some (RJob (transitionJob st now code msg j))).
Proof. intros C. right. exists j, (transitionJob st now code msg j). split; [done|]. split; [done|]. split; [done|]. by right. Qed.

Lemma tidy_transition t0 b st event code msg : tidy t0 (TransitionBatchImageJobStatus b st event code msg).
Proof.
  intros w Id. apply wp_jobTx; [done|]. intros at_ w1 Tx.
  eapply wp_lockJob; [done|done| |intros w2 Tx2; by eapply in_tx_keeps].
  intros status w2 Tx2. destruct (CanTransitionBatchImageJob status st) eqn:C; [cbn [negb]|by eapply in_tx_keeps].
  eapply wp_jobNow; [done|]. intros now w3 Tx3.
  eapply (wp_updateJob b at_ t0 status _ (transitionJob st now code msg)); try done.
  { intros j <-. by apply transition_moved. }
  intros w4 Tx4. eapply wp_event; [done|done|done|]. intros w5 Tx5. eapply job_committable; [done|]. intros P old v [= <-]. done.
Qed.

Lemma tidy_submitJob t0 b params : tidy t0 (UpdateBatchImageJobProviderSubmit b params).
Proof.
  intros w Id. apply wp_jobTx; [done|]. intros at_ w1 Tx.
  eapply wp_lockJob; [done|done| |intros w2 Tx2; by eapply in_tx_keeps].
  intros status w2 Tx2. destruct (CanTransitionBatchImageJob status _) eqn:C; [cbn [negb]|by eapply in_tx_keeps].
  eapply wp_jobNow; [done|]. intros now w3 Tx3.
  eapply (wp_updateJob b at_ t0 status _ (providerSubmitJob now params)); try done.
  { intros j <-. right. eexists j, _. split; [done|]. split; [done|]. split; [done|]. by right. }
  intros w4 Tx4. eapply wp_event; [done|done|done|]. intros w5 Tx5. eapply job_committable; [done|]. intros P old v [= <-]. done.
Qed.

Lemma tidy_replaceItems t0 b success fail : tidy t0 (ReplaceBatchImageItemsForJob b success fail).
Proof.
  intros w Id. apply wp_jobTx; [done|]. intros at_ w1 Tx.
  eapply wp_lockJob; [done|done| |intros w2 Tx2; by eapply in_tx_keeps].
  intros status w2 Tx2. destruct (_ =s _) eqn:C; [cbn [negb]|by eapply in_tx_keeps].
  eapply wp_event; [done|done|done|]. intros w3 Tx3. eapply wp_jobNow; [done|]. intros now w4 Tx4.
  eapply (wp_updateJob b at_ t0 status _
    (fun j => j <| j_SuccessCount := success |> <| j_FailCount := fail |> <| j_UpdatedAt := stored now |>)); try done.
  { intros j _. right. eexists j, _. split; [done|]. split; [done|]. split; [done|]. by left. }
  intros w5 Tx5. eapply job_committable; [done|]. intros P old v [= <-]. done.
Qed.

Lemma tidy_bulkItems t0 b : tidy t0 (BulkCreateBatchImageItems b).
Proof.
  intros w Id. apply wp_jobTx; [done|]. intros at_ w1 Tx.
  eapply (wp_event b at_ t0 None); [done|done|done|]. intros w2 Tx2. by eapply (job_committable b at_ t0 None).
Qed.

(** [UPDATE ... WHERE status = 'settling'] does not need a lock. *)
Lemma tidy_markSettled t0 b cost manifest now expires : tidy t0 (MarkBatchImageJobSettled b cost manifest now expires).
Proof.
  intros w Id. apply wp_jobTx; [done|]. intros at_ w1 Tx.
  eapply (wp_row_sql local unicode_lower i t0 (OpJob b) at_ _ _ _ _ w1 (KJob b) (Z.eqb 1) (fun old v => job_moved old (Some v)));
    [done|done|..].
  - intros rows t r t' Fo Kp E. split; [cbn in *; unfold hits; by rewrite E|]. intros Hr. cbn in E.
    pose proof (follows_view untouched rows t (KJob b) Fo) as V. cbn in V.
    unfold settleStmt in E. destruct (cost10 cost) as [c|]; [cbn in E|done]. destruct (manifestTaken _ _ _); [done|].
    unfold updateJobStmt, job_at in E. rewrite V in E.
    destruct (t !! KJob b) as [[| | | | | |j]|] eqn:Tj; try (by simplify_eq).
    destruct (_ && _) eqn:St; [|by simplify_eq]. apply andb_true_iff in St as [St _]. simplify_eq.
    eexists. split; [apply lookup_insert_eq|]. right. eexists j, _. split; [done|]. split; [done|]. split; [done|].
    right. cbn. apply String.eqb_eq in St. by rewrite St.
  - intros r w2 Hr Tx2. assert (r = 1) as -> by lia. cbn [Z.eqb].
    eapply (wp_event b at_ t0 (Some (fun old v => job_moved old (Some v)))); [done|done|done|].
    intros w3 Tx3. eapply job_committable; [done|]. intros P old v [= <-]. done.
  - intros r w2 rows t' Hr Tx2 Fo Kp E. assert (r = 0) as ->.
    { cbn in E. unfold settleStmt in E. destruct (cost10 _); [cbn in E|done]. destruct (manifestTaken _ _ _); [done|].
      unfold updateJobStmt in E. repeat case_match; by simplify_eq. }
    cbn [Z.eqb]. eapply wp_read_sql; [done|done|done|]. intros [j|] w3 rows3 t3 Tx3 _ _ _; [|by eapply in_tx_keeps].
    repeat case_match; by eapply in_tx_keeps.
Qed.

Hint Resolve tidy_transition tidy_submitJob tidy_replaceItems tidy_bulkItems tidy_markSettled : tidy.

Lemma tidy_append t0 b event : tidy t0 (appendBatchImageEvent b event).
Proof. unfold appendBatchImageEvent. tidy. Qed.
Hint Resolve tidy_append : tidy.

Lemma tidy_get t0 b : tidy t0 (GetBatchImageJobByBatchID b).
Proof. unfold GetBatchImageJobByBatchID, orNotFound. tidy. Qed.

Lemma tidy_getByKey t0 u k key : tidy t0 (GetBatchImageJobByIdempotencyKey u k key).
Proof. unfold GetBatchImageJobByIdempotencyKey, orNotFound. tidy. Qed.

Lemma tidy_getForOwner t0 u k b : tidy t0 (GetBatchImageJobByBatchIDForOwner u k b).
Proof. unfold GetBatchImageJobByBatchIDForOwner, orNotFound. tidy. Qed.

Lemma tidy_failStale t0 b cutoff code msg : tidy t0 (FailStaleUnsubmittedBatchImageJob b cutoff code msg).
Proof. unfold FailStaleUnsubmittedBatchImageJob. tidy. Qed.

Lemma tidy_touch t0 b : tidy t0 (TouchBatchImageJobSubmitting b).
Proof. unfold TouchBatchImageJobSubmitting. tidy. Qed.

Lemma tidy_outputRef t0 b ref : tidy t0 (UpdateBatchImageJobProviderOutputRef b ref).
Proof. unfold UpdateBatchImageJobProviderOutputRef. tidy. Qed.

Lemma tidy_submitFailure t0 b code msg f : tidy t0 (RecordBatchImageJobSubmitFailure b code msg f).
Proof. unfold RecordBatchImageJobSubmitFailure. tidy. Qed.

Lemma tidy_settlementFailed t0 b code msg : tidy t0 (SetBatchImageJobSettlementFailed b code msg).
Proof. unfold SetBatchImageJobSettlementFailed. tidy. Qed.

Lemma tidy_hide t0 u k b : tidy t0 (MarkBatchImageJobUserDeleted u k b).
Proof. unfold MarkBatchImageJobUserDeleted. tidy. Qed.

Hint Resolve tidy_get tidy_getByKey tidy_getForOwner tidy_failStale tidy_touch tidy_outputRef
  tidy_submitFailure tidy_settlementFailed tidy_hide : tidy.

(** *** Jobs that were read *)

Lemma job_known_keeps t t' job : keeps t t' -> job_known t job -> job_known t' job.
Proof.
  intros (_ & _ & Jk) (b & j & E & T). destruct (Jk _ _ E) as (j' & E' & T'). exists b, j'. split; [done|congruence].
Qed.

Lemma tidy_get_known t0 {A : Type} b (f : BatchImageJob -> bprog (result A)) :
  (forall t1 job, keeps t0 t1 -> job_known t1 job -> tidy t1 (f job)) ->
  tidy t0 (andThen (GetBatchImageJobByBatchID b) f).
Proof.
  intros T. apply (tidy_andThen_query t0 (GetJob b) _ f (fun t r => forall job, r = Some job -> job_known t job)); [done|..].
  - intros now t r t' E job ->. cbn in E. injection E as E <-. by exists b, job.
  - intros t1 [job|] Kp Kn; [|apply tidy_ret]. by apply T, Kn.
Qed.

Lemma tidy_owner_known t0 {A : Type} u k b (f : BatchImageJob -> bprog (result A)) :
  (forall t1 job, keeps t0 t1 -> job_known t1 job -> tidy t1 (f job)) ->
  tidy t0 (andThen (GetBatchImageJobByBatchIDForOwner u k b) f).
Proof.
  intros T. apply (tidy_andThen_query t0 (GetJobForOwner b u k) _ f (fun t r => forall job, r = Some job -> job_known t job)); [done|..].
  - intros now t r t' E job ->. cbn in E. injection E as E <-. destruct (job_at t b) as [j|] eqn:J; [|done].
    destruct (visible _ _ _); simplify_eq. by exists b, job.
  - intros t1 [job|] Kp Kn; [|apply tidy_ret]. by apply T, Kn.
Qed.

Lemma tidy_create_known t0 {A : Type} params (f : BatchImageJob -> bprog (result A)) :
  TrimSpace (cj_BatchID params) = cj_BatchID params ->
  (forall t1 job, keeps t0 t1 -> job_known t1 job -> tidy t1 (f job)) ->
  tidy t0 (andThen (CreateBatchImageJob params) f).
Proof.
  intros Tr T. unfold CreateBatchImageJob. destruct (negb _); [apply tidy_ret|].
  assert (E : forall k, andThen (Do (Ext NextJobID) k) f = Do (Ext NextJobID) (fun id => andThen (k id) f)) by done.
  rewrite E. apply tidy_ext. intros [id|]; [|apply tidy_ret]. clear E.
  apply (tidy_andThen_query t0 (InsertJob id params) _ f (fun t r => forall job, r = inr job -> job_known t job)); [done|..].
  - intros now t r t' E job ->. cbn in E. unfold insertJobStmt in E.
    destruct (cost10 (cj_EstimatedCost params)); cbn in E; [|discriminate E].
    destruct (optCost10 _); cbn in E; [|discriminate E]. destruct (cost10 _); cbn in E; [|discriminate E].
    destruct (t !! KJob _); simplify_eq. eexists _, _. split; [apply job_at_Some, lookup_insert_eq|done].
  - intros t1 [e|job] Kp Kn; [apply tidy_ret|]. by apply T, Kn.
Qed.

Lemma insertBy_known t j l : job_known t j -> Forall (job_known t) l -> Forall (job_known t) (insertBy j l).
Proof.
  intros Kn F. induction F as [|a l Ka F IH]; [by constructor|]. cbn. destruct (earlier j a); repeat constructor; done.
Qed.

Lemma staleJobs_known cutoff limit t : Forall (job_known t) (staleJobs cutoff limit t).
Proof.
  unfold staleJobs. apply Forall_take.
  assert (F : Forall (job_known t) (all_jobs t)).
  { apply Forall_forall. unfold all_jobs. intros job X. apply list_elem_of_omap in X as ([k r] & E & X).
    apply elem_of_map_to_list in E. destruct k; try done. destruct r; try done. simplify_eq.
    exists batchID, job. by rewrite job_at_Some. }
  assert (G : Forall (job_known t) (List.filter
    (fun j => staleJob cutoff j && (0 <? default (j_EstimatedCost j) (j_HoldAmount j))) (all_jobs t))).
  { induction F as [|j l Kj F IH]; [constructor|]. cbn. destruct (_ && _); [by constructor|done]. }
  induction G as [|j l Kj G IH]; [constructor|]. by apply insertBy_known.
Qed.

(** ** Holds *)

Lemma build_known t0 job rid actual payload cmd :
  job_known t0 job -> buildBatchImageHoldCommand job rid actual payload = inr cmd ->
  exists b j, job_at t0 b = Some j /\ terms_of j (NormalizeHold cmd) /\ h_RequestID (NormalizeHold cmd) = TrimSpace rid /\
    j_BatchID j = j_BatchID job.
Proof.
  intros (b & j & E & T) B. exists b, j. split; [done|]. unfold buildBatchImageHoldCommand in B.
  destruct (j_APIKeyID job) as [ak|] eqn:Ak; [|done]. destruct (ak <=? 0); [done|]. injection B as <-.
  unfold batch_terms in T. injection T as Tb Tu Tk _ _ _ _ T1 T2 _ _ _ _ _.
  assert (Hd : HoldAmount j = HoldAmount job) by (unfold HoldAmount; by rewrite T1, T2).
  unfold terms_of. rewrite Tb, Tu, Tk, Ak, Hd. unfold NormalizeHold. by destruct (_ =s _).
Qed.

Lemma tidy_reserveHold t0 job h : job_known t0 job -> tidy t0 (reserveBatchImageBalanceHold job h).
Proof.
  intros Kn. unfold reserveBatchImageBalanceHold. destruct (buildBatchImageHoldCommand _ _ _ _) as [e|cmd] eqn:B; [apply tidy_ret|].
  destruct (fle _ _); [apply tidy_ret|]. apply tidy_bind; [|intros [[]|]; apply tidy_ret].
  intros w Id. apply wp_hold; [|intros _|done]; [intros c at_ w'; apply wp_reserveWork|].
  destruct (build_known _ _ _ _ _ _ Kn B) as (b & j & E & T & R & Eb). exists b, j. rewrite <-Eb in R. done.
Qed.

Lemma tidy_captureHold t0 job a h : job_known t0 job -> tidy t0 (captureBatchImageBalanceHold job a h).
Proof.
  intros Kn. unfold captureBatchImageBalanceHold. destruct (buildBatchImageHoldCommand _ _ _ _) as [e|cmd] eqn:B; [apply tidy_ret|].
  apply tidy_bind; [|intros [[]|]; apply tidy_ret].
  intros w Id. apply wp_hold; [|intros _|done]; [intros c at_ w'; apply wp_captureWork|].
  destruct (build_known _ _ _ _ _ _ Kn B) as (b & j & E & T & R & Eb). exists b, j. rewrite <-Eb in R. done.
Qed.

Lemma tidy_releaseHold t0 job h : job_known t0 job -> tidy t0 (releaseBatchImageBalanceHold job h).
Proof.
  intros Kn. unfold releaseBatchImageBalanceHold. destruct (buildBatchImageHoldCommand _ _ _ _) as [e|cmd] eqn:B; [apply tidy_ret|].
  destruct (fle _ _); [apply tidy_ret|]. apply tidy_bind; [|intros [[]|]; apply tidy_ret].
  intros w Id. apply wp_hold; [|intros _|done]; [intros c at_ w'; apply wp_releaseWork|].
  destruct (build_known _ _ _ _ _ _ Kn B) as (b & j & E & T & R & Eb). exists b, j. rewrite <-Eb in R. done.
Qed.

Hint Resolve tidy_reserveHold tidy_captureHold tidy_releaseHold : tidy.

Lemma tidy_cleanupRounds t0 fuel size cutoff : tidy t0 (cleanupRounds fuel size cutoff).
Proof. induction fuel as [|n IH]; [apply tidy_ret|]. cbn. tidy. Qed.

(** ** The services *)

Context (errorText : job_error -> string) (retentionHours : Z).

Section Known.
Context (t0 : tables) (job : BatchImageJob) (there : job_known t0 job).

Lemma there_as j : batch_terms j = batch_terms job -> job_known t0 j.
Proof. intros T. destruct there as (b & j0 & E & T0). exists b, j0. split; [done|congruence]. Qed.

Lemma tidy_failExhausted j msg : batch_terms j = batch_terms job -> tidy t0 (failExhaustedSettlement errorText j msg).
Proof. intros T%there_as. unfold failExhaustedSettlement. tidy. Qed.

Lemma tidy_recordFailure code msg : tidy t0 (recordSettlementFailure errorText job code msg).
Proof.
  unfold recordSettlementFailure. apply tidy_bind; [tidy|]. intros [e|n]; [tidy|]. destruct (_ <=? _); [|tidy].
  apply tidy_bind; [by apply tidy_failExhausted|tidy].
Qed.
Hint Resolve tidy_recordFailure : tidy.

Lemma tidy_failSettlement {A : Type} code msg e : tidy t0 (failSettlement errorText (A := A) job code msg e).
Proof. unfold failSettlement. tidy. Qed.

Lemma tidy_settleCaptured r c m : tidy t0 (settleCaptured errorText retentionHours job r c m).
Proof.
  unfold settleCaptured. apply tidy_bind; [tidy|]. intros [e|[]]; [apply tidy_failSettlement|tidy].
Qed.

Lemma tidy_terminalHold j : batch_terms j = batch_terms job -> tidy t0 (terminalHoldReleased j).
Proof. intros T%there_as. unfold terminalHoldReleased, releaseTerminalHold. tidy. Qed.

Lemma tidy_releaseFailed j h : batch_terms j = batch_terms job -> tidy t0 (releaseFailedSubmitHold errorText j h).
Proof. intros T%there_as. unfold releaseFailedSubmitHold, enqueueBillingRetry. tidy. Qed.

Lemma tidy_Index j : tidy t0 (Index j).
Proof. unfold Index. tidy. Qed.
Hint Resolve tidy_Index : tidy.

Lemma tidy_indexAndSettle j : batch_terms j = batch_terms job -> tidy t0 (indexAndSettle errorText j).
Proof.
  intros T. assert (forall st, tidy t0 (terminalHoldReleased (j <| j_Status := st |>))) by (intros; by apply tidy_terminalHold).
  unfold indexAndSettle. tidy.
Qed.

Lemma tidy_processStatus j st : batch_terms j = batch_terms job -> tidy t0 (processStatus errorText j st).
Proof.
  intros T. pose proof (tidy_indexAndSettle j T).
  assert (forall st, tidy t0 (terminalHoldReleased (j <| j_Status := st |>))) by (intros; by apply tidy_terminalHold).
  assert (forall st, tidy t0 (indexAndSettle errorText (j <| j_Status := st |>))) by (intros; by apply tidy_indexAndSettle).
  unfold processStatus, providerFailed. tidy.
Qed.
End Known.

Lemma tidy_unitPrice t0 job : tidy t0 (settlementUnitPrice job).
Proof. unfold settlementUnitPrice. tidy. Qed.
Hint Resolve tidy_unitPrice : tidy.

Lemma tidy_Settle t0 b : tidy t0 (Settle errorText retentionHours b).
Proof.
  unfold Settle. apply tidy_get_known. intros t1 job Kp Kn. cbv zeta.
  repeat (match goal with |- tidy _ (if ?c then _ else _) => destruct c end; [try by tidy|]);
    try (by apply (tidy_failSettlement t1 job)).
  all: tidy.
Qed.
Hint Resolve tidy_Settle : tidy.

Lemma tidy_releaseStale t0 cutoff jobs n e : Forall (job_known t0) jobs -> tidy t0 (releaseStale cutoff jobs n e).
Proof.
  intros F. revert n e. induction F as [|job jobs Kn F IH]; intros n e; [apply tidy_ret|]. cbn [releaseStale].
  assert (forall st h, tidy t0 (releaseBatchImageBalanceHold (job <| j_Status := st |>) h)).
  { intros st h. apply tidy_releaseHold. by apply (there_as t0 job). }
  tidy.
Qed.

Lemma tidy_recovery t0 staleAfter limit : tidy t0 (ReleaseStaleUnsubmittedOnce staleAfter limit).
Proof.
  unfold ReleaseStaleUnsubmittedOnce. cbv zeta. apply tidy_now. intros now.
  apply (tidy_query_known t0 (ListStaleJobs _ _) _ (fun t r => Forall (job_known t) r)); [done|..].
  - intros at_ t r t' E. cbn in E. injection E as <- <-. apply staleJobs_known.
  - intros t1 jobs Kp F. apply tidy_bind; [by apply tidy_releaseStale|tidy].
Qed.

Lemma tidy_ProcessProvider t0 b : tidy t0 (ProcessProvider errorText b).
Proof.
  unfold ProcessProvider. apply tidy_get_known. intros t1 job Kp Kn.
  pose proof (tidy_terminalHold t1 job Kn job eq_refl). pose proof (tidy_indexAndSettle t1 job Kn job eq_refl).
  assert (P : forall j st, batch_terms j = batch_terms job -> tidy t1 (processStatus errorText j st)).
  { intros j st. by apply tidy_processStatus. }
  assert (forall st ref, tidy t1 (andThen (persistProviderOutputRef job ref) (fun job => processStatus errorText job st))).
  { intros st ref w Id. apply tx_bind. unfold persistProviderOutputRef. cbv zeta. destruct (_ || _); [by apply P|].
    apply tx_bind. eapply tx_mono; [|by apply (tidy_outputRef t1)]. intros [e|[]] w' Id'; [done|]. by apply P. }
  tidy.
Qed.
Hint Resolve tidy_ProcessProvider : tidy.

Lemma tidy_Process t0 b : tidy t0 (Process errorText retentionHours b).
Proof. unfold Process. tidy. Qed.

Lemma tidy_enqueueRetry t0 b : tidy t0 (enqueueBillingRetry b).
Proof. unfold enqueueBillingRetry. tidy. Qed.
Hint Resolve tidy_enqueueRetry : tidy.

Lemma tidy_Cancel t0 u k b : tidy t0 (Cancel u k b).
Proof. unfold Cancel. apply tidy_owner_known. intros t1 job Kp Kn. cbv zeta. tidy. Qed.

Lemma tidy_abandon t0 {A : Type} s job code msg e : tidy t0 (abandon (A := A) s job code msg e).
Proof. unfold abandon, hidePreUpstreamSubmitFailure. tidy. Qed.
Hint Resolve tidy_abandon : tidy.

Lemma tidy_enqueueSubmitted t0 b k : tidy t0 k -> tidy t0 (enqueueSubmitted errorText b k).
Proof. unfold enqueueSubmitted. intros T. tidy. Qed.
Hint Resolve tidy_enqueueSubmitted : tidy.

Lemma tidy_releaseAndAbandon t0 {A : Type} s job code msg e :
  job_known t0 job -> tidy t0 (releaseAndAbandon errorText (A := A) s job code msg e).
Proof. intros Kn. pose proof (fun h => tidy_releaseFailed t0 job Kn job h eq_refl). unfold releaseAndAbandon. tidy. Qed.
Hint Resolve tidy_releaseAndAbandon : tidy.

Lemma tidy_submitToProvider t0 s job : job_known t0 job -> tidy t0 (submitToProvider errorText s job).
Proof. intros Kn. unfold submitToProvider, abortOrphanProviderJob. tidy. Qed.

Lemma tidy_submitNew t0 s : TrimSpace (sub_BatchID s) = sub_BatchID s -> tidy t0 (submitNew errorText s).
Proof.
  intros Tr. unfold submitNew. apply tidy_create_known; [done|]. intros t1 job Kp Kn.
  pose proof (fun h => tidy_releaseFailed t1 job Kn job h eq_refl).
  assert (forall st, tidy t1 (submitToProvider errorText s (job <| j_Status := st |>))).
  { intros st. apply tidy_submitToProvider. by apply (there_as t1 job). }
  tidy.
Qed.

Lemma tidy_Submit t0 s : TrimSpace (sub_BatchID s) = sub_BatchID s -> tidy t0 (Submit errorText s).
Proof. intros Tr. pose proof (tidy_submitNew t0 s Tr). unfold Submit. tidy. Qed.
End Jobs.
