(* ===== verification/BillingMachine.v ===== *)
(** * Runs of usage billing

    The entry points of the program as threads of the machine of [Transactions.v]: charges
    ([Apply]), the retention of claims, and everything that submits, processes, settles,
    cancels or recovers batches of images. *)

From Stdlib Require Import SpecFloat.
From S2P Require Import Prelude GoStrings GoStringsFacts GoFloat GoTime GoCrypto Programs Transactions BillingTables UsageBilling BatchImages BillingSpec UsageBillingProofs BatchImagesProofs.

#[local] Open Scope Z_scope.

Section Runs.
Context `{Subscriptions.Postgres} `{PgEnv} (local : Location) (unicode_lower : string -> string).
Context (errorText : job_error -> string) (retentionHours : Z).

#[local] Existing Instance billing_database.
#[local] Instance db : Database bkey brow bstmt := billing_database local.

Notation lawful := (lawful local unicode_lower).
Notation world := (@world bkey brow _ _ bill_op bstmt bext).
Notation event := (@event bkey brow _ _ bill_op bstmt).

(** The result of a handler goes to its client. *)
Definition serve {A : Type} (p : bprog A) : bprog unit := let! _r := p in Ret tt.

Inductive entry :=
  | EApply (cmd : UsageBillingCommand)
  | ECleanup (fuel : nat) (cutoff : Z)
  | ESubmit (s : submission)
  | ETouch (batchID : string)
  | EProcess (batchID : string)
  | ESettle (batchID : string)
  | ECancel (userID apiKeyID : Z) (batchID : string)
  | ERecover (staleAfter limit : Z).

Definition program_of (e : entry) : bprog unit :=
  match e with
  | EApply cmd => serve (Apply unicode_lower cmd)
  | ECleanup fuel cutoff => serve (CleanupUsageBillingDedup fuel cutoff)
  | ESubmit s => serve (Submit errorText s)
  | ETouch b => serve (TouchBatchImageJobSubmitting b)
  | EProcess b => serve (Process errorText retentionHours b)
  | ESettle b => serve (Settle errorText retentionHours b)
  | ECancel u k b => serve (Cancel u k b)
  | ERecover staleAfter limit => serve (ReleaseStaleUnsubmittedOnce staleAfter limit)
  end.

(** A request is charged for a key that authenticated it, so the key has a row; the identifier
    of a new batch ([NewBatchImageID]) has no spaces around it. *)
Definition allowed (t : tables) (e : entry) : bool :=
  match e with
  | EApply cmd => found (key_at t (APIKeyID cmd))
  | ESubmit s => TrimSpace (sub_BatchID s) =s sub_BatchID s
  | _ => true
  end.

Definition handler (t : tables) (p : bprog unit) : Prop := exists e, allowed t e = true /\ p = program_of e.

Definition start (clock : Z) (t0 : tables) : world := MkWorld clock t0 ∅ [] [].

Definition billing_step : world -> world -> Prop := step handler outside.

(** From the tables [t0] the machine can come to [w]. *)
Definition reaches (t0 : tables) (w : world) : Prop := exists clock, rtc billing_step (start clock t0) w.

Lemma handlers_ok i p (w : world) :
  handler (w_table w) p -> w_txs w !! i = None -> wp keeps lawful quiet i p anything w.
Proof.
  intros Hp Tx. assert (Id : idle keeps i (w_table w) w) by (split; [done|apply keeps_refl]).
  assert (T : forall A (p : bprog A), tidy local unicode_lower i (w_table w) p -> wp keeps lawful quiet i (serve p) anything w).
  { intros A q Tq. apply tx_bind. eapply tx_mono; [|by apply Tq]. done. }
  destruct Hp as (e & Al & ->). destruct e; apply T; cbn in Al.
  - intros w' Id'. apply wp_Apply; [|done]. by destruct (key_at _ _).
  - apply tidy_cleanupRounds.
  - apply tidy_Submit. by apply String.eqb_eq.
  - apply tidy_touch.
  - apply tidy_Process.
  - apply tidy_Settle.
  - apply tidy_Cancel.
  - apply tidy_recovery.
Qed.

Lemma reaches_good t0 (w : world) : reaches t0 w -> good keeps outside lawful quiet t0 w.
Proof.
  intros [clock R]. eapply reachable_good; [apply keeps_refl|apply keeps_trans|apply keeps_outside|apply keeps_lawful| |apply handlers_ok|done].
  intros R' at_ s t r u. apply keeps_quiet.
Qed.

Notation event_ok := (event_ok outside lawful quiet).

(** The operations that were committed, in order. *)
Definition committed (l : list event) : list bill_op :=
  omap (fun e => match ev_label e with ByTx o _ => Some o | _ => None end) l.

Definition requests (l : list event) : list (string * Z) := omap request_of (committed l).

(** ** Requests *)

Lemma event_keeps (e : event) : event_ok e -> keeps (ev_before e) (ev_after e).
Proof.
  unfold Transactions.event_ok. destruct (ev_label e) as [o at_|R s at_|].
  - apply keeps_lawful.
  - intros [Qt [r E]]. by apply (keeps_quiet local R at_ s _ r).
  - apply keeps_outside.
Qed.

Lemma lawful_claims o at_ (t t' : tables) c :
  lawful o at_ t t' -> request_of o = Some c -> ~ claimed t c /\ claimed t' c.
Proof.
  intros [E _] Ro. specialize (E (KClaim c)). cbn in E. rewrite decide_True in E by done.
  destruct E as [Old New]. unfold claimed, claim_at. rewrite New. cbn. split; [|by left].
  assert (X : match t !! KClaim c with Some (RClaim r) => r | _ => MkClaim None None end = MkClaim None None) by done.
  rewrite X. cbn. by intros [|].
Qed.

Lemma requests_snoc l (e : event) :
  requests (l ++ [e]) = requests l ++ match ev_label e with ByTx o _ => option_list (request_of o) | _ => [] end.
Proof.
  unfold requests, committed. rewrite omap_app, omap_app. f_equal. cbn. destruct (ev_label e) as [o at_| |]; [cbn|done..].
  by destruct (request_of o).
Qed.

Lemma chain_requests t0 l t :
  chain t0 l t -> Forall event_ok l ->
  NoDup (requests l) /\ (forall c, claimed t0 c -> claimed t c) /\
  forall c, c ∈ requests l -> ~ claimed t0 c /\ claimed t c.
Proof.
  induction 1 as [t|t0 l e C IH]; intros F.
  - split; [constructor|]. split; [done|]. intros c E. by apply elem_of_nil in E.
  - apply Forall_app in F as [F1 F2]. rewrite Forall_singleton in F2. destruct (IH F1) as (ND & Old & In).
    pose proof (event_keeps e F2) as (Kc & _). rewrite requests_snoc.
    assert (New : forall c, c ∈ match ev_label e with ByTx o _ => option_list (request_of o) | _ => [] end ->
      ~ claimed (ev_before e) c /\ claimed (ev_after e) c).
    { unfold Transactions.event_ok in F2. destruct (ev_label e) as [o at_| |]; [|by intros c X%elem_of_nil..].
      intros c X. destruct (request_of o) eqn:Ro; [|by apply elem_of_nil in X].
      apply list_elem_of_singleton in X as ->. by eapply lawful_claims. }
    split; [|split; [auto|]].
    + apply NoDup_app. split; [done|]. split.
      * intros c X Y. destruct (New c Y) as [N _]. by apply N, In.
      * destruct (ev_label e); try constructor. cbn. destruct (request_of o); [apply NoDup_singleton|constructor].
    + intros c [X|X]%elem_of_app.
      * destruct (In c X). auto.
      * destruct (New c X) as [N Y]. split; [auto|done].
Qed.
End Runs.
