(* ===== verification/BillingSafety.v ===== *)
(** * What holds of every run of usage billing

    Whatever runs at the same time, whatever fails or is lost: every committed change is a
    lawful operation, no request is billed twice, the balances of a user are accounted for,
    and all operations on the hold of a batch are on the same terms. *)

From Stdlib Require Import SpecFloat.
From S2P Require Import Prelude GoStrings GoStringsFacts GoFloat GoTime GoCrypto Programs Transactions BillingTables UsageBilling BatchImages BillingSpec UsageBillingProofs BatchImagesProofs BillingMachine.

#[local] Open Scope Z_scope.

(** Values that come from distinct places of a list are distinct if the list of them is. *)
Lemma NoDup_omap_lookup {A B : Type} (f : A -> option B) (l : list A) n1 n2 x y :
  NoDup (omap f l) -> l !! n1 = Some x -> l !! n2 = Some y -> is_Some (f x) -> f x = f y -> n1 = n2.
Proof.
  revert n1 n2. induction l as [|a l IH]; [done|]. intros n1 n2 ND L1 L2 [b Fx] E. cbn in ND.
  assert (In : forall n z, l !! n = Some z -> f z = Some b -> b ∈ omap f l).
  { intros n z L F. apply list_elem_of_omap. exists z. split; [by eapply list_elem_of_lookup_2|done]. }
  destruct n1 as [|n1], n2 as [|n2]; [done|..]; cbn in L1, L2; simplify_eq.
  - rewrite Fx in ND. apply NoDup_cons in ND as [N _]. destruct N. apply (In n2 y L2). by rewrite <-E.
  - assert (F : f y = Some b) by congruence. rewrite F in ND. apply NoDup_cons in ND as [N _]. destruct N. by apply (In n1 x L1).
  - f_equal. apply (IH n1 n2); try done. destruct (f a); [by apply NoDup_cons in ND as [_ ?]|done].
Qed.

Section Safety.
Context `{Subscriptions.Postgres} `{PgEnv} (local : Location) (unicode_lower : string -> string).
Context (errorText : job_error -> string) (retentionHours : Z).

#[local] Existing Instance billing_database.
#[local] Instance db : Database bkey brow bstmt := billing_database local.

Notation lawful := (lawful local unicode_lower).
Notation world := (@world bkey brow _ _ bill_op bstmt bext).
Notation event := (@event bkey brow _ _ bill_op bstmt).
Notation reaches := (reaches local unicode_lower errorText retentionHours).
Notation event_ok := (event_ok outside lawful quiet).

(** ** Balances *)

Definition balance (t : tables) (id : Z) : money8 := match user_at t id with Some u => u_balance u | None => 0 end.
Definition frozen (t : tables) (id : Z) : money8 := match user_at t id with Some u => u_frozen_balance u | None => 0 end.

(** Whether an operation is for the money of a user. *)
Definition concerns (id : Z) (o : bill_op) : bool := match moves o with Some (uid, _, _) => uid =? id | None => false end.

(** What an event adds to the balance and to the frozen balance of a user, before rounding.  A
    release adds nothing if nothing was held. *)
Definition posted (id : Z) (e : event) : amount * amount :=
  let before := (balance (ev_before e) id, frozen (ev_before e) id) in
  let after := (balance (ev_after e) id, frozen (ev_after e) id) in
  match ev_label e with
  | ByTx o _ =>
    match moves o with
    | Some (uid, d, f) => if (uid =? id) && negb (skippable o && bool_decide (after = before)) then (d, f) else (0, 0)
    | None => (0, 0)
    end
  | ByStmt _ _ => (0, 0)
  | ByOthers => ((after.1 - before.1) * unit8, (after.2 - before.2) * unit8)
  end.

Definition total (id : Z) (l : list event) : amount * amount :=
  foldr (fun e s => ((posted id e).1 + s.1, (posted id e).2 + s.2)) (0, 0) l.

(** The operations that can have been rounded. *)
Definition rounded (id : Z) (l : list event) : Z :=
  Z.of_nat (length (List.filter (concerns id) (committed l))).

Lemma total_snoc id l e :
  total id (l ++ [e]) = ((total id l).1 + (posted id e).1, (total id l).2 + (posted id e).2).
Proof.
  unfold total. induction l as [|a l IH]; cbn in *; [f_equal; lia|]. rewrite IH. cbn. f_equal; lia.
Qed.

Lemma rounded_snoc id l e :
  rounded id (l ++ [e]) = rounded id l + match ev_label e with ByTx o _ => if concerns id o then 1 else 0 | _ => 0 end.
Proof.
  unfold rounded, committed. rewrite omap_app, List.filter_app, length_app. cbn.
  destruct (ev_label e) as [o at_| |]; cbn; [|lia..]. destruct (concerns id o); cbn; lia.
Qed.

Lemma user_same (t t' : tables) id : t' !! KUser id = t !! KUser id -> balance t' id = balance t id /\ frozen t' id = frozen t id.
Proof. unfold balance, frozen, user_at. by intros ->. Qed.

(** One operation: what it posts, up to half a unit of the columns. *)
Lemma moved_rounds d f (t t' : tables) id :
  moved d f (t !! KUser id) (t' !! KUser id) ->
  2 * Z.abs ((balance t' id - balance t id) * unit8 - d) <= unit8 /\
  2 * Z.abs ((frozen t' id - frozen t id) * unit8 - f) <= unit8.
Proof.
  intros (u & b & z & Old & _ & Cb & Cz & New). unfold balance, frozen, user_at. rewrite Old, New. cbn.
  apply column_Some in Cb. pose proof (roundTo_bound unit8 (u_balance u * unit8 + d) unit8_pos). pose proof unit8_pos.
  split; [rewrite Cb; nia|]. destruct (Z.eqb_spec f 0) as [->|Nf]; [subst z; lia|].
  apply column_Some in Cz. pose proof (roundTo_bound unit8 (u_frozen_balance u * unit8 + f) unit8_pos). rewrite Cz. nia.
Qed.

Lemma event_accounts id (e : event) :
  event_ok e ->
  let slack := match ev_label e with ByTx o _ => if concerns id o then 1 else 0 | _ => 0 end in
  2 * Z.abs ((balance (ev_after e) id - balance (ev_before e) id) * unit8 - (posted id e).1) <= slack * unit8 /\
  2 * Z.abs ((frozen (ev_after e) id - frozen (ev_before e) id) * unit8 - (posted id e).2) <= slack * unit8.
Proof.
  unfold Transactions.event_ok, posted. destruct (ev_label e) as [o at_|R s at_|]; cbn.
  - intros [E _]. specialize (E (KUser id)). cbn in E. unfold user_effect in E. unfold concerns.
    assert (Same : ev_after e !! KUser id = ev_before e !! KUser id -> forall s, 0 <= s ->
      2 * Z.abs ((balance (ev_after e) id - balance (ev_before e) id) * unit8 - 0) <= s * unit8 /\
      2 * Z.abs ((frozen (ev_after e) id - frozen (ev_before e) id) * unit8 - 0) <= s * unit8).
    { intros X s Ps. destruct (user_same _ _ _ X) as [-> ->]. pose proof unit8_pos. nia. }
    destruct (moves o) as [[[uid d] f]|]; [|by apply Same]. destruct (uid =? id); [|by apply Same]. cbn.
    destruct E as [[M _]|[Sk New]].
    + destruct (skippable o && _) eqn:B; cbn; [|by rewrite !Z.mul_1_l; apply moved_rounds].
      apply andb_true_iff in B as [_ B%bool_decide_eq_true]. injection B as -> ->. pose proof unit8_pos. lia.
    + rewrite Sk. destruct (user_same _ _ _ New) as [Eb Ef]. rewrite bool_decide_true by congruence. cbn. by apply Same.
  - intros [Qt [r E]]. pose proof (quiet_frame local R at_ s _ r _ (KUser id) Qt E) as X. cbn in X.
    destruct (user_same _ _ _ X) as [-> ->]. lia.
  - intros _. lia.
Qed.

Lemma chain_accounts t0 l t id :
  chain t0 l t -> Forall event_ok l ->
  2 * Z.abs ((balance t id - balance t0 id) * unit8 - (total id l).1) <= rounded id l * unit8 /\
  2 * Z.abs ((frozen t id - frozen t0 id) * unit8 - (total id l).2) <= rounded id l * unit8.
Proof.
  induction 1 as [t|t0 l e C IH]; intros F; [cbn; rewrite !Z.sub_diag; done|].
  apply Forall_app in F as [F1 F2]. rewrite Forall_singleton in F2. destruct (IH F1) as [A1 A2].
  destruct (event_accounts id e F2) as [B1 B2]. rewrite total_snoc, rounded_snoc. cbn. lia.
Qed.

(** ** Frozen balances *)

Definition frozen_ok (t : tables) : Prop := forall id u, user_at t id = Some u -> 0 <= u_frozen_balance u.

Lemma user_at_Some (t : tables) id u : user_at t id = Some u <-> t !! KUser id = Some (RUser u).
Proof. unfold user_at. split; [|by intros ->]. repeat case_match; intros; by simplify_eq. Qed.

(** A number that is not at most zero is above zero. *)
Lemma above_zero x a : fle x fzero = false -> decimal_of x = Some a -> flt fzero x = true.
Proof.
  intros L D. destruct (IsNaN x) eqn:N; [by rewrite decimal_number in D|]. by destruct x as [[]|[]| |[]].
Qed.

Lemma moved_frozen o id (t t' : tables) d f :
  moves o = Some (id, d, f) -> moved d f (t !! KUser id) (t' !! KUser id) -> covered o (t !! KUser id) ->
  (forall u, user_at t id = Some u -> 0 <= u_frozen_balance u) ->
  forall u, user_at t' id = Some u -> 0 <= u_frozen_balance u.
Proof.
  intros Mv (u & b & z & Old & _ & Cb & Cz & New) Cov Ok u' X. apply user_at_Some in X. rewrite New in X. simplify_eq. cbn.
  assert (P : 0 <= u_frozen_balance u) by (apply Ok; by rewrite user_at_Some). rewrite Old in Cov.
  destruct (Z.eqb_spec f 0) as [->|Nf]; [by subst z|]. apply column_Some in Cz. rewrite Cz.
  apply roundTo_nonneg; [apply unit8_pos|]. pose proof unit8_pos.
  destruct o as [cmd|cmd|cmd|cmd|bb]; cbn in Mv.
  - destruct (flt _ _); [|done]. destruct (decimal_of _); by simplify_eq/=.
  - destruct (fle _ _) eqn:L; [done|]. destruct (decimal_of _) as [h|] eqn:D; simplify_eq/=.
    pose proof (decimal_pos _ _ (above_zero _ _ L D) D). nia.
  - destruct (_ && _); [done|]. destruct (decimal_of (h_HoldAmount cmd)) as [h|] eqn:D; [|done].
    destruct (decimal_of (h_ActualAmount cmd)); simplify_eq/=. pose proof (Cov _ D). lia.
  - destruct (fle _ _) eqn:L; [done|]. destruct (decimal_of _) as [h|] eqn:D; simplify_eq/=. pose proof (Cov _ D). lia.
  - done.
Qed.

Lemma event_frozen (e : event) : event_ok e -> frozen_ok (ev_before e) -> frozen_ok (ev_after e).
Proof.
  unfold Transactions.event_ok. intros E Ok id u X.
  assert (Same : ev_after e !! KUser id = ev_before e !! KUser id -> 0 <= u_frozen_balance u).
  { intros Y. apply (Ok id). apply user_at_Some. rewrite <-Y. by apply user_at_Some. }
  destruct (ev_label e) as [o at_|R s at_|].
  - destruct E as [E _]. specialize (E (KUser id)). cbn in E. unfold user_effect in E.
    destruct (moves o) as [[[uid d] f]|] eqn:Mv; [|by apply Same].
    destruct (Z.eqb_spec uid id) as [->|]; [|by apply Same].
    destruct E as [[M Cov]|[_ New]]; [|by apply Same]. eapply (moved_frozen o id (ev_before e) (ev_after e) d f); [done|done|done|apply Ok|done].
  - destruct E as [Qt [r E]]. apply Same. exact (quiet_frame local R at_ s _ r _ (KUser id) Qt E).
  - destruct E as (_ & _ & _ & Fr). destruct (Fr id u X) as [?|(u0 & X0 & ->)]; [done|by apply (Ok id)].
Qed.

Lemma chain_frozen t0 l t : chain t0 l t -> Forall event_ok l -> frozen_ok t0 -> frozen_ok t.
Proof.
  induction 1 as [t|t0 l e C IH]; intros F Ok; [done|].
  apply Forall_app in F as [F1 F2]. rewrite Forall_singleton in F2. by apply event_frozen; [|apply IH].
Qed.

(** ** Batches *)

(** A job is stored under its identifier, which has no spaces around it. *)
Definition keyed (t : tables) : Prop := forall b j, job_at t b = Some j -> j_BatchID j = b /\ TrimSpace b = b.

Lemma terms_batch j j' : batch_terms j' = batch_terms j -> j_BatchID j' = j_BatchID j.
Proof. unfold batch_terms. by intros [= ->]. Qed.

Lemma moved_keyed t u : (forall b, job_moved (t !! KJob b) (u !! KJob b)) -> keyed t -> keyed u.
Proof.
  intros M Ky b j X. apply job_at_Some in X. destruct (M b) as [Same|(j0 & j' & Old & New & T & _)].
  - apply Ky. apply job_at_Some. congruence.
  - rewrite New in X. injection X as <-. rewrite (terms_batch _ _ T). apply Ky. by apply job_at_Some.
Qed.

Lemma update_keyed bid p f (t t' : tables) r :
  (forall j, batch_terms (f j) = batch_terms j) -> updateJobStmt bid p f t = Some (r, t') -> keyed t -> keyed t'.
Proof.
  intros T E Ky b j X. unfold updateJobStmt in E. destruct (job_at t bid) as [j0|] eqn:J0; [|simplify_eq; by apply Ky].
  destruct (p j0); simplify_eq; [|by apply Ky]. apply job_at_Some in X. destruct (decide (b = bid)) as [->|N].
  - rewrite lookup_insert_eq in X. injection X as <-. rewrite (terms_batch _ _ (T j0)). by apply Ky.
  - rewrite lookup_insert_ne in X by congruence. apply Ky. by apply job_at_Some.
Qed.

Lemma quiet_keyed R at_ (s : bstmt R) t r u :
  quiet R s -> run_bstmt local at_ s t = Some (r, u) -> keyed t -> keyed u.
Proof.
  intros Qt E Ky. destruct s; try done; cbn in E; try (by injection E as <- <-);
    try (eapply update_keyed; [|exact E|done]; intros; done).
  - intros b j X. apply Ky. rewrite job_at_Some in X |- *. rewrite <-X. symmetry.
    eapply (run_bstmt_frame local _ at_ (ArchiveBatch cutoff limit)); [exact E|].
    cbn. intros Y. apply elem_of_list_to_set, list_elem_of_fmap in Y as (c & Y & _). done.
  - unfold insertJobStmt in E. destruct (cost10 (cj_EstimatedCost p)); cbn in E; [|discriminate E].
    destruct (optCost10 _); cbn in E; [|discriminate E]. destruct (cost10 _); cbn in E; [|discriminate E].
    destruct (t !! KJob _) eqn:X; [by simplify_eq|]. simplify_eq. intros b j Y%job_at_Some. unfold set_job in Y. cbn in Y.
    destruct (decide (b = cj_BatchID p)) as [->|N].
    + rewrite lookup_insert_eq in Y. injection Y as <-. done.
    + rewrite lookup_insert_ne in Y by congruence. apply Ky. by apply job_at_Some.
  - unfold settlementFailedStmt in E. destruct (job_at t batchID) as [j0|] eqn:J0; simplify_eq; [|done].
    intros b j X%job_at_Some. destruct (decide (b = batchID)) as [->|N].
    + rewrite lookup_insert_eq in X. injection X as <-. cbn. by apply Ky.
    + rewrite lookup_insert_ne in X by congruence. apply Ky. by apply job_at_Some.
Qed.

Lemma event_keyed (e : event) : event_ok e -> keyed (ev_before e) -> keyed (ev_after e).
Proof.
  unfold Transactions.event_ok. destruct (ev_label e) as [o at_|R s at_|].
  - intros [E _]. apply moved_keyed. intros b. specialize (E (KJob b)). cbn in E. unfold job_effect in E.
    destruct o; try by left. case_test; [done|by left].
  - intros [Qt [r E]]. by apply (quiet_keyed R at_ s _ r).
  - intros (_ & _ & M & _). by apply moved_keyed.
Qed.

(** The jobs for which holds were moved are still there. *)
Lemma chain_known t0 l t :
  chain t0 l t -> Forall event_ok l -> keyed t0 -> keyed t /\ forall o, o ∈ committed l -> known t o.
Proof.
  induction 1 as [t|t0 l e C IH]; intros F Ky; [split; [done|]; intros o X; by apply elem_of_nil in X|].
  apply Forall_app in F as [F1 F2]. rewrite Forall_singleton in F2. destruct (IH F1 Ky) as [Ky1 Kn].
  split; [by apply event_keyed|]. intros o. unfold committed. rewrite omap_app, elem_of_app.
  pose proof (event_keeps local unicode_lower e F2) as Kp. intros [X|X].
  - eapply known_keeps; [done|]. by apply Kn.
  - cbn in X. unfold Transactions.event_ok in F2. destruct (ev_label e) as [o' at_| |]; try (by apply elem_of_nil in X).
    apply list_elem_of_singleton in X as ->. destruct F2 as (_ & _ & Ko & _). by eapply known_keeps.
Qed.

Inductive hold_kind := Reserves | Captures | Releases.

(** What an operation does with the hold of which batch. *)
Definition hold_command (o : bill_op) : option (hold_kind * BatchImageBalanceHoldCommand) :=
  match o with
  | OpReserve cmd => Some (Reserves, cmd)
  | OpCapture cmd => Some (Captures, cmd)
  | OpRelease cmd => Some (Releases, cmd)
  | _ => None
  end.

Definition hold_terms (cmd : BatchImageBalanceHoldCommand) := (h_UserID cmd, h_APIKeyID cmd, h_HoldAmount cmd).

Lemma known_terms t o1 o2 k1 k2 c1 c2 :
  keyed t -> known t o1 -> known t o2 -> hold_command o1 = Some (k1, c1) -> hold_command o2 = Some (k2, c2) ->
  h_BatchID c1 = h_BatchID c2 ->
  hold_terms c1 = hold_terms c2 /\ (k1 = k2 -> request_of o1 = request_of o2).
Proof.
  intros Ky K1 K2 E1 E2 Eb.
  assert (D : forall o k c, known t o -> hold_command o = Some (k, c) -> exists j,
    job_at t (h_BatchID c) = Some j /\ terms_of j c /\
    request_of o = Some (TrimSpace (match k with Reserves => BatchImageHoldRequestID (j_BatchID j)
      | Captures => BatchImageCaptureRequestID (j_BatchID j) | Releases => BatchImageReleaseRequestID (j_BatchID j) end), h_APIKeyID c)).
  { intros o k c K E. assert (Hd : is_hold o = true) by (by destruct o). destruct (K Hd) as (b & j & J & Ho).
    destruct (Ky _ _ J) as [Jb Tb].
    assert (T : terms_of j c) by (destruct o; simplify_eq/=; by destruct Ho).
    assert (B : h_BatchID c = b) by (destruct T as (_ & _ & -> & _); congruence).
    exists j. rewrite B. split; [done|]. split; [done|]. destruct o; simplify_eq/=; destruct Ho as [_ ->]; done. }
  destruct (D o1 k1 c1 K1 E1) as (j1 & J1 & T1 & R1). destruct (D o2 k2 c2 K2 E2) as (j2 & J2 & T2 & R2).
  rewrite Eb, J2 in J1. injection J1 as <-. destruct T1 as (U1 & A1 & _ & H1). destruct T2 as (U2 & A2 & _ & H2).
  assert (A : h_APIKeyID c1 = h_APIKeyID c2) by congruence.
  split; [unfold hold_terms; congruence|]. intros <-. by rewrite R1, R2, A.
Qed.

(** ** Theorems *)

(** C1. In every run, each change of the committed tables is a lawful operation: a charge or
    a movement of a hold or of a job that is complete (claim, balance, subscription, quotas
    of the key and of the account together), a statement on claims or jobs alone, or a change
    made by other parts of the program. *)
Theorem billing_runs_are_lawful t0 (w : world) :
  reaches t0 w -> chain t0 (w_trace w) (w_table w) /\ Forall event_ok (w_trace w).
Proof. intros G%reaches_good. split; apply G. Qed.

(** C2. No request of an API key is charged, held, captured or released twice, whatever is
    retried, lost, interrupted or archived: the requests of the committed operations are
    distinct and none was claimed before the run. *)
Theorem no_request_is_billed_twice t0 (w : world) :
  reaches t0 w ->
  NoDup (requests (w_trace w)) /\
  forall c, c ∈ requests (w_trace w) -> ~ claimed t0 c /\ claimed (w_table w) c.
Proof.
  intros G%reaches_good. destruct (chain_requests local unicode_lower t0 (w_trace w) (w_table w)) as (ND & _ & In);
    [apply G|apply G|done].
Qed.

(** C6. The balance and the frozen balance of every user are accounted for: they differ from
    what was posted to them by at most half a unit of the column (10^-8) for each operation
    of that user, and frozen balances do not become negative. *)
Theorem balances_are_accounted_for t0 (w : world) id :
  reaches t0 w -> frozen_ok t0 ->
  2 * Z.abs ((balance (w_table w) id - balance t0 id) * unit8 - (total id (w_trace w)).1) <= rounded id (w_trace w) * unit8 /\
  2 * Z.abs ((frozen (w_table w) id - frozen t0 id) * unit8 - (total id (w_trace w)).2) <= rounded id (w_trace w) * unit8 /\
  0 <= frozen (w_table w) id.
Proof.
  intros G%reaches_good Ok. destruct (chain_accounts t0 (w_trace w) (w_table w) id) as [A1 A2]; [apply G|apply G|].
  split; [done|]. split; [done|]. unfold frozen. destruct (user_at (w_table w) id) as [u|] eqn:X; [|done].
  eapply (chain_frozen t0 (w_trace w)); [apply G|apply G|done|exact X].
Qed.

(** Operations on the hold of one batch. *)
Lemma holds_agree t0 (w : world) n1 n2 o1 o2 k1 k2 c1 c2 :
  reaches t0 w -> keyed t0 ->
  committed (w_trace w) !! n1 = Some o1 -> committed (w_trace w) !! n2 = Some o2 ->
  hold_command o1 = Some (k1, c1) -> hold_command o2 = Some (k2, c2) -> h_BatchID c1 = h_BatchID c2 ->
  hold_terms c1 = hold_terms c2 /\ (k1 = k2 -> n1 = n2).
Proof.
  intros G%reaches_good Ky L1 L2 E1 E2 Eb.
  destruct (chain_known t0 (w_trace w) (w_table w)) as [Ky' Kn]; [apply G|apply G|done|].
  destruct (known_terms (w_table w) o1 o2 k1 k2 c1 c2) as [T R]; try done.
  { apply Kn. by eapply list_elem_of_lookup_2. } { apply Kn. by eapply list_elem_of_lookup_2. }
  split; [done|]. intros K. specialize (R K).
  destruct (chain_requests local unicode_lower t0 (w_trace w) (w_table w)) as (ND & _); [apply G|apply G|].
  assert (S1 : is_Some (request_of o1)) by (by destruct o1).
  by eapply (NoDup_omap_lookup request_of).
Qed.

(** C7. All operations on the hold of a batch are for the same user, API key and amount, and
    it is reserved, captured and released at most once each. *)
Theorem one_hold_per_batch t0 (w : world) n1 n2 o1 o2 k1 k2 c1 c2 :
  reaches t0 w -> keyed t0 ->
  committed (w_trace w) !! n1 = Some o1 -> committed (w_trace w) !! n2 = Some o2 ->
  hold_command o1 = Some (k1, c1) -> hold_command o2 = Some (k2, c2) -> h_BatchID c1 = h_BatchID c2 ->
  hold_terms c1 = hold_terms c2 /\ (k1 = k2 -> n1 = n2).
Proof. apply holds_agree. Qed.
End Safety.
