(* ===== verification/BillingSequential.v ===== *)
(** * A charge that runs alone

    What [Apply] does while no other transaction is open and every call is answered: a new
    request whose rows are there is charged and reported as charged; every later attempt for
    the same request changes nothing. *)

From Stdlib Require Import SpecFloat.
From S2P Require Import Prelude GoStrings GoStringsFacts GoFloat GoTime GoCrypto Programs Transactions BillingTables UsageBilling BatchImages BillingSpec UsageBillingProofs BatchImagesProofs BillingMachine BillingSafety.

#[local] Open Scope Z_scope.

Section Sequential.
Context `{Subscriptions.Postgres} `{PgEnv} (local : Location) (unicode_lower : string -> string).

#[local] Existing Instance billing_database.
#[local] Instance db : Database bkey brow bstmt := billing_database local.

Notation lawful := (lawful local unicode_lower).
Notation world := (@world bkey brow _ _ bill_op bstmt bext).
Notation stored := Subscriptions.stored.

(** ** Statements *)

(** No statement removes an entry. *)
Lemma archive_grows l (t : tables) k : is_Some (t !! k) -> is_Some (foldr archiveClaim t l !! k).
Proof.
  intros S. induction l as [|c l IH]; [done|]. cbn. unfold archiveClaim at 1. repeat case_match; try done.
  destruct (decide (k = KClaim c)) as [->|N]; [by rewrite lookup_insert_eq|by rewrite lookup_insert_ne].
Qed.

Lemma run_bstmt_grows R now (s : bstmt R) t r t' k :
  run_bstmt local now s t = Some (r, t') -> is_Some (t !! k) -> is_Some (t' !! k).
Proof.
  intros E S. destruct s; cbn [run_bstmt] in E; try (by injection E as <- <-).
  all: try (unfold insertClaimStmt, subscriptionStmt, deductStmt, reserveStmt, captureStmt, releaseStmt, moveStmt,
    keyQuotaStmt, keyRateStmt, accountQuotaStmt, insertJobStmt, settleStmt, settlementFailedStmt, updateJobStmt,
    set_user, set_job in E; answered; try done; rewrite lookup_insert; case_decide; [done|exact S]).
  unfold archiveStmt in E. answered. by apply archive_grows.
Qed.

Lemma overlay_view R now (s : bstmt R) (rows t : tables) r t' :
  run_bstmt local now s (rows ∪ t) = Some (r, t') ->
  overlay (bwrites local now s (rows ∪ t)) t' rows ∪ t = t'.
Proof.
  intros E. apply map_eq. intros k. destruct (decide (k ∈ bwrites local now s (rows ∪ t))) as [In|Out].
  - destruct (t' !! k) as [v|] eqn:X; [by apply lookup_union_Some_l, overlay_lookup|].
    destruct ((rows ∪ t) !! k) as [v|] eqn:Y.
    { assert (S : is_Some (t' !! k)) by (by eapply run_bstmt_grows; [|rewrite Y]). rewrite X in S. by destruct S. }
    apply lookup_union_None in Y as [Y1 Y2]. apply lookup_union_None. split; [|done].
    apply lookup_union_None. split; [|done]. apply map_lookup_filter_None. by left.
  - rewrite (run_bstmt_frame local R now s _ r t' k E Out), !lookup_union, overlay_lookup_ne by done. done.
Qed.

(** ** Within a transaction *)

Section Within.
Context (i : nat) (w0 : world) (o : bill_op) (at_ : Z).

(** Thread [i] is in a transaction of [w0], the only one that is open, and sees [t]. *)
Definition inside (t : tables) (w : world) : Prop :=
  exists rows, w = w0 <| w_txs := {[ i := MkTx o at_ rows ]} |> /\ rows ∪ w_table w0 = t.

(** The program runs from [t], and [Q] holds of its result and of what it leaves. *)
Definition does {A : Type} (t : tables) (p : bprog A) (Q : A -> tables -> Prop) : Prop :=
  forall w, inside t w -> exists t', Q (solo i p w).1 t' /\ inside t' (solo i p w).2.

Lemma does_ret {A : Type} t (a : A) (Q : A -> tables -> Prop) : Q a t -> does t (Ret a) Q.
Proof. intros Qa w In. by exists t. Qed.

Lemma does_bind {A B : Type} t (p : bprog A) (f : A -> bprog B) Q :
  does t p (fun a t' => does t' (f a) Q) -> does t (bind p f) Q.
Proof. intros D w In. rewrite tx_solo_bind. destruct (D w In) as (t' & Df & In'). by apply Df. Qed.

Lemma does_mono {A : Type} t (p : bprog A) (Q Q' : A -> tables -> Prop) :
  does t p Q -> (forall a t', Q a t' -> Q' a t') -> does t p Q'.
Proof. intros D M w In. destruct (D w In) as (t' & Qa & In'). exists t'. split; [by apply M|done]. Qed.

Lemma inside_sql {R : Type} (s : bstmt R) t w r t' :
  inside t w -> run_bstmt local at_ s t = Some (r, t') ->
  (run_sql i s w).1 = Some r /\ inside t' (run_sql i s w).2.
Proof.
  intros (rows & -> & E) X. unfold run_sql, after_stmt, view, dbnow. cbn. rewrite !lookup_singleton_eq. cbn.
  rewrite E, X. cbn. split; [done|]. eexists. split; [by rewrite insert_singleton_eq|]. rewrite <-E. apply (overlay_view R at_ s _ _ r). by rewrite E.
Qed.

Lemma does_exec {R A : Type} t (s : bstmt R) (k : R -> bprog (outcome A)) Q r t' :
  run_bstmt local at_ s t = Some (r, t') -> does t' (k r) Q -> does t (exec s k) Q.
Proof.
  intros X D w In. destruct (inside_sql s t w r t' In X) as [E In']. unfold exec. cbn. rewrite E. by apply D.
Qed.

Lemma does_try {A B : Type} t (p : bprog (outcome A)) (f : A -> bprog (outcome B)) Q :
  does t p (fun r t' => match r with inl e => Q (inl e) t' | inr a => does t' (f a) Q end) -> does t (try p f) Q.
Proof.
  intros D. apply does_bind. eapply does_mono; [exact D|]. intros [e|a] t' X; [by apply does_ret|exact X].
Qed.
End Within.
(** ** Requests that can be charged *)

(** The rows that a charge needs are there, and what it adds fits in their columns. *)
Definition subscription_ready (t : tables) (cmd : UsageBillingCommand) : bool :=
  match SubscriptionID cmd with
  | Some id => negb (flt fzero (SubscriptionCost cmd)) ||
    match decimal_of (SubscriptionCost cmd), usub_at t id with
    | Some a, Some s => bool_decide (s_deleted_at s = None) && live_group t (s_group_id s) && found (bumpSubscription a s)
    | _, _ => false
    end
  | None => true
  end.

Definition balance_ready (t : tables) (cmd : UsageBillingCommand) : bool :=
  negb (flt fzero (BalanceCost cmd)) ||
  match decimal_of (BalanceCost cmd), live_user t (UserID cmd) with
  | Some a, Some u => found (column unit8 (u_balance u * unit8 - a))
  | _, _ => false
  end.

(** A deleted key is passed over. *)
Definition key_ready (cost : float64) (fits : amount -> key_row -> bool) (id : Z) (t : tables) : bool :=
  negb (flt fzero cost) ||
  match decimal_of cost with
  | Some a => match live_key t id with Some k => fits a k | None => true end
  | None => false
  end.

Definition quota_ready (t : tables) (cmd : UsageBillingCommand) : bool :=
  key_ready (APIKeyQuotaCost cmd) (fun a k => found (bumpKeyQuota a k)) (APIKeyID cmd) t.

Definition rate_ready (at_ : Z) (t : tables) (cmd : UsageBillingCommand) : bool :=
  key_ready (APIKeyRateLimitCost cmd) (fun a k => found (bumpKeyRate local (stored at_) a k)) (APIKeyID cmd) t.

Definition account_ready (t : tables) (cmd : UsageBillingCommand) : bool :=
  negb (charges_account unicode_lower cmd) || (found (decimal_of (AccountQuotaCost cmd)) && found (live_account t (AccountID cmd))).

Definition new_request (t : tables) (cmd : UsageBillingCommand) : bool :=
  negb (RequestID cmd =s "") && varchar 255 (RequestID cmd) && varchar 64 (RequestFingerprint cmd)
  && match claim_at t (RequestID cmd, APIKeyID cmd) with MkClaim None None => true | _ => false end.

Definition billable (at_ : Z) (t : tables) (cmd : UsageBillingCommand) : bool :=
  new_request t cmd && subscription_ready t cmd && balance_ready t cmd && quota_ready t cmd && rate_ready at_ t cmd
  && account_ready t cmd.

(** Only the entry [k] is changed. *)
Definition only (k : bkey) (t t' : tables) : Prop := forall k', k' <> k -> t' !! k' = t !! k'.

Lemma only_insert k v (t : tables) : only k t (<[ k := v ]> t).
Proof. intros k' N. by rewrite lookup_insert_ne. Qed.

Lemma only_refl k (t : tables) : only k t t.
Proof. done. Qed.

Section Steps.
Context (i : nat) (w0 : world) (o : bill_op) (at_ : Z).

Notation does := (does i w0 o at_).

Lemma does_subscription t id cost a s s' :
  decimal_of cost = Some a -> usub_at t id = Some s -> s_deleted_at s = None -> live_group t (s_group_id s) = true ->
  bumpSubscription a s = Some s' ->
  does t (incrementUsageBillingSubscription id cost) (fun r t' => r = inr tt /\ only (KSub id) t t').
Proof.
  intros D U Dl G B. eapply does_exec; [cbn; unfold subscriptionStmt; rewrite D; cbn; rewrite U, bool_decide_true, G by done;
    cbn; rewrite B; reflexivity|]. apply does_ret. split; [done|apply only_insert].
Qed.

Lemma does_balance t id cost a u b :
  decimal_of cost = Some a -> live_user t id = Some u -> column unit8 (u_balance u * unit8 - a) = Some b ->
  does t (deductUsageBillingBalance id cost) (fun r t' =>
    r = inr (float8 b, negb (u_balance u * unit8 <? a)) /\ balance t' id = b /\ only (KUser id) t t').
Proof.
  intros D U C.
  assert (Deduct : run_bstmt local at_ (DeductBalance false cost id) t
    = Some (Some (float8 b), set_user t id (u <| u_balance := b |>))).
  { cbn. unfold deductStmt. rewrite D. cbn. rewrite U. cbn. by rewrite C. }
  assert (Post : balance (set_user t id (u <| u_balance := b |>)) id = b /\
    only (KUser id) t (set_user t id (u <| u_balance := b |>))).
  { split; [unfold balance, user_at, set_user; by rewrite lookup_insert_eq|apply only_insert]. }
  unfold deductUsageBillingBalance. destruct (u_balance u * unit8 <? a) eqn:L.
  - eapply does_exec; [cbn; unfold deductStmt; rewrite D; cbn; rewrite U, L; reflexivity|].
    eapply does_exec; [exact Deduct|]. by apply does_ret.
  - eapply does_exec; [cbn in Deduct |- *; unfold deductStmt in *; rewrite D in *; cbn in *; rewrite U in *; rewrite L; exact Deduct|].
    by apply does_ret.
Qed.

Lemma does_quota t id cost a :
  decimal_of cost = Some a -> match live_key t id with Some k => found (bumpKeyQuota a k) = true | None => True end ->
  does t (incrementUsageBillingAPIKeyQuota id cost) (fun r t' => exists e, r = inr e /\
    (t' = t \/ exists k x k', live_key t id = Some k /\ bumpKeyQuota a k = Some (x, k') /\ t' = <[ KKey id := RKey k' ]> t)).
Proof.
  intros D F. destruct (live_key t id) as [k|] eqn:L.
  - destruct (bumpKeyQuota a k) as [[x k']|] eqn:B; [|done].
    eapply does_exec; [cbn; unfold keyQuotaStmt; rewrite D; cbn; rewrite L, B; reflexivity|].
    apply does_ret. eexists. split; [done|]. right. by exists k, x, k'.
  - eapply does_exec; [cbn; unfold keyQuotaStmt; rewrite D; cbn; rewrite L; reflexivity|].
    apply does_ret. eexists. split; [done|by left].
Qed.

Lemma does_rate t id cost a :
  decimal_of cost = Some a ->
  match live_key t id with Some k => found (bumpKeyRate local (stored at_) a k) = true | None => True end ->
  does t (incrementUsageBillingAPIKeyRateLimit id cost) (fun r t' => exists e, r = inr e /\ only (KKey id) t t').
Proof.
  intros D F. destruct (live_key t id) as [k|] eqn:L.
  - destruct (bumpKeyRate local (stored at_) a k) as [k'|] eqn:B; [|done].
    eapply does_exec; [cbn; unfold keyRateStmt; rewrite D; cbn; rewrite L, B; reflexivity|].
    apply does_ret. eexists. split; [done|apply only_insert].
  - eapply does_exec; [cbn; unfold keyRateStmt; rewrite D; cbn; rewrite L; reflexivity|].
    apply does_ret. eexists. split; [done|apply only_refl].
Qed.

Lemma does_account t id cost a acc :
  decimal_of cost = Some a -> live_account t id = Some acc ->
  does t (incrementUsageBillingAccountQuota id cost) (fun r t' => exists s, r = inr s /\ only (KAccount id) t t').
Proof.
  intros D L. eapply does_exec; [cbn; unfold accountQuotaStmt; rewrite D; cbn; rewrite L; reflexivity|].
  cbv beta iota. destruct (_ || crossed _ _ _).
  - eapply does_exec; [reflexivity|]. apply does_ret. eexists. split; [done|apply only_insert].
  - apply does_ret. eexists. split; [done|apply only_insert].
Qed.

(** ** The claim *)

Notation claim_of cmd := (RequestID cmd, APIKeyID cmd).

Lemma does_new_claim t cmd :
  new_request t cmd = true ->
  does t (claimUsageBillingKey cmd) (fun r t' => r = inr true /\ only (KClaim (claim_of cmd)) t t').
Proof.
  unfold new_request. rewrite !andb_true_iff. intros [[[_ V1] V2] Nw].
  assert (N : claim_at t (claim_of cmd) = MkClaim None None) by (by destruct (claim_at t _) as [[] []]).
  unfold claimUsageBillingKey, claimUsageBillingRequest.
  eapply does_exec; [cbn; unfold insertClaimStmt; cbn [fst]; rewrite V1, V2, N; reflexivity|].
  eapply does_exec; [cbn; unfold claim_at; rewrite lookup_insert_eq; reflexivity|].
  apply does_ret. split; [done|apply only_insert].
Qed.

(** A request whose claim is recorded, recently or in the archive. *)
Definition recorded (t : tables) (c : string * Z) (fp : string) : Prop :=
  (exists created, claim_at t c = MkClaim (Some (fp, created)) None) \/ claim_at t c = MkClaim None (Some fp).

Lemma does_old_claim t cmd fp :
  varchar 255 (RequestID cmd) = true -> varchar 64 (RequestFingerprint cmd) = true -> recorded t (claim_of cmd) fp ->
  does t (claimUsageBillingKey cmd) (fun r _ =>
    r = if TrimSpace fp =s TrimSpace (RequestFingerprint cmd) then inr false else inl ErrUsageBillingRequestConflict).
Proof.
  intros V1 V2 Rc. unfold claimUsageBillingKey, claimUsageBillingRequest.
  destruct Rc as [[created N]|N].
  - eapply does_exec; [cbn; unfold insertClaimStmt; cbn [fst]; rewrite V1, V2, N; reflexivity|].
    eapply does_exec; [cbn; rewrite N; reflexivity|]. cbn.
    destruct (_ =s _); by apply does_ret.
  - eapply does_exec; [cbn; unfold insertClaimStmt; cbn [fst]; rewrite V1, V2, N; reflexivity|].
    eapply does_exec; [cbn; unfold claim_at; rewrite lookup_insert_eq; reflexivity|]. cbn.
    destruct (_ =s _); by apply does_ret.
Qed.
End Steps.
(** ** What later statements need is not changed by earlier ones *)

Lemma subscription_ready_same (t t' : tables) cmd :
  (forall id, t' !! KSub id = t !! KSub id) -> (forall id, t' !! KGroup id = t !! KGroup id) ->
  subscription_ready t' cmd = subscription_ready t cmd.
Proof.
  intros S G. unfold subscription_ready, usub_at, live_group. destruct (SubscriptionID cmd) as [id|]; [|done].
  rewrite S. destruct (decimal_of _); [|done]. destruct (t !! KSub id) as [[]|]; try done. by rewrite G.
Qed.

Lemma balance_ready_same (t t' : tables) cmd :
  t' !! KUser (UserID cmd) = t !! KUser (UserID cmd) -> balance_ready t' cmd = balance_ready t cmd.
Proof. intros E. unfold balance_ready, live_user, user_at. by rewrite E. Qed.

Lemma key_ready_same (t t' : tables) cost fits id :
  t' !! KKey id = t !! KKey id -> key_ready cost fits id t' = key_ready cost fits id t.
Proof. intros E. unfold key_ready, live_key, key_at. by rewrite E. Qed.

Lemma account_ready_same (t t' : tables) cmd :
  t' !! KAccount (AccountID cmd) = t !! KAccount (AccountID cmd) -> account_ready t' cmd = account_ready t cmd.
Proof. intros E. unfold account_ready, live_account, account_at. by rewrite E. Qed.

Lemma bumpKeyRate_quota now a b k x k' :
  bumpKeyQuota a k = Some (x, k') -> found (bumpKeyRate local now b k') = found (bumpKeyRate local now b k).
Proof.
  unfold bumpKeyQuota. destruct (column unit8 _); cbn; [|done]. intros [= _ <-]. unfold bumpKeyRate. cbn.
  by repeat (destruct (windowUsage _ _ _ _ _); [|done]; cbn).
Qed.

Lemma rate_ready_quota at_ (t : tables) cmd a k x k' :
  live_key t (APIKeyID cmd) = Some k -> bumpKeyQuota a k = Some (x, k') -> rate_ready at_ t cmd = true ->
  rate_ready at_ (<[ KKey (APIKeyID cmd) := RKey k' ]> t) cmd = true.
Proof.
  intros L B. pose proof (live_key_Some t _ k L) as [_ Dl]. unfold rate_ready, key_ready. rewrite L.
  assert (L' : live_key (<[ KKey (APIKeyID cmd) := RKey k' ]> t) (APIKeyID cmd) = Some k').
  { unfold live_key, key_at. rewrite lookup_insert_eq, decide_True; [done|]. by rewrite (bumpKeyQuota_deleted a k x k' B). }
  rewrite L'. destruct (decimal_of _) as [b|]; [|done]. by rewrite (bumpKeyRate_quota _ a b k x k' B).
Qed.

(** ** What is reported *)

Definition overdraws (t : tables) (cmd : UsageBillingCommand) : bool :=
  flt fzero (BalanceCost cmd) &&
  match decimal_of (BalanceCost cmd) with Some a => balance t (UserID cmd) * unit8 <? a | None => false end.

(** The result of a charge that took [t] to [t']. *)
Definition reports (cmd : UsageBillingCommand) (t t' : tables) (res : UsageBillingApplyResult) : Prop :=
  Applied res = true /\
  NewBalance res = (if flt fzero (BalanceCost cmd) then Some (float8 (balance t' (UserID cmd))) else None) /\
  BalanceOverdrafted res = overdraws t cmd.

Lemma balance_same (t t' : tables) id : t' !! KUser id = t !! KUser id -> balance t' id = balance t id.
Proof. intros E. unfold balance, user_at. by rewrite E. Qed.

Lemma reports_same cmd (t t1 t2 : tables) res :
  t2 !! KUser (UserID cmd) = t1 !! KUser (UserID cmd) -> reports cmd t t1 res -> reports cmd t t2 res.
Proof. intros E (A & N & B). split; [done|]. split; [|done]. by rewrite (balance_same t1 t2). Qed.

Lemma reports_from cmd (t t0 t' : tables) res :
  t !! KUser (UserID cmd) = t0 !! KUser (UserID cmd) -> reports cmd t t' res -> reports cmd t0 t' res.
Proof. intros E (A & N & B). split; [done|]. split; [done|]. rewrite B. unfold overdraws. by rewrite (balance_same t0 t). Qed.

Section Effects.
Context (i : nat) (w0 : world) (o : bill_op) (at_ : Z) (cmd : UsageBillingCommand).

Notation does := (does i w0 o at_).

Lemma does_subscription_part t :
  subscription_ready t cmd = true ->
  does t (match SubscriptionID cmd with
          | Some id => if flt fzero (SubscriptionCost cmd)
                       then incrementUsageBillingSubscription id (SubscriptionCost cmd) else Ret (inr tt)
          | None => Ret (inr tt)
          end) (fun r t' => r = inr tt /\ exists id, only (KSub id) t t').
Proof.
  unfold subscription_ready. destruct (SubscriptionID cmd) as [id|]; [|intros _; apply does_ret; split; [done|by exists 0]].
  destruct (flt fzero (SubscriptionCost cmd)); [cbn|intros _; apply does_ret; split; [done|by exists 0]].
  destruct (decimal_of _) as [a|] eqn:D; [|done]. destruct (usub_at t id) as [s|] eqn:U; [|done].
  rewrite !andb_true_iff, bool_decide_eq_true. intros [[Dl G] B]. destruct (bumpSubscription a s) as [s'|] eqn:Bs; [|done].
  eapply does_mono; [by eapply does_subscription|]. intros r t' [-> O]. split; [done|by exists id].
Qed.

Lemma does_balance_part t (res : UsageBillingApplyResult) :
  balance_ready t cmd = true -> res = MkApplyResult true false None false None ->
  does t (if flt fzero (BalanceCost cmd) then
            try (deductUsageBillingBalance (UserID cmd) (BalanceCost cmd)) (fun r =>
            Ret (inr (res <| NewBalance := Some r.1 |> <| BalanceOverdrafted := negb r.2 |>)))
          else Ret (inr res))
    (fun r t' => exists res', r = inr res' /\ reports cmd t t' res' /\ only (KUser (UserID cmd)) t t').
Proof.
  unfold balance_ready, reports, overdraws. intros Rd ->. destruct (flt fzero (BalanceCost cmd)); cbn in Rd.
  - destruct (decimal_of _) as [a|] eqn:D; [|done]. destruct (live_user t (UserID cmd)) as [u|] eqn:U; [|done].
    destruct (column _ _) as [b|] eqn:C; [|done].
    apply does_try. eapply does_mono; [by eapply does_balance|]. intros r t' (-> & Bl & On).
    apply does_ret. eexists. split; [done|]. split; [|done]. cbn. rewrite Bl, negb_involutive.
    split; [done|]. split; [done|]. unfold live_user in U. unfold balance.
    destruct (user_at t (UserID cmd)) as [u'|]; [|done]. case_decide; by simplify_eq.
  - apply does_ret. eexists. split; [done|]. by split.
Qed.

Lemma does_quota_part t (res : UsageBillingApplyResult) t0 :
  quota_ready t cmd = true -> rate_ready at_ t cmd = true -> reports cmd t0 t res ->
  does t (if flt fzero (APIKeyQuotaCost cmd) then
            try (incrementUsageBillingAPIKeyQuota (APIKeyID cmd) (APIKeyQuotaCost cmd)) (fun r =>
            Ret (inr (match r with Some exhausted => res <| APIKeyQuotaExhausted := exhausted |> | None => res end)))
          else Ret (inr res))
    (fun r t' => exists res', r = inr res' /\ reports cmd t0 t' res' /\ only (KKey (APIKeyID cmd)) t t' /\ rate_ready at_ t' cmd = true).
Proof.
  intros Qr Rr Rp. unfold quota_ready, key_ready in Qr. destruct (flt fzero (APIKeyQuotaCost cmd)); cbn in Qr;
    [|apply does_ret; eexists; by repeat split; try apply Rp].
  destruct (decimal_of _) as [a|] eqn:D; [|done]. apply does_try. eapply does_mono.
  { apply (does_quota i w0 o at_ t (APIKeyID cmd) _ a D). by destruct (live_key t _). }
  intros r t' (e & -> & T). apply does_ret. eexists. split; [done|].
  assert (G : reports cmd t0 t' res /\ only (KKey (APIKeyID cmd)) t t' /\ rate_ready at_ t' cmd = true).
  { destruct T as [-> |(k & x & k' & L & B & ->)]; [by repeat split; try apply Rp|].
    split; [eapply reports_same; [|exact Rp]; by rewrite lookup_insert_ne|].
    split; [apply only_insert|by eapply rate_ready_quota]. }
  destruct G as (Rp' & G). split; [|exact G]. destruct e; [|exact Rp']. exact Rp'.
Qed.

Lemma does_rate_part t :
  rate_ready at_ t cmd = true ->
  does t (if flt fzero (APIKeyRateLimitCost cmd) then
            incrementUsageBillingAPIKeyRateLimit (APIKeyID cmd) (APIKeyRateLimitCost cmd)
          else Ret (inr None))
    (fun r t' => exists e, r = inr e /\ only (KKey (APIKeyID cmd)) t t').
Proof.
  unfold rate_ready, key_ready. destruct (flt fzero (APIKeyRateLimitCost cmd)); cbn;
    [|intros _; apply does_ret; eexists; by split].
  destruct (decimal_of _) as [a|] eqn:D; [|done]. intros F. apply (does_rate i w0 o at_ t _ _ a D).
  by destruct (live_key t _).
Qed.

Lemma does_account_part t (res : UsageBillingApplyResult) t0 :
  account_ready t cmd = true -> reports cmd t0 t res ->
  does t (if flt fzero (AccountQuotaCost cmd)
             && AccountSupportsQuota (AccountPlatform cmd) (ToLower unicode_lower (AccountType cmd)) then
            try (incrementUsageBillingAccountQuota (AccountID cmd) (AccountQuotaCost cmd)) (fun state =>
            Ret (inr (res <| QuotaState := Some state |>)))
          else Ret (inr res))
    (fun r t' => exists res', r = inr res' /\ reports cmd t0 t' res').
Proof.
  unfold account_ready, charges_account. intros Ar Rp. destruct (flt fzero _ && _); cbn in Ar;
    [|apply does_ret; eexists; by split].
  apply andb_true_iff in Ar as [D L]. destruct (decimal_of _) as [a|] eqn:Da; [|done].
  destruct (live_account t _) as [acc|] eqn:La; [|done]. apply does_try.
  eapply does_mono; [by eapply does_account|]. intros r t' (s & -> & On). apply does_ret. eexists. split; [done|].
  apply (reports_same cmd t0 t); [by apply On|exact Rp].
Qed.

Lemma does_effects t :
  subscription_ready t cmd = true -> balance_ready t cmd = true -> quota_ready t cmd = true ->
  rate_ready at_ t cmd = true -> account_ready t cmd = true ->
  does t (applyUsageBillingEffects unicode_lower cmd) (fun r t' => exists res, r = inr res /\ reports cmd t t' res).
Proof.
  intros Sr Br Qr Rr Ar. unfold applyUsageBillingEffects. apply does_try.
  eapply does_mono; [by apply does_subscription_part|]. intros r1 t1 (-> & id & O1).
  assert (U1 : t1 !! KUser (UserID cmd) = t !! KUser (UserID cmd)) by (by apply O1).
  apply does_try. eapply does_mono; [apply does_balance_part; [by rewrite (balance_ready_same t)|done]|].
  intros r2 t2 (res2 & -> & Rp2 & O2).
  assert (K2 : t2 !! KKey (APIKeyID cmd) = t !! KKey (APIKeyID cmd)) by (by rewrite O2, O1).
  pose proof (reports_from cmd t1 t t2 res2 U1 Rp2) as Rp2'.
  apply does_try. eapply does_mono.
  { apply (does_quota_part t2 res2 t); [|unfold rate_ready; by rewrite (key_ready_same t)|exact Rp2'].
    unfold quota_ready. by rewrite (key_ready_same t). }
  intros r3 t3 (res3 & -> & Rp3 & O3 & Rr3).
  apply does_try. eapply does_mono; [by apply does_rate_part|]. intros r4 t4 (e & -> & O4).
  apply does_account_part; [|by apply (reports_same cmd t t3); [apply O4|]].
  rewrite (account_ready_same t); [done|]. by rewrite O4, O3, O2, O1.
Qed.
End Effects.
(** ** The whole transaction *)

Notation claim_of cmd := (RequestID cmd, APIKeyID cmd).

Lemma inside_begin i (w : world) o :
  w_txs w = ∅ -> inside i w o (w_clock w) (w_table w) (w <| w_txs := <[ i := MkTx o (w_clock w) ∅ ]> (w_txs w) |>).
Proof. intros E. exists ∅. split; [by rewrite E|apply (left_id_L ∅ (∪))]. Qed.

Lemma inside_commit i (w0 : world) o at_ t w :
  w_txs w0 = ∅ -> inside i w0 o at_ t w -> commitTx i w = publish (ByTx o at_) t w0.
Proof.
  intros E (rows & -> & <-). unfold commitTx. cbn. rewrite lookup_singleton_eq. unfold rollbackTx, publish. cbn.
  rewrite delete_singleton_eq, <-E. by destruct w0.
Qed.

Lemma inside_rollback i (w0 : world) o at_ t w :
  w_txs w0 = ∅ -> inside i w0 o at_ t w -> rollbackTx i w = w0.
Proof. intros E (rows & -> & _). unfold rollbackTx. cbn. rewrite delete_singleton_eq, <-E. by destruct w0. Qed.

Lemma solo_do i {A R : Type} (c : bcall R) (k : option R -> bprog A) (w : world) :
  solo i (Do c k) w = solo i (k (solo_call i c w).1) (solo_call i c w).2.
Proof. done. Qed.

Lemma solo_applied {A : Type} i (w : world) o claim (skipped : A) work Q :
  w_txs w = ∅ ->
  does i w o (w_clock w) (w_table w) claim (fun r t' => r = inr true /\
    does i w o (w_clock w) t' work (fun r t'' => exists a, r = inr a /\ Q a t'')) ->
  exists a t', solo i (claimedTx o claim skipped work) w = (inr a, publish (ByTx o (w_clock w)) t' w) /\ Q a t'.
Proof.
  intros E D. destruct (D _ (inside_begin i w o E)) as (t1 & [Ec Dw] & In1).
  unfold claimedTx. rewrite solo_do. cbn [solo_call fst snd]. rewrite tx_solo_bind. cbv zeta. rewrite Ec, tx_solo_bind. cbv zeta. destruct (Dw _ In1) as (t2 & (a & Ew & Qa) & In2). rewrite Ew. cbn.
  exists a, t2. split; [|done]. by rewrite (inside_commit i w o (w_clock w) t2).
Qed.

Lemma solo_skipped {A : Type} i (w : world) o claim (skipped : A) work r0 :
  w_txs w = ∅ -> r0 <> inr true -> does i w o (w_clock w) (w_table w) claim (fun r _ => r = r0) ->
  solo i (claimedTx o claim skipped work) w
    = (match r0 with inl e => inl e | inr _ => inr skipped end, w).
Proof.
  intros E N D. destruct (D _ (inside_begin i w o E)) as (t1 & Ec & In1).
  unfold claimedTx. rewrite solo_do. cbn [solo_call fst snd]. rewrite tx_solo_bind. cbv zeta. rewrite Ec. destruct r0 as [e|[]]; [|done|]; cbn; by rewrite (inside_rollback i w o (w_clock w) t1).
Qed.

(** ** Claims stay recorded *)

Lemma archiveClaim_recorded c0 (t : tables) c fp : recorded t c fp -> recorded (archiveClaim c0 t) c fp.
Proof.
  intros Rc. unfold archiveClaim. destruct (cl_hot (claim_at t c0)) as [[fp0 cr]|] eqn:Hot; [|done].
  destruct (decide (c = c0)) as [<-|N].
  - right. unfold claim_at at 1. rewrite lookup_insert_eq. destruct Rc as [[created E]|E]; rewrite E in *; by simplify_eq/=.
  - unfold recorded, claim_at. rewrite lookup_insert_ne by congruence. done.
Qed.

Lemma recorded_same (t t' : tables) c fp : t' !! KClaim c = t !! KClaim c -> recorded t c fp -> recorded t' c fp.
Proof. unfold recorded, claim_at. by intros ->. Qed.

Lemma recorded_claimed (t : tables) c fp : recorded t c fp -> claimed t c.
Proof. intros [[created E]|E]; unfold claimed; rewrite E; cbn; [by left|by right]. Qed.

Lemma quiet_recorded R at_ (s : bstmt R) (t : tables) r u c fp :
  quiet R s -> run_bstmt local at_ s t = Some (r, u) -> recorded t c fp -> recorded u c fp.
Proof.
  intros Qt E Rc. destruct (decide (KClaim c ∈ bwrites local at_ s t)) as [In|Out];
    [|by eapply recorded_same; [exact (run_bstmt_frame local R at_ s t r u _ E Out)|]].
  destruct s; try done; cbn [bwrites] in In; unfold hits in In; try (repeat case_match; set_solver).
  cbn in E. unfold archiveStmt in E. injection E as _ <-. clear In. induction (take _ _) as [|c0 l IH]; [done|].
  cbn. by apply archiveClaim_recorded.
Qed.

Lemma event_recorded (e : @event bkey brow _ _ bill_op bstmt) c fp :
  event_ok outside lawful quiet e -> recorded (ev_before e) c fp -> recorded (ev_after e) c fp.
Proof.
  unfold Transactions.event_ok. destruct (ev_label e) as [o at_|R s at_|]; intros Ok Rc.
  - destruct (decide (request_of o = Some c)) as [Ro|N].
    + destruct (lawful_claims local unicode_lower o at_ _ _ c Ok Ro) as [Fresh _]. destruct Fresh. by eapply recorded_claimed.
    + destruct Ok as [E _]. specialize (E (KClaim c)). cbn in E. rewrite decide_False in E by done. by eapply recorded_same.
  - destruct Ok as [Qt [r E]]. exact (quiet_recorded R at_ s _ r _ c fp Qt E Rc).
  - destruct Ok as [E _]. exact (recorded_same _ _ c fp (E c) Rc).
Qed.

Lemma chain_recorded t0 l (t : tables) c fp :
  chain t0 l t -> Forall (event_ok outside lawful quiet) l -> recorded t0 c fp -> recorded t c fp.
Proof.
  induction 1 as [t|t0 l e C IH]; intros F Rc; [done|]. apply Forall_app in F as [F1 F2]. rewrite Forall_singleton in F2.
  eapply event_recorded; [done|by apply IH].
Qed.
(** ** The theorem *)

Context (errorText : job_error -> string) (retentionHours : Z).

Notation reaches := (reaches local unicode_lower errorText retentionHours).
Notation billing_step := (billing_step local unicode_lower errorText retentionHours).
Notation Apply := (Apply unicode_lower).

Lemma attend_Apply_steps cmd (w : world) :
  w_txs w = ∅ -> allowed (w_table w) (EApply cmd) = true -> rtc billing_step w (attend (Apply cmd) w).2.
Proof. intros E Al. apply attend_steps; [exact E|]. exists (EApply cmd). exact (conj Al eq_refl). Qed.

(** The world in which a thread has been added. *)
Notation with_thread w := (w <| w_threads := w_threads w ++ [Ret tt] |>).

Lemma attend_new cmd (w : world) :
  w_txs w = ∅ -> billable (w_clock w) (w_table w) (Normalize cmd) = true ->
  exists res t', attend (Apply cmd) w
    = (inr res, publish (ByTx (OpApply (Normalize cmd)) (w_clock w)) t' (with_thread w)) /\
    reports (Normalize cmd) (w_table w) t' res.
Proof.
  intros E. unfold UsageBilling.Apply. generalize (Normalize cmd) as c. intros c. unfold billable, attend.
  rewrite !andb_true_iff. intros [[[[[Nw Sr] Br] Qr] Rr] Ar].
  assert (Ne : (RequestID c =s "") = false) by (unfold new_request in Nw; by destruct (_ =s _)).
  rewrite Ne. destruct (solo_applied (length (w_threads w)) (with_thread w) (OpApply c) (claimUsageBillingKey c)
    notApplied (applyUsageBillingEffects unicode_lower c) (fun res t' => reports c (w_table w) t' res))
    as (res & t' & Es & Rp); [exact E| |exists res, t'; split; [exact Es|exact Rp]].
  eapply does_mono; [by apply does_new_claim|]. intros r t1 [-> On]. split; [done|].
  cbn [w_table] in On. eapply does_mono; [apply does_effects|].
  - rewrite (subscription_ready_same (w_table w)); [exact Sr|intros; by apply On..].
  - rewrite (balance_ready_same (w_table w)); [exact Br|by apply On].
  - unfold quota_ready. rewrite (key_ready_same (w_table w)); [exact Qr|by apply On].
  - unfold rate_ready. rewrite (key_ready_same (w_table w)); [exact Rr|by apply On].
  - rewrite (account_ready_same (w_table w)); [exact Ar|by apply On].
  - intros r t' (res & -> & R). exists res. split; [done|]. apply (reports_from _ t1); [by apply On|exact R].
Qed.

Lemma attend_old cmd fp (w : world) :
  w_txs w = ∅ -> RequestID (Normalize cmd) <> "" -> varchar 255 (RequestID (Normalize cmd)) = true ->
  varchar 64 (RequestFingerprint (Normalize cmd)) = true -> recorded (w_table w) (claim_of (Normalize cmd)) fp ->
  attend (Apply cmd) w =
    (if TrimSpace fp =s TrimSpace (RequestFingerprint (Normalize cmd)) then inr notApplied
     else inl ErrUsageBillingRequestConflict, with_thread w).
Proof.
  intros E. unfold UsageBilling.Apply. generalize (Normalize cmd) as c. intros c Ne V1 V2 Rc. unfold attend.
  apply String.eqb_neq in Ne. rewrite Ne.
  rewrite (solo_skipped (length (w_threads w)) (with_thread w) (OpApply c) (claimUsageBillingKey c) notApplied _
    (if TrimSpace fp =s TrimSpace (RequestFingerprint c) then inr false else inl ErrUsageBillingRequestConflict));
    [by destruct (TrimSpace fp =s _)|exact E|by destruct (TrimSpace fp =s _)|].
  by apply (does_old_claim _ _ _ _ (w_table w) c fp).
Qed.

Lemma chain_snoc_inv t0 l (e : @event bkey brow _ _ bill_op bstmt) (t : tables) :
  chain t0 (l ++ [e]) t -> chain t0 l (ev_before e) /\ t = ev_after e.
Proof.
  intros C. remember (l ++ [e]) as l1 eqn:E. destruct C as [|t0 l' e' C]; [by destruct l|].
  apply app_inj_tail in E as [-> ->]. done.
Qed.

Lemma chain_nil_inv (t0 t : tables) : chain t0 ([] : list (@event bkey brow _ _ bill_op bstmt)) t -> t = t0.
Proof. intros C. remember [] as l eqn:E. destruct C as [|t0 l' e' C]; [done|]. by destruct l'. Qed.

Lemma chain_end t0 (l : list (@event bkey brow _ _ bill_op bstmt)) (t t' : tables) :
  chain t0 l t -> chain t0 l t' -> t' = t.
Proof.
  destruct l as [|e l _] using rev_ind; intros C1 C2.
  - by rewrite (chain_nil_inv t0 t C1), (chain_nil_inv t0 t' C2).
  - apply chain_snoc_inv in C1 as [_ ->]. by apply chain_snoc_inv in C2 as [_ ->].
Qed.

(** Between two worlds of a run the tables change by a part of the history. *)
Lemma chain_suffix t0 (t t' : tables) (l l' : list (@event bkey brow _ _ bill_op bstmt)) :
  chain t0 l t -> chain t0 (l ++ l') t' -> chain t l' t'.
Proof.
  revert t'. induction l' as [|e l' IH] using rev_ind; intros t' C1 C2.
  - rewrite app_nil_r in C2. rewrite (chain_end t0 l t t' C1 C2). constructor.
  - rewrite app_assoc in C2. apply chain_snoc_inv in C2 as [C2 ->]. constructor. by apply IH.
Qed.

Lemma recorded_later t0 (w w' : world) c fp :
  reaches t0 w -> rtc billing_step w w' -> recorded (w_table w) c fp -> recorded (w_table w') c fp.
Proof.
  intros Re St Rc. assert (Re' : reaches t0 w') by (destruct Re as [clock R]; exists clock; by etrans).
  destruct (steps_prefix _ _ _ _ St) as [l El]. pose proof (reaches_good _ _ _ _ _ _ Re) as G. pose proof (reaches_good _ _ _ _ _ _ Re') as G'.
  destruct G as [_ _ _ _ C]. destruct G' as [_ _ _ F' C']. rewrite El in *. apply Forall_app in F' as [_ F'].
  exact (chain_recorded (w_table w) l (w_table w') c fp (chain_suffix t0 _ _ _ l C C') F' Rc).
Qed.

Lemma charge_recorded c at_ (t t' : tables) :
  lawful (OpApply c) at_ t t' -> recorded t' (claim_of c) (RequestFingerprint c).
Proof.
  intros [E _]. specialize (E (KClaim (claim_of c))). cbn in E. rewrite decide_True in E by done. destruct E as [_ E].
  left. exists (stored at_). unfold claim_at. by rewrite E.
Qed.

Lemma billable_request c at_ (t : tables) :
  billable at_ t c = true -> RequestID c <> "" /\ varchar 255 (RequestID c) = true.
Proof.
  unfold billable, new_request. rewrite !andb_true_iff. intros [[[[[[[[Ne V] _] _] _] _] _] _] _]. split; [|exact V].
  by destruct (String.eqb_spec (RequestID c) "").
Qed.

(** C3. A new request whose rows are there is charged: an attempt that runs without faults
    while no other transaction is open commits exactly one change, the complete charge, and
    reports the balance that is left and whether it was overdrawn.  From then on, whatever
    happens, every attempt for the same request leaves the tables as they are, and reports
    that nothing was applied or, if it is for something else, a conflict. *)
Theorem a_new_request_is_charged t0 (w : world) cmd :
  reaches t0 w -> w_txs w = ∅ -> allowed (w_table w) (EApply cmd) = true ->
  billable (w_clock w) (w_table w) (Normalize cmd) = true ->
  exists res w1, attend (Apply cmd) w = (inr res, w1) /\ rtc billing_step w w1 /\
    reports (Normalize cmd) (w_table w) (w_table w1) res /\
    w_trace w1 = w_trace w ++ [MkEvent (ByTx (OpApply (Normalize cmd)) (w_clock w)) (w_table w) (w_table w1)] /\
    w_txs w1 = ∅ /\ lawful (OpApply (Normalize cmd)) (w_clock w) (w_table w) (w_table w1) /\
    forall w2 cmd', rtc billing_step w1 w2 -> w_txs w2 = ∅ ->
      claim_of (Normalize cmd') = claim_of (Normalize cmd) -> varchar 64 (RequestFingerprint (Normalize cmd')) = true ->
      attend (Apply cmd') w2 =
        (if TrimSpace (RequestFingerprint (Normalize cmd)) =s TrimSpace (RequestFingerprint (Normalize cmd'))
         then inr notApplied else inl ErrUsageBillingRequestConflict, with_thread w2).
Proof.
  intros Re E Al Bl. destruct (attend_new cmd w E Bl) as (res & t' & At & Rp).
  destruct (billable_request _ _ _ Bl) as [Ne V1]. pose proof (attend_Apply_steps cmd w E Al) as St.
  exists res, (attend (Apply cmd) w).2. rewrite At in *. cbn [snd] in *. generalize dependent (Normalize cmd). intros c _ _ Rp Ne V1 St.
  set (w1 := publish _ t' _) in *. assert (Re1 : reaches t0 w1) by (destruct Re as [clock R]; exists clock; by etrans).
  assert (L : lawful (OpApply c) (w_clock w) (w_table w) t').
  { pose proof (reaches_good _ _ _ _ _ _ Re1) as [_ _ _ F _]. cbn in F. apply Forall_app in F as [_ F].
    by rewrite Forall_singleton in F. }
  split; [exact eq_refl|]. split; [exact St|]. split; [exact Rp|]. split; [exact eq_refl|]. split; [exact E|]. split; [exact L|].
  intros w2 cmd' St2 E2 Ec V. pose proof (recorded_later t0 w1 w2 _ _ Re1 St2 (charge_recorded c _ _ _ L)) as Rc.
  rewrite <-Ec in Rc. injection Ec as Er _. apply attend_old; [exact E2|by rewrite Er|by rewrite Er|exact V|exact Rc].
Qed.
End Sequential.
