(* ===== verification/BillingRuns.v ===== *)
(** * Particular runs of usage billing

    Schedules of calls, played on the machine of [Transactions.v] with a concrete database.
    They witness the theorems of [BillingSafety.v], and others show what the holds of
    batches do not guarantee: a hold can be paid back after it was captured, and can stay
    frozen for good. *)

From Stdlib Require Import SpecFloat.
From S2P Require Import Prelude GoStrings GoStringsFacts GoFloat GoTime GoCrypto Programs Subscriptions SubscriptionsProofs Transactions BillingTables UsageBilling BatchImages BillingSpec UsageBillingProofs BatchImagesProofs BillingMachine BillingSafety BillingSequential.

#[local] Open Scope Z_scope.

(** ** A concrete environment *)

(** Decimals with all the digits of the binary number, cut off at the last one of an [amount]. *)
Definition cut_decimal (x : float64) : option amount :=
  match x with
  | S754_zero _ => Some 0
  | S754_finite s m e =>
    let v := if 0 <=? e then Zpos m * 2 ^ e * 10 ^ 324 else Z.max 1 (Zpos m * 10 ^ 324 / 2 ^ (- e)) in
    Some (if s then - v else v)
  | _ => None
  end.

Lemma cut_magnitude m e : 0 < (if 0 <=? e then Zpos m * 2 ^ e * 10 ^ 324 else Z.max 1 (Zpos m * 10 ^ 324 / 2 ^ (- e))).
Proof.
  destruct (Z.leb_spec 0 e); [|lia]. pose proof (Z.pow_pos_nonneg 2 e). pose proof (Z.pow_pos_nonneg 10 324). nia.
Qed.

#[export] Instance cutting_env : PgEnv.
Proof.
  refine {| decimal_of := cut_decimal; at_zone _ t := t; of_zone _ t := t; scan l := l |}.
  - intros f a Fx D. destruct f as [[]|[]| |[] m e]; try done. cbn [cut_decimal] in D. simplify_eq. apply cut_magnitude.
  - intros f a Fx D. destruct f as [[]|[]| |[] m e]; try done; cbn [cut_decimal] in D; simplify_eq; try done.
    pose proof (cut_magnitude m e). lia.
  - intros f N. by destruct f.
  - done.
Defined.

Definition noText (e : job_error) : string := "error".
Definition same (s : string) : string := s.

#[local] Existing Instance billing_database.
#[local] Instance db : Database bkey brow bstmt := billing_database UTC.

Notation world := (@world bkey brow _ _ bill_op bstmt bext).
Notation reaches := (reaches UTC same noText 72).
Notation billing_step := (billing_step UTC same noText 72).

(** What the other services answer. *)
Definition services R (x : bext R) : option R :=
  match x in bext R return option R with
  | UnitPrice _ => None
  | NextJobID => Some 1
  | ProviderSubmit b => Some (inr (MkProviderJob ("jobs/" +:+ b) "" ""))
  | ProviderGet _ => Some (Some (MkProviderStatus "succeeded" "" "" ""))
  | ProviderCancel _ | ProviderCleanup _ | Enqueue _ => Some tt
  | ReadResult _ => Some (inr (3, 1))
  end.

(** ** Schedules *)

(** [Steps i n] answers [n] calls of a thread, or as many as it makes. *)
Inductive move := Starts (e : entry) | Once (i : nat) (d : delivery) | Steps (i : nat) (n : nat) | Waits (d : Z).

Fixpoint answered (i n : nat) (w : world) : option world :=
  match n with
  | O => Some w
  | S n => match w_threads w !! i with
           | Some (Ret _) => Some w
           | _ => w' ← play_step services i Answered w; answered i n w'
           end
  end.

Definition play1 (m : move) (w : world) : option world :=
  match m with
  | Starts e => if allowed (w_table w) e then Some (w <| w_threads := w_threads w ++ [program_of same noText 72 e] |>) else None
  | Once i d => play_step services i d w
  | Steps i n => answered i n w
  | Waits d => if 0 <=? d then Some (w <| w_clock := w_clock w + d |>) else None
  end.

Fixpoint play (ms : list move) (w : world) : option world :=
  match ms with [] => Some w | m :: ms => w' ← play1 m w; play ms w' end.

Lemma answered_sound i n (w w' : world) : answered i n w = Some w' -> rtc billing_step w w'.
Proof.
  revert w. induction n as [|n IH]; intros w E; cbn in E; [by simplify_eq|].
  assert (G : (w' ← play_step services i Answered w; answered i n w') = Some w' -> rtc billing_step w w').
  { intros X. destruct (play_step services i Answered w) as [w1|] eqn:P; cbn in X; [|done].
    eapply rtc_l; [by eapply play_step_sound|by apply IH]. }
  destruct (w_threads w !! i) as [[]|]; [by simplify_eq|by apply G..].
Qed.

Lemma schedule1_sound m (w w' : world) : play1 m w = Some w' -> rtc billing_step w w'.
Proof.
  destruct m as [e|i d|i n|d]; cbn; intros E.
  - destruct (allowed _ _) eqn:A; [|done]. simplify_eq. apply rtc_once, step_start. by exists e.
  - apply rtc_once. by eapply play_step_sound.
  - by eapply answered_sound.
  - destruct (Z.leb_spec 0 d); [|done]. simplify_eq. apply rtc_once, step_tick. lia.
Qed.

Lemma schedule_sound ms (w w' : world) : play ms w = Some w' -> rtc billing_step w w'.
Proof.
  revert w. induction ms as [|m ms IH]; intros w E; cbn in E; [by simplify_eq|].
  destruct (play1 m w) as [w1|] eqn:P; cbn in E; [|done]. eapply rtc_trans; [by eapply schedule1_sound|by apply IH].
Qed.

Lemma play_reaches clock t0 ms (w : world) : play ms (start clock t0) = Some w -> reaches t0 w.
Proof. intros E. exists clock. by eapply schedule_sound. Qed.

(** ** A user with a key *)

Definition noon : Z := 1700000000 * Second.

Definition someone : user_row := MkUser 10000000000 0 None.
Definition somekey : key_row := MkKey "active" 0 0 0 0 0 None None None None.

Definition tables0 : tables := <[ KUser 7 := RUser someone ]> {[ KKey 3 := RKey somekey ]}.

Definition batch (b : string) : submission :=
  MkSubmission 7 3 5 "vertex" "imagen" 4 "hash" "" b (float_of_Z 4) (float_of_Z 4) (float_of_Z 1).

Definition charge : UsageBillingCommand :=
  MkCommand "req-1" 3 "" "" 7 5 None "apikey" "openai" "gpt" "" "" 0 10 20 0 0 0 ""
    (fdiv (float_of_Z 5) (float_of_Z 2)) fzero (fdiv (float_of_Z 5) (float_of_Z 2)) fzero fzero.

Definition ops_of (w : world) : list (hold_kind * string) :=
  omap (fun o => match hold_command o with Some (k, c) => Some (k, h_BatchID c) | None => None end) (committed (w_trace w)).

Definition statuses (w : world) (b : string) : option (string * Z) :=
  match job_at (w_table w) b with Some j => Some (j_Status j, j_RetryCount j) | None => None end.

Definition money_of (w : world) : Z * Z := (balance (w_table w) 7, frozen (w_table w) 7).

Definition finished (w : world) : bool := forallb (fun p => match p with Ret _ => true | _ => false end) (w_threads w).

Lemma tables0_keyed : keyed tables0.
Proof. intros b j E%job_at_Some. unfold tables0 in E. apply lookup_insert_Some in E as [[? ?]|[_ E]]; [done|]. by apply lookup_singleton_Some in E as [? ?]. Qed.

Lemma tables0_frozen : frozen_ok tables0.
Proof.
  intros id u E%user_at_Some. unfold tables0 in E. apply lookup_insert_Some in E as [[? ?]|[_ E]]; [by simplify_eq|].
  by apply lookup_singleton_Some in E as [? ?].
Qed.

(** The tables and the changes of a run. *)
Definition result_of (ms : list move) : world := default (start 0 ∅) (play ms (start noon tables0)).

Lemma result_reached ms : found (play ms (start noon tables0)) = true -> reaches tables0 (result_of ms).
Proof.
  intros F. unfold result_of. destruct (play ms _) as [w|] eqn:P; [|done]. by eapply play_reaches.
Qed.

(** A thread that is not disturbed. *)
Definition whole (i : nat) (e : entry) : list move := [Starts e; Steps i 100].

Notation batch_a := "imgbatch_a".
Notation batch_b := "imgbatch_b".

(** ** An ordinary day

    A request is charged; the answer to its commit is lost and the client tries again.  Then a
    batch is submitted, processed and settled. *)

Definition ordinary : list move :=
  [Starts (EApply charge); Steps 0 5; Once 0 Unanswered; Steps 0 100] ++ whole 1 (EApply charge) ++
  whole 2 (ESubmit (batch batch_a)) ++ whole 3 (EProcess batch_a) ++ whole 4 (ESettle batch_a).

Lemma ordinary_day :
  found (play ordinary (start noon tables0)) = true /\
  finished (result_of ordinary) = true /\
  money_of (result_of ordinary) = (9450000000, 0) /\
  statuses (result_of ordinary) batch_a = Some ("completed", 0) /\
  ops_of (result_of ordinary) = [(Reserves, batch_a); (Captures, batch_a)] /\
  requests (w_trace (result_of ordinary))
    = [("req-1", 3); ("batch_image_hold:imgbatch_a", 3); ("batch_image_capture:imgbatch_a", 3)].
Proof. vm_compute. repeat split. Qed.

(** ** A hold that is captured and released

    Two batches are submitted and the first is settled.  Four attempts do not reach the
    database; the fifth captures the hold, but the answer to the commit is lost.  The service
    gives the settlement up and releases the hold that it has captured: the amount that was
    held for the second batch. *)

Definition unreachable (i : nat) : list move :=
  [Starts (ESettle batch_a); Once i Answered; Once i Unsent; Steps i 100].

Definition given_up : list move :=
  whole 0 (ESubmit (batch batch_a)) ++ whole 1 (ESubmit (batch batch_b)) ++ whole 2 (EProcess batch_a) ++
  unreachable 3 ++ unreachable 4 ++ unreachable 5 ++ unreachable 6 ++
  [Starts (ESettle batch_a); Steps 7 5; Once 7 Unanswered; Steps 7 100] ++
  whole 8 (EProcess batch_b) ++ whole 9 (ESettle batch_b).

Lemma given_up_run :
  found (play given_up (start noon tables0)) = true /\ finished (result_of given_up) = true /\
  ops_of (result_of given_up) = [(Reserves, batch_a); (Reserves, batch_b); (Captures, batch_a); (Releases, batch_a)] /\
  money_of (result_of given_up) = (9700000000, 0) /\
  statuses (result_of given_up) batch_a = Some ("failed", 5) /\
  statuses (result_of given_up) batch_b = Some ("settling", 1).
Proof. vm_compute. repeat split. Qed.

(** ** A hold that is never released

    A batch is cancelled after its job was created and before its hold is reserved.  The
    release finds nothing to release, but uses up the claim for it. *)

Definition cancelled_early : list move :=
  [Starts (ESubmit (batch batch_a)); Steps 0 2] ++ whole 1 (ECancel 7 3 batch_a) ++ [Steps 0 100].

Definition early_op (n : nat) : bill_op :=
  match committed (w_trace (result_of cancelled_early)) !! n with Some o => o | None => OpJob "" end.

Definition hold_at (o : bill_op) : option (hold_kind * string) :=
  match hold_command o with Some (k, c) => Some (k, h_BatchID c) | None => None end.

Lemma cancelled_early_run :
  found (play cancelled_early (start noon tables0)) = true /\ finished (result_of cancelled_early) = true /\
  ops_of (result_of cancelled_early) = [(Releases, batch_a); (Reserves, batch_a)] /\
  money_of (result_of cancelled_early) = (9600000000, 400000000) /\
  statuses (result_of cancelled_early) batch_a = Some ("cancelled", 0) /\
  (4 <= length (committed (w_trace (result_of cancelled_early))))%nat /\
  hold_at (early_op 1) = Some (Releases, batch_a) /\ hold_at (early_op 2) = Some (Reserves, batch_a).
Proof. vm_compute. repeat split; auto. Qed.

(** A batch whose reservation is committed, but not answered.  The job is marked failed and
    hidden from its owner; an hour later neither the owner nor the recovery finds it. *)
Definition unanswered_reservation : list move :=
  [Starts (ESubmit (batch batch_a)); Steps 0 6; Once 0 Unanswered; Steps 0 100; Waits Hour] ++
  whole 1 (ECancel 7 3 batch_a) ++ whole 2 (ERecover 0 0).

Definition hidden (w : world) (b : string) : bool :=
  match job_at (w_table w) b with Some j => bool_decide (j_UserDeletedAt j <> None) | None => false end.

Lemma unanswered_reservation_run :
  found (play unanswered_reservation (start noon tables0)) = true /\ finished (result_of unanswered_reservation) = true /\
  ops_of (result_of unanswered_reservation) = [(Reserves, batch_a)] /\
  money_of (result_of unanswered_reservation) = (9600000000, 400000000) /\
  statuses (result_of unanswered_reservation) batch_a = Some ("failed", 0) /\
  hidden (result_of unanswered_reservation) batch_a = true.
Proof. vm_compute. repeat split. Qed.

(** ** Theorems *)

#[local] Opaque result_of play.

Lemma ordinary_reached : reaches tables0 (result_of ordinary).
Proof. destruct ordinary_day as (F & _). exact (result_reached ordinary F). Qed.

Lemma billing_runs_are_lawful_witness :
  reaches tables0 (result_of ordinary) /\ money_of (result_of ordinary) = (9450000000, 0) /\
  chain tables0 (w_trace (result_of ordinary)) (w_table (result_of ordinary)) /\
  Forall (event_ok outside (lawful UTC same) quiet) (w_trace (result_of ordinary)).
Proof.
  pose proof ordinary_day as (_ & _ & M & _). split; [exact ordinary_reached|]. split; [exact M|].
  apply (billing_runs_are_lawful UTC same noText 72 tables0 (result_of ordinary)). exact ordinary_reached.
Defined.

Lemma no_request_is_billed_twice_witness :
  requests (w_trace (result_of ordinary))
    = [("req-1", 3); ("batch_image_hold:imgbatch_a", 3); ("batch_image_capture:imgbatch_a", 3)] /\
  NoDup (requests (w_trace (result_of ordinary))) /\
  forall c, c ∈ requests (w_trace (result_of ordinary)) -> ~ claimed tables0 c /\ claimed (w_table (result_of ordinary)) c.
Proof.
  pose proof ordinary_day as (_ & _ & _ & _ & _ & R). split; [exact R|].
  apply (no_request_is_billed_twice UTC same noText 72 tables0 (result_of ordinary)). exact ordinary_reached.
Defined.

Lemma balances_are_accounted_for_witness :
  money_of (result_of ordinary) = (9450000000, 0) /\
  2 * Z.abs ((balance (w_table (result_of ordinary)) 7 - balance tables0 7) * unit8 - (total 7 (w_trace (result_of ordinary))).1)
    <= rounded 7 (w_trace (result_of ordinary)) * unit8 /\
  0 <= frozen (w_table (result_of ordinary)) 7.
Proof.
  pose proof ordinary_day as (_ & _ & M & _). split; [exact M|].
  destruct (balances_are_accounted_for UTC same noText 72 tables0 (result_of ordinary) 7 ordinary_reached tables0_frozen)
    as (A & _ & F). exact (conj A F).
Defined.

Lemma start_reached : reaches tables0 (start noon tables0).
Proof. exists noon. apply rtc_refl. Qed.

Lemma a_new_request_is_charged_witness :
  billable UTC same noon tables0 (Normalize charge) = true /\
  exists res w1, attend (Apply same charge) (start noon tables0) = (inr res, w1) /\
    reports (Normalize charge) tables0 (w_table w1) res /\
    lawful UTC same (OpApply (Normalize charge)) noon tables0 (w_table w1) /\
    attend (Apply same charge) w1
      = (if TrimSpace (RequestFingerprint (Normalize charge)) =s TrimSpace (RequestFingerprint (Normalize charge))
         then inr notApplied else inl ErrUsageBillingRequestConflict,
         w1 <| w_threads := w_threads w1 ++ [Ret tt] |>).
Proof.
  assert (B : billable UTC same noon tables0 (Normalize charge) = true) by (vm_compute; reflexivity).
  assert (Al : allowed tables0 (EApply charge) = true) by (vm_compute; reflexivity).
  assert (V : varchar 64 (RequestFingerprint (Normalize charge)) = true) by (vm_compute; reflexivity).
  split; [exact B|].
  destruct (a_new_request_is_charged UTC same noText 72 tables0 (start noon tables0) charge start_reached eq_refl Al B)
    as (res & w1 & At & St & Rp & Tr & Tx & L & Again).
  exists res, w1. split; [exact At|]. split; [exact Rp|]. split; [exact L|].
  apply Again; [apply rtc_refl|exact Tx|reflexivity|exact V].
Defined.


Lemma early_op_at n : (n < 4)%nat -> committed (w_trace (result_of cancelled_early)) !! n = Some (early_op n).
Proof.
  intros L. unfold early_op. destruct (committed _ !! n) eqn:E; [done|]. apply lookup_ge_None_1 in E.
  destruct cancelled_early_run as (_ & _ & _ & _ & _ & Len & _). lia.
Qed.

Lemma hold_at_command o k b : hold_at o = Some (k, b) -> exists c, hold_command o = Some (k, c) /\ h_BatchID c = b.
Proof. unfold hold_at. destruct (hold_command o) as [[k' c]|]; [|done]. intros [= -> Eb]. by exists c. Qed.

(** The operations that were committed stay in the history. *)
Lemma committed_later (w w' : world) n o :
  rtc billing_step w w' -> committed (w_trace w) !! n = Some o -> committed (w_trace w') !! n = Some o.
Proof.
  intros [l E]%steps_prefix. unfold committed. rewrite E, omap_app. apply lookup_app_l_Some.
Qed.

Lemma early_release_stays :
  forall (w' : world) n o c, rtc billing_step (result_of cancelled_early) w' -> committed (w_trace w') !! n = Some o ->
    hold_command o = Some (Releases, c) -> h_BatchID c = batch_a -> n = 1%nat.
Proof.
  pose proof cancelled_early_run as (Fd & _ & _ & _ & _ & _ & At & _).
  pose proof (result_reached cancelled_early Fd) as Re.
  intros w' n o c R L Hc Eb. destruct (hold_at_command _ _ _ At) as (c0 & Hc0 & Eb0).
  assert (Re' : reaches tables0 w') by (destruct Re as [clock Re]; exists clock; by etrans).
  assert (L0 : committed (w_trace w') !! 1%nat = Some (early_op 1)) by (eapply committed_later; [exact R|]; apply early_op_at; lia).
  destruct (holds_agree UTC same noText 72 tables0 w' n 1%nat o (early_op 1) Releases Releases c c0
    Re' tables0_keyed L L0 Hc Hc0) as [_ Same]; [congruence|]. exact (Same eq_refl).
Qed.

(** C40. Holds can stay frozen for good.  If a batch is cancelled while it is being submitted,
    its release can come before its reservation: it releases nothing, and in whatever follows
    the hold is not released again.  If the commit of a reservation is not answered, the batch
    is marked failed and hidden without a release, and neither its owner nor the recovery of
    stale batches gives the hold back. *)
Theorem holds_can_be_stranded :
  (exists w : world, reaches tables0 w /\ finished w = true /\
    ops_of w = [(Releases, batch_a); (Reserves, batch_a)] /\
    money_of w = (9600000000, 400000000) /\ statuses w batch_a = Some ("cancelled", 0) /\
    forall (w' : world) n o c, rtc billing_step w w' -> committed (w_trace w') !! n = Some o ->
      hold_command o = Some (Releases, c) -> h_BatchID c = batch_a -> n = 1%nat) /\
  (exists w : world, reaches tables0 w /\ finished w = true /\
    ops_of w = [(Reserves, batch_a)] /\
    money_of w = (9600000000, 400000000) /\ statuses w batch_a = Some ("failed", 0) /\ hidden w batch_a = true).
Proof.
  split.
  - exists (result_of cancelled_early). pose proof cancelled_early_run as (Fd & Fi & Ops & Mo & St & _).
    split; [exact (result_reached cancelled_early Fd)|]. do 4 (split; [assumption|]). exact early_release_stays.
  - exists (result_of unanswered_reservation). pose proof unanswered_reservation_run as (F & R).
    split; [exact (result_reached unanswered_reservation F)|exact R].
Qed.

Lemma one_hold_per_batch_witness : exists c1 c2,
  hold_command (early_op 1) = Some (Releases, c1) /\ hold_command (early_op 2) = Some (Reserves, c2) /\
  hold_terms c1 = hold_terms c2.
Proof.
  pose proof cancelled_early_run as (Fd & _ & _ & _ & _ & _ & A1 & A2).
  destruct (hold_at_command _ _ _ A1) as (c1 & H1 & B1). destruct (hold_at_command _ _ _ A2) as (c2 & H2 & B2).
  exists c1, c2. split; [exact H1|]. split; [exact H2|].
  apply (one_hold_per_batch UTC same noText 72 tables0 (result_of cancelled_early) 1 2 (early_op 1) (early_op 2)
    Releases Reserves c1 c2); [exact (result_reached cancelled_early Fd)|exact tables0_keyed|apply early_op_at; lia
    |apply early_op_at; lia|exact H1|exact H2|congruence].
Defined.
